(* ===== verification/_CoqProject ===== *)
-Q . S2P
Prelude.v
Flash.v
ConfigStore.v
ConfigStoreFacts.v
ConfigStoreWrite.v
ConfigStoreProofs.v
Json.v
JsonProofs.v
CmdTable.v
CmdGate.v
GateTheorems.v
FwSign.v
PodPolicy.v
StoreTheorems.v
PolicyTheorems.v
BootGuard.v
BootTheorems.v
Recovery.v
RecoveryTheorems.v
B64.v
BlobStore.v
BlobTheorems.v
PsramRegions.v
Ota.v
OtaSession.v
OtaTheorems.v
HmacSha.v
Bwp.v
BwpTheorems.v
Pairing.v
L2fwd.v
BridgeUtil.v
BridgeOta.v
BridgeControl.v
BridgeTheorems.v
OtaCommit.v
OtaCommitTheorems.v
Worker.v
WorkerTheorems.v
ConnTx.v
WsFrame.v
ReplyCap.v
Psram.v
CloudClient.v
CloudLemmas.v
CloudTheorems.v
LanTls.v
LanTlsTheorems.v
NetUtil.v
NetServer.v
NetTheorems.v
NetCerts.v
NetStreams.v
Dap.v
DapTheorems.v
DapBatch.v
DapEquiv.v
SwdLl.v
SwdTheorems.v
SwdBatch.v
WifiBridge.v
WifiBridgeTheorems.v
TlsLayer.v
TlsTheorems.v
EspRom.v
EspRomTheorems.v
EspFlash.v
EspFlashTheorems.v
LaPins.v
LaPinsTheorems.v
Capture.v
CaptureRun.v
CaptureTheorems.v
CaptureRead.v
CaptureChange.v
