(* ===== verification/Prelude.v ===== *)
(** * BenchPod firmware: verification development

    The repository is the firmware of a bench instrument (an STM32H563 pod,
    [stm32h563/src/]) and of its ESP32 Wi-Fi bridge ([wifi-bridge/]). This
    library models the parts of both that decide what is stored, who may do
    what, what is installed, what is accepted from the wire and what a client
    is told was measured, and proves what they are relied on for.

    ** How the program's parts fit, and where each is modelled

    - The pod's own flash: [flash_layout.c], [flash_compat.c] in [Flash] (a class
      [FlashDev] for the HAL). On it, the two-slot records of [config_store.c] in
      [ConfigStore] ([ConfigStoreFacts], [ConfigStoreWrite], [ConfigStoreProofs]:
      lemmas; [StoreTheorems]: what a power cut, a save, a clear leave behind).
    - JSON lines: [bp_json.c] in [Json], [JsonProofs]. The verbs and their tiers:
      [cmd_tier.c] in [CmdTable]. The gates a line passes, the LAN lease and the
      dispatch: [cmd_gate.c], [lease_gate.c], [command_handler.c] in [CmdGate],
      [GateTheorems].
    - Signed firmware: [fw_sign.c], [fw_info.c] in [FwSign]. Who may change the
      signature, LAN and USB policy: [pod_policy.c] and the handlers of
      [command_handler_policy.c] in [PodPolicy], [PolicyTheorems] (over the
      record store).
    - Starting up: [boot_guard.c], [boot_policy.c] in [BootGuard],
      [BootTheorems]. Recovering at run time: [recovery.c] in [Recovery],
      [RecoveryTheorems].
    - Updates: [ota.c] in [Ota], its invariant over every sequence of calls in
      [OtaSession], [OtaTheorems]. It checks signatures with [FwSign], takes
      base64url chunks with [B64] ([b64url.c]), stages into PSRAM ([PsramRegions]:
      [psram_regions.c]) and installs into the QSPI flash with [BlobStore]
      ([blob_store.c]; [BlobTheorems]) or over the running image with
      [OtaCommit], [OtaCommitTheorems] ([ota_commit.c], class [CommitHw]).
    - The hardware worker and the rings around it: the job queue and the
      connection events of [hw_worker.c] in [Worker], [WorkerTheorems]; the
      outbound rings of [conn_tx.c] in [ConnTx].
    - The cloud link: WebSocket frames ([ws_frame.c], [cloud_rx.c]) in [WsFrame],
      the capture of a command's reply ([cloud_reply_cap.c]) in [ReplyCap], the
      client's state machine ([cloud_client.c]) in [CloudClient], [CloudLemmas],
      [CloudTheorems]. Under it and under the LAN server, the layer between
      TCP and mbedTLS ([altcp_tls_mbedtls_bp.c], classes [Ssl], [SslLaws]) in
      [TlsLayer], [TlsTheorems].
    - The LAN side: the certificate and its bundle ([lan_tls.c], [lan_tls_pem.c])
      in [LanTls], [LanTlsTheorems]; small utilities of the net task in
      [NetUtil]; the server, its connections and the poll ([net_server.c]) in
      [NetServer], [NetTheorems], [NetCerts], [NetStreams].
    - Debug probes: the CMSIS-DAP processor ([dap.c], classes [SwdPort],
      [SwdLaws], [QueueTransfer], [SwdQueue]) in [Dap], [DapTheorems], [DapBatch],
      [DapEquiv]; the line it drives ([swd_ll.c], classes [SwdLink], [SwdTarget])
      in [SwdLl], [SwdTheorems], [SwdBatch].
    - The pins: the ownership table, its pull-downs, the gpio and step commands
      ([la_pins.c], [command_handler_pins.c]) in [LaPins], [LaPinsTheorems].
    - Captures: the zones of the shared PSRAM ([psram_alloc.c], [bus_owner.c]) in
      [Psram]; the capture commands, the trigger, the scan of a change stream, the
      polls ([command_handler_capture.c]) in [CaptureRun] and its paced read-back
      in [Capture]; [CaptureTheorems], [CaptureRead], [CaptureChange] (what the
      client gets).
    - The bridge: [hmac_sha256.c] in [HmacSha], the control protocol [bwp.c],
      [bwp_crypto.c] in [Bwp], [BwpTheorems]; pairing in [Pairing], the layer-2
      forwarder in [L2fwd], utilities in [BridgeUtil], its own update in
      [BridgeOta] (class [EspOta]), the control task in [BridgeControl],
      [BridgeTheorems]. The pod's end of it: the client ([wifi_bridge.c]) in
      [WifiBridge], [WifiBridgeTheorems]; writing the module's flash over its ROM
      loader ([esp_rom_job.c], [esp_rom_flash.c], [esp_part_table.c], classes [Md5],
      [Md5Laws]) in [EspRom], [EspRomTheorems], [EspFlash], [EspFlashTheorems].

    ** Conventions

    Names are the source's. A w-bit integer is a [Z], wrapped with [u8], [u16],
    [u32] where the C wraps; a byte buffer is a [list Z], a C string the list of
    its bytes before the NUL. A component's static variables are one record,
    threaded through its operations; an operation returns its new state beside
    its result. Errors are the source's codes, or [None] for a null result.

    Hardware and code outside the repository's own sources is an argument: the
    classes named above with [FlashDev], [W25q], [Sha256], [Psram], [Monocypher] and
    [MonocypherBox], the record [ota_env] for build-time hooks, and, where a step
    meets the world many times (a poll, a frame, an interrupt), a list of the
    world's answers that every theorem quantifies over. A theorem that assumes
    something of them has a witness at a concrete instance.

    ** Bounds and fuel

    Loops run on fuel or on the structure of their data; the fuel is a number of
    steps the loop cannot exceed (the bytes left, the items left, the pages of a
    blob), and where that is not plain from the definition a theorem says so: a
    frame of a change read-back decodes at most 8 reads of 85 events and what was
    buffered, below its 800 ([CaptureChange.chg_fuel_enough]); the receive loops
    of the TLS layer return whenever fewer bytes arrive than the fuel
    ([TlsTheorems.layer_returns]); a ROM job sends at most 3 frames per block and
    17 more ([EspRomTheorems.job_bounded]). The drain of a ring (2048), the tries
    of a submit (100) and the entries of a partition table (95) are the source's
    own limits.

    ** What the theorems show

    Each property is a theorem whose comment starts with its claim number.

    - Store, blob, commit and policy: what survives a power cut between or inside
      flash operations, and that only physical presence loosens a policy.
    - Gate and dispatch: the tier, lease and lock rules hold for every line that
      reaches a handler.
    - Update: nothing unsigned is installed where signatures are required, over
      any sequence of calls by any owners; the same for the bridge's image.
    - Boot and recovery: crash loops end in safe mode; resets stay within budgets.
    - Protocols: frames round-trip, an accepted signature covers every byte,
      recorded requests are worthless, only the paired peer is answered, a pod
      that lost count is heard again.
    - Cloud, LAN and TLS: what a plaintext or an untrusted link can reach, the
      order of frames and plaintext, windows that neither leak nor overrun, rings
      that refine a FIFO, connections whose end is never lost.
    - Probes: a recorded batch answers as the transfers one by one do, and what
      goes out is the SWD protocol.
    - Pins: the wire follows the table; no engaged pull-down meets a function that
      cannot live with it.
    - Captures: the gate and the bus are held exactly as long as a capture needs
      them; what a client reads back is what is in the PSRAM, sample for sample,
      for ADC samples, raw LA words and change streams.

    ** Not modelled

    The drivers and the HAL (SPI, I2C, DMA, Ethernet MAC, USB), the RTOS and its
    locks (each modelled component is called under one lock, or its steps are
    interleaved explicitly), the network stacks (lwIP, mbedTLS), vendored code
    (Monocypher), generated code, floating-point sample processing and rates
    (rounded numbers are given), the FPGA gateware, host tools and tests, the
    console and SCPI shells. Within modelled files: the signed [long] overflow of
    a content length in [cloud_client.c], the division by a zero clock in
    [swd_ll.c], the wrap of the bridge client's 64-bit counter, the register setup
    of the ROM loader's UART, capture counts of 2^32 and more, the waveform pool's
    bookkeeping in [dac_trace_note_capture], and the temporary base a change capture
    programs and restores in [signal_engine.c]. The components list of the
    manifest says it part by part. *)

From Stdlib Require Export ZArith Lia.
From stdpp Require Export base list strings gmap.
Open Scope Z_scope.

(** ** Machine integers

    A C unsigned integer of width w is a [Z] in [0, 2^w); arithmetic that can
    leave that range is wrapped explicitly where the source wraps. *)

Definition u8 (z : Z) : Z := z mod 256.
Definition u16 (z : Z) : Z := z mod 65536.
Definition u32 (z : Z) : Z := z mod 4294967296.

(** The cast [(int32_t)x] of a 32-bit word (two's complement). *)
Definition s32 (z : Z) : Z :=
  let w := u32 z in if w <? 2147483648 then w else w - 4294967296.

Lemma u32_range z : 0 <= u32 z < 4294967296.
Proof. apply Z.mod_pos_bound. lia. Qed.

Lemma u16_range z : 0 <= u16 z < 65536.
Proof. apply Z.mod_pos_bound. lia. Qed.

Lemma u8_range z : 0 <= u8 z < 256.
Proof. apply Z.mod_pos_bound. lia. Qed.

Lemma u32_id z : 0 <= z < 4294967296 -> u32 z = z.
Proof. apply Z.mod_small. Qed.

Lemma u16_id z : 0 <= z < 65536 -> u16 z = z.
Proof. apply Z.mod_small. Qed.

Lemma u8_id z : 0 <= z < 256 -> u8 z = z.
Proof. apply Z.mod_small. Qed.

Lemma s32_range z : -2147483648 <= s32 z < 2147483648.
Proof. unfold s32. pose proof (u32_range z). case_match; lia. Qed.

(** Unfolds the wrap-around of the machine integers into equations [lia] can
    use. *)
Ltac wrap_lia :=
  unfold s32, u32, u16, u8 in *; Z.div_mod_to_equations; lia.

(** Case analysis on the boolean tests of a definition; every branch keeps its
    test as an equation that [lia] understands. *)
Ltac branch := repeat (case_match; simplify_eq/=); try done; try lia.

(** ** Bytes and little-endian words *)

Definition byte_ok (b : Z) : Prop := 0 <= b < 256.
Definition bytes_ok (l : list Z) : Prop := Forall byte_ok l.

#[export] Instance byte_ok_dec b : Decision (byte_ok b).
Proof. unfold byte_ok. apply _. Defined.
#[export] Instance bytes_ok_dec l : Decision (bytes_ok l).
Proof. unfold bytes_ok. apply _. Defined.

(** The value of a little-endian byte string, and its [n]-byte encoding. *)
Fixpoint rd_le (l : list Z) : Z :=
  match l with [] => 0 | b :: l' => b + 256 * rd_le l' end.

Fixpoint le (n : nat) (z : Z) : list Z :=
  match n with O => [] | S n' => z mod 256 :: le n' (z / 256) end.

(** [n] bytes of [l] starting at [off]. *)
Definition sub {A} (off n : nat) (l : list A) : list A := take n (drop off l).

Lemma le_length n z : length (le n z) = n.
Proof. revert z. induction n; intros; simpl; auto. Qed.

Lemma le_bytes n z : bytes_ok (le n z).
Proof.
  revert z. induction n as [|n IH]; intros z; constructor; [|apply IH].
  apply Z.mod_pos_bound. lia.
Qed.

Lemma rd_le_range l : bytes_ok l -> 0 <= rd_le l < 256 ^ Z.of_nat (length l).
Proof.
  induction 1 as [|b l Hb Hl IH]; cbn [length rd_le]; [simpl; lia|].
  rewrite Nat2Z.inj_succ, Z.pow_succ_r by lia. unfold byte_ok in Hb. lia.
Qed.

Lemma rd_le_le n z : 0 <= z < 256 ^ Z.of_nat n -> rd_le (le n z) = z.
Proof.
  revert z. induction n as [|n IH]; intros z Hz; simpl; [simpl in Hz; lia|].
  rewrite IH; [pose proof (Z.div_mod z 256); lia|].
  rewrite Nat2Z.inj_succ, Z.pow_succ_r in Hz by lia.
  split; [apply Z.div_pos; lia|apply Z.div_lt_upper_bound; lia].
Qed.

Lemma le_rd_le l : bytes_ok l -> le (length l) (rd_le l) = l.
Proof.
  induction 1 as [|b l Hb Hl IH]; simpl; [done|]. unfold byte_ok in Hb.
  assert (E : b + 256 * rd_le l = b + rd_le l * 256) by lia.
  f_equal.
  - rewrite E, Z_mod_plus_full. apply Z.mod_small. lia.
  - rewrite E, Z.div_add by lia. rewrite Z.div_small by lia. apply IH.
Qed.

Lemma bytes_ok_app l1 l2 : bytes_ok (l1 ++ l2) <-> bytes_ok l1 /\ bytes_ok l2.
Proof. apply Forall_app. Qed.

Lemma sub_length {A} off n (l : list A) :
  (off + n <= length l)%nat -> length (sub off n l) = n.
Proof. intros. unfold sub. rewrite length_take, length_drop. lia. Qed.

Lemma sub_app_l {A} off n (l1 l2 : list A) :
  (off + n <= length l1)%nat -> sub off n (l1 ++ l2) = sub off n l1.
Proof.
  intros H. unfold sub. rewrite drop_app_le by lia.
  rewrite take_app_le by (rewrite length_drop; lia). done.
Qed.

Lemma sub_app_r {A} n (l1 l2 : list A) :
  sub (length l1) n (l1 ++ l2) = take n l2.
Proof. unfold sub. by rewrite drop_app_length. Qed.

(** ** Bitwise complement on 32 bits *)

Definition not32 (z : Z) : Z := Z.lxor 4294967295 z.

Lemma not32_involutive z : not32 (not32 z) = z.
Proof. unfold not32. by rewrite <- Z.lxor_assoc, Z.lxor_nilpotent, Z.lxor_0_l. Qed.

(** ** Shared automation *)

Create HintDb fw.
#[export] Hint Resolve le_bytes u32_range u16_range u8_range : fw.

(** ** Bounds of the bit operations *)

Lemma testbit_high k x i : 0 <= x < 2 ^ k -> 0 <= k <= i -> Z.testbit x i = false.
Proof.
  intros [Hx Hk] Hi. destruct (Z.bounded_iff_bits_nonneg' k x) as [E _]; [lia|lia|].
  apply E; lia.
Qed.

Lemma lxor_bound k x y : 0 <= k -> 0 <= x < 2 ^ k -> 0 <= y < 2 ^ k -> 0 <= Z.lxor x y < 2 ^ k.
Proof.
  intros Hk Hx Hy.
  assert (0 <= Z.lxor x y) by (apply Z.lxor_nonneg; lia). split; [done|].
  apply Z.bounded_iff_bits_nonneg; [done..|]. intros l Hl.
  by rewrite Z.lxor_spec, !(testbit_high k) by lia.
Qed.

Lemma lor_bound k x y : 0 <= k -> 0 <= x < 2 ^ k -> 0 <= y < 2 ^ k -> 0 <= Z.lor x y < 2 ^ k.
Proof.
  intros Hk Hx Hy.
  assert (0 <= Z.lor x y) by (apply Z.lor_nonneg; lia). split; [done|].
  apply Z.bounded_iff_bits_nonneg; [done..|]. intros l Hl.
  by rewrite Z.lor_spec, !(testbit_high k) by lia.
Qed.

Lemma land_bound x y : 0 <= x -> 0 <= y -> 0 <= Z.land x y <= x.
Proof.
  intros Hx Hy. apply Z.ldiff_le; [done|]. apply Z.bits_inj_iff'. intros i Hi.
  rewrite Z.ldiff_spec, Z.land_spec, Z.bits_0. by destruct (Z.testbit x i), (Z.testbit y i).
Qed.

Lemma shiftr_bound k x n : 0 <= n -> 0 <= x < 2 ^ k -> 0 <= Z.shiftr x n < 2 ^ k.
Proof.
  intros Hn Hx. rewrite Z.shiftr_div_pow2 by done.
  assert (0 < 2 ^ n) by (apply Z.pow_pos_nonneg; lia).
  split; [apply Z.div_pos; lia|]. apply Z.div_lt_upper_bound; nia.
Qed.

(** Joining two bit fields: the low one below bit [k]. *)
Lemma lor_shiftl_add k v l : 0 <= k -> 0 <= l < 2 ^ k -> Z.lor (Z.shiftl v k) l = v * 2 ^ k + l.
Proof.
  intros Hk Hl. rewrite <- Z.shiftl_mul_pow2 by done.
  assert (E : Z.land (Z.shiftl v k) l = 0).
  { apply Z.bits_inj_iff'. intros i Hi. rewrite Z.land_spec, Z.bits_0.
    destruct (decide (i < k)).
    - by rewrite Z.shiftl_spec_low.
    - by rewrite (testbit_high k l), andb_false_r by lia. }
  by rewrite Z.add_nocarry_lxor, <- Z.lxor_lor by done.
Qed.

Lemma not32_range z : 0 <= z < 4294967296 -> 0 <= not32 z < 4294967296.
Proof. intros. apply (lxor_bound 32); lia. Qed.

(** ** C strings

    A [char *] is the list of its bytes up to the terminating NUL; a pointer
    into it is a suffix, and [*p] is [deref p] (0 at the end). *)

Abbreviation cstr := (list Z).

Definition deref (p : cstr) : Z := match p with [] => 0 | c :: _ => c end.

(** The bytes of a string literal, and a character constant. *)
Definition chr (a : Ascii.ascii) : Z := Z.of_N (Ascii.N_of_ascii a).
Fixpoint str (s : string) : cstr :=
  match s with EmptyString => [] | String a s' => chr a :: str s' end.

(** No NUL inside, every byte a byte: what a C string is. *)
Definition cstr_ok (p : cstr) : Prop := Forall (fun c => 0 < c < 256) p.
#[export] Instance cstr_ok_dec p : Decision (cstr_ok p).
Proof. unfold cstr_ok. apply _. Defined.

(** [strcmp(a, b) == 0]. *)
Definition streq (a b : cstr) : bool := bool_decide (a = b).

(** ** Formatted output

    The decimal digits of [%u]/[%lu] (a word has at most twenty), and the cut
    of [snprintf] at the size of its buffer. *)

Fixpoint dec_loop (fuel : nat) (z : Z) (acc : cstr) : cstr :=
  let acc := (48 + z mod 10) :: acc in
  if z <? 10 then acc
  else match fuel with O => acc | S fuel' => dec_loop fuel' (z / 10) acc end.
Definition dec (z : Z) : cstr := dec_loop 20 z [].

Definition snprintf_cut (cap : nat) (s : cstr) : cstr := take (cap - 1) s.

(** ** Windows of a byte-addressed memory *)

Definition bytes_at (f : Z -> Z) (a : Z) (n : nat) : list Z := map (fun i => f (a + Z.of_nat i)) (seq 0 n).

Lemma bytes_at_length f a n : length (bytes_at f a n) = n.
Proof. unfold bytes_at. by rewrite length_map, length_seq. Qed.

Lemma bytes_at_lookup f a n i : (i < n)%nat -> bytes_at f a n !! i = Some (f (a + Z.of_nat i)).
Proof. intros Hi. unfold bytes_at. rewrite list_lookup_fmap, lookup_seq_lt by done. done. Qed.

Lemma bytes_at_app f a n m : bytes_at f a (n + m) = bytes_at f a n ++ bytes_at f (a + Z.of_nat n) m.
Proof.
  apply list_eq. intros i. destruct (decide (i < n)%nat) as [Hi|Hi].
  - rewrite lookup_app_l by (by rewrite bytes_at_length). by rewrite !bytes_at_lookup by lia.
  - rewrite lookup_app_r by (rewrite bytes_at_length; lia). rewrite bytes_at_length.
    destruct (decide (i < n + m)%nat) as [Hj|Hj].
    + rewrite !bytes_at_lookup by lia. do 2 f_equal. lia.
    + rewrite !lookup_ge_None_2 by (rewrite bytes_at_length; lia). done.
Qed.

Lemma bytes_at_eq f g a n : (forall x, a <= x < a + Z.of_nat n -> f x = g x) -> bytes_at f a n = bytes_at g a n.
Proof. intros E. apply map_ext_in. intros i Hi%in_seq. apply E. lia. Qed.

(** A window that reads as [bs] byte by byte. *)
Lemma bytes_at_is f a bs :
  (forall i b, bs !! i = Some b -> f (a + Z.of_nat i) = b) -> bytes_at f a (length bs) = bs.
Proof.
  intros E. apply list_eq. intros i. destruct (decide (i < length bs)%nat) as [Hi|Hi].
  - destruct (lookup_lt_is_Some_2 bs i Hi) as [b Eb]. rewrite bytes_at_lookup, Eb by done. f_equal. by apply E.
  - by rewrite !lookup_ge_None_2 by (rewrite ?bytes_at_length; lia).
Qed.
