(* ===== verification/Flash.v ===== *)
(** * Internal flash: layout, erase/program and ECC-safe reads

    [flash_layout.h]/[flash_layout.c] (the 2 MB-reference offsets mapped to the
    top of the chip), [flash_compat.c] (erase, program, checked reads on top of
    the vendor HAL), and the interface [FlashDev] the record stores are written
    against. The HAL is a parameter ([HalFlash], with its documented behaviour
    in [HalFlashLaws]); [flash_compat] is shown to implement the interface on
    both chip sizes. *)

From S2P Require Import Prelude.

(** ** flash_layout.h *)

Abbreviation FLASH_LAYOUT_REF_SIZE := 0x200000.
Abbreviation FLASH_LAYOUT_STORE_BASE := 0x1E0000.
Abbreviation FLASH_LAYOUT_SIZE_1MB := 0x100000.
Abbreviation FLASH_LAYOUT_SIZE_2MB := 0x200000.
Abbreviation FLASH_LAYOUT_STORE_SPAN := 0x20000.
Abbreviation FLASH_SHIM_SECTOR_SIZE := 0x2000.

Definition flash_layout_map (ref_off flash_size : Z) : Z :=
  if ref_off <? FLASH_LAYOUT_STORE_BASE then ref_off
  else u32 (ref_off - FLASH_LAYOUT_REF_SIZE + flash_size).

Definition flash_layout_writable (off count flash_size : Z) : bool :=
  (u32 (flash_size - FLASH_LAYOUT_STORE_SPAN) <=? off) && (off <? flash_size)
  && (count <=? u32 (flash_size - off)).

(** The 32-bit word read at FLASHSIZE_BASE decides the part. *)
Definition flash_layout_size (flashsize_word : Z) : Z :=
  let kb := Z.land flashsize_word 0xFFFF in
  if kb =? 1024 then FLASH_LAYOUT_SIZE_1MB else FLASH_LAYOUT_SIZE_2MB.

Definition flash_layout_bank_size (flash_size : Z) : Z := flash_size / 2.

Definition flash_layout_store_off (flash_size ref_off : Z) : Z :=
  flash_layout_map ref_off flash_size.

(** The two parts the firmware supports. *)
Definition flash_part (flash_size : Z) : Prop :=
  flash_size = FLASH_LAYOUT_SIZE_1MB \/ flash_size = FLASH_LAYOUT_SIZE_2MB.

(** A 2 MB-reference address inside the persistence area, and the start of one
    of its 8 KB sectors. *)
Definition persist (a : Z) : Prop :=
  FLASH_LAYOUT_STORE_BASE <= a < FLASH_LAYOUT_REF_SIZE.
Definition persist_sector (off : Z) : Prop :=
  FLASH_LAYOUT_STORE_BASE <= off /\ off + FLASH_SHIM_SECTOR_SIZE <= FLASH_LAYOUT_REF_SIZE /\
  off mod FLASH_SHIM_SECTOR_SIZE = 0.
Definition in_range (p n a : Z) : Prop := p <= a < p + n.

#[export] Instance persist_dec a : Decision (persist a).
Proof. unfold persist. apply _. Defined.
#[export] Instance persist_sector_dec off : Decision (persist_sector off).
Proof. unfold persist_sector. apply _. Defined.
#[export] Instance in_range_dec p n a : Decision (in_range p n a).
Proof. unfold in_range. apply _. Defined.

(** Unfolds the layout constants so that [lia] sees numbers. *)
Ltac layout :=
  unfold flash_part, persist_sector, persist, in_range, flash_layout_writable,
    flash_layout_store_off, flash_layout_map, flash_layout_bank_size in *.

Lemma flash_layout_size_part w : flash_part (flash_layout_size w).
Proof. unfold flash_layout_size, flash_part. case_match; auto. Qed.

Lemma flash_layout_map_persist size a :
  flash_part size -> persist a ->
  flash_layout_map a size = a - FLASH_LAYOUT_REF_SIZE + size.
Proof.
  layout. intros [->| ->] Ha; (destruct (Z.ltb_spec a 0x1E0000); [lia|]);
    apply u32_id; lia.
Qed.

(** ** The interface the stores use *)

Class FlashDev (D : Type) := {
  flash_byte : D -> Z -> option Z;
  flash_erase : D -> Z -> Z -> D;
  flash_program : D -> Z -> list Z -> D;
}.

(** [flash_read_checked]: the byte-copy loop, which stops with -1 at the first
    byte whose read raises an ECC error. *)
Fixpoint flash_read_checked `{FlashDev D} (d : D) (off : Z) (n : nat) : option (list Z) :=
  match n with
  | O => Some []
  | S n' =>
      match flash_byte d off with
      | None => None
      | Some b =>
          match flash_read_checked d (off + 1) n' with
          | None => None
          | Some bs => Some (b :: bs)
          end
      end
  end.

(** What erase and program promise on a sector of the persistence area. *)
Class FlashLaws (D : Type) `{FlashDev D} := {
  fl_erase_in d off a : persist_sector off -> in_range off FLASH_SHIM_SECTOR_SIZE a ->
    flash_byte (flash_erase d off FLASH_SHIM_SECTOR_SIZE) a = Some 255;
  fl_erase_out d off a : persist_sector off -> persist a -> ~ in_range off FLASH_SHIM_SECTOR_SIZE a ->
    flash_byte (flash_erase d off FLASH_SHIM_SECTOR_SIZE) a = flash_byte d a;
  fl_program_in d off p data a : persist_sector off -> off <= p ->
    p + Z.of_nat (length data) <= off + FLASH_SHIM_SECTOR_SIZE ->
    p mod 16 = 0 -> Z.of_nat (length data) mod 16 = 0 -> bytes_ok data ->
    (forall b, in_range p (Z.of_nat (length data)) b -> flash_byte d b = Some 255) ->
    in_range p (Z.of_nat (length data)) a ->
    flash_byte (flash_program d p data) a = data !! Z.to_nat (a - p);
  fl_program_out d off p data a : persist_sector off -> off <= p ->
    p + Z.of_nat (length data) <= off + FLASH_SHIM_SECTOR_SIZE ->
    p mod 16 = 0 -> Z.of_nat (length data) mod 16 = 0 ->
    persist a -> ~ in_range p (Z.of_nat (length data)) a ->
    flash_byte (flash_program d p data) a = flash_byte d a;
}.

Section reads.
Context `{FlashDev D}.
Implicit Types d : D.

Lemma flash_read_checked_length d off n bs :
  flash_read_checked d off n = Some bs -> length bs = n.
Proof.
  revert off bs. induction n as [|n IH]; simpl; intros off bs E; [by simplify_eq|].
  repeat case_match; simplify_eq/=. f_equal. eauto.
Qed.

Lemma flash_read_checked_ext d d' off n :
  (forall a, in_range off (Z.of_nat n) a -> flash_byte d a = flash_byte d' a) ->
  flash_read_checked d off n = flash_read_checked d' off n.
Proof.
  unfold in_range. revert off. induction n as [|n IH]; intros off E; [done|]. cbn.
  rewrite E by lia. rewrite IH; [done|]. intros. apply E. lia.
Qed.

(** Reading [n + m] bytes is reading [n] bytes and then [m]. *)
Lemma flash_read_checked_app d off n m :
  flash_read_checked d off (n + m) =
    (xs ← flash_read_checked d off n;
     ys ← flash_read_checked d (off + Z.of_nat n) m; Some (xs ++ ys)).
Proof.
  revert off. induction n as [|n IH]; intros off.
  - cbn. rewrite Z.add_0_r. by destruct (flash_read_checked d off m).
  - cbn [Nat.add flash_read_checked]. destruct (flash_byte d off); [|done].
    rewrite IH. replace (off + 1 + Z.of_nat n) with (off + Z.of_nat (S n)) by lia.
    destruct (flash_read_checked d (off + 1) n); [|done]. cbn.
    by destruct (flash_read_checked d (off + Z.of_nat (S n)) m).
Qed.

(** A region whose bytes read as [bs] reads back as [bs], and conversely. *)
Lemma flash_read_checked_Some d off bs :
  (forall a, in_range off (Z.of_nat (length bs)) a ->
     flash_byte d a = bs !! Z.to_nat (a - off)) ->
  flash_read_checked d off (length bs) = Some bs.
Proof.
  unfold in_range. revert off. induction bs as [|b bs IH]; intros off E; [done|].
  cbn [length flash_read_checked] in *.
  rewrite (E off) by lia. rewrite Z.sub_diag. simpl.
  rewrite IH; [done|]. intros a Ha. rewrite E by lia.
  replace (Z.to_nat (a - off)) with (S (Z.to_nat (a - (off + 1)))) by lia. done.
Qed.

Lemma flash_read_checked_lookup d off n bs a :
  flash_read_checked d off n = Some bs -> in_range off (Z.of_nat n) a ->
  flash_byte d a = bs !! Z.to_nat (a - off).
Proof.
  unfold in_range. revert off bs. induction n as [|n IH]; intros off bs E Ha; [lia|].
  cbn in E. destruct (flash_byte d off) eqn:Eb; [|done].
  destruct (flash_read_checked d (off + 1) n) eqn:Er; [|done]. simplify_eq.
  destruct (decide (a = off)) as [->|]; [by rewrite Z.sub_diag|].
  rewrite (IH _ _ Er) by lia.
  replace (Z.to_nat (a - off)) with (S (Z.to_nat (a - (off + 1)))) by lia. done.
Qed.

End reads.

(** ** flash_compat.c over the vendor HAL *)

Abbreviation FLASH_BASE := 0x08000000.
Abbreviation H5_SECTOR_SIZE := 0x2000.
Abbreviation FLASH_BANK_1 := 1.
Abbreviation FLASH_BANK_2 := 2.

(** The HAL calls [flash_compat.c] makes: a byte read ([None]: the read raised
    an ECC double error or a precise bus fault), [HAL_FLASHEx_Erase] of sectors
    of one bank, and a quad-word [HAL_FLASH_Program]. *)
Class HalFlash (H : Type) := {
  hal_read : H -> Z -> option Z;
  HAL_FLASHEx_Erase : H -> Z -> Z -> Z -> H;
  HAL_FLASH_Program : H -> Z -> list Z -> H;
}.

Definition bank_base (flash_size bank : Z) : Z :=
  FLASH_BASE + (bank - 1) * flash_layout_bank_size flash_size.

(** Documented behaviour of the HAL on a part of [flash_size] bytes. *)
Class HalFlashLaws (H : Type) `{HalFlash H} (flash_size : Z) := {
  hal_erase_in h bank sector n a :
    bank = FLASH_BANK_1 \/ bank = FLASH_BANK_2 -> 0 <= sector -> 0 <= n ->
    (sector + n) * H5_SECTOR_SIZE <= flash_layout_bank_size flash_size ->
    in_range (bank_base flash_size bank + sector * H5_SECTOR_SIZE) (n * H5_SECTOR_SIZE) a ->
    hal_read (HAL_FLASHEx_Erase h bank sector n) a = Some 255;
  hal_erase_out h bank sector n a :
    bank = FLASH_BANK_1 \/ bank = FLASH_BANK_2 -> 0 <= sector -> 0 <= n ->
    (sector + n) * H5_SECTOR_SIZE <= flash_layout_bank_size flash_size ->
    ~ in_range (bank_base flash_size bank + sector * H5_SECTOR_SIZE) (n * H5_SECTOR_SIZE) a ->
    hal_read (HAL_FLASHEx_Erase h bank sector n) a = hal_read h a;
  hal_program_in h addr qw a :
    addr mod 16 = 0 -> length qw = 16%nat -> bytes_ok qw ->
    (forall b, in_range addr 16 b -> hal_read h b = Some 255) ->
    in_range addr 16 a -> hal_read (HAL_FLASH_Program h addr qw) a = qw !! Z.to_nat (a - addr);
  hal_program_out h addr qw a :
    addr mod 16 = 0 -> length qw = 16%nat -> ~ in_range addr 16 a ->
    hal_read (HAL_FLASH_Program h addr qw) a = hal_read h a;
}.

(** The chip and the count of refused calls ([s_refused]). *)
Record flash_t (H : Type) := FlashT { chip : H; s_refused : Z }.
Arguments FlashT {H}.
Arguments chip {H}.
Arguments s_refused {H}.

Section flash_compat.
Context `{HalFlash H} (flash_size : Z).
Implicit Types f : flash_t H.

Definition addr_to_bank_sector (abs : Z) : Z * Z :=
  let bank_size := flash_layout_bank_size flash_size in
  if abs <? FLASH_BASE + bank_size
  then (FLASH_BANK_1, (abs - FLASH_BASE) / H5_SECTOR_SIZE)
  else (FLASH_BANK_2, (abs - (FLASH_BASE + bank_size)) / H5_SECTOR_SIZE).

Definition refuse f : flash_t H := FlashT (chip f) (u32 (s_refused f + 1)).

Definition flash_range_erase f (offset count : Z) : flash_t H :=
  let off := flash_layout_store_off flash_size offset in
  if negb (flash_layout_writable off (u32 count) flash_size) then refuse f
  else
    let abs := FLASH_BASE + off in
    let nsectors := u32 ((count + H5_SECTOR_SIZE - 1) / H5_SECTOR_SIZE) in
    let '(bank, sector) := addr_to_bank_sector abs in
    FlashT (HAL_FLASHEx_Erase (chip f) bank sector nsectors) (s_refused f).

(** One quad-word per turn, the last one padded with 0xFF. *)
Fixpoint program_loop (k : nat) (h : H) (abs : Z) (data : list Z) : H :=
  match k with
  | O => h
  | S k' =>
      let qw := take 16 data ++ replicate (16 - length data) 255 in
      program_loop k' (HAL_FLASH_Program h abs qw) (abs + 16) (drop 16 data)
  end.

Definition flash_range_program f (offset : Z) (data : list Z) : flash_t H :=
  let count := Z.of_nat (length data) in
  let off := flash_layout_store_off flash_size offset in
  if negb (flash_layout_writable off (u32 count) flash_size) then refuse f
  else FlashT (program_loop ((length data + 15) / 16) (chip f) (FLASH_BASE + off) data)
              (s_refused f).

Definition flash_read_byte f (offset : Z) : option Z :=
  hal_read (chip f) (FLASH_BASE + flash_layout_store_off flash_size offset).

#[local] Instance flash_compat_dev : FlashDev (flash_t H) := {|
  flash_byte := flash_read_byte;
  flash_erase := flash_range_erase;
  flash_program := flash_range_program;
|}.

End flash_compat.

(** ** [flash_compat] implements the interface *)

Section flash_compat_laws.
Context `{HL : HalFlashLaws H flash_size} (part : flash_part flash_size).
Implicit Types (h : H) (f : flash_t H).

Lemma program_loop_out k h abs data a :
  abs mod 16 = 0 -> ~ in_range abs (16 * Z.of_nat k) a ->
  hal_read (program_loop k h abs data) a = hal_read h a.
Proof.
  unfold in_range. revert h abs data.
  induction k as [|k IH]; intros h abs data Hm Ha; [done|]. cbn [program_loop].
  rewrite IH; [|rewrite Z.add_mod, Hm by lia; done|lia].
  apply hal_program_out; [done| |unfold in_range; lia].
  rewrite length_app, length_take, length_replicate. lia.
Qed.

Lemma program_loop_in k h abs data a :
  abs mod 16 = 0 -> length data = (16 * k)%nat -> bytes_ok data ->
  (forall b, in_range abs (16 * Z.of_nat k) b -> hal_read h b = Some 255) ->
  in_range abs (16 * Z.of_nat k) a ->
  hal_read (program_loop k h abs data) a = data !! Z.to_nat (a - abs).
Proof.
  unfold in_range. revert h abs data.
  induction k as [|k IH]; intros h abs data Hm Hl Hb He Ha; [lia|]. cbn [program_loop].
  replace (16 - length data)%nat with 0%nat by lia. rewrite app_nil_r.
  assert (Hq : length (take 16 data) = 16%nat) by (rewrite length_take; lia).
  assert (Hm' : (abs + 16) mod 16 = 0) by (rewrite Z.add_mod, Hm by lia; done).
  destruct (decide (a < abs + 16)).
  - rewrite program_loop_out by (done || unfold in_range; lia).
    rewrite hal_program_in; [|done|done|by apply Forall_take| |unfold in_range; lia].
    + by rewrite lookup_take_lt by lia.
    + unfold in_range. intros. apply He. lia.
  - rewrite IH; [|done|rewrite length_drop; lia|by apply Forall_drop| |lia].
    + rewrite lookup_drop. f_equal. lia.
    + intros b Hb'. rewrite hal_program_out; [|done|done|unfold in_range; lia].
      apply He. lia.
Qed.

(** An address of the persistence area as flash_compat maps it. *)
Definition phys (a : Z) : Z := FLASH_BASE + (a - FLASH_LAYOUT_REF_SIZE + flash_size).

Lemma flash_read_byte_phys f a : persist a -> flash_read_byte flash_size f a = hal_read (chip f) (phys a).
Proof.
  intros. unfold flash_read_byte, flash_layout_store_off, phys.
  by rewrite flash_layout_map_persist.
Qed.

Lemma range_writable off n :
  FLASH_LAYOUT_STORE_BASE <= off -> 0 <= n -> off + n <= FLASH_LAYOUT_REF_SIZE -> off < FLASH_LAYOUT_REF_SIZE ->
  flash_layout_writable (flash_layout_store_off flash_size off) (u32 n) flash_size = true.
Proof.
  intros. unfold flash_layout_store_off. rewrite flash_layout_map_persist by (done || (unfold persist; lia)).
  layout. destruct part as [->| ->]; wrap_lia.
Qed.

Lemma persist_bank_sector off :
  persist_sector off ->
  addr_to_bank_sector flash_size (FLASH_BASE + flash_layout_store_off flash_size off) =
    (FLASH_BANK_2, (phys off - bank_base flash_size FLASH_BANK_2) / H5_SECTOR_SIZE) /\
  (phys off - bank_base flash_size FLASH_BANK_2) mod H5_SECTOR_SIZE = 0 /\
  0 <= phys off - bank_base flash_size FLASH_BANK_2 /\
  phys off - bank_base flash_size FLASH_BANK_2 + H5_SECTOR_SIZE <= flash_layout_bank_size flash_size.
Proof.
  intros Hs. unfold flash_layout_store_off.
  rewrite flash_layout_map_persist by (done || (layout; lia)).
  unfold addr_to_bank_sector, phys, bank_base.
  layout. destruct part as [->| ->];
    (case_match; [exfalso; Z.div_mod_to_equations; lia|]);
    (split; [do 2 f_equal; lia|]); Z.div_mod_to_equations; lia.
Qed.

Lemma erase_sector_chip f off :
  persist_sector off ->
  flash_range_erase flash_size f off FLASH_SHIM_SECTOR_SIZE =
    FlashT (HAL_FLASHEx_Erase (chip f) FLASH_BANK_2
              ((phys off - bank_base flash_size FLASH_BANK_2) / H5_SECTOR_SIZE) 1) (s_refused f).
Proof.
  intros Hs. destruct (persist_bank_sector off Hs) as (E & _). unfold flash_range_erase.
  rewrite range_writable by (layout; lia). simpl negb. cbv iota.
  by rewrite E.
Qed.

#[local] Existing Instance flash_compat_dev.

(** flash_compat on a part of either size satisfies the store interface. *)
#[local] Instance flash_compat_laws : @FlashLaws (flash_t H) (flash_compat_dev flash_size).
Proof.
  constructor; cbn [flash_byte flash_erase flash_program flash_compat_dev].
  - intros f off a Hs Ha. rewrite flash_read_byte_phys by (layout; lia).
    rewrite erase_sector_chip by done. simpl.
    destruct (persist_bank_sector off Hs) as (_ & Hm & Hlo & Hhi).
    apply hal_erase_in; [by right|Z.div_mod_to_equations; lia|lia|Z.div_mod_to_equations; lia|].
    unfold in_range, phys in *. layout. Z.div_mod_to_equations; lia.
  - intros f off a Hs Hp Ha. rewrite !flash_read_byte_phys by done.
    rewrite erase_sector_chip by done. simpl.
    destruct (persist_bank_sector off Hs) as (_ & Hm & Hlo & Hhi).
    apply hal_erase_out; [by right|Z.div_mod_to_equations; lia|lia|Z.div_mod_to_equations; lia|].
    unfold in_range, phys in *. layout. Z.div_mod_to_equations; lia.
  - intros f off p data a Hs Hp Hend Hm Hl Hb He Ha.
    assert (persist a) by (layout; lia).
    rewrite flash_read_byte_phys by done. unfold flash_range_program.
    rewrite range_writable by (layout; lia). cbn [negb chip].
    unfold flash_layout_store_off. rewrite flash_layout_map_persist by (done || (layout; lia)).
    assert (Hk : Z.of_nat (length data) = 16 * Z.of_nat ((length data + 15) / 16)).
    { rewrite Nat2Z.inj_div. Z.div_mod_to_equations. lia. }
    rewrite program_loop_in.
    + f_equal. unfold phys. lia.
    + layout. destruct part as [->| ->]; Z.div_mod_to_equations; lia.
    + lia.
    + done.
    + intros b Hb'. replace b with (phys (b - phys 0)) by (unfold phys; lia).
      rewrite <- flash_read_byte_phys; [apply He|]; unfold in_range, phys in *; layout; lia.
    + unfold in_range, phys in *. layout. lia.
  - intros f off p data a Hs Hp Hend Hm Hl Hpa Ha.
    rewrite !flash_read_byte_phys by done. unfold flash_range_program.
    destruct (negb _) eqn:E; [done|]. cbn [chip].
    destruct (decide (length data = 0)%nat) as [->|]; [done|].
    unfold flash_layout_store_off. rewrite flash_layout_map_persist by (done || (layout; lia)).
    apply program_loop_out.
    + layout. destruct part as [->| ->]; Z.div_mod_to_equations; lia.
    + rewrite Nat2Z.inj_div. unfold in_range, phys in *. layout. Z.div_mod_to_equations; lia.
Qed.

(** The code area: everything below the persistence span. *)
Definition code_addr (a : Z) : Prop :=
  FLASH_BASE <= a < FLASH_BASE + flash_size - FLASH_LAYOUT_STORE_SPAN.

Lemma writable_spec off count :
  0 <= off -> flash_layout_writable off (u32 count) flash_size = true ->
  flash_size - FLASH_LAYOUT_STORE_SPAN <= off < flash_size /\ u32 count <= flash_size - off.
Proof.
  intros H0' Hw. unfold flash_layout_writable in Hw.
  apply andb_prop in Hw as [Hw H2%Z.leb_le]. apply andb_prop in Hw as [H3%Z.leb_le H4%Z.ltb_lt].
  layout. destruct part as [->| ->]; wrap_lia.
Qed.

Lemma store_off_nonneg ref : 0 <= ref -> 0 <= flash_layout_store_off flash_size ref.
Proof.
  intros. unfold flash_layout_store_off, flash_layout_map. case_match; [done|]. apply u32_range.
Qed.

Lemma erase_code_untouched f off count a :
  0 <= off -> 0 <= count < 0xFFFFE000 -> code_addr a ->
  hal_read (chip (flash_range_erase flash_size f off count)) a = hal_read (chip f) a.
Proof.
  intros Hoff Hc Ha. unfold flash_range_erase.
  destruct (flash_layout_writable _ _ _) eqn:E; [|done]. cbn [negb].
  apply writable_spec in E as [Ho Hcnt]; [|by apply store_off_nonneg].
  set (o := flash_layout_store_off flash_size off) in *.
  rewrite u32_id in Hcnt by lia.
  unfold addr_to_bank_sector, code_addr, bank_base in *.
  layout.
  assert (Hb : exists b, flash_size / 2 = b * 8192 /\ flash_size = b * 16384 /\ 64 <= b)
    by (destruct part as [->| ->]; [exists 64|exists 128]; done).
  destruct Hb as (b & Hb2 & Hbs & Hb64). rewrite Hb2.
  destruct (Z.ltb_spec (0x08000000 + o) (0x08000000 + b * 8192)); [lia|].
  set (n := (count + 8192 - 1) / 8192).
  assert (Hn : 0 <= n /\ n * 8192 < count + 8192) by (subst n; Z.div_mod_to_equations; lia).
  set (q := (0x08000000 + o - (0x08000000 + b * 8192)) / 8192).
  assert (Hq : 0 <= q /\ q * 8192 <= o - b * 8192 < q * 8192 + 8192)
    by (subst q; Z.div_mod_to_equations; lia).
  clearbody n q o. rewrite (u32_id n) by lia. cbn [chip].
  apply hal_erase_out; unfold in_range, bank_base;
    layout; [by right|..]; rewrite ?Hb2; lia.
Qed.

Lemma store_off_mod16 ref :
  ref mod 16 = 0 -> flash_layout_store_off flash_size ref mod 16 = 0.
Proof.
  intros. unfold flash_layout_store_off, flash_layout_map. case_match; [done|].
  layout. destruct part as [->| ->]; wrap_lia.
Qed.

Lemma program_code_untouched f off data a :
  0 <= off -> off mod 16 = 0 -> Z.of_nat (length data) < 0xFFFFE000 -> code_addr a ->
  hal_read (chip (flash_range_program flash_size f off data)) a = hal_read (chip f) a.
Proof.
  intros Hoff Hal Hc Ha. unfold flash_range_program.
  destruct (flash_layout_writable _ _ _) eqn:E; [|done]. cbn [negb chip].
  apply writable_spec in E as [Ho Hcnt]; [|by apply store_off_nonneg].
  assert (Hm : flash_layout_store_off flash_size off mod 16 = 0) by by apply store_off_mod16.
  apply program_loop_out.
  - rewrite Z.add_mod, Hm by lia. done.
  - unfold in_range, code_addr in *. layout. lia.
Qed.

End flash_compat_laws.

(** A RAM model of the chip: the concrete HAL used by the witnesses. *)
Definition ram_flash := Z -> option Z.

#[export] Instance ram_hal (flash_size : Z) : HalFlash ram_flash := {|
  hal_read h a := h a;
  HAL_FLASHEx_Erase h bank sector n := fun a =>
    if decide (in_range (bank_base flash_size bank + sector * H5_SECTOR_SIZE) (n * H5_SECTOR_SIZE) a)
    then Some 255 else h a;
  HAL_FLASH_Program h addr qw := fun a =>
    if decide (in_range addr 16 a) then qw !! Z.to_nat (a - addr) else h a;
|}.

#[export] Instance ram_hal_laws flash_size : @HalFlashLaws ram_flash (ram_hal flash_size) flash_size.
Proof. constructor; intros; cbn; by case_decide. Qed.

Definition ram_blank : ram_flash := fun _ => Some 255.
