(* ===== verification/ConfigStore.v ===== *)
(** * The power-loss-safe A/B record store ([config_store.c])

    Two 8 KB slots per store; a record is a header quad-word followed by the
    payload. The store keeps no state of its own: every operation re-reads the
    flash through [flash_read_checked] and writes it through erase and program
    (the interface [FlashDev] of Flash.v). *)

From S2P Require Import Prelude Flash.

Abbreviation AB_HDR_SIZE := 16.
Abbreviation AB_QW := 16.
Abbreviation AB_CHUNK := 32%nat.
Abbreviation FLASH_PAGE_SIZE := 256%nat.
Abbreviation AB_STORE_MAX_PAYLOAD := 240.
Abbreviation AB_STORE_MAX_VAR_PAYLOAD := 8176.

Record ab_store_t := AbStore {
  tag : string;
  slot_off0 : Z;
  slot_off1 : Z;
  s_magic : Z;
  s_version : Z;
  legacy_off : Z;
  legacy_magic : Z;
  max_len : Z;
}.

Record ab_hdr_t := AbHdr { h_magic : Z; h_seq : Z; h_ver_len : Z; h_crc : Z }.

(** The four little-endian words of a header quad-word. *)
Definition hdr_of_bytes (bs : list Z) : ab_hdr_t :=
  AbHdr (rd_le (sub 0 4 bs)) (rd_le (sub 4 4 bs)) (rd_le (sub 8 4 bs)) (rd_le (sub 12 4 bs)).
Definition hdr_bytes (h : ab_hdr_t) : list Z :=
  le 4 (h_magic h) ++ le 4 (h_seq h) ++ le 4 (h_ver_len h) ++ le 4 (h_crc h).

(** ** CRC-32 *)

Definition crc_bit (crc : Z) : Z :=
  Z.lxor (Z.shiftr crc 1) (Z.land 0xEDB88320 (u32 (0 - Z.land crc 1))).

Definition crc_byte (crc b : Z) : Z := Nat.iter 8 crc_bit (Z.lxor crc b).

Definition ab_crc32 (crc : Z) (data : list Z) : Z :=
  not32 (foldl crc_byte (not32 crc) data).

(** ** Slots *)

Definition slot_off (s : ab_store_t) (i : nat) : Z :=
  match i with O => slot_off0 s | _ => slot_off1 s end.

Definition hdr_len (h : ab_hdr_t) : Z := Z.land (h_ver_len h) 0xFFFF.
Definition hdr_ver (h : ab_hdr_t) : Z := Z.shiftr (h_ver_len h) 16.
Definition store_max (s : ab_store_t) : Z :=
  if max_len s =? 0 then AB_STORE_MAX_PAYLOAD else max_len s.

Section store.
Context `{FlashDev D}.
Implicit Types (d : D) (s : ab_store_t) (h : ab_hdr_t).

(** The payload loop of [slot_read]: [len] bytes from [off] in 32-byte chunks,
    the running CRC and the bytes copied so far; [fuel] turns. *)
Fixpoint payload_loop (fuel : nat) d (off : Z) (pos len : nat) (crc : Z) (acc : list Z)
  : option (Z * list Z) :=
  if decide (len <= pos)%nat then Some (crc, acc)
  else
    match fuel with
    | O => None
    | S fuel' =>
        let n := if decide (len - pos < AB_CHUNK)%nat then (len - pos)%nat else AB_CHUNK in
        match flash_read_checked d (off + Z.of_nat pos) n with
        | None => None
        | Some buf => payload_loop fuel' d off (pos + n) len (ab_crc32 crc buf) (acc ++ buf)
        end
    end.

(** A complete record: its header and payload. *)
Definition slot_read s d (i : nat) : option (ab_hdr_t * list Z) :=
  match flash_read_checked d (slot_off s i) 16 with
  | None => None
  | Some hb =>
      let h := hdr_of_bytes hb in
      if negb (h_magic h =? s_magic s) then None
      else
        let len := hdr_len h in
        if store_max s <? len then None
        else
          let crc := ab_crc32 0 (le 4 (h_seq h)) in
          let crc := ab_crc32 crc (le 4 (h_ver_len h)) in
          match payload_loop (Z.to_nat len) d (slot_off s i + AB_HDR_SIZE) 0 (Z.to_nat len) crc [] with
          | None => None
          | Some (crc, bs) => if negb (crc =? h_crc h) then None else Some (h, bs)
          end
  end.

(** [newest_slot] on the two scanned headers ([None]: the slot is not valid). *)
Definition newest_slot (v0 v1 : option ab_hdr_t) : option nat :=
  match v0, v1 with
  | Some h0, Some h1 => if 0 <? s32 (h_seq h1 - h_seq h0) then Some 1%nat else Some 0%nat
  | Some _, None => Some 0%nat
  | None, Some _ => Some 1%nat
  | None, None => None
  end.

Definition slot_hdr s d i : option ab_hdr_t := fst <$> slot_read s d i.

(** [scan]: the newest valid slot and its header. *)
Definition scan s d : option (nat * ab_hdr_t) :=
  match newest_slot (slot_hdr s d 0) (slot_hdr s d 1) with
  | None => None
  | Some n => h ← slot_hdr s d n; Some (n, h)
  end.

Definition slot_payload_equals s d (i : nat) (data : list Z) : bool :=
  bool_decide (flash_read_checked d (slot_off s i + AB_HDR_SIZE) (length data) = Some data).

(** ** Writing *)

Inductive flash_op :=
| FErase (off : Z)
| FProgram (off : Z) (bytes : list Z).

Definition run_op d (o : flash_op) : D :=
  match o with
  | FErase off => flash_erase d off FLASH_SHIM_SECTOR_SIZE
  | FProgram off bytes => flash_program d off bytes
  end.
Definition run_ops d (l : list flash_op) : D := foldl run_op d l.

(** The payload padded with 0xFF to a quad-word, in page-sized pieces. *)
Definition body (data : list Z) : list Z :=
  data ++ replicate ((length data + 15) / 16 * 16 - length data) 255.
Fixpoint pages (k : nat) (off : Z) (bytes : list Z) : list flash_op :=
  match k with
  | O => []
  | S k' => FProgram off (take FLASH_PAGE_SIZE bytes)
            :: pages k' (off + 256) (drop FLASH_PAGE_SIZE bytes)
  end.

Definition record_hdr s (seq : Z) (data : list Z) : ab_hdr_t :=
  let ver_len := Z.lor (u32 (Z.shiftl (s_version s) 16)) (Z.of_nat (length data)) in
  AbHdr (s_magic s) seq ver_len
    (ab_crc32 (ab_crc32 (ab_crc32 0 (le 4 seq)) (le 4 ver_len)) data).

(** The flash operations of [write_record]: erase, payload pages, and the
    header last (the commit point). *)
Definition record_ops s (target : nat) (seq : Z) (data : list Z) : list flash_op :=
  let off := slot_off s target in
  FErase off
  :: pages ((length (body data) + 255) / 256) (off + AB_HDR_SIZE) (body data)
  ++ [FProgram off (hdr_bytes (record_hdr s seq data))].

Definition write_record s d (target : nat) (seq : Z) (data : list Z) : D * Z :=
  let d' := run_ops d (record_ops s target seq data) in
  match slot_read s d' target with
  | None => (d', -1)
  | Some (rh, _) =>
      if negb (h_seq rh =? seq) || negb (h_crc rh =? h_crc (record_hdr s seq data))
         || negb (slot_payload_equals s d' target data)
      then (d', -1) else (d', 0)
  end.

(** ** The operations *)

Definition load_legacy s d (len : nat) : option (list Z) :=
  if legacy_off s =? 0 then None
  else
    match flash_read_checked d (legacy_off s) 4 with
    | None => None
    | Some m =>
        if negb (rd_le m =? legacy_magic s) then None
        else flash_read_checked d (legacy_off s) len
    end.

Definition ab_store_load s d (len : nat) : option (list Z) :=
  match scan s d with
  | Some (n, h) =>
      if hdr_len h =? 0 then None
      else if negb (hdr_ver h =? s_version s) || negb (hdr_len h =? Z.of_nat len) then None
      else snd <$> slot_read s d n
  | None => load_legacy s d len
  end.

(** The slot [ab_store_load_version] picks: the loop over i = 0, 1. *)
Definition version_slot s d (n : nat) (version : Z) (len : nat) : option nat :=
  foldl (fun best i =>
    match slot_hdr s d i with
    | None => best
    | Some h =>
        if negb (hdr_ver h =? version) || negb (hdr_len h =? Z.of_nat len) then best
        else match best with
             | None => Some i
             | Some b => if decide (i = n) then Some i else Some b
             end
    end) None [0; 1]%nat.

Definition ab_store_load_version s d (version : Z) (len : nat) : option (list Z * Z) :=
  match scan s d with
  | None => None
  | Some (n, h) =>
      if hdr_len h =? 0 then None
      else
        best ← version_slot s d n version len;
        '(hb, bs) ← slot_read s d best;
        Some (bs, u32 (h_seq h - h_seq hb))
  end.

Definition ab_store_load_var s d (cap : Z) : option (list Z) :=
  match scan s d with
  | None => None
  | Some (n, h) =>
      if hdr_len h =? 0 then None
      else if negb (hdr_ver h =? s_version s) || (cap <? hdr_len h) then None
      else snd <$> slot_read s d n
  end.

(** The slot and sequence number of the next record. *)
Definition next_target s d : nat * Z :=
  match scan s d with
  | None => (0%nat, 1)
  | Some (n, h) => ((1 - n)%nat, u32 (h_seq h + 1))
  end.

(** Is the newest record already exactly [data]? *)
Definition unchanged s d (data : list Z) : bool :=
  match scan s d with
  | None => false
  | Some (n, h) =>
      (hdr_ver h =? s_version s) && (hdr_len h =? Z.of_nat (length data))
      && slot_payload_equals s d n data
  end.

Definition ab_store_save s d (data : list Z) : D * Z :=
  if (Z.of_nat (length data) =? 0) || (store_max s <? Z.of_nat (length data)) then (d, -1)
  else if unchanged s d data then (d, 0)
  else
    let '(target, seq) := next_target s d in
    write_record s d target seq data.

Definition ab_store_clear s d : D * Z :=
  let '(target, seq) := next_target s d in
  let '(d1, rc) := write_record s d target seq [] in
  let d2 := if rc =? 0 then d1 else flash_erase d1 (slot_off s target) FLASH_SHIM_SECTOR_SIZE in
  let d3 := flash_erase d2 (slot_off s (1 - target)%nat) FLASH_SHIM_SECTOR_SIZE in
  let d4 := if legacy_off s =? 0 then d3 else flash_erase d3 (legacy_off s) FLASH_SHIM_SECTOR_SIZE in
  (d4, rc).

(** The flash operations of a clear: the tombstone, then the wipes. *)
Definition clear_ops s d : list flash_op :=
  let '(target, seq) := next_target s d in
  record_ops s target seq [] ++ FErase (slot_off s (1 - target)%nat)
  :: (if legacy_off s =? 0 then [] else [FErase (legacy_off s)]).

End store.

(** ** The Wi-Fi config kept in such a store *)

Abbreviation CONFIG_SLOT_A_OFFSET := 0x1F8000.
Abbreviation CONFIG_SLOT_B_OFFSET := 0x1F6000.
Abbreviation CONFIG_FLASH_OFFSET := 0x1FE000.
Abbreviation CONFIG_RECORD_MAGIC := 0xAB5C0F01.
Abbreviation CONFIG_MAGIC := 0xC0FFEE01.
Abbreviation CONFIG_VERSION := 1.

Definition s_wifi_store : ab_store_t := {|
  tag := "cfg";
  slot_off0 := CONFIG_SLOT_A_OFFSET;
  slot_off1 := CONFIG_SLOT_B_OFFSET;
  s_magic := CONFIG_RECORD_MAGIC;
  s_version := CONFIG_VERSION;
  legacy_off := CONFIG_FLASH_OFFSET;
  legacy_magic := CONFIG_MAGIC;
  max_len := 0;
|}.

(** [config_t]: two words, two 64-byte strings and 32 reserved bytes. *)
Record config_t := Config {
  c_magic : Z;
  c_version : Z;
  c_ssid : list Z;
  c_password : list Z;
  c_reserved : list Z;
}.

Definition config_bytes (c : config_t) : list Z :=
  le 4 (c_magic c) ++ le 4 (c_version c) ++ c_ssid c ++ c_password c ++ c_reserved c.
Definition config_of_bytes (bs : list Z) : config_t :=
  Config (rd_le (sub 0 4 bs)) (rd_le (sub 4 4 bs)) (sub 8 64 bs) (sub 72 64 bs) (sub 136 32 bs).

Section config.
Context `{FlashDev D}.

Definition config_load (d : D) : option config_t :=
  match ab_store_load s_wifi_store d 168 with
  | None => None
  | Some bs =>
      let tmp := config_of_bytes bs in
      if negb (c_magic tmp =? CONFIG_MAGIC) || negb (c_version tmp =? CONFIG_VERSION) then None
      else Some tmp
  end.

Definition config_save (d : D) (cfg : config_t) : D * Z :=
  let tmp := Config CONFIG_MAGIC CONFIG_VERSION (c_ssid cfg) (c_password cfg) (c_reserved cfg) in
  ab_store_save s_wifi_store d (config_bytes tmp).

Definition config_clear (d : D) : D := fst (ab_store_clear s_wifi_store d).

End config.
