(* ===== verification/ConfigStoreFacts.v ===== *)
(** * Lemmas and theorems about the A/B record store

    CRC chaining, the read loop, records written and read back, the newest-slot
    rule, and what every operation does on a healthy flash and across a power
    cut. *)

From S2P Require Import Prelude Flash ConfigStore.

(** ** CRC-32 *)

Lemma ab_crc32_app c xs ys : ab_crc32 (ab_crc32 c xs) ys = ab_crc32 c (xs ++ ys).
Proof. unfold ab_crc32. by rewrite not32_involutive, foldl_app. Qed.

Lemma crc_bit_range c : 0 <= c < 4294967296 -> 0 <= crc_bit c < 4294967296.
Proof.
  intros Hc. apply (lxor_bound 32); [lia| |].
  - apply (shiftr_bound 32); lia.
  - pose proof (u32_range (0 - Z.land c 1)).
    pose proof (land_bound 0xEDB88320 (u32 (0 - Z.land c 1))). lia.
Qed.

Lemma crc_byte_range c b : 0 <= c < 4294967296 -> byte_ok b -> 0 <= crc_byte c b < 4294967296.
Proof.
  intros Hc Hb. unfold crc_byte.
  assert (G : forall k x, 0 <= x < 4294967296 -> 0 <= Nat.iter k crc_bit x < 4294967296).
  { induction k; simpl; auto using crc_bit_range. }
  apply G, (lxor_bound 32); unfold byte_ok in *; lia.
Qed.

Lemma ab_crc32_range c bs : 0 <= c < 4294967296 -> bytes_ok bs -> 0 <= ab_crc32 c bs < 4294967296.
Proof.
  intros Hc Hbs. apply not32_range. apply not32_range in Hc. revert Hc.
  generalize (not32 c). induction Hbs as [|b bs Hb Hbs IH]; simpl; auto using crc_byte_range.
Qed.

(** ** Headers *)

Definition hdr_wf (h : ab_hdr_t) : Prop :=
  0 <= h_magic h < 4294967296 /\ 0 <= h_seq h < 4294967296 /\
  0 <= h_ver_len h < 4294967296 /\ 0 <= h_crc h < 4294967296.

Lemma hdr_bytes_length h : length (hdr_bytes h) = 16%nat.
Proof. unfold hdr_bytes. by rewrite !length_app, !le_length. Qed.

Lemma hdr_bytes_ok h : bytes_ok (hdr_bytes h).
Proof. unfold hdr_bytes. repeat (apply bytes_ok_app; split); apply le_bytes. Qed.

Lemma hdr_of_hdr_bytes h : hdr_wf h -> hdr_of_bytes (hdr_bytes h) = h.
Proof.
  intros (H1 & H2 & H3 & H4). unfold hdr_of_bytes, hdr_bytes, sub.
  destruct h as [m q v c]. cbn [h_magic h_seq h_ver_len h_crc] in *.
  rewrite !(drop_app_le _ _ 0%nat), drop_0 by lia.
  f_equal.
  - rewrite take_app_le, firstn_all2 by (rewrite ?le_length; lia). by apply rd_le_le.
  - rewrite drop_app_ge, le_length by (rewrite le_length; lia). rewrite drop_0.
    rewrite take_app_le, firstn_all2 by (rewrite ?le_length; lia). by apply rd_le_le.
  - rewrite (drop_app_ge (le 4 m)), le_length by (rewrite le_length; lia).
    rewrite drop_app_ge, le_length by (rewrite le_length; lia). rewrite drop_0.
    rewrite take_app_le, firstn_all2 by (rewrite ?le_length; lia). by apply rd_le_le.
  - rewrite (drop_app_ge (le 4 m)), le_length by (rewrite le_length; lia).
    rewrite (drop_app_ge (le 4 q)), le_length by (rewrite le_length; lia).
    rewrite drop_app_ge, le_length by (rewrite le_length; lia). rewrite drop_0.
    rewrite firstn_all2 by (rewrite ?le_length; lia). by apply rd_le_le.
Qed.

(** ** Well-formed store descriptors

    Two different persistence sectors, a magic no blank flash shows, a 16-bit
    version, and room in a sector for the largest record. *)

Record store_wf (s : ab_store_t) : Prop := {
  wf_off i : persist_sector (slot_off s i);
  wf_distinct : slot_off0 s <> slot_off1 s;
  wf_magic : 0 <= s_magic s < 4294967295;
  wf_version : 0 <= s_version s < 65536;
  wf_max : 0 < store_max s <= AB_STORE_MAX_VAR_PAYLOAD;
  wf_legacy : legacy_off s <> 0 -> persist_sector (legacy_off s) /\
    legacy_off s <> slot_off0 s /\ legacy_off s <> slot_off1 s;
}.

(** A payload the store accepts (0 bytes: the tombstone). *)
Definition payload_ok (s : ab_store_t) (data : list Z) : Prop :=
  bytes_ok data /\ Z.of_nat (length data) <= store_max s.

Section facts.
Context (s : ab_store_t) (wf : store_wf s).

Lemma record_hdr_len seq data : payload_ok s data -> hdr_len (record_hdr s seq data) = Z.of_nat (length data).
Proof.
  intros [_ Hl]. destruct wf as [_ _ _ Hv Hm _]. unfold hdr_len, record_hdr. cbn [h_ver_len].
  rewrite (u32_id (Z.shiftl _ _)) by (rewrite Z.shiftl_mul_pow2 by done; lia).
  rewrite lor_shiftl_add by lia. change 0xFFFF with (Z.ones 16).
  rewrite Z.land_ones by lia. rewrite Z.add_comm, Z_mod_plus_full. apply Z.mod_small. lia.
Qed.

Lemma record_hdr_ver seq data : payload_ok s data -> hdr_ver (record_hdr s seq data) = s_version s.
Proof.
  intros [_ Hl]. destruct wf as [_ _ _ Hv Hm _]. unfold hdr_ver, record_hdr. cbn [h_ver_len].
  rewrite (u32_id (Z.shiftl _ _)) by (rewrite Z.shiftl_mul_pow2 by done; lia).
  rewrite lor_shiftl_add, Z.shiftr_div_pow2 by lia.
  rewrite Z.add_comm, Z.div_add by lia. rewrite Z.div_small; lia.
Qed.

Lemma record_hdr_wf seq data :
  payload_ok s data -> 0 <= seq < 4294967296 -> hdr_wf (record_hdr s seq data).
Proof.
  intros [Hb Hl] Hq. destruct wf as [_ _ Hmg Hv Hm _]. unfold hdr_wf, record_hdr. cbn -[ab_crc32 le].
  split_and!; try lia.
  - apply (lor_bound 32); [lia|apply u32_range|lia].
  - apply (lor_bound 32); [lia|apply u32_range|lia].
  - apply ab_crc32_range; [|done]. repeat (apply ab_crc32_range; [|apply le_bytes]). lia.
  - apply ab_crc32_range; [|done]. repeat (apply ab_crc32_range; [|apply le_bytes]). lia.
Qed.

Context `{FlashDev D}.
Implicit Types (d : D).

(** The chunked payload loop reads the payload and chains its CRC. *)
Lemma payload_loop_spec fuel d off pos len crc acc :
  (len - pos <= fuel)%nat -> (pos <= len)%nat ->
  payload_loop fuel d off pos len crc acc =
    (bs ← flash_read_checked d (off + Z.of_nat pos) (len - pos); Some (ab_crc32 crc bs, acc ++ bs)).
Proof.
  revert pos crc acc. induction fuel as [|fuel IH]; intros pos crc acc Hf Hp;
    cbn [payload_loop]; (destruct (decide (len <= pos)%nat) as [Hd|Hd];
    [replace (len - pos)%nat with 0%nat by lia; cbn;
     unfold ab_crc32; cbn; by rewrite not32_involutive, app_nil_r|]); [lia|].
  set (n := if decide _ then _ else _).
  assert (Hn : (0 < n /\ pos + n <= len)%nat) by (subst n; case_decide; lia).
  clearbody n. replace (len - pos)%nat with (n + (len - (pos + n)))%nat by lia.
  rewrite flash_read_checked_app.
  destruct (flash_read_checked d (off + Z.of_nat pos) n) as [buf|] eqn:E; [|done]. cbn.
  rewrite IH by lia. replace (off + Z.of_nat (pos + n)) with (off + Z.of_nat pos + Z.of_nat n) by lia.
  destruct (flash_read_checked d _ (len - (pos + n))) as [bs|]; [|done]. cbn.
  by rewrite ab_crc32_app, app_assoc.
Qed.

(** [slot_read] without the loop. *)
Lemma slot_read_unfold d i :
  slot_read s d i =
    (hb ← flash_read_checked d (slot_off s i) 16;
     let h := hdr_of_bytes hb in
     if negb (h_magic h =? s_magic s) then None
     else if store_max s <? hdr_len h then None
     else
       bs ← flash_read_checked d (slot_off s i + 16) (Z.to_nat (hdr_len h));
       if negb (ab_crc32 (ab_crc32 (ab_crc32 0 (le 4 (h_seq h))) (le 4 (h_ver_len h))) bs =? h_crc h)
       then None else Some (h, bs)).
Proof.
  unfold slot_read. destruct (flash_read_checked d (slot_off s i) 16) as [hb|]; [|done]. cbn -[ab_crc32 le].
  case_match; [done|]. case_match; [done|].
  rewrite payload_loop_spec by lia. rewrite Z.add_0_r, Nat.sub_0_r.
  by destruct (flash_read_checked d (slot_off s i + 16) _).
Qed.

Lemma slot_read_payload d i h bs :
  slot_read s d i = Some (h, bs) ->
  flash_read_checked d (slot_off s i + 16) (Z.to_nat (hdr_len h)) = Some bs /\
  0 <= hdr_len h <= store_max s /\ h_magic h = s_magic s.
Proof.
  rewrite slot_read_unfold. destruct (flash_read_checked d (slot_off s i) 16) as [hb|]; [|done].
  cbn -[ab_crc32 le hdr_of_bytes]. destruct (Z.eqb_spec (h_magic (hdr_of_bytes hb)) (s_magic s)); [|done].
  cbn [negb]. destruct (Z.ltb_spec (store_max s) (hdr_len (hdr_of_bytes hb))); [done|].
  destruct (flash_read_checked d (slot_off s i + 16) _) as [bs'|] eqn:E; [|done].
  cbn -[ab_crc32 le hdr_of_bytes]. case_match; [done|]. intros Er.
  apply (inj Some), pair_equal_spec in Er as [<- <-]. split_and!; try done.
  unfold hdr_len. apply Z.land_nonneg. by right.
Qed.

(** Two flashes that read alike in a slot's sector agree on the slot. *)
Lemma slot_read_ext d d' i :
  (forall a, in_range (slot_off s i) FLASH_SHIM_SECTOR_SIZE a -> flash_byte d a = flash_byte d' a) ->
  slot_read s d i = slot_read s d' i.
Proof.
  intros E. rewrite !slot_read_unfold.
  rewrite (flash_read_checked_ext d d' (slot_off s i) 16)
    by (intros; apply E; unfold in_range in *; lia).
  destruct (flash_read_checked d' (slot_off s i) 16) as [hb|]; [|done]. cbn -[ab_crc32 le].
  case_match; [done|]. destruct (Z.ltb_spec (store_max s) (hdr_len (hdr_of_bytes hb))); [done|].
  destruct wf as [_ _ _ _ Hm _].
  rewrite (flash_read_checked_ext d d') by (intros; apply E; unfold in_range in *; lia). done.
Qed.

(** A slot whose sector reads as a whole record is that record. *)
Lemma slot_read_record d i seq data :
  payload_ok s data -> 0 <= seq < 4294967296 ->
  flash_read_checked d (slot_off s i) 16 = Some (hdr_bytes (record_hdr s seq data)) ->
  flash_read_checked d (slot_off s i + 16) (length data) = Some data ->
  slot_read s d i = Some (record_hdr s seq data, data).
Proof.
  intros Hp Hq Hh Hd. rewrite slot_read_unfold, Hh. cbn -[ab_crc32 le hdr_of_bytes record_hdr].
  rewrite hdr_of_hdr_bytes by by apply record_hdr_wf.
  rewrite record_hdr_len by done. cbn [h_magic record_hdr]. rewrite Z.eqb_refl. cbn -[ab_crc32 le record_hdr].
  destruct Hp as [Hb Hl]. destruct (Z.ltb_spec (store_max s) (Z.of_nat (length data))); [lia|].
  rewrite Nat2Z.id, Hd. cbn -[ab_crc32 le record_hdr]. cbn [record_hdr h_seq h_ver_len h_crc].
  by rewrite Z.eqb_refl.
Qed.

End facts.
