(* ===== verification/ConfigStoreWrite.v ===== *)
(** * What a record write does to the flash

    Frames of the flash operations, the payload pages, the complete record, and
    the power cut: an operation interrupted anywhere, each quad-word of its
    region left as it was, as it was going to be, or unreadable. *)

From S2P Require Import Prelude Flash ConfigStore ConfigStoreFacts.

(** The region an operation touches. *)
Definition op_lo (o : flash_op) : Z :=
  match o with FErase off => off | FProgram off _ => off end.
Definition op_len (o : flash_op) : Z :=
  match o with FErase _ => FLASH_SHIM_SECTOR_SIZE | FProgram _ bs => Z.of_nat (length bs) end.

(** A quad-word-aligned operation inside [lo, end of the sector at sec). *)
Definition op_ok (sec lo : Z) (o : flash_op) : Prop :=
  persist_sector sec /\ sec <= lo <= op_lo o /\ op_lo o + op_len o <= sec + FLASH_SHIM_SECTOR_SIZE /\
  op_lo o mod 16 = 0 /\ op_len o mod 16 = 0.

Lemma body_length data : Z.of_nat (length (body data)) mod 16 = 0 /\
  (length data <= length (body data) < length data + 16)%nat.
Proof.
  unfold body. rewrite length_app, length_replicate.
  assert (Z.of_nat ((length data + 15) / 16 * 16) = (Z.of_nat (length data) + 15) / 16 * 16)
    by (rewrite Nat2Z.inj_mul, Nat2Z.inj_div; lia).
  split; [|Z.div_mod_to_equations; lia].
  replace (length data + _)%nat with ((length data + 15) / 16 * 16)%nat by (Z.div_mod_to_equations; lia).
  rewrite H. apply Z_mod_mult.
Qed.

Lemma body_ok data : bytes_ok data -> bytes_ok (body data).
Proof. intros. apply bytes_ok_app. split; [done|]. apply Forall_replicate. unfold byte_ok. lia. Qed.

Lemma pages_op_ok sec k p bytes :
  persist_sector sec -> sec <= p -> p + Z.of_nat (length bytes) <= sec + FLASH_SHIM_SECTOR_SIZE ->
  p mod 16 = 0 -> Z.of_nat (length bytes) mod 16 = 0 ->
  (length bytes <= 256 * k)%nat -> (256 * k < length bytes + 256)%nat ->
  Forall (op_ok sec p) (pages k p bytes).
Proof.
  intros Hs. revert p bytes. 
  assert (G : forall k p bytes lo, sec <= lo <= p -> p + Z.of_nat (length bytes) <= sec + 8192 ->
    p mod 16 = 0 -> Z.of_nat (length bytes) mod 16 = 0 -> (length bytes <= 256 * k)%nat ->
    (256 * k < length bytes + 256)%nat -> Forall (op_ok sec lo) (pages k p bytes)).
  { clear k. induction k as [|k IH]; intros p bytes lo Hlo Hend Hm Hl Hk Hk2; cbn [pages]; constructor.
    - unfold op_ok. cbn [op_lo op_len]. rewrite length_take.
      split_and!; [done|lia|lia|lia|lia|]. destruct (decide (256 <= length bytes)%nat).
      + rewrite Nat.min_l by lia. done.
      + by rewrite Nat.min_r by lia.
    - destruct k as [|k]; [constructor|].
      apply IH; rewrite ?length_drop; [lia|lia|rewrite Z.add_mod, Hm by lia; done| |lia|lia].
      rewrite Nat2Z.inj_sub by lia. by rewrite Zminus_mod, Hl. }
  intros p bytes Hp. apply G. lia.
Qed.

Section write.
Context `{FL : FlashLaws D}.
Implicit Types (d : D) (o : flash_op).

(** Reads outside [off, off+n) are the same in [d] and [d']. *)
Definition frame (off n : Z) d d' : Prop :=
  forall a, persist a -> ~ in_range off n a -> flash_byte d' a = flash_byte d a.

#[export] Instance frame_preorder off n : PreOrder (frame off n).
Proof. split; [done|]. intros d1 d2 d3 H12 H23 a Ha Hn. by rewrite H23, H12. Qed.

Lemma frame_weaken off n off' n' d d' :
  off' <= off -> off + n <= off' + n' -> frame off n d d' -> frame off' n' d d'.
Proof. intros H1 H2 Hf a Ha Hn. apply Hf; [done|]. unfold in_range in *. lia. Qed.

Lemma run_op_frame sec lo d o : op_ok sec lo o -> frame (op_lo o) (op_len o) d (run_op d o).
Proof.
  intros (Hs & Hlo & Hend & Hm & Hl) a Ha Hn. destruct o as [off|off bs]; cbn [run_op op_lo op_len] in *.
  - assert (off = sec) as -> by lia. by apply fl_erase_out.
  - apply (fl_program_out d sec); done || lia.
Qed.

Lemma erase_frame d off :
  persist_sector off -> frame off FLASH_SHIM_SECTOR_SIZE d (run_op d (FErase off)).
Proof. intros Hs a Ha Hn. by apply fl_erase_out. Qed.

Lemma run_ops_frame sec lo d l :
  Forall (op_ok sec lo) l -> frame lo (sec + FLASH_SHIM_SECTOR_SIZE - lo) d (run_ops d l).
Proof.
  intros Hf. revert d. induction Hf as [|o l Ho Hf IH]; intros d; [done|].
  etrans; [|apply IH].
  apply (frame_weaken (op_lo o) (op_len o)); [destruct Ho; lia|destruct Ho; lia|].
  by eapply run_op_frame.
Qed.

(** Programming the pages of [bytes] into a blank region stores [bytes]. *)
Lemma run_pages_in sec k d p bytes a :
  persist_sector sec -> sec <= p -> p + Z.of_nat (length bytes) <= sec + FLASH_SHIM_SECTOR_SIZE ->
  p mod 16 = 0 -> Z.of_nat (length bytes) mod 16 = 0 -> bytes_ok bytes ->
  (length bytes <= 256 * k)%nat -> (256 * k < length bytes + 256)%nat ->
  (forall b, in_range p (Z.of_nat (length bytes)) b -> flash_byte d b = Some 255) ->
  in_range p (Z.of_nat (length bytes)) a ->
  flash_byte (run_ops d (pages k p bytes)) a = bytes !! Z.to_nat (a - p).
Proof.
  intros Hs. revert d p bytes.
  induction k as [|k IH]; intros d p bytes Hp Hend Hm Hl Hb Hk Hk2 He Ha; [unfold in_range in *; lia|].
  assert (Hok := pages_op_ok sec (S k) p bytes Hs Hp Hend Hm Hl Hk Hk2).
  cbn [pages run_ops foldl] in *. apply Forall_cons in Hok as [Ho _].
  assert (Ho' := Ho). destruct Ho' as (_ & Hlo & Hend' & Hm' & Hl'). cbn [op_lo op_len] in Hlo, Hend', Hm', Hl'.
  set (pg := take 256 bytes) in *. set (rest := drop 256 bytes) in *.
  assert (Hpg : Z.of_nat (length pg) = Z.min 256 (Z.of_nat (length bytes))) by (subst pg; rewrite length_take; lia).
  assert (Hrl : Z.of_nat (length rest) = Z.max 0 (Z.of_nat (length bytes) - 256)) by (subst rest; rewrite length_drop; lia).
  assert (Hpa : persist a) by (unfold in_range in *; layout; lia).
  destruct (decide (in_range p (Z.of_nat (length pg)) a)) as [Hin|Hin].
  - destruct (decide (length rest = 0)%nat) as [H0|H0].
    + destruct k as [|k]; [|lia]. cbn [pages foldl run_op]. rewrite (fl_program_in d sec); try done; try lia.
      * subst pg. rewrite lookup_take_lt by (unfold in_range in *; lia). done.
      * by apply Forall_take.
      * intros b Hb'. apply He. unfold in_range in *. lia.
    + change (foldl run_op ?x ?l) with (run_ops x l).
      rewrite (run_ops_frame sec (p + 256)); [| |done|unfold in_range in *; lia].
      2: { apply pages_op_ok; [done|lia|lia|rewrite Z.add_mod, Hm by lia; done| |lia|lia].
           rewrite Hrl, Z.max_r by lia. rewrite Zminus_mod, Hl. done. }
      cbn [run_op]. rewrite (fl_program_in d sec); try done; try lia.
      * subst pg. rewrite lookup_take_lt by (unfold in_range in *; lia). done.
      * by apply Forall_take.
      * intros b Hb'. apply He. unfold in_range in *. lia.
  - change (foldl run_op ?x ?l) with (run_ops x l).
    unfold in_range in Ha, Hin. rewrite IH; try lia.
    + subst rest. rewrite lookup_drop. f_equal. lia.
    + rewrite Z.add_mod, Hm by lia. done.
    + rewrite Hrl, Z.max_r by lia. rewrite Zminus_mod, Hl. done.
    + by apply Forall_drop.
    + intros b Hb'. rewrite (run_op_frame sec p d _ Ho); [| |cbn [op_lo op_len]];
        unfold in_range in *; [apply He; lia|layout; lia|lia].
    + unfold in_range. lia.
Qed.

End write.

(** ** A whole record *)

Section record.
Context (s : ab_store_t) (wf : store_wf s) `{FL : FlashLaws D}.
Implicit Types (d : D).

Definition body_pages (data : list Z) : nat := (length (body data) + 255) / 256.

Lemma body_pages_spec data :
  (length (body data) <= 256 * body_pages data < length (body data) + 256)%nat.
Proof.
  unfold body_pages. set (n := length (body data)).
  pose proof (Nat.div_mod_eq (n + 255) 256). pose proof (Nat.mod_upper_bound (n + 255) 256). lia.
Qed.

Lemma body_fits data i :
  payload_ok s data -> slot_off s i + 16 + Z.of_nat (length (body data)) <= slot_off s i + 8192.
Proof.
  intros [_ Hl]. destruct wf as [_ _ _ _ Hm _]. pose proof (body_length data).
  Z.div_mod_to_equations. lia.
Qed.

Lemma slot_mod16 i : slot_off s i mod 16 = 0.
Proof. destruct wf as [Ho _ _ _ _ _]. destruct (Ho i) as (_ & _ & Hm). Z.div_mod_to_equations. lia. Qed.

Lemma body_pages_ok data i :
  payload_ok s data -> Forall (op_ok (slot_off s i) (slot_off s i + 16))
    (pages (body_pages data) (slot_off s i + 16) (body data)).
Proof.
  intros Hp. pose proof (body_fits data i Hp). pose proof (slot_mod16 i) as Hm. pose proof (body_length data).
  pose proof (body_pages_spec data).
  apply pages_op_ok; try lia.
  - by apply wf.
  - by rewrite Z.add_mod, Hm by lia.
Qed.

Lemma hdr_op_ok i h : op_ok (slot_off s i) (slot_off s i) (FProgram (slot_off s i) (hdr_bytes h)).
Proof.
  unfold op_ok. cbn [op_lo op_len]. rewrite hdr_bytes_length.
  split; [by apply wf|]. pose proof (slot_mod16 i). split_and!; lia || done.
Qed.

Lemma erase_op_ok off : persist_sector off -> op_ok off off (FErase off).
Proof. intros Hs. unfold op_ok. cbn. split_and!; try done; try lia. destruct Hs as (_ & _ & Hm). Z.div_mod_to_equations. lia. Qed.

(** The flash just before the header goes in: header quad-word blank, payload
    there, everything outside the sector untouched. *)
Lemma payload_written d i data :
  payload_ok s data ->
  let d' := run_ops (run_op d (FErase (slot_off s i)))
              (pages (body_pages data) (slot_off s i + 16) (body data)) in
  frame (slot_off s i) FLASH_SHIM_SECTOR_SIZE d d' /\
  (forall a, in_range (slot_off s i) 16 a -> flash_byte d' a = Some 255) /\
  (forall a, in_range (slot_off s i + 16) (Z.of_nat (length data)) a ->
     flash_byte d' a = data !! Z.to_nat (a - (slot_off s i + 16))).
Proof.
  intros Hp d'. assert (Hs : persist_sector (slot_off s i)) by by apply wf.
  pose proof (body_fits data i Hp) as Hfit. pose proof (body_length data) as Hbl.
  pose proof (body_pages_spec data).
  assert (Hfr : frame (slot_off s i + 16) 8176 (run_op d (FErase (slot_off s i))) d').
  { eapply frame_weaken; [| |apply run_ops_frame, body_pages_ok]; [lia|lia|done]. }
  split_and!.
  - etrans; [|eapply frame_weaken; [| |apply Hfr]]; [|lia|lia].
    by apply erase_frame.
  - intros a Ha. rewrite Hfr by (unfold in_range in *; layout; lia).
    cbn [run_op]. apply fl_erase_in; [done|unfold in_range in *; lia].
  - intros a Ha. subst d'. rewrite (run_pages_in (slot_off s i)); try done; try lia.
    + unfold body. rewrite lookup_app_l; [done|unfold in_range in *; lia].
    + by rewrite Z.add_mod, slot_mod16 by lia.
    + apply body_ok, Hp.
    + intros b Hb. apply fl_erase_in; [done|unfold in_range in *; lia].
    + unfold in_range in *. lia.
Qed.

Lemma record_ops_split i seq data :
  record_ops s i seq data =
    FErase (slot_off s i) :: pages (body_pages data) (slot_off s i + 16) (body data)
    ++ [FProgram (slot_off s i) (hdr_bytes (record_hdr s seq data))].
Proof. done. Qed.

(** A flash that holds the payload below a header that reads complete. *)
Lemma record_complete d i seq data :
  payload_ok s data -> 0 <= seq < 4294967296 ->
  (forall a, in_range (slot_off s i) 16 a ->
     flash_byte d a = hdr_bytes (record_hdr s seq data) !! Z.to_nat (a - slot_off s i)) ->
  (forall a, in_range (slot_off s i + 16) (Z.of_nat (length data)) a ->
     flash_byte d a = data !! Z.to_nat (a - (slot_off s i + 16))) ->
  slot_read s d i = Some (record_hdr s seq data, data).
Proof.
  intros Hp Hq Hh Hd. apply slot_read_record; [done..| |by apply flash_read_checked_Some].
  rewrite <- (hdr_bytes_length (record_hdr s seq data)). apply flash_read_checked_Some.
  rewrite hdr_bytes_length. apply Hh.
Qed.

(** A record written to a healthy flash reads back, and nothing outside its
    sector changes. *)
Lemma run_record d i seq data :
  payload_ok s data -> 0 <= seq < 4294967296 ->
  let d' := run_ops d (record_ops s i seq data) in
  slot_read s d' i = Some (record_hdr s seq data, data) /\
  frame (slot_off s i) FLASH_SHIM_SECTOR_SIZE d d'.
Proof.
  intros Hp Hq d'. assert (Hs : persist_sector (slot_off s i)) by by apply wf.
  destruct (payload_written d i data Hp) as (Hf & Hb & Hd).
  subst d'. rewrite record_ops_split. unfold run_ops in *. cbn [foldl].
  rewrite foldl_app. cbn [foldl]. set (d1 := foldl run_op _ (pages _ _ _)) in *.
  assert (Hh := hdr_op_ok i (record_hdr s seq data)).
  assert (Hf1 := run_op_frame _ _ d1 _ Hh). cbn [op_lo op_len] in Hf1. rewrite hdr_bytes_length in Hf1.
  split.
  - apply record_complete; [done..| |].
    + intros a Ha. cbn [run_op]. apply (fl_program_in d1 (slot_off s i)); rewrite ?hdr_bytes_length;
        [done|lia|lia|apply slot_mod16|done|apply hdr_bytes_ok|done|done].
    + intros a Ha. rewrite Hf1; [by apply Hd| |]; unfold in_range in *; [|lia].
      pose proof (body_fits data i Hp). pose proof (body_length data). layout. lia.
  - etrans; [apply Hf|]. eapply frame_weaken; [| |apply Hf1]; lia.
Qed.

End record.

(** ** Power cuts *)

Section cut.
Context `{FL : FlashLaws D}.
Implicit Types (d : D) (o : flash_op).

(** Power lost during [o]: outside its region nothing changed; each quad-word
    inside reads as before, as after, or not at all (ECC error). *)
Definition op_cut d o d' : Prop :=
  frame (op_lo o) (op_len o) d d' /\
  forall q, q mod 16 = 0 -> in_range (op_lo o) (op_len o) q ->
    (forall a, in_range q 16 a -> flash_byte d' a = flash_byte d a) \/
    (forall a, in_range q 16 a -> flash_byte d' a = flash_byte (run_op d o) a) \/
    (exists a, in_range q 16 a /\ flash_byte d' a = None).

(** Power lost somewhere in a sequence of operations. *)
Definition ops_cut d (l : list flash_op) d' : Prop :=
  exists pre o post, l = pre ++ o :: post /\ op_cut (run_ops d pre) o d'.

Lemma ops_cut_cons d o l d' :
  ops_cut d (o :: l) d' <-> op_cut d o d' \/ ops_cut (run_op d o) l d'.
Proof.
  split.
  - intros ([|p pre] & o' & post & E & Hc); simplify_eq/=; [by left|].
    right. by exists pre, o', post.
  - intros [Hc|(pre & o' & post & -> & Hc)]; [by exists [], o, l|].
    by exists (o :: pre), o', post.
Qed.

Lemma ops_cut_app d l1 l2 d' :
  ops_cut d (l1 ++ l2) d' <-> ops_cut d l1 d' \/ ops_cut (run_ops d l1) l2 d'.
Proof.
  revert d. induction l1 as [|o l1 IH]; intros d; cbn [app run_ops foldl].
  - split; [by right|]. intros [(pre & o & post & E & _)|?]; [by destruct pre|done].
  - rewrite !ops_cut_cons, IH. tauto.
Qed.

Lemma ops_cut_frame sec lo d l d' :
  Forall (op_ok sec lo) l -> ops_cut d l d' -> frame lo (sec + FLASH_SHIM_SECTOR_SIZE - lo) d d'.
Proof.
  intros Hf (pre & o & post & -> & Hc & _). apply Forall_app in Hf as [Hpre Hf].
  apply Forall_cons in Hf as [Ho _]. etrans; [by eapply run_ops_frame|].
  eapply frame_weaken; [| |apply Hc]; destruct Ho; lia.
Qed.

End cut.
