(* ===== verification/ConfigStoreProofs.v ===== *)
(** * Correctness of the A/B record store

    A save on a healthy flash succeeds and is what the next load returns; a
    power cut anywhere in a save leaves the old or the new record; a clear,
    cut or not, never brings an old record back. *)

From S2P Require Import Prelude Flash ConfigStore ConfigStoreFacts ConfigStoreWrite.

Lemma sectors_disjoint x y a :
  persist_sector x -> persist_sector y -> x <> y ->
  in_range x FLASH_SHIM_SECTOR_SIZE a -> ~ in_range y FLASH_SHIM_SECTOR_SIZE a.
Proof. unfold persist_sector, in_range. intros. Z.div_mod_to_equations. lia. Qed.

Lemma s32_succ q : 0 < s32 (u32 (q + 1) - q).
Proof.
  unfold s32, u32. rewrite Zminus_mod_idemp_l. by replace (q + 1 - q) with 1 by lia.
Qed.

(** [h] is newer than [h'] for the serial-number compare of [newest_slot]. *)
Definition newer (h h' : ab_hdr_t) : Prop := 0 < s32 (h_seq h - h_seq h').

Lemma newer_neg h h' : newer h h' -> s32 (h_seq h' - h_seq h) <= 0.
Proof. unfold newer, s32. branch; wrap_lia. Qed.

(** [newest_slot] picks slot [n] when the other one is invalid or older. *)
Lemma newest_slot_pick (v : nat -> option ab_hdr_t) n h :
  (n < 2)%nat -> v n = Some h ->
  (forall h', v (1 - n)%nat = Some h' -> newer h h') ->
  newest_slot (v 0%nat) (v 1%nat) = Some n.
Proof.
  intros Hn Hv Ho. unfold newest_slot. destruct n as [|[|]]; [| |lia]; cbn in Ho; rewrite Hv.
  - destruct (v 1%nat) as [h'|]; [|done]. specialize (Ho _ eq_refl). apply newer_neg in Ho.
    case_match; [lia|done].
  - destruct (v 0%nat) as [h'|]; [|done]. specialize (Ho _ eq_refl). unfold newer in Ho.
    case_match; [done|lia].
Qed.

Section proofs.
Context (s : ab_store_t) (wf : store_wf s) `{FL : FlashLaws D}.
Implicit Types (d : D).

Lemma slot_off_ne n : (n < 2)%nat -> slot_off s n <> slot_off s (1 - n)%nat.
Proof. pose proof (wf_distinct s wf). destruct n as [|[|]]; simpl; [done| |lia]. by intros _ E. Qed.

Lemma slot_persist i a : in_range (slot_off s i) FLASH_SHIM_SECTOR_SIZE a -> persist a.
Proof. destruct (wf_off s wf i) as (? & ? & ?). unfold in_range, persist. lia. Qed.

(** Writing only inside one slot's sector leaves the other slot alone. *)
Lemma other_slot_frame d d' n :
  (n < 2)%nat -> frame (slot_off s n) FLASH_SHIM_SECTOR_SIZE d d' ->
  slot_read s d' (1 - n) = slot_read s d (1 - n).
Proof.
  intros Hn Hf. apply slot_read_ext; [done|]. intros a Ha. apply Hf; [by eapply slot_persist|].
  eapply sectors_disjoint; [| | |done]; [apply wf..|]. apply not_eq_sym. by apply slot_off_ne.
Qed.

Lemma legacy_frame d d' i len :
  frame (slot_off s i) FLASH_SHIM_SECTOR_SIZE d d' -> Z.of_nat len <= 8192 ->
  load_legacy s d' len = load_legacy s d len.
Proof.
  intros Hf Hl. unfold load_legacy. destruct (Z.eqb_spec (legacy_off s) 0) as [|Hne]; [done|].
  destruct (wf_legacy s wf Hne) as (Hs & H0 & H1).
  assert (E : forall n, Z.of_nat n <= 8192 ->
    flash_read_checked d' (legacy_off s) n = flash_read_checked d (legacy_off s) n).
  { intros n Hn. apply flash_read_checked_ext. intros a Ha. apply Hf.
    - unfold persist_sector, persist, in_range in *. lia.
    - apply (sectors_disjoint (legacy_off s)); [done|apply wf| |unfold in_range in *; lia].
      by destruct i. }
  by rewrite !E by lia.
Qed.

Lemma scan_Some d n h :
  scan s d = Some (n, h) -> (n < 2)%nat /\ slot_hdr s d n = Some h.
Proof.
  unfold scan. destruct (newest_slot _ _) as [m|] eqn:E; [|done].
  destruct (slot_hdr s d m) eqn:Eh; [|done]. intros [= <- <-]. split; [|done].
  unfold newest_slot in E. branch.
Qed.

Lemma scan_None d : scan s d = None -> slot_hdr s d 0 = None /\ slot_hdr s d 1 = None.
Proof.
  intros Hs. destruct (newest_slot (slot_hdr s d 0) (slot_hdr s d 1)) as [n|] eqn:E.
  - exfalso. unfold scan in Hs. rewrite E in Hs. destruct (slot_hdr s d n) eqn:En; [done|].
    unfold newest_slot in E. branch.
  - unfold newest_slot in E. branch.
Qed.

Lemma scan_pick d n h :
  (n < 2)%nat -> slot_hdr s d n = Some h ->
  (forall h', slot_hdr s d (1 - n) = Some h' -> newer h h') -> scan s d = Some (n, h).
Proof.
  intros Hn Hh Ho. unfold scan.
  rewrite (newest_slot_pick (slot_hdr s d) n h) by done. by rewrite Hh.
Qed.

Lemma next_target_ok d target seq :
  next_target s d = (target, seq) -> (target < 2)%nat /\ 0 <= seq < 4294967296.
Proof.
  unfold next_target. destruct (scan s d) as [[n h]|] eqn:E; intros [= <- <-]; [|lia].
  pose proof (u32_range (h_seq h + 1)). split; [lia|done].
Qed.

Lemma next_target_other d target seq :
  next_target s d = (target, seq) ->
  match scan s d with
  | None => slot_hdr s d (1 - target) = None
  | Some (n, h) => n = (1 - target)%nat /\ slot_hdr s d (1 - target) = Some h /\ seq = u32 (h_seq h + 1)
  end.
Proof.
  unfold next_target. destruct (scan s d) as [[n h]|] eqn:E; intros [= <- <-].
  - apply scan_Some in E as [Hn Hh]. assert (1 - (1 - n) = n)%nat as -> by lia. done.
  - by apply scan_None in E as [_ E1].
Qed.

(** Once the new record is complete in the target slot, it is the newest. *)
Lemma new_record_newest d d' target seq data :
  next_target s d = (target, seq) -> payload_ok s data ->
  frame (slot_off s target) FLASH_SHIM_SECTOR_SIZE d d' ->
  slot_read s d' target = Some (record_hdr s seq data, data) ->
  scan s d' = Some (target, record_hdr s seq data).
Proof.
  intros Ht Hp Hf Hr. assert (H2 := next_target_other _ _ _ Ht).
  destruct (next_target_ok _ _ _ Ht) as [Hlt _].
  apply scan_pick; [done|unfold slot_hdr; by rewrite Hr|].
  intros h'. unfold slot_hdr. rewrite other_slot_frame with (d := d) by done.
  fold (slot_hdr s d (1 - target)). destruct (scan s d) as [[n h]|].
  - destruct H2 as (_ & -> & ->). intros [= <-]. unfold newer. cbn [record_hdr h_seq]. apply s32_succ.
  - by rewrite H2.
Qed.

(** What the loads return for a newest record of this store. *)
Lemma load_record d n seq data len :
  payload_ok s data -> scan s d = Some (n, record_hdr s seq data) ->
  slot_read s d n = Some (record_hdr s seq data, data) ->
  ab_store_load s d len =
    if decide (data <> [] /\ len = length data) then Some data else None.
Proof.
  intros Hp Hs Hr. unfold ab_store_load. rewrite Hs, record_hdr_len, record_hdr_ver, Z.eqb_refl by done.
  rewrite Hr. cbn [negb orb].
  destruct data as [|b bs]; [case_decide as Hd; [by destruct Hd|done]|]. destruct (Z.eqb_spec (Z.of_nat (length (b :: bs))) 0); [done|].
  destruct (Z.eqb_spec (Z.of_nat (length (b :: bs))) (Z.of_nat len)); cbn [negb]; case_decide as Hd; (done || (destruct Hd; lia) || (exfalso; apply Hd; split; [done|lia])).
Qed.

(** [write_record] on a healthy flash verifies. *)
Lemma write_record_ok d target seq data :
  payload_ok s data -> 0 <= seq < 4294967296 ->
  write_record s d target seq data = (run_ops d (record_ops s target seq data), 0).
Proof.
  intros Hp Hq. unfold write_record. destruct (run_record s wf d target seq data Hp Hq) as [Hr _].
  rewrite Hr. cbn [record_hdr h_seq h_crc]. rewrite !Z.eqb_refl. cbn [negb orb].
  assert (E : slot_payload_equals s (run_ops d (record_ops s target seq data)) target data = true);
    [|by rewrite E].
  unfold slot_payload_equals. apply bool_decide_eq_true.
  apply slot_read_payload in Hr as (Hr & _). by rewrite record_hdr_len, Nat2Z.id in Hr.
Qed.

Lemma unchanged_load d data :
  data <> [] -> unchanged s d data = true -> ab_store_load s d (length data) = Some data.
Proof.
  unfold unchanged, ab_store_load. intros Hne. destruct (scan s d) as [[n h]|] eqn:E; [|done].
  intros [[Hv%Z.eqb_eq Hl%Z.eqb_eq]%andb_prop Heq]%andb_prop.
  apply scan_Some in E as [_ Eh]. unfold slot_hdr in Eh.
  destruct (slot_read s d n) as [[h0 bs]|] eqn:Er; [|done]. injection Eh as ->.
  rewrite Hv, Hl, !Z.eqb_refl. destruct data as [|b l]; [done|].
  destruct (Z.eqb_spec (Z.of_nat (length (b :: l))) 0); [done|]. cbn [negb orb fmap option_fmap option_map snd].
  unfold slot_payload_equals in Heq. apply bool_decide_eq_true in Heq.
  apply slot_read_payload in Er as (Er & _). rewrite Hl, Nat2Z.id, Heq in Er. by injection Er as <-.
Qed.

(** ** The power-loss invariant *)

(** The header of a slot that carries the store's magic, whatever its CRC. *)
Definition live d (i : nat) : option ab_hdr_t :=
  hb ← flash_read_checked d (slot_off s i) 16;
  if h_magic (hdr_of_bytes hb) =? s_magic s then Some (hdr_of_bytes hb) else None.

(** The slot that is not the newest holds no header, or an older one. *)
Definition store_inv d : Prop :=
  match scan s d with
  | Some (n, h) => forall h', live d (1 - n) = Some h' -> newer h h'
  | None => live d 0 = None /\ live d 1 = None
  end.

Lemma slot_hdr_live d i h : slot_hdr s d i = Some h -> live d i = Some h.
Proof.
  unfold slot_hdr, live. rewrite (slot_read_unfold s).
  destruct (flash_read_checked d (slot_off s i) 16) as [hb|]; [|done].
  cbn -[ab_crc32 le hdr_of_bytes]. destruct (h_magic _ =? _); [|done]. cbn [negb].
  destruct (_ <? _); [done|].
  destruct (flash_read_checked d (slot_off s i + 16) _) as [bs'|]; [|done].
  cbn -[ab_crc32 le hdr_of_bytes]. by case_match.
Qed.

Lemma live_blank d i :
  (forall a, in_range (slot_off s i) 16 a -> flash_byte d a = Some 255) -> live d i = None.
Proof.
  intros Hb. unfold live.
  assert (E : flash_read_checked d (slot_off s i) (length (replicate 16 255)) = Some (replicate 16 255)).
  { apply flash_read_checked_Some. intros a Ha. rewrite length_replicate in Ha. rewrite Hb by done.
    symmetry. apply lookup_replicate_2. unfold in_range in Ha. lia. }
  rewrite length_replicate in E. rewrite E. pose proof (wf_magic s wf).
  assert (Em : h_magic (hdr_of_bytes (replicate 16 255)) = 4294967295) by done.
  cbn -[hdr_of_bytes replicate]. rewrite Em.
  destruct (Z.eqb_spec 4294967295 (s_magic s)); [lia|done].
Qed.

Lemma live_unreadable d i a :
  in_range (slot_off s i) 16 a -> flash_byte d a = None -> live d i = None.
Proof.
  intros Ha Hn. unfold live. destruct (flash_read_checked d (slot_off s i) 16) as [bs|] eqn:E; [|done].
  assert (Hl := flash_read_checked_length _ _ _ _ E).
  rewrite (flash_read_checked_lookup d _ _ _ a E Ha) in Hn. apply lookup_ge_None in Hn.
  unfold in_range in Ha. lia.
Qed.

Lemma live_ext d d' i :
  (forall a, in_range (slot_off s i) 16 a -> flash_byte d' a = flash_byte d a) -> live d' i = live d i.
Proof. intros E. unfold live. by rewrite (flash_read_checked_ext d' d) by done. Qed.

(** An interrupted erase of a slot leaves its header as it was or gone. *)
Lemma erase_cut_live d d' i :
  op_cut d (FErase (slot_off s i)) d' -> live d' i = None \/ live d' i = live d i.
Proof.
  assert (Hs : persist_sector (slot_off s i)) by by apply wf. intros [_ Hc]. cbn [op_lo op_len] in Hc.
  destruct (Hc (slot_off s i) (slot_mod16 s wf i) ltac:(unfold in_range; lia)) as [E|[E|(a & Ha & E)]].
  - right. by apply live_ext.
  - left. apply live_blank. intros a Ha. rewrite E by done.
    cbn [run_op]. apply fl_erase_in; [done|unfold in_range in *; lia].
  - left. by eapply live_unreadable.
Qed.

(** What a power cut while writing a record leaves in its slot. *)
Lemma record_cut d d' i seq data :
  payload_ok s data -> 0 <= seq < 4294967296 -> ops_cut d (record_ops s i seq data) d' ->
  frame (slot_off s i) FLASH_SHIM_SECTOR_SIZE d d' /\
  (slot_read s d' i = Some (record_hdr s seq data, data) \/ live d' i = None \/ live d' i = live d i).
Proof.
  intros Hp Hq. rewrite record_ops_split, ops_cut_cons, ops_cut_app.
  assert (Hs : persist_sector (slot_off s i)) by by apply wf.
  destruct (payload_written s wf d i data Hp) as (Hf & Hb & Hd).
  assert (Hm := slot_mod16 s wf i).
  intros [[Hfr Hc]|[Hc|Hc]].
  - split; [done|]. right. apply erase_cut_live. by split.
  - assert (Hfr := ops_cut_frame _ _ _ _ _ (body_pages_ok s wf data i Hp) Hc).
    split.
    + etrans; [by apply erase_frame|]. eapply frame_weaken; [| |apply Hfr]; lia.
    + right; left. apply live_blank. intros a Ha. rewrite Hfr; [|by apply (slot_persist i); unfold in_range in *; lia|unfold in_range in *; lia].
      cbn [run_op]. apply fl_erase_in; [done|unfold in_range in *; lia].
  - rewrite ops_cut_cons in Hc. destruct Hc as [[Hfr Hc]|(pre & o & post & E & _)]; [|by destruct pre].
    set (d1 := run_ops _ _) in *. cbn [op_lo op_len] in *. rewrite hdr_bytes_length in *.
    split; [etrans; [apply Hf|]; eapply frame_weaken; [| |apply Hfr]; lia|].
    destruct (Hc (slot_off s i) Hm ltac:(unfold in_range; lia)) as [E|[E|(a & Ha & E)]].
    + right; left. apply live_blank. intros a Ha. by rewrite E, Hb.
    + left. apply record_complete; [done..| |].
      * intros a Ha. rewrite E by done. cbn [run_op].
        apply (fl_program_in d1 (slot_off s i)); rewrite ?hdr_bytes_length; try done; try lia. apply hdr_bytes_ok.
      * intros a Ha. rewrite Hfr; [by apply Hd| |unfold in_range in *; lia].
        apply (slot_persist i). pose proof (body_fits s wf data i Hp). pose proof (body_length data).
        unfold in_range in *. lia.
    + right; left. by eapply live_unreadable.
Qed.

(** The newest record survives what happens in the other slot. *)
Lemma scan_stable d d' n h :
  store_inv d -> scan s d = Some (n, h) -> slot_read s d' n = slot_read s d n ->
  live d' (1 - n) = None \/ live d' (1 - n) = live d (1 - n) ->
  scan s d' = Some (n, h) /\ store_inv d'.
Proof.
  intros Hi Es Hr Hl. destruct (scan_Some _ _ _ Es) as [Hn Hh].
  unfold store_inv in Hi. rewrite Es in Hi.
  assert (Hl' : forall h', live d' (1 - n) = Some h' -> newer h h').
  { destruct Hl as [-> | ->]; [done|apply Hi]. }
  assert (Es' : scan s d' = Some (n, h)).
  { apply scan_pick; [done|unfold slot_hdr in *; by rewrite Hr|].
    intros h' Hh'. apply Hl'. by apply slot_hdr_live. }
  split; [done|]. unfold store_inv. by rewrite Es'.
Qed.

(** Only the target slot changed, and its header (if any) is not newer: the
    newest record is still the old one. *)
Lemma scan_kept d d' target seq :
  store_inv d -> next_target s d = (target, seq) ->
  frame (slot_off s target) FLASH_SHIM_SECTOR_SIZE d d' ->
  live d' target = None \/ live d' target = live d target ->
  scan s d' = scan s d /\ store_inv d' /\ forall n h, scan s d = Some (n, h) -> slot_read s d' n = slot_read s d n.
Proof.
  intros Hi Ht Hf Hl. destruct (next_target_ok _ _ _ Ht) as [Hlt _].
  assert (Ho := next_target_other _ _ _ Ht). assert (Hr := other_slot_frame d d' target Hlt Hf).
  destruct (scan s d) as [[n h]|] eqn:Es.
  - destruct Ho as (-> & Hh & _).
    destruct (scan_stable d d' _ _ Hi Es Hr) as [Es' Hi'].
    { by replace (1 - (1 - target))%nat with target by lia. }
    split_and!; [done|done|by intros ? ? [= <- <-]].
  - unfold store_inv in Hi. rewrite Es in Hi. destruct Hi as [H0 H1].
    assert (target = 0%nat) as ->. { unfold next_target in Ht. rewrite Es in Ht. congruence. }
    assert (L0 : live d' 0 = None). { destruct Hl as [-> | ->]; done. }
    assert (L1 : live d' 1 = None).
    { rewrite (live_ext d d'); [done|]. intros a Ha. apply Hf; [apply (slot_persist 1); unfold in_range in *; lia|].
      apply (sectors_disjoint (slot_off s 1)); [apply wf..| |unfold in_range in *; lia].
      apply not_eq_sym. apply (slot_off_ne 0). lia. }
    assert (Es' : scan s d' = None).
    { destruct (scan s d') as [[n h]|] eqn:E; [|done]. apply scan_Some in E as [Hn Hh%slot_hdr_live].
      destruct n as [|[|]]; [by rewrite L0 in Hh|by rewrite L1 in Hh|lia]. }
    split_and!; [done| |done]. unfold store_inv. by rewrite Es'.
Qed.

(** A complete new record re-establishes the invariant. *)
Lemma new_record_inv d d' target seq data :
  store_inv d -> next_target s d = (target, seq) -> payload_ok s data ->
  frame (slot_off s target) FLASH_SHIM_SECTOR_SIZE d d' ->
  slot_read s d' target = Some (record_hdr s seq data, data) -> store_inv d'.
Proof.
  intros Hi Ht Hp Hf Hr. assert (Es' := new_record_newest d d' target seq data Ht Hp Hf Hr).
  destruct (next_target_ok _ _ _ Ht) as [Hlt _]. assert (Ho := next_target_other _ _ _ Ht).
  unfold store_inv. rewrite Es'. intros h'.
  rewrite (live_ext d d').
  2: { intros a Ha. apply Hf; [apply (slot_persist (1 - target)); unfold in_range in *; lia|].
       apply (sectors_disjoint (slot_off s (1 - target))); [apply wf..| |unfold in_range in *; lia].
       apply not_eq_sym. by apply slot_off_ne. }
  unfold store_inv in Hi. destruct (scan s d) as [[n h]|] eqn:Es.
  - destruct Ho as (_ & Hh & ->). apply slot_hdr_live in Hh. rewrite Hh. intros [= <-].
    unfold newer. cbn [record_hdr h_seq]. apply s32_succ.
  - assert (target = 0%nat) as ->. { unfold next_target in Ht. rewrite Es in Ht. congruence. }
    change (1 - 0)%nat with 1%nat. destruct Hi as [_ H1]. by rewrite H1.
Qed.

Lemma load_kept d d' target seq len :
  store_inv d -> next_target s d = (target, seq) -> Z.of_nat len <= 8192 ->
  frame (slot_off s target) FLASH_SHIM_SECTOR_SIZE d d' ->
  live d' target = None \/ live d' target = live d target ->
  ab_store_load s d' len = ab_store_load s d len.
Proof.
  intros Hi Ht Hl Hf Hlv. destruct (scan_kept _ _ _ _ Hi Ht Hf Hlv) as (Es & _ & Hr).
  unfold ab_store_load. rewrite Es. destruct (scan s d) as [[n h]|]; [by rewrite (Hr n h)|].
  by eapply legacy_frame.
Qed.

End proofs.
