(* ===== verification/Json.v ===== *)
(** * The flat JSON parser and the bounds-tracked emitter ([bp_json.c])

    Pointers into the text are suffixes of it ([cstr], Prelude.v). Loops that
    consume the text are structural; the member loop of [find_key_top] runs on
    fuel, the length of the text, which JsonProofs.v shows is always enough. *)

From S2P Require Import Prelude.

Definition is_ws (c : Z) : bool := (c =? 32) || (c =? 9) || (c =? 10) || (c =? 13).

Abbreviation QUOTE := 34.
Abbreviation BACKSLASH := 92.
Abbreviation COMMA := 44.
Abbreviation COLON := 58.
Abbreviation LBRACE := 123.
Abbreviation RBRACE := 125.
Abbreviation LBRACK := 91.
Abbreviation RBRACK := 93.

(** ** Parser *)

Fixpoint skip_ws (p : cstr) : cstr :=
  match p with
  | c :: p' => if is_ws c then skip_ws p' else p
  | [] => []
  end.

(** [strncmp(p, needle, strlen(needle)) == 0]. *)
Definition has_prefix (needle p : cstr) : bool := bool_decide (take (length needle) p = needle).

(** The [strstr] loop of [find_key]: the first match followed by ':'. *)
Fixpoint find_key_loop (needle p : cstr) : option cstr :=
  let try_here :=
    if has_prefix needle p then
      let q := skip_ws (drop (length needle) p) in
      if deref q =? COLON then Some (skip_ws (tail q)) else None
    else None in
  match try_here with
  | Some v => Some v
  | None => match p with [] => None | _ :: p' => find_key_loop needle p' end
  end.

Definition find_key (json key : cstr) : option cstr :=
  let needle := QUOTE :: key ++ [QUOTE] in
  if (64 <=? length needle)%nat then None else find_key_loop needle json.

(** Up to the closing quote of a string (or the end), escapes skipped. *)
Fixpoint skip_str (p : cstr) : cstr :=
  match p with
  | [] => []
  | c :: p' =>
      if c =? QUOTE then p
      else if c =? BACKSLASH then
        match p' with [] => [] | _ :: p'' => skip_str p'' end
      else skip_str p'
  end.

(** The bracket-matching loop of [skip_value]. *)
Fixpoint skip_nest (p : cstr) (depth : Z) (in_str esc : bool) : option cstr :=
  match p with
  | [] => None
  | c :: p' =>
      if esc then skip_nest p' depth in_str false
      else if in_str then
        if c =? BACKSLASH then skip_nest p' depth true true
        else if c =? QUOTE then skip_nest p' depth false false
        else skip_nest p' depth true false
      else if c =? QUOTE then skip_nest p' depth true false
      else if (c =? LBRACE) || (c =? LBRACK) then skip_nest p' (depth + 1) false false
      else if (c =? RBRACE) || (c =? RBRACK) then
        if depth - 1 =? 0 then Some p' else skip_nest p' (depth - 1) false false
      else skip_nest p' depth false false
  end.

Fixpoint skip_scalar (p : cstr) : cstr :=
  match p with
  | [] => []
  | c :: p' => if (c =? COMMA) || (c =? RBRACE) || (c =? RBRACK) then p else skip_scalar p'
  end.

Definition skip_value (p : cstr) : option cstr :=
  match p with
  | [] => Some []
  | c :: p' =>
      if c =? QUOTE then match skip_str p' with [] => None | _ :: r => Some r end
      else if (c =? LBRACE) || (c =? LBRACK) then skip_nest p 0 false false
      else Some (skip_scalar p)
  end.

(** The member loop of [find_key_top], from just inside the outer '{'. *)
Fixpoint find_key_top_loop (fuel : nat) (key p : cstr) : option cstr :=
  match fuel with
  | O => None
  | S fuel' =>
      match skip_ws p with
      | [] => None
      | c :: p1 =>
          if c =? COMMA then find_key_top_loop fuel' key p1
          else if c =? RBRACE then None
          else if negb (c =? QUOTE) then None
          else
            let ks := p1 in
            match skip_str ks with
            | [] => None
            | _ :: p2 =>
                let found := (length ks - length (skip_str ks))%nat in
                let p3 := skip_ws p2 in
                if negb (deref p3 =? COLON) then None
                else
                  let p4 := skip_ws (tail p3) in
                  if (found =? length key)%nat && has_prefix key ks then Some p4
                  else
                    match skip_value p4 with
                    | None => None
                    | Some p5 => find_key_top_loop fuel' key p5
                    end
            end
      end
  end.

Definition find_key_top (json key : cstr) : option cstr :=
  match skip_ws json with
  | c :: p => if c =? LBRACE then find_key_top_loop (S (length json)) key p else None
  | [] => None
  end.

Definition isxdigit (c : Z) : bool :=
  ((48 <=? c) && (c <=? 57)) || ((97 <=? c) && (c <=? 102)) || ((65 <=? c) && (c <=? 70)).

(** Skip up to [k] hex digits. *)
Fixpoint skip_hex (k : nat) (p : cstr) : cstr :=
  match k, p with
  | S k', c :: p' => if isxdigit c then skip_hex k' p' else p
  | _, _ => p
  end.

(** Decode the escape after a backslash; [p] is not at the end. *)
Definition unescape (p : cstr) : Z * cstr :=
  match p with
  | [] => (0, [])
  | c :: p' =>
      if c =? 110 then (10, p')            (* n *)
      else if c =? 114 then (13, p')       (* r *)
      else if c =? 116 then (9, p')        (* t *)
      else if c =? 98 then (8, p')         (* b *)
      else if c =? 102 then (12, p')       (* f *)
      else if c =? 117 then (63, skip_hex 4 p')   (* u: a placeholder '?' *)
      else (c, p')
  end.

(** The string-value loop of [json_get_at2]: at most [k] characters. *)
Fixpoint get_str (k : nat) (p : cstr) : cstr * cstr :=
  match k with
  | O => ([], p)
  | S k' =>
      match p with
      | [] => ([], p)
      | c :: p1 =>
          if c =? QUOTE then ([], p)
          else
            let '(c', p2) :=
              if (c =? BACKSLASH) && negb (deref p1 =? 0) then unescape p1 else (c, p1) in
            let '(o, p3) := get_str k' p2 in (c' :: o, p3)
      end
  end.

Definition scalar_end (c : Z) : bool := (c =? COMMA) || (c =? RBRACE) || is_ws c.

Fixpoint get_scalar (k : nat) (p : cstr) : cstr * cstr :=
  match k with
  | O => ([], p)
  | S k' =>
      match p with
      | [] => ([], p)
      | c :: p1 =>
          if scalar_end c then ([], p)
          else let '(o, p3) := get_scalar k' p1 in (c :: o, p3)
      end
  end.

(** What a getter leaves: found or not, the output buffer, cut short or not. *)
Record got := Got { found : bool; out : cstr; truncated : bool }.

Definition json_get_at2 (json key : cstr) (out_len : nat) (top_level : bool) : got :=
  if (out_len =? 0)%nat then Got false [] false
  else
    match (if top_level then find_key_top json key else find_key json key) with
    | None => Got false [] false
    | Some p =>
        if deref p =? QUOTE then
          let '(o, p') := get_str (out_len - 1) (tail p) in
          Got true o (negb (deref p' =? 0) && negb (deref p' =? QUOTE))
        else
          let '(o, p') := get_scalar (out_len - 1) p in
          Got (0 <? length o)%nat o (negb (deref p' =? 0) && negb (scalar_end (deref p')))
    end.

Definition bp_json_get (json key : cstr) (out_len : nat) : got := json_get_at2 json key out_len false.
Definition bp_json_get_top (json key : cstr) (out_len : nat) : got := json_get_at2 json key out_len true.

Definition bp_json_get_fit (json key : cstr) (out_len : nat) : Z * cstr :=
  let g := json_get_at2 json key out_len false in
  if negb (found g) then (0, out g) else if truncated g then (-1, out g) else (1, out g).

Definition bp_json_flag (json key : cstr) : bool :=
  let g := bp_json_get json key 8 in
  if negb (found g) then false
  else
    let c := deref (out g) in
    (c =? 49) || (c =? 116) || (c =? 84) || (c =? 121) || (c =? 89).

(** The copy loop of [json_object_at]: [i] bytes copied so far. *)
Fixpoint object_loop (p : cstr) (i cap : nat) (depth : Z) (in_str esc : bool) (acc : cstr) : option cstr :=
  match p with
  | [] => None
  | c :: p' =>
      if (cap <=? i + 1)%nat then None
      else
        let acc := acc ++ [c] in
        if esc then object_loop p' (S i) cap depth in_str false acc
        else if in_str then
          if c =? BACKSLASH then object_loop p' (S i) cap depth true true acc
          else if c =? QUOTE then object_loop p' (S i) cap depth false false acc
          else object_loop p' (S i) cap depth true false acc
        else if c =? QUOTE then object_loop p' (S i) cap depth true false acc
        else if c =? LBRACE then object_loop p' (S i) cap (depth + 1) false false acc
        else if c =? RBRACE then
          if depth - 1 =? 0 then Some acc else object_loop p' (S i) cap (depth - 1) false false acc
        else object_loop p' (S i) cap depth false false acc
  end.

Definition json_object_at (json key : cstr) (cap : nat) (top_level : bool) : option cstr :=
  if (cap =? 0)%nat then None
  else
    match (if top_level then find_key_top json key else find_key json key) with
    | None => None
    | Some p => if deref p =? LBRACE then object_loop p 0 cap 0 false false [] else None
    end.

Definition bp_json_object (json key : cstr) (cap : nat) : option cstr := json_object_at json key cap false.
Definition bp_json_object_top (json key : cstr) (cap : nat) : option cstr := json_object_at json key cap true.

(** ** Emitter *)

Record bp_emit_t := Emit { e_buf : cstr; e_cap : nat; e_ok : bool }.

Definition e_len (e : bp_emit_t) : nat := length (e_buf e).

Definition emit_bytes (e : bp_emit_t) (s : cstr) : bp_emit_t :=
  if negb (e_ok e) then e
  else if (e_cap e - e_len e <? length s + 1)%nat then Emit (e_buf e) (e_cap e) false
  else Emit (e_buf e ++ s) (e_cap e) true.

Definition bp_emit_init (cap : nat) : bp_emit_t := Emit [] cap (0 <? cap)%nat.

Definition bp_emit_raw (e : bp_emit_t) (s : cstr) : bp_emit_t := emit_bytes e s.

Definition hex_digit (n : Z) : Z := if n <? 10 then 48 + n else 87 + n.

(** The bytes one character of a string value is emitted as. *)
Definition jstr_char (c : Z) : cstr :=
  if c =? QUOTE then [BACKSLASH; QUOTE]
  else if c =? BACKSLASH then [BACKSLASH; BACKSLASH]
  else if c =? 10 then [BACKSLASH; 110]
  else if c =? 13 then [BACKSLASH; 114]
  else if c =? 9 then [BACKSLASH; 116]
  else if c <? 32 then [BACKSLASH; 117; 48; 48; hex_digit (c / 16); hex_digit (c mod 16)]
  else [c].

Fixpoint jstr_loop (e : bp_emit_t) (s : cstr) : bp_emit_t :=
  match s with
  | [] => e
  | c :: s' => if e_ok e then jstr_loop (emit_bytes e (jstr_char c)) s' else e
  end.

Definition bp_emit_jstr (e : bp_emit_t) (s : cstr) : bp_emit_t :=
  emit_bytes (jstr_loop (emit_bytes e [QUOTE]) s) [QUOTE].

(** ** Byte arrays and raw scans *)

Definition isspace (c : Z) : bool := (c =? 32) || ((9 <=? c) && (c <=? 13)).
Definition digit_val (c : Z) : Z :=
  if (48 <=? c) && (c <=? 57) then c - 48
  else if (97 <=? c) && (c <=? 122) then c - 87
  else if (65 <=? c) && (c <=? 90) then c - 55 else 255.

Fixpoint skip_space (p : cstr) : cstr :=
  match p with c :: p' => if isspace c then skip_space p' else p | [] => [] end.

(** The digits of [strtoul], saturating at ULONG_MAX (32-bit [long]). *)
Fixpoint strtoul_digits (base acc : Z) (p : cstr) : Z :=
  match p with
  | [] => acc
  | c :: p' =>
      if digit_val c <? base then strtoul_digits base (Z.min (acc * base + digit_val c) 4294967296) p'
      else acc
  end.

(** [strtoul(p, NULL, 0)]. *)
Definition strtoul0 (p : cstr) : Z :=
  let p := skip_space p in
  let '(neg, p) := if deref p =? 45 then (true, tail p)
                   else if deref p =? 43 then (false, tail p) else (false, p) in
  let '(base, p) :=
    if deref p =? 48 then
      if ((deref (tail p) =? 120) || (deref (tail p) =? 88)) && (digit_val (deref (tail (tail p))) <? 16)
      then (16, tail (tail p)) else (8, p)
    else (10, p) in
  let v := strtoul_digits base 0 p in
  if 4294967295 <? v then 4294967295 else if neg then u32 (- v) else v.

Fixpoint skip_sep (p : cstr) : cstr :=
  match p with c :: p' => if (c =? 32) || (c =? COMMA) then skip_sep p' else p | [] => [] end.
Fixpoint skip_elem (p : cstr) : cstr :=
  match p with c :: p' => if (c =? COMMA) || (c =? RBRACK) then p else skip_elem p' | [] => [] end.

(** The elements of the array, all of them (the source counts past [cap] and
    stores only the first [cap]). *)
Fixpoint array_loop (fuel : nat) (p : cstr) : list Z :=
  match fuel with
  | O => []
  | S fuel' =>
      if (deref p =? 0) || (deref p =? RBRACK) then []
      else
        let p := skip_sep p in
        if (deref p =? RBRACK) || (deref p =? 0) then []
        else u8 (strtoul0 p) :: array_loop fuel' (skip_elem p)
  end.

(** (return value, stored bytes, *len). *)
Definition bp_json_byte_array (json key : cstr) (cap : nat) : Z * list Z * nat :=
  match find_key json key with
  | None => (0, [], 0%nat)
  | Some p =>
      if negb (deref p =? LBRACK) then (0, [], 0%nat)
      else
        let l := array_loop (length p) (tail p) in
        (1, take cap l, Nat.min cap (length l))
  end.

(** [atoi] (newlib: [strtol] base 10, saturating at the 32-bit [long]). *)
Definition atoi (p : cstr) : Z :=
  let p := skip_space p in
  let '(neg, p) := if deref p =? 45 then (true, tail p)
                   else if deref p =? 43 then (false, tail p) else (false, p) in
  let v := strtoul_digits 10 0 p in
  if neg then Z.max (- v) (-2147483648) else Z.min v 2147483647.
