(* ===== verification/JsonProofs.v ===== *)
(** * The JSON parser and emitter: theorems

    The emitter never overruns and is all-or-nothing; what it writes, the
    parser reads back; the top-level lookup is not fooled by anything nested. *)

From S2P Require Import Prelude Json.

(** ** Emitter *)

Definition jstr_body (s : cstr) : cstr := concat (map jstr_char s).
Definition jstr_text (s : cstr) : cstr := QUOTE :: jstr_body s ++ [QUOTE].

(** The NUL always fits behind what was written. *)
Definition emit_wf (e : bp_emit_t) : Prop := (e_ok e = true -> e_len e < e_cap e)%nat.

Lemma emit_bytes_spec e s :
  emit_wf e -> e_ok e = true ->
  emit_bytes e s = if decide (e_len e + length s < e_cap e)%nat
                   then Emit (e_buf e ++ s) (e_cap e) true else Emit (e_buf e) (e_cap e) false.
Proof.
  unfold emit_wf, emit_bytes. intros Hwf Hok. specialize (Hwf Hok). rewrite Hok. cbn [negb].
  case_decide; destruct (Nat.ltb_spec (e_cap e - e_len e) (length s + 1)); done || lia.
Qed.

(** The loop either appends the whole body, or stops not-ok after a prefix. *)
Lemma jstr_loop_spec s e :
  emit_wf e -> e_ok e = true ->
  if decide (e_len e + length (jstr_body s) < e_cap e)%nat
  then jstr_loop e s = Emit (e_buf e ++ jstr_body s) (e_cap e) true
  else exists pre, pre `prefix_of` jstr_body s /\ (e_len e + length pre < e_cap e)%nat /\
         jstr_loop e s = Emit (e_buf e ++ pre) (e_cap e) false.
Proof.
  revert e. induction s as [|c s IH]; intros e Hwf Hok; assert (Hlt := Hwf Hok); cbn [jstr_loop].
  - rewrite decide_True by (cbn; lia). cbn. rewrite app_nil_r. destruct e; cbn in *; by subst.
  - rewrite Hok, emit_bytes_spec by done. unfold jstr_body in *. cbn [map concat]. rewrite length_app.
    destruct (decide (e_len e + length (jstr_char c) < e_cap e)%nat) as [Hd|Hd].
    + set (e1 := Emit (e_buf e ++ jstr_char c) (e_cap e) true).
      assert (Hl : e_len e1 = (e_len e + length (jstr_char c))%nat) by (unfold e_len; cbn; by rewrite length_app).
      specialize (IH e1 ltac:(intros _; by rewrite Hl) eq_refl). rewrite Hl in IH. cbn [e_cap e_buf e1] in IH.
      rewrite <- Nat.add_assoc in IH. case_decide.
      * by rewrite IH, <- app_assoc.
      * destruct IH as (pre & Hp & Hc & ->). exists (jstr_char c ++ pre).
        rewrite length_app, <- app_assoc. split_and!; [by apply prefix_app|lia|done].
    + rewrite decide_False by lia. exists []. rewrite app_nil_r.
      split_and!; [apply prefix_nil|cbn; lia|by destruct s].
Qed.

(** Emitting text as a JSON string is all or nothing: if the quoted,
    escaped text and the NUL fit, exactly that is appended; otherwise the
    builder is latched not-ok, what was in the buffer before is intact, and at
    most a prefix of the text follows it. In both cases the buffer never
    overruns its capacity. *)
Theorem emit_jstr_all_or_nothing e s :
  emit_wf e -> e_ok e = true ->
  let e' := bp_emit_jstr e s in
  (e_len e' < e_cap e)%nat /\ e_cap e' = e_cap e /\
  if decide (e_len e + length (jstr_text s) < e_cap e)%nat
  then e' = Emit (e_buf e ++ jstr_text s) (e_cap e) true
  else e_ok e' = false /\ exists pre, pre `prefix_of` jstr_text s /\ e_buf e' = e_buf e ++ pre.
Proof.
  intros Hwf Hok e'. subst e'. unfold bp_emit_jstr, jstr_text. assert (Hlt := Hwf Hok).
  rewrite (emit_bytes_spec e) by done. cbn [length]. rewrite length_app. cbn [length].
  destruct (decide (e_len e + 1 < e_cap e)%nat) as [H1|H1].
  2: { assert (Ej : jstr_loop (Emit (e_buf e) (e_cap e) false) s = Emit (e_buf e) (e_cap e) false) by by destruct s.
       rewrite Ej. cbn. split_and!; [done|done|]. rewrite decide_False by lia. split; [done|].
       exists []. split; [apply prefix_nil|]. by rewrite app_nil_r. }
  set (e1 := Emit (e_buf e ++ [QUOTE]) (e_cap e) true).
  assert (Hl1 : e_len e1 = (e_len e + 1)%nat) by (unfold e_len; cbn; by rewrite length_app).
  assert (Hs := jstr_loop_spec s e1 ltac:(intros _; by rewrite Hl1) eq_refl).
  rewrite Hl1 in Hs. cbn [e_cap e_buf e1] in Hs. case_decide as Hd.
  - rewrite Hs. set (e2 := Emit _ _ true).
    assert (Hl2 : e_len e2 = (e_len e + 1 + length (jstr_body s))%nat)
      by (unfold e_len; cbn; rewrite !length_app; cbn; unfold e_len; lia).
    rewrite emit_bytes_spec by (done || (intros _; by rewrite Hl2)). rewrite Hl2.
    change (e_cap e2) with (e_cap e). cbn [length]. case_decide.
    + rewrite decide_True by lia. split_and!; [|done|cbn; by rewrite <- !app_assoc].
      unfold e_len in *. cbn [e_buf e_cap e2] in *. rewrite !length_app. cbn [length]. lia.
    + rewrite decide_False by lia. split_and!; [|done|done|].
      * unfold e_len in *. cbn [e_buf e_cap e2] in *. rewrite !length_app. cbn [length]. lia.
      * exists (QUOTE :: jstr_body s). split; [by exists [QUOTE]|cbn; by rewrite <- app_assoc].
  - destruct Hs as (pre & Hp & Hc & ->). cbn. unfold e_len. cbn. rewrite !length_app. cbn.
    unfold e_len in *. rewrite decide_False by lia. split_and!; [lia|done|done|].
    exists (QUOTE :: pre). split; [|by rewrite <- app_assoc].
    apply (prefix_app [QUOTE]). by apply prefix_app_r.
Qed.

Lemma emit_jstr_all_or_nothing_witness :
  let e := bp_emit_init 8 in
  (e_len (bp_emit_jstr e (str "ab")) < 8)%nat /\
  bp_emit_jstr e (str "ab") = Emit [QUOTE; 97; 98; QUOTE] 8 true.
Proof.
  destruct (emit_jstr_all_or_nothing (bp_emit_init 8) (str "ab")
    ltac:(intros _; vm_compute; lia) eq_refl) as (Hl & _ & He).
  split; [exact Hl|]. exact He.
Defined.

(** ** The parser loops always advance: fuel *)

Lemma skip_ws_length p : (length (skip_ws p) <= length p)%nat.
Proof. induction p as [|c p IH]; cbn; [lia|]. case_match; cbn; lia. Qed.

Lemma skip_str_length p : (length (skip_str p) <= length p)%nat.
Proof.
  induction p as [p IH] using (induction_ltof1 _ (@length Z)). unfold ltof in IH.
  destruct p as [|c p']; cbn; [lia|]. case_match; [cbn; lia|]. case_match.
  - destruct p' as [|c2 p'']; cbn; [lia|]. specialize (IH p'' ltac:(cbn; lia)). lia.
  - specialize (IH p' ltac:(cbn; lia)). lia.
Qed.

Lemma skip_nest_length p depth b1 b2 r : skip_nest p depth b1 b2 = Some r -> (length r <= length p)%nat.
Proof.
  revert depth b1 b2. induction p as [|c p IH]; intros depth b1 b2; cbn [skip_nest length]; [done|].
  repeat (case_match; try (intros E; apply IH in E; lia)).
  intros [= <-]. lia.
Qed.

Lemma skip_scalar_length p : (length (skip_scalar p) <= length p)%nat.
Proof. induction p as [|c p IH]; cbn; [lia|]. case_match; cbn; lia. Qed.

Lemma skip_value_length p r : skip_value p = Some r -> (length r <= length p)%nat.
Proof.
  unfold skip_value. destruct p as [|c p']; [by intros [= <-]|]. case_match.
  - pose proof (skip_str_length p') as Hl. destruct (skip_str p'); [done|].
    intros [= <-]. cbn in *. lia.
  - case_match; [by intros E%skip_nest_length|].
    intros E. apply (inj Some) in E as <-. apply skip_scalar_length.
Qed.

(** Any fuel above the length of the text gives the same answer: the member
    loop of [find_key_top] always ends by itself. *)
Lemma find_key_top_loop_fuel f1 f2 key p :
  (length p < f1)%nat -> (length p < f2)%nat ->
  find_key_top_loop f1 key p = find_key_top_loop f2 key p.
Proof.
  revert f2 p. induction f1 as [|f1 IH]; intros [|f2] p H1 H2; [lia..|]. cbn [find_key_top_loop].
  pose proof (skip_ws_length p) as Hw. destruct (skip_ws p) as [|c p1]; [done|]. cbn in Hw.
  case_match; [apply IH; lia|]. case_match; [done|]. case_match; [done|].
  pose proof (skip_str_length p1) as Hs. destruct (skip_str p1) as [|c2 p2]; [done|]. cbn [length] in Hs.
  case_match; [done|]. case_match; [done|].
  destruct (skip_value _) as [p5|] eqn:Ev; [|done]. apply skip_value_length in Ev.
  pose proof (skip_ws_length p2). pose proof (skip_ws_length (tail (skip_ws p2))).
  assert (length (tail (skip_ws p2)) <= length (skip_ws p2))%nat by (destruct (skip_ws p2); cbn; lia).
  apply IH; lia.
Qed.

(** ** Values as the emitter (or any JSON writer) produces them *)

(** What may stand between brackets: strings, nested brackets, anything else. *)
Inductive nested : cstr -> Prop :=
| N_nil : nested []
| N_str s r : cstr_ok s -> nested r -> nested (jstr_text s ++ r)
| N_plain c r : negb (bool_decide (c ∈ [QUOTE; LBRACE; RBRACE; LBRACK; RBRACK])) -> nested r -> nested (c :: r)
| N_sub o b c r : o ∈ [LBRACE; LBRACK] -> c ∈ [RBRACE; RBRACK] -> nested b -> nested r ->
    nested (o :: b ++ c :: r).

(** A member value: a string, a scalar, or a bracketed value. *)
Inductive jvalue : cstr -> Prop :=
| V_str s : cstr_ok s -> jvalue (jstr_text s)
| V_scalar c t : negb (is_ws c) -> negb (bool_decide (c ∈ [QUOTE; LBRACE; LBRACK; COMMA; RBRACE; RBRACK])) ->
    Forall (fun x => negb (bool_decide (x ∈ [COMMA; RBRACE; RBRACK]))) t -> jvalue (c :: t)
| V_nest o b c : o ∈ [LBRACE; LBRACK] -> c ∈ [RBRACE; RBRACK] -> nested b -> jvalue (o :: b ++ [c]).

(** An object: raw members, keys escaped by [jstr_body], no white space. *)
Fixpoint members (ms : list (cstr * cstr)) : cstr :=
  match ms with
  | [] => [RBRACE]
  | (k, v) :: ms' => COMMA :: QUOTE :: jstr_body k ++ QUOTE :: COLON :: v ++ members ms'
  end.
Definition object (ms : list (cstr * cstr)) : cstr :=
  LBRACE :: match ms with [] => [RBRACE] | _ => tail (members ms) end.

Definition member_ok (m : cstr * cstr) : Prop := cstr_ok (fst m) /\ jvalue (snd m).

(** Where the first outermost member of a key has its value. *)
Fixpoint member_at (ms : list (cstr * cstr)) (key : cstr) : option cstr :=
  match ms with
  | [] => None
  | (k, v) :: ms' => if decide (jstr_body k = key) then Some (v ++ members ms') else member_at ms' key
  end.

(** A character of a string value, as the parser walks over it. *)
Lemma jstr_char_cases c :
  0 < c < 256 ->
  (jstr_char c = [c] /\ c <> QUOTE /\ c <> BACKSLASH /\ 32 <= c) \/
  (exists x t, jstr_char c = BACKSLASH :: x :: t /\ x <> 0 /\
    Forall (fun y => y <> QUOTE /\ y <> BACKSLASH) t).
Proof.
  intros Hc. unfold jstr_char, hex_digit.
  repeat (case_match; [right; eexists _, _; split_and!; [done|lia|repeat constructor; lia]|]).
  case_match.
  - right. eexists _, _. split_and!; [done|lia|].
    assert (0 <= c / 16 < 2) by (split; [apply Z.div_pos|apply Z.div_lt_upper_bound]; lia).
    assert (0 <= c mod 16 < 16) by (apply Z.mod_pos_bound; lia).
    repeat constructor; repeat case_match; lia.
  - left. split_and!; lia || done.
Qed.

Lemma skip_str_plain t r :
  Forall (fun y => y <> QUOTE /\ y <> BACKSLASH) t -> skip_str (t ++ r) = skip_str r.
Proof.
  induction 1 as [|y t [H1 H2] Ht IH]; [done|]. cbn [app skip_str].
  destruct (Z.eqb_spec y QUOTE); [done|]. by destruct (Z.eqb_spec y BACKSLASH).
Qed.

Lemma skip_str_body s r : cstr_ok s -> skip_str (jstr_body s ++ QUOTE :: r) = QUOTE :: r.
Proof.
  unfold jstr_body. induction 1 as [|c s Hc Hs IH]; [done|]. cbn [map concat]. rewrite <- app_assoc.
  destruct (jstr_char_cases c Hc) as [(-> & H1 & H2 & _)|(x & t & -> & _ & Ht)].
  - rewrite (skip_str_plain [c]) by (by repeat constructor). done.
  - cbn [app skip_str]. change (BACKSLASH =? QUOTE) with false. change (BACKSLASH =? BACKSLASH) with true.
    cbv iota. by rewrite skip_str_plain.
Qed.

(** The in-string part of the bracket matcher. *)
Lemma skip_nest_plain t r depth :
  Forall (fun y => y <> QUOTE /\ y <> BACKSLASH) t ->
  skip_nest (t ++ r) depth true false = skip_nest r depth true false.
Proof.
  induction 1 as [|y t [H1 H2] Ht IH]; [done|]. cbn [app skip_nest].
  destruct (Z.eqb_spec y BACKSLASH); [done|]. by destruct (Z.eqb_spec y QUOTE).
Qed.

Lemma skip_nest_body s r depth :
  cstr_ok s -> skip_nest (jstr_body s ++ QUOTE :: r) depth true false = skip_nest r depth false false.
Proof.
  unfold jstr_body. induction 1 as [|c s Hc Hs IH]; [done|]. cbn [map concat]. rewrite <- app_assoc.
  destruct (jstr_char_cases c Hc) as [(-> & H1 & H2 & _)|(x & t & -> & _ & Ht)].
  - rewrite (skip_nest_plain [c]) by (by repeat constructor). done.
  - cbn [app skip_nest]. change (BACKSLASH =? BACKSLASH) with true. cbv iota. by rewrite skip_nest_plain.
Qed.

Lemma skip_nest_nested b r depth :
  nested b -> 1 <= depth -> skip_nest (b ++ r) depth false false = skip_nest r depth false false.
Proof.
  intros Hb. revert r depth.
  induction Hb as [|s b Hs Hb IH|c b Hc Hb IH|o b1 c b2 Ho Hc Hb1 IH1 Hb2 IH2]; intros r depth Hd; [done|..].
  - unfold jstr_text. rewrite <- app_assoc. cbn [app skip_nest]. change (QUOTE =? QUOTE) with true. cbv iota.
    rewrite <- app_assoc. cbn [app]. rewrite skip_nest_body by done. by apply IH.
  - cbn [app skip_nest]. 
    assert (Hn : c ∉ [QUOTE; LBRACE; RBRACE; LBRACK; RBRACK]) by (by case_bool_decide).
    repeat (match goal with |- context [c =? ?k] => destruct (Z.eqb_spec c k) as [->|_]; [set_solver|] end).
    cbn [orb]. by apply IH.
  - rewrite <- app_comm_cons, <- app_assoc. cbn [app].
    assert (E : skip_nest (o :: b1 ++ c :: b2 ++ r) depth false false =
                skip_nest (b1 ++ c :: b2 ++ r) (depth + 1) false false).
    { cbn [skip_nest]. by repeat (apply elem_of_cons in Ho as [->|Ho]); try (by apply elem_of_nil in Ho). }
    rewrite E, IH1 by lia.
    assert (E2 : skip_nest (c :: b2 ++ r) (depth + 1) false false = skip_nest (b2 ++ r) depth false false).
    { cbn [skip_nest]. replace (depth + 1 - 1) with depth by lia.
      destruct (Z.eqb_spec depth 0); [lia|].
      by repeat (apply elem_of_cons in Hc as [->|Hc]); try (by apply elem_of_nil in Hc). }
    rewrite E2. by apply IH2.
Qed.

Lemma skip_value_jvalue v r :
  jvalue v -> deref r = COMMA \/ deref r = RBRACE -> skip_value (v ++ r) = Some r.
Proof.
  intros Hv Hr. destruct Hv as [s Hs|c t Hw Hc Ht|o b c Ho Hc Hb].
  - unfold jstr_text. cbn [app skip_value]. change (QUOTE =? QUOTE) with true. cbv iota.
    rewrite <- app_assoc. cbn [app]. by rewrite skip_str_body.
  - cbn [app skip_value].
    assert (Hn : c ∉ [QUOTE; LBRACE; LBRACK; COMMA; RBRACE; RBRACK]) by (by case_bool_decide).
    destruct (Z.eqb_spec c QUOTE) as [->|]; [set_solver|].
    destruct (Z.eqb_spec c LBRACE) as [->|]; [set_solver|]. destruct (Z.eqb_spec c LBRACK) as [->|]; [set_solver|].
    cbn [orb]. f_equal. cbn [skip_scalar].
    destruct (Z.eqb_spec c COMMA) as [->|]; [set_solver|]. destruct (Z.eqb_spec c RBRACE) as [->|]; [set_solver|].
    destruct (Z.eqb_spec c RBRACK) as [->|]; [set_solver|]. cbn [orb].
    induction Ht as [|x t Hx Ht IH]; cbn [app].
    + destruct r as [|y r]; cbn in *; [lia|]. by destruct Hr as [->| ->].
    + cbn [skip_scalar]. assert (x ∉ [COMMA; RBRACE; RBRACK]) by (by case_bool_decide).
      destruct (Z.eqb_spec x COMMA) as [->|]; [set_solver|]. destruct (Z.eqb_spec x RBRACE) as [->|]; [set_solver|].
      destruct (Z.eqb_spec x RBRACK) as [->|]; [set_solver|]. done.
  - rewrite <- app_comm_cons, <- app_assoc. cbn [app].
    assert (E : skip_value (o :: b ++ c :: r) = skip_nest (b ++ c :: r) 1 false false).
    { by repeat (apply elem_of_cons in Ho as [->|Ho]); try (by apply elem_of_nil in Ho). }
    rewrite E, skip_nest_nested by (done || lia). cbn [skip_nest].
    by repeat (apply elem_of_cons in Hc as [->|Hc]); try (by apply elem_of_nil in Hc).
Qed.

Lemma skip_ws_jvalue v r : jvalue v -> skip_ws (v ++ r) = v ++ r.
Proof.
  intros [s Hs|c t Hw Hc Ht|o b c Ho Hc Hb]; cbn; [done| |].
  - by destruct (is_ws c).
  - by repeat (apply elem_of_cons in Ho as [->|Ho]); try (by apply elem_of_nil in Ho).
Qed.

Lemma members_head ms : deref (members ms) = COMMA \/ deref (members ms) = RBRACE.
Proof. destruct ms as [|[k v] ms]; cbn; auto. Qed.

(** ** Looking up an outermost key *)

(** Decide the comparisons of character literals in the goal. *)
Ltac ztests :=
  repeat match goal with
  | |- context [is_ws (Zpos ?a)] =>
      let v := eval vm_compute in (is_ws (Zpos a)) in change (is_ws (Zpos a)) with v
  | |- context [Zpos ?a =? Zpos ?b] =>
      let v := eval vm_compute in (Zpos a =? Zpos b) in change (Zpos a =? Zpos b) with v
  end; cbn [negb]; cbv iota.

Lemma key_match k key r :
  (length (jstr_body k) =? length key)%nat && has_prefix key (jstr_body k ++ r) =
  bool_decide (jstr_body k = key).
Proof.
  unfold has_prefix. destruct (Nat.eqb_spec (length (jstr_body k)) (length key)) as [E|E]; cbn [andb].
  - rewrite <- E. by rewrite take_app_length.
  - rewrite bool_decide_eq_false_2; [done|]. by intros <-.
Qed.

Lemma find_key_top_comma fuel key r :
  find_key_top_loop (S fuel) key (COMMA :: r) = find_key_top_loop fuel key r.
Proof. done. Qed.

(** One step of the member loop, at a member. *)
Lemma find_key_top_member fuel key k v r :
  cstr_ok k -> jvalue v -> deref r = COMMA \/ deref r = RBRACE ->
  find_key_top_loop (S fuel) key (QUOTE :: jstr_body k ++ QUOTE :: COLON :: v ++ r) =
    if decide (jstr_body k = key) then Some (v ++ r) else find_key_top_loop fuel key r.
Proof.
  intros Hk Hv Hr. cbn [find_key_top_loop skip_ws]. ztests. rewrite skip_str_body by done.
  cbn [skip_ws deref tail]. ztests. cbn [deref tail]. ztests.
  rewrite skip_ws_jvalue, !length_app by done. cbn [length].
  replace (length (jstr_body k) + S (S (length (v ++ r))) - S (S (length (v ++ r))))%nat
    with (length (jstr_body k)) by lia.
  rewrite key_match, skip_value_jvalue by done. by case_bool_decide; case_decide.
Qed.

Lemma find_key_top_loop_members fuel ms key :
  Forall member_ok ms -> (length (members ms) < fuel)%nat ->
  find_key_top_loop fuel key (members ms) = member_at ms key.
Proof.
  intros Hms. revert fuel. induction Hms as [|[k v] ms [Hk Hv] Hms IH]; intros fuel Hf.
  { destruct fuel; [cbn in Hf; lia|done]. }
  cbn [fst snd] in *. cbn [members member_at length] in *.
  destruct fuel as [|[|fuel]]; [lia..|].
  rewrite find_key_top_comma, find_key_top_member by (done || apply members_head).
  case_decide; [done|]. apply IH.
  rewrite !length_app in Hf. cbn [length] in Hf. rewrite length_app in Hf. lia.
Qed.

Lemma find_key_top_object ms key :
  Forall member_ok ms -> find_key_top (object ms) key = member_at ms key.
Proof.
  intros Hms. unfold find_key_top, object. cbn [skip_ws]. change (is_ws LBRACE) with false. cbv iota.
  change (LBRACE =? LBRACE) with true. cbv iota. destruct ms as [|[k v] ms]; [done|].
  cbn [members tail]. rewrite <- (find_key_top_comma _ key).
  apply (find_key_top_loop_members _ _ _ Hms). cbn [members length]. lia.
Qed.

(** What a round trip through the emitter keeps of a character: the control
    characters it writes as a \uXXXX escape come back as '?'. *)
Definition lossy (c : Z) : Z :=
  if (c <? 32) && negb ((c =? 10) || (c =? 13) || (c =? 9)) then 63 else c.

Lemma skip_hex_zero n1 n2 r :
  isxdigit n1 = true -> isxdigit n2 = true -> skip_hex 4 (48 :: 48 :: n1 :: n2 :: r) = r.
Proof. intros E1 E2. cbn [skip_hex]. change (isxdigit 48) with true. cbv iota. by rewrite E1, E2. Qed.

(** One character of a string value, read back. *)
Lemma get_str_char k c r :
  0 < c < 256 ->
  get_str (S k) (jstr_char c ++ r) = let '(o, p) := get_str k r in (lossy c :: o, p).
Proof.
  intros Hc. unfold jstr_char, lossy.
  destruct (Z.eqb_spec c QUOTE) as [->|H1]; [done|]. destruct (Z.eqb_spec c BACKSLASH) as [->|H2]; [done|].
  destruct (Z.eqb_spec c 10) as [->|H3]; [done|]. destruct (Z.eqb_spec c 13) as [->|H4]; [done|].
  destruct (Z.eqb_spec c 9) as [->|H5]; [done|]. cbn [orb negb]. rewrite andb_true_r.
  destruct (Z.ltb_spec c 32).
  - assert (H16 : 0 <= c / 16 < 2) by (split; [apply Z.div_pos|apply Z.div_lt_upper_bound]; lia).
    assert (Hm : 0 <= c mod 16 < 16) by (apply Z.mod_pos_bound; lia).
    cbn [app get_str]. change (BACKSLASH =? QUOTE) with false. change (BACKSLASH =? BACKSLASH) with true.
    cbn [deref]. change (117 =? 0) with false. cbn [andb negb]. cbv iota. cbn [unescape].
    change (117 =? 110) with false. change (117 =? 114) with false. change (117 =? 116) with false.
    change (117 =? 98) with false. change (117 =? 102) with false. change (117 =? 117) with true. cbv iota.
    rewrite skip_hex_zero; [done| |]; unfold isxdigit, hex_digit; case_match; lia.
  - cbn [app get_str]. destruct (Z.eqb_spec c QUOTE); [done|]. by destruct (Z.eqb_spec c BACKSLASH).
Qed.

(** Reading a string value back: whole when it fits, else a prefix, reported as
    cut short. *)
Lemma get_str_body k s r :
  cstr_ok s ->
  exists p, get_str k (jstr_body s ++ QUOTE :: r) = (take k (map lossy s), p) /\
    (negb (deref p =? 0) && negb (deref p =? QUOTE)) = (k <? length s)%nat.
Proof.
  intros Hs. revert k. induction Hs as [|c s Hc Hs IH]; intros k.
  { exists (QUOTE :: r). by destruct k. }
  unfold jstr_body in *. cbn [map concat]. rewrite <- app_assoc. destruct k as [|k].
  - eexists. split; [done|].
    destruct (jstr_char_cases c Hc) as [(-> & H1 & H2 & H3)|(x & t & -> & _ & _)]; cbn [app deref]; [|done].
    destruct (Z.eqb_spec c 0); [lia|]. by destruct (Z.eqb_spec c QUOTE).
  - rewrite get_str_char by done. destruct (IH k) as (p & -> & Hp). exists p. by rewrite Hp.
Qed.

(** The envelope lookup: in an object whose members are well-formed JSON
    (strings, scalars, objects and arrays nested to any depth, their contents
    free to mention the same key), [bp_json_get_top] returns the string value of
    the first outermost member with that key, whole if it fits the buffer and
    cut short and reported so if it does not; never anything nested. *)
Theorem get_top_outermost ms ms' key s n :
  Forall member_ok ms -> Forall (fun m => jstr_body (fst m) <> jstr_body key) ms ->
  Forall member_ok ms' -> cstr_ok key -> cstr_ok s -> (0 < n)%nat ->
  json_get_at2 (object (ms ++ (key, jstr_text s) :: ms')) (jstr_body key) n true =
    Got true (take (n - 1) (map lossy s)) (n - 1 <? length s)%nat.
Proof.
  intros Hms Hne Hms' Hk Hs Hn. unfold json_get_at2. destruct (Nat.eqb_spec n 0); [lia|].
  rewrite find_key_top_object.
  2: { apply Forall_app. split; [done|]. constructor; [|done]. split; [done|by constructor]. }
  assert (E : member_at (ms ++ (key, jstr_text s) :: ms') (jstr_body key) = Some (jstr_text s ++ members ms')).
  { clear Hms. induction Hne as [|[k v] ms Hk' Hne IH]; cbn [app member_at]; [by rewrite decide_True|].
    by rewrite decide_False. }
  rewrite E. unfold jstr_text. cbn [app deref tail]. change (QUOTE =? QUOTE) with true. cbv iota.
  rewrite <- app_assoc. cbn [app].
  destruct (get_str_body (n - 1) s (members ms') Hs) as (p & -> & ->). done.
Qed.

(** The frame of the source comment: a nested "type" before the outer one. *)
Lemma get_top_outermost_witness :
  let cmd := LBRACE :: (jstr_text (str "type") ++ COLON :: jstr_text (str "bmp280")) ++ [RBRACE] in
  found (json_get_at2 (object [(str "command", cmd); (str "type", jstr_text (str "command.request"))])
    (str "type") 32 true) = true /\
  json_get_at2 (object [(str "command", cmd); (str "type", jstr_text (str "command.request"))])
    (str "type") 32 true = Got true (str "command.request") false.
Proof.
  intros cmd.
  assert (E : json_get_at2 (object [(str "command", cmd); (str "type", jstr_text (str "command.request"))])
    (str "type") 32 true = Got true (str "command.request") false).
  { apply (get_top_outermost [(str "command", cmd)] [] (str "type") (str "command.request") 32).
    - constructor; [|constructor]. split; [repeat constructor|].
      apply (V_nest LBRACE _ RBRACE); [left|left|].
      apply N_str; [repeat constructor|].
      apply N_plain; [vm_compute; exact I|].
      rewrite <- (app_nil_r (jstr_text (str "bmp280"))).
      apply N_str; [repeat constructor|constructor].
    - constructor; [vm_compute; discriminate|constructor].
    - constructor.
    - repeat constructor.
    - repeat constructor.
    - lia. }
  split; [rewrite E; reflexivity|exact E].
Defined.

(** The flat getter on the same frame returns the nested value. *)
Example get_flat_shadowed :
  out (bp_json_get (object [(str "command",
    LBRACE :: (jstr_text (str "type") ++ COLON :: jstr_text (str "bmp280")) ++ [RBRACE]);
    (str "type", jstr_text (str "command.request"))]) (str "type") 32) = str "bmp280".
Proof. vm_compute. reflexivity. Qed.

(** ** The size of the output buffer

    A getter with a smaller buffer finds the same key and returns a prefix. *)

Lemma get_str_take k k' p : (k <= k')%nat -> fst (get_str k p) = take k (fst (get_str k' p)).
Proof.
  revert k' p. induction k as [|k IH]; intros k' p Hk; [done|]. destruct k' as [|k']; [lia|].
  cbn [get_str]. destruct p as [|c p1]; [done|]. destruct (c =? QUOTE); [done|].
  destruct (if _ && _ then unescape p1 else (c, p1)) as [c' p2]. specialize (IH k' p2 ltac:(lia)).
  destruct (get_str k p2), (get_str k' p2). cbn [fst take] in *. by rewrite IH.
Qed.

Lemma get_scalar_take k k' p : (k <= k')%nat -> fst (get_scalar k p) = take k (fst (get_scalar k' p)).
Proof.
  revert k' p. induction k as [|k IH]; intros k' p Hk; [done|]. destruct k' as [|k']; [lia|].
  cbn [get_scalar]. destruct p as [|c p1]; [done|]. destruct (scalar_end c); [done|].
  specialize (IH k' p1 ltac:(lia)). destruct (get_scalar k p1), (get_scalar k' p1). cbn [fst take] in *. by rewrite IH.
Qed.

Lemma json_get_prefix n n' json key top :
  (2 <= n <= n')%nat ->
  found (json_get_at2 json key n top) = found (json_get_at2 json key n' top) /\
  out (json_get_at2 json key n top) = take (n - 1) (out (json_get_at2 json key n' top)).
Proof.
  intros Hn. unfold json_get_at2. destruct (Nat.eqb_spec n 0), (Nat.eqb_spec n' 0); [lia..|].
  destruct (if top then _ else _) as [p|]; [|cbn; by rewrite take_nil]. destruct (deref p =? QUOTE).
  - pose proof (get_str_take (n - 1) (n' - 1) (tail p) ltac:(lia)) as E.
    destruct (get_str (n - 1) (tail p)), (get_str (n' - 1) (tail p)). by cbn in *.
  - pose proof (get_scalar_take (n - 1) (n' - 1) p ltac:(lia)) as E.
    destruct (get_scalar (n - 1) p) as [o q], (get_scalar (n' - 1) p) as [o' q']. cbn [fst found out] in *. split; [|done].
    subst o. rewrite length_take. destruct (Nat.ltb_spec 0 (length o')), (Nat.ltb_spec 0 (Nat.min (n - 1) (length o'))); lia || done.
Qed.

(** A value shorter than both buffers is read the same through either. *)
Lemma json_get_is n n' json key (s : cstr) :
  (2 <= n <= n')%nat -> (length s < n - 1)%nat ->
  streq (out (bp_json_get json key n)) s = streq (out (bp_json_get json key n')) s.
Proof.
  intros Hn Hs. unfold bp_json_get, streq. destruct (json_get_prefix n n' json key false Hn) as [_ ->].
  set (o := out _). apply bool_decide_ext. split.
  - intros E. rewrite <- E. symmetry. apply take_ge.
    apply (f_equal length) in E. rewrite length_take in E. lia.
  - intros ->. apply take_ge. lia.
Qed.
