(* ===== verification/CmdTable.v ===== *)
(** * The command table and the tier rules ([cmd_table.h], [cmd_tier.c])

    One row per JSON verb: its name, its tier and its flags. A handler is
    identified by the row that names it. The EMI test build's extra row
    ([emi_log]) is not in the table: [BENCHPOD_EMI_TEST] is off. *)

From S2P Require Import Prelude Json.

(** [cmd_tier_t], an enum of 0..3 compared as integers. *)
Abbreviation CMD_TIER_T0 := 0.
Abbreviation CMD_TIER_T1 := 1.
Abbreviation CMD_TIER_T2 := 2.
Abbreviation CMD_TIER_T3 := 3.

(** The flag bits of a row. *)
Abbreviation CMD_F_NO_HW := 1.
Abbreviation CMD_F_ANALOG := 2.
Abbreviation CMD_F_STREAM := 4.
Abbreviation CMD_F_HEAVY := 8.
Abbreviation CMD_F_NOISY := 16.
Abbreviation CMD_F_MIXED := 32.

Record cmd_desc_t := CmdDesc { d_name : cstr; d_tier : Z; d_flags : Z }.

Definition row (name : string) (tier : Z) (flags : list Z) : cmd_desc_t :=
  CmdDesc (str name) tier (fold_right Z.lor 0 flags).

Definition k_tiers : list cmd_desc_t :=
  Eval vm_compute in [
    row "ping" CMD_TIER_T0 [CMD_F_NO_HW; CMD_F_NOISY];
    row "status" CMD_TIER_T0 [CMD_F_NO_HW];
    row "cloud_status" CMD_TIER_T0 [CMD_F_NO_HW];
    row "wifi_status" CMD_TIER_T0 [CMD_F_NO_HW];
    row "wifi_scan" CMD_TIER_T0 [CMD_F_NO_HW];
    row "la_pins" CMD_TIER_T0 [];
    row "usb_cc" CMD_TIER_T0 [CMD_F_NO_HW];
    row "target_status" CMD_TIER_T0 [CMD_F_NO_HW; CMD_F_NOISY];
    row "power_status" CMD_TIER_T0 [CMD_F_NO_HW; CMD_F_NOISY];
    row "identity_public" CMD_TIER_T0 [CMD_F_NO_HW];
    row "identity_pop" CMD_TIER_T0 [CMD_F_NO_HW];
    row "identity_wipe" CMD_TIER_T0 [CMD_F_NO_HW];
    row "spi_status" CMD_TIER_T0 [];
    row "sensor_status" CMD_TIER_T0 [];
    row "sensor_types" CMD_TIER_T0 [];
    row "gps_status" CMD_TIER_T0 [];
    row "can_status" CMD_TIER_T0 [CMD_F_NO_HW];
    row "ota_status" CMD_TIER_T0 [];
    row "blob_status" CMD_TIER_T0 [];
    row "dac_loop_probe" CMD_TIER_T0 [CMD_F_ANALOG];
    row "capture" CMD_TIER_T0 [CMD_F_ANALOG; CMD_F_STREAM; CMD_F_HEAVY];
    row "capture_dual" CMD_TIER_T0 [CMD_F_STREAM; CMD_F_HEAVY];
    row "capture_read" CMD_TIER_T0 [CMD_F_STREAM; CMD_F_HEAVY];
    row "stream" CMD_TIER_T0 [CMD_F_ANALOG; CMD_F_STREAM; CMD_F_HEAVY];
    row "la_capture" CMD_TIER_T0 [CMD_F_STREAM; CMD_F_HEAVY];
    row "sensor_regs" CMD_TIER_T0 [CMD_F_STREAM; CMD_F_HEAVY];
    row "sensor_la" CMD_TIER_T0 [CMD_F_STREAM; CMD_F_HEAVY];
    row "can_read" CMD_TIER_T0 [CMD_F_NO_HW; CMD_F_HEAVY];
    row "psram_ping" CMD_TIER_T0 [CMD_F_HEAVY];
    row "test" CMD_TIER_T0 [CMD_F_STREAM; CMD_F_HEAVY];
    row "dac_limits" CMD_TIER_T0 [CMD_F_NO_HW; CMD_F_ANALOG; CMD_F_MIXED];
    row "calibrate" CMD_TIER_T0 [CMD_F_ANALOG; CMD_F_MIXED];
    row "eth" CMD_TIER_T0 [CMD_F_NO_HW; CMD_F_MIXED];
    row "sig_policy" CMD_TIER_T0 [CMD_F_MIXED];
    row "lan_policy" CMD_TIER_T0 [CMD_F_MIXED];
    row "usb_network" CMD_TIER_T0 [CMD_F_MIXED];
    row "module" CMD_TIER_T0 [CMD_F_NO_HW; CMD_F_MIXED];
    row "cloud_ca" CMD_TIER_T0 [CMD_F_MIXED];
    row "cloud_proxy" CMD_TIER_T0 [CMD_F_MIXED];
    row "lan_tls" CMD_TIER_T0 [CMD_F_MIXED];
    row "generate" CMD_TIER_T1 [CMD_F_ANALOG];
    row "measure" CMD_TIER_T1 [CMD_F_ANALOG; CMD_F_STREAM];
    row "load" CMD_TIER_T1 [CMD_F_ANALOG; CMD_F_STREAM];
    row "load_bin" CMD_TIER_T1 [CMD_F_ANALOG; CMD_F_STREAM];
    row "replay" CMD_TIER_T1 [CMD_F_ANALOG; CMD_F_STREAM];
    row "dac_stop" CMD_TIER_T1 [];
    row "dac_set" CMD_TIER_T1 [CMD_F_ANALOG];
    row "dac_mux" CMD_TIER_T1 [CMD_F_ANALOG];
    row "cal_switch" CMD_TIER_T1 [CMD_F_ANALOG];
    row "analog_path" CMD_TIER_T1 [CMD_F_ANALOG];
    row "dac_out" CMD_TIER_T1 [CMD_F_ANALOG];
    row "current_out" CMD_TIER_T1 [CMD_F_ANALOG];
    row "adc_read" CMD_TIER_T1 [CMD_F_ANALOG];
    row "adc_range" CMD_TIER_T1 [CMD_F_ANALOG];
    row "dac_control_loop" CMD_TIER_T1 [CMD_F_ANALOG];
    row "dac_loop_input" CMD_TIER_T1 [CMD_F_ANALOG];
    row "la" CMD_TIER_T1 [];
    row "gpio" CMD_TIER_T1 [];
    row "la_voltage" CMD_TIER_T1 [CMD_F_NO_HW];
    row "nrst" CMD_TIER_T1 [CMD_F_NO_HW];
    row "target_power" CMD_TIER_T1 [CMD_F_NO_HW];
    row "module_power" CMD_TIER_T1 [];
    row "power_profile" CMD_TIER_T1 [CMD_F_NO_HW];
    row "dap_start" CMD_TIER_T1 [CMD_F_STREAM];
    row "uart_proxy_start" CMD_TIER_T1 [CMD_F_STREAM];
    row "spi_start" CMD_TIER_T1 [];
    row "spi_stop" CMD_TIER_T1 [];
    row "spi_xfer" CMD_TIER_T1 [];
    row "spi_stream" CMD_TIER_T1 [];
    row "spi_flash" CMD_TIER_T1 [];
    row "sensor_start" CMD_TIER_T1 [];
    row "sensor_set" CMD_TIER_T1 [];
    row "sensor_stop" CMD_TIER_T1 [];
    row "gps_start" CMD_TIER_T1 [];
    row "gps_set" CMD_TIER_T1 [];
    row "gps_stop" CMD_TIER_T1 [];
    row "can_config" CMD_TIER_T1 [CMD_F_NO_HW];
    row "can_write" CMD_TIER_T1 [CMD_F_NO_HW];
    row "can_term" CMD_TIER_T1 [CMD_F_NO_HW];
    row "can_respond" CMD_TIER_T1 [CMD_F_NO_HW];
    row "can_disable" CMD_TIER_T1 [CMD_F_NO_HW];
    row "speedtest" CMD_TIER_T1 [CMD_F_NO_HW; CMD_F_STREAM];
    row "fpga_image" CMD_TIER_T1 [];
    row "psram_recover" CMD_TIER_T1 [];
    row "cloud_set" CMD_TIER_T2 [CMD_F_NO_HW];
    row "cloud_clear" CMD_TIER_T2 [CMD_F_NO_HW];
    row "wifi_set" CMD_TIER_T2 [CMD_F_NO_HW];
    row "wifi_clear" CMD_TIER_T2 [CMD_F_NO_HW];
    row "ota_begin" CMD_TIER_T3 [];
    row "ota_data" CMD_TIER_T3 [];
    row "ota_end" CMD_TIER_T3 [];
    row "ota_commit" CMD_TIER_T3 [];
    row "ota_abort" CMD_TIER_T3 [];
    row "ota_selftest" CMD_TIER_T3 []
  ].

(** [strcmp] along the table: the first row with that name. *)
Definition cmd_find (cmd : cstr) : option cmd_desc_t :=
  List.find (fun d => streq cmd (d_name d)) k_tiers.

Definition cmd_has (d : option cmd_desc_t) (flag : Z) : bool :=
  match d with Some d => negb (Z.land (d_flags d) flag =? 0) | None => false end.

(** A value of the JSON line, through the 16-byte buffer of the tier rules. *)
Definition val16 (json : cstr) (key : string) : got := bp_json_get json (str key) 16.

(** [bp_json_get(json, key, v, sizeof(v)) && strcmp(v, s) == 0]. *)
Definition val_is (json : cstr) (key s : string) : bool :=
  let g := val16 json key in found g && streq (out g) (str s).
Definition val_is_not (json : cstr) (key s : string) : bool :=
  let g := val16 json key in found g && negb (streq (out g) (str s)).
Definition has_val (json : cstr) (key : string) : bool := found (val16 json key).

(** The write forms of the mixed verbs; [None] is a NULL line. *)
Definition mixed_write (cmd : cstr) (json : option cstr) : bool :=
  match json with
  | None => false
  | Some json =>
      if streq cmd (str "dac_limits") then has_val json "path" || val_is json "enabled" "false"
      else if streq cmd (str "calibrate") then
        has_val json "source" || has_val json "dac" || has_val json "adc" ||
        has_val json "comp_hf_dc_e4" || val_is_not json "clear" "false"
      else if streq cmd (str "sig_policy") || streq cmd (str "lan_policy") || streq cmd (str "usb_network")
      then has_val json "set"
      else if streq cmd (str "cloud_ca") || streq cmd (str "cloud_proxy")
      then has_val json "set" || val_is json "clear" "true"
      else if streq cmd (str "lan_tls") then has_val json "https_only" || val_is json "regenerate" "true"
      else if streq cmd (str "module") then val_is_not json "eeprom" "read"
      else if streq cmd (str "eth") then
        let v := out (val16 json "action") in negb (streq v (str "stats")) && negb (streq v (str "refclk"))
      else false
  end.

Definition cmd_tier_of (d : option cmd_desc_t) (json : option cstr) : Z :=
  match d with
  | None => CMD_TIER_T3
  | Some r => if cmd_has d CMD_F_MIXED && mixed_write (d_name r) json then CMD_TIER_T2 else d_tier r
  end.

Definition cmd_tier (cmd : cstr) (json : option cstr) : Z := cmd_tier_of (cmd_find cmd) json.

Definition cmd_tier_known (cmd : cstr) : bool :=
  match cmd_find cmd with Some _ => true | None => false end.

Definition cmd_tier_light (cmd : cstr) (json : option cstr) : bool :=
  match cmd_find cmd with
  | Some r => negb (cmd_has (Some r) CMD_F_HEAVY) && (cmd_tier_of (Some r) json =? CMD_TIER_T0)
  | None => false
  end.

Definition cmd_tier_name (t : Z) : cstr :=
  if (0 <=? t) && (t <? 4) then nth (Z.to_nat t) [str "T0"; str "T1"; str "T2"; str "T3"] [] else str "T?".
