(* ===== verification/CmdGate.v ===== *)
(** * The gates in front of a command
    ([cmd_gate.c], [lease_gate.c], [dispatch_line] of [command_handler.c])

    The checks [dispatch_line] runs before a handler sees a command, as
    functions of the command and a snapshot of the pod, and the lease the cloud
    holds on the pod. *)

From S2P Require Import Prelude Json CmdTable.

(** ** Where commands come from ([pod_policy.h], [command_handler_policy.c]) *)

Inductive policy_src_t := POLICY_SRC_USB | POLICY_SRC_CLOUD | POLICY_SRC_LAN.
#[export] Instance policy_src_eq : EqDecision policy_src_t.
Proof. solve_decision. Defined.

Definition src_is (a b : policy_src_t) : bool := bool_decide (a = b).

(** [pod_lan_policy_t]. *)
Abbreviation POD_LAN_OPEN := 0.
Abbreviation POD_LAN_LOCKED := 1.
Abbreviation POD_LAN_OFF := 2.

Abbreviation CH_CLOUD_CONN := 6.
Abbreviation CH_CLOUD_TUNNEL_CONN := 7.
Abbreviation CH_CLOUD_TUNNEL_CONN_LAST := 9.

Definition is_tunnel_conn (conn_id : Z) : bool :=
  (CH_CLOUD_TUNNEL_CONN <=? conn_id) && (conn_id <=? CH_CLOUD_TUNNEL_CONN_LAST).

Definition command_handler_policy_src (conn_id : Z) : policy_src_t :=
  if (conn_id =? CH_CLOUD_CONN) || is_tunnel_conn conn_id then POLICY_SRC_CLOUD else POLICY_SRC_LAN.

(** ** The lease a cloud consumer holds *)

Abbreviation LEASE_GATE_HOLDER_MAX := 41%nat.
Abbreviation LEASE_GATE_MAX_S := 600.

Record lease_t := Lease { s_held : bool; s_deadline_ms : Z; s_holder : cstr }.

Definition lease_init : lease_t := Lease false 0 [].

Definition lease_gate_clear (l : lease_t) : lease_t := Lease false (s_deadline_ms l) [].

(** Printable ASCII, neither a quote nor a backslash; '?' for the rest. *)
Definition holder_char (c : Z) : Z :=
  if (32 <=? c) && (c <? 127) && negb (c =? QUOTE) && negb (c =? BACKSLASH) then c else 63.

Definition lease_gate_update (l : lease_t) (held : bool) (holder : option cstr) (expires_in_s now_ms : Z) : lease_t :=
  if negb held || (expires_in_s =? 0) then lease_gate_clear l
  else
    let expires_in_s := if LEASE_GATE_MAX_S <? expires_in_s then LEASE_GATE_MAX_S else expires_in_s in
    Lease true (u32 (now_ms + expires_in_s * 1000))
      (map holder_char (take (LEASE_GATE_HOLDER_MAX - 1) (default [] holder))).

Definition lease_gate_expire (l : lease_t) (now_ms : Z) : lease_t :=
  if s_held l && (s32 (s_deadline_ms l - now_ms) <=? 0) then lease_gate_clear l else l.

(** Active or not, and [*left_s]. *)
Definition lease_gate_active (l : lease_t) (now_ms : Z) : bool * Z :=
  if negb (s_held l) then (false, 0)
  else
    let left_ms := s32 (s_deadline_ms l - now_ms) in
    if left_ms <=? 0 then (false, 0) else (true, u32 (u32 left_ms + 999) / 1000).

Definition lease_gate_holder (l : lease_t) : cstr := s_holder l.

(** ** The gates *)

Record cmd_gate_ctx_t := GateCtx {
  g_src : policy_src_t;
  g_lan_policy : Z;
  g_usb_link : bool;
  g_lease_active : bool;
  g_lease_left_s : Z;
  g_lease_holder : option cstr;
  g_tunnel_max_tier : Z;
  g_skip_hw : bool;
  g_has_analog : bool;
}.

Definition cmd_gate_ok_without_hw (cmd : cstr) : bool := cmd_has (cmd_find cmd) CMD_F_NO_HW.
Definition cmd_gate_needs_analog (cmd : cstr) : bool := cmd_has (cmd_find cmd) CMD_F_ANALOG.

(** The part up to the first ';' and what follows it, if there is one. *)
Fixpoint split_semi (p : cstr) : cstr * option cstr :=
  match p with
  | [] => ([], None)
  | c :: p' =>
      if c =? 59 then ([], Some p')
      else let '(a, r) := split_semi p' in (c :: a, r)
  end.

(** The scan; every turn consumes a part and its ';'. *)
Fixpoint scpi_writes_loop (fuel : nat) (p : cstr) : bool :=
  match fuel with
  | O => false
  | S fuel' =>
      let '(part, rest) := split_semi p in
      if negb (bool_decide (63 ∈ part)) then true
      else match rest with None => false | Some p' => scpi_writes_loop fuel' p' end
  end.
Definition cmd_gate_scpi_line_writes (line : cstr) : bool := scpi_writes_loop (S (length line)) line.

Definition MSG_SAFE_MODE : cstr := str "safe mode: iCE40/PSRAM are off. Unplug and replug the pod".
Definition MSG_DIGITAL : cstr :=
  str "this BenchPod has no analog front end (digital board): no DAC, ADC or analog outputs. " ++
  str "Restart the pod after fitting an analog add-on".

(** An ADC part in a [capture_dual]. *)
Definition adc_capture (cmd : cstr) (json : option cstr) : bool :=
  streq cmd (str "capture_dual") &&
  match json with
  | None => false
  | Some json => has_val json "adc_samples" && (0 <? atoi (out (val16 json "adc_samples")))
  end.

(** [None]: may run; [Some]: the refusal. *)
Definition cmd_gate_device (cmd : cstr) (json : option cstr) (skip_hw has_analog : bool) : option cstr :=
  if skip_hw && negb (cmd_gate_ok_without_hw cmd) then Some MSG_SAFE_MODE
  else if negb has_analog then
    if adc_capture cmd json || cmd_gate_needs_analog cmd then Some MSG_DIGITAL else None
  else None.

Definition cmd_gate_check (cmd : cstr) (json : option cstr) (tier : Z) (ctx : cmd_gate_ctx_t)
    (why_cap : nat) : option cstr :=
  if (CMD_TIER_T2 <=? tier) && src_is (g_src ctx) POLICY_SRC_LAN && negb (g_usb_link ctx) &&
     negb (g_lan_policy ctx =? POD_LAN_OPEN)
  then Some (snprintf_cut why_cap (str "locked: " ++ cmd ++ str " needs the cloud or USB"))
  else if src_is (g_src ctx) POLICY_SRC_LAN && g_lease_active ctx && negb (cmd_tier_light cmd json)
  then
    let holder := match g_lease_holder ctx with
                  | Some h => if negb (deref h =? 0) then h else str "cloud"
                  | None => str "cloud"
                  end in
    Some (snprintf_cut why_cap (str "busy: a cloud job holds this pod (" ++ holder ++ str ", " ++
                                dec (g_lease_left_s ctx) ++ str " s left)"))
  else if (0 <=? g_tunnel_max_tier ctx) && (g_tunnel_max_tier ctx <? tier)
  then Some (snprintf_cut why_cap (str "forbidden: " ++ cmd ++ str " needs an organization owner or admin"))
  else cmd_gate_device cmd json (g_skip_hw ctx) (g_has_analog ctx).

(** ** Dispatch

    The state the gates read. [p_usb_link] is [net_conn_on_usb] of the network
    stack; [p_dac_check] is [dac_limits_check_command] (the stored output
    limits, whose arithmetic is in doubles), a function of the command line. *)

Record pod_t := Pod {
  p_lan_policy : Z;
  p_lease : lease_t;
  p_now_ms : Z;
  p_tunnel_max_tier : list Z;
  p_skip_hw : bool;
  p_has_analog : bool;
  p_usb_link : Z -> bool;
  p_dac_check : cstr -> cstr -> option cstr;
}.

(** [command_handler_set_tunnel_max_tier] on the array of tunnel tiers. *)
Definition command_handler_set_tunnel_max_tier (tiers : list Z) (conn_id max_tier : Z) : list Z :=
  if negb (is_tunnel_conn conn_id) then tiers
  else
    let max_tier := if (max_tier <? 0) || (3 <? max_tier) then 3 else max_tier in
    <[Z.to_nat (conn_id - CH_CLOUD_TUNNEL_CONN) := u8 max_tier]> tiers.

Definition tunnel_tiers_init : list Z := [3; 3; 3].

Definition command_handler_device_gate (pod : pod_t) (verb : cstr) (json : option cstr) : option cstr :=
  cmd_gate_device verb json (p_skip_hw pod) (p_has_analog pod).

(** What a line does: an error reply, or the handler of a row with the line. *)
Inductive outcome := SendError (why : cstr) | Handler (d : cmd_desc_t) (json : cstr).

Definition gate_ctx (pod : pod_t) (conn_id : Z) : cmd_gate_ctx_t :=
  let src := command_handler_policy_src conn_id in
  let '(active, left_s) :=
    if src_is src POLICY_SRC_LAN then lease_gate_active (p_lease pod) (p_now_ms pod) else (false, 0) in
  GateCtx src (p_lan_policy pod) (p_usb_link pod conn_id) active left_s
    (if src_is src POLICY_SRC_LAN then Some (lease_gate_holder (p_lease pod)) else None)
    (if is_tunnel_conn conn_id
     then nth (Z.to_nat (conn_id - CH_CLOUD_TUNNEL_CONN)) (p_tunnel_max_tier pod) 0 else -1)
    (p_skip_hw pod) (p_has_analog pod).

Definition dispatch_line (pod : pod_t) (conn_id : Z) (buf : cstr) : outcome :=
  let g := bp_json_get buf (str "cmd") 32 in
  if negb (found g) then SendError (str "missing cmd")
  else
    let cmd := out g in
    let d := cmd_find cmd in
    let tier := cmd_tier_of d (Some buf) in
    match cmd_gate_check cmd (Some buf) tier (gate_ctx pod conn_id) 112 with
    | Some why => SendError why
    | None =>
        match p_dac_check pod cmd buf with
        | Some why => SendError why
        | None => match d with Some r => Handler r buf | None => SendError (str "unknown cmd") end
        end
    end.

(** The cloud command channel: one reply per command, so no streaming verb. *)
Definition command_handler_dispatch_cloud (pod : pod_t) (command_json : cstr) : outcome :=
  let g := bp_json_get command_json (str "cmd") 32 in
  if negb (found g) then SendError (str "missing cmd")
  else if cmd_has (cmd_find (out g)) CMD_F_STREAM
  then SendError (str "command not supported over cloud channel")
  else dispatch_line pod CH_CLOUD_CONN command_json.

(** A SCPI line while a lease is held. *)
Definition scpi_line_blocked_by_lease (pod : pod_t) (conn_id : Z) (line : cstr) : bool :=
  if negb (src_is (command_handler_policy_src conn_id) POLICY_SRC_LAN) ||
     negb (fst (lease_gate_active (p_lease pod) (p_now_ms pod))) then false
  else cmd_gate_scpi_line_writes line.

(** ** The heavy-operation gate

    [heavy_owner] is -1 or the connection that holds the shared buffers;
    [in_flight] is [heavy_in_flight()]. *)

Definition heavy_try_claim (heavy_owner conn_id : Z) : bool * Z :=
  if negb (heavy_owner =? -1) && negb (heavy_owner =? conn_id) then (false, heavy_owner) else (true, conn_id).

Definition heavy_release (heavy_owner conn_id : Z) : Z := if heavy_owner =? conn_id then -1 else heavy_owner.

Definition heavy_begin (in_flight : bool) (heavy_owner conn_id : Z) : bool * Z :=
  if in_flight then (false, heavy_owner) else heavy_try_claim heavy_owner conn_id.
