(* ===== verification/GateTheorems.v ===== *)
(** * What the command gates guarantee

    A complete characterisation of when a handler runs, what that means for a
    locked LAN and for a LAN under a cloud lease, the SCPI read test, and the
    lease against an unbounded clock. *)

From S2P Require Import Prelude Json CmdTable CmdGate.

(** ** The table *)

Lemma cmd_find_row cmd d : cmd_find cmd = Some d -> d ∈ k_tiers /\ d_name d = cmd.
Proof.
  unfold cmd_find. intros [H1 H2]%List.find_some. split; [by apply list_elem_of_In|].
  by apply bool_decide_eq_true in H2.
Qed.

Lemma mixed_tier_T0 d : d ∈ k_tiers -> cmd_has (Some d) CMD_F_MIXED = true -> d_tier d = CMD_TIER_T0.
Proof.
  intros Hd Hm.
  assert (H : forallb (fun d => implb (cmd_has (Some d) CMD_F_MIXED) (d_tier d =? CMD_TIER_T0)) k_tiers = true)
    by (vm_compute; reflexivity).
  rewrite forallb_forall in H. specialize (H d). rewrite <- list_elem_of_In, Hm in H. cbn in H.
  specialize (H Hd). lia.
Qed.

(** A row's tier on a line is its own tier, or T2 for the write form of a mixed
    verb. *)
Lemma tier_of_row d json :
  d ∈ k_tiers ->
  d_tier d <= cmd_tier_of (Some d) json /\
  (cmd_tier_of (Some d) json < CMD_TIER_T2 ->
   cmd_has (Some d) CMD_F_MIXED = true -> mixed_write (d_name d) json = false).
Proof.
  intros Hd. cbn [cmd_tier_of]. pose proof (mixed_tier_T0 d Hd) as Hm.
  destruct (cmd_has (Some d) CMD_F_MIXED); cbn [andb]; [|split; [lia|done]].
  destruct (mixed_write (d_name d) json); rewrite (Hm eq_refl); (split; [lia|]); intros; [lia|done].
Qed.

(** ** When a handler runs *)

(** The five gates and the output limits, as one condition. *)
Definition may_run (pod : pod_t) (conn_id : Z) (d : cmd_desc_t) (buf : cstr) : Prop :=
  let tier := cmd_tier_of (Some d) (Some buf) in
  let lan := command_handler_policy_src conn_id = POLICY_SRC_LAN in
  (lan -> p_usb_link pod conn_id = false -> p_lan_policy pod <> POD_LAN_OPEN -> tier <= CMD_TIER_T1) /\
  (lan -> fst (lease_gate_active (p_lease pod) (p_now_ms pod)) = true ->
     tier = CMD_TIER_T0 /\ cmd_has (Some d) CMD_F_HEAVY = false) /\
  (is_tunnel_conn conn_id = true ->
     let mx := nth (Z.to_nat (conn_id - CH_CLOUD_TUNNEL_CONN)) (p_tunnel_max_tier pod) 0 in
     0 <= mx -> tier <= mx) /\
  (p_skip_hw pod = true -> cmd_has (Some d) CMD_F_NO_HW = true) /\
  (p_has_analog pod = false ->
     cmd_has (Some d) CMD_F_ANALOG = false /\ adc_capture (d_name d) (Some buf) = false) /\
  p_dac_check pod (d_name d) buf = None.

Lemma light_row cmd d json :
  cmd_find cmd = Some d ->
  cmd_tier_light cmd json = true <->
  cmd_tier_of (Some d) json = CMD_TIER_T0 /\ cmd_has (Some d) CMD_F_HEAVY = false.
Proof.
  intros E. unfold cmd_tier_light. rewrite E.
  destruct (cmd_has (Some d) CMD_F_HEAVY); cbn [negb andb]; [split; [done|intros [_ ?]; done]|].
  rewrite Z.eqb_eq. naive_solver.
Qed.

Lemma gate_device_none d buf pod :
  cmd_find (d_name d) = Some d ->
  cmd_gate_device (d_name d) (Some buf) (p_skip_hw pod) (p_has_analog pod) = None <->
  (p_skip_hw pod = true -> cmd_has (Some d) CMD_F_NO_HW = true) /\
  (p_has_analog pod = false ->
     cmd_has (Some d) CMD_F_ANALOG = false /\ adc_capture (d_name d) (Some buf) = false).
Proof.
  intros E. unfold cmd_gate_device, cmd_gate_ok_without_hw, cmd_gate_needs_analog. rewrite E.
  destruct (p_skip_hw pod), (cmd_has (Some d) CMD_F_NO_HW), (p_has_analog pod), (adc_capture (d_name d) (Some buf)),
    (cmd_has (Some d) CMD_F_ANALOG); cbn [negb andb orb]; naive_solver.
Qed.

Lemma src_is_true a b : src_is a b = true <-> a = b.
Proof. apply bool_decide_eq_true. Qed.

Lemma src_lan_dec conn_id :
  {command_handler_policy_src conn_id = POLICY_SRC_LAN} +
  {src_is (command_handler_policy_src conn_id) POLICY_SRC_LAN = false /\
   command_handler_policy_src conn_id <> POLICY_SRC_LAN}.
Proof.
  destruct (decide (command_handler_policy_src conn_id = POLICY_SRC_LAN)); [by left|right].
  split; [by apply bool_decide_eq_false|done].
Qed.

Lemma tunnel_not_lan conn_id :
  command_handler_policy_src conn_id = POLICY_SRC_LAN -> is_tunnel_conn conn_id = false.
Proof.
  unfold command_handler_policy_src. destruct (is_tunnel_conn conn_id); [|done].
  by rewrite orb_true_r.
Qed.

(** The gate is a chain: it lets a command through when no check refuses. *)
Lemma gate_check_chain cmd json tier ctx cap :
  cmd_gate_check cmd json tier ctx cap = None <->
  (CMD_TIER_T2 <=? tier) && src_is (g_src ctx) POLICY_SRC_LAN && negb (g_usb_link ctx) &&
    negb (g_lan_policy ctx =? POD_LAN_OPEN) = false /\
  src_is (g_src ctx) POLICY_SRC_LAN && g_lease_active ctx && negb (cmd_tier_light cmd json) = false /\
  (0 <=? g_tunnel_max_tier ctx) && (g_tunnel_max_tier ctx <? tier) = false /\
  cmd_gate_device cmd json (g_skip_hw ctx) (g_has_analog ctx) = None.
Proof.
  unfold cmd_gate_check.
  destruct (_ && negb (g_lan_policy ctx =? POD_LAN_OPEN)); [split; [done|intros [? _]; done]|].
  destruct (_ && negb (cmd_tier_light cmd json)); [split; [done|intros (_ & ? & _); done]|].
  destruct (_ && (g_tunnel_max_tier ctx <? tier)); [split; [done|intros (_ & _ & ? & _); done]|].
  tauto.
Qed.

(** What each check of the chain means for the pod. *)
Lemma gate_ctx_fields pod conn_id :
  g_src (gate_ctx pod conn_id) = command_handler_policy_src conn_id /\
  g_lan_policy (gate_ctx pod conn_id) = p_lan_policy pod /\
  g_usb_link (gate_ctx pod conn_id) = p_usb_link pod conn_id /\
  g_skip_hw (gate_ctx pod conn_id) = p_skip_hw pod /\
  g_has_analog (gate_ctx pod conn_id) = p_has_analog pod /\
  (command_handler_policy_src conn_id = POLICY_SRC_LAN ->
   g_lease_active (gate_ctx pod conn_id) = fst (lease_gate_active (p_lease pod) (p_now_ms pod))) /\
  g_tunnel_max_tier (gate_ctx pod conn_id) =
    if is_tunnel_conn conn_id
    then nth (Z.to_nat (conn_id - CH_CLOUD_TUNNEL_CONN)) (p_tunnel_max_tier pod) 0 else -1.
Proof.
  unfold gate_ctx. destruct (if src_is _ _ then _ else _) as [act left_s] eqn:E.
  split_and!; try done. intros Hl. cbn. rewrite (proj2 (src_is_true _ _) Hl) in E. by rewrite E.
Qed.

Lemma check_tier_false src usb pol tier :
  (CMD_TIER_T2 <=? tier) && src_is src POLICY_SRC_LAN && negb usb && negb (pol =? POD_LAN_OPEN) = false <->
  (src = POLICY_SRC_LAN -> usb = false -> pol <> POD_LAN_OPEN -> tier <= CMD_TIER_T1).
Proof.
  unfold src_is. destruct (Z.leb_spec CMD_TIER_T2 tier), usb, (Z.eqb_spec pol POD_LAN_OPEN); case_bool_decide;
    cbn [andb negb]; split; intros H'; try done; try (intros; lia || congruence).
  exfalso. assert (tier <= 1) by auto. lia.
Qed.

Lemma check_lease_false src act cmd d json :
  cmd_find cmd = Some d ->
  src_is src POLICY_SRC_LAN && act && negb (cmd_tier_light cmd json) = false <->
  (src = POLICY_SRC_LAN -> act = true ->
   cmd_tier_of (Some d) json = CMD_TIER_T0 /\ cmd_has (Some d) CMD_F_HEAVY = false).
Proof.
  intros E. rewrite <- (light_row _ _ json E). unfold src_is.
  destruct act, (cmd_tier_light cmd json); case_bool_decide; cbn [andb negb]; naive_solver.
Qed.

Lemma check_tunnel_false (tunnel : bool) mx tier :
  (0 <=? (if tunnel then mx else -1)) && ((if tunnel then mx else -1) <? tier) = false <->
  (tunnel = true -> 0 <= mx -> tier <= mx).
Proof.
  destruct tunnel; [|by split]. rewrite andb_false_iff, Z.leb_gt, Z.ltb_ge.
  split; [intros [?|?]; intros; lia|]. intros H. destruct (decide (0 <= mx)); [right; auto|left; lia].
Qed.

Lemma gate_check_none pod conn_id d buf :
  cmd_find (d_name d) = Some d ->
  cmd_gate_check (d_name d) (Some buf) (cmd_tier_of (Some d) (Some buf)) (gate_ctx pod conn_id) 112 = None /\
    p_dac_check pod (d_name d) buf = None <-> may_run pod conn_id d buf.
Proof.
  intros E. unfold may_run. cbv zeta. destruct (gate_ctx_fields pod conn_id) as (E1 & E2 & E3 & E4 & E5 & E6 & E7).
  rewrite gate_check_chain, (check_lease_false _ _ _ _ _ E), check_tier_false, E1, E2, E3, E4, E5, E7,
    check_tunnel_false, (gate_device_none _ _ _ E).
  destruct (decide (command_handler_policy_src conn_id = POLICY_SRC_LAN)) as [Hl|Hl]; [rewrite (E6 Hl)|]; tauto.
Qed.

Lemma dispatch_iff pod conn_id buf d json :
  dispatch_line pod conn_id buf = Handler d json <->
  json = buf /\ found (bp_json_get buf (str "cmd") 32) = true /\
  cmd_find (out (bp_json_get buf (str "cmd") 32)) = Some d /\ may_run pod conn_id d buf.
Proof.
  unfold dispatch_line. set (g := bp_json_get _ _ _).
  destruct (found g); cbn [negb]; [|split; [done|intros (_ & ? & _); done]].
  destruct (cmd_find (out g)) as [r|] eqn:E.
  - pose proof (cmd_find_row _ _ E) as [_ En]. rewrite <- En in *.
    pose proof (gate_check_none pod conn_id r buf E) as H. split.
    + destruct (cmd_gate_check _ _ _ _ _); [done|]. destruct (p_dac_check _ _ _); [done|].
      intros [= <- <-]. by rewrite <- H.
    + intros (-> & _ & Ed & Hm). apply (inj Some) in Ed as ->. by apply H in Hm as [-> ->].
  - split; [|intros (_ & _ & ? & _); done].
    destruct (cmd_gate_check _ _ _ _ _); [done|]. by destruct (p_dac_check _ _ _).
Qed.

(** C3: A handler runs exactly when the line names a verb of the table and every
    gate lets that verb through: the LAN policy, the cloud lease, the tunnel's
    tier, safe mode, the board variant and the stored output limits. Every other
    line is answered with an error. *)
Theorem dispatch_handler_iff pod conn_id buf d json :
  dispatch_line pod conn_id buf = Handler d json <->
  json = buf /\ found (bp_json_get buf (str "cmd") 32) = true /\
  cmd_find (out (bp_json_get buf (str "cmd") 32)) = Some d /\ may_run pod conn_id d buf.
Proof.
  apply dispatch_iff.
Qed.

(** What a locked LAN must not reach: persisted configuration, firmware. *)
Definition protected_verbs : list string :=
  ["cloud_set"; "cloud_clear"; "wifi_set"; "wifi_clear"; "ota_begin"; "ota_data"; "ota_end"; "ota_commit";
   "ota_abort"; "ota_selftest"]%string.

Lemma tier_low_not_protected d : d ∈ k_tiers -> d_tier d <= CMD_TIER_T1 -> d_name d ∉ map str protected_verbs.
Proof.
  intros Hd Ht Hin.
  assert (H : forallb (fun d => bool_decide (d_name d ∉ map str protected_verbs) || (2 <=? d_tier d)) k_tiers = true)
    by (vm_compute; reflexivity).
  rewrite forallb_forall in H. specialize (H d). rewrite <- list_elem_of_In in H. specialize (H Hd).
  apply orb_true_iff in H as [H%bool_decide_eq_true|H]; [done|lia].
Qed.

(** C4: With the LAN policy locked or off, a line from Ethernet or Wi-Fi never
    reaches a handler above tier T1: no firmware or persisted-configuration verb,
    and no write form of a verb that also reads. *)
Theorem locked_lan_safe pod conn_id buf d json :
  command_handler_policy_src conn_id = POLICY_SRC_LAN -> p_usb_link pod conn_id = false ->
  p_lan_policy pod <> POD_LAN_OPEN -> dispatch_line pod conn_id buf = Handler d json ->
  d_tier d <= CMD_TIER_T1 /\ (d_name d ∉ map str protected_verbs) /\
  (cmd_has (Some d) CMD_F_MIXED = true -> mixed_write (d_name d) (Some buf) = false).
Proof.
  intros Hl Hu Hp (-> & _ & E & Hm & _)%dispatch_iff. specialize (Hm Hl Hu Hp).
  apply cmd_find_row in E as [Hd _]. destruct (tier_of_row d (Some buf) Hd) as [H1 H2].
  split_and!; [lia|apply tier_low_not_protected; [done|lia]|apply H2; lia].
Qed.

(** A pod on its bench: everything on, no limits, an idle lease. *)
Definition pod_idle (lan_policy : Z) (l : lease_t) : pod_t :=
  Pod lan_policy l 1000 tunnel_tiers_init false true (fun _ => false) (fun _ _ => None).

Lemma locked_lan_safe_witness :
  let d := row "dac_limits" CMD_TIER_T0 [CMD_F_NO_HW; CMD_F_ANALOG; CMD_F_MIXED] in
  let j := LBRACE :: QUOTE :: str "cmd" ++ [QUOTE; COLON; QUOTE] ++ str "dac_limits" ++ [QUOTE; RBRACE] in
  dispatch_line (pod_idle POD_LAN_LOCKED lease_init) 0 j = Handler d j /\
  (d_tier d <= CMD_TIER_T1 /\ (d_name d ∉ map str protected_verbs) /\
   (cmd_has (Some d) CMD_F_MIXED = true -> mixed_write (d_name d) (Some j) = false)).
Proof.
  intros d j. assert (E : dispatch_line (pod_idle POD_LAN_LOCKED lease_init) 0 j = Handler d j)
    by (vm_compute; reflexivity).
  split; [exact E|]. apply (locked_lan_safe (pod_idle POD_LAN_LOCKED lease_init) 0 j d j);
    [reflexivity|reflexivity|vm_compute; discriminate|exact E].
Defined.

(** *** The SCPI read test *)

(** Parts joined by ';'. *)
Fixpoint join_semi (part : cstr) (parts : list cstr) : cstr :=
  match parts with [] => part | q :: parts' => part ++ 59 :: join_semi q parts' end.

Lemma split_semi_part part r :
  59 ∉ part -> split_semi (part ++ 59 :: r) = (part, Some r).
Proof.
  induction part as [|c part IH]; intros Hp; [done|]. cbn [app split_semi].
  destruct (Z.eqb_spec c 59) as [->|]; [set_solver|]. rewrite IH by set_solver. done.
Qed.

Lemma split_semi_last part : 59 ∉ part -> split_semi part = (part, None).
Proof.
  induction part as [|c part IH]; intros Hp; [done|]. cbn [split_semi].
  destruct (Z.eqb_spec c 59) as [->|]; [set_solver|]. rewrite IH by set_solver. done.
Qed.

Lemma scpi_writes_join fuel part parts :
  (length (join_semi part parts) < fuel)%nat -> 59 ∉ part -> Forall (fun q => 59 ∉ q) parts ->
  scpi_writes_loop fuel (join_semi part parts) = true <-> Exists (fun q => 63 ∉ q) (part :: parts).
Proof.
  revert part fuel. induction parts as [|q parts IH]; intros part [|fuel] Hf Hp Hps; [lia| |lia|]; cbn [join_semi scpi_writes_loop].
  - rewrite split_semi_last by done. case_bool_decide; cbn [negb].
    + split; [done|]. by intros [?|?%Exists_nil]%Exists_cons.
    + split; [by left|done].
  - rewrite split_semi_part by done. case_bool_decide; cbn [negb].
    + apply Forall_cons in Hps as [Hq Hps]. rewrite IH; [|cbn [join_semi] in Hf; rewrite length_app in Hf; cbn in Hf; lia|done..].
      rewrite (Exists_cons _ part). naive_solver.
    + split; [by left|done].
Qed.

Lemma scpi_line_writes_spec part parts :
  59 ∉ part -> Forall (fun q => 59 ∉ q) parts ->
  cmd_gate_scpi_line_writes (join_semi part parts) = true <-> Exists (fun q => 63 ∉ q) (part :: parts).
Proof. intros. apply scpi_writes_join; [lia|done..]. Qed.

(** While a cloud consumer holds the pod, the LAN may look and not touch: a
    line from a LAN connection (the USB link included) reaches only read handlers
    that leave the capture hardware alone, and a SCPI line is refused exactly when
    one of its ';'-separated parts holds no '?'. *)
Theorem leased_lan_reads_only pod conn_id buf :
  command_handler_policy_src conn_id = POLICY_SRC_LAN ->
  fst (lease_gate_active (p_lease pod) (p_now_ms pod)) = true ->
  (forall d json, dispatch_line pod conn_id buf = Handler d json ->
     d_tier d = CMD_TIER_T0 /\ cmd_has (Some d) CMD_F_HEAVY = false /\
     (cmd_has (Some d) CMD_F_MIXED = true -> mixed_write (d_name d) (Some buf) = false)) /\
  (forall part parts, 59 ∉ part -> Forall (fun q => 59 ∉ q) parts ->
     scpi_line_blocked_by_lease pod conn_id (join_semi part parts) = true <->
     Exists (fun q => 63 ∉ q) (part :: parts)).
Proof.
  intros Hl Ha. split.
  - intros d json (-> & _ & E & _ & Hm & _)%dispatch_iff. destruct (Hm Hl Ha) as [Ht Hh].
    apply cmd_find_row in E as [Hd _]. destruct (tier_of_row d (Some buf) Hd) as [H1 H2].
    assert (0 <= d_tier d).
    { assert (H : forallb (fun d => 0 <=? d_tier d) k_tiers = true) by (vm_compute; reflexivity).
      rewrite forallb_forall in H. specialize (H d). rewrite <- list_elem_of_In in H. specialize (H Hd). lia. }
    split_and!; [lia|done|apply H2; lia].
  - intros part parts Hp Hps. unfold scpi_line_blocked_by_lease. rewrite (proj2 (src_is_true _ _) Hl), Ha.
    by apply scpi_line_writes_spec.
Qed.

Lemma leased_lan_reads_only_witness :
  let pod := pod_idle POD_LAN_OPEN (lease_gate_update lease_init true (Some (str "ci")) 60 500) in
  let j := LBRACE :: QUOTE :: str "cmd" ++ [QUOTE; COLON; QUOTE] ++ str "ping" ++ [QUOTE; RBRACE] in
  dispatch_line pod 0 j = Handler (row "ping" CMD_TIER_T0 [CMD_F_NO_HW; CMD_F_NOISY]) j /\
  (scpi_line_blocked_by_lease pod 0 (join_semi (str "*IDN?") [str ":OUTP ON"]) = true <->
   Exists (fun q => 63 ∉ q) [str "*IDN?"; str ":OUTP ON"]).
Proof.
  intros pod j. split; [vm_compute; reflexivity|].
  refine (proj2 (leased_lan_reads_only pod 0 j _ _) (str "*IDN?") [str ":OUTP ON"] _ _);
    [reflexivity|vm_compute; reflexivity| |]; refine (bool_decide_unpack _ _); vm_compute; exact I.
Defined.

(** A cloud tunnel never runs a verb above the tier the server set for its
    user, whatever [max_tier] it was given, and the single-reply cloud channel
    never runs a verb that streams. *)
Theorem cloud_tiers pod conn_id tiers max_tier buf d json :
  p_tunnel_max_tier pod = command_handler_set_tunnel_max_tier tiers conn_id max_tier -> length tiers = 3%nat ->
  (is_tunnel_conn conn_id = true -> 0 <= max_tier <= 3 -> dispatch_line pod conn_id buf = Handler d json ->
     cmd_tier_of (Some d) (Some buf) <= max_tier) /\
  (command_handler_dispatch_cloud pod buf = Handler d json -> cmd_has (Some d) CMD_F_STREAM = false).
Proof.
  intros Hp Hlen. split.
  - intros Ht Hmx (-> & _ & E & _ & _ & Hm & _)%dispatch_iff. specialize (Hm Ht).
    rewrite Hp in Hm. unfold command_handler_set_tunnel_max_tier in Hm. rewrite Ht in Hm. cbn [negb] in Hm.
    destruct (Z.ltb_spec max_tier 0), (Z.ltb_spec 3 max_tier); [lia..|]. cbn [orb] in Hm.
    rewrite u8_id in Hm by lia. unfold is_tunnel_conn in Ht.
    rewrite (nth_lookup_Some _ _ _ max_tier) in Hm; [apply Hm; lia|].
    apply list_lookup_insert_eq. lia.
  - unfold command_handler_dispatch_cloud. destruct (found _) eqn:Ef; cbn [negb]; [|done].
    destruct (cmd_has (cmd_find _) CMD_F_STREAM) eqn:Es; [done|].
    intros (-> & _ & E & _)%dispatch_iff. by rewrite E in Es.
Qed.

Lemma cloud_tiers_witness :
  let pod := Pod POD_LAN_LOCKED lease_init 0 (command_handler_set_tunnel_max_tier tunnel_tiers_init 8 1)
               false true (fun _ => false) (fun _ _ => None) in
  let j := LBRACE :: QUOTE :: str "cmd" ++ [QUOTE; COLON; QUOTE] ++ str "dac_stop" ++ [QUOTE; RBRACE] in
  dispatch_line pod 8 j = Handler (row "dac_stop" CMD_TIER_T1 []) j /\
  cmd_tier_of (Some (row "dac_stop" CMD_TIER_T1 [])) (Some j) <= 1.
Proof.
  intros pod j. assert (E : dispatch_line pod 8 j = Handler (row "dac_stop" CMD_TIER_T1 []) j)
    by (vm_compute; reflexivity).
  split; [exact E|].
  apply (cloud_tiers pod 8 tunnel_tiers_init 1 j _ j); [reflexivity|reflexivity|reflexivity|lia|exact E].
Defined.

(** ** The lease against an unbounded clock

    The pod's clock is the low 32 bits of a time that never wraps. The lease is
    specified by its deadline on that time; polls do not appear in it. *)

Inductive lease_event :=
| LeaseState (held : bool) (holder : option cstr) (expires_in_s : Z)   (* a lease.state frame *)
| LinkDropped
| Poll.

Definition lease_step (l : lease_t) (ev : Z * lease_event) : lease_t :=
  match snd ev with
  | LeaseState held holder e => lease_gate_update l held holder e (u32 (fst ev))
  | LinkDropped => lease_gate_clear l
  | Poll => lease_gate_expire l (u32 (fst ev))
  end.
Definition lease_run (evs : list (Z * lease_event)) : lease_t := fold_left lease_step evs lease_init.

(** The specification: the deadline of the last frame that announced a lease. *)
Definition lease_spec_step (d : option Z) (ev : Z * lease_event) : option Z :=
  match snd ev with
  | LeaseState true _ e => if e =? 0 then None else Some (fst ev + 1000 * Z.min e LEASE_GATE_MAX_S)
  | LeaseState false _ _ | LinkDropped => None
  | Poll => d
  end.
Definition lease_spec (evs : list (Z * lease_event)) : option Z := fold_left lease_spec_step evs None.

(** The net task comes round within 2^30 ms (12 days); times do not go back. *)
Fixpoint paced (t : Z) (evs : list (Z * lease_event)) : Prop :=
  match evs with
  | [] => True
  | (t', ev) :: evs' =>
      t <= t' <= t + 1073741824 /\ match ev with LeaseState _ _ e => 0 <= e | _ => True end /\ paced t' evs'
  end.
Definition last_time (t : Z) (evs : list (Z * lease_event)) : Z := default t (fst <$> last evs).

(** The lease agrees with the specification at time [t]: held with the wrapped
    deadline, or forgotten once the deadline has passed. *)
Definition lease_agrees (l : lease_t) (d : option Z) (t : Z) : Prop :=
  match d with
  | Some d =>
      d <= t + 600000 /\
      (s_held l = true /\ s_deadline_ms l = u32 d /\ t - 1073741824 <= d \/ s_held l = false /\ d <= t)
  | None => s_held l = false
  end.

Lemma s32_small z : -2147483648 <= z < 2147483648 -> s32 z = z.
Proof. intros. unfold s32. branch; wrap_lia. Qed.

Lemma s32_deadline d t : -2147483648 <= d - t < 2147483648 -> s32 (u32 d - u32 t) = d - t.
Proof.
  intros H. rewrite <- (s32_small (d - t) H). unfold s32. f_equal.
  replace (u32 (u32 d - u32 t)) with (u32 (d - t)); [done|]. unfold u32. by rewrite <- Zminus_mod.
Qed.

Lemma lease_step_agrees l d t t' ev :
  lease_agrees l d t -> t <= t' <= t + 1073741824 ->
  match ev with LeaseState _ _ e => 0 <= e | _ => True end ->
  lease_agrees (lease_step l (t', ev)) (lease_spec_step d (t', ev)) t'.
Proof.
  intros Ha Ht He. destruct ev as [held holder e| |]; cbn [lease_step lease_spec_step fst snd].
  - unfold lease_gate_update. destruct held; cbn [negb orb]; [|done].
    destruct (Z.eqb_spec e 0); [done|]. cbn [lease_agrees s_held s_deadline_ms]. split; [lia|]. left.
    split_and!; [done| |lia].
    replace (if LEASE_GATE_MAX_S <? e then LEASE_GATE_MAX_S else e) with (Z.min e LEASE_GATE_MAX_S)
      by (destruct (Z.ltb_spec LEASE_GATE_MAX_S e); lia).
    unfold u32. rewrite Zplus_mod_idemp_l. f_equal. lia.
  - done.
  - unfold lease_gate_expire. destruct d as [d|]; [|by cbn in *; rewrite Ha].
    destruct Ha as [H1 [(H2 & H3 & H4)|[H2 H3]]].
    + rewrite H2, H3, s32_deadline by lia. cbn [andb]. destruct (Z.leb_spec (d - t') 0).
      * split; [lia|right]. split; [done|lia].
      * split; [lia|left]. split_and!; [done..|lia].
    + rewrite H2. split; [lia|right]. split; [done|lia].
Qed.

Lemma lease_run_agrees evs l d t :
  lease_agrees l d t -> paced t evs ->
  lease_agrees (fold_left lease_step evs l) (fold_left lease_spec_step evs d) (last_time t evs).
Proof.
  revert l d t. induction evs as [|[t' ev] evs IH]; intros l d t Ha Hp; [done|].
  destruct Hp as (Ht & He & Hp). cbn [fold_left].
  replace (last_time t ((t', ev) :: evs)) with (last_time t' evs).
  2:{ unfold last_time. rewrite last_cons. by destruct (last evs). }
  apply IH; [|done]. by apply lease_step_agrees with t.
Qed.

(** The lease is what the server last announced, at most 600 s of it, and
    ends by itself: however often the frames came, and although the millisecond
    clock wraps every 49 days, the gate reports a lease exactly until the
    announced deadline, with the seconds left rounded up. *)
Theorem lease_refines_deadline evs t :
  paced 0 evs -> last_time 0 evs <= t <= last_time 0 evs + 1073741824 ->
  lease_gate_active (lease_run evs) (u32 t) =
    match lease_spec evs with
    | Some d => if t <? d then (true, (d - t + 999) / 1000) else (false, 0)
    | None => (false, 0)
    end.
Proof.
  intros Hp Ht. pose proof (lease_run_agrees evs lease_init None 0 eq_refl Hp) as Ha.
  fold (lease_run evs) in Ha. fold (lease_spec evs) in Ha. unfold lease_gate_active.
  destruct (lease_spec evs) as [d|]; [|by cbn in Ha; rewrite Ha].
  destruct Ha as [H1 [(H2 & H3 & H4)|[H2 H3]]].
  - rewrite H2, H3, s32_deadline by lia. cbn [negb].
    destruct (Z.leb_spec (d - t) 0), (Z.ltb_spec t d); try lia; [done|].
    rewrite (u32_id (d - t)) by lia. by rewrite u32_id by lia.
  - rewrite H2. cbn [negb]. destruct (Z.ltb_spec t d); [lia|done].
Qed.

Lemma lease_refines_deadline_witness :
  let evs0 := [(1073741824, Poll); (2147483648, Poll); (3221225472, Poll); (4294967000, LeaseState true (Some (str "ci")) 3600)] in
  lease_gate_active (lease_run evs0) (u32 4295000000) = (true, 567).
Proof.
  intros evs0.
  rewrite (lease_refines_deadline evs0 4295000000); [reflexivity|cbn; lia|cbn; lia].
Defined.
