(* ===== verification/FwSign.v ===== *)
(** * Signed manifests and the image information block
    ([fw_sign.c], [fw_info.c])

    Monocypher's SHA-512 and Ed25519 check are parameters (the class
    [Monocypher]), and so is the key table the build generates. *)

From S2P Require Import Prelude.

Inductive fw_sig_result_t :=
| FW_SIG_NONE | FW_SIG_OK | FW_SIG_FORMAT | FW_SIG_UNKNOWN_KEY | FW_SIG_SIGNATURE | FW_SIG_TARGET | FW_SIG_IMAGE.
#[export] Instance fw_sig_result_eq : EqDecision fw_sig_result_t.
Proof. solve_decision. Defined.

(** [fw_sig_policy_t]: 0 audit, 1 permissive, 2 required. *)
Abbreviation FW_SIG_POLICY_AUDIT := 0.
Abbreviation FW_SIG_POLICY_PERMISSIVE := 1.
Abbreviation FW_SIG_POLICY_REQUIRED := 2.

Abbreviation FW_SIGN_MANIFEST_LEN := 128%nat.
Abbreviation FW_SIGN_KEY_ID_LEN := 8%nat.
Abbreviation SIGNED_LEN := 64%nat.

(** [crypto_sha512] (64 bytes) and [crypto_ed25519_check == 0] on signature,
    public key and message. *)
Class Monocypher := {
  crypto_sha512 : list Z -> list Z;
  crypto_ed25519_check : list Z -> list Z -> list Z -> bool;
}.

Record fw_sig_manifest_t := Manifest {
  m_target : Z; m_flags : Z; m_size : Z; m_sha256 : list Z; m_version : Z; m_release : Z;
  m_layout : Z; m_min_flash_kb : Z; m_key_id : list Z;
}.

(** The context string with its NUL separator. *)
Definition FW_SIGN_CONTEXT : list Z := str "benchpod-fw-sign:v1" ++ [0].
Definition BPSG : list Z := str "BPSG".

Section fw_sign.
Context `{Monocypher}.

Definition rd16 (p : list Z) : Z := rd_le (take 2 p).
Definition rd32 (p : list Z) : Z := rd_le (take 4 p).

Definition key_id_of (pub : list Z) : list Z := take FW_SIGN_KEY_ID_LEN (crypto_sha512 pub).

Definition byte_at (p : list Z) (i : nat) : Z := nth i p 0.

(** The magic, the format number and the target of a manifest are right. *)
Definition manifest_format (sig : list Z) : bool :=
  (length sig =? FW_SIGN_MANIFEST_LEN)%nat && bool_decide (take 4 sig = BPSG) &&
  (rd16 (drop 4 sig) =? 1) && ((byte_at sig 6 <=? 3) || (byte_at sig 6 =? 6)).

Definition parse_manifest (sig : list Z) : fw_sig_manifest_t :=
  Manifest (byte_at sig 6) (byte_at sig 7) (rd32 (drop 8 sig)) (sub 12 32 sig) (rd32 (drop 44 sig))
    (rd32 (drop 48 sig)) (rd16 (drop 52 sig)) (rd16 (drop 54 sig)) (sub 56 FW_SIGN_KEY_ID_LEN sig).

(** The first key with that id. *)
Definition find_pub (keys : list (list Z)) (id : list Z) : option (list Z) :=
  List.find (fun k => bool_decide (key_id_of k = id)) keys.

Definition signed_msg (sig : list Z) : list Z := FW_SIGN_CONTEXT ++ take SIGNED_LEN sig.

(** The result and the parsed fields; [None] is a NULL [sig]. *)
Definition fw_sign_check_keys (sig : option (list Z)) (target size : Z) (sha256 : list Z)
    (keys : list (list Z)) : fw_sig_result_t * option fw_sig_manifest_t :=
  match sig with
  | None | Some [] => (FW_SIG_NONE, None)
  | Some sig =>
      if negb (manifest_format sig) then (FW_SIG_FORMAT, None)
      else
        let m := parse_manifest sig in
        match find_pub keys (m_key_id m) with
        | None => (FW_SIG_UNKNOWN_KEY, Some m)
        | Some pub =>
            if negb (crypto_ed25519_check (drop SIGNED_LEN sig) pub (signed_msg sig)) then (FW_SIG_SIGNATURE, Some m)
            else if negb (m_target m =? target) then (FW_SIG_TARGET, Some m)
            else if negb (m_size m =? size) || negb (bool_decide (m_sha256 m = sha256)) then (FW_SIG_IMAGE, Some m)
            else (FW_SIG_OK, Some m)
        end
  end.

(** The check against the keys of this build. *)
Definition fw_sign_check (k_keys : list (list Z)) (sig : option (list Z)) (target size : Z) (sha256 : list Z) :=
  fw_sign_check_keys sig target size sha256 k_keys.

End fw_sign.

Definition fw_sign_accept (r : fw_sig_result_t) (policy : Z) : bool :=
  if policy =? FW_SIG_POLICY_AUDIT then true
  else if policy =? FW_SIG_POLICY_PERMISSIVE then bool_decide (r = FW_SIG_OK) || bool_decide (r = FW_SIG_NONE)
  else if policy =? FW_SIG_POLICY_REQUIRED then bool_decide (r = FW_SIG_OK)
  else false.

Definition fw_sign_result_name (r : fw_sig_result_t) : cstr :=
  match r with
  | FW_SIG_NONE => str "none" | FW_SIG_OK => str "ok" | FW_SIG_FORMAT => str "format"
  | FW_SIG_UNKNOWN_KEY => str "unknown-key" | FW_SIG_SIGNATURE => str "signature"
  | FW_SIG_TARGET => str "target" | FW_SIG_IMAGE => str "image"
  end.

Definition fw_sign_policy_name (p : Z) : cstr :=
  if p =? FW_SIG_POLICY_AUDIT then str "audit"
  else if p =? FW_SIG_POLICY_PERMISSIVE then str "permissive"
  else if p =? FW_SIG_POLICY_REQUIRED then str "required"
  else str "?".

(** ** The block at [FW_INFO_OFFSET] of an image *)

Abbreviation FW_INFO_OFFSET := 0x400.
Abbreviation FW_INFO_MAGIC := 0x57465042.
Abbreviation FW_INFO_LAYOUT := 2.
Abbreviation FW_INFO_FLAG_ENFORCES_SIG := 1.
Abbreviation FW_INFO_SIZE := 16%nat.

Record fw_info_t := FwInfo { fi_magic : Z; fi_layout : Z; fi_min_flash_kb : Z; fi_flags : Z; fi_reserved1 : Z }.

Definition fw_info_of_bytes (p : list Z) : fw_info_t :=
  FwInfo (rd_le (sub 0 4 p)) (rd_le (sub 4 2 p)) (rd_le (sub 6 2 p)) (rd_le (sub 8 4 p)) (rd_le (sub 12 4 p)).

(** [at_offset] is the [n] bytes at the block's place; [None] is NULL. *)
Definition fw_info_required_kb (at_offset : option (list Z)) : Z :=
  match at_offset with
  | None => 2048
  | Some p =>
      if (length p <? FW_INFO_SIZE)%nat then 2048
      else
        let info := fw_info_of_bytes p in
        if negb (fi_magic info =? FW_INFO_MAGIC) || (fi_min_flash_kb info =? 0) then 2048
        else fi_min_flash_kb info
  end.

Definition fw_info_flags (at_offset : option (list Z)) : Z :=
  match at_offset with
  | None => 0
  | Some p =>
      if (length p <? FW_INFO_SIZE)%nat then 0
      else
        let info := fw_info_of_bytes p in
        if fi_magic info =? FW_INFO_MAGIC then fi_flags info else 0
  end.

(** ** What an accepted signature means *)

Section fw_sign_laws.
Context `{Monocypher}.

(** A manifest of these fields, as [tools/fwsign.py] lays it out: the first 64
    bytes (those that are signed) and then the signature. *)
Definition manifest_head (m : fw_sig_manifest_t) : list Z :=
  BPSG ++ le 2 1 ++ [m_target m; m_flags m] ++ le 4 (m_size m) ++ m_sha256 m ++ le 4 (m_version m) ++
  le 4 (m_release m) ++ le 2 (m_layout m) ++ le 2 (m_min_flash_kb m) ++ m_key_id m.

Definition manifest_wf (m : fw_sig_manifest_t) : Prop :=
  (0 <= m_target m <= 3 \/ m_target m = 6) /\ byte_ok (m_flags m) /\ 0 <= m_size m < 4294967296 /\
  length (m_sha256 m) = 32%nat /\ 0 <= m_version m < 4294967296 /\ 0 <= m_release m < 4294967296 /\
  0 <= m_layout m < 65536 /\ 0 <= m_min_flash_kb m < 65536 /\ length (m_key_id m) = 8%nat.

Lemma manifest_head_length m : manifest_wf m -> length (manifest_head m) = 64%nat.
Proof.
  intros (_ & _ & _ & H1 & _ & _ & _ & _ & H2). unfold manifest_head.
  rewrite !length_app, !le_length, H1, H2. reflexivity.
Qed.

(** Reading the fields back. *)
Lemma manifest_parse m tail :
  manifest_wf m -> length tail = 64%nat ->
  manifest_format (manifest_head m ++ tail) = true /\ parse_manifest (manifest_head m ++ tail) = m.
Proof.
  intros Hwf Ht. pose proof (manifest_head_length m Hwf) as Hlen.
  destruct Hwf as (Htg & Hfl & Hsz & Hsha & Hver & Hrel & Hlay & Hmin & Hkey).
  destruct m as [tg fl sz sha ver rel lay mn key]. cbn [m_target m_flags m_size m_sha256 m_version m_release
    m_layout m_min_flash_kb m_key_id] in *. unfold byte_ok in Hfl.
  split.
  - unfold manifest_format. rewrite length_app, Hlen, Ht. unfold manifest_head.
    cbn [BPSG str app take le m_target m_flags m_size m_sha256 m_version m_release m_layout m_min_flash_kb m_key_id].
    rewrite bool_decide_eq_true_2 by done. unfold rd16, byte_at. cbn [drop take rd_le nth].
    destruct Htg as [Htg| ->]; [|done]. destruct (Z.leb_spec tg 3); [done|lia].
  - assert (Hskip : forall n r, drop (32 + n) (sha ++ r) = drop n r).
    { intros n r. by rewrite <- Hsha, drop_app_add. }
    unfold parse_manifest, manifest_head, rd32, rd16, byte_at, sub.
    cbn [m_target m_flags m_size m_sha256 m_version m_release m_layout m_min_flash_kb m_key_id BPSG str].
    rewrite <- !app_assoc. cbn [app le nth drop]. f_equal.
    + apply (rd_le_le 4 sz). done.
    + by rewrite drop_0, take_app_length'.
    + rewrite (Hskip 0%nat). cbn [drop take]. apply (rd_le_le 4 ver). done.
    + rewrite (Hskip 4%nat). cbn [drop take]. apply (rd_le_le 4 rel). done.
    + rewrite (Hskip 8%nat). cbn [drop take]. apply (rd_le_le 2 lay). done.
    + rewrite (Hskip 10%nat). cbn [drop take]. apply (rd_le_le 2 mn). done.
    + rewrite (Hskip 12%nat). cbn [drop]. by rewrite ?drop_0, take_app_length'.
Qed.

(** Consecutive fields of a byte string. *)
Lemma sub_join {A} a n k (l : list A) : sub a n l ++ sub (a + n) k l = sub a (n + k) l.
Proof.
  unfold sub. rewrite <- drop_drop. apply take_take_drop.
Qed.

Lemma sub_le a n l : bytes_ok l -> (a + n <= length l)%nat -> le n (rd_le (sub a n l)) = sub a n l.
Proof.
  intros Hb Hl. rewrite <- (sub_length a n l Hl) at 1. apply le_rd_le.
  by apply Forall_take, Forall_drop.
Qed.

Lemma manifest_unparse sig :
  bytes_ok sig -> manifest_format sig = true ->
  manifest_head (parse_manifest sig) = take 64 sig /\ manifest_wf (parse_manifest sig).
Proof.
  intros Hb Hf. unfold manifest_format in Hf. rewrite !andb_true_iff, orb_true_iff in Hf.
  destruct Hf as [[[Hlen Hm] H1] Ht]. apply Nat.eqb_eq in Hlen. apply bool_decide_eq_true in Hm.
  assert (Hbyte : forall i, byte_ok (byte_at sig i)).
  { intros i. unfold byte_at. destruct (nth_lookup_or_length sig i 0) as [Hi|Hi].
    - eapply Forall_lookup_1; [exact Hb|exact Hi].
    - rewrite nth_overflow by done. unfold byte_ok. lia. }
  assert (E : forall a n, (a + n <= 128)%nat -> le n (rd_le (sub a n sig)) = sub a n sig)
    by (intros; apply sub_le; [done|lia]).
  assert (R : forall a n, 0 <= rd_le (sub a n sig) < 256 ^ Z.of_nat n).
  { intros a n. assert (Hs : bytes_ok (sub a n sig)) by (by apply Forall_take, Forall_drop).
    pose proof (rd_le_range _ Hs). assert (length (sub a n sig) <= n)%nat by (unfold sub; rewrite length_take; lia).
    pose proof (Z.pow_le_mono_r 256 (Z.of_nat (length (sub a n sig))) (Z.of_nat n)). lia. }
  split.
  - unfold manifest_head, parse_manifest, rd32, rd16.
    cbn [m_target m_flags m_size m_sha256 m_version m_release m_layout m_min_flash_kb m_key_id].
    fold (sub 8 4 sig) (sub 44 4 sig) (sub 48 4 sig) (sub 52 2 sig) (sub 54 2 sig).
    rewrite !E by lia.
    assert (H4 : le 2 1 = sub 4 2 sig).
    { rewrite <- E by lia. unfold rd16 in H1. fold (sub 4 2 sig) in H1. apply Z.eqb_eq in H1. by rewrite H1. }
    assert (H6 : [byte_at sig 6; byte_at sig 7] = sub 6 2 sig).
    { unfold sub, byte_at. by do 8 (destruct sig as [|? sig]; [done|]). }
    rewrite H4, H6, <- Hm. change (take 4 sig) with (sub 0 4 sig).
    rewrite (sub_join 54 2 8), (sub_join 52 2 10), (sub_join 48 4 12), (sub_join 44 4 16), (sub_join 12 32 20),
      (sub_join 8 4 52), (sub_join 6 2 56), (sub_join 4 2 58), (sub_join 0 4 60). done.
  - unfold manifest_wf, parse_manifest, rd32, rd16.
    cbn [m_target m_flags m_size m_sha256 m_version m_release m_layout m_min_flash_kb m_key_id].
    fold (sub 8 4 sig) (sub 44 4 sig) (sub 48 4 sig) (sub 52 2 sig) (sub 54 2 sig).
    pose proof (Hbyte 6%nat). unfold byte_ok in *.
    split_and!; try (apply (R _ 4%nat)); try (apply (R _ 2%nat)); try (apply sub_length; lia); try apply Hbyte.
    destruct Ht; [left|right]; lia.
Qed.

Lemma accept_required r : fw_sign_accept r FW_SIG_POLICY_REQUIRED = true <-> r = FW_SIG_OK.
Proof. apply bool_decide_eq_true. Qed.

(** A manifest is accepted for an image exactly when it is a well-formed
    manifest naming that target, size and SHA-256, followed by an Ed25519
    signature over its 64 bytes (behind the domain-separating context) that
    verifies under the first built-in key with the manifest's key id. That is
    also all a pod whose policy is [required] lets in. *)
Theorem signed_image_iff sig target size sha256 keys :
  bytes_ok sig ->
  (fw_sign_accept (fst (fw_sign_check_keys (Some sig) target size sha256 keys)) FW_SIG_POLICY_REQUIRED = true <->
   exists m ed pub,
     sig = manifest_head m ++ ed /\ length ed = 64%nat /\ manifest_wf m /\
     find_pub keys (m_key_id m) = Some pub /\
     crypto_ed25519_check ed pub (FW_SIGN_CONTEXT ++ manifest_head m) = true /\
     m_target m = target /\ m_size m = size /\ m_sha256 m = sha256).
Proof.
  intros Hb. rewrite accept_required. split.
  - destruct sig as [|b sig']; [done|]. set (sig := b :: sig') in *.
    change (fw_sign_check_keys (Some sig) target size sha256 keys) with
      (if negb (manifest_format sig) then (FW_SIG_FORMAT, None) else
        let m := parse_manifest sig in
        match find_pub keys (m_key_id m) with
        | None => (FW_SIG_UNKNOWN_KEY, Some m)
        | Some pub =>
            if negb (crypto_ed25519_check (drop SIGNED_LEN sig) pub (signed_msg sig)) then (FW_SIG_SIGNATURE, Some m)
            else if negb (m_target m =? target) then (FW_SIG_TARGET, Some m)
            else if negb (m_size m =? size) || negb (bool_decide (m_sha256 m = sha256)) then (FW_SIG_IMAGE, Some m)
            else (FW_SIG_OK, Some m)
        end).
    destruct (manifest_format sig) eqn:Ef; [|done]. cbn [negb]. cbv zeta.
    destruct (manifest_unparse sig Hb Ef) as [Hh Hwf].
    destruct (find_pub keys _) as [pub|] eqn:Ep; [|done].
    destruct (crypto_ed25519_check _ _ _) eqn:Ec; [|done]. cbn [negb].
    destruct (Z.eqb_spec (m_target (parse_manifest sig)) target); [|done].
    destruct (Z.eqb_spec (m_size (parse_manifest sig)) size); [|done].
    case_bool_decide; [|done]. intros _. exists (parse_manifest sig), (drop 64 sig), pub.
    rewrite Hh. split_and!; try done; [by rewrite take_drop|].
    unfold manifest_format in Ef. rewrite !andb_true_iff in Ef. destruct Ef as [[[Hl _] _] _].
    apply Nat.eqb_eq in Hl. rewrite length_drop. lia.
  - intros (m & ed & pub & -> & Hed & Hwf & Hp & Hc & <- & <- & <-).
    destruct (manifest_parse m ed Hwf Hed) as [Hf Hparse]. pose proof (manifest_head_length m Hwf) as Hl.
    unfold fw_sign_check_keys. destruct (manifest_head m ++ ed) eqn:E.
    { apply (f_equal length) in E. rewrite length_app in E. cbn in E. lia. }
    rewrite <- E in *. rewrite Hf, Hparse. cbn [negb]. cbv zeta. rewrite Hp. unfold signed_msg.
    rewrite (drop_app_length' _ _ 64), (take_app_length' _ _ 64), Hc by done. cbn [negb].
    rewrite !Z.eqb_refl. by rewrite bool_decide_eq_true_2.
Qed.

End fw_sign_laws.

(** A toy signature scheme: the signature repeats the key. *)
Definition toy_crypto : Monocypher := {|
  crypto_sha512 := fun k => k;
  crypto_ed25519_check := fun s k _ => bool_decide (take 32 s = k);
|}.

Lemma signed_image_iff_witness :
  let pub := replicate 32 7 in
  let m := Manifest 0 0 4096 (replicate 32 170) 1 2 2 1024 (replicate 8 7) in
  bytes_ok (manifest_head m ++ replicate 64 7) /\
  fw_sign_accept (fst (@fw_sign_check_keys toy_crypto (Some (manifest_head m ++ replicate 64 7)) 0 4096
    (replicate 32 170) [pub])) FW_SIG_POLICY_REQUIRED = true.
Proof.
  intros pub m. assert (Hb : bytes_ok (manifest_head m ++ replicate 64 7))
    by (refine (bool_decide_unpack _ _); vm_compute; exact I).
  split; [exact Hb|].
  apply (@signed_image_iff toy_crypto (manifest_head m ++ replicate 64 7) 0 4096 (replicate 32 170) [pub] Hb).
  exists m, (replicate 64 7), pub.
  split; [reflexivity|]. split; [reflexivity|].
  split; [unfold manifest_wf; cbn; unfold byte_ok; repeat split; lia|].
  repeat split; vm_compute; reflexivity.
Defined.
