(* ===== verification/PodPolicy.v ===== *)
(** * The persisted security policies
    ([pod_policy.c], the policy commands of [command_handler_policy.c])

    One record of an A/B store holds the signature policy, the LAN policy, the
    USB network setting and HTTPS-only. The state is the flash, the record in
    RAM and the policy [fw_sign.c] holds. A setter returns [None], or why not;
    the callbacks it makes to the network code are returned as a list. *)

From S2P Require Import Prelude Flash ConfigStore Json CmdTable CmdGate FwSign.

Abbreviation POD_POLICY_SLOT_A_OFFSET := 0x1E6000.
Abbreviation POD_POLICY_SLOT_B_OFFSET := 0x1E4000.
Abbreviation POD_POLICY_RECORD_MAGIC := 0x4C4F5050.
Abbreviation POLICY_REC_SIZE := 16%nat.

Record pod_policy_rec_t := PolicyRec {
  r_magic : Z; r_sig : Z; r_lan : Z; r_usb_net_off : Z; r_https_only : Z; r_reserved : list Z;
}.

(** The 16 bytes of the record, as they are stored. *)
Definition rec_bytes (r : pod_policy_rec_t) : list Z :=
  le 4 (r_magic r) ++ [r_sig r; r_lan r; r_usb_net_off r; r_https_only r] ++ r_reserved r.
Definition rec_of_bytes (bs : list Z) : pod_policy_rec_t :=
  PolicyRec (rd_le (sub 0 4 bs)) (nth 4 bs 0) (nth 5 bs 0) (nth 6 bs 0) (nth 7 bs 0) (sub 8 8 bs).

Definition k_store : ab_store_t := {|
  tag := "policy"; slot_off0 := POD_POLICY_SLOT_A_OFFSET; slot_off1 := POD_POLICY_SLOT_B_OFFSET;
  s_magic := POD_POLICY_RECORD_MAGIC; s_version := 1; legacy_off := 0; legacy_magic := 0; max_len := 0;
|}.

Definition s_rec_init : pod_policy_rec_t :=
  PolicyRec POD_POLICY_RECORD_MAGIC FW_SIG_POLICY_AUDIT POD_LAN_OPEN 0 0 (replicate 8 0).

Definition pod_lan_name (p : Z) : cstr :=
  if p =? POD_LAN_OPEN then str "open" else if p =? POD_LAN_LOCKED then str "locked"
  else if p =? POD_LAN_OFF then str "off" else str "?".

Inductive hook := OnLanChange (now : Z) | OnUsbNetChange (on : bool) | OnHttpsOnlyChange (on : bool).

Section policy.
Context `{FlashDev D}.

Record policy_t := Policy { pp_flash : D; s_rec : pod_policy_rec_t; s_policy : Z }.

(** Power up: the RAM starts from its initial values. *)
Definition policy_boot (d : D) : policy_t := Policy d s_rec_init FW_SIG_POLICY_AUDIT.

(** A value this firmware does not know becomes the strictest known one. *)
Definition clamp_rec (r : pod_policy_rec_t) : pod_policy_rec_t :=
  PolicyRec (r_magic r)
    (if FW_SIG_POLICY_REQUIRED <? r_sig r then FW_SIG_POLICY_REQUIRED else r_sig r)
    (if POD_LAN_OFF <? r_lan r then POD_LAN_LOCKED else r_lan r)
    (if 1 <? r_usb_net_off r then 1 else r_usb_net_off r)
    (if 1 <? r_https_only r then 1 else r_https_only r)
    (r_reserved r).

Definition pod_policy_load (st : policy_t) : policy_t :=
  let rec :=
    match ab_store_load k_store (pp_flash st) POLICY_REC_SIZE with
    | Some bs =>
        let r := rec_of_bytes bs in
        if r_magic r =? POD_POLICY_RECORD_MAGIC then clamp_rec r else s_rec st
    | None => s_rec st
    end in
  Policy (pp_flash st) rec (r_sig rec).

Definition pod_policy_sig (st : policy_t) : Z := r_sig (s_rec st).
Definition pod_policy_lan (st : policy_t) : Z := r_lan (s_rec st).
Definition pod_policy_usb_net (st : policy_t) : bool := r_usb_net_off (s_rec st) =? 0.
Definition pod_policy_https_only (st : policy_t) : bool := negb (r_https_only (s_rec st) =? 0).

Definition policy_save (st : policy_t) (r : pod_policy_rec_t) : policy_t * option cstr :=
  let '(d, rc) := ab_store_save k_store (pp_flash st) (rec_bytes r) in
  if negb (rc =? 0) then (Policy d (s_rec st) (s_policy st), Some (str "could not save the policy"))
  else (Policy d r (s_policy st), None).

(** A refusal (nothing changed), a success, or what [save] said; [k] runs after
    a save that worked. *)
Definition refused (st : policy_t) (why : cstr) : policy_t * option cstr * list hook := (st, Some why, []).
Definition unchanged_ok (st : policy_t) : policy_t * option cstr * list hook := (st, None, []).
Definition save_then (st : policy_t) (r : pod_policy_rec_t) (k : policy_t -> policy_t * list hook)
    : policy_t * option cstr * list hook :=
  match policy_save st r with
  | (st', Some why) => (st', Some why, [])
  | (st', None) => let '(st'', hooks) := k st' in (st'', None, hooks)
  end.

Definition pod_policy_set_sig (st : policy_t) (p : Z) (src : policy_src_t) : policy_t * option cstr * list hook :=
  if (FW_SIG_POLICY_REQUIRED <? u32 p) then refused st (str "sig_policy: unknown policy")
  else if src_is src POLICY_SRC_LAN then refused st (str "sig_policy: change it from the cloud or the USB console")
  else if src_is src POLICY_SRC_CLOUD && (p <? pod_policy_sig st) then
    refused st (snprintf_cut 96 (str "sig_policy: only the USB console can loosen the policy (now " ++
                                 fw_sign_policy_name (pod_policy_sig st) ++ str ")"))
  else if p =? pod_policy_sig st then unchanged_ok st
  else
    let r := s_rec st in
    save_then st (PolicyRec (r_magic r) (u8 p) (r_lan r) (r_usb_net_off r) (r_https_only r) (r_reserved r))
      (fun st' => (Policy (pp_flash st') (s_rec st') p, [])).

Definition pod_policy_set_lan (st : policy_t) (p : Z) (src : policy_src_t) : policy_t * option cstr * list hook :=
  if (POD_LAN_OFF <? u32 p) then refused st (str "lan_policy: unknown policy")
  else if src_is src POLICY_SRC_LAN then refused st (str "lan_policy: change it from the cloud or the USB console")
  else if p =? pod_policy_lan st then unchanged_ok st
  else
    let r := s_rec st in
    save_then st (PolicyRec (r_magic r) (r_sig r) (u8 p) (r_usb_net_off r) (r_https_only r) (r_reserved r))
      (fun st' => (st', [OnLanChange p])).

Definition pod_policy_set_usb_net (st : policy_t) (on : bool) (src : policy_src_t) (usb_link : bool)
    : policy_t * option cstr * list hook :=
  if src_is src POLICY_SRC_CLOUD || (src_is src POLICY_SRC_LAN && negb usb_link) then
    refused st (str "usb_network: change it on the device (the USB console, or over the USB link)")
  else if Bool.eqb on (pod_policy_usb_net st) then unchanged_ok st
  else
    let r := s_rec st in
    save_then st (PolicyRec (r_magic r) (r_sig r) (r_lan r) (if on then 0 else 1) (r_https_only r) (r_reserved r))
      (fun st' => (st', [OnUsbNetChange on])).

Definition pod_policy_lan_tls_gate (src : policy_src_t) (usb_link tls_link : bool) : option cstr :=
  if negb (src_is src POLICY_SRC_LAN) || usb_link || tls_link then None
  else Some (str "lan_tls: change it over TLS (port 8443), over USB or from the cloud").

Definition pod_policy_set_https_only (st : policy_t) (on : bool) (src : policy_src_t) (usb_link tls_link : bool)
    : policy_t * option cstr * list hook :=
  match (if negb on then pod_policy_lan_tls_gate src usb_link tls_link else None) with
  | Some why => refused st why
  | None =>
      if Bool.eqb on (pod_policy_https_only st) then unchanged_ok st
      else
        let r := s_rec st in
        save_then st (PolicyRec (r_magic r) (r_sig r) (r_lan r) (r_usb_net_off r) (if on then 1 else 0) (r_reserved r))
          (fun st' => (st', [OnHttpsOnlyChange on]))
  end.

Definition pod_policy_cloud_link_gate (verb : cstr) (src : policy_src_t) (usb_link : bool) : option cstr :=
  if negb (src_is src POLICY_SRC_LAN) || usb_link then None
  else Some (snprintf_cut 80 (verb ++ str ": change it from the cloud or over USB")).

Definition pod_policy_sig_from_name (name : cstr) : Z :=
  if streq name (str "audit") then FW_SIG_POLICY_AUDIT
  else if streq name (str "permissive") then FW_SIG_POLICY_PERMISSIVE
  else if streq name (str "required") then FW_SIG_POLICY_REQUIRED
  else -1.

Definition pod_policy_lan_from_name (name : cstr) : Z :=
  if streq name (str "open") then POD_LAN_OPEN
  else if streq name (str "locked") then POD_LAN_LOCKED
  else if streq name (str "off") then POD_LAN_OFF
  else -1.

(** ** The policy commands

    [conn_id] comes from the transport, [usb] and [tls] are [net_conn_on_usb]
    and [net_conn_on_tls] of that connection. The result is the state, the
    refusal if there is one (else the current value is the reply), the
    callbacks. *)

Definition handle_sig_policy (st : policy_t) (conn_id : Z) (json : cstr) : policy_t * option cstr * list hook :=
  let g := bp_json_get json (str "set") 16 in
  if found g then
    let p := pod_policy_sig_from_name (out g) in
    if p <? 0 then refused st (str "sig_policy: set must be audit, permissive or required")
    else pod_policy_set_sig st p (command_handler_policy_src conn_id)
  else unchanged_ok st.

Definition handle_lan_policy (st : policy_t) (conn_id : Z) (json : cstr) : policy_t * option cstr * list hook :=
  let g := bp_json_get json (str "set") 16 in
  if found g then
    let p := pod_policy_lan_from_name (out g) in
    if p <? 0 then refused st (str "lan_policy: set must be open, locked or off")
    else pod_policy_set_lan st p (command_handler_policy_src conn_id)
  else unchanged_ok st.

Definition handle_usb_network (st : policy_t) (conn_id : Z) (usb : bool) (json : cstr)
    : policy_t * option cstr * list hook :=
  let g := bp_json_get json (str "set") 8 in
  if found g then
    if negb (streq (out g) (str "on")) && negb (streq (out g) (str "off")) then
      refused st (str "usb_network: set must be on or off")
    else pod_policy_set_usb_net st (streq (out g) (str "on")) (command_handler_policy_src conn_id) usb
  else unchanged_ok st.

(** The HTTPS-only part of [handle_lan_tls], and whether the handler goes on to
    replace the certificate ([lan_tls_regenerate]). *)
Definition handle_lan_tls (st : policy_t) (conn_id : Z) (usb tls : bool) (json : cstr)
    : policy_t * option cstr * list hook * bool :=
  let src := command_handler_policy_src conn_id in
  let g := bp_json_get json (str "https_only") 8 in
  let '(st', why, hooks) :=
    if found g then
      if negb (streq (out g) (str "true")) && negb (streq (out g) (str "false")) then
        refused st (str "lan_tls: https_only must be true or false")
      else pod_policy_set_https_only st (streq (out g) (str "true")) src usb tls
    else unchanged_ok st in
  match why with
  | Some w => (st', Some w, hooks, false)
  | None =>
      let r := bp_json_get json (str "regenerate") 8 in
      if found r && streq (out r) (str "true") then
        match pod_policy_lan_tls_gate src usb tls with
        | Some w => (st', Some w, hooks, false)
        | None => (st', None, hooks, true)
        end
      else (st', None, hooks, false)
  end.

End policy.
Arguments policy_t : clear implicits.
