(* ===== verification/StoreTheorems.v ===== *)
(** * The record store: theorems

    The properties of [config_store.c] and [flash_compat.c], with witnesses on
    a RAM model of a 1 MB part. *)

From S2P Require Import Prelude Flash ConfigStore ConfigStoreFacts ConfigStoreWrite ConfigStoreProofs PodPolicy.

Lemma k_store_wf : store_wf k_store.
Proof.
  split; try done.
  intros i. destruct i as [|i]; unfold slot_off; cbn; vm_compute; done.
Qed.

Lemma s_wifi_store_wf : store_wf s_wifi_store.
Proof.
  split; try done.
  intros i. destruct i as [|i]; unfold slot_off; cbn; vm_compute; done.
Qed.

Section theorems.
Context (s : ab_store_t) (wf : store_wf s) `{FL : FlashLaws D}.
Implicit Types (d : D).

(** A byte of the persistence area that belongs to another store. *)
Definition foreign (a : Z) : Prop :=
  persist a /\ ~ in_range (slot_off s 0) FLASH_SHIM_SECTOR_SIZE a /\
  ~ in_range (slot_off s 1) FLASH_SHIM_SECTOR_SIZE a.

Lemma frame_foreign d d' i a :
  frame (slot_off s i) FLASH_SHIM_SECTOR_SIZE d d' -> foreign a -> flash_byte d' a = flash_byte d a.
Proof. intros Hf (Hp & H0 & H1). apply Hf; [done|]. by destruct i. Qed.

Lemma save_lemma d data :
  payload_ok s data -> data <> [] ->
  exists d', ab_store_save s d data = (d', 0) /\
    ab_store_load s d' (length data) = Some data /\
    (store_inv s d -> store_inv s d') /\
    (forall a, foreign a -> flash_byte d' a = flash_byte d a).
Proof.
  intros Hp Hne. unfold ab_store_save. destruct Hp as [Hb Hl].
  destruct (Z.eqb_spec (Z.of_nat (length data)) 0); [by destruct data|].
  destruct (Z.ltb_spec (store_max s) (Z.of_nat (length data))); [lia|]. cbn [orb].
  destruct (unchanged s d data) eqn:Eu.
  - exists d. split_and!; [done|by apply unchanged_load|done|done].
  - destruct (next_target s d) as [target seq] eqn:Et.
    destruct (next_target_ok _ _ _ _ Et) as [Hlt Hq].
    assert (Hp : payload_ok s data) by done.
    exists (run_ops d (record_ops s target seq data)). rewrite write_record_ok by done.
    destruct (run_record s wf d target seq data Hp Hq) as [Hr Hf].
    assert (Es := new_record_newest s wf d _ _ _ _ Et Hp Hf Hr).
    split_and!; [done| | |].
    + rewrite (load_record s wf _ _ _ _ _ Hp Es Hr). by rewrite decide_True.
    + intros Hi. by eapply new_record_inv.
    + intros a. by apply frame_foreign with (i := target).
Qed.

(** On a working flash a save of any non-empty payload that fits succeeds,
    the next load returns exactly that payload, the power-loss invariant is
    kept, and no byte of another store's sectors changes. *)
Theorem save_load_roundtrip d data :
  payload_ok s data -> data <> [] ->
  exists d', ab_store_save s d data = (d', 0) /\
    ab_store_load s d' (length data) = Some data /\
    (store_inv s d -> store_inv s d') /\
    (forall a, foreign a -> flash_byte d' a = flash_byte d a).
Proof. apply save_lemma. Qed.

Lemma save_cut d d' target seq data :
  store_inv s d -> payload_ok s data -> data <> [] -> next_target s d = (target, seq) ->
  ops_cut d (record_ops s target seq data) d' ->
  store_inv s d' /\
  ((forall len, Z.of_nat len <= 8192 -> ab_store_load s d' len = ab_store_load s d len) \/
   ab_store_load s d' (length data) = Some data).
Proof.
  intros Hi Hp Hne Et Hc. destruct (next_target_ok _ _ _ _ Et) as [Hlt Hq].
  destruct (record_cut s wf d d' target seq data Hp Hq Hc) as [Hf [Hr|Hl]].
  - split; [by eapply new_record_inv|]. right.
    rewrite (load_record s wf d' target seq data _ Hp); [by rewrite decide_True| |done].
    by eapply new_record_newest.
  - split; [by eapply scan_kept|]. left. intros len Hlen. by eapply load_kept.
Qed.

(** C1: A power cut at any point of a save (between or inside the flash
    operations it performs) leaves a store from which a load returns what it
    returned before the save, or the new payload; the invariant still holds, so
    the next save works and the next cut is survived too. *)
Theorem save_power_cut d d' target seq data :
  store_inv s d -> payload_ok s data -> data <> [] -> next_target s d = (target, seq) ->
  ops_cut d (record_ops s target seq data) d' ->
  store_inv s d' /\
  ((forall len, Z.of_nat len <= 8192 -> ab_store_load s d' len = ab_store_load s d len) \/
   ab_store_load s d' (length data) = Some data).
Proof. apply save_cut. Qed.

(** What the loads see once a tombstone is the newest record. *)
Lemma tombstone_loads d n seq :
  scan s d = Some (n, record_hdr s seq []) ->
  (forall len, ab_store_load s d len = None) /\
  (forall cap, ab_store_load_var s d cap = None) /\
  (forall v len, ab_store_load_version s d v len = None).
Proof.
  intros Es. assert (Hp : payload_ok s []) by (split; [constructor|pose proof (wf_max s wf); simpl; lia]).
  unfold ab_store_load, ab_store_load_var, ab_store_load_version. rewrite Es.
  by rewrite record_hdr_len.
Qed.

Lemma tombstone_written d target seq :
  next_target s d = (target, seq) ->
  let d1 := run_ops d (record_ops s target seq []) in
  frame (slot_off s target) FLASH_SHIM_SECTOR_SIZE d d1 /\
  slot_read s d1 target = Some (record_hdr s seq [], []) /\
  scan s d1 = Some (target, record_hdr s seq []) /\ (store_inv s d -> store_inv s d1).
Proof.
  intros Et d1. assert (Hp : payload_ok s []) by (split; [constructor|pose proof (wf_max s wf); simpl; lia]).
  destruct (next_target_ok _ _ _ _ Et) as [Hlt Hq].
  destruct (run_record s wf d target seq [] Hp Hq) as [Hr Hf].
  split_and!; [done|done|by eapply new_record_newest|]. intros. by eapply new_record_inv.
Qed.

(** Wiping another sector leaves the newest record the newest. *)
Lemma erase_other_scan d d' n h off :
  scan s d = Some (n, h) -> store_inv s d -> off <> slot_off s n -> persist_sector off ->
  op_cut d (FErase off) d' -> scan s d' = Some (n, h) /\ store_inv s d'.
Proof.
  intros Es Hi Hne Hs Hc. destruct (scan_Some _ _ _ _ Es) as [Hn _].
  assert (Hf : frame off FLASH_SHIM_SECTOR_SIZE d d') by apply Hc.
  eapply scan_stable; [done..| |].
  - apply slot_read_ext; [done|]. intros a Ha. apply Hf; [by eapply slot_persist|].
    apply (sectors_disjoint (slot_off s n)); [by apply wf|done|by apply not_eq_sym|done].
  - destruct (decide (off = slot_off s (1 - n))) as [->|Hne'].
    + by apply erase_cut_live.
    + right. apply live_ext. intros a Ha.
      assert (Ha' : in_range (slot_off s (1 - n)) FLASH_SHIM_SECTOR_SIZE a) by (unfold in_range in *; lia).
      apply Hf; [by eapply slot_persist|].
      apply (sectors_disjoint (slot_off s (1 - n))); [by apply wf|done|by apply not_eq_sym|done].
Qed.

Lemma erase_is_cut d off : persist_sector off -> op_cut d (FErase off) (run_op d (FErase off)).
Proof. intros Hs. split; [by apply erase_frame|]. intros q _ _. right; left. done. Qed.

(** The wipes after the tombstone, and how far a cut got in them. *)
Lemma wipes_scan d d' target seq :
  next_target s d = (target, seq) -> store_inv s d ->
  ops_cut (run_ops d (record_ops s target seq []))
    (FErase (slot_off s (1 - target)%nat) :: (if legacy_off s =? 0 then [] else [FErase (legacy_off s)])) d' ->
  scan s d' = Some (target, record_hdr s seq []).
Proof.
  intros Et Hi. destruct (tombstone_written d target seq Et) as (Hf & Hr & Es & Hi1).
  specialize (Hi1 Hi). set (d1 := run_ops _ _) in *.
  destruct (next_target_ok _ _ _ _ Et) as [Hlt _].
  assert (Hne : slot_off s (1 - target) <> slot_off s target) by (apply not_eq_sym; by apply slot_off_ne).
  rewrite ops_cut_cons. intros [Hc|Hc].
  - by apply (erase_other_scan d1 d' target _ _ Es Hi1 Hne (wf_off s wf _) Hc).
  - destruct (erase_other_scan d1 _ target _ _ Es Hi1 Hne (wf_off s wf _)
      (erase_is_cut d1 _ (wf_off s wf _))) as [Es2 Hi2].
    destruct (Z.eqb_spec (legacy_off s) 0) as [|Hl]; [by destruct Hc as ([] & ? & ? & ? & _)|].
    destruct (wf_legacy s wf Hl) as (Hls & Hl0 & Hl1).
    rewrite ops_cut_cons in Hc. destruct Hc as [Hc|Hc]; [|by destruct Hc as (pre & ? & ? & E & _); destruct pre].
    apply (erase_other_scan _ d' target _ _ Es2 Hi2) in Hc as [Es3 _]; [done| |done]. by destruct target.
Qed.

Lemma clear_lemma d :
  store_inv s d ->
  exists d', ab_store_clear s d = (d', 0) /\
    (forall len, ab_store_load s d' len = None) /\
    (forall cap, ab_store_load_var s d' cap = None) /\
    (forall v len, ab_store_load_version s d' v len = None).
Proof.
  intros Hi. unfold ab_store_clear. destruct (next_target s d) as [target seq] eqn:Et.
  destruct (next_target_ok _ _ _ _ Et) as [Hlt Hq].
  assert (Hp : payload_ok s []) by (split; [constructor|pose proof (wf_max s wf); simpl; lia]).
  rewrite write_record_ok by done. cbn [Z.eqb].
  eexists. split; [reflexivity|]. eapply tombstone_loads, (wipes_scan d); [done|done|].
  change (flash_erase ?x ?o FLASH_SHIM_SECTOR_SIZE) with (run_op x (FErase o)).
  rewrite ops_cut_cons. destruct (Z.eqb_spec (legacy_off s) 0) as [|Hl].
  - left. by apply erase_is_cut, wf.
  - right. change (flash_erase ?x ?o FLASH_SHIM_SECTOR_SIZE) with (run_op x (FErase o)).
    rewrite ops_cut_cons. left. by apply erase_is_cut, wf_legacy.
Qed.

(** A clear on a working flash succeeds, and afterwards no kind of load
    finds a record any more: not the plain one, not the variable-length one,
    not one of any version. *)
Theorem clear_forgets d :
  store_inv s d ->
  exists d', ab_store_clear s d = (d', 0) /\
    (forall len, ab_store_load s d' len = None) /\
    (forall cap, ab_store_load_var s d' cap = None) /\
    (forall v len, ab_store_load_version s d' v len = None).
Proof. apply clear_lemma. Qed.

(** A power cut at any point of a clear never resurrects an old record: a
    load then returns what it returned before the clear, or nothing. *)
Theorem clear_power_cut d d' len :
  store_inv s d -> Z.of_nat len <= 8192 -> ops_cut d (clear_ops s d) d' ->
  ab_store_load s d' len = ab_store_load s d len \/ ab_store_load s d' len = None.
Proof.
  intros Hi Hlen. unfold clear_ops. destruct (next_target s d) as [target seq] eqn:Et.
  destruct (next_target_ok _ _ _ _ Et) as [Hlt Hq].
  assert (Hp : payload_ok s []) by (split; [constructor|pose proof (wf_max s wf); simpl; lia]).
  rewrite ops_cut_app. intros [Hc|Hc].
  - destruct (record_cut s wf d d' target seq [] Hp Hq Hc) as [Hf [Hr|Hl]].
    + right. eapply tombstone_loads. by eapply new_record_newest.
    + left. by eapply load_kept.
  - right. eapply tombstone_loads. by eapply wipes_scan.
Qed.

End theorems.

(** ** Witnesses: the policy store on a blank 1 MB part *)

Definition pod_flash : Type := flash_t ram_flash.
#[export] Instance pod_hal : HalFlash ram_flash := ram_hal FLASH_LAYOUT_SIZE_1MB.
#[export] Instance pod_dev : FlashDev pod_flash := flash_compat_dev FLASH_LAYOUT_SIZE_1MB.
Lemma pod_part : flash_part FLASH_LAYOUT_SIZE_1MB.
Proof. by left. Qed.
#[export] Instance pod_laws : FlashLaws pod_flash := flash_compat_laws (H := ram_flash) pod_part.

Definition pod_blank : pod_flash := FlashT ram_blank 0.
Definition pod_payload : list Z := [0x50; 0x50; 0x4F; 0x4C; 2; 1; 0; 0].

Lemma pod_blank_inv : store_inv k_store pod_blank.
Proof. vm_compute. done. Qed.

Lemma pod_payload_ok : payload_ok k_store pod_payload.
Proof. split; [repeat constructor; done|vm_compute; done]. Qed.

Lemma save_load_roundtrip_witness :
  exists d', ab_store_save k_store pod_blank pod_payload = (d', 0) /\
    ab_store_load k_store d' 8 = Some pod_payload.
Proof.
  destruct (save_load_roundtrip k_store k_store_wf pod_blank pod_payload
    pod_payload_ok ltac:(discriminate)) as (d' & Hs & Hl & _).
  exists d'. split; [exact Hs|exact Hl].
Defined.

Lemma save_power_cut_witness :
  let d' := run_op pod_blank (FErase 0x1E6000) in
  store_inv k_store d' /\
  ((forall len, Z.of_nat len <= 8192 ->
      ab_store_load k_store d' len = ab_store_load k_store pod_blank len) \/
   ab_store_load k_store d' (length pod_payload) = Some pod_payload).
Proof.
  apply (save_power_cut k_store k_store_wf pod_blank _ 0%nat 1 pod_payload).
  - exact pod_blank_inv.
  - exact pod_payload_ok.
  - discriminate.
  - vm_compute. reflexivity.
  - exists [], (FErase 0x1E6000). eexists. split; [reflexivity|].
    apply erase_is_cut. vm_compute. repeat split; discriminate.
Defined.

Lemma clear_forgets_witness :
  exists d', ab_store_clear s_wifi_store pod_blank = (d', 0) /\
    (forall len, ab_store_load s_wifi_store d' len = None) /\
    (forall cap, ab_store_load_var s_wifi_store d' cap = None) /\
    (forall v len, ab_store_load_version s_wifi_store d' v len = None).
Proof.
  apply (clear_forgets s_wifi_store s_wifi_store_wf pod_blank). vm_compute. split; reflexivity.
Defined.

Lemma clear_power_cut_witness :
  let d' := run_op pod_blank (FErase 0x1F8000) in
  ab_store_load s_wifi_store d' 168 = ab_store_load s_wifi_store pod_blank 168 \/
  ab_store_load s_wifi_store d' 168 = None.
Proof.
  apply (clear_power_cut s_wifi_store s_wifi_store_wf pod_blank).
  - vm_compute. split; reflexivity.
  - vm_compute. discriminate.
  - exists [], (FErase 0x1F8000). eexists. split; [reflexivity|].
    apply erase_is_cut. vm_compute. repeat split; discriminate.
Defined.

(** ** The Wi-Fi config *)

Definition config_ok (c : config_t) : Prop :=
  bytes_ok (c_ssid c) /\ length (c_ssid c) = 64%nat /\
  bytes_ok (c_password c) /\ length (c_password c) = 64%nat /\
  bytes_ok (c_reserved c) /\ length (c_reserved c) = 32%nat.

Lemma config_bytes_length c : config_ok c -> length (config_bytes c) = 168%nat.
Proof.
  intros (_ & H1 & _ & H2 & _ & H3). unfold config_bytes.
  rewrite !length_app, !le_length, H1, H2, H3. done.
Qed.

Lemma config_of_config_bytes c :
  config_ok c -> 0 <= c_magic c < 4294967296 -> 0 <= c_version c < 4294967296 ->
  config_of_bytes (config_bytes c) = c.
Proof.
  intros (_ & H1 & _ & H2 & _ & H3) Hm Hv. destruct c as [m v ss pw rs].
  unfold config_bytes, config_of_bytes, sub. cbn [c_magic c_version c_ssid c_password c_reserved] in *.
  f_equal.
  - rewrite drop_0, take_app_le, firstn_all2 by (rewrite ?le_length; lia). by apply rd_le_le.
  - rewrite drop_app_ge, le_length by (rewrite le_length; lia). rewrite drop_0.
    rewrite take_app_le, firstn_all2 by (rewrite ?le_length; lia). by apply rd_le_le.
  - rewrite !drop_app_ge, !le_length by (rewrite ?le_length; lia). rewrite drop_0.
    rewrite take_app_le by lia. apply firstn_all2. lia.
  - rewrite !drop_app_ge, !le_length by (rewrite ?le_length; lia). rewrite H1. cbn. rewrite drop_0.
    rewrite take_app_le by lia. apply firstn_all2. lia.
  - rewrite !drop_app_ge, !le_length by (rewrite ?le_length; lia). rewrite H1, H2. cbn. rewrite drop_0.
    apply firstn_all2. lia.
Qed.

(** A saved Wi-Fi config is what the next load returns, with the schema
    magic and version filled in whatever the caller put there; after a clear
    the load finds none. *)
Theorem config_roundtrip `{FL : FlashLaws D} (d : D) (cfg : config_t) :
  config_ok cfg -> store_inv s_wifi_store d ->
  exists d', config_save d cfg = (d', 0) /\
    config_load d' = Some (Config CONFIG_MAGIC CONFIG_VERSION (c_ssid cfg) (c_password cfg) (c_reserved cfg)) /\
    config_load (config_clear d') = None.
Proof.
  intros Hc Hi. unfold config_save, config_load, config_clear.
  set (tmp := Config CONFIG_MAGIC CONFIG_VERSION _ _ _).
  assert (Hok : config_ok tmp) by done.
  assert (Hp : payload_ok s_wifi_store (config_bytes tmp)).
  { split; [|by rewrite config_bytes_length].
    destruct Hok as (? & _ & ? & _ & ? & _). unfold config_bytes.
    repeat (apply bytes_ok_app; split); auto using le_bytes. }
  destruct (save_lemma _ s_wifi_store_wf d (config_bytes tmp) Hp) as (d' & Hs & Hl & Hi' & _).
  { intros E. apply (f_equal length) in E. by rewrite config_bytes_length in E. }
  exists d'. rewrite config_bytes_length in Hl by done. split_and!; [done| |].
  - rewrite Hl, config_of_config_bytes by done. done.
  - destruct (clear_lemma _ s_wifi_store_wf d' (Hi' Hi)) as (d'' & -> & Hn & _). cbn [fst]. by rewrite Hn.
Qed.

Definition some_config : config_t :=
  Config 0 0 (replicate 64 97) (replicate 64 0) (replicate 32 0).

Lemma config_roundtrip_witness :
  exists d', config_save pod_blank some_config = (d', 0) /\
    config_load d' = Some (Config CONFIG_MAGIC CONFIG_VERSION
      (c_ssid some_config) (c_password some_config) (c_reserved some_config)) /\
    config_load (config_clear d') = None.
Proof.
  apply (config_roundtrip pod_blank some_config).
  - unfold config_ok. vm_compute. repeat split; repeat constructor; discriminate.
  - vm_compute. split; reflexivity.
Defined.

(** ** The firmware's own flash area *)

(** Whatever offset and count they are called with, [flash_range_erase] and
    (on a quad-word boundary) [flash_range_program] never change a byte of the
    code area below the top 128 KB, on either chip size. *)
Theorem flash_code_untouched `{HL : HalFlashLaws H flash_size} (f : flash_t H) off count data a :
  flash_part flash_size -> 0 <= off -> 0 <= count < 0xFFFFE000 ->
  off mod 16 = 0 -> Z.of_nat (length data) < 0xFFFFE000 -> code_addr (flash_size := flash_size) a ->
  hal_read (chip (flash_range_erase flash_size f off count)) a = hal_read (chip f) a /\
  hal_read (chip (flash_range_program flash_size f off data)) a = hal_read (chip f) a.
Proof.
  intros. split; [by eapply erase_code_untouched|by eapply program_code_untouched].
Qed.

Lemma flash_code_untouched_witness :
  let f := pod_blank in
  hal_read (chip (flash_range_erase FLASH_LAYOUT_SIZE_1MB f 0x1000 0x2000)) 0x08001000 = hal_read (chip f) 0x08001000 /\
  hal_read (chip (flash_range_program FLASH_LAYOUT_SIZE_1MB f 0x1000 [1; 2; 3])) 0x08001000 = hal_read (chip f) 0x08001000.
Proof.
  apply (flash_code_untouched (flash_size := FLASH_LAYOUT_SIZE_1MB) pod_blank 0x1000 0x2000 [1; 2; 3]).
  - exact pod_part.
  - lia.
  - lia.
  - reflexivity.
  - vm_compute. reflexivity.
  - vm_compute. split; discriminate || reflexivity.
Defined.

(** ** What the store promises its clients

    The interface the modules that keep a record prove their theorems against:
    an invariant of the device under which a save works and is what the next
    load returns, and a power cut during a save loses nothing but the save. *)

(** The device after a power cut at some point of a save. *)
Definition save_cut_at (s : ab_store_t) `{FlashDev D} (d : D) (data : list Z) (d' : D) : Prop :=
  d' = d \/
  exists target seq, next_target s d = (target, seq) /\ ops_cut d (record_ops s target seq data) d'.

Class StorePromise (s : ab_store_t) (D : Type) `{FlashDev D} := {
  st_inv : D -> Prop;
  st_save d data : payload_ok s data -> data <> [] -> st_inv d ->
    exists d', ab_store_save s d data = (d', 0) /\ st_inv d' /\
      ab_store_load s d' (length data) = Some data;
  st_cut d data d' : payload_ok s data -> data <> [] -> st_inv d -> save_cut_at s d data d' ->
    st_inv d' /\
    (ab_store_load s d' (length data) = ab_store_load s d (length data) \/
     ab_store_load s d' (length data) = Some data);
}.

#[export] Instance ab_store_promise s (wf : store_wf s) `{FL : FlashLaws D} : StorePromise s D.
Proof.
  refine {| st_inv := store_inv s |}.
  - intros d data Hp Hne Hi. destruct (save_lemma s wf d data Hp Hne) as (d' & ? & ? & ? & _).
    exists d'. auto.
  - intros d data d' Hp Hne Hi [->|(target & seq & Et & Hc)]; [by split; [|left]|].
    destruct (save_cut s wf d d' target seq data Hi Hp Hne Et Hc) as [Hi' [Hl|Hl]]; (split; [done|]); [left|by right].
    apply Hl. destruct Hp as [_ Hp]. pose proof (wf_max s wf). lia.
Defined.
