(* ===== verification/PolicyTheorems.v ===== *)
(** * The policies: who may change them, and that they last

    Proved against the store's promise ([StorePromise], StoreTheorems.v), which
    the store on a working flash discharges. *)

From S2P Require Import Prelude Flash ConfigStore ConfigStoreFacts ConfigStoreWrite Json JsonProofs CmdTable CmdGate FwSign PodPolicy StoreTheorems.

(** ** The record *)

Definition rec_ok (r : pod_policy_rec_t) : Prop :=
  r_magic r = POD_POLICY_RECORD_MAGIC /\ 0 <= r_sig r <= 2 /\ 0 <= r_lan r <= 2 /\
  0 <= r_usb_net_off r <= 1 /\ 0 <= r_https_only r <= 1 /\ length (r_reserved r) = 8%nat /\ bytes_ok (r_reserved r).

#[export] Instance rec_ok_dec r : Decision (rec_ok r).
Proof. unfold rec_ok. apply _. Defined.

Lemma rec_bytes_length r : rec_ok r -> length (rec_bytes r) = POLICY_REC_SIZE.
Proof. intros (_ & _ & _ & _ & _ & H & _). unfold rec_bytes. rewrite !length_app, le_length, H. reflexivity. Qed.

Lemma rec_roundtrip r : rec_ok r -> clamp_rec (rec_of_bytes (rec_bytes r)) = r.
Proof.
  intros (H1 & H2 & H3 & H4 & H5 & H6 & _). destruct r as [m s l u h rs]. cbn in H1, H2, H3, H4, H5, H6. subst m.
  unfold rec_of_bytes, rec_bytes, sub. cbn [r_magic r_sig r_lan r_usb_net_off r_https_only r_reserved].
  rewrite drop_0, take_app_le, take_ge by (rewrite le_length; lia).
  rewrite rd_le_le by (vm_compute; done).
  cbn [le app nth drop]. rewrite drop_0, take_ge by lia.
  unfold clamp_rec. cbn [r_magic r_sig r_lan r_usb_net_off r_https_only r_reserved].
  f_equal; match goal with |- context [?a <? ?b] => destruct (Z.ltb_spec a b) end; lia.
Qed.

Lemma rec_payload r : rec_ok r -> payload_ok k_store (rec_bytes r) /\ rec_bytes r <> [].
Proof.
  intros H. pose proof (rec_bytes_length r H) as Hl. destruct H as (_ & H2 & H3 & H4 & H5 & _ & H7).
  split; [|by intros E; rewrite E in Hl]. split; [|by rewrite Hl].
  unfold rec_bytes. apply bytes_ok_app. split; [apply le_bytes|]. apply bytes_ok_app. split; [|done].
  repeat constructor; cbv beta; lia.
Qed.

Section theorems.
Context `{SP : StorePromise k_store D}.
Implicit Types (d : D) (st : policy_t D).

(** A reboot would bring this state back: the record in RAM is the stored one. *)
Definition synced st : Prop :=
  st_inv (pp_flash st) /\ rec_ok (s_rec st) /\ pod_policy_load (policy_boot (pp_flash st)) = st.

Lemma policy_load_record d r :
  rec_ok r -> ab_store_load k_store d POLICY_REC_SIZE = Some (rec_bytes r) ->
  pod_policy_load (policy_boot d) = Policy d r (r_sig r).
Proof.
  intros Hr Hl. unfold pod_policy_load. cbn [pp_flash policy_boot]. rewrite Hl, rec_roundtrip by done.
  assert (E : r_magic (rec_of_bytes (rec_bytes r)) = POD_POLICY_RECORD_MAGIC).
  { change (r_magic (clamp_rec (rec_of_bytes (rec_bytes r))) = POD_POLICY_RECORD_MAGIC).
    rewrite rec_roundtrip by done. apply Hr. }
  by rewrite E.
Qed.

Lemma policy_save_ok st r :
  st_inv (pp_flash st) -> rec_ok r ->
  exists d', policy_save st r = (Policy d' r (s_policy st), None) /\ st_inv d' /\
    pod_policy_load (policy_boot d') = Policy d' r (r_sig r).
Proof.
  intros Hi Hr. destruct (rec_payload r Hr) as [Hp Hne].
  destruct (st_save (pp_flash st) (rec_bytes r) Hp Hne Hi) as (d' & Hs & Hi' & Hl).
  exists d'. rewrite rec_bytes_length in Hl by done. unfold policy_save. rewrite Hs.
  split_and!; [done|done|by apply policy_load_record].
Qed.

Lemma synced_policy st : synced st -> s_policy st = r_sig (s_rec st).
Proof. intros (_ & _ & E). rewrite <- E. unfold pod_policy_load. by repeat case_match. Qed.

(** ** The operations *)

Inductive policy_op :=
| SetSig (p : Z) (src : policy_src_t)
| SetLan (p : Z) (src : policy_src_t)
| SetUsbNet (on : bool) (src : policy_src_t) (usb_link : bool)
| SetHttpsOnly (on : bool) (src : policy_src_t) (usb_link tls_link : bool).

Definition run_policy_op st (o : policy_op) : policy_t D * option cstr * list hook :=
  match o with
  | SetSig p src => pod_policy_set_sig st p src
  | SetLan p src => pod_policy_set_lan st p src
  | SetUsbNet on src usb => pod_policy_set_usb_net st on src usb
  | SetHttpsOnly on src usb tls => pod_policy_set_https_only st on src usb tls
  end.

(** The record an accepted operation asks for. *)
Definition target_rec (r : pod_policy_rec_t) (o : policy_op) : pod_policy_rec_t :=
  match o with
  | SetSig p _ => PolicyRec (r_magic r) p (r_lan r) (r_usb_net_off r) (r_https_only r) (r_reserved r)
  | SetLan p _ => PolicyRec (r_magic r) (r_sig r) p (r_usb_net_off r) (r_https_only r) (r_reserved r)
  | SetUsbNet on _ _ =>
      PolicyRec (r_magic r) (r_sig r) (r_lan r) (if on then 0 else 1) (r_https_only r) (r_reserved r)
  | SetHttpsOnly on _ _ _ =>
      PolicyRec (r_magic r) (r_sig r) (r_lan r) (r_usb_net_off r) (if on then 1 else 0) (r_reserved r)
  end.

(** Who may ask: nobody on the LAN (the USB network setting and HTTPS-only have
    their own rules), the cloud only for a stricter signature policy. *)
Definition op_allowed (r : pod_policy_rec_t) (o : policy_op) : Prop :=
  match o with
  | SetSig p src => 0 <= p <= 2 /\ src <> POLICY_SRC_LAN /\ (src = POLICY_SRC_CLOUD -> r_sig r <= p)
  | SetLan p src => 0 <= p <= 2 /\ src <> POLICY_SRC_LAN
  | SetUsbNet _ src usb => src = POLICY_SRC_USB \/ (src = POLICY_SRC_LAN /\ usb = true)
  | SetHttpsOnly on src usb tls => on = true \/ src <> POLICY_SRC_LAN \/ usb = true \/ tls = true
  end.

(** Enum arguments are C ints. *)
Definition op_args (o : policy_op) : Prop :=
  match o with SetSig p _ | SetLan p _ => -2147483648 <= p < 2147483648 | _ => True end.

#[local] Instance op_allowed_dec r o : Decision (op_allowed r o).
Proof. destruct o; cbn [op_allowed]; apply _. Defined.

Lemma target_rec_ok r o : rec_ok r -> op_allowed r o -> rec_ok (target_rec r o).
Proof.
  intros (? & ? & ? & ? & ? & ? & ?). destruct o as [p src|p src|on src usb|on src usb tls]; cbn; intros Ha;
    unfold rec_ok; cbn; try destruct on; split_and!; try done; lia.
Qed.

(** A setter in one equation: refused and untouched, unchanged, or a save. *)
Lemma run_policy_op_eq st o :
  rec_ok (s_rec st) -> op_args o ->
  (exists why, ~ op_allowed (s_rec st) o /\ run_policy_op st o = refused st why) \/
  (op_allowed (s_rec st) o /\ target_rec (s_rec st) o = s_rec st /\ run_policy_op st o = unchanged_ok st) \/
  (op_allowed (s_rec st) o /\ exists k, run_policy_op st o = save_then st (target_rec (s_rec st) o) k /\
    forall d pol, exists hooks, k (Policy d (target_rec (s_rec st) o) pol) =
      (Policy d (target_rec (s_rec st) o) (match o with SetSig p _ => p | _ => pol end), hooks)).
Proof.
  intros (Hm & Hs & Hl & Hu & Hh & _) Ha. destruct st as [d r pol]. cbn [s_rec] in *.
  destruct o as [p src|p src|on src usb|on src usb tls]; cbn [run_policy_op op_allowed target_rec op_args] in *.
  - unfold pod_policy_set_sig, pod_policy_sig. cbn [s_rec].
    destruct (Z.ltb_spec FW_SIG_POLICY_REQUIRED (u32 p)) as [Hp|Hp].
    { left. eexists. split; [|done]. intros [? _]. rewrite u32_id in Hp; lia. }
    assert (0 <= p <= 2) by (revert Hp; wrap_lia).
    destruct (src_is src POLICY_SRC_LAN) eqn:E1.
    { apply bool_decide_eq_true in E1. left. eexists. split; [|done]. by intros (_ & ? & _). }
    apply bool_decide_eq_false in E1.
    destruct (src_is src POLICY_SRC_CLOUD && (p <? r_sig r)) eqn:E2.
    { apply andb_true_iff in E2 as [E2 E3]. apply bool_decide_eq_true in E2. left. eexists.
      split; [|done]. intros (_ & _ & Hc). specialize (Hc E2). lia. }
    assert (0 <= p <= 2 /\ src <> POLICY_SRC_LAN /\ (src = POLICY_SRC_CLOUD -> r_sig r <= p)).
    { split_and!; try done; try lia. intros Hc. unfold src_is in E2. rewrite bool_decide_eq_true_2 in E2 by done.
      cbn [andb] in E2. lia. }
    destruct (Z.eqb_spec p (r_sig r)) as [->|]; [right; left; split_and!; try done; try lia; by destruct r|].
    right. right. split; [done|]. eexists. split; [rewrite u8_id by lia; done|]. intros d' pol'. by exists [].
  - unfold pod_policy_set_lan, pod_policy_lan. cbn [s_rec].
    destruct (Z.ltb_spec POD_LAN_OFF (u32 p)) as [Hp|Hp].
    { left. eexists. split; [|done]. intros [? _]. rewrite u32_id in Hp; lia. }
    assert (0 <= p <= 2) by (revert Hp; wrap_lia).
    destruct (src_is src POLICY_SRC_LAN) eqn:E1.
    { apply bool_decide_eq_true in E1. left. eexists. split; [|done]. by intros (_ & ?). }
    apply bool_decide_eq_false in E1.
    destruct (Z.eqb_spec p (r_lan r)) as [->|]; [right; left; split_and!; try done; try lia; by destruct r|].
    right. right. split; [done|]. eexists. split; [rewrite u8_id by lia; done|]. intros d' pol'. by eexists.
  - unfold pod_policy_set_usb_net, pod_policy_usb_net. cbn [s_rec].
    destruct (src_is src POLICY_SRC_CLOUD || src_is src POLICY_SRC_LAN && negb usb) eqn:E.
    { left. eexists. split; [|done]. unfold src_is in E. by destruct src, usb; intros [?|[? ?]]. }
    assert (src = POLICY_SRC_USB \/ src = POLICY_SRC_LAN /\ usb = true)
      by (unfold src_is in E; destruct src, usb; cbn in E; auto; done).
    destruct (Bool.eqb_spec on (r_usb_net_off r =? 0)) as [->|].
    + right. left. split_and!; try done. destruct r. cbn in *. f_equal. destruct (Z.eqb_spec r_usb_net_off 0); lia.
    + right. right. split; [done|]. eexists. split; [done|]. intros d' pol'. by eexists.
  - unfold pod_policy_set_https_only, pod_policy_https_only, pod_policy_lan_tls_gate. cbn [s_rec].
    destruct (negb on) eqn:En, (negb (src_is src POLICY_SRC_LAN) || usb || tls) eqn:Eg.
    2:{ left. eexists. split; [|done]. unfold src_is in Eg. by destruct src, usb, tls, on; intros [?|[?|[?|?]]]. }
    all: assert (Hal : on = true \/ src <> POLICY_SRC_LAN \/ usb = true \/ tls = true)
      by (unfold src_is in Eg; destruct src, usb, tls, on; cbn in *; auto; done).
    all: destruct (Bool.eqb_spec on (negb (r_https_only r =? 0))) as [->|];
      [right; left; split_and!; try done; destruct r; cbn in *; f_equal; destruct (Z.eqb_spec r_https_only 0); cbn; lia|].
    all: right; right; split; [done|]; eexists; split; [done|]; intros d' pol'; by eexists.
Qed.

(** A policy change either is refused, which happens exactly when the caller
    may not make it and leaves the record, the RAM and the network untouched, or
    it is in force and on the flash: a reboot straight after it comes back with
    exactly the requested record. *)
Theorem policy_change st o st' why hooks :
  synced st -> op_args o -> run_policy_op st o = (st', why, hooks) ->
  synced st' /\
  (why = None <-> op_allowed (s_rec st) o) /\
  (why = None -> s_rec st' = target_rec (s_rec st) o /\ s_policy st' = r_sig (s_rec st')) /\
  (why <> None -> st' = st /\ hooks = []).
Proof.
  intros Hs Ha E. pose proof Hs as (Hi & Hr & Hb).
  destruct (run_policy_op_eq st o Hr Ha) as [(w & Hn & Eq)|[(Hal & Ht & Eq)|(Hal & k & Eq & Hk)]]; rewrite Eq in E.
  - unfold refused in E. apply pair_equal_spec in E as [[<- <-]%pair_equal_spec <-].
    split_and!; [done|split; [done|by intros]|done|done].
  - unfold unchanged_ok in E. apply pair_equal_spec in E as [[<- <-]%pair_equal_spec <-].
    split_and!; [done|done| |done]. intros _. by rewrite Ht, (synced_policy st Hs).
  - pose proof (target_rec_ok _ _ Hr Hal) as Hr'.
    destruct (policy_save_ok st _ Hi Hr') as (d' & Esv & Hi' & Hb').
    unfold save_then in E. rewrite Esv in E. destruct (Hk d' (s_policy st)) as [hk Ek]. rewrite Ek in E.
    apply pair_equal_spec in E as [[<- <-]%pair_equal_spec <-]. cbn [s_rec s_policy pp_flash].
    assert (Ep : (match o with SetSig p _ => p | _ => s_policy st end) = r_sig (target_rec (s_rec st) o)).
    { rewrite (synced_policy st Hs). by destruct o. }
    split_and!; [|done|by intros _; rewrite Ep|done].
    unfold synced. cbn [s_rec pp_flash]. rewrite Hb', Ep. done.
Qed.

(** A power cut at any point of the save of a policy leaves a pod that boots
    with the old record or with the new one, never anything else, and whose
    store still keeps its promise. *)
Theorem policy_power_cut st r d' :
  synced st -> rec_ok r ->
  save_cut_at k_store (pp_flash st) (rec_bytes r) d' ->
  st_inv d' /\
  (s_rec (pod_policy_load (policy_boot d')) = s_rec st \/ s_rec (pod_policy_load (policy_boot d')) = r).
Proof.
  intros (Hi & Hr0 & Hb) Hr Hc. destruct (rec_payload r Hr) as [Hp Hne].
  destruct (st_cut _ _ _ Hp Hne Hi Hc) as [Hi' Hl]. rewrite rec_bytes_length in Hl by done.
  split; [done|]. destruct Hl as [Hl|Hl].
  - left. rewrite <- Hb. unfold pod_policy_load. cbn [pp_flash policy_boot s_rec]. by rewrite Hl.
  - right. by rewrite (policy_load_record d' r).
Qed.

End theorems.

(** ** What the LAN and the cloud can do, on any flash *)

Section authority.
Context `{FlashDev D}.
Implicit Types (st : policy_t D).

Definition op_src (o : policy_op) : policy_src_t :=
  match o with SetSig _ s | SetLan _ s | SetUsbNet _ s _ | SetHttpsOnly _ s _ _ => s end.
(** The connection is neither the USB link nor TLS. *)
Definition op_plain (o : policy_op) : Prop :=
  match o with
  | SetSig _ _ | SetLan _ _ => True
  | SetUsbNet _ _ usb => usb = false
  | SetHttpsOnly _ _ usb tls => usb = false /\ tls = false
  end.

Definition run_policy_ops st (l : list policy_op) : policy_t D :=
  fold_left (fun st o => fst (fst (run_policy_op st o))) l st.

(** What a setter can do to the record, whether or not the save works. *)
Lemma run_policy_op_rec st o :
  rec_ok (s_rec st) -> op_args o ->
  let st' := fst (fst (run_policy_op st o)) in
  s_rec st' = s_rec st \/ op_allowed (s_rec st) o /\ s_rec st' = target_rec (s_rec st) o.
Proof.
  intros Hr Ha st'. subst st'.
  destruct (run_policy_op_eq st o Hr Ha) as [(w & _ & ->)|[(_ & _ & ->)|(Hal & k & -> & Hk)]]; [by left..|].
  unfold save_then, policy_save. destruct (ab_store_save _ _ _) as [d rc].
  destruct (negb (rc =? 0)); [by left|]. right. split; [done|].
  destruct (Hk d (s_policy st)) as [hs ->]. done.
Qed.

(** A relation on records that every allowed change respects holds along any
    sequence of changes. *)
Lemma run_policy_ops_rel (R : pod_policy_rec_t -> pod_policy_rec_t -> Prop) (P : policy_op -> Prop) st l :
  (forall r, R r r) -> (forall r1 r2 r3, R r1 r2 -> R r2 r3 -> R r1 r3) ->
  (forall r o, rec_ok r -> P o -> op_allowed r o -> R r (target_rec r o)) ->
  rec_ok (s_rec st) -> Forall op_args l -> Forall P l ->
  R (s_rec st) (s_rec (run_policy_ops st l)).
Proof.
  intros Hrefl Htr Hstep Hr Ha Hp. revert st Hr. induction Ha as [|o l Ho Ha IH]; intros st Hr; [done|].
  apply Forall_cons in Hp as [Hpo Hp]. cbn [run_policy_ops fold_left].
  pose proof (run_policy_op_rec st o Hr Ho) as Hs. cbv zeta in Hs.
  set (st1 := fst (fst (run_policy_op st o))) in *. fold (run_policy_ops st1 l).
  assert (rec_ok (s_rec st1)).
  { destruct Hs as [->|[Hal ->]]; [done|by apply target_rec_ok]. }
  eapply Htr; [|by apply IH]. destruct Hs as [->|[Hal ->]]; [done|by apply Hstep].
Qed.

(** C13: Only physical presence loosens: whatever sequence of policy changes
    arrives from the LAN and the cloud, the signature policy never gets weaker,
    and a sequence from plaintext LAN connections alone changes neither policy
    nor the USB network and can turn HTTPS-only on but not off. This holds on
    any flash, working or not. *)
Theorem policy_authority st l :
  rec_ok (s_rec st) -> Forall op_args l ->
  (Forall (fun o => op_src o <> POLICY_SRC_USB) l ->
     r_sig (s_rec st) <= r_sig (s_rec (run_policy_ops st l))) /\
  (Forall (fun o => op_src o = POLICY_SRC_LAN /\ op_plain o) l ->
     r_sig (s_rec (run_policy_ops st l)) = r_sig (s_rec st) /\
     r_lan (s_rec (run_policy_ops st l)) = r_lan (s_rec st) /\
     r_usb_net_off (s_rec (run_policy_ops st l)) = r_usb_net_off (s_rec st) /\
     r_https_only (s_rec st) <= r_https_only (s_rec (run_policy_ops st l))).
Proof.
  intros Hr Ha. split; intros Hp.
  - refine (run_policy_ops_rel (fun r r' => r_sig r <= r_sig r') _ st l _ _ _ Hr Ha Hp); [lia|lia|].
    intros r [p src|p src|on src usb|on src usb tls] _ Hs; cbn in *; try lia.
    intros (? & ? & Hc). destruct src; [done|by apply Hc|done].
  - refine (run_policy_ops_rel (fun r r' => r_sig r' = r_sig r /\ r_lan r' = r_lan r /\
      r_usb_net_off r' = r_usb_net_off r /\ r_https_only r <= r_https_only r') _ st l _ _ _ Hr Ha Hp).
    + intros r. split_and!; lia.
    + intros r1 r2 r3 (? & ? & ? & ?) (? & ? & ? & ?). split_and!; lia.
    + intros r [p src|p src|on src usb|on src usb tls] Hok [Hsrc Hpl]; cbn in *; subst src.
      * by intros (_ & ? & _).
      * by intros (_ & ?).
      * subst usb. by intros [?|[_ ?]].
      * destruct Hpl as [-> ->]. intros [->|[?|[?|?]]]; [|done..].
        destruct Hok as (_ & _ & _ & _ & Hh & _). split_and!; lia.
Qed.

End authority.

(** ** The tier table and the handlers agree on what is a read *)

(** A policy command whose line the tier table classifies as a read (T0)
    changes nothing: its handler takes no branch that writes a policy, calls the
    network or replaces the certificate, although handler and table read the
    line through buffers of different sizes. *)
Theorem policy_reads_change_nothing `{FlashDev D} (st : policy_t D) conn_id usb tls json :
  (cmd_tier (str "sig_policy") (Some json) = CMD_TIER_T0 -> handle_sig_policy st conn_id json = unchanged_ok st) /\
  (cmd_tier (str "lan_policy") (Some json) = CMD_TIER_T0 -> handle_lan_policy st conn_id json = unchanged_ok st) /\
  (cmd_tier (str "usb_network") (Some json) = CMD_TIER_T0 -> handle_usb_network st conn_id usb json = unchanged_ok st) /\
  (cmd_tier (str "lan_tls") (Some json) = CMD_TIER_T0 -> handle_lan_tls st conn_id usb tls json = (unchanged_ok st, false)).
Proof.
  assert (Hv : forall v d, cmd_find (str v) = Some d -> cmd_has (Some d) CMD_F_MIXED = true -> d_name d = str v ->
    cmd_tier (str v) (Some json) = CMD_TIER_T0 -> mixed_write (str v) (Some json) = false).
  { intros v d E Em En. unfold cmd_tier. rewrite E. cbn [cmd_tier_of]. rewrite Em, En. cbn [andb].
    by destruct (mixed_write _ _). }
  split_and!; intros Ht; (eapply Hv in Ht; [|vm_compute; reflexivity..]).
  - change (has_val json "set" = false) in Ht. unfold handle_sig_policy. unfold has_val, val16 in Ht. by rewrite Ht.
  - change (has_val json "set" = false) in Ht. unfold handle_lan_policy. unfold has_val, val16 in Ht. by rewrite Ht.
  - change (has_val json "set" = false) in Ht. unfold handle_usb_network, has_val, val16, bp_json_get in *.
    destruct (json_get_prefix 8 16 json (str "set") false) as [-> _]; [lia|]. by rewrite Ht.
  - change (has_val json "https_only" || val_is json "regenerate" "true" = false) in Ht.
    apply orb_false_iff in Ht as [H1 H2]. unfold handle_lan_tls, has_val, val_is, val16 in *.
    rewrite <- (json_get_is 8 16) in H2 by (cbn; lia). unfold bp_json_get in *.
    destruct (json_get_prefix 8 16 json (str "https_only") false) as [E1 _]; [lia|].
    destruct (json_get_prefix 8 16 json (str "regenerate") false) as [E2 _]; [lia|].
    rewrite <- E1 in H1. rewrite <- E2 in H2. rewrite H1. cbn [unchanged_ok]. by rewrite H2.
Qed.

(** ** A concrete pod *)

#[export] Instance pod_promise : StorePromise k_store pod_flash := ab_store_promise k_store k_store_wf.

Definition pod_fresh : policy_t pod_flash := pod_policy_load (policy_boot pod_blank).

Lemma pod_fresh_synced : synced pod_fresh.
Proof.
  split; [exact pod_blank_inv|]. split; [|reflexivity].
  refine (bool_decide_unpack _ _); vm_compute; exact I.
Qed.

Lemma policy_change_witness :
  let r := run_policy_op pod_fresh (SetLan POD_LAN_LOCKED POLICY_SRC_CLOUD) in
  synced (fst (fst r)) /\ s_rec (fst (fst r)) = target_rec (s_rec pod_fresh) (SetLan POD_LAN_LOCKED POLICY_SRC_CLOUD).
Proof.
  intros r. destruct r as [[st' why] hooks] eqn:E.
  destruct (policy_change pod_fresh (SetLan POD_LAN_LOCKED POLICY_SRC_CLOUD) st' why hooks pod_fresh_synced) as (H1 & H2 & H3 & _).
  - cbn. lia.
  - exact E.
  - split; [exact H1|]. apply H3. apply H2. cbn. split; [lia|discriminate].
Defined.

Lemma policy_power_cut_witness :
  let r := target_rec s_rec_init (SetSig FW_SIG_POLICY_REQUIRED POLICY_SRC_USB) in
  let d' := run_op pod_blank (FErase POD_POLICY_SLOT_A_OFFSET) in
  s_rec (pod_policy_load (policy_boot d')) = s_rec pod_fresh \/ s_rec (pod_policy_load (policy_boot d')) = r.
Proof.
  intros r d'. apply (policy_power_cut pod_fresh r d').
  - exact pod_fresh_synced.
  - refine (bool_decide_unpack _ _); vm_compute; exact I.
  - right. exists 0%nat, 1. split; [vm_compute; reflexivity|].
    exists [], (FErase POD_POLICY_SLOT_A_OFFSET), (tail (record_ops k_store 0 1 (rec_bytes r))).
    split; [reflexivity|]. apply erase_is_cut. vm_compute. repeat split; discriminate.
Defined.

Lemma policy_authority_witness :
  let l := [SetSig 0 POLICY_SRC_LAN; SetHttpsOnly true POLICY_SRC_LAN false false; SetHttpsOnly false POLICY_SRC_LAN false false] in
  r_https_only (s_rec pod_fresh) <= r_https_only (s_rec (run_policy_ops pod_fresh l)).
Proof.
  intros l. apply (policy_authority pod_fresh l).
  - apply pod_fresh_synced.
  - repeat constructor; cbn; lia.
  - repeat constructor.
Defined.

Lemma policy_reads_change_nothing_witness :
  cmd_tier (str "lan_policy") (Some [LBRACE; RBRACE]) = CMD_TIER_T0 /\
  handle_lan_policy pod_fresh 0 [LBRACE; RBRACE] = unchanged_ok pod_fresh.
Proof.
  assert (E : cmd_tier (str "lan_policy") (Some [LBRACE; RBRACE]) = CMD_TIER_T0) by (vm_compute; reflexivity).
  split; [exact E|]. apply (policy_reads_change_nothing pod_fresh 0 false false [LBRACE; RBRACE]). exact E.
Defined.
