(* ===== verification/BootGuard.v ===== *)
(** * Failed boots and safe mode ([boot_guard.c], [boot_policy.c])

    The record in .noinit RAM survives every reset but a power-on; the rest is
    ordinary RAM, set up again by [boot_guard_begin]. A boot is that call, the
    calls the boot makes, and a reset. *)

From S2P Require Import Prelude.

(** ** [boot_policy.c] *)

Abbreviation BOOT_SUB_NET := 1.
Abbreviation BOOT_SUB_HW := 2.
Abbreviation BOOT_SUB_ALL := 3.

(** [crash_task] is the name in the fault record; [None] is NULL. *)
Definition boot_policy_culprit (started done : Z) (crash_task : option cstr) : Z :=
  match crash_task with
  | Some t =>
      if streq t (str "net") then BOOT_SUB_NET
      else if streq t (str "hw") then BOOT_SUB_HW
      else Z.land (Z.land started (not32 done)) BOOT_SUB_ALL
  | None => Z.land (Z.land started (not32 done)) BOOT_SUB_ALL
  end.

Definition boot_policy_off (prev_off culprit : Z) : Z :=
  let prev_off := Z.land prev_off BOOT_SUB_ALL in
  if negb (culprit =? 0) then Z.lor prev_off culprit
  else if negb (prev_off =? 0) then prev_off else BOOT_SUB_ALL.

Definition boot_policy_off_str (off : Z) : cstr :=
  let o := Z.land off BOOT_SUB_ALL in
  if o =? BOOT_SUB_NET then str "network"
  else if o =? BOOT_SUB_HW then str "iCE40/PSRAM"
  else str "network and iCE40/PSRAM".

Definition boot_policy_gateware_image (running embedded : Z) (running_is_deep configured : bool) : Z :=
  if negb configured then 0
  else if (running =? 0) || (embedded =? 0) || (running =? embedded) then -1
  else if running_is_deep then 1 else 0.

(** ** [boot_guard.c] *)

Abbreviation BOOT_STAGE_NONE := 0.
Abbreviation BOOT_STAGE_NET_INIT := 5.
Abbreviation BOOT_STAGE_HW_INIT := 6.
Abbreviation BOOT_STAGE_RUNNING := 7.
Abbreviation BOOT_STAGE_COUNT := 8.
Abbreviation BOOT_GUARD_SAFE_AFTER := 2.
Abbreviation BOOT_GUARD_MAGIC := 0x42475232.
Abbreviation BOOT_TEST_MAGIC := 0x544c4f4f.

Record boot_record_t := BootRecord {
  b_magic : Z; b_failed : Z; b_stage : Z; b_last_stage : Z; b_started : Z; b_done : Z; b_off : Z;
}.

(** The deliberate boot-loop test, also in .noinit. *)
Record boot_test_t := BootTest { t_magic : Z; t_left : Z; t_sub : Z }.

Record guard_t := Guard {
  s_rec : boot_record_t;     (* .noinit *)
  s_test : boot_test_t;      (* .noinit *)
  s_safe : bool;
  s_off : Z;
  s_hw_ready : bool;
  s_prior_failed : Z;
  s_report : cstr;
}.

Definition s_names : list cstr :=
  [str "start"; str "early hardware"; str "device identity"; str "usb"; str "starting tasks"; str "network";
   str "ice40/psram"; str "running"].
Definition stage_name (i : Z) : cstr := nth (Z.to_nat i) s_names [].

Definition SAFE_PREFIX : cstr := str "safe mode: ".

Definition safe_report (failed : Z) (where_ : cstr) (off : Z) : cstr :=
  snprintf_cut 128 (SAFE_PREFIX ++ dec failed ++ str " failed boots in a row, the last in " ++ [34] ++ where_ ++
                    [34] ++ str "; " ++ boot_policy_off_str off ++ str " off").

Definition boot_test_loop_end (t : boot_test_t) : boot_test_t := BootTest 0 (t_left t) (t_sub t).

(** From what .noinit holds; the other variables start from zero. *)
Definition boot_guard_begin (nr : boot_record_t) (nt : boot_test_t) (fresh_start : bool) (crash_task : option cstr)
    : guard_t :=
  let '(failed, last, started, done, prev_off) :=
    if negb fresh_start && (b_magic nr =? BOOT_GUARD_MAGIC)
    then (b_failed nr, if b_stage nr <? BOOT_STAGE_COUNT then b_stage nr else BOOT_STAGE_NONE,
          b_started nr, b_done nr, b_off nr)
    else (0, BOOT_STAGE_NONE, 0, 0, 0) in
  let culprit := boot_policy_culprit started done crash_task in
  let '(safe, off, report, test) :=
    if BOOT_GUARD_SAFE_AFTER <=? failed then
      let off := boot_policy_off prev_off culprit in
      let where_ := if culprit =? BOOT_SUB_NET then stage_name BOOT_STAGE_NET_INIT
                    else if culprit =? BOOT_SUB_HW then stage_name BOOT_STAGE_HW_INIT
                    else stage_name last in
      (true, off, safe_report failed where_ off, boot_test_loop_end nt)
    else (false, 0, [], nt) in
  Guard (BootRecord BOOT_GUARD_MAGIC (u32 (failed + 1)) BOOT_STAGE_NONE last 0 0 off) test safe off false failed report.

Definition with_rec (g : guard_t) (r : boot_record_t) : guard_t :=
  Guard r (s_test g) (s_safe g) (s_off g) (s_hw_ready g) (s_prior_failed g) (s_report g).
Definition with_test (g : guard_t) (t : boot_test_t) : guard_t :=
  Guard (s_rec g) t (s_safe g) (s_off g) (s_hw_ready g) (s_prior_failed g) (s_report g).

Definition boot_guard_stage (g : guard_t) (stage : Z) : guard_t :=
  let r := s_rec g in
  with_rec g (BootRecord (b_magic r) (b_failed r) stage (b_last_stage r) (b_started r) (b_done r) (b_off r)).

Definition boot_guard_sub_start (g : guard_t) (sub : Z) : guard_t :=
  let r := s_rec g in
  with_rec g (BootRecord (b_magic r) (b_failed r) (b_stage r) (b_last_stage r) (Z.lor (b_started r) sub)
                (b_done r) (b_off r)).

Definition boot_guard_sub_done (g : guard_t) (sub : Z) : guard_t :=
  let r := s_rec g in
  with_rec g (BootRecord (b_magic r) (b_failed r) (b_stage r) (b_last_stage r) (b_started r)
                (Z.lor (b_done r) sub) (b_off r)).

Definition boot_guard_safe_mode (g : guard_t) : bool := s_safe g.
Definition boot_guard_skip_net (g : guard_t) : bool := negb (Z.land (s_off g) BOOT_SUB_NET =? 0).
Definition boot_guard_skip_hw (g : guard_t) : bool := negb (Z.land (s_off g) BOOT_SUB_HW =? 0).

Definition boot_guard_healthy (g : guard_t) : guard_t :=
  if s_safe g then g
  else
    let r := s_rec g in
    with_rec g (BootRecord (b_magic r) 0 BOOT_STAGE_RUNNING (b_last_stage r) (b_started r) (b_done r) (b_off r)).

Definition boot_guard_planned_reset (g : guard_t) (planned : bool) : guard_t :=
  if s_safe g then g
  else
    let r := s_rec g in
    with_rec g (BootRecord (b_magic r) (if planned then s_prior_failed g else u32 (s_prior_failed g + 1))
                  (b_stage r) (b_last_stage r) (b_started r) (b_done r) (b_off r)).

Definition boot_guard_report (g : guard_t) : cstr := s_report g.
Definition boot_guard_reason (g : guard_t) : cstr :=
  if negb (deref (s_report g) =? 0) then drop (length SAFE_PREFIX) (s_report g) else [].

Definition boot_hw_ready (g : guard_t) : bool := s_hw_ready g.
Definition boot_guard_set_hw_ready (g : guard_t) : guard_t :=
  Guard (s_rec g) (s_test g) (s_safe g) (s_off g) true (s_prior_failed g) (s_report g).

Definition boot_guard_arm_test_loop (g : guard_t) (boots sub : Z) : guard_t :=
  with_test g (BootTest BOOT_TEST_MAGIC boots sub).

(** The new state, and whether it crashes on purpose here. *)
Definition boot_guard_test_loop_point (g : guard_t) (sub : Z) : guard_t * bool :=
  let t := s_test g in
  if negb (t_magic t =? BOOT_TEST_MAGIC) || negb (t_sub t =? sub) then (g, false)
  else if s_safe g || (t_left t =? 0) then (with_test g (boot_test_loop_end t), false)
  else (with_test g (BootTest (t_magic t) (u32 (t_left t - 1)) (t_sub t)), true).

(** ** Boots in sequence *)

Inductive boot_ev :=
| Stage (stage : Z) | SubStart (sub : Z) | SubDone (sub : Z) | Healthy | PlannedReset (planned : bool)
| HwReady | ArmTest (boots sub : Z) | TestPoint (sub : Z).

Definition boot_step (g : guard_t) (e : boot_ev) : guard_t :=
  match e with
  | Stage s => boot_guard_stage g s
  | SubStart u => boot_guard_sub_start g u
  | SubDone u => boot_guard_sub_done g u
  | Healthy => boot_guard_healthy g
  | PlannedReset p => boot_guard_planned_reset g p
  | HwReady => boot_guard_set_hw_ready g
  | ArmTest n u => boot_guard_arm_test_loop g n u
  | TestPoint u => fst (boot_guard_test_loop_point g u)
  end.
Definition run_boot (g : guard_t) (evs : list boot_ev) : guard_t := fold_left boot_step evs g.

(** A reset: power-on or button ([fresh]), or a crash, watchdog or software
    reset that keeps .noinit. *)
Definition reset (g : guard_t) (fresh : bool) (crash_task : option cstr) : guard_t :=
  boot_guard_begin (s_rec g) (s_test g) fresh crash_task.

(** A history: what each boot does, and the crash task its reset leaves. *)
Definition run_boots (g : guard_t) (h : list (list boot_ev * option cstr)) : guard_t :=
  fold_left (fun g b => reset (run_boot g (fst b)) false (snd b)) h g.
