(* ===== verification/BootTheorems.v ===== *)
(** * Safe mode engages, persists and does not misfire *)

From S2P Require Import Prelude BootGuard.

(** ** What the calls of a boot keep *)

(** Calls of a boot that fails: neither healthy nor a planned reset. *)
Definition quiet (e : boot_ev) : bool :=
  match e with Healthy | PlannedReset _ => false | _ => true end.

(** Magic and the set turned off stay as [boot_guard_begin] wrote them. *)
Lemma step_keeps g e :
  b_magic (s_rec (boot_step g e)) = b_magic (s_rec g) /\ b_off (s_rec (boot_step g e)) = b_off (s_rec g) /\
  s_safe (boot_step g e) = s_safe g /\ s_off (boot_step g e) = s_off g /\
  s_prior_failed (boot_step g e) = s_prior_failed g /\
  (quiet e = true \/ s_safe g = true -> b_failed (s_rec (boot_step g e)) = b_failed (s_rec g)).
Proof.
  destruct e; cbn [boot_step]; try (split_and!; done).
  - unfold boot_guard_healthy. destruct (s_safe g) eqn:E; split_and!; try done. by intros [?|?].
  - unfold boot_guard_planned_reset. destruct (s_safe g) eqn:E; split_and!; try done. by intros [?|?].
  - unfold boot_guard_test_loop_point. repeat case_match; split_and!; done.
Qed.

Lemma run_boot_keeps g evs :
  b_magic (s_rec (run_boot g evs)) = b_magic (s_rec g) /\ b_off (s_rec (run_boot g evs)) = b_off (s_rec g) /\
  s_safe (run_boot g evs) = s_safe g /\ s_off (run_boot g evs) = s_off g /\
  s_prior_failed (run_boot g evs) = s_prior_failed g /\
  (forallb quiet evs = true \/ s_safe g = true -> b_failed (s_rec (run_boot g evs)) = b_failed (s_rec g)).
Proof.
  revert g. induction evs as [|e evs IH]; intros g; [by split_and!|]. cbn [run_boot fold_left].
  fold (run_boot (boot_step g e) evs). destruct (step_keeps g e) as (E1 & E2 & E3 & E4 & E5 & E6).
  destruct (IH (boot_step g e)) as (F1 & F2 & F3 & F4 & F5 & F6). rewrite E3 in F3, F6.
  split_and!; [congruence..|]. cbn [forallb]. rewrite andb_true_iff. intros Hq.
  rewrite F6, E6; [done|..]; tauto.
Qed.

(** A reset that keeps .noinit, in one equation. *)
Lemma reset_soft g task :
  b_magic (s_rec g) = BOOT_GUARD_MAGIC ->
  let f := b_failed (s_rec g) in
  let g' := reset g false task in
  b_magic (s_rec g') = BOOT_GUARD_MAGIC /\ b_failed (s_rec g') = u32 (f + 1) /\ s_prior_failed g' = f /\
  b_off (s_rec g') = s_off g' /\ s_safe g' = (2 <=? f) /\
  s_off g' = if 2 <=? f
             then boot_policy_off (b_off (s_rec g)) (boot_policy_culprit (b_started (s_rec g)) (b_done (s_rec g)) task)
             else 0.
Proof.
  intros Hm. unfold reset, boot_guard_begin. rewrite Hm. cbn [negb andb]. rewrite Z.eqb_refl.
  destruct (2 <=? b_failed (s_rec g)); cbn; split_and!; done.
Qed.

Lemma reset_fresh g task :
  let g' := reset g true task in
  b_magic (s_rec g') = BOOT_GUARD_MAGIC /\ b_failed (s_rec g') = 1 /\ s_prior_failed g' = 0 /\
  s_safe g' = false /\ s_off g' = 0 /\ b_off (s_rec g') = 0.
Proof. cbv zeta. unfold reset, boot_guard_begin. cbn [negb andb]. split_and!; done. Qed.

(** ** Which subsystems go off *)

Lemma land_all_range x : 0 <= x -> 0 <= Z.land x 3 <= 3.
Proof. intros. rewrite Z.land_comm. apply land_bound; lia. Qed.

Lemma culprit_range s d task : 0 <= s < 4294967296 -> 0 <= d < 4294967296 -> 0 <= boot_policy_culprit s d task <= 3.
Proof.
  intros Hs Hd. pose proof (not32_range d Hd).
  assert (0 <= Z.land (Z.land s (not32 d)) 3 <= 3) by (apply land_all_range, Z.land_nonneg; lia).
  unfold boot_policy_culprit. repeat case_match; lia.
Qed.

(** A finite check: the sets off before and after, and the culprit. *)
Lemma off_table p c :
  0 <= p <= 3 -> 0 <= c <= 3 ->
  1 <= boot_policy_off p c <= 3 /\ Z.land p (boot_policy_off p c) = p /\ Z.land c (boot_policy_off p c) = c.
Proof.
  intros Hp Hc. assert (p = 0 \/ p = 1 \/ p = 2 \/ p = 3) as [->|[->|[->| ->]]] by lia;
    assert (c = 0 \/ c = 1 \/ c = 2 \/ c = 3) as [->|[->|[->| ->]]] by lia; vm_compute; repeat split; discriminate.
Qed.

(** Words stay words: what the flags and masks of a boot are. *)
Definition ev_ok (e : boot_ev) : Prop :=
  match e with SubStart u | SubDone u => 0 <= u < 4294967296 | _ => True end.
Definition rec_ok (r : boot_record_t) : Prop :=
  0 <= b_started r < 4294967296 /\ 0 <= b_done r < 4294967296 /\ 0 <= b_off r <= 3 /\ 0 <= b_failed r < 4294967296.

Lemma begin_rec_ok nr nt fresh task : rec_ok nr -> rec_ok (s_rec (boot_guard_begin nr nt fresh task)).
Proof.
  intros (H1 & H2 & H3 & H4). unfold boot_guard_begin.
  destruct (negb fresh && (b_magic nr =? BOOT_GUARD_MAGIC)).
  - pose proof (culprit_range (b_started nr) (b_done nr) task H1 H2) as Hc.
    pose proof (off_table (b_off nr) _ H3 Hc) as [Ho _].
    destruct (2 <=? b_failed nr); unfold rec_ok; cbn; pose proof (u32_range (b_failed nr + 1)); split_and!; lia.
  - vm_compute. repeat split; discriminate.
Qed.

Lemma step_rec_ok g e :
  ev_ok e -> 0 <= s_prior_failed g < 4294967296 -> rec_ok (s_rec g) -> rec_ok (s_rec (boot_step g e)).
Proof.
  intros He Hp (H1 & H2 & H3 & H4). unfold rec_ok. destruct e; cbn [boot_step ev_ok] in *; try (cbn; done).
  - cbn. split_and!; try lia; apply (lor_bound 32); lia.
  - cbn. split_and!; try lia; apply (lor_bound 32); lia.
  - unfold boot_guard_healthy. destruct (s_safe g); cbn; lia.
  - unfold boot_guard_planned_reset. pose proof (u32_range (s_prior_failed g + 1)).
    destruct (s_safe g), planned; cbn; lia.
  - unfold boot_guard_test_loop_point. repeat case_match; cbn; done.
Qed.

Lemma run_boot_rec_ok g evs :
  Forall ev_ok evs -> 0 <= s_prior_failed g < 4294967296 -> rec_ok (s_rec g) -> rec_ok (s_rec (run_boot g evs)).
Proof.
  intros Hev. revert g. induction Hev as [|e evs He Hev IH]; intros g Hp Hr; [done|].
  cbn [run_boot fold_left]. apply IH; [|by apply step_rec_ok].
  destruct (step_keeps g e) as (_ & _ & _ & _ & -> & _). done.
Qed.

(** ** A crash loop *)

(** The state right after a reset: the record's count is one more than the
    count the boot started from, and safe mode is exactly "two or more". *)
Definition booted (g : guard_t) (n : Z) : Prop :=
  b_magic (s_rec g) = BOOT_GUARD_MAGIC /\ rec_ok (s_rec g) /\ s_prior_failed g = n /\
  b_failed (s_rec g) = n + 1 /\ s_safe g = (2 <=? n) /\ b_off (s_rec g) = s_off g.

Lemma booted_fresh g task : rec_ok (s_rec g) -> booted (reset g true task) 0.
Proof.
  intros Hr. destruct (reset_fresh g task) as (E1 & E2 & E3 & E4 & E5 & E6).
  by split_and!.
Qed.

Lemma booted_next g n evs task :
  booted g n -> Forall ev_ok evs -> 0 <= n -> n + 2 < 4294967296 ->
  forallb quiet evs = true \/ s_safe g = true ->
  booted (reset (run_boot g evs) false task) (n + 1).
Proof.
  intros (Hm & Hr & Hp & Hf & Hs & Ho) Hev Hn Hb Hq.
  destruct (run_boot_keeps g evs) as (E1 & E2 & E3 & E4 & E5 & E6). specialize (E6 Hq).
  assert (Hr' : rec_ok (s_rec (run_boot g evs))) by (apply run_boot_rec_ok; [done|lia|done]).
  destruct (reset_soft (run_boot g evs) task) as (F1 & F2 & F3 & F4 & F5 & F6); [congruence|].
  rewrite E6, Hf in *. split_and!; try done; [by apply begin_rec_ok|].
  rewrite F2, u32_id; lia.
Qed.

Lemma booted_run g n h :
  booted g n -> 0 <= n -> n + Z.of_nat (length h) + 1 < 4294967296 ->
  Forall (fun b => Forall ev_ok (fst b)) h ->
  Forall (fun b => forallb quiet (fst b) = true) h \/ 2 <= n ->
  booted (run_boots g h) (n + Z.of_nat (length h)).
Proof.
  intros Hg Hn Hb Hev Hq. revert g n Hg Hn Hb Hq.
  induction Hev as [|[evs task] h Hev1 Hev IH]; intros g n Hg Hn Hb Hq; [by replace (n + _) with n by (cbn; lia)|].
  cbn [length run_boots fold_left fst snd] in *. fold (run_boots (reset (run_boot g evs) false task) h).
  replace (n + Z.of_nat (S (length h))) with (n + 1 + Z.of_nat (length h)) by lia.
  assert (Hq1 : forallb quiet evs = true \/ s_safe g = true).
  { destruct Hq as [Hq|Hq]; [by apply Forall_cons in Hq as [? _]; left|right].
    destruct Hg as (_ & _ & _ & _ & -> & _). lia. }
  apply IH; [apply booted_next; (done || lia)|lia|lia|].
  destruct Hq as [Hq|Hq]; [left; by apply Forall_cons in Hq as [_ ?]|right; lia].
Qed.

Lemma run_boots_app g h b :
  run_boots g (h ++ [b]) = reset (run_boot (run_boots g h) (fst b)) false (snd b).
Proof. unfold run_boots. by rewrite fold_left_app. Qed.


Definition noinit_garbage : guard_t :=
  Guard (BootRecord 0xDEADBEEF 77 3 1 0xFFFFFFFF 5 2) (BootTest 1 2 3) false 0 false 0 [].


(** Safe mode lasts until a power-on or the reset button: whatever a safe
    boot does (coming up, planned resets) and however it resets, the next boots
    are safe too, and never turn back on what was off. *)
Theorem safe_mode_persists g n h :
  booted g n -> 2 <= n -> n + Z.of_nat (length h) + 1 < 4294967296 ->
  Forall (fun b => Forall ev_ok (fst b)) h ->
  s_safe (run_boots g h) = true /\ Z.land (s_off g) (s_off (run_boots g h)) = s_off g.
Proof.
  intros Hg Hn Hb Hev.
  assert (Hmain : forall k, (k <= length h)%nat -> Z.land (s_off g) (s_off (run_boots g (take k h))) = s_off g).
  2:{ split; [|specialize (Hmain (length h)); rewrite take_ge in Hmain by done; by apply Hmain].
      destruct (booted_run g n h Hg) as (_ & _ & _ & _ & -> & _); try done; [lia|by right|lia]. }
  induction k as [|k IH]; intros Hk; [apply Z.land_diag|].
  destruct (lookup_lt_is_Some_2 h k) as [[evs task] Hl]; [lia|].
  rewrite (take_S_r _ _ _ Hl), run_boots_app. specialize (IH ltac:(lia)). cbn [fst snd].
  set (gk := run_boots g (take k h)) in *.
  assert (Hgk : booted gk (n + Z.of_nat k)).
  { assert (El : length (take k h) = k) by (rewrite length_take; lia).
    rewrite <- El at 1. apply booted_run; [done|lia|rewrite El; lia|by apply Forall_take|by right]. }
  destruct Hgk as (Hm & Hr & Hp & Hf & Hs & Ho).
  assert (Hs' : s_safe gk = true) by (rewrite Hs; lia).
  destruct (run_boot_keeps gk evs) as (E1 & E2 & _ & _ & _ & E6). specialize (E6 (or_intror Hs')).
  assert (Hevk : Forall ev_ok evs) by (eapply (Forall_lookup_1 _ h k (evs, task)) in Hev; done).
  assert (Hr1 : rec_ok (s_rec (run_boot gk evs))) by (apply run_boot_rec_ok; [done|lia|done]).
  destruct (reset_soft (run_boot gk evs) task) as (_ & _ & _ & _ & _ & F6); [congruence|].
  rewrite E6, Hf in F6. destruct (Z.leb_spec 2 (n + Z.of_nat k + 1)); [|lia].
  destruct Hr1 as (H1 & H2 & H3 & _). pose proof (culprit_range _ _ task H1 H2) as Hc.
  destruct (off_table _ _ H3 Hc) as (_ & Hm1 & _). rewrite <- F6, E2, Ho in Hm1.
  rewrite <- IH at 1. rewrite <- Z.land_assoc, Hm1. exact IH.
Qed.

Lemma safe_mode_persists_witness :
  let g := run_boots (reset noinit_garbage true None) [([], Some (str "net")); ([], Some (str "net"))] in
  s_safe (run_boots g [([Healthy; PlannedReset true], None)]) = true /\
  Z.land (s_off g) (s_off (run_boots g [([Healthy; PlannedReset true], None)])) = s_off g.
Proof.
  intros g. apply (safe_mode_persists g 2).
  - vm_compute. repeat split; discriminate.
  - lia.
  - cbn. lia.
  - repeat constructor.
Defined.

(** A boot that came up and was not reset on purpose, or ended in a reset
    somebody asked for. *)
Definition good_boot (evs : list boot_ev) : Prop :=
  exists evs1 e evs2, evs = evs1 ++ e :: evs2 /\ forallb quiet evs2 = true /\ (e = Healthy \/ e = PlannedReset true).

Lemma good_boot_failed g evs :
  good_boot evs -> s_safe g = false -> s_prior_failed g = 0 -> b_failed (s_rec (run_boot g evs)) = 0.
Proof.
  intros (evs1 & e & evs2 & -> & Hq & He) Hs Hp. unfold run_boot. rewrite fold_left_app. cbn [fold_left].
  fold (run_boot g evs1). set (g1 := run_boot g evs1). fold (run_boot (boot_step g1 e) evs2).
  destruct (run_boot_keeps g evs1) as (_ & _ & E3 & _ & E5 & _).
  destruct (run_boot_keeps (boot_step g1 e) evs2) as (_ & _ & _ & _ & _ & ->); [|by left].
  destruct He as [-> | ->]; cbn [boot_step]; unfold boot_guard_healthy, boot_guard_planned_reset;
    subst g1; rewrite E3, Hs; cbn [s_rec with_rec b_failed]; congruence.
Qed.

(** No false alarm: as long as every boot since the power-on came up and was
    not reset on purpose, or ended in a reset somebody asked for, no boot is a
    safe one. *)
Theorem no_false_alarm g t0 h :
  Forall (fun b => good_boot (fst b)) h -> s_safe (run_boots (reset g true t0) h) = false.
Proof.
  intros Hh.
  assert (Hg : b_magic (s_rec (reset g true t0)) = BOOT_GUARD_MAGIC /\ s_prior_failed (reset g true t0) = 0 /\
    s_safe (reset g true t0) = false) by (destruct (reset_fresh g t0) as (? & ? & ? & ? & _); auto).
  revert Hg. generalize (reset g true t0). clear g t0. induction Hh as [|[evs task] h Hb Hh IH]; intros g (Hm & Hp & Hs); [done|].
  cbn [run_boots fold_left fst snd] in *. apply IH. destruct (run_boot_keeps g evs) as (E1 & _).
  destruct (reset_soft (run_boot g evs) task) as (F1 & F2 & F3 & F4 & F5 & F6); [congruence|].
  rewrite (good_boot_failed g evs Hb Hs Hp) in F3, F5. done.
Qed.

Lemma no_false_alarm_witness :
  s_safe (run_boots (reset noinit_garbage true None) [([Stage 5; Healthy; Stage 7], None); ([PlannedReset true], None)]) = false.
Proof.
  apply no_false_alarm. constructor; [|constructor; [|constructor]].
  - exists [Stage 5], Healthy, [Stage 7]. repeat split; auto.
  - exists [], (PlannedReset true), []. repeat split; auto.
Defined.

(** The count is not of boots in a row: a boot that came up and is then reset on
    purpose hands on the failure counted before it. Here two crashes are
    separated by two boots that came up, and the next boot is safe. *)
Example healthy_boots_between_crashes :
  let up := ([Healthy; PlannedReset true], None) in
  let crash := ([], Some []) in
  boot_guard_reason (run_boots (reset noinit_garbage true None) [crash; up; up; crash]) =
    str "2 failed boots in a row, the last in " ++ [34] ++ str "start" ++ [34] ++ str "; network and iCE40/PSRAM off".
Proof. vm_compute. reflexivity. Qed.

(** A reset that was asked for and did not happen makes a boot that came up
    count as failed. *)
Example cancelled_reset_counts :
  b_failed (s_rec (run_boot (reset noinit_garbage true None) [Healthy; PlannedReset true; PlannedReset false])) = 1.
Proof. vm_compute. reflexivity. Qed.
