(* ===== verification/Recovery.v ===== *)
(** * The recovery ladder ([recovery.c])

    Decisions only: given how long captures have failed and the Ethernet link
    has been down, which step to take now. Times are the low 32 bits of a
    millisecond clock. *)

From S2P Require Import Prelude.

Abbreviation RECOVERY_FAIL_MS := 10000.
Abbreviation RECOVERY_RELOAD_GAP_MS := 30000.
Abbreviation RECOVERY_RELOADS_PER_EPISODE := 2.
Abbreviation RECOVERY_RELOADS_PER_HOUR := 6%nat.
Abbreviation RECOVERY_RESETS_MAX := 2.
Abbreviation RECOVERY_HEALTHY_MS := 600000.
Abbreviation RECOVERY_LINK_DOWN_MS := 20000.
Abbreviation RECOVERY_ETH_GAP_MS := 60000.
Abbreviation RECOVERY_ETH_PER_HOUR := 10%nat.
Abbreviation RECOVERY_HOUR_MS := 3600000.

Inductive recovery_action_t := RECOVERY_NONE | RECOVERY_ICE40_RELOAD | RECOVERY_MCU_RESET | RECOVERY_ETH_RESTART.
#[export] Instance recovery_action_eq : EqDecision recovery_action_t.
Proof. solve_decision. Defined.

Record recovery_t := Rec {
  episode_reloads : Z;
  last_reload_ms : Z;
  reload_times : list Z;
  reload_n : Z;
  healthy_since_ms : Z;
  healthy_valid : bool;
  last_eth_ms : Z;
  eth_times : list Z;
  eth_n : Z;
  limit_noted : bool;
}.

Definition recovery_init (now_ms : Z) : recovery_t :=
  Rec 0 0 (replicate RECOVERY_RELOADS_PER_HOUR 0) 0 now_ms false 0 (replicate RECOVERY_ETH_PER_HOUR 0) 0 false.

(** How many of the ring's entries are less than an hour old. *)
Definition in_last_hour (ring : list Z) (size : nat) (n now_ms : Z) : Z :=
  let have := if n <? Z.of_nat size then n else Z.of_nat size in
  Z.of_nat (length (filter (fun t => u32 (now_ms - t) < RECOVERY_HOUR_MS) (take (Z.to_nat have) ring))).

Definition reload_allowed (r : recovery_t) (now_ms : Z) : bool :=
  in_last_hour (reload_times r) RECOVERY_RELOADS_PER_HOUR (reload_n r) now_ms <? Z.of_nat RECOVERY_RELOADS_PER_HOUR.

Definition reset_due (r : recovery_t) (now_ms fail_ms : Z) : bool :=
  if episode_reloads r =? 0 then RECOVERY_FAIL_MS + RECOVERY_RELOAD_GAP_MS <=? fail_ms
  else RECOVERY_RELOAD_GAP_MS <=? u32 (now_ms - last_reload_ms r).

Definition more_reloads (r : recovery_t) (now_ms : Z) : bool :=
  (episode_reloads r <? RECOVERY_RELOADS_PER_EPISODE) && reload_allowed r now_ms.

(** The first part of [recovery_poll]: health, and the persisted reset count. *)
Definition poll_health (r : recovery_t) (now_ms fail_ms resets : Z) : recovery_t * Z :=
  if fail_ms =? 0 then
    let r := if negb (healthy_valid r)
             then Rec 0 (last_reload_ms r) (reload_times r) (reload_n r) now_ms true
                    (last_eth_ms r) (eth_times r) (eth_n r) false
             else r in
    (r, if negb (resets =? 0) && (RECOVERY_HEALTHY_MS <=? u32 (now_ms - healthy_since_ms r)) then 0 else resets)
  else
    (Rec (episode_reloads r) (last_reload_ms r) (reload_times r) (reload_n r) (healthy_since_ms r) false
       (last_eth_ms r) (eth_times r) (eth_n r) (limit_noted r), resets).

(** The capture ladder's turn, if it has one. *)
Definition poll_captures (r : recovery_t) (now_ms fail_ms resets : Z) : option recovery_action_t :=
  if RECOVERY_FAIL_MS <=? fail_ms then
    if more_reloads r now_ms then
      if (episode_reloads r =? 0) || (RECOVERY_RELOAD_GAP_MS <=? u32 (now_ms - last_reload_ms r))
      then Some RECOVERY_ICE40_RELOAD else None
    else if (resets <? RECOVERY_RESETS_MAX) && reset_due r now_ms fail_ms then Some RECOVERY_MCU_RESET else None
  else None.

Definition poll_eth (r : recovery_t) (now_ms link_down_ms : Z) : recovery_action_t :=
  if (RECOVERY_LINK_DOWN_MS <=? link_down_ms) &&
     ((eth_n r =? 0) || (RECOVERY_ETH_GAP_MS <=? u32 (now_ms - last_eth_ms r))) &&
     (in_last_hour (eth_times r) RECOVERY_ETH_PER_HOUR (eth_n r) now_ms <? Z.of_nat RECOVERY_ETH_PER_HOUR)
  then RECOVERY_ETH_RESTART else RECOVERY_NONE.

(** The new state, the reset count and the step to take. *)
Definition recovery_poll (r : recovery_t) (now_ms fail_ms link_down_ms resets : Z)
    : recovery_t * Z * recovery_action_t :=
  let '(r, resets) := poll_health r now_ms fail_ms resets in
  match poll_captures r now_ms fail_ms resets with
  | Some a => (r, resets, a)
  | None => (r, resets, poll_eth r now_ms link_down_ms)
  end.

Definition recovery_done (r : recovery_t) (a : recovery_action_t) (now_ms resets : Z) : recovery_t * Z :=
  match a with
  | RECOVERY_ICE40_RELOAD =>
      (Rec (u32 (episode_reloads r + 1)) now_ms
         (<[Z.to_nat (reload_n r mod Z.of_nat RECOVERY_RELOADS_PER_HOUR) := now_ms]> (reload_times r))
         (u32 (reload_n r + 1)) (healthy_since_ms r) (healthy_valid r) (last_eth_ms r) (eth_times r) (eth_n r)
         (limit_noted r), resets)
  | RECOVERY_MCU_RESET => (r, u32 (resets + 1))
  | RECOVERY_ETH_RESTART =>
      (Rec (episode_reloads r) (last_reload_ms r) (reload_times r) (reload_n r) (healthy_since_ms r)
         (healthy_valid r) now_ms
         (<[Z.to_nat (eth_n r mod Z.of_nat RECOVERY_ETH_PER_HOUR) := now_ms]> (eth_times r))
         (u32 (eth_n r + 1)) (limit_noted r), resets)
  | RECOVERY_NONE => (r, resets)
  end.

Definition recovery_exhausted (r : recovery_t) (now_ms fail_ms resets : Z) : recovery_t * bool :=
  if limit_noted r || (fail_ms <? RECOVERY_FAIL_MS) then (r, false)
  else if more_reloads r now_ms || (resets <? RECOVERY_RESETS_MAX) then (r, false)
  else
    (Rec (episode_reloads r) (last_reload_ms r) (reload_times r) (reload_n r) (healthy_since_ms r)
       (healthy_valid r) (last_eth_ms r) (eth_times r) (eth_n r) true, true).

Definition recovery_action_name (a : recovery_action_t) : cstr :=
  match a with
  | RECOVERY_ICE40_RELOAD => str "iCE40 reload"
  | RECOVERY_MCU_RESET => str "STM32 reset"
  | RECOVERY_ETH_RESTART => str "Ethernet restart"
  | RECOVERY_NONE => str "none"
  end.

(** ** The caller's loop

    One check of the callers ([hw_worker.c], [emi_test.c]): poll, and when there
    is a step, take it and count it. The log keeps what was taken, on a clock
    that does not wrap. *)

Record check_t := CheckAt { c_time : Z; c_fail_ms : Z; c_link_down_ms : Z }.

Record ladder_t := Ladder { l_rec : recovery_t; l_resets : Z; l_log : list (Z * recovery_action_t) }.

Definition ladder_step (l : ladder_t) (c : check_t) : ladder_t :=
  let now_ms := u32 (c_time c) in
  let '(r, resets, a) := recovery_poll (l_rec l) now_ms (c_fail_ms c) (c_link_down_ms c) (l_resets l) in
  if decide (a = RECOVERY_NONE) then Ladder (fst (recovery_exhausted r now_ms (c_fail_ms c) resets)) resets (l_log l)
  else
    let '(r, resets) := recovery_done r a now_ms resets in
    Ladder r resets (l_log l ++ [(c_time c, a)]).

Definition ladder_start (t resets : Z) : ladder_t := Ladder (recovery_init (u32 t)) resets [].
Definition run_checks (l : ladder_t) (cs : list check_t) : ladder_t := fold_left ladder_step cs l.

(** The times a step was taken. *)
Definition times_of (a : recovery_action_t) (log : list (Z * recovery_action_t)) : list Z :=
  map fst (filter (fun e => snd e = a) log).
