(* ===== verification/RecoveryTheorems.v ===== *)
(** * The ladder's limits and its progress *)

From S2P Require Import Prelude Recovery.

(** ** A ring of the last [size] times *)

(** Entry [k mod size] holds the [k]-th time, for the last [size] of them. *)
Definition ring_ok (size : nat) (ring ts : list Z) : Prop :=
  length ring = size /\
  forall k t, ts !! k = Some t -> (length ts - size <= k)%nat -> ring !! (k mod size)%nat = Some (u32 t).

Lemma ring_push size ring ts now :
  (0 < size)%nat -> ring_ok size ring ts ->
  ring_ok size (<[(length ts mod size)%nat := u32 now]> ring) (ts ++ [now]).
Proof.
  intros Hs [Hl Hr]. split; [by rewrite length_insert|]. intros k t Hk Hge. rewrite length_app in Hge. cbn in Hge.
  assert (Hm : (length ts mod size < size)%nat) by (apply Nat.mod_upper_bound; lia).
  apply lookup_app_Some in Hk as [Hk|[Hk1 Hk2]].
  - pose proof (lookup_lt_Some _ _ _ Hk) as Hlt. rewrite list_lookup_insert_ne; [apply Hr; [done|lia]|].
    intros E. assert (length ts - k < size)%nat by lia.
    pose proof (Nat.div_mod_eq (length ts) size). pose proof (Nat.div_mod_eq k size). rewrite E in *.
    assert ((length ts / size - k / size) * size = length ts - k)%nat by nia.
    destruct (length ts / size - k / size)%nat as [|q]; nia.
  - destruct (k - length ts)%nat as [|j] eqn:Ej; [|by destruct j]. apply (inj Some) in Hk2 as <-.
    replace k with (length ts) by lia. apply list_lookup_insert_eq. lia.
Qed.

Lemma filter_id {A} (P : A -> Prop) `{!forall x, Decision (P x)} l : Forall P l -> filter P l = l.
Proof. induction 1 as [|x l Hx Hl IH]; [done|]. by rewrite filter_cons_True, IH. Qed.

(** Fewer than [size] entries younger than an hour: the one [size] places back
    is older. *)
Lemma ring_hour size ring ts n now :
  (0 < size)%nat -> ring_ok size ring ts -> n = Z.of_nat (length ts) -> Forall (fun t => t <= now) ts ->
  in_last_hour ring size n (u32 now) < Z.of_nat size -> (size <= length ts)%nat ->
  exists k t, ts !! k = Some t /\ (length ts - size <= k)%nat /\ RECOVERY_HOUR_MS <= now - t.
Proof.
  intros Hs [Hl Hr] Hn Hle Hc Hsz. unfold in_last_hour in Hc.
  destruct (Z.ltb_spec n (Z.of_nat size)); [lia|]. rewrite Nat2Z.id, take_ge in Hc by lia.
  assert (Hex : exists i e, ring !! i = Some e /\ ~ u32 (u32 now - e) < RECOVERY_HOUR_MS).
  { destruct (decide (Forall (fun t => u32 (u32 now - t) < RECOVERY_HOUR_MS) ring)) as [Hf|Hf].
    - exfalso. assert (E : filter (fun t => u32 (u32 now - t) < RECOVERY_HOUR_MS) ring = ring) by (by apply filter_id).
      rewrite E in Hc. lia.
    - apply not_Forall_Exists in Hf; [|intros; apply _]. apply Exists_exists in Hf as (e & Hin & He).
      apply list_elem_of_lookup in Hin as [i Hi]. by exists i, e. }
  destruct Hex as (i & e & Hi & He). pose proof (lookup_lt_Some _ _ _ Hi).
  (* the place [i] belongs to a [k] among the last [size] *)
  set (b := (length ts - size)%nat).
  assert (Hk : exists k, (b <= k < length ts)%nat /\ (k mod size = i)%nat).
  { pose proof (Nat.div_mod_eq b size). pose proof (Nat.mod_upper_bound b size ltac:(lia)).
    destruct (decide (b mod size <= i)%nat).
    - exists (b / size * size + i)%nat. split; [subst b; nia|].
      rewrite Nat.add_comm, Nat.Div0.mod_add, Nat.mod_small; lia.
    - exists ((b / size + 1) * size + i)%nat. split; [subst b; nia|].
      rewrite Nat.add_comm, Nat.Div0.mod_add, Nat.mod_small; lia. }
  destruct Hk as (k & Hkb & Hki). destruct (lookup_lt_is_Some_2 ts k) as [t Ht]; [lia|].
  exists k, t. split_and!; [done|subst b; lia|]. specialize (Hr k t Ht ltac:(subst b; lia)).
  rewrite Hki, Hi in Hr. apply (inj Some) in Hr. subst e. rewrite Forall_lookup in Hle. specialize (Hle k t Ht).
  unfold u32 in He. rewrite <- Zminus_mod in He. pose proof (Z.mod_le (now - t) 4294967296). lia.
Qed.

(** Any [size]+1 consecutive times span an hour. *)
Definition spaced (size : nat) (ts : list Z) : Prop :=
  forall i a b, ts !! i = Some a -> ts !! (i + size)%nat = Some b -> RECOVERY_HOUR_MS <= b - a.

Fixpoint ascending (ts : list Z) : Prop :=
  match ts with [] => True | t :: ts' => Forall (fun x => t <= x) ts' /\ ascending ts' end.

Lemma ascending_snoc ts t : ascending ts -> Forall (fun x => x <= t) ts -> ascending (ts ++ [t]).
Proof.
  induction ts as [|x ts IH]; intros Ha Hf; [by split|]. destruct Ha as [H1 H2]. apply Forall_cons in Hf as [Hx Hf].
  cbn. split; [|by apply IH]. apply Forall_app. split; [done|by constructor].
Qed.

Lemma ascending_lookup ts i j a b : ascending ts -> ts !! i = Some a -> ts !! j = Some b -> (i <= j)%nat -> a <= b.
Proof.
  revert i j. induction ts as [|x ts IH]; intros [|i] [|j] Ha Hi Hj Hij; try done; try lia.
  - cbn in *. simplify_eq. lia.
  - destruct Ha as [H1 _]. cbn in *. simplify_eq. rewrite Forall_lookup in H1. by eapply H1.
  - destruct Ha as [_ H2]. cbn in *. apply (IH i j); [done..|lia].
Qed.

(** Everything the limits need of one kind of step. *)
Definition kind_ok (size : nat) (ring : list Z) (n : Z) (ts : list Z) (now : Z) : Prop :=
  ring_ok size ring ts /\ n = Z.of_nat (length ts) /\ Forall (fun t => t <= now) ts /\ ascending ts /\ spaced size ts.

Lemma kind_push size ring n ts t0 now :
  (0 < size)%nat -> kind_ok size ring n ts t0 -> t0 <= now -> Z.of_nat (length ts) + 1 < 4294967296 ->
  in_last_hour ring size n (u32 now) < Z.of_nat size ->
  kind_ok size (<[Z.to_nat (n mod Z.of_nat size) := u32 now]> ring) (u32 (n + 1)) (ts ++ [now]) now.
Proof.
  intros Hs (Hr & Hn & Hle & Ha & Hsp) Ht Hb Hc.
  assert (Hle' : Forall (fun t => t <= now) ts) by (eapply Forall_impl; [exact Hle|intros; cbn in *; lia]).
  split_and!.
  - replace (Z.to_nat (n mod Z.of_nat size)) with (length ts mod size)%nat; [by apply ring_push|].
    rewrite Hn, <- Nat2Z.inj_mod. by rewrite Nat2Z.id.
  - rewrite length_app. cbn. rewrite u32_id; lia.
  - apply Forall_app. split; [done|by constructor].
  - by apply ascending_snoc.
  - intros i a b Hi Hj. apply lookup_app_Some in Hj as [Hj|[Hj1 Hj2]].
    + rewrite lookup_app_l in Hi by (apply lookup_lt_Some in Hj; lia). by eapply Hsp.
    + destruct (i + size - length ts)%nat as [|j] eqn:Ej; [|by destruct j]. apply (inj Some) in Hj2 as <-.
      rewrite lookup_app_l in Hi by lia.
      destruct (ring_hour size ring ts n now Hs Hr Hn Hle' Hc) as (k & t & Hk & Hkb & Hh); [lia|].
      pose proof (ascending_lookup ts i k a t Ha Hi Hk ltac:(lia)). lia.
Qed.

Lemma kind_later size ring n ts t0 now : kind_ok size ring n ts t0 -> t0 <= now -> kind_ok size ring n ts now.
Proof.
  intros (Hr & Hn & Hle & Ha & Hsp) Ht. split_and!; try done. eapply Forall_impl; [exact Hle|intros; cbn in *; lia].
Qed.

(** ** One check *)

Lemma poll_health_keeps r now f resets :
  let r' := fst (poll_health r now f resets) in
  reload_times r' = reload_times r /\ reload_n r' = reload_n r /\ eth_times r' = eth_times r /\ eth_n r' = eth_n r /\
  last_eth_ms r' = last_eth_ms r /\ last_reload_ms r' = last_reload_ms r.
Proof. unfold poll_health. repeat case_match; split_and!; done. Qed.

Lemma recovery_poll_spec r now f link resets r' resets' a :
  recovery_poll r now f link resets = (r', resets', a) ->
  poll_health r now f resets = (r', resets') /\
  match a with
  | RECOVERY_NONE => True
  | RECOVERY_ICE40_RELOAD => RECOVERY_FAIL_MS <= f /\ more_reloads r' now = true /\
      (episode_reloads r' = 0 \/ RECOVERY_RELOAD_GAP_MS <= u32 (now - last_reload_ms r'))
  | RECOVERY_MCU_RESET => RECOVERY_FAIL_MS <= f /\ more_reloads r' now = false /\ resets' < RECOVERY_RESETS_MAX /\
      reset_due r' now f = true
  | RECOVERY_ETH_RESTART => RECOVERY_LINK_DOWN_MS <= link /\
      (eth_n r' = 0 \/ RECOVERY_ETH_GAP_MS <= u32 (now - last_eth_ms r')) /\
      in_last_hour (eth_times r') RECOVERY_ETH_PER_HOUR (eth_n r') now < Z.of_nat RECOVERY_ETH_PER_HOUR
  end.
Proof.
  unfold recovery_poll. destruct (poll_health r now f resets) as [r1 res1]. intros E.
  destruct (poll_captures r1 now f res1) as [a1|] eqn:Ep; apply pair_equal_spec in E as [[<- <-]%pair_equal_spec <-];
    (split; [done|]).
  - unfold poll_captures in Ep. destruct (Z.leb_spec RECOVERY_FAIL_MS f); [|done].
    destruct (more_reloads r1 now) eqn:Em.
    + destruct (_ || _) eqn:Eo; [|done]. apply (inj Some) in Ep as <-. split_and!; try done.
      apply orb_true_iff in Eo as [?|?]; [left|right]; lia.
    + destruct (_ && _) eqn:Eo; [|done]. apply (inj Some) in Ep as <-.
      apply andb_true_iff in Eo as [? ?]. split_and!; try done; lia.
  - unfold poll_eth. destruct (_ && (in_last_hour _ _ _ _ <? _)) eqn:Eo; [|done].
    rewrite !andb_true_iff, orb_true_iff in Eo. destruct Eo as [[? Hg] Hc]. split_and!; [lia| |by apply Z.ltb_lt].
    destruct Hg; [left|right]; lia.
Qed.

(** ** The rates *)

(** The checks come in order of time. *)
Fixpoint in_order (t : Z) (cs : list check_t) : Prop :=
  match cs with [] => True | c :: cs' => t <= c_time c /\ in_order (c_time c) cs' end.

Definition gaps (g : Z) (ts : list Z) : Prop :=
  forall i a b, ts !! i = Some a -> ts !! S i = Some b -> g <= b - a.

(** What the limits of a run rest on. *)
Definition rates_ok (l : ladder_t) (t : Z) : Prop :=
  let r := l_rec l in
  let rl := times_of RECOVERY_ICE40_RELOAD (l_log l) in
  let et := times_of RECOVERY_ETH_RESTART (l_log l) in
  kind_ok RECOVERY_RELOADS_PER_HOUR (reload_times r) (reload_n r) rl t /\
  kind_ok RECOVERY_ETH_PER_HOUR (eth_times r) (eth_n r) et t /\
  (forall x, last et = Some x -> last_eth_ms r = u32 x) /\ gaps RECOVERY_ETH_GAP_MS et.

Lemma times_of_snoc a log t b :
  times_of a (log ++ [(t, b)]) = times_of a log ++ (if decide (b = a) then [t] else []).
Proof.
  unfold times_of. rewrite filter_app, map_app. f_equal. destruct (decide (b = a)) as [->|Hn].
  - by rewrite filter_cons_True.
  - by rewrite filter_cons_False.
Qed.

Lemma times_of_length a log : (length (times_of a log) <= length log)%nat.
Proof. unfold times_of. rewrite length_map. apply length_filter. Qed.

Lemma u32_gap now x : x <= now -> u32 (u32 now - u32 x) <= now - x.
Proof. intros. unfold u32. rewrite <- Zminus_mod. apply Z.mod_le; lia. Qed.

Lemma gaps_snoc g ts t :
  gaps g ts -> (forall x, last ts = Some x -> g <= t - x) -> gaps g (ts ++ [t]).
Proof.
  intros Hg Hl i a b Ha Hb. apply lookup_app_Some in Hb as [Hb|[Hb1 Hb2]].
  - rewrite lookup_app_l in Ha by (apply lookup_lt_Some in Hb; lia). by eapply Hg.
  - destruct (S i - length ts)%nat as [|j] eqn:Ej; [|by destruct j]. apply (inj Some) in Hb2 as <-.
    rewrite lookup_app_l in Ha by lia. apply Hl. rewrite last_lookup. replace (pred (length ts)) with i by lia. done.
Qed.

Lemma exhausted_keeps r now f resets :
  let r' := fst (recovery_exhausted r now f resets) in
  reload_times r' = reload_times r /\ reload_n r' = reload_n r /\ eth_times r' = eth_times r /\ eth_n r' = eth_n r /\
  last_eth_ms r' = last_eth_ms r.
Proof. unfold recovery_exhausted. repeat case_match; split_and!; done. Qed.

Lemma ladder_step_rates l t c :
  rates_ok l t -> t <= c_time c -> Z.of_nat (length (l_log l)) + 1 < 4294967296 ->
  rates_ok (ladder_step l c) (c_time c).
Proof.
  intros (Hr & He & Hle & Hg) Ht Hb. unfold ladder_step. set (now := u32 (c_time c)).
  destruct (recovery_poll _ _ _ _ _) as [[r1 res1] a] eqn:Ep.
  destruct (recovery_poll_spec _ _ _ _ _ _ _ _ Ep) as [Eh Ha].
  pose proof (poll_health_keeps (l_rec l) now (c_fail_ms c) (l_resets l)) as Hk. rewrite Eh in Hk.
  destruct Hk as (K1 & K2 & K3 & K4 & K5 & K6). cbn [fst] in K1, K2, K3, K4, K5, K6.
  rewrite <- K1, <- K2 in Hr. rewrite <- K3, <- K4 in He. rewrite <- K5 in Hle.
  pose proof (times_of_length RECOVERY_ICE40_RELOAD (l_log l)).
  pose proof (times_of_length RECOVERY_ETH_RESTART (l_log l)).
  destruct (decide (a = RECOVERY_NONE)) as [->|Hn].
  { destruct (exhausted_keeps r1 now (c_fail_ms c) res1) as (X1 & X2 & X3 & X4 & X5). unfold rates_ok.
    cbn [l_rec l_log]. rewrite X1, X2, X3, X4, X5. split_and!; try done; by eapply kind_later. }
  destruct a; [done|..]; cbn [recovery_done]; unfold rates_ok; cbn [l_rec l_log reload_times reload_n eth_times eth_n last_eth_ms];
    rewrite !times_of_snoc; cbn [decide]; simpl (if decide _ then _ else _); rewrite ?app_nil_r.
  - split_and!; [|by eapply kind_later|done..]. destruct Ha as (_ & Hm & _).
    apply andb_true_iff in Hm as [_ Hm]. unfold reload_allowed in Hm. eapply kind_push; [lia|exact Hr|done|lia|].
    fold now. by apply Z.ltb_lt.
  - split_and!; [by eapply kind_later|by eapply kind_later|done..].
  - destruct Ha as (_ & Hgap & Hc). split_and!; [by eapply kind_later| | |].
    + eapply kind_push; [lia|exact He|done|lia|done].
    + intros x. rewrite last_snoc. by intros [= <-].
    + apply gaps_snoc; [done|]. intros x Hx. destruct He as (_ & Hn0 & Hfor & _). destruct Hgap as [Hz|Hgap].
      * rewrite Hz in Hn0. destruct (times_of RECOVERY_ETH_RESTART (l_log l)); [done|cbn in Hn0; lia].
      * rewrite (Hle x Hx) in Hgap. rewrite Forall_lookup in Hfor. rewrite last_lookup in Hx.
        pose proof (Hfor _ _ Hx). pose proof (u32_gap (c_time c) x ltac:(cbn in *; lia)). fold now in Hgap. subst now. lia.
Qed.

Lemma log_length l cs : (length (l_log (run_checks l cs)) <= length (l_log l) + length cs)%nat.
Proof.
  revert l. induction cs as [|c cs IH]; intros l; [cbn; lia|]. cbn [run_checks fold_left length].
  specialize (IH (ladder_step l c)). unfold run_checks in IH.
  assert (length (l_log (ladder_step l c)) <= S (length (l_log l)))%nat.
  { unfold ladder_step. destruct (recovery_poll _ _ _ _ _) as [[r1 res1] a].
    destruct (decide _); [cbn; lia|]. destruct (recovery_done _ _ _ _). cbn [l_log]. rewrite length_app. cbn. lia. }
  lia.
Qed.

Lemma run_checks_rates l t cs :
  rates_ok l t -> in_order t cs -> Z.of_nat (length (l_log l) + length cs) < 4294967296 ->
  exists t', rates_ok (run_checks l cs) t'.
Proof.
  revert l t. induction cs as [|c cs IH]; intros l t Hr Ho Hb; [by exists t|]. destruct Ho as [Ht Ho].
  cbn [run_checks fold_left length] in *. pose proof (log_length l [c]) as Hl. cbn [run_checks fold_left length] in Hl.
  apply (IH (ladder_step l c) (c_time c)); [apply ladder_step_rates with t; (done || lia)|done|lia].
Qed.

(** The ladder cannot wear anything out: from a fresh start, whatever is
    reported to it and however often it is asked, any seven iCE40 reloads span
    at least an hour, so do any eleven Ethernet restarts, and two Ethernet
    restarts are a minute apart; the wrapping clock does not matter. *)
Theorem recovery_rates t0 resets cs :
  in_order t0 cs -> Z.of_nat (length cs) < 4294967296 ->
  let log := l_log (run_checks (ladder_start t0 resets) cs) in
  spaced RECOVERY_RELOADS_PER_HOUR (times_of RECOVERY_ICE40_RELOAD log) /\
  spaced RECOVERY_ETH_PER_HOUR (times_of RECOVERY_ETH_RESTART log) /\
  gaps RECOVERY_ETH_GAP_MS (times_of RECOVERY_ETH_RESTART log).
Proof.
  intros Ho Hb log.
  assert (Hnil : forall size now, kind_ok size (replicate size 0) 0 [] now).
  { intros size now. split_and!; try done. split; [by rewrite length_replicate|]. by intros k t Hk. }
  destruct (run_checks_rates (ladder_start t0 resets) t0 cs) as [t' (Hr & He & _ & Hg)]; [|done|cbn; lia|].
  { unfold rates_ok. cbn. split_and!; [apply (Hnil 6%nat)|apply (Hnil 10%nat)|done|]. by intros i a b Ha. }
  split_and!; [apply Hr|apply He|exact Hg].
Qed.

(** Captures that fail for good, checked every second, with the link down too. *)
Definition stuck (n : nat) : list check_t :=
  map (fun i => CheckAt (1000 * Z.of_nat i) (1000 * Z.of_nat i) (1000 * Z.of_nat i)) (seq 0 n).

(** The ladder of the header comment, step by step. *)
Example stuck_ladder :
  l_log (run_checks (ladder_start 0 0) (stuck 75)) =
    [(10000, RECOVERY_ICE40_RELOAD); (20000, RECOVERY_ETH_RESTART); (40000, RECOVERY_ICE40_RELOAD);
     (70000, RECOVERY_MCU_RESET); (71000, RECOVERY_MCU_RESET)].
Proof. vm_compute. reflexivity. Qed.

Lemma recovery_rates_witness :
  spaced RECOVERY_RELOADS_PER_HOUR (times_of RECOVERY_ICE40_RELOAD (l_log (run_checks (ladder_start 0 0) (stuck 75)))).
Proof.
  apply (recovery_rates 0 0 (stuck 75)).
  - vm_compute. repeat split; discriminate.
  - vm_compute. reflexivity.
Defined.

(** ** The reset budget *)

(** While captures work, the start of that health is remembered, and nothing
    failed since. *)
Definition health_ok (l : ladder_t) (t : Z) (done : list check_t) : Prop :=
  0 <= l_resets l <= RECOVERY_RESETS_MAX /\
  (healthy_valid (l_rec l) = true ->
   exists hs, healthy_since_ms (l_rec l) = u32 hs /\ hs <= t /\
     Forall (fun c => hs < c_time c -> c_fail_ms c = 0) done).

Lemma done_keeps_health r a now resets :
  healthy_valid (fst (recovery_done r a now resets)) = healthy_valid r /\
  healthy_since_ms (fst (recovery_done r a now resets)) = healthy_since_ms r.
Proof. by destruct a. Qed.

Lemma exhausted_keeps_health r now f resets :
  healthy_valid (fst (recovery_exhausted r now f resets)) = healthy_valid r /\
  healthy_since_ms (fst (recovery_exhausted r now f resets)) = healthy_since_ms r.
Proof. unfold recovery_exhausted. by repeat case_match. Qed.

(** The health part of a check, and what a cleared count means. *)
Lemma poll_health_ok l t done c :
  health_ok l t done -> t <= c_time c -> Forall (fun c' => c_time c' <= t) done ->
  let '(r, res) := poll_health (l_rec l) (u32 (c_time c)) (c_fail_ms c) (l_resets l) in
  health_ok (Ladder r res (l_log l)) (c_time c) (done ++ [c]) /\
  (res <> l_resets l -> res = 0 /\
     Forall (fun c' => c_time c - RECOVERY_HEALTHY_MS < c_time c' -> c_fail_ms c' = 0) (done ++ [c])).
Proof.
  intros [Hres Hh] Ht Hd. unfold poll_health, health_ok. destruct (Z.eqb_spec (c_fail_ms c) 0) as [Hf|Hf].
  2:{ cbn [l_rec l_resets healthy_valid]. split; [split; [done|done]|done]. }
  assert (Hdone : forall hs, hs <= c_time c -> Forall (fun c' => hs < c_time c' -> c_fail_ms c' = 0) done ->
    Forall (fun c' => hs < c_time c' -> c_fail_ms c' = 0) (done ++ [c])).
  { intros hs Hhs Hfor. apply Forall_app. split; [done|by constructor]. }
  destruct (healthy_valid (l_rec l)) eqn:Ev; cbn [negb].
  - destruct (Hh eq_refl) as (hs & Ehs & Hle & Hfor). rewrite Ehs.
    pose proof (u32_gap (c_time c) hs ltac:(lia)) as Hgap.
    destruct (negb (l_resets l =? 0) && (RECOVERY_HEALTHY_MS <=? u32 (u32 (c_time c) - u32 hs))) eqn:Ec;
      cbn [l_rec l_resets]; (split; [split; [lia|]; intros _; exists hs; split_and!; [done|lia|apply Hdone; [lia|done]]|]); [|done].
    intros _. split; [done|]. apply andb_true_iff in Ec as [_ Ec]. eapply Forall_impl; [apply (Hdone hs); [lia|done]|].
    intros c' Hc' Hlt. apply Hc'. lia.
  - cbn [healthy_since_ms]. rewrite Z.sub_diag. replace (RECOVERY_HEALTHY_MS <=? u32 0) with false by done.
    rewrite andb_false_r. cbn [l_rec l_resets healthy_valid healthy_since_ms]. split; [|done]. split; [done|].
    intros _. exists (c_time c). split_and!; [done|lia|]. apply Hdone; [lia|].
    eapply Forall_impl; [exact Hd|]. intros c' Hc' Hlt. cbn in *. lia.
Qed.

Lemma ladder_step_health l t done c :
  health_ok l t done -> t <= c_time c -> Forall (fun c' => c_time c' <= t) done ->
  health_ok (ladder_step l c) (c_time c) (done ++ [c]) /\
  (l_resets (ladder_step l c) < l_resets l ->
     Forall (fun c' => c_time c - RECOVERY_HEALTHY_MS < c_time c' -> c_fail_ms c' = 0) (done ++ [c])) /\
  (l_resets (ladder_step l c) = l_resets l + 1 \/ l_resets (ladder_step l c) = l_resets l \/
   l_resets (ladder_step l c) = 0).
Proof.
  intros Hh Ht Hd. pose proof (poll_health_ok l t done c Hh Ht Hd) as Hp. unfold ladder_step.
  destruct (recovery_poll _ _ _ _ _) as [[r1 res1] a] eqn:Ep.
  destruct (recovery_poll_spec _ _ _ _ _ _ _ _ Ep) as [Eh Ha]. rewrite Eh in Hp.
  destruct Hp as [[Hr Hv] Hc]. cbn [l_rec l_resets] in Hr, Hv. destruct Hh as [Hr0 _].
  assert (Hres : res1 = l_resets l \/ res1 = 0).
  { destruct (decide (res1 = l_resets l)); [by left|right; by apply Hc]. }
  destruct (decide (a = RECOVERY_NONE)) as [->|Hn].
  - destruct (exhausted_keeps_health r1 (u32 (c_time c)) (c_fail_ms c) res1) as [X1 X2].
    unfold health_ok. cbn [l_rec l_resets]. rewrite X1, X2. split_and!; [lia|lia|done| |tauto].
    intros Hlt. apply Hc. lia.
  - destruct (done_keeps_health r1 a (u32 (c_time c)) res1) as [X1 X2].
    assert (Hd2 : snd (recovery_done r1 a (u32 (c_time c)) res1) = if decide (a = RECOVERY_MCU_RESET) then res1 + 1 else res1).
    { destruct a; try done. cbn [recovery_done snd]. rewrite decide_True by done. apply u32_id. lia. }
    destruct (recovery_done r1 a _ res1) as [r2 res2]. cbn [fst snd] in *. unfold health_ok. cbn [l_rec l_resets].
    rewrite X1, X2. destruct (decide (a = RECOVERY_MCU_RESET)) as [->|]; subst res2.
    + destruct Ha as (Hfail & _ & Hlt & _). split_and!; [lia|lia|done| |].
      * intros Hlt2. apply Hc. lia.
      * destruct (decide (res1 = l_resets l)) as [->|Hne]; [by left|].
        destruct (Hc Hne) as [-> Hall]. rewrite Forall_app in Hall. destruct Hall as [_ Hall].
        apply Forall_cons in Hall as [Hall _]. cbn in Hall. specialize (Hall ltac:(lia)). lia.
    + split_and!; [lia|lia|done| |tauto]. intros Hlt. apply Hc. lia.
Qed.

Lemma run_checks_health l t done cs :
  health_ok l t done -> Forall (fun c' => c_time c' <= t) done -> in_order t cs ->
  exists t', health_ok (run_checks l cs) t' (done ++ cs) /\ Forall (fun c' => c_time c' <= t') (done ++ cs) /\
    (forall c, in_order t (cs ++ [c]) -> t' <= c_time c).
Proof.
  revert l t done. induction cs as [|c cs IH]; intros l t done Hh Hd Ho.
  { exists t. rewrite app_nil_r. split_and!; [done|done|]. by intros c [? _]. }
  destruct Ho as [Ht Ho]. cbn [run_checks fold_left].
  destruct (ladder_step_health l t done c Hh Ht Hd) as [Hh' _].
  destruct (IH (ladder_step l c) (c_time c) (done ++ [c])) as (t' & H1 & H2 & H3); [done| |done|].
  - apply Forall_app. split; [eapply Forall_impl; [exact Hd|intros; cbn in *; lia]|by constructor].
  - rewrite <- app_assoc in H1, H2. exists t'. split_and!; [done|done|]. intros c' [_ Ho']. by apply H3.
Qed.

(** A pod that stays broken does not cycle forever: the STM32 is reset at most
    twice, and the budget is given back only after ten minutes in which every
    check reported working captures. *)
Theorem reset_budget t0 resets cs c :
  in_order t0 (cs ++ [c]) -> 0 <= resets <= RECOVERY_RESETS_MAX ->
  let l := run_checks (ladder_start t0 resets) cs in
  let l' := ladder_step l c in
  0 <= l_resets l' <= RECOVERY_RESETS_MAX /\
  (l_resets l' = l_resets l + 1 \/ l_resets l' = l_resets l \/ l_resets l' = 0) /\
  (l_resets l' < l_resets l ->
     Forall (fun c' => c_time c - RECOVERY_HEALTHY_MS < c_time c' -> c_fail_ms c' = 0) (cs ++ [c])).
Proof.
  intros Ho Hr l l'.
  assert (Ho1 : forall t cs', in_order t (cs' ++ [c]) -> in_order t cs').
  { intros t cs'. revert t. induction cs' as [|x cs' IH]; intros t; [done|]. intros [? ?]. split; [done|by apply IH]. }
  destruct (run_checks_health (ladder_start t0 resets) t0 [] cs) as (t' & H1 & H2 & H3);
    [by split|done|by apply Ho1|].
  destruct (ladder_step_health l t' cs c H1 (H3 c Ho) H2) as ([H4 _] & H5 & H6). done.
Qed.

Lemma reset_budget_witness :
  l_resets (ladder_step (run_checks (ladder_start 0 0) (stuck 75)) (CheckAt 80000 80000 0)) <= RECOVERY_RESETS_MAX.
Proof.
  apply (reset_budget 0 0 (stuck 75) (CheckAt 80000 80000 0)); [vm_compute; repeat split; discriminate|lia].
Defined.
