(* ===== verification/B64.v ===== *)
(** * base64url without padding ([b64url.c]) *)

From S2P Require Import Prelude.

Definition ENC : list Z :=
  Eval vm_compute in str "ABCDEFGHIJKLMNOPQRSTUVWXYZabcdefghijklmnopqrstuvwxyz0123456789-_".

Definition enc (v : Z) : Z := nth (Z.to_nat (Z.land v 63)) ENC 0.

(** The reverse table, as [dec_init] fills it: 0xFF outside the alphabet. *)
Definition dec_init : list Z :=
  Eval vm_compute in
    fold_left (fun t i => <[Z.to_nat (nth i ENC 0) := Z.of_nat i]> t) (seq 0 64) (replicate 256 255).
Definition DEC (c : Z) : Z := nth (Z.to_nat c) dec_init 255.

Definition B64URL_ENCODED_LEN (n : Z) : Z := (n * 4 + 2) / 3.

(** The groups of three bytes, and what remains. *)
Fixpoint encode_loop (inp : list Z) : list Z :=
  match inp with
  | x :: y :: z :: inp' =>
      let v := Z.lor (Z.lor (Z.shiftl x 16) (Z.shiftl y 8)) z in
      enc (Z.shiftr v 18) :: enc (Z.shiftr v 12) :: enc (Z.shiftr v 6) :: enc v :: encode_loop inp'
  | [x] => let v := Z.shiftl x 16 in [enc (Z.shiftr v 18); enc (Z.shiftr v 12)]
  | [x; y] =>
      let v := Z.lor (Z.shiftl x 16) (Z.shiftl y 8) in
      [enc (Z.shiftr v 18); enc (Z.shiftr v 12); enc (Z.shiftr v 6)]
  | [] => []
  end.

(** The text, or nothing when [out_cap] is too small. *)
Definition b64url_encode (inp : list Z) (out_cap : Z) : option cstr :=
  if out_cap <? B64URL_ENCODED_LEN (Z.of_nat (length inp)) + 1 then None else Some (encode_loop inp).

(** [inp] without its trailing '=' signs. *)
Fixpoint drop_pad (rev_inp : cstr) : cstr :=
  match rev_inp with c :: r => if c =? 61 then drop_pad r else rev_inp | [] => [] end.
Definition unpad (inp : cstr) : cstr := reverse (drop_pad (reverse inp)).

Fixpoint decode_loop (inp : cstr) : option (list Z) :=
  match inp with
  | c1 :: c2 :: c3 :: c4 :: inp' =>
      let a := DEC c1 in let b := DEC c2 in let c := DEC c3 in let d := DEC c4 in
      if Z.lor (Z.lor (Z.lor a b) c) d =? 255 then None
      else
        match decode_loop inp' with
        | None => None
        | Some o => Some (u8 (Z.lor (Z.shiftl a 2) (Z.shiftr b 4)) :: u8 (Z.lor (Z.shiftl b 4) (Z.shiftr c 2))
                          :: u8 (Z.lor (Z.shiftl c 6) d) :: o)
        end
  | [c1; c2] =>
      let a := DEC c1 in let b := DEC c2 in
      if Z.lor a b =? 255 then None else Some [u8 (Z.lor (Z.shiftl a 2) (Z.shiftr b 4))]
  | [c1; c2; c3] =>
      let a := DEC c1 in let b := DEC c2 in let c := DEC c3 in
      if Z.lor (Z.lor a b) c =? 255 then None
      else Some [u8 (Z.lor (Z.shiftl a 2) (Z.shiftr b 4)); u8 (Z.lor (Z.shiftl b 4) (Z.shiftr c 2))]
  | _ => Some []
  end.

Definition b64url_decode (inp : cstr) (out_cap : Z) : option (list Z) :=
  let inp := unpad inp in
  let len := Z.of_nat (length inp) in
  if len mod 4 =? 1 then None
  else
    let decoded := len / 4 * 3 + (if negb (len mod 4 =? 0) then len mod 4 - 1 else 0) in
    if out_cap <? decoded then None else decode_loop inp.

(** ** Round trip *)

(** The two tables are inverse on 6-bit values. *)
Lemma DEC_enc v : DEC (enc v) = Z.land v 63 /\ enc v <> 61 /\ 0 < enc v < 256.
Proof.
  unfold enc.
  assert (H : forallb (fun i => let c := nth i ENC 0 in
    (DEC c =? Z.of_nat i) && negb (c =? 61) && (0 <? c) && (c <? 256)) (seq 0 64) = true) by (vm_compute; reflexivity).
  rewrite forallb_forall in H.
  assert (Hr : 0 <= Z.land v 63 < 64) by (change 63 with (Z.ones 6); rewrite Z.land_ones by lia; apply Z.mod_pos_bound; lia).
  assert (Hin : In (Z.to_nat (Z.land v 63)) (seq 0 64)) by (apply in_seq; lia).
  specialize (H _ Hin). cbv zeta beta in H.
  rewrite !andb_true_iff in H. destruct H as [[[H1 H2] H3] H4]. rewrite Z2Nat.id in H1 by lia.
  apply Z.eqb_eq in H1. apply negb_true_iff, Z.eqb_neq in H2. lia.
Qed.

Lemma land63 v : 0 <= v -> 0 <= Z.land v 63 < 64.
Proof. intros. change 63 with (Z.ones 6). rewrite Z.land_ones by lia. apply Z.mod_pos_bound. lia. Qed.

Lemma lor_not_255 a b : 0 <= a < 64 -> 0 <= b < 64 -> 0 <= Z.lor a b < 64.
Proof. intros. apply (lor_bound 6); lia. Qed.

(** The bit fields of a group of three bytes, as arithmetic. *)
Lemma group3 x y z :
  byte_ok x -> byte_ok y -> byte_ok z ->
  let v := Z.lor (Z.lor (Z.shiftl x 16) (Z.shiftl y 8)) z in
  let a := Z.land (Z.shiftr v 18) 63 in let b := Z.land (Z.shiftr v 12) 63 in
  let c := Z.land (Z.shiftr v 6) 63 in let d := Z.land v 63 in
  u8 (Z.lor (Z.shiftl a 2) (Z.shiftr b 4)) = x /\ u8 (Z.lor (Z.shiftl b 4) (Z.shiftr c 2)) = y /\
  u8 (Z.lor (Z.shiftl c 6) d) = z.
Proof.
  intros Hx Hy Hz v. cbv zeta. unfold byte_ok in Hx, Hy, Hz.
  assert (Ev : v = x * 65536 + y * 256 + z).
  { subst v. rewrite <- Z.lor_assoc, (lor_shiftl_add 8 y z) by lia.
    rewrite lor_shiftl_add by (change (2 ^ 8) with 256; change (2 ^ 16) with 65536; lia).
    change (2 ^ 8) with 256. change (2 ^ 16) with 65536. lia. }
  rewrite !Z.shiftr_div_pow2 by lia. change 63 with (Z.ones 6). rewrite !Z.land_ones by lia.
  change (2 ^ 18) with 262144. change (2 ^ 12) with 4096. change (2 ^ 6) with 64. change (2 ^ 4) with 16.
  change (2 ^ 2) with 4. rewrite Ev. clear Ev v. set (v := x * 65536 + y * 256 + z).
  assert (0 <= v < 16777216) by (subst v; lia).
  assert (Hm : forall w, 0 <= w mod 64 < 64) by (intros; apply Z.mod_pos_bound; lia).
  rewrite (lor_shiftl_add 2), (lor_shiftl_add 4), (lor_shiftl_add 6); try lia; try apply Hm.
  - change (2 ^ 2) with 4. change (2 ^ 4) with 16. change (2 ^ 6) with 64. unfold u8. subst v.
    split_and!; Z.div_mod_to_equations; lia.
  - change (2 ^ 4) with 16. split; [apply Z.div_pos; [apply Hm|lia]|apply Z.div_lt_upper_bound; [lia|]].
    destruct (Hm (v / 64)). lia.
  - change (2 ^ 2) with 4. split; [apply Z.div_pos; [apply Hm|lia]|apply Z.div_lt_upper_bound; [lia|]].
    destruct (Hm (v / 4096)). lia.
Qed.

(** Induction in steps of three. *)
Lemma list3_ind {A} (P : list A -> Prop) :
  P [] -> (forall x, P [x]) -> (forall x y, P [x; y]) -> (forall x y z l, P l -> P (x :: y :: z :: l)) -> forall l, P l.
Proof.
  intros H0 H1 H2 H3. fix IH 1. intros [|x [|y [|z l]]]; [apply H0|apply H1|apply H2|apply H3, IH].
Qed.

Lemma lor255_small a b : 0 <= a < 64 -> 0 <= b < 64 -> (Z.lor a b =? 255) = false.
Proof. intros. apply Z.eqb_neq. pose proof (lor_not_255 a b). lia. Qed.

Lemma decode_encode_loop inp : bytes_ok inp -> decode_loop (encode_loop inp) = Some inp.
Proof.
  induction inp as [|x|x y|x y z inp IH] using list3_ind; intros Hb; [done|..].
  - apply Forall_cons in Hb as [Hx _]. cbn [encode_loop decode_loop].
    destruct (DEC_enc (Z.shiftr (Z.shiftl x 16) 18)) as [-> _], (DEC_enc (Z.shiftr (Z.shiftl x 16) 12)) as [-> _].
    unfold byte_ok in Hx.
    rewrite lor255_small by (apply land63, Z.shiftr_nonneg, Z.shiftl_nonneg; lia).
    destruct (group3 x 0 0) as [E _]; [done|unfold byte_ok; lia..|].
    rewrite Z.shiftl_0_l, !Z.lor_0_r in E. by rewrite E.
  - apply Forall_cons in Hb as [Hx Hb]. apply Forall_cons in Hb as [Hy _]. cbn [encode_loop decode_loop].
    set (v := Z.lor (Z.shiftl x 16) (Z.shiftl y 8)). unfold byte_ok in Hx, Hy.
    assert (Hv : 0 <= v) by (apply Z.lor_nonneg; rewrite !Z.shiftl_nonneg; lia).
    destruct (DEC_enc (Z.shiftr v 18)) as [-> _], (DEC_enc (Z.shiftr v 12)) as [-> _], (DEC_enc (Z.shiftr v 6)) as [-> _].
    rewrite lor255_small by (try apply lor_not_255; apply land63, Z.shiftr_nonneg; lia).
    destruct (group3 x y 0) as (E1 & E2 & _); [done|done|unfold byte_ok; lia|].
    rewrite !Z.lor_0_r in E1, E2. fold v in E1, E2. by rewrite E1, E2.
  - apply Forall_cons in Hb as [Hx Hb]. apply Forall_cons in Hb as [Hy Hb]. apply Forall_cons in Hb as [Hz Hb].
    cbn [encode_loop decode_loop]. set (v := Z.lor (Z.lor (Z.shiftl x 16) (Z.shiftl y 8)) z).
    destruct (group3 x y z Hx Hy Hz) as (E1 & E2 & E3). fold v in E1, E2, E3. unfold byte_ok in Hx, Hy, Hz.
    assert (Hv : 0 <= v) by (apply Z.lor_nonneg; split; [apply Z.lor_nonneg; rewrite !Z.shiftl_nonneg|]; lia).
    destruct (DEC_enc (Z.shiftr v 18)) as [-> _], (DEC_enc (Z.shiftr v 12)) as [-> _],
      (DEC_enc (Z.shiftr v 6)) as [-> _], (DEC_enc v) as [-> _].
    rewrite lor255_small by (repeat apply lor_not_255; apply land63; rewrite ?Z.shiftr_nonneg; lia).
    by rewrite IH, E1, E2, E3.
Qed.

Lemma encode_loop_length inp : Z.of_nat (length (encode_loop inp)) = B64URL_ENCODED_LEN (Z.of_nat (length inp)).
Proof.
  unfold B64URL_ENCODED_LEN. induction inp as [|x|x y|x y z inp IH] using list3_ind; [done..|].
  cbn [encode_loop length]. rewrite !Nat2Z.inj_succ, IH. Z.div_mod_to_equations; lia.
Qed.

Lemma encode_loop_no_pad inp : Forall (fun c => c <> 61) (encode_loop inp) /\ cstr_ok (encode_loop inp).
Proof.
  induction inp as [|x|x y|x y z inp [IH1 IH2]] using list3_ind; (split; repeat constructor; cbv beta; try apply DEC_enc; done).
Qed.

Lemma unpad_id inp pad : Forall (fun c => c <> 61) inp -> unpad (inp ++ replicate pad 61) = inp.
Proof.
  intros Hf. unfold unpad. rewrite reverse_app, reverse_replicate.
  assert (E : drop_pad (replicate pad 61 ++ reverse inp) = reverse inp).
  { induction pad as [|pad IH]; [|exact IH]. cbn [replicate app]. apply Forall_reverse in Hf.
    destruct (reverse inp) as [|c r]; [done|]. apply Forall_cons in Hf as [Hc _]. cbn. by destruct (Z.eqb_spec c 61). }
  rewrite E. apply reverse_involutive.
Qed.

(** Encoding and decoding base64url is the identity on every byte string, with
    or without '=' padding added by a peer, whenever the two buffers are large
    enough; the text has exactly the announced length and only characters of the
    alphabet. *)
Theorem b64url_roundtrip (inp : list Z) (pad : nat) (text : cstr) (cap_e cap_d : Z) :
  bytes_ok inp -> b64url_encode inp cap_e = Some text -> Z.of_nat (length inp) <= cap_d ->
  Z.of_nat (length text) = B64URL_ENCODED_LEN (Z.of_nat (length inp)) /\ cstr_ok text /\
  b64url_decode (text ++ replicate pad 61) cap_d = Some inp.
Proof.
  intros Hb He Hd. unfold b64url_encode in He. destruct (_ <? _); [done|]. apply (inj Some) in He as <-.
  destruct (encode_loop_no_pad inp) as [H1 H2]. pose proof (encode_loop_length inp) as Hl.
  split_and!; [done|done|]. unfold b64url_decode. rewrite unpad_id, Hl by done. unfold B64URL_ENCODED_LEN.
  set (n := Z.of_nat (length inp)) in *. assert (0 <= n) by lia.
  destruct (Z.eqb_spec ((n * 4 + 2) / 3 mod 4) 1) as [E|E]; [exfalso; clear -E; Z.div_mod_to_equations; lia|].
  destruct (_ <? _) eqn:Ec; [|by apply decode_encode_loop].
  exfalso. apply Z.ltb_lt in Ec. clear -Ec Hd. destruct (Z.eqb_spec ((n * 4 + 2) / 3 mod 4) 0); cbn [negb] in Ec;
    Z.div_mod_to_equations; lia.
Qed.

Lemma b64url_roundtrip_witness :
  b64url_decode (str "_-4B" ++ replicate 2 61) 16 = Some [255; 238; 1].
Proof.
  apply (b64url_roundtrip [255; 238; 1] 2 (str "_-4B") 5 16).
  - repeat constructor; discriminate.
  - vm_compute. reflexivity.
  - cbn. lia.
Defined.
