(* ===== verification/BlobStore.v ===== *)
(** * Blob slots in the W25Q ([blob_store.c])

    The flash chip is the interface [W25q] ([w25q.h], driver code over the
    OCTOSPI bus); SHA-256 is mbedTLS's, a parameter. A slot is a header sector
    followed by the data; the headers are cached in [s_info]. *)

From S2P Require Import Prelude.

Abbreviation W25Q_SECTOR := 4096.
Abbreviation W25Q_BLOCK := 65536.
Abbreviation W25Q_PAGE := 256%nat.

(** What [w25q.h] offers while the bus is held: each call can fail. *)
Class W25q (W : Type) := {
  w25q_read_id : W -> option (list Z);
  w25q_read : W -> Z -> nat -> option (list Z);
  w25q_erase_sector : W -> Z -> W * bool;
  w25q_erase_block : W -> Z -> W * bool;
  w25q_program : W -> Z -> list Z -> W * bool;
}.

(** [mbedtls_sha256] over the concatenation of the updates. *)
Class Sha256 := { sha256 : list Z -> list Z }.

(** [w25q_capacity] of [w25q.c]. *)
Definition w25q_capacity (id : list Z) : Z :=
  if negb (nth 0 id 0 =? 0xEF) then 0
  else if nth 2 id 0 =? 0x17 then 8 * 1024 * 1024
  else if nth 2 id 0 =? 0x18 then 16 * 1024 * 1024
  else 0.

(** [blob_id_t]. *)
Abbreviation BLOB_GW0 := 0%nat.
Abbreviation BLOB_GW1 := 1%nat.
Abbreviation BLOB_ESP := 2%nat.
Abbreviation BLOB_COUNT := 3%nat.
Abbreviation BLOB_FW := 3%nat.
Abbreviation BLOB_CA := 4%nat.
Abbreviation BLOB_PROXY := 5%nat.
Abbreviation BLOB_BRIDGE := 6%nat.
Abbreviation BLOB_SLOT_COUNT := 7%nat.

Abbreviation BLOB_HDR_SIZE := 0x1000.
Abbreviation BLOB_HDR_MAGIC := 0x4C425042.
Abbreviation BLOB_HDR_VERSION := 1.
Abbreviation BLOB_COMMIT_OFF := 0x80.
Abbreviation BLOB_COMMIT_MAGIC := 0x544D4F43.
Abbreviation BLOB_EXTRA_OFF := 0x100.
Abbreviation BLOB_EXTRA_MAX := 0x100.

Record slot_t := Slot { sl_name : string; sl_base : Z; sl_size : Z }.
Definition k_slots : list slot_t :=
  [Slot "gw0" 0x100000 0x040000; Slot "gw1" 0x140000 0x040000; Slot "esp" 0x200000 0x400000;
   Slot "fw" 0x600000 0x100000; Slot "ca" 0x180000 0x010000; Slot "proxy" 0x190000 0x002000;
   Slot "bridge" 0x700000 0x100000].
Definition slot (id : nat) : slot_t := nth id k_slots (Slot "?" 0 0).

Record blob_hdr_t := BlobHdr { bh_magic : Z; bh_version : Z; bh_id : Z; bh_len : Z; bh_blob_version : Z; bh_sha256 : list Z }.

(** The 64 bytes of a header, reserved words included. *)
Definition blob_hdr_of_bytes (b : list Z) : blob_hdr_t :=
  BlobHdr (rd_le (sub 0 4 b)) (rd_le (sub 4 2 b)) (rd_le (sub 6 2 b)) (rd_le (sub 8 4 b)) (rd_le (sub 12 4 b)) (sub 16 32 b).
Definition blob_hdr_bytes (h : blob_hdr_t) : list Z :=
  le 4 (bh_magic h) ++ le 2 (bh_version h) ++ le 2 (bh_id h) ++ le 4 (bh_len h) ++ le 4 (bh_blob_version h) ++
  bh_sha256 h ++ replicate 16 0.

Record blob_info_t := BlobInfo { present : bool; bi_len : Z; bi_version : Z; bi_sha256 : list Z }.
Definition no_info : blob_info_t := BlobInfo false 0 0 (replicate 32 0).

Definition blob_slot_base (id : nat) : Z := if (id <? BLOB_SLOT_COUNT)%nat then sl_base (slot id) else 0.
Definition blob_slot_capacity (id : nat) : Z :=
  if (id <? BLOB_SLOT_COUNT)%nat then sl_size (slot id) - BLOB_HDR_SIZE else 0.
Definition blob_name (id : nat) : string := if (id <? BLOB_SLOT_COUNT)%nat then sl_name (slot id) else "?".

(** [BENCHPOD_WIFI_BRIDGE] is a build option. *)
Definition blob_listed (wifi_bridge : bool) (id : nat) : bool :=
  (wifi_bridge && (id =? BLOB_BRIDGE)%nat) || (id <? BLOB_COUNT)%nat.

Definition blob_from_name (wifi_bridge : bool) (name : option cstr) : Z :=
  match name with
  | None => -1
  | Some n =>
      match List.find (fun i => blob_listed wifi_bridge i && streq n (str (sl_name (slot i)))) (seq 0 BLOB_SLOT_COUNT) with
      | Some i => Z.of_nat i
      | None => -1
      end
  end.

Section blob.
Context `{W25q W} `{Sha256}.

Record blob_t := Blob { b_flash : W; s_info : list blob_info_t; s_capacity : Z }.

Definition slot_ok (st : blob_t) (id : nat) : bool :=
  (id <? BLOB_SLOT_COUNT)%nat && ((id <? BLOB_COUNT)%nat || (sl_base (slot id) + sl_size (slot id) <=? s_capacity st)).

Definition blob_store_info (st : blob_t) (id : nat) : option blob_info_t := s_info st !! id.
Definition blob_store_present (st : blob_t) (id : nat) : bool :=
  (id <? BLOB_SLOT_COUNT)%nat && match s_info st !! id with Some i => present i | None => false end.

(** What one slot's header says; [no_info] when it reads as empty. *)
Definition load_slot (w : W) (id : nat) : blob_info_t :=
  match w25q_read w (sl_base (slot id)) 64 with
  | None => no_info
  | Some hb =>
      match w25q_read w (sl_base (slot id) + BLOB_COMMIT_OFF) 4 with
      | None => no_info
      | Some cb =>
          let h := blob_hdr_of_bytes hb in
          if negb (bh_magic h =? BLOB_HDR_MAGIC) || negb (bh_version h =? BLOB_HDR_VERSION) ||
             negb (bh_id h =? Z.of_nat id) || negb (rd_le cb =? BLOB_COMMIT_MAGIC) ||
             (bh_len h =? 0) || (blob_slot_capacity id <? bh_len h)
          then no_info
          else BlobInfo true (bh_len h) (bh_blob_version h) (bh_sha256 h)
      end
  end.

Definition with_info (st : blob_t) (w : W) (id : nat) (i : blob_info_t) : blob_t :=
  Blob w (<[id := i]> (s_info st)) (s_capacity st).

(** The number of slots present, or -1. *)
Definition blob_store_load (st : blob_t) : blob_t * Z :=
  let w := b_flash st in
  let none := Blob w (replicate BLOB_SLOT_COUNT no_info) 0 in
  match w25q_read_id w with
  | None => (none, -1)
  | Some id =>
      if w25q_capacity id <? 0x600000 then (none, -1)
      else
        let cap := w25q_capacity id in
        let info := map (fun i => if slot_ok (Blob w [] cap) i then load_slot w i else no_info) (seq 0 BLOB_SLOT_COUNT) in
        (Blob w info cap, Z.of_nat (length (filter (fun i => present i = true) info)))
  end.

(** [while (addr < end)]: at most one turn per sector. *)
Fixpoint erase_loop (fuel : nat) (w : W) (addr end_ : Z) : W * bool :=
  if end_ <=? addr then (w, true)
  else
    match fuel with
    | O => (w, false)
    | S fuel' =>
        if (addr mod W25Q_BLOCK =? 0) && (W25Q_BLOCK <=? end_ - addr) then
          let '(w, ok) := w25q_erase_block w addr in
          if ok then erase_loop fuel' w (addr + W25Q_BLOCK) end_ else (w, false)
        else
          let '(w, ok) := w25q_erase_sector w addr in
          if ok then erase_loop fuel' w (addr + W25Q_SECTOR) end_ else (w, false)
    end.

Definition sector_down (a : Z) : Z := a / W25Q_SECTOR * W25Q_SECTOR.

Definition erase_range (w : W) (addr len : Z) : W * bool :=
  let end_ := sector_down (addr + len + W25Q_SECTOR - 1) in
  let addr := sector_down addr in
  erase_loop (Z.to_nat ((end_ - addr) / W25Q_SECTOR)) w addr end_.

(** The pages of [len] bytes: offsets in steps of a page. *)
Definition page_len (len off : Z) : nat :=
  if len - off <? Z.of_nat W25Q_PAGE then Z.to_nat (len - off) else W25Q_PAGE.

Fixpoint read_pages (k : nat) (w : W) (addr len off : Z) : option (list Z) :=
  match k with
  | O => Some []
  | S k' =>
      match w25q_read w (addr + off) (page_len len off) with
      | None => None
      | Some b =>
          match read_pages k' w addr len (off + Z.of_nat W25Q_PAGE) with
          | None => None
          | Some r => Some (b ++ r)
          end
      end
  end.
Definition n_pages (len : Z) : nat := Z.to_nat ((len + 255) / 256).

Definition hash_flash (w : W) (addr len : Z) : option (list Z) := sha256 <$> read_pages (n_pages len) w addr len 0.

(** The program loop; [src] gives the bytes at an offset, or fails. *)
Fixpoint program_pages (k : nat) (w : W) (data len off : Z) (src : Z -> nat -> option (list Z)) : W * bool :=
  match k with
  | O => (w, true)
  | S k' =>
      match src off (page_len len off) with
      | None => (w, false)
      | Some page =>
          let '(w, ok) := w25q_program w (data + off) page in
          if ok then program_pages k' w data len (off + Z.of_nat W25Q_PAGE) src else (w, false)
      end
  end.

Definition blob_store_read_extra (st : blob_t) (id : nat) (len : Z) : option (list Z) :=
  if negb (blob_store_present st id) || (BLOB_EXTRA_MAX <? len) then None
  else w25q_read (b_flash st) (sl_base (slot id) + BLOB_EXTRA_OFF) (Z.to_nat len).

Definition fail_empty (st : blob_t) (w : W) (id : nat) : blob_t * Z := (with_info st w id no_info, -1).

(** Erase, data, read-back hash, extra bytes, header, commit word, in this
    order; [sha] and [src] are not NULL. *)
Definition blob_store_write_ext (st : blob_t) (id : nat) (len version : Z) (sha : list Z)
    (src : Z -> nat -> option (list Z)) (extra : list Z) : blob_t * Z :=
  if negb (slot_ok st id) || (len =? 0) || (blob_slot_capacity id <? len) ||
     (BLOB_EXTRA_MAX <? Z.of_nat (length extra)) then (st, -1)
  else
    let base := sl_base (slot id) in
    let data := base + BLOB_HDR_SIZE in
    let '(w, ok) := erase_range (b_flash st) base (BLOB_HDR_SIZE + len) in
    if negb ok then fail_empty st w id
    else
      let '(w, ok) := program_pages (n_pages len) w data len 0 src in
      if negb ok then fail_empty st w id
      else
        match hash_flash w data len with
        | None => fail_empty st w id
        | Some got =>
            if negb (bool_decide (got = sha)) then fail_empty st w id
            else
              let '(w, ok) := if (length extra =? 0)%nat then (w, true) else w25q_program w (base + BLOB_EXTRA_OFF) extra in
              if negb ok then fail_empty st w id
              else
                let h := BlobHdr BLOB_HDR_MAGIC BLOB_HDR_VERSION (Z.of_nat id) len version sha in
                let '(w, ok) := w25q_program w base (blob_hdr_bytes h) in
                if negb ok then fail_empty st w id
                else
                  let '(w, ok) := w25q_program w (base + BLOB_COMMIT_OFF) (le 4 BLOB_COMMIT_MAGIC) in
                  if negb ok then fail_empty st w id
                  else
                    let i := load_slot w id in
                    (with_info st w id i, if present i then 0 else -1)
        end.

Definition blob_store_write (st : blob_t) (id : nat) (len version : Z) (sha : list Z)
    (src : Z -> nat -> option (list Z)) : blob_t * Z :=
  blob_store_write_ext st id len version sha src [].

Definition blob_store_clear (st : blob_t) (id : nat) : blob_t * Z :=
  if negb (slot_ok st id) then (st, -1)
  else
    let '(w, ok) := w25q_erase_sector (b_flash st) (sl_base (slot id)) in
    if negb ok then fail_empty st w id
    else
      let i := load_slot w id in
      (with_info st w id i, if present i then -1 else 0).

Definition blob_store_read (st : blob_t) (id : nat) (off : Z) (n : nat) : option (list Z) :=
  match s_info st !! id with
  | Some i =>
      if negb (present i) || (bi_len i <? off) || (bi_len i - off <? Z.of_nat n) then None
      else w25q_read (b_flash st) (sl_base (slot id) + BLOB_HDR_SIZE + off) n
  | None => None
  end.

Definition blob_store_verify (st : blob_t) (id : nat) : Z :=
  if negb (blob_store_present st id) then -1
  else
    match s_info st !! id with
    | None => -1
    | Some i =>
        match hash_flash (b_flash st) (sl_base (slot id) + BLOB_HDR_SIZE) (bi_len i) with
        | None => -1
        | Some got => if bool_decide (got = bi_sha256 i) then 0 else -1
        end
    end.

End blob.
Arguments blob_t : clear implicits.

(** [blob_state_of]; a NULL pointer is [None]. *)
Record blob_manifest_t := BlobManifest { bm_len : Z; bm_version : Z; bm_sha256 : list Z }.
Inductive blob_state_t := BLOB_STATE_OK | BLOB_STATE_OUTDATED | BLOB_STATE_MISSING | BLOB_STATE_UNKNOWN.

Definition blob_state_of (have : option blob_info_t) (want : option blob_manifest_t) : blob_state_t :=
  let wanted := match want with Some w => negb (bm_len w =? 0) | None => false end in
  match have with
  | Some i =>
      if negb (present i) then (if wanted then BLOB_STATE_MISSING else BLOB_STATE_UNKNOWN)
      else
        match want with
        | Some w =>
            if bm_len w =? 0 then BLOB_STATE_UNKNOWN
            else if (bi_len i =? bm_len w) && bool_decide (bi_sha256 i = bm_sha256 w) then BLOB_STATE_OK
            else BLOB_STATE_OUTDATED
        | None => BLOB_STATE_UNKNOWN
        end
  | None => if wanted then BLOB_STATE_MISSING else BLOB_STATE_UNKNOWN
  end.
