(* ===== verification/BlobTheorems.v ===== *)
(** * A blob slot never looks valid with the wrong data *)

From S2P Require Import Prelude BlobStore.

(** What the driver promises: a read that works returns the bytes; a call that
    fails, or is cut by a power loss, may leave anything in the range it was to
    change, and nothing elsewhere. *)
Class W25qLaws (W : Type) `{W25q W} := {
  w_byte : W -> Z -> Z;
  w_read w a n bs : w25q_read w a n = Some bs -> bs = map (fun i => w_byte w (a + Z.of_nat i)) (seq 0 n);
  w_sector_out w a x : ~ (a <= x < a + W25Q_SECTOR) -> w_byte (fst (w25q_erase_sector w a)) x = w_byte w x;
  w_sector_in w a x : snd (w25q_erase_sector w a) = true -> a <= x < a + W25Q_SECTOR ->
    w_byte (fst (w25q_erase_sector w a)) x = 255;
  w_block_out w a x : ~ (a <= x < a + W25Q_BLOCK) -> w_byte (fst (w25q_erase_block w a)) x = w_byte w x;
  w_block_in w a x : snd (w25q_erase_block w a) = true -> a <= x < a + W25Q_BLOCK ->
    w_byte (fst (w25q_erase_block w a)) x = 255;
  w_program_out w p bs x : ~ (p <= x < p + Z.of_nat (length bs)) -> w_byte (fst (w25q_program w p bs)) x = w_byte w x;
  w_program_in w p bs i b : snd (w25q_program w p bs) = true ->
    (forall x, p <= x < p + Z.of_nat (length bs) -> w_byte w x = 255) -> bs !! i = Some b ->
    w_byte (fst (w25q_program w p bs)) (p + Z.of_nat i) = b;
}.

(** The fuel of the erase loop, the number of sectors, is always enough. *)
Lemma erase_loop_fuel `{W25q W} f1 f2 (w : W) addr end_ :
  (end_ - addr) mod W25Q_SECTOR = 0 -> end_ - addr <= Z.of_nat f1 * W25Q_SECTOR -> end_ - addr <= Z.of_nat f2 * W25Q_SECTOR ->
  erase_loop f1 w addr end_ = erase_loop f2 w addr end_.
Proof.
  revert f2 w addr. induction f1 as [|f1 IH]; intros f2 w addr Hm H1 H2.
  { destruct f2; cbn [erase_loop]; (destruct (Z.leb_spec end_ addr); [done|lia]). }
  destruct f2 as [|f2]; cbn [erase_loop]; (destruct (Z.leb_spec end_ addr); [done|]); [lia|].
  destruct (_ && (W25Q_BLOCK <=? end_ - addr)) eqn:E.
  - apply andb_true_iff in E as [_ E]. destruct (w25q_erase_block w addr) as [w' []]; [|done].
    apply IH; [|lia..]. replace (end_ - (addr + W25Q_BLOCK)) with (end_ - addr + (-16) * W25Q_SECTOR) by lia.
    by rewrite Z.mod_add.
  - destruct (w25q_erase_sector w addr) as [w' []]; [|done].
    apply IH; [|lia..]. replace (end_ - (addr + W25Q_SECTOR)) with (end_ - addr + (-1) * W25Q_SECTOR) by lia.
    by rewrite Z.mod_add.
Qed.

Section blob.
Context `{WL : W25qLaws W} `{Sha256}.
Implicit Types (w : W).

Definition content w (a : Z) (n : nat) : list Z := bytes_at (w_byte w) a n.

(** Nothing outside [lo, hi) changed. *)
Definition only (lo hi : Z) w w' : Prop := forall x, ~ (lo <= x < hi) -> w_byte w' x = w_byte w x.

Lemma only_refl lo hi w : only lo hi w w.
Proof. done. Qed.

Lemma only_trans lo hi w1 w2 w3 : only lo hi w1 w2 -> only lo hi w2 w3 -> only lo hi w1 w3.
Proof. intros H1 H2 x Hx. by rewrite H2, H1. Qed.

Lemma only_weaken lo hi lo' hi' w w' : lo' <= lo -> hi <= hi' -> only lo hi w w' -> only lo' hi' w w'.
Proof. intros ?? Ho x Hx. apply Ho. lia. Qed.

Lemma content_only lo hi w w' a n :
  only lo hi w w' -> a + Z.of_nat n <= lo \/ hi <= a -> content w' a n = content w a n.
Proof. intros Ho Ha. apply bytes_at_eq. intros x Hx. apply Ho. lia. Qed.

(** ** Erasing and programming *)

Lemma aligned_step m d : m mod W25Q_SECTOR = 0 -> d mod W25Q_SECTOR = 0 -> (m - d) mod W25Q_SECTOR = 0.
Proof. intros H1 H2. by rewrite Zminus_mod, H1, H2. Qed.

Lemma aligned_pos m : m mod W25Q_SECTOR = 0 -> 0 < m -> W25Q_SECTOR <= m.
Proof. intros. Z.div_mod_to_equations; lia. Qed.

Lemma erase_loop_only fuel w addr end_ :
  (end_ - addr) mod W25Q_SECTOR = 0 -> only addr end_ w (fst (erase_loop fuel w addr end_)).
Proof.
  revert w addr. induction fuel as [|fuel IH]; intros w addr Hm; cbn [erase_loop];
    (destruct (Z.leb_spec end_ addr); [apply only_refl|]); [apply only_refl|].
  pose proof (aligned_pos _ Hm ltac:(lia)).
  destruct (_ && (W25Q_BLOCK <=? end_ - addr)) eqn:E.
  - apply andb_true_iff in E as [_ E].
    assert (Ho : only addr end_ w (fst (w25q_erase_block w addr))) by (intros x Hx; apply w_block_out; lia).
    destruct (w25q_erase_block w addr) as [w' []]; [|done]. eapply only_trans; [exact Ho|].
    eapply only_weaken; [| |apply IH]; [lia|lia|]. rewrite Z.sub_add_distr. by apply aligned_step.
  - assert (Ho : only addr end_ w (fst (w25q_erase_sector w addr))) by (intros x Hx; apply w_sector_out; lia).
    destruct (w25q_erase_sector w addr) as [w' []]; [|done]. eapply only_trans; [exact Ho|].
    eapply only_weaken; [| |apply IH]; [lia|lia|]. rewrite Z.sub_add_distr. by apply aligned_step.
Qed.

(** After a complete erase everything in the range is blank. *)
Lemma erase_loop_blank fuel w addr end_ :
  (end_ - addr) mod W25Q_SECTOR = 0 -> snd (erase_loop fuel w addr end_) = true ->
  forall x, addr <= x < end_ -> w_byte (fst (erase_loop fuel w addr end_)) x = 255.
Proof.
  revert w addr. induction fuel as [|fuel IH]; intros w addr Hm; cbn [erase_loop];
    (destruct (Z.leb_spec end_ addr); [cbn; intros; lia|]); [done|].
  pose proof (aligned_pos _ Hm ltac:(lia)). intros Hok x Hx.
  destruct (_ && (W25Q_BLOCK <=? end_ - addr)) eqn:E.
  - apply andb_true_iff in E as [_ E].
    assert (Hm' : (end_ - (addr + W25Q_BLOCK)) mod W25Q_SECTOR = 0) by (rewrite Z.sub_add_distr; by apply aligned_step).
    pose proof (w_block_in w addr x) as Hin. destruct (w25q_erase_block w addr) as [w' ok]. cbn [fst snd] in Hin.
    destruct ok; [|done]. destruct (decide (addr + W25Q_BLOCK <= x)) as [Hd|Hd]; [apply IH; (done || lia)|].
    rewrite (erase_loop_only fuel w' _ end_ Hm') by lia. apply Hin; [done|lia].
  - assert (Hm' : (end_ - (addr + W25Q_SECTOR)) mod W25Q_SECTOR = 0) by (rewrite Z.sub_add_distr; by apply aligned_step).
    pose proof (w_sector_in w addr x) as Hin. destruct (w25q_erase_sector w addr) as [w' ok]. cbn [fst snd] in Hin.
    destruct ok; [|done]. destruct (decide (addr + W25Q_SECTOR <= x)) as [Hd|Hd]; [apply IH; (done || lia)|].
    rewrite (erase_loop_only fuel w' _ end_ Hm') by lia. apply Hin; [done|lia].
Qed.

(** The first call of [erase_range], a block or a sector. *)
Definition first_erase w (addr len : Z) : W * bool :=
  if (addr mod W25Q_BLOCK =? 0) && (W25Q_BLOCK <=? sector_down (addr + len + W25Q_SECTOR - 1) - addr)
  then w25q_erase_block w addr else w25q_erase_sector w addr.

Lemma first_erase_blank w addr len x :
  snd (first_erase w addr len) = true -> addr <= x < addr + W25Q_SECTOR -> w_byte (fst (first_erase w addr len)) x = 255.
Proof.
  unfold first_erase. destruct (_ && _); intros Hok Hx; [apply w_block_in|apply w_sector_in]; (done || lia).
Qed.

Lemma sector_down_aligned a : a mod W25Q_SECTOR = 0 -> sector_down a = a.
Proof. unfold sector_down. intros. Z.div_mod_to_equations; lia. Qed.

Lemma sector_down_bounds a : sector_down a <= a < sector_down a + W25Q_SECTOR /\ sector_down a mod W25Q_SECTOR = 0.
Proof.
  unfold sector_down. split; [Z.div_mod_to_equations; lia|]. by rewrite Z.mod_mul.
Qed.

(** The whole erase: where it writes, that it blanks, and that its first sector
    is blank once the first call worked, whatever happened afterwards. *)
Lemma erase_range_spec w addr len hi :
  addr mod W25Q_SECTOR = 0 -> 0 < len -> addr + len <= hi -> hi mod W25Q_SECTOR = 0 ->
  let '(w', ok) := erase_range w addr len in
  only addr hi w w' /\
  (ok = true -> forall x, addr <= x < addr + len -> w_byte w' x = 255) /\
  (snd (first_erase w addr len) = true -> forall x, addr <= x < addr + W25Q_SECTOR -> w_byte w' x = 255) /\
  (ok = true -> snd (first_erase w addr len) = true).
Proof.
  intros Ha Hl Hh Hhm. unfold erase_range. rewrite (sector_down_aligned addr) by done.
  set (end_ := sector_down (addr + len + W25Q_SECTOR - 1)).
  destruct (sector_down_bounds (addr + len + W25Q_SECTOR - 1)) as [Hb He]. fold end_ in Hb, He.
  assert (Hm : (end_ - addr) mod W25Q_SECTOR = 0) by (by apply aligned_step).
  assert (Hhi : end_ <= hi).
  { pose proof (aligned_step hi end_ Hhm He). destruct (decide (end_ <= hi)); [done|].
    pose proof (aligned_step end_ hi He Hhm) as Hq. pose proof (aligned_pos _ Hq). lia. }
  pose proof (aligned_pos (end_ - addr) Hm ltac:(lia)) as Hsec.
  set (fuel := Z.to_nat ((end_ - addr) / W25Q_SECTOR)).
  pose proof (erase_loop_only fuel w addr end_ Hm) as Ho. pose proof (erase_loop_blank fuel w addr end_ Hm) as Hbl.
  assert (Hfirst : (snd (first_erase w addr len) = true -> forall x, addr <= x < addr + W25Q_SECTOR ->
      w_byte (fst (erase_loop fuel w addr end_)) x = 255) /\
    (snd (erase_loop fuel w addr end_) = true -> snd (first_erase w addr len) = true)).
  { pose proof (first_erase_blank w addr len) as Hf. unfold first_erase in *. fold end_ in Hf |- *.
    subst fuel. destruct (Z.to_nat ((end_ - addr) / W25Q_SECTOR)) as [|fuel] eqn:Ef.
    { exfalso. assert (1 <= (end_ - addr) / W25Q_SECTOR) by (apply Z.div_le_lower_bound; lia). lia. }
    cbn [erase_loop]. destruct (Z.leb_spec end_ addr); [lia|].
    destruct (_ && (W25Q_BLOCK <=? end_ - addr)) eqn:E.
    - destruct (w25q_erase_block w addr) as [w' ok]. cbn [fst snd] in Hf. destruct ok; [|done]. split; [|done].
      intros _ x Hx. rewrite erase_loop_only; [by apply Hf| |lia]. rewrite Z.sub_add_distr. by apply aligned_step.
    - destruct (w25q_erase_sector w addr) as [w' ok]. cbn [fst snd] in Hf. destruct ok; [|done]. split; [|done].
      intros _ x Hx. rewrite erase_loop_only; [by apply Hf| |lia]. rewrite Z.sub_add_distr. by apply aligned_step. }
  destruct (erase_loop fuel w addr end_) as [w' ok]. cbn [fst snd] in *. destruct Hfirst as [Hf1 Hf2].
  split_and!; [eapply only_weaken; [| |exact Ho]; lia| |exact Hf1|exact Hf2].
  intros Hok x Hx. apply Hbl; [done|lia].
Qed.

Lemma page_len_bound len off : 0 <= off <= len -> (Z.of_nat (page_len len off) <= len - off)%Z.
Proof. intros. unfold page_len. destruct (Z.ltb_spec (len - off) (Z.of_nat 256)); lia. Qed.

(** The loops make [n_pages len] turns: the last one still starts inside. *)
Definition turns_ok (k : nat) (len off : Z) : Prop := (0 < k)%nat -> off + 256 * (Z.of_nat k - 1) < len.

Lemma n_pages_ok len : 0 < len -> turns_ok (n_pages len) len 0 /\ len <= 256 * Z.of_nat (n_pages len).
Proof. intros Hl. unfold turns_ok, n_pages. split; [intros _|]; Z.div_mod_to_equations; lia. Qed.

Lemma turns_next k len off : turns_ok (S k) len off -> turns_ok k len (off + Z.of_nat W25Q_PAGE).
Proof. unfold turns_ok. intros Ht Hk. specialize (Ht ltac:(lia)). lia. Qed.

Lemma program_pages_only k w data len off src :
  (forall o n p, src o n = Some p -> length p = n) -> 0 <= off -> turns_ok k len off ->
  only data (data + len) w (fst (program_pages k w data len off src)).
Proof.
  intros Hsrc. revert w off. induction k as [|k IH]; intros w off Hoff Ht; [done|]. cbn [program_pages].
  destruct (src off (page_len len off)) as [page|] eqn:Es; [|done]. apply Hsrc in Es.
  pose proof (Ht ltac:(lia)). pose proof (page_len_bound len off ltac:(lia)) as Hp.
  assert (Ho : only data (data + len) w (fst (w25q_program w (data + off) page)))
    by (intros x Hx; apply w_program_out; lia).
  destruct (w25q_program w (data + off) page) as [w' []]; [|done]. cbn [fst] in Ho.
  eapply only_trans; [exact Ho|]. apply IH; [lia|by apply turns_next].
Qed.

Lemma read_pages_content k w addr len off bs :
  0 <= off -> turns_ok k len off -> len <= off + 256 * Z.of_nat k -> off <= len \/ k = 0%nat ->
  read_pages k w addr len off = Some bs -> bs = content w (addr + off) (Z.to_nat (len - off)).
Proof.
  revert off bs. induction k as [|k IH]; intros off bs Hoff Ht Hk Hle E.
  { apply (inj Some) in E as <-. by replace (Z.to_nat (len - off)) with 0%nat by lia. }
  cbn [read_pages] in E. destruct (w25q_read w (addr + off) (page_len len off)) as [b|] eqn:Er; [|done].
  destruct (read_pages k w addr len (off + Z.of_nat W25Q_PAGE)) as [r|] eqn:Ep; [|done].
  apply (inj Some) in E as <-. apply w_read in Er. fold (content w (addr + off) (page_len len off)) in Er.
  pose proof (Ht ltac:(lia)) as Hlt. apply IH in Ep; [|lia|by apply turns_next|lia|].
  2:{ destruct k as [|k]; [by right|left]. apply turns_next in Ht. specialize (Ht ltac:(lia)). lia. }
  subst b r. unfold page_len. destruct (Z.ltb_spec (len - off) (Z.of_nat 256)).
  - replace (Z.to_nat (len - (off + Z.of_nat 256))) with 0%nat by lia. cbn [content seq map]. apply app_nil_r.
  - replace (Z.to_nat (len - off)) with (256 + Z.to_nat (len - (off + Z.of_nat 256)))%nat by lia.
    unfold content. rewrite bytes_at_app. do 2 f_equal. lia.
Qed.

Lemma hash_flash_content w addr len h :
  0 < len -> hash_flash w addr len = Some h -> h = sha256 (content w addr (Z.to_nat len)).
Proof.
  intros Hl. unfold hash_flash. destruct (n_pages_ok len Hl) as [H1 H2].
  destruct (read_pages _ _ _ _ _) as [bs|] eqn:E; [|done]. cbn. intros [= <-]. f_equal.
  apply read_pages_content in E; [|lia|done|lia|left; lia]. by rewrite Z.add_0_r, Z.sub_0_r in E.
Qed.

(** ** What a header says *)

Definition hdr_info (id : nat) (hb cb : list Z) : blob_info_t :=
  let h := blob_hdr_of_bytes hb in
  if negb (bh_magic h =? BLOB_HDR_MAGIC) || negb (bh_version h =? BLOB_HDR_VERSION) ||
     negb (bh_id h =? Z.of_nat id) || negb (rd_le cb =? BLOB_COMMIT_MAGIC) ||
     (bh_len h =? 0) || (blob_slot_capacity id <? bh_len h)
  then no_info
  else BlobInfo true (bh_len h) (bh_blob_version h) (bh_sha256 h).

(** The slot as the bytes on the chip have it. *)
Definition slot_info w (id : nat) : blob_info_t :=
  hdr_info id (content w (sl_base (slot id)) 64) (content w (sl_base (slot id) + BLOB_COMMIT_OFF) 4).

(** A slot that reads as present holds the data its header announces. *)
Definition slot_intact w (id : nat) : Prop :=
  present (slot_info w id) = true ->
  sha256 (content w (sl_base (slot id) + BLOB_HDR_SIZE) (Z.to_nat (bi_len (slot_info w id)))) = bi_sha256 (slot_info w id).

Lemma load_slot_info w id : present (load_slot w id) = true -> load_slot w id = slot_info w id.
Proof.
  unfold load_slot, slot_info.
  destruct (w25q_read w (sl_base (slot id)) 64) as [hb|] eqn:E1; [|done].
  destruct (w25q_read w (sl_base (slot id) + BLOB_COMMIT_OFF) 4) as [cb|] eqn:E2; [|done].
  intros _. apply w_read in E1, E2. by rewrite E1, E2.
Qed.

(** The slots of the table: sectors, room for the header, no overlap. *)
Lemma slot_geometry id :
  (id < BLOB_SLOT_COUNT)%nat ->
  sl_base (slot id) mod W25Q_SECTOR = 0 /\ sl_size (slot id) mod W25Q_SECTOR = 0 /\
  2 * W25Q_SECTOR <= sl_size (slot id) /\ 0 <= sl_base (slot id) /\
  blob_slot_capacity id = sl_size (slot id) - BLOB_HDR_SIZE /\ sl_size (slot id) <= 0x400000.
Proof. intros Hi. do 7 (destruct id as [|id]; [vm_compute; repeat split; discriminate|]). lia. Qed.

Lemma slots_disjoint i j :
  (i < BLOB_SLOT_COUNT)%nat -> (j < BLOB_SLOT_COUNT)%nat -> i <> j ->
  sl_base (slot i) + sl_size (slot i) <= sl_base (slot j) \/ sl_base (slot j) + sl_size (slot j) <= sl_base (slot i).
Proof.
  intros Hi Hj Hne.
  assert (Hb : forallb (fun i => forallb (fun j => (i =? j)%nat ||
      (sl_base (slot i) + sl_size (slot i) <=? sl_base (slot j)) ||
      (sl_base (slot j) + sl_size (slot j) <=? sl_base (slot i))) (seq 0 7)) (seq 0 7) = true)
    by (vm_compute; reflexivity).
  rewrite forallb_forall in Hb. specialize (Hb i). rewrite forallb_forall in Hb.
  assert (In i (seq 0 7)) by (apply in_seq; lia). assert (In j (seq 0 7)) by (apply in_seq; lia).
  specialize (Hb ltac:(done) j ltac:(done)). rewrite !orb_true_iff, Nat.eqb_eq, !Z.leb_le in Hb. tauto.
Qed.

(** No commit word, no slot. *)
Lemma no_commit w id :
  (forall x, sl_base (slot id) + BLOB_COMMIT_OFF <= x < sl_base (slot id) + BLOB_COMMIT_OFF + 4 -> w_byte w x = 255) ->
  present (slot_info w id) = false.
Proof.
  intros Hx. unfold slot_info.
  assert (E : content w (sl_base (slot id) + BLOB_COMMIT_OFF) 4 = [255; 255; 255; 255]).
  { unfold content, bytes_at. cbn [seq map]. by rewrite !Hx by lia. }
  rewrite E. unfold hdr_info. change (rd_le [255; 255; 255; 255] =? BLOB_COMMIT_MAGIC) with false.
  cbn [negb]. by rewrite !orb_true_r.
Qed.

Lemma hdr_parse id len version sha :
  0 <= len < 4294967296 -> 0 <= version < 4294967296 -> length sha = 32%nat -> Z.of_nat id < 65536 ->
  blob_hdr_of_bytes (blob_hdr_bytes (BlobHdr BLOB_HDR_MAGIC BLOB_HDR_VERSION (Z.of_nat id) len version sha)) =
    BlobHdr BLOB_HDR_MAGIC BLOB_HDR_VERSION (Z.of_nat id) len version sha.
Proof.
  intros Hl Hv Hs Hi. unfold blob_hdr_of_bytes, blob_hdr_bytes, sub.
  cbn [bh_magic bh_version bh_id bh_len bh_blob_version bh_sha256 le app drop]. rewrite !drop_0. f_equal.
  - cbn [take]. apply (rd_le_le 2 (Z.of_nat id)). lia.
  - cbn [take]. by apply (rd_le_le 4 len).
  - cbn [take]. by apply (rd_le_le 4 version).
  - by apply take_app_length'.
Qed.

Lemma blob_hdr_bytes_length h : length (bh_sha256 h) = 32%nat -> length (blob_hdr_bytes h) = 64%nat.
Proof. intros Hs. unfold blob_hdr_bytes. rewrite !length_app, !le_length, Hs. done. Qed.

(** A header written whole, whatever became of the commit word. *)
Lemma written_header w id len version sha :
  (id < BLOB_SLOT_COUNT)%nat -> 0 < len <= blob_slot_capacity id -> 0 <= version < 4294967296 -> length sha = 32%nat ->
  content w (sl_base (slot id)) 64 =
    blob_hdr_bytes (BlobHdr BLOB_HDR_MAGIC BLOB_HDR_VERSION (Z.of_nat id) len version sha) ->
  present (slot_info w id) = true -> slot_info w id = BlobInfo true len version sha.
Proof.
  intros Hi Hl Hv Hs Hc. destruct (slot_geometry id Hi) as (_ & _ & _ & _ & Hcap & Hmax).
  unfold slot_info, hdr_info. rewrite Hc, hdr_parse by (done || lia).
  cbn [bh_magic bh_version bh_id bh_len bh_blob_version bh_sha256]. cbv zeta. by destruct (_ || _).
Qed.

(** A program call that worked on blank flash left its bytes there. *)
Lemma programmed w p bs :
  snd (w25q_program w p bs) = true -> (forall x, p <= x < p + Z.of_nat (length bs) -> w_byte w x = 255) ->
  content (fst (w25q_program w p bs)) p (length bs) = bs.
Proof.
  intros Hok Hb. apply bytes_at_is. intros i b. by apply w_program_in.
Qed.

Lemma blank_intact w id :
  (forall x, sl_base (slot id) <= x < sl_base (slot id) + BLOB_EXTRA_OFF -> w_byte w x = 255) -> slot_intact w id.
Proof. intros Hb Hp. rewrite no_commit in Hp; [done|]. intros x Hx. apply Hb. lia. Qed.

(** The part of a slot that holds its data and the header area before the extra
    bytes, seen through a change elsewhere in the slot. *)
Lemma blank_only lo hi a b w w' :
  only lo hi w w' -> b <= lo \/ hi <= a ->
  (forall x, a <= x < b -> w_byte w x = 255) -> forall x, a <= x < b -> w_byte w' x = 255.
Proof. intros Ho Hd Hb x Hx. rewrite Ho by lia. by apply Hb. Qed.

Lemma program_only w p bs : only p (p + Z.of_nat (length bs)) w (fst (w25q_program w p bs)).
Proof. intros x Hx. by apply w_program_out. Qed.

(** The outcome of writing slot [id] from [w]: nothing outside the slot moved,
    and the slot reads as absent or as exactly the new blob. *)
Definition write_outcome w (id : nat) (len version : Z) (sha : list Z) w' : Prop :=
  only (sl_base (slot id)) (sl_base (slot id) + sl_size (slot id)) w w' /\
  (present (slot_info w' id) = true ->
   slot_info w' id = BlobInfo true len version sha /\
   sha256 (content w' (sl_base (slot id) + BLOB_HDR_SIZE) (Z.to_nat len)) = sha).

Lemma outcome_blank w id len version sha w' :
  only (sl_base (slot id)) (sl_base (slot id) + sl_size (slot id)) w w' ->
  (forall x, sl_base (slot id) <= x < sl_base (slot id) + BLOB_EXTRA_OFF -> w_byte w' x = 255) ->
  write_outcome w id len version sha w'.
Proof.
  intros Ho Hb. split; [done|]. rewrite no_commit; [done|]. intros x Hx. apply Hb. lia.
Qed.

(** The tail of a write: the extra bytes, the header and the commit word, on a
    blank header and data that hash to [sha]. *)
Lemma write_tail w0 w id len version sha extra :
  (id < BLOB_SLOT_COUNT)%nat -> 0 < len <= blob_slot_capacity id -> 0 <= version < 4294967296 -> length sha = 32%nat ->
  Z.of_nat (length extra) <= BLOB_EXTRA_MAX ->
  only (sl_base (slot id)) (sl_base (slot id) + sl_size (slot id)) w0 w ->
  (forall x, sl_base (slot id) <= x < sl_base (slot id) + BLOB_EXTRA_OFF -> w_byte w x = 255) ->
  sha256 (content w (sl_base (slot id) + BLOB_HDR_SIZE) (Z.to_nat len)) = sha ->
  let base := sl_base (slot id) in
  let w1 := if (length extra =? 0)%nat then (w, true) else w25q_program w (base + BLOB_EXTRA_OFF) extra in
  let w2 := w25q_program (fst w1) base (blob_hdr_bytes (BlobHdr BLOB_HDR_MAGIC BLOB_HDR_VERSION (Z.of_nat id) len version sha)) in
  let w3 := w25q_program (fst w2) (base + BLOB_COMMIT_OFF) (le 4 BLOB_COMMIT_MAGIC) in
  write_outcome w0 id len version sha (fst w1) /\ write_outcome w0 id len version sha (fst w2) /\
  (snd w2 = true -> write_outcome w0 id len version sha (fst w3)).
Proof.
  intros Hi Hl Hv Hs He Ho Hb Hd base w1 w2 w3.
  destruct (slot_geometry id Hi) as (_ & _ & Hsz & _ & Hcap & _). fold base in Ho, Hb, Hd |- *.
  set (h := BlobHdr _ _ _ len version sha) in *.
  assert (Hh : length (blob_hdr_bytes h) = 64%nat) by (by apply blob_hdr_bytes_length).
  assert (O1 : only (base + BLOB_EXTRA_OFF) (base + BLOB_EXTRA_OFF + BLOB_EXTRA_MAX) w (fst w1)).
  { subst w1. destruct (_ =? 0)%nat; [apply only_refl|]. eapply only_weaken; [| |apply program_only]; lia. }
  assert (O2 : only base (base + 64) (fst w1) (fst w2)).
  { eapply only_weaken; [| |apply program_only]; [lia|]. rewrite Hh. lia. }
  assert (O3 : only (base + BLOB_COMMIT_OFF) (base + BLOB_COMMIT_OFF + 4) (fst w2) (fst w3))
    by (intros x Hx; apply w_program_out; rewrite le_length; lia).
  assert (Hb1 : forall x, base <= x < base + BLOB_EXTRA_OFF -> w_byte (fst w1) x = 255)
    by (eapply blank_only; [exact O1|lia|exact Hb]).
  assert (S1 : only base (base + sl_size (slot id)) w0 (fst w1))
    by (eapply only_trans; [exact Ho|eapply only_weaken; [| |exact O1]; lia]).
  assert (S2 : only base (base + sl_size (slot id)) w0 (fst w2))
    by (eapply only_trans; [exact S1|eapply only_weaken; [| |exact O2]; lia]).
  split; [by apply outcome_blank|]. split.
  - split; [done|]. rewrite no_commit; [done|]. fold base. eapply blank_only; [exact O2|lia|].
    intros x Hx. apply Hb1. lia.
  - intros Hok. split; [eapply only_trans; [exact S2|eapply only_weaken; [| |exact O3]; lia]|]. fold base.
    intros Hp. split.
    + apply written_header; try done. fold base h. rewrite (content_only _ _ _ _ _ _ O3) by lia. rewrite <- Hh.
      apply programmed; [done|]. intros x Hx. apply Hb1. lia.
    + rewrite (content_only _ _ _ _ _ _ O3), (content_only _ _ _ _ _ _ O2), (content_only _ _ _ _ _ _ O1) by lia. done.
Qed.

(** What a caller gets: the slot's bytes as [write_outcome] says, the cached
    entry absent after an error and exactly the new blob after success. *)
Definition write_result (st : blob_t W) (id : nat) (len version : Z) (sha : list Z) (r : blob_t W * Z) : Prop :=
  write_outcome (b_flash st) id len version sha (b_flash (fst r)) /\
  (snd r = 0 -> s_info (fst r) !! id = Some (BlobInfo true len version sha) /\
                slot_info (b_flash (fst r)) id = BlobInfo true len version sha) /\
  (snd r <> 0 -> option_map present (s_info (fst r) !! id) = Some false) /\
  (forall j, j <> id -> s_info (fst r) !! j = s_info st !! j).

Lemma with_info_lookup (st : blob_t W) w id i :
  (id < length (s_info st))%nat -> s_info (with_info st w id i) !! id = Some i.
Proof. intros. by apply list_lookup_insert_eq. Qed.

Lemma fail_result st w id len version sha :
  (id < length (s_info st))%nat -> write_outcome (b_flash st) id len version sha w ->
  write_result st id len version sha (fail_empty st w id).
Proof.
  intros Hi Ho. split; [done|]. unfold fail_empty. cbn [fst snd]. split; [done|]. split.
  - intros _. by rewrite with_info_lookup.
  - intros j Hj. by apply list_lookup_insert_ne.
Qed.

Lemma commit_result st w id len version sha :
  (id < length (s_info st))%nat -> write_outcome (b_flash st) id len version sha w ->
  write_result st id len version sha
    (with_info st w id (load_slot w id), if present (load_slot w id) then 0 else -1).
Proof.
  intros Hi Ho. split; [done|]. cbn [fst snd]. rewrite with_info_lookup by done.
  destruct (present (load_slot w id)) eqn:E.
  - rewrite load_slot_info in E |- * by done. destruct (proj2 Ho E) as [Ei _].
    split; [intros _; split; [by rewrite Ei|exact Ei]|]. split; [done|]. intros j Hj. by apply list_lookup_insert_ne.
  - split; [done|]. split; [intros _; cbn; by rewrite E|]. intros j Hj. by apply list_lookup_insert_ne.
Qed.

Lemma write_ext_result st id len version sha src extra :
  slot_ok st id = true -> (id < length (s_info st))%nat ->
  0 < len <= blob_slot_capacity id -> 0 <= version < 4294967296 -> length sha = 32%nat ->
  Z.of_nat (length extra) <= BLOB_EXTRA_MAX ->
  (forall o n p, src o n = Some p -> length p = n) ->
  snd (first_erase (b_flash st) (sl_base (slot id)) (BLOB_HDR_SIZE + len)) = true ->
  write_result st id len version sha (blob_store_write_ext st id len version sha src extra).
Proof.
  intros Hsl Hi Hl Hv Hs He Hsrc Hf. unfold blob_store_write_ext. rewrite Hsl.
  assert (Hid : (id < BLOB_SLOT_COUNT)%nat).
  { unfold slot_ok in Hsl. apply andb_true_iff in Hsl as [Hsl _]. by apply Nat.ltb_lt. }
  destruct (slot_geometry id Hid) as (Ha & Hz & Hsz & Hb0 & Hcap & _).
  destruct (Z.eqb_spec len 0); [lia|]. destruct (Z.ltb_spec (blob_slot_capacity id) len); [lia|].
  destruct (Z.ltb_spec BLOB_EXTRA_MAX (Z.of_nat (length extra))); [lia|]. cbn [negb orb].
  pose proof (erase_range_spec (b_flash st) (sl_base (slot id)) (BLOB_HDR_SIZE + len)
    (sl_base (slot id) + sl_size (slot id)) Ha ltac:(lia) ltac:(lia)) as Her.
  rewrite Z.add_mod, Ha, Hz in Her by done. specialize (Her eq_refl).
  destruct (erase_range _ _ _) as [w1 ok1]. destruct Her as (O1 & _ & B1 & _). specialize (B1 Hf).
  assert (R1 : write_outcome (b_flash st) id len version sha w1)
    by (apply outcome_blank; [done|]; intros; apply B1; lia).
  destruct ok1; cbn [negb]; [|by apply fail_result].
  destruct (n_pages_ok len ltac:(lia)) as [Ht _].
  pose proof (program_pages_only (n_pages len) w1 (sl_base (slot id) + BLOB_HDR_SIZE) len 0 src Hsrc ltac:(lia) Ht) as O2.
  destruct (program_pages _ _ _ _ _ _) as [w2 ok2]. cbn [fst] in O2.
  assert (B2 : forall x, sl_base (slot id) <= x < sl_base (slot id) + BLOB_EXTRA_OFF -> w_byte w2 x = 255)
    by (eapply blank_only; [exact O2|lia|]; intros; apply B1; lia).
  assert (O12 : only (sl_base (slot id)) (sl_base (slot id) + sl_size (slot id)) (b_flash st) w2)
    by (eapply only_trans; [exact O1|eapply only_weaken; [| |exact O2]; lia]).
  assert (R2 : write_outcome (b_flash st) id len version sha w2) by (by apply outcome_blank).
  destruct ok2; cbn [negb]; [|by apply fail_result].
  destruct (hash_flash w2 _ len) as [got|] eqn:Eh; [|by apply fail_result].
  apply hash_flash_content in Eh; [|lia]. case_bool_decide as Eg; cbn [negb]; [|by apply fail_result].
  rewrite Eg in Eh.
  destruct (write_tail (b_flash st) w2 id len version sha extra) as (T1 & T2 & T3); try done.
  destruct (if (length extra =? 0)%nat then (w2, true) else _) as [w3 ok3]; cbn [fst snd] in T1, T2, T3.
  destruct ok3; cbn [negb]; [|by apply fail_result].
  destruct (w25q_program w3 _ _) as [w4 ok4]; cbn [fst snd] in T2, T3.
  destruct ok4; cbn [negb]; [|by apply fail_result]. specialize (T3 eq_refl).
  destruct (w25q_program w4 _ _) as [w5 ok5]; cbn [fst snd] in T3.
  destruct ok5; cbn [negb]; [|by apply fail_result]. by apply commit_result.
Qed.

(** Success says that the slot is usable and the first erase worked. *)
Lemma write_ext_zero st id len version sha src extra :
  0 < len -> snd (blob_store_write_ext st id len version sha src extra) = 0 ->
  slot_ok st id = true /\ len <= blob_slot_capacity id /\ Z.of_nat (length extra) <= BLOB_EXTRA_MAX /\
  snd (first_erase (b_flash st) (sl_base (slot id)) (BLOB_HDR_SIZE + len)) = true.
Proof.
  intros Hl. unfold blob_store_write_ext. destruct (slot_ok st id) eqn:Hsl; [|done].
  assert (Hid : (id < BLOB_SLOT_COUNT)%nat).
  { unfold slot_ok in Hsl. apply andb_true_iff in Hsl as [Hsl _]. by apply Nat.ltb_lt. }
  destruct (slot_geometry id Hid) as (Ha & Hz & Hsz & Hb0 & Hcap & _).
  destruct (Z.eqb_spec len 0); [lia|]. destruct (Z.ltb_spec (blob_slot_capacity id) len); [done|].
  destruct (Z.ltb_spec BLOB_EXTRA_MAX (Z.of_nat (length extra))); [done|]. cbn [negb orb].
  pose proof (erase_range_spec (b_flash st) (sl_base (slot id)) (BLOB_HDR_SIZE + len)
    (sl_base (slot id) + sl_size (slot id)) Ha ltac:(lia) ltac:(lia)) as Her.
  rewrite Z.add_mod, Ha, Hz in Her by done. specialize (Her eq_refl).
  destruct (erase_range _ _ _) as [w1 []]; [|done]. destruct Her as (_ & _ & _ & Hf). cbn [negb].
  intros _. split_and!; [done..|by apply Hf].
Qed.

Lemma outcome_intact w id len version sha w' :
  write_outcome w id len version sha w' -> slot_intact w' id.
Proof. intros [_ Ho] Hp. destruct (Ho Hp) as [-> Hd]. done. Qed.

Lemma outcome_other w id len version sha w' j :
  (id < BLOB_SLOT_COUNT)%nat -> (j < BLOB_SLOT_COUNT)%nat -> j <> id -> write_outcome w id len version sha w' ->
  slot_info w' j = slot_info w j /\ (slot_intact w j -> slot_intact w' j).
Proof.
  intros Hi Hj Hne [Ho _]. pose proof (slots_disjoint j id Hj Hi Hne) as Hd.
  destruct (slot_geometry j Hj) as (_ & _ & Hsz & _ & Hcap & _).
  assert (Es : slot_info w' j = slot_info w j)
    by (unfold slot_info; rewrite !(content_only _ _ _ _ _ _ Ho) by lia; done).
  split; [done|]. intros Hin Hp. rewrite Es in Hp |- *. specialize (Hin Hp). rewrite <- Hin. f_equal.
  apply (content_only _ _ _ _ _ _ Ho).
  assert (bi_len (slot_info w j) <= blob_slot_capacity j); [|lia].
  revert Hp. unfold slot_info, hdr_info. cbv zeta. destruct (_ || _) eqn:E; [done|]. intros _. cbn [bi_len].
  rewrite !orb_false_iff, Z.ltb_ge in E. lia.
Qed.

(** C12: writing a slot is safe against a power cut or a failing chip after the
    first erase: whatever each later driver call did, no byte outside the slot
    changed; the slot reads as empty or as exactly the new blob, with data that
    hashes to its digest; every other slot reads as before and stays intact. The
    call returns 0 only with the new blob committed and cached, and after an
    error the cache says the slot is empty. *)
Theorem blob_write_safe st id len version sha src extra :
  slot_ok st id = true -> (id < length (s_info st))%nat ->
  0 < len <= blob_slot_capacity id -> 0 <= version < 4294967296 -> length sha = 32%nat ->
  Z.of_nat (length extra) <= BLOB_EXTRA_MAX ->
  (forall o n p, src o n = Some p -> length p = n) ->
  snd (first_erase (b_flash st) (sl_base (slot id)) (BLOB_HDR_SIZE + len)) = true ->
  let '(st', rc) := blob_store_write_ext st id len version sha src extra in
  write_result st id len version sha (st', rc) /\ slot_intact (b_flash st') id /\
  forall j, (j < BLOB_SLOT_COUNT)%nat -> j <> id ->
    slot_info (b_flash st') j = slot_info (b_flash st) j /\ (slot_intact (b_flash st) j -> slot_intact (b_flash st') j).
Proof.
  intros Hsl Hi Hl Hv Hs He Hsrc Hf.
  pose proof (write_ext_result st id len version sha src extra Hsl Hi Hl Hv Hs He Hsrc Hf) as Hr.
  destruct (blob_store_write_ext _ _ _ _ _ _ _) as [st' rc]. split; [done|].
  destruct Hr as (Ho & _). split; [by eapply outcome_intact|]. intros j Hj Hne.
  eapply outcome_other; [|done|exact Hne|exact Ho].
  unfold slot_ok in Hsl. apply andb_true_iff in Hsl as [Hsl _]. by apply Nat.ltb_lt.
Qed.

(** What verifying a slot means. *)
Lemma verify_spec st id i :
  (id < BLOB_SLOT_COUNT)%nat -> s_info st !! id = Some i -> present i = true -> 0 < bi_len i ->
  blob_store_verify st id = 0 ->
  sha256 (content (b_flash st) (sl_base (slot id) + BLOB_HDR_SIZE) (Z.to_nat (bi_len i))) = bi_sha256 i.
Proof.
  intros Hid Hi Hp Hl. unfold blob_store_verify, blob_store_present. rewrite Hi, Hp.
  apply Nat.ltb_lt in Hid as ->. cbn [andb negb].
  destruct (hash_flash _ _ _) as [got|] eqn:Eh; [|done]. apply hash_flash_content in Eh; [|done].
  case_bool_decide; [congruence|done].
Qed.

(** A read of a slot is inside the blob: [blob_store_read] gives exactly the
    bytes of the slot's data from the offset, and refuses an absent slot and any
    range beyond the blob's length. *)
Theorem blob_read_inside st id off n bs :
  0 <= off -> blob_store_read st id off n = Some bs ->
  exists i, s_info st !! id = Some i /\ present i = true /\ off + Z.of_nat n <= bi_len i /\
    bs = take n (drop (Z.to_nat off) (content (b_flash st) (sl_base (slot id) + BLOB_HDR_SIZE) (Z.to_nat (bi_len i)))).
Proof.
  intros Hoff. unfold blob_store_read. destruct (s_info st !! id) as [i|] eqn:Ei; [|done].
  destruct (present i) eqn:Ep; [|done]. cbn [negb orb].
  destruct (Z.ltb_spec (bi_len i) off); [done|]. destruct (Z.ltb_spec (bi_len i - off) (Z.of_nat n)); [done|].
  cbn [orb]. intros Hr%w_read. exists i. split_and!; [done..|lia|]. subst bs.
  replace (Z.to_nat (bi_len i)) with (Z.to_nat off + (n + Z.to_nat (bi_len i - off - Z.of_nat n)))%nat by lia.
  unfold content. rewrite bytes_at_app, drop_app_length', bytes_at_app by (by rewrite bytes_at_length).
  rewrite take_app_length' by (by rewrite bytes_at_length). by rewrite Z2Nat.id by done.
Qed.

End blob.

(** ** A concrete chip: a memory, and the driver calls left before the power
    goes. The call the power loss hits erases only past its first sector. *)
Module Toy.

Record chip := Chip { mem : Z -> Z; left : nat }.

Definition put (m : Z -> Z) (a : Z) (bs : list Z) (x : Z) : Z :=
  if decide (a <= x < a + Z.of_nat (length bs)) then
    (if m x =? 255 then nth (Z.to_nat (x - a)) bs 0 else Z.land (m x) (nth (Z.to_nat (x - a)) bs 0)) else m x.
Definition wipe (m : Z -> Z) (a n : Z) (x : Z) : Z := if decide (a <= x < a + n) then 255 else m x.

Definition erase (n : Z) (c : chip) (a : Z) : chip * bool :=
  match left c with
  | O => (Chip (wipe (mem c) (a + W25Q_SECTOR) (n - W25Q_SECTOR)) 0, false)
  | S k => (Chip (wipe (mem c) a n) k, true)
  end.

#[export] Instance chip_w25q : W25q chip := {
  w25q_read_id _ := Some [0xEF; 0x40; 0x17];
  w25q_read c a n := Some (map (fun i => mem c (a + Z.of_nat i)) (seq 0 n));
  w25q_erase_sector := erase W25Q_SECTOR;
  w25q_erase_block := erase W25Q_BLOCK;
  w25q_program c a bs := match left c with O => (c, false) | S k => (Chip (put (mem c) a bs) k, true) end;
}.

Lemma erase_out n c a x : W25Q_SECTOR <= n -> ~ (a <= x < a + n) -> mem (fst (erase n c a)) x = mem c x.
Proof.
  intros Hn Hx. unfold erase. destruct (left c); cbn [fst mem]; unfold wipe; case_decide; lia || done.
Qed.

Lemma erase_in n c a x : snd (erase n c a) = true -> a <= x < a + n -> mem (fst (erase n c a)) x = 255.
Proof. unfold erase. destruct (left c); [done|]. cbn. intros _ Hx. unfold wipe. by case_decide. Qed.

#[export, refine] Instance chip_laws : W25qLaws chip := {| w_byte := mem |}.
Proof.
  - intros w a n bs E. by apply (inj Some) in E.
  - intros w a x. by apply erase_out.
  - intros w a x. apply erase_in.
  - intros w a x. by apply erase_out.
  - intros w a x. apply erase_in.
  - intros w p bs x Hx. cbn. destruct (left w); [done|]. cbn. unfold put. by case_decide.
  - intros w p bs i b Hok Hbl Hi. cbn in *. destruct (left w); [done|]. cbn. unfold put.
    pose proof (lookup_lt_Some _ _ _ Hi). case_decide; [|lia]. rewrite Hbl by done. cbn [Z.eqb].
    replace (Z.to_nat (p + Z.of_nat i - p)) with i by lia. by apply nth_lookup_Some.
Defined.

(** A checksum in place of SHA-256: enough to tell the examples apart. *)
#[export] Instance toy_sha : Sha256 := {| sha256 l := [fold_left (fun a b => (a * 31 + b) mod 256) l 7] ++ replicate 31 0 |}.

Definition blank : blob_t chip := Blob (Chip (fun _ => 255) 100) (replicate BLOB_SLOT_COUNT no_info) 0x800000.
Definition data : list Z := [10; 20; 30].
Definition data_src (o : Z) (n : nat) : option (list Z) := if (n =? 3)%nat then Some data else None.

End Toy.
Import Toy.

Lemma blob_write_safe_witness :
  let r := blob_store_write_ext Toy.blank BLOB_GW1 3 5 (sha256 Toy.data) Toy.data_src [1; 2] in
  snd r = 0 /\
  let '(st', rc) := r in
  write_result Toy.blank BLOB_GW1 3 5 (sha256 Toy.data) (st', rc) /\ slot_intact (b_flash st') BLOB_GW1 /\
  forall j, (j < BLOB_SLOT_COUNT)%nat -> j <> BLOB_GW1 ->
    slot_info (b_flash st') j = slot_info (b_flash Toy.blank) j /\
    (slot_intact (b_flash Toy.blank) j -> slot_intact (b_flash st') j).
Proof.
  split; [vm_compute; reflexivity|].
  apply (blob_write_safe Toy.blank BLOB_GW1 3 5 (sha256 Toy.data) Toy.data_src [1; 2]);
    try (vm_compute; reflexivity).
  - cbn. lia.
  - vm_compute. split; discriminate || reflexivity.
  - lia.
  - cbn. lia.
  - intros o n p. unfold Toy.data_src. destruct (Nat.eqb_spec n 3); [|done]. intros E%(inj Some). by subst.
Defined.

Definition gw0_written : blob_t Toy.chip := fst (blob_store_write Toy.blank BLOB_GW0 3 5 (sha256 Toy.data) Toy.data_src).

Lemma blob_read_inside_witness :
  blob_store_read gw0_written BLOB_GW0 1 2 = Some [20; 30] /\
  exists i, s_info gw0_written !! BLOB_GW0 = Some i /\ present i = true /\ 1 + Z.of_nat 2 <= bi_len i /\
    [20; 30] = take 2 (drop (Z.to_nat 1)
      (content (b_flash gw0_written) (sl_base (slot BLOB_GW0) + BLOB_HDR_SIZE) (Z.to_nat (bi_len i)))).
Proof.
  split; [vm_compute; reflexivity|].
  apply (blob_read_inside gw0_written BLOB_GW0 1 2 [20; 30]); [lia|vm_compute; reflexivity].
Defined.

(** Why the first erase must work: in the slots that start on a 64 KB block the
    first erase of a large write is a block erase, which covers the header and
    the start of the data at once. Interrupted, it may leave the old header over
    erased data: the slot still reads as present. *)
Example torn_block_erase :
  let st := Blob (Toy.Chip (Toy.mem (b_flash gw0_written)) 0) (s_info gw0_written) 0x800000 in
  let st' := fst (blob_store_write st BLOB_GW0 0xF000 6 (sha256 Toy.data) Toy.data_src) in
  present (load_slot (b_flash st') BLOB_GW0) = true /\
  sha256 (content (b_flash st') (sl_base (slot BLOB_GW0) + BLOB_HDR_SIZE)
    (Z.to_nat (bi_len (load_slot (b_flash st') BLOB_GW0)))) <> bi_sha256 (load_slot (b_flash st') BLOB_GW0).
Proof. split; [vm_compute; reflexivity|]. vm_compute. discriminate. Qed.
