(* ===== verification/PsramRegions.v ===== *)
(** * Which part of the PSRAM still holds the last capture ([psram_regions.c]) *)

From S2P Require Import Prelude.

Abbreviation REGIONS_MAX := 2%nat.

(** [s_r] up to [s_n], and the reason the capture is stale (NULL is [None]). *)
Record regions_t := Regions { s_r : list (Z * Z); s_stale : option cstr }.
Definition regions_init : regions_t := Regions [] None.

Definition psram_regions_track (base0 len0 base1 len1 : Z) : regions_t :=
  Regions ((if len0 =? 0 then [] else [(base0, len0)]) ++ (if len1 =? 0 then [] else [(base1, len1)])) None.

Definition psram_regions_forget : regions_t := Regions [] None.

Definition why_or (why : option cstr) : cstr :=
  match why with Some w => w | None => str "another PSRAM write" end.

(** Whether [base, base + len) meets the range, in 64 bits. *)
Definition overlaps (base len : Z) (r : Z * Z) : bool := (base <? fst r + snd r) && (fst r <? base + len).

Definition psram_regions_dirty (st : regions_t) (base len : Z) (why : option cstr) : regions_t :=
  if (len =? 0) || match s_stale st with Some _ => true | None => false end then st
  else if existsb (overlaps base len) (s_r st) then Regions (s_r st) (Some (why_or why)) else st.

Definition psram_regions_dirty_all (st : regions_t) (why : option cstr) : regions_t :=
  match s_r st, s_stale st with
  | _ :: _, None => Regions (s_r st) (Some (why_or why))
  | _, _ => st
  end.

Definition psram_regions_stale (st : regions_t) : option cstr := s_stale st.

(** ** A fresh report is the truth *)

(** What happened to the PSRAM since the capture was tracked. *)
Inductive psram_event := Wrote (base len : Z) (why : option cstr) | Reloaded (why : option cstr).

Definition region_step (st : regions_t) (e : psram_event) : regions_t :=
  match e with
  | Wrote b l w => psram_regions_dirty st b l w
  | Reloaded w => psram_regions_dirty_all st w
  end.

(** The event may have changed a byte of a tracked range. *)
Definition hits (rs : list (Z * Z)) (e : psram_event) : bool :=
  match e with
  | Wrote b l _ => negb (l =? 0) && existsb (overlaps b l) rs
  | Reloaded _ => match rs with [] => false | _ => true end
  end.
Definition event_why (e : psram_event) : cstr := match e with Wrote _ _ w => why_or w | Reloaded w => why_or w end.

Lemma region_step_eq st e :
  region_step st e =
    match s_stale st with
    | Some _ => st
    | None => if hits (s_r st) e then Regions (s_r st) (Some (event_why e)) else st
    end.
Proof.
  destruct st as [r s], e as [b l w|w]; cbn; unfold psram_regions_dirty, psram_regions_dirty_all; cbn.
  - destruct s; [by rewrite orb_true_r|]. rewrite orb_false_r. by destruct (l =? 0).
  - by destruct r, s.
Qed.

Lemma overlaps_spec base len r : 0 < len -> 0 < snd r -> overlaps base len r = true <-> exists x, base <= x < base + len /\ fst r <= x < fst r + snd r.
Proof.
  intros Hl Hr. unfold overlaps. rewrite andb_true_iff, !Z.ltb_lt. split.
  - intros [??]. exists (Z.max base (fst r)). lia.
  - intros (x & ? & ?). lia.
Qed.

Lemma region_run_eq evs st :
  fold_left region_step evs st =
    match s_stale st with
    | Some _ => st
    | None => match List.find (hits (s_r st)) evs with
              | Some e => Regions (s_r st) (Some (event_why e))
              | None => st
              end
    end.
Proof.
  revert st. induction evs as [|e evs IH]; intros st; cbn [fold_left List.find]; [by destruct (s_stale st)|].
  rewrite IH, region_step_eq. destruct (s_stale st) eqn:Es; [by rewrite Es|].
  destruct (hits (s_r st) e); cbn [s_stale s_r]; [done|]. by rewrite Es.
Qed.

Definition event_ok (e : psram_event) : Prop := match e with Wrote _ l _ => 0 <= l | Reloaded _ => True end.

(** The event leaves every byte of both ranges alone. *)
Definition spares (base0 len0 base1 len1 : Z) (e : psram_event) : Prop :=
  match e with
  | Wrote b l _ => forall x, b <= x < b + l -> ~ (base0 <= x < base0 + len0) /\ ~ (base1 <= x < base1 + len1)
  | Reloaded _ => len0 = 0 /\ len1 = 0
  end.

Lemma hits_spares base0 len0 base1 len1 e :
  0 <= len0 -> 0 <= len1 -> event_ok e ->
  hits (s_r (psram_regions_track base0 len0 base1 len1)) e = false <-> spares base0 len0 base1 len1 e.
Proof.
  intros H0 H1 He. destruct e as [b l w|w]; cbn in He |- *.
  - destruct (Z.eqb_spec l 0) as [->|Hl]; [split; [intros _ x Hx; lia|done]|]. cbn [negb andb].
    rewrite <- not_true_iff_false, existsb_exists. split.
    + intros Hn x Hx. split; intros Hr; apply Hn.
      * exists (base0, len0). rewrite overlaps_spec by (cbn; lia). split; [|by exists x].
        apply in_or_app. left. destruct (Z.eqb_spec len0 0); [lia|by left].
      * exists (base1, len1). rewrite overlaps_spec by (cbn; lia). split; [|by exists x].
        apply in_or_app. right. destruct (Z.eqb_spec len1 0); [lia|by left].
    + intros Hs ([rb rl] & Hin & Ho). apply in_app_or in Hin as [Hin|Hin].
      * destruct (Z.eqb_spec len0 0); [done|]. destruct Hin as [[= <- <-]|[]].
        rewrite overlaps_spec in Ho by (cbn; lia). destruct Ho as (x & Hx & Hr). by destruct (Hs x Hx).
      * destruct (Z.eqb_spec len1 0); [done|]. destruct Hin as [[= <- <-]|[]].
        rewrite overlaps_spec in Ho by (cbn; lia). destruct Ho as (x & Hx & Hr). by destruct (Hs x Hx).
  - destruct (Z.eqb_spec len0 0), (Z.eqb_spec len1 0); cbn; intuition (done || congruence).
Qed.

(** After a capture is tracked, [psram_regions_stale] answers NULL exactly
    when no write since then shares a byte with the capture and the gateware was
    not reloaded over it; otherwise it gives the reason of the first such
    event, whatever happens later. *)
Theorem capture_stale base0 len0 base1 len1 evs :
  0 <= len0 -> 0 <= len1 -> Forall event_ok evs ->
  let st := psram_regions_track base0 len0 base1 len1 in
  let now := fold_left region_step evs st in
  psram_regions_stale now = event_why <$> List.find (hits (s_r st)) evs /\
  (psram_regions_stale now = None <-> Forall (spares base0 len0 base1 len1) evs).
Proof.
  intros H0 H1 Hev st now.
  assert (E : psram_regions_stale now = event_why <$> List.find (hits (s_r st)) evs).
  { unfold now, psram_regions_stale. rewrite region_run_eq. cbn [st psram_regions_track s_stale].
    by destruct (List.find _ _). }
  split; [done|]. rewrite E. clear E now. induction Hev as [|e evs He Hev IH]; [done|]. cbn [List.find].
  rewrite Forall_cons, <- (hits_spares base0 len0 base1 len1 e) by done. fold st.
  destruct (hits (s_r st) e) eqn:Eh; [split; [done|by intros [? _]]|]. rewrite IH. intuition.
Qed.

Lemma capture_stale_witness :
  let st := psram_regions_track 0 100 4096 50 in
  let evs := [Wrote 100 900 None; Wrote 4000 97 (Some (str "an upload")); Reloaded None] in
  let now := fold_left region_step evs st in
  psram_regions_stale now = event_why <$> List.find (hits (s_r st)) evs /\
  (psram_regions_stale now = None <-> Forall (spares 0 100 4096 50) evs).
Proof. apply (capture_stale 0 100 4096 50); [lia..|]. repeat constructor; cbn; lia. Defined.
