(* ===== verification/Ota.v ===== *)
(** * The update session ([ota.c])

    The staging PSRAM ([psram.h]), the W25Q, SHA-256 and Ed25519 are interfaces.
    The session's statics are the record [ota_t]; the PSRAM, the capture
    bookkeeping and the blob slots it changes are part of it. *)

From S2P Require Import Prelude Flash FwSign B64 BlobStore PsramRegions.

(** [psram.h]: read and write of the mapped PSRAM, each can fail. *)
Class Psram (P : Type) := {
  psram_read : P -> Z -> nat -> option (list Z);
  psram_write : P -> Z -> list Z -> P * bool;
}.

Abbreviation OTA_PSRAM_BASE := 0.
Abbreviation OTA_CHUNK := 4096%nat.
Abbreviation OTA_STAGE_IDLE_MS := 120000.
Abbreviation OTA_VERIFIED_HOLD_MS := 600000.
Abbreviation OTA_TAKEOVER_IDLE_MS := 30000.
Abbreviation LAN_TLS_RECORD_MAX := 7680.
Abbreviation LAN_TLS_UPLOAD_MAX := (LAN_TLS_RECORD_MAX - 16).

Inductive ota_state_t := OTA_IDLE | OTA_RECEIVING | OTA_VERIFIED | OTA_ERROR | OTA_INSTALLED.
#[export] Instance ota_state_eq : EqDecision ota_state_t.
Proof. solve_decision. Defined.

(** [ota_target_t], as the [int] the callers pass. *)
Abbreviation OTA_TARGET_FIRMWARE := 0.
Abbreviation OTA_TARGET_GW0 := 1.
Abbreviation OTA_TARGET_GW1 := 2.
Abbreviation OTA_TARGET_ESP := 3.
Abbreviation OTA_TARGET_CA := 4.
Abbreviation OTA_TARGET_TLS := 5.
Abbreviation OTA_TARGET_BRIDGE := 6.

(** [ota_owner_t]. *)
Abbreviation OTA_OWNER_NONE := 0.
Abbreviation OTA_OWNER_CLOUD := 1.
Abbreviation OTA_OWNER_USB := 2.
Definition OTA_OWNER_LAN (conn : Z) : Z := 16 + conn.

(** ** Words and names *)

Definition hex_nibble (c : Z) : Z :=
  if (48 <=? c) && (c <=? 57) then c - 48
  else if (97 <=? c) && (c <=? 102) then c - 97 + 10
  else if (65 <=? c) && (c <=? 70) then c - 65 + 10
  else -1.

(** [k] more bytes and then the end of the string. *)
Fixpoint parse_hex (k : nat) (p : cstr) : option (list Z) :=
  match k with
  | O => if deref p =? 0 then Some [] else None
  | S k' =>
      let hi := hex_nibble (deref p) in
      let lo := hex_nibble (deref (tail p)) in
      if (hi <? 0) || (lo <? 0) then None
      else match parse_hex k' (drop 2 p) with Some r => Some (Z.lor (Z.shiftl hi 4) lo :: r) | None => None end
  end.
Definition parse_sha256_hex (hex : option cstr) : option (list Z) :=
  match hex with None => None | Some h => parse_hex 32 h end.

Definition k_target_names : list string := ["firmware"; "gw0"; "gw1"; "esp"; "ca"; "tls"; "bridge"].

Definition ota_target_name (t : Z) : cstr :=
  if (0 <=? t) && (t <? 7) then str (nth (Z.to_nat t) k_target_names "?") else str "?".

Definition target_known (wifi_bridge : bool) (t : Z) : bool :=
  (0 <=? t) && (t <=? (if wifi_bridge then OTA_TARGET_BRIDGE else OTA_TARGET_TLS)).

Definition ota_target_from_name (wifi_bridge : bool) (name : option cstr) : Z :=
  match name with
  | None | Some [] => OTA_TARGET_FIRMWARE
  | Some n =>
      match List.find (fun i => streq n (str (nth i k_target_names "?"))) (seq 0 7) with
      | Some i => if target_known wifi_bridge (Z.of_nat i) then Z.of_nat i else -1
      | None => -1
      end
  end.

Definition target_blob (t : Z) : nat :=
  if t =? OTA_TARGET_BRIDGE then BLOB_BRIDGE
  else if t =? OTA_TARGET_CA then BLOB_CA
  else Z.to_nat (t - OTA_TARGET_GW0).

Definition target_is_config (t : Z) : bool := (t =? OTA_TARGET_CA) || (t =? OTA_TARGET_TLS).

Definition ota_max_size (flash_size : Z) : Z := flash_layout_store_off flash_size FLASH_LAYOUT_STORE_BASE.

Definition target_max_size (flash_size t : Z) : Z :=
  if t =? OTA_TARGET_TLS then LAN_TLS_UPLOAD_MAX
  else if t =? OTA_TARGET_FIRMWARE then ota_max_size flash_size
  else blob_slot_capacity (target_blob t).

(** [ota_sig_decode]: the length and the bytes; [None] for -1. *)
Definition ota_sig_decode (b64 : option cstr) : option (list Z) :=
  match b64 with
  | None | Some [] => Some []
  | Some b =>
      if (172 <? length b)%nat then None
      else
        match b64url_decode b 132 with
        | Some got => if (length got =? FW_SIGN_MANIFEST_LEN)%nat then Some got else None
        | None => None
        end
  end.

Definition ota_state_name (st : ota_state_t) : cstr :=
  match st with
  | OTA_IDLE => str "idle" | OTA_RECEIVING => str "receiving" | OTA_VERIFIED => str "verified"
  | OTA_ERROR => str "error" | OTA_INSTALLED => str "installed"
  end.

(** [%d]: the sign, then the digits. *)
Definition sdec (z : Z) : cstr := if z <? 0 then 45 :: dec (- z) else dec z.
Definition hexdig (v : Z) : Z := if v <? 10 then 48 + v else 87 + v.
Definition hex2 (b : Z) : cstr := [hexdig (Z.shiftr b 4); hexdig (Z.land b 15)].

Definition ota_owner_tag (who : Z) (cap : nat) : cstr :=
  if who =? OTA_OWNER_CLOUD then snprintf_cut cap (str "cloud")
  else if who =? OTA_OWNER_USB then snprintf_cut cap (str "usb")
  else if OTA_OWNER_LAN 0 <=? who then snprintf_cut cap (str "lan:" ++ sdec (who - OTA_OWNER_LAN 0))
  else [].

(** ** The session *)

(** [blob_store_on_installed], which puts the new blob to use. *)
Inductive ota_hook := OnInstalled (id : nat).

(** The build and the part: [BENCHPOD_WIFI_BRIDGE], the release keys, the flash
    size, and the two weak functions the configuration targets link in
    ([Some why] refuses). *)
Record ota_env (P : Type) := OtaEnv {
  wifi_bridge : bool;
  k_keys : list (list Z);
  flash_size : Z;
  ota_validate_staged : P -> Z -> Z -> option cstr;
  ota_install_staged_config : P -> Z -> Z -> option cstr;
}.
Arguments wifi_bridge {P}. Arguments k_keys {P}. Arguments flash_size {P}.
Arguments ota_validate_staged {P}. Arguments ota_install_staged_config {P}.

Section ota.
Context `{Psram P} `{W25q W} `{Sha256} `{Monocypher}.
Variable env : ota_env P.

Record ota_t := Ota {
  ps : P; regions : regions_t; blobs : blob_t W;
  s_state : ota_state_t; s_size : Z; s_received : Z; s_expect : list Z; s_target : Z; s_version : Z; s_err : cstr;
  s_sig : fw_sig_result_t; s_sig_key : cstr; s_sig_copy : list Z;
  s_wd_seen : Z; s_wd_mark_ms : Z; s_verified_mark_ms : Z;
  s_owner : Z; s_orphan : bool; s_clock_ms : Z; s_activity_ms : Z;
  s_ref_owner : Z; s_ref_err : cstr; s_ref_seq : Z;
}.

(** Power up. *)
Definition ota_init (p : P) (b : blob_t W) : ota_t :=
  Ota p regions_init b OTA_IDLE 0 0 (replicate 32 0) OTA_TARGET_FIRMWARE 0 [] FW_SIG_NONE [] (replicate 128 0)
    0 0 0 OTA_OWNER_NONE false 0 0 OTA_OWNER_NONE [] 0.

Definition set_err (st : ota_t) (e : cstr) : ota_t :=
  {| st with s_err := take 63 e; s_state := OTA_ERROR |}.
Definition fail (st : ota_t) (e : cstr) : ota_t * Z := (set_err st e, -1).

Definition sig_key_hex (m : option fw_sig_manifest_t) : cstr :=
  match m with Some m => concat (map hex2 (m_key_id m)) | None => [] end.

(** [fw_sign_policy()] is [policy]. *)
Definition check_signature (policy : Z) (st : ota_t) (sig : option (list Z)) (expect : list Z) : ota_t * Z :=
  let '(r, m) := fw_sign_check (k_keys env) sig (s_target st) (s_size st) expect in
  let key := match r with FW_SIG_NONE | FW_SIG_FORMAT => [] | _ => sig_key_hex m end in
  let st := {| st with s_sig := r; s_sig_key := key |} in
  if (if s_target st =? OTA_TARGET_BRIDGE then bool_decide (r = FW_SIG_OK) else fw_sign_accept r policy) then
    (if s_target st =? OTA_TARGET_BRIDGE
     then {| st with s_sig_copy := match sig with Some s => s | None => [] end |} else st, 0)
  else fail st (snprintf_cut 64 (str "signature: " ++ fw_sign_result_name r)).

Definition begin_signed (policy : Z) (st : ota_t) (size : Z) (sha256_hex : option cstr) (target version : Z)
    (sig : option (list Z)) : ota_t * Z :=
  let st := {| st with s_sig := FW_SIG_NONE; s_sig_key := [] |} in
  if negb (target_known (wifi_bridge env) target) then fail st (str "bad target")
  else
    let st := {| st with s_target := target; s_version := version |} in
    if (size =? 0) || (target_max_size (flash_size env) target <? size) then fail st (str "bad size")
    else
      match parse_sha256_hex sha256_hex with
      | None => fail st (str "bad sha256")
      | Some expect =>
          let st := {| st with s_size := size |} in
          let '(st, rc) := if target_is_config target then (st, 0) else check_signature policy st sig expect in
          if negb (rc =? 0) then (st, -1)
          else
            ({| st with s_expect := expect; s_size := size; s_received := 0; s_err := []; s_state := OTA_RECEIVING;
                s_wd_seen := 0; s_wd_mark_ms := 0; s_verified_mark_ms := 0 |}, 0)
      end.

Definition ota_data (st : ota_t) (offset : Z) (buf : list Z) : ota_t * Z :=
  if negb (bool_decide (s_state st = OTA_RECEIVING)) then fail st (str "not receiving")
  else
    let len := Z.of_nat (length buf) in
    let st := {| st with s_activity_ms := s_clock_ms st |} in
    if len =? 0 then (st, 0)
    else if (s_size st <? offset) || (s_size st - offset <? len) then fail st (str "chunk out of range")
    else
      let st := {| st with regions := psram_regions_dirty (regions st) (OTA_PSRAM_BASE + offset) len
                                        (Some (str "a firmware update staged into PSRAM")) |} in
      let '(p, ok) := psram_write (ps st) (OTA_PSRAM_BASE + offset) buf in
      let st := {| st with ps := p |} in
      if negb ok then fail st (str "psram write failed")
      else
        let end_ := u32 (offset + len) in
        ({| st with s_received := if s_received st <? end_ then end_ else s_received st |}, 0).

(** The staged bytes in chunks; [None] on a read error. *)
Fixpoint read_staged_loop (k : nat) (p : P) (off size : Z) : option (list Z) :=
  if size <=? off then Some []
  else
    match k with
    | O => None
    | S k' =>
        let n := if Z.of_nat OTA_CHUNK <? size - off then OTA_CHUNK else Z.to_nat (size - off) in
        match psram_read p (OTA_PSRAM_BASE + off) n with
        | None => None
        | Some chunk =>
            match read_staged_loop k' p (off + Z.of_nat n) size with
            | None => None
            | Some r => Some (chunk ++ r)
            end
        end
    end.
Definition staged (st : ota_t) : option (list Z) := read_staged_loop (Z.to_nat (s_size st)) (ps st) 0 (s_size st).

Definition staged_hash_check (st : ota_t) : ota_t * Z :=
  match staged st with
  | None => fail st (str "psram read failed")
  | Some bs => (st, if bool_decide (sha256 bs = s_expect st) then 0 else 1)
  end.

(** The block at [FW_INFO_OFFSET]: [inr None] when the image is too short. *)
Definition read_fw_info (st : ota_t) : option (option (list Z)) :=
  if FW_INFO_OFFSET + Z.of_nat FW_INFO_SIZE <=? s_size st then
    match psram_read (ps st) (OTA_PSRAM_BASE + FW_INFO_OFFSET) FW_INFO_SIZE with
    | None => None
    | Some info => Some (Some info)
    end
  else Some None.

Definition staged_fits_this_flash (st : ota_t) : ota_t * Z :=
  match read_fw_info st with
  | None => fail st (str "psram read failed")
  | Some info =>
      let need_kb := fw_info_required_kb info in
      let have_kb := flash_size env / 1024 in
      if have_kb <? need_kb
      then fail st (snprintf_cut 64 (str "image needs " ++ dec need_kb ++ str " KB flash, this pod has " ++ dec have_kb ++ str " KB"))
      else (st, 0)
  end.

Definition staged_keeps_enforcement (policy : Z) (st : ota_t) : ota_t * Z :=
  if negb (policy =? FW_SIG_POLICY_REQUIRED) then (st, 0)
  else
    match read_fw_info st with
    | None => fail st (str "psram read failed")
    | Some info =>
        if negb (Z.land (fw_info_flags info) FW_INFO_FLAG_ENFORCES_SIG =? 0) then (st, 0)
        else fail st (str "image cannot enforce signatures (policy required)")
    end.

Definition ota_end (policy : Z) (st : ota_t) : ota_t * Z :=
  if negb (bool_decide (s_state st = OTA_RECEIVING)) then fail st (str "not receiving")
  else if s_received st <? s_size st then fail st (str "incomplete image")
  else
    let '(st, rc) := staged_hash_check st in
    if rc <? 0 then (st, -1)
    else if 0 <? rc then fail st (str "sha256 mismatch")
    else
      let '(st, rc) := if s_target st =? OTA_TARGET_FIRMWARE then staged_fits_this_flash st else (st, 0) in
      if negb (rc =? 0) then (st, -1)
      else
        let '(st, rc) := if s_target st =? OTA_TARGET_FIRMWARE then staged_keeps_enforcement policy st else (st, 0) in
        if negb (rc =? 0) then (st, -1)
        else
          match (if target_is_config (s_target st) then ota_validate_staged env (ps st) (s_target st) (s_size st) else None) with
          | Some why => fail st (match why with [] => str "invalid" | _ => take 79 why end)
          | None => ({| st with s_state := OTA_VERIFIED |}, 0)
          end.

Definition ota_reverify_held (st : ota_t) : ota_t * Z :=
  if negb (bool_decide (s_state st = OTA_VERIFIED)) then (st, -1)
  else
    let '(st, rc) := staged_hash_check st in
    let st := if 0 <? rc then set_err st (str "staged image changed after verify (sha256 mismatch)") else st in
    (st, if rc =? 0 then 0 else -1).

Definition ota_abort (st : ota_t) : ota_t :=
  {| st with s_owner := OTA_OWNER_NONE; s_orphan := false; s_state := OTA_IDLE; s_target := OTA_TARGET_FIRMWARE;
     s_size := 0; s_received := 0; s_err := [] |}.

Definition nonzero (now : Z) : Z := if now =? 0 then 1 else now.

Definition ota_watchdog (st : ota_t) (now_ms : Z) : ota_t :=
  let st := {| st with s_clock_ms := now_ms |} in
  if bool_decide (s_state st = OTA_VERIFIED) then
    if s_verified_mark_ms st =? 0 then {| st with s_verified_mark_ms := nonzero now_ms |}
    else if u32 (now_ms - s_verified_mark_ms st) <? OTA_VERIFIED_HOLD_MS then st
    else ota_abort st
  else
    let st := {| st with s_verified_mark_ms := 0 |} in
    if negb (bool_decide (s_state st = OTA_RECEIVING)) then {| st with s_wd_mark_ms := now_ms |}
    else if negb (s_received st =? s_wd_seen st) || (s_wd_mark_ms st =? 0)
    then {| st with s_wd_seen := s_received st; s_wd_mark_ms := nonzero now_ms |}
    else if u32 (now_ms - s_wd_mark_ms st) <? OTA_STAGE_IDLE_MS then st
    else ota_abort st.

(** ** The owner of the session *)

Definition session_active (st : ota_t) : bool :=
  bool_decide (s_state st = OTA_RECEIVING) || bool_decide (s_state st = OTA_VERIFIED).

Definition is_lan (who : Z) : bool := OTA_OWNER_LAN 0 <=? who.

Definition may_adopt (st : ota_t) (who : Z) : bool := s_orphan st && is_lan who && is_lan (s_owner st).

Definition may_act (st : ota_t) (who : Z) : bool :=
  negb (session_active st) || (s_owner st =? OTA_OWNER_NONE) || (s_owner st =? who) || may_adopt st who.

Definition abandoned (st : ota_t) : bool := OTA_TAKEOVER_IDLE_MS <=? u32 (s_clock_ms st - s_activity_ms st).

Definition adopt (st : ota_t) (who : Z) : ota_t :=
  let st := if session_active st && negb (s_owner st =? who) && may_adopt st who
            then {| st with s_owner := who |} else st in
  if s_owner st =? who then {| st with s_orphan := false |} else st.

Definition may_replace (st : ota_t) (who : Z) : bool := may_act st who || (s_owner st =? who) || abandoned st.

Definition ota_owner (st : ota_t) : Z := if session_active st then s_owner st else OTA_OWNER_NONE.

Definition holder_name (st : ota_t) : cstr :=
  if s_owner st =? OTA_OWNER_CLOUD then str "the cloud"
  else if s_owner st =? OTA_OWNER_USB then str "the USB console"
  else snprintf_cut 32 (str "LAN connection " ++ sdec (s_owner st - OTA_OWNER_LAN 0)).

Definition busy_msg (st : ota_t) : cstr :=
  snprintf_cut 96 (str "busy: " ++ ota_target_name (s_target st) ++ str " update from " ++ holder_name st ++ str " is in progress").

Definition ota_busy_for (st : ota_t) (who : Z) : ota_t * option cstr :=
  if negb (may_act st who) then (st, Some (busy_msg st)) else (adopt st who, None).

Definition ota_busy_replace_for (st : ota_t) (who : Z) : option cstr :=
  if may_replace st who then None else Some (busy_msg st).

Definition clear_refusal (st : ota_t) (who : Z) : ota_t :=
  if s_ref_owner st =? who then {| st with s_ref_owner := OTA_OWNER_NONE; s_ref_err := [] |} else st.

Definition refuse (st : ota_t) (who : Z) (why : cstr) (fresh : bool) : ota_t :=
  if may_replace st who then
    let st := clear_refusal st who in
    let st := if fresh then {| st with s_ref_seq := u32 (s_ref_seq st + 1) |} else st in
    let st := set_err st why in
    {| st with s_owner := who; s_orphan := false |}
  else if ((s_ref_owner st =? who) && bool_decide (take 95 (s_ref_err st) = take 95 why)) && negb fresh then st
  else {| st with s_ref_owner := who; s_ref_err := take 95 why; s_ref_seq := u32 (s_ref_seq st + 1) |}.

Definition ota_refuse_for (st : ota_t) (who : Z) (why : cstr) : ota_t := refuse st who why true.

Definition ota_begin_owned (policy : Z) (st : ota_t) (who size : Z) (sha256_hex : option cstr) (target version : Z)
    (sig : option (list Z)) : ota_t * Z :=
  match ota_busy_replace_for st who with
  | Some busy => (ota_refuse_for st who busy, -1)
  | None =>
      let st := clear_refusal st who in
      let st := {| st with s_owner := who; s_orphan := false |} in
      let '(st, rc) := begin_signed policy st size sha256_hex target version sig in
      ({| st with s_activity_ms := s_clock_ms st |}, rc)
  end.

(** An undecodable manifest goes on as one (unspecified) byte. *)
Definition ota_begin_owned_b64 (policy : Z) (st : ota_t) (who size : Z) (sha256_hex : option cstr) (target version : Z)
    (sig_b64 : option cstr) : ota_t * Z :=
  ota_begin_owned policy st who size sha256_hex target version
    (Some (match ota_sig_decode sig_b64 with Some sig => sig | None => [0] end)).

Definition ota_begin_signed (policy : Z) (st : ota_t) (size : Z) (sha256_hex : option cstr) (target version : Z)
    (sig : option (list Z)) : ota_t * Z :=
  ota_begin_owned policy st OTA_OWNER_NONE size sha256_hex target version sig.

Definition ota_data_by (st : ota_t) (who offset : Z) (buf : list Z) : ota_t * Z :=
  match ota_busy_for st who with
  | (st, Some busy) => (refuse st who busy false, -1)
  | (st, None) => ota_data st offset buf
  end.

Definition ota_end_by (policy : Z) (st : ota_t) (who : Z) : ota_t * Z :=
  match ota_busy_for st who with
  | (st, Some busy) => (refuse st who busy false, -1)
  | (st, None) =>
      let '(st, rc) := ota_end policy st in ({| st with s_activity_ms := s_clock_ms st |}, rc)
  end.

Definition ota_abort_by (st : ota_t) (who : Z) : ota_t * Z :=
  if negb (may_replace st who) then (st, -1) else (ota_abort (clear_refusal st who), 0).

Definition ota_owner_gone (st : ota_t) (who : Z) : ota_t :=
  if session_active st && (s_owner st =? who) && is_lan who then {| st with s_orphan := true |} else st.

Record ota_view_t := OtaView { v_state : ota_state_t; v_received : Z; v_size : Z; v_error : cstr; v_refusals : Z }.
Definition ota_view_for (st : ota_t) (who : Z) : ota_view_t :=
  if negb (who =? OTA_OWNER_NONE) && (s_ref_owner st =? who)
  then OtaView OTA_ERROR 0 0 (s_ref_err st) (s_ref_seq st)
  else OtaView (s_state st) (s_received st) (s_size st) (s_err st) (s_ref_seq st).

(** ** Installing *)

Definition staged_src (st : ota_t) (off : Z) (n : nat) : option (list Z) := psram_read (ps st) (OTA_PSRAM_BASE + off) n.

Definition ota_install_blob (st : ota_t) : ota_t * Z * list ota_hook :=
  if negb (bool_decide (s_state st = OTA_VERIFIED)) then (fail st (str "no verified image staged"), [])
  else if s_target st =? OTA_TARGET_FIRMWARE then (fail st (str "not a blob"), [])
  else if s_target st =? OTA_TARGET_TLS then
    match ota_install_staged_config env (ps st) (s_target st) (s_size st) with
    | Some why => (fail st (match why with [] => str "install failed" | _ => take 79 why end), [])
    | None => ({| st with s_state := OTA_INSTALLED |}, 0, [])
    end
  else
    let id := target_blob (s_target st) in
    let '(b, rc) :=
      if (id =? BLOB_BRIDGE)%nat
      then blob_store_write_ext (blobs st) id (s_size st) (s_version st) (s_expect st) (staged_src st) (s_sig_copy st)
      else blob_store_write (blobs st) id (s_size st) (s_version st) (s_expect st) (staged_src st) in
    let st := {| st with blobs := b |} in
    if negb (rc =? 0) then (fail st (str "blob write failed"), [])
    else ({| st with s_state := OTA_INSTALLED |}, 0, [OnInstalled id]).

Definition ota_store_fw_copy (st : ota_t) : ota_t * Z :=
  if negb (bool_decide (s_state st = OTA_VERIFIED)) || negb (s_target st =? OTA_TARGET_FIRMWARE) then (st, -1)
  else
    let '(b, rc) := blob_store_write (blobs st) BLOB_FW (s_size st) 0 (s_expect st) (staged_src st) in
    ({| st with blobs := b |}, rc).

End ota.
Arguments ota_t : clear implicits.
