(* ===== verification/OtaSession.v ===== *)
(** * What a live update session guarantees

    Runs of the session's operations by any owners, and the invariant of the
    states they reach. *)

From S2P Require Import Prelude Flash FwSign B64 BlobStore PsramRegions Ota.

Section ota.
Context `{Psram P} `{W25q W} `{Sha256} `{Monocypher}.
Variable env : ota_env P.
Implicit Types (st : ota_t P W).

(** What the transports, the clock and the rest of the pod do to the session;
    [OpPsram] is a write to the PSRAM by anything else (a capture). *)
Inductive ota_op :=
| OpBegin (who size : Z) (sha256_hex : option cstr) (target version : Z) (sig_b64 : option cstr)
| OpBeginSigned (size : Z) (sha256_hex : option cstr) (target version : Z) (sig : option (list Z))
| OpData (who offset : Z) (buf : list Z)
| OpEnd (who : Z)
| OpBusy (who : Z)
| OpAbort (who : Z)
| OpRefuse (who : Z) (why : cstr)
| OpGone (who : Z)
| OpTick (now_ms : Z)
| OpReverify
| OpInstall
| OpStoreCopy
| OpPsram (p : P).

(** One call, under the signature policy in force at that moment; the result
    code is 0 where the call has none. *)
Definition ota_step (policy : Z) (st : ota_t P W) (op : ota_op) : ota_t P W * Z :=
  match op with
  | OpBegin who size hex target version sig => ota_begin_owned_b64 env policy st who size hex target version sig
  | OpBeginSigned size hex target version sig => ota_begin_signed env policy st size hex target version sig
  | OpData who offset buf => ota_data_by st who offset buf
  | OpEnd who => ota_end_by env policy st who
  | OpBusy who => let '(st, r) := ota_busy_for st who in (st, match r with Some _ => -1 | None => 0 end)
  | OpAbort who => ota_abort_by st who
  | OpRefuse who why => (ota_refuse_for st who why, 0)
  | OpGone who => (ota_owner_gone st who, 0)
  | OpTick now => (ota_watchdog st now, 0)
  | OpReverify => ota_reverify_held st
  | OpInstall => fst (ota_install_blob env st)
  | OpStoreCopy => ota_store_fw_copy st
  | OpPsram p => ({| st with ps := p |}, 0)
  end.

Definition run (st : ota_t P W) (ops : list (Z * ota_op)) : ota_t P W :=
  fold_left (fun st o => fst (ota_step (fst o) st (snd o))) ops st.

(** The numbers the frames carry are 32-bit words. *)
Definition op_ok (op : ota_op) : Prop :=
  match op with
  | OpBegin _ size _ _ version _ | OpBeginSigned size _ _ version _ => 0 <= size < 4294967296 /\ 0 <= version < 4294967296
  | OpData _ offset buf => 0 <= offset < 4294967296
  | _ => True
  end.

(** Who let the image in: configuration needs no signature; code was checked
    against the release keys under one of the policies [Pol]. *)
Definition authority (Pol : Z -> Prop) (st : ota_t P W) : Prop :=
  target_is_config (s_target st) = true \/
  exists p sig m, Pol p /\ fw_sign_check (k_keys env) sig (s_target st) (s_size st) (s_expect st) = (s_sig st, m) /\
    (if s_target st =? OTA_TARGET_BRIDGE
     then s_sig st = FW_SIG_OK /\ sig = Some (s_sig_copy st)
     else fw_sign_accept (s_sig st) p = true).

Definition session_ok (Pol : Z -> Prop) (st : ota_t P W) : Prop :=
  session_active st = true ->
  target_known (wifi_bridge env) (s_target st) = true /\
  0 < s_size st <= target_max_size (flash_size env) (s_target st) /\
  0 <= s_received st <= s_size st /\ s_size st < 4294967296 /\
  length (s_expect st) = 32%nat /\ 0 <= s_version st < 4294967296 /\
  (s_target st = OTA_TARGET_BRIDGE -> length (s_sig_copy st) = FW_SIGN_MANIFEST_LEN) /\ authority Pol st.

Definition core (st : ota_t P W) :=
  (s_state st, s_size st, s_received st, s_expect st, (s_target st, s_version st, s_sig st, s_sig_copy st)).

Lemma session_ok_core Pol st st' : core st' = core st -> session_ok Pol st -> session_ok Pol st'.
Proof.
  unfold core. intros E. assert (s_state st' = s_state st /\ s_size st' = s_size st /\ s_received st' = s_received st /\
    s_expect st' = s_expect st /\ s_target st' = s_target st /\ s_version st' = s_version st /\ s_sig st' = s_sig st /\
    s_sig_copy st' = s_sig_copy st) as (E1 & E2 & E3 & E4 & E5 & E6 & E7 & E8).
  { apply pair_equal_spec in E as [E E']. repeat apply pair_equal_spec in E as [E ?].
    repeat apply pair_equal_spec in E' as [E' ?]. done. }
  unfold session_ok, session_active, authority. by rewrite E1, E2, E3, E4, E5, E6, E7, E8.
Qed.

Lemma session_ok_inactive Pol st : session_active st = false -> session_ok Pol st.
Proof. intros E Ha. congruence. Qed.

Lemma active_state st : session_active st = true <-> s_state st = OTA_RECEIVING \/ s_state st = OTA_VERIFIED.
Proof. unfold session_active. rewrite orb_true_iff, !bool_decide_eq_true. done. Qed.

Lemma session_ok_error Pol st : s_state st = OTA_ERROR -> session_ok Pol st.
Proof. intros E Ha. rewrite active_state, E in Ha. by destruct Ha. Qed.

Lemma parse_hex_length k p r : parse_hex k p = Some r -> length r = k.
Proof.
  revert p r. induction k as [|k IH]; intros p r; cbn [parse_hex].
  - destruct (deref p =? 0); [by intros [= <-]|done].
  - destruct (_ || _); [done|]. destruct (parse_hex k (drop 2 p)) as [r'|] eqn:E; [|done].
    intros [= <-]. cbn. f_equal. by eapply IH.
Qed.

Lemma parse_sha256_hex_length h r : parse_sha256_hex h = Some r -> length r = 32%nat.
Proof. destruct h; [apply parse_hex_length|done]. Qed.

(** A manifest that checks has the full length. *)
Lemma fw_sign_ok_length keys sig target size sha m :
  fw_sign_check keys sig target size sha = (FW_SIG_OK, m) -> exists s, sig = Some s /\ length s = FW_SIGN_MANIFEST_LEN.
Proof.
  unfold fw_sign_check, fw_sign_check_keys. destruct sig as [[|b s]|]; [done| |done].
  destruct (manifest_format (b :: s)) eqn:E; [|done]. intros _. exists (b :: s). split; [done|].
  unfold manifest_format in E. rewrite !andb_true_iff in E. destruct E as [[[E _] _] _]. by apply Nat.eqb_eq in E.
Qed.

Lemma check_signature_spec policy st sig expect :
  let '(st', rc) := check_signature env policy st sig expect in
  (rc = -1 /\ s_state st' = OTA_ERROR) \/
  (rc = 0 /\ s_size st' = s_size st /\ s_target st' = s_target st /\ s_version st' = s_version st /\
   (s_target st = OTA_TARGET_BRIDGE -> length (s_sig_copy st') = FW_SIGN_MANIFEST_LEN) /\
   exists m, fw_sign_check (k_keys env) sig (s_target st) (s_size st) expect = (s_sig st', m) /\
     if s_target st =? OTA_TARGET_BRIDGE then s_sig st' = FW_SIG_OK /\ sig = Some (s_sig_copy st')
     else fw_sign_accept (s_sig st') policy = true).
Proof.
  unfold check_signature. destruct (fw_sign_check _ _ _ _ _) as [r m] eqn:E. cbn [s_target s_sig].
  destruct (Z.eqb_spec (s_target st) OTA_TARGET_BRIDGE) as [Eb|Eb].
  - case_bool_decide as Er; [|by left]. right. subst r. cbn [s_sig s_sig_copy s_size s_target s_version].
    destruct (fw_sign_ok_length _ _ _ _ _ _ E) as (s & -> & Hs). split_and!; try done. by exists m.
  - destruct (fw_sign_accept r policy) eqn:Ea; [|by left]. right. cbn [s_sig s_sig_copy s_size s_target s_version].
    split_and!; try done. by exists m.
Qed.

Lemma begin_signed_spec (Pol : Z -> Prop) policy st size hex target version sig :
  Pol policy -> 0 <= size < 4294967296 -> 0 <= version < 4294967296 ->
  let '(st', rc) := begin_signed env policy st size hex target version sig in
  (rc = -1 /\ s_state st' = OTA_ERROR) \/ (rc = 0 /\ s_state st' = OTA_RECEIVING /\ session_ok Pol st').
Proof.
  intros Hp Hs Hv. destruct st. unfold begin_signed.
  destruct (target_known _ target) eqn:Et; cbn -[target_max_size parse_sha256_hex check_signature take];
    [|by left].
  destruct (Z.eqb_spec size 0); [by left|].
  destruct (Z.ltb_spec (target_max_size (flash_size env) target) size); [by left|]. cbn [orb].
  destruct (parse_sha256_hex hex) as [expect|] eqn:Eh; [|by left]. apply parse_sha256_hex_length in Eh.
  destruct (target_is_config target) eqn:Ec.
  { right. cbn -[target_max_size]. split; [done|]. split; [done|]. intros _.
    cbn -[target_max_size target_known]. split_and!; try (done || lia); [|by left]. by intros ->. }
  match goal with |- context [check_signature _ _ ?s _ _] => set (st := s) end.
  pose proof (check_signature_spec policy st sig expect) as Hc.
  destruct (check_signature _ _ _ _ _) as [st' rc].
  destruct Hc as [[-> He]|(-> & E1 & E2 & E3 & Hb & m & Em & Ha)]; [by left|].
  subst st. cbn -[target_max_size fw_sign_check target_known] in E1, E2, E3, Hb, Em, Ha |- *.
  right. split; [done|]. split; [done|]. intros _. cbn -[target_max_size target_known].
  rewrite E2, E3. split_and!; try (done || lia). right. by exists policy, sig, m.
Qed.

(** ** Every operation keeps the invariant *)

Lemma core_adopt st who : core (adopt st who) = core st.
Proof.
  unfold adopt. destruct (session_active st && negb (s_owner st =? who) && may_adopt st who); cbv zeta;
    match goal with |- context [if ?b then _ else _] => by destruct b end.
Qed.

Lemma core_clear_refusal st who : core (clear_refusal st who) = core st.
Proof. unfold clear_refusal. by destruct (s_ref_owner st =? who). Qed.

Lemma refuse_core st who why fresh :
  core (refuse st who why fresh) = core st \/ s_state (refuse st who why fresh) = OTA_ERROR.
Proof.
  unfold refuse. destruct (may_replace st who); [by right|]. left. by destruct (_ && negb fresh).
Qed.

Lemma session_ok_refuse Pol st who why fresh : session_ok Pol st -> session_ok Pol (refuse st who why fresh).
Proof.
  intros Hok. destruct (refuse_core st who why fresh); [by eapply session_ok_core|by apply session_ok_error].
Qed.

Lemma session_ok_busy Pol st who : session_ok Pol st -> session_ok Pol (fst (ota_busy_for st who)).
Proof.
  intros Hok. unfold ota_busy_for. destruct (negb (may_act st who)); [done|]. cbn.
  eapply session_ok_core; [apply core_adopt|done].
Qed.

(** A received chunk: what changes and what does not. *)
Lemma data_cases st offset buf :
  let '(st', rc) := ota_data st offset buf in
  (s_state st = OTA_RECEIVING /\ rc = 0 /\ buf = [] /\ core st' = core st /\ ps st' = ps st) \/
  (s_state st = OTA_RECEIVING /\ rc = 0 /\ buf <> [] /\ offset + Z.of_nat (length buf) <= s_size st /\
   psram_write (ps st) (OTA_PSRAM_BASE + offset) buf = (ps st', true) /\
   core st' = core {| st with s_received := Z.max (s_received st) (u32 (offset + Z.of_nat (length buf))) |}) \/
  (rc = -1 /\ s_state st' = OTA_ERROR /\
   (ps st' = ps st \/ offset + Z.of_nat (length buf) <= s_size st /\
                      psram_write (ps st) (OTA_PSRAM_BASE + offset) buf = (ps st', false))).
Proof.
  destruct st. unfold ota_data, fail, set_err. cbn -[u32 Z.of_nat length psram_regions_dirty take str].
  case_bool_decide as Es; cbn [negb]; [|right; right; split_and!; [done..|by left]].
  destruct (Z.eqb_spec (Z.of_nat (length buf)) 0) as [Hl|Hl].
  { left. destruct buf; [done|cbn in Hl; lia]. }
  destruct (Z.ltb_spec s_size offset); [right; right; split_and!; [done..|by left]|].
  destruct (Z.ltb_spec (s_size - offset) (Z.of_nat (length buf))); [right; right; split_and!; [done..|by left]|].
  cbn [orb]. destruct (psram_write ps (OTA_PSRAM_BASE + offset) buf) as [p []] eqn:Ew; cbn -[u32 Z.of_nat length psram_regions_dirty take str];
    right; [left|right; split_and!; [done..|right; split; [lia|done]]].
  split_and!; try done; [by intros ->|lia|]. unfold core. cbn -[u32 Z.of_nat length]. repeat f_equal.
  destruct (Z.ltb_spec s_received (u32 (offset + Z.of_nat (length buf)))); lia.
Qed.

Lemma session_ok_data Pol st offset buf : 0 <= offset -> session_ok Pol st -> session_ok Pol (fst (ota_data st offset buf)).
Proof.
  intros Ho Hok. pose proof (data_cases st offset buf) as Hc. destruct (ota_data st offset buf) as [st' rc]. cbn [fst].
  destruct Hc as [(_ & _ & _ & Hc & _)|[(Es & _ & _ & Hl & _ & Hc)|(_ & He & _)]];
    [by eapply session_ok_core| |by apply session_ok_error].
  eapply session_ok_core; [exact Hc|]. destruct st. cbn -[u32 Z.of_nat length] in *. intros _.
  destruct Hok as (K1 & K2 & K3 & K4 & K5 & K6 & K7 & K8); [by apply active_state; left|].
  cbn -[u32 Z.of_nat length target_max_size target_known] in *. rewrite u32_id by lia.
  split_and!; (done || lia).
Qed.

(** A staging step ends well on an unchanged session, or in the error state. *)
Definition ok_or_error st (r : ota_t P W * Z) : Prop :=
  (snd r = 0 /\ fst r = st) \/ (snd r <> 0 /\ (s_state (fst r) = OTA_ERROR)).

Lemma ok_or_error_fits st : ok_or_error st (staged_fits_this_flash env st).
Proof.
  unfold staged_fits_this_flash. destruct (read_fw_info st); [|by right]. cbv zeta.
  destruct (_ <? _); [by right|by left].
Qed.

Lemma ok_or_error_keeps policy st : ok_or_error st (staged_keeps_enforcement policy st).
Proof.
  unfold staged_keeps_enforcement. destruct (negb (policy =? _)); [by left|].
  destruct (read_fw_info st); [|by right]. destruct (negb _); [by left|by right].
Qed.

(** What [ota_end] checks, when it accepts. *)
Definition end_checks policy st : Prop :=
  s_state st = OTA_RECEIVING /\ s_size st <= s_received st /\
  (exists bs, staged st = Some bs /\ sha256 bs = s_expect st) /\
  (s_target st = OTA_TARGET_FIRMWARE ->
     exists info, read_fw_info st = Some info /\ fw_info_required_kb info <= flash_size env / 1024 /\
       (policy = FW_SIG_POLICY_REQUIRED -> Z.land (fw_info_flags info) FW_INFO_FLAG_ENFORCES_SIG <> 0)) /\
  (target_is_config (s_target st) = true -> ota_validate_staged env (ps st) (s_target st) (s_size st) = None).

Lemma fits_spec st :
  snd (staged_fits_this_flash env st) = 0 <->
  exists info, read_fw_info st = Some info /\ fw_info_required_kb info <= flash_size env / 1024.
Proof.
  unfold staged_fits_this_flash. destruct (read_fw_info st) as [info|]; [|split; [done|by intros (? & ? & _)]]. cbv zeta.
  destruct (Z.ltb_spec (flash_size env / 1024) (fw_info_required_kb info)) as [Hl|Hl].
  - split; [done|]. intros (? & [= <-] & ?). lia.
  - split; [by exists info|done].
Qed.

Lemma keeps_spec policy st :
  snd (staged_keeps_enforcement policy st) = 0 <->
  (policy = FW_SIG_POLICY_REQUIRED ->
   exists info, read_fw_info st = Some info /\ Z.land (fw_info_flags info) FW_INFO_FLAG_ENFORCES_SIG <> 0).
Proof.
  unfold staged_keeps_enforcement. destruct (Z.eqb_spec policy FW_SIG_POLICY_REQUIRED) as [->|Hp]; cbn [negb]; [|by split].
  destruct (read_fw_info st) as [info|]; [|split; [done|by intros Hx; destruct (Hx eq_refl) as (? & ? & _)]].
  destruct (Z.eqb_spec (Z.land (fw_info_flags info) FW_INFO_FLAG_ENFORCES_SIG) 0) as [E|E]; cbn [negb].
  - split; [done|]. intros Hx. destruct (Hx eq_refl) as (? & [= <-] & ?). done.
  - split; [|done]. intros _ _. by exists info.
Qed.

Lemma end_spec policy st :
  let '(st', rc) := ota_end env policy st in
  (rc = 0 /\ end_checks policy st /\ st' = {| st with s_state := OTA_VERIFIED |}) \/
  (rc = -1 /\ ~ end_checks policy st /\ s_state st' = OTA_ERROR).
Proof.
  unfold ota_end. case_bool_decide as Es; cbn [negb]; [|right; split_and!; [done| |done]; by intros (? & _)].
  destruct (Z.ltb_spec (s_received st) (s_size st)); [right; split_and!; [done| |done]; intros (? & ? & _); lia|].
  unfold staged_hash_check. destruct (staged st) as [bs|] eqn:Eb.
  2:{ right. split_and!; [done| |done]. intros (_ & _ & (bs & Hb & _) & _). congruence. }
  case_bool_decide as Eh; cbn [Z.ltb Z.compare].
  2:{ right. split_and!; [done| |done]. intros (_ & _ & (bs' & Hb & ?) & _). congruence. }
  assert (Hcfg : forall st', st' = st ->
    let '(st', rc) := match (if target_is_config (s_target st') then ota_validate_staged env (ps st') (s_target st') (s_size st') else None) with
      | Some why => fail st' (match why with [] => str "invalid" | _ => take 79 why end)
      | None => ({| st' with s_state := OTA_VERIFIED |}, 0) end in
    (rc = 0 /\ (target_is_config (s_target st) = true -> ota_validate_staged env (ps st) (s_target st) (s_size st) = None) /\
       st' = {| st with s_state := OTA_VERIFIED |}) \/
    (rc = -1 /\ ~ (target_is_config (s_target st) = true -> ota_validate_staged env (ps st) (s_target st) (s_size st) = None) /\
       s_state st' = OTA_ERROR)).
  { intros ? ->. destruct (target_is_config (s_target st)).
    - destruct (ota_validate_staged _ _ _ _); [|by left]. right. split_and!; [done| |done]. intros Hx. by specialize (Hx eq_refl).
    - by left. }
  destruct (Z.eqb_spec (s_target st) OTA_TARGET_FIRMWARE) as [Ef|Ef].
  - destruct (ok_or_error_fits st) as [[E1 E2]|[E1 E2]].
    2:{ destruct (staged_fits_this_flash env st) as [st1 rc1] eqn:E. cbn in E1, E2.
        destruct (Z.eqb_spec rc1 0); [done|]. right. split_and!; [done| |done].
        intros (_ & _ & _ & Hf & _). destruct (Hf Ef) as (info & ? & ? & _). apply E1.
        change rc1 with (snd (st1, rc1)). rewrite <- E. apply fits_spec. by exists info. }
    pose proof (proj1 (fits_spec st) E1) as (info & Hi & Hk).
    destruct (staged_fits_this_flash env st) as [st1 rc1]. cbn in E1, E2. subst st1 rc1. cbn [negb Z.eqb].
    destruct (Z.eqb_spec (s_target st) OTA_TARGET_FIRMWARE); [|done].
    destruct (ok_or_error_keeps policy st) as [[E1 E2]|[E1 E2]].
    2:{ destruct (staged_keeps_enforcement policy st) as [st1 rc1] eqn:E. cbn in E1, E2.
        destruct (Z.eqb_spec rc1 0); [done|]. right. split_and!; [done| |done].
        intros (_ & _ & _ & Hf & _). destruct (Hf Ef) as (info' & ? & ? & Hp). apply E1.
        change rc1 with (snd (st1, rc1)). rewrite <- E. apply keeps_spec. intros Hq. exists info'. auto. }
    pose proof (proj1 (keeps_spec policy st) E1) as Hq.
    destruct (staged_keeps_enforcement policy st) as [st1 rc1]. cbn in E1, E2. subst st1 rc1. cbn [negb Z.eqb].
    specialize (Hcfg st eq_refl). destruct (match _ with Some _ => _ | None => _ end) as [st' rc].
    destruct Hcfg as [(-> & Hc & ->)|(-> & Hc & He)]; [left|right]; (split; [done|]); (split; [|done]).
    + split_and!; try done; [by exists bs|]. intros _. exists info. split_and!; [done..|]. intros Hp.
      destruct (Hq Hp) as (info' & Hi' & ?). congruence.
    + intros (_ & _ & _ & _ & Hx). done.
  - cbn [negb Z.eqb]. destruct (Z.eqb_spec (s_target st) OTA_TARGET_FIRMWARE); [done|]. cbn [negb Z.eqb].
    specialize (Hcfg st eq_refl). destruct (match _ with Some _ => _ | None => _ end) as [st' rc].
    destruct Hcfg as [(-> & Hc & ->)|(-> & Hc & He)]; [left|right]; (split; [done|]); (split; [|done]).
    + split_and!; try done. by exists bs.
    + intros (_ & _ & _ & _ & Hx). done.
Qed.

Lemma session_ok_end Pol policy st : session_ok Pol st -> session_ok Pol (fst (ota_end env policy st)).
Proof.
  intros Hok. pose proof (end_spec policy st) as He. destruct (ota_end env policy st) as [st' rc]. cbn [fst].
  destruct He as [(_ & (Es & _) & ->)|(_ & _ & He)]; [|by apply session_ok_error].
  intros _. exact (Hok (proj2 (active_state st) (or_introl Es))).
Qed.

Lemma session_ok_begin (Pol : Z -> Prop) policy st who size hex target version sig :
  Pol policy -> 0 <= size < 4294967296 -> 0 <= version < 4294967296 -> session_ok Pol st ->
  session_ok Pol (fst (ota_begin_owned env policy st who size hex target version sig)).
Proof.
  intros Hp Hs Hv Hok. unfold ota_begin_owned. destruct (ota_busy_replace_for st who); [by apply session_ok_refuse|].
  match goal with |- context [begin_signed _ _ ?s] =>
    pose proof (begin_signed_spec Pol policy s size hex target version sig Hp Hs Hv) as Hb end.
  destruct (begin_signed _ _ _ _ _ _ _ _) as [st' rc]. cbn [fst].
  destruct Hb as [[_ He]|(_ & _ & Hb)]; [by apply session_ok_error|]. by eapply session_ok_core.
Qed.

Lemma watchdog_core st now : core (ota_watchdog st now) = core st \/ session_active (ota_watchdog st now) = false.
Proof.
  destruct st. unfold ota_watchdog. cbn -[u32 Z.sub].
  case_bool_decide; cbn -[u32 Z.sub].
  - destruct (_ =? 0); [by left|]. destruct (_ <? _); [by left|by right].
  - case_bool_decide; cbn -[u32 Z.sub]; [|by left]. destruct (_ || _); [by left|].
    destruct (_ <? _); [by left|by right].
Qed.

Lemma reverify_cases st :
  let '(st', rc) := ota_reverify_held st in
  (rc = 0 /\ st' = st /\ s_state st = OTA_VERIFIED /\ exists bs, staged st = Some bs /\ sha256 bs = s_expect st) \/
  (rc = -1 /\ st' = st /\ s_state st <> OTA_VERIFIED) \/
  (rc = -1 /\ s_state st' = OTA_ERROR /\ ~ exists bs, staged st = Some bs /\ sha256 bs = s_expect st).
Proof.
  unfold ota_reverify_held, staged_hash_check. case_bool_decide as Es; cbn [negb]; [|by right; left].
  destruct (staged st) as [bs|]; [|right; right; split_and!; [done..|by intros (? & ? & _)]].
  case_bool_decide as Eh; [left; split_and!; [done..|by exists bs]|]. right; right. split_and!; [done..|].
  intros (? & [= <-] & ?). done.
Qed.

Lemma session_ok_install Pol st : session_ok Pol st -> session_ok Pol (fst (fst (ota_install_blob env st))).
Proof.
  intros Hok. unfold ota_install_blob. case_bool_decide; cbn [negb]; [|by apply session_ok_error].
  destruct (_ =? _); [by apply session_ok_error|]. destruct (_ =? _).
  { destruct (ota_install_staged_config _ _ _ _); [by apply session_ok_error|by apply session_ok_inactive]. }
  destruct (if (_ =? _)%nat then _ else _) as [b rc]. destruct (negb (rc =? 0)); [by apply session_ok_error|].
  by apply session_ok_inactive.
Qed.

Lemma session_ok_store_copy Pol st : session_ok Pol st -> session_ok Pol (fst (ota_store_fw_copy st)).
Proof.
  intros Hok. unfold ota_store_fw_copy. destruct (_ || _); [done|].
  destruct (blob_store_write _ _ _ _ _ _) as [b rc]. by eapply session_ok_core.
Qed.

Lemma session_ok_step (Pol : Z -> Prop) policy st op :
  Pol policy -> op_ok op -> session_ok Pol st -> session_ok Pol (fst (ota_step policy st op)).
Proof.
  intros Hp Hop Hok. destruct op; cbn [ota_step op_ok] in *.
  - destruct Hop. by apply session_ok_begin.
  - destruct Hop. by apply session_ok_begin.
  - unfold ota_data_by. pose proof (session_ok_busy Pol st who Hok) as Hb.
    destruct (ota_busy_for st who) as [st' [busy|]]; cbn [fst] in *; [by apply session_ok_refuse|].
    apply session_ok_data; [lia|done].
  - unfold ota_end_by. pose proof (session_ok_busy Pol st who Hok) as Hb.
    destruct (ota_busy_for st who) as [st' [busy|]]; cbn [fst] in *; [by apply session_ok_refuse|].
    pose proof (session_ok_end Pol policy st' Hb) as He. destruct (ota_end env policy st') as [st'' rc].
    by eapply session_ok_core.
  - pose proof (session_ok_busy Pol st who Hok) as Hb. by destruct (ota_busy_for st who).
  - unfold ota_abort_by. destruct (negb (may_replace st who)); [done|]. by apply session_ok_inactive.
  - by apply session_ok_refuse.
  - unfold ota_owner_gone. cbn [fst]. destruct (_ && is_lan who); [by eapply session_ok_core|done].
  - cbn [fst]. destruct (watchdog_core st now_ms); [by eapply session_ok_core|by apply session_ok_inactive].
  - pose proof (reverify_cases st) as Hc. destruct (ota_reverify_held st) as [st' rc]. cbn [fst].
    destruct Hc as [(_ & -> & _)|[(_ & -> & _)|(_ & He & _)]]; [done..|by apply session_ok_error].
  - by apply session_ok_install.
  - by apply session_ok_store_copy.
  - by eapply session_ok_core.
Qed.

Lemma session_ok_run (Pol : Z -> Prop) st ops :
  Forall (fun o => Pol (fst o) /\ op_ok (snd o)) ops -> session_ok Pol st -> session_ok Pol (run st ops).
Proof.
  intros Ho. revert st. induction Ho as [|[p op] ops [Hp Hop] _ IH]; intros st Hok; [done|].
  cbn. apply IH. by apply session_ok_step.
Qed.

End ota.
