(* ===== verification/OtaTheorems.v ===== *)
(** * The update path: what reaches the flash was announced, checked and signed *)

From S2P Require Import Prelude Flash FwSign B64 BlobStore PsramRegions BlobTheorems Ota OtaSession.

(** A PSRAM read that works returns the bytes; a write changes its range only. *)
Class PsramLaws (P : Type) `{Psram P} := {
  p_byte : P -> Z -> Z;
  p_read p a n bs : psram_read p a n = Some bs -> bs = map (fun i => p_byte p (a + Z.of_nat i)) (seq 0 n);
  p_write_out p a bs x : ~ (a <= x < a + Z.of_nat (length bs)) -> p_byte (fst (psram_write p a bs)) x = p_byte p x;
  p_write_in p a bs i b : snd (psram_write p a bs) = true -> bs !! i = Some b ->
    p_byte (fst (psram_write p a bs)) (a + Z.of_nat i) = b;
}.

Section signed.
Context `{Monocypher}.

(** Some 128-byte manifest names this target, size and digest and carries a
    signature that verifies under a release key. *)
Definition release_signed (keys : list (list Z)) (target size : Z) (sha : list Z) : Prop :=
  exists sig pub, length sig = FW_SIGN_MANIFEST_LEN /\ In pub keys /\
    crypto_ed25519_check (drop SIGNED_LEN sig) pub (signed_msg sig) = true /\
    m_target (parse_manifest sig) = target /\ m_size (parse_manifest sig) = size /\ m_sha256 (parse_manifest sig) = sha.

Lemma check_ok_signed keys sig target size sha m :
  fw_sign_check keys sig target size sha = (FW_SIG_OK, m) -> release_signed keys target size sha.
Proof.
  intros E. destruct (fw_sign_ok_length _ _ _ _ _ _ E) as (s & -> & Hl).
  unfold fw_sign_check, fw_sign_check_keys in E. destruct s as [|b s]; [done|]. set (sig := b :: s) in *.
  destruct (manifest_format sig); [|done]. cbn [negb] in E. cbv zeta in E.
  destruct (find_pub keys _) as [pub|] eqn:Ep; [|done].
  destruct (crypto_ed25519_check _ _ _) eqn:Ec; [|done]. cbn [negb] in E.
  destruct (Z.eqb_spec (m_target (parse_manifest sig)) target); [|done].
  destruct (Z.eqb_spec (m_size (parse_manifest sig)) size); [|done]. case_bool_decide; [|done].
  exists sig, pub. split_and!; try done. unfold find_pub in Ep. by apply find_some in Ep as [? _].
Qed.

End signed.

Section ota.
Context `{PL : PsramLaws P} `{WL : W25qLaws W} `{Sha256} `{Monocypher}.
Variable env : ota_env P.
Implicit Types (st : ota_t P W).

Definition p_content (p : P) (a : Z) (n : nat) : list Z := bytes_at (p_byte p) a n.

Lemma read_staged_content k p off size bs :
  read_staged_loop k p off size = Some bs -> bs = p_content p (OTA_PSRAM_BASE + off) (Z.to_nat (size - off)).
Proof.
  revert off bs. induction k as [|k IH]; intros off bs; cbn [read_staged_loop];
    (destruct (Z.leb_spec size off);
      [intros E; apply (inj Some) in E as <-; by replace (Z.to_nat (size - off)) with 0%nat by lia|]); [done|].
  cbv zeta. set (n := if Z.of_nat OTA_CHUNK <? size - off then OTA_CHUNK else Z.to_nat (size - off)).
  destruct (psram_read p _ n) as [chunk|] eqn:Er; [|done].
  destruct (read_staged_loop k p _ size) as [r|] eqn:El; [|done]. intros E. apply (inj Some) in E as <-.
  apply p_read in Er. apply IH in El. fold (p_content p (OTA_PSRAM_BASE + off) n) in Er. subst chunk r.
  assert (Hn : Z.of_nat n <= size - off) by (subst n; destruct (Z.ltb_spec (Z.of_nat OTA_CHUNK) (size - off)); lia).
  replace (Z.to_nat (size - off)) with (n + Z.to_nat (size - (off + Z.of_nat n)))%nat by lia.
  unfold p_content. by rewrite bytes_at_app, <- Z.add_assoc.
Qed.

Lemma staged_content st bs : staged st = Some bs -> bs = p_content (ps st) OTA_PSRAM_BASE (Z.to_nat (s_size st)).
Proof. unfold staged. intros E%read_staged_content. by rewrite Z.add_0_r, Z.sub_0_r in E. Qed.

(** The fuel is enough: the loop only fails when a read does. *)
Lemma read_staged_total k p off size :
  (forall a n, psram_read p a n <> None) -> size - off <= Z.of_nat k -> exists bs, read_staged_loop k p off size = Some bs.
Proof.
  intros Hr. revert off. induction k as [|k IH]; intros off Hk; cbn [read_staged_loop];
    (destruct (Z.leb_spec size off); [by exists []|]); [lia|]. cbv zeta.
  set (n := if Z.of_nat OTA_CHUNK <? size - off then OTA_CHUNK else Z.to_nat (size - off)).
  destruct (psram_read p _ n) as [chunk|] eqn:Er; [|by apply Hr in Er].
  destruct (IH (off + Z.of_nat n)) as [bs ->]; [|by exists (chunk ++ bs)].
  assert (1 <= Z.of_nat n) by (subst n; destruct (Z.ltb_spec (Z.of_nat OTA_CHUNK) (size - off)); lia). lia.
Qed.

(** [ota_end] accepts exactly an image that is complete and whose staged
    bytes hash to the announced digest, that fits this pod's flash and, under the
    policy [required], can itself enforce signatures (firmware), and that its
    validation accepts (configuration). Then only the state changes, to
    VERIFIED, and the first [s_size] bytes of the PSRAM are the announced
    image; otherwise the session is in ERROR. *)
Theorem ota_end_verifies policy st :
  let '(st', rc) := ota_end env policy st in
  (rc = 0 <-> end_checks env policy st) /\
  (rc = 0 -> st' = {| st with s_state := OTA_VERIFIED |} /\
     sha256 (p_content (ps st') OTA_PSRAM_BASE (Z.to_nat (s_size st'))) = s_expect st') /\
  (rc <> 0 -> rc = -1 /\ s_state st' = OTA_ERROR).
Proof.
  pose proof (end_spec env policy st) as He. destruct (ota_end env policy st) as [st' rc].
  destruct He as [(-> & Hc & ->)|(-> & Hc & He)]; [|by split_and!].
  split_and!; try done. intros _. split; [done|]. cbn.
  destruct Hc as (_ & _ & (bs & Hb & Hh) & _). by rewrite <- (staged_content st bs Hb).
Qed.

(** Staging writes stay inside the announced image: after [ota_data]
    every PSRAM byte outside [0, s_size) is as before; an accepted chunk is in
    range, is there byte for byte, and the extent counts it; a refused one ends
    the session in ERROR. *)
Theorem ota_data_inside st offset buf x :
  0 <= offset < 4294967296 -> s_size st < 4294967296 ->
  let '(st', rc) := ota_data st offset buf in
  (~ (OTA_PSRAM_BASE <= x < OTA_PSRAM_BASE + s_size st) -> p_byte (ps st') x = p_byte (ps st) x) /\
  (rc = 0 -> buf <> [] -> offset + Z.of_nat (length buf) <= s_size st /\
     p_content (ps st') (OTA_PSRAM_BASE + offset) (length buf) = buf /\
     s_received st' = Z.max (s_received st) (offset + Z.of_nat (length buf))) /\
  (rc <> 0 -> s_state st' = OTA_ERROR).
Proof.
  intros Ho Hs. pose proof (data_cases st offset buf) as Hc. destruct (ota_data st offset buf) as [st' rc].
  destruct Hc as [(_ & -> & -> & _ & ->)|[(_ & -> & Hne & Hl & Hw & Hc)|(-> & He & Hw)]]; [done| |].
  - pose proof (f_equal fst Hw) as Hw1. pose proof (f_equal snd Hw) as Hw2. cbn [fst snd] in Hw1, Hw2.
    split; [intros Hx; rewrite <- Hw1; apply p_write_out; lia|]. split; [intros _ _|done].
    split; [done|]. split.
    + apply bytes_at_is. intros i b Eb. rewrite <- Hw1. by apply p_write_in.
    + rewrite u32_id in Hc by lia. unfold core in Hc. cbn in Hc. by simplify_eq.
  - split; [|split; [done|by intros _]]. intros Hx. destruct Hw as [->|[Hl Hw]]; [done|].
    pose proof (f_equal fst Hw) as Hw1. cbn [fst] in Hw1. rewrite <- Hw1. apply p_write_out. lia.
Qed.

(** C2: on a pod whose policy is [required], from power up on, whatever the
    transports send: a live session for code (anything but the two
    configuration targets) has a size within the target's area and an image
    announced by a manifest that a release key signed for that target, size and
    digest. *)
Theorem required_means_signed p b ops :
  let st := run env (ota_init p b) ops in
  Forall (fun o => fst o = FW_SIG_POLICY_REQUIRED /\ op_ok (snd o)) ops ->
  session_active st = true ->
  0 < s_size st <= target_max_size (flash_size env) (s_target st) /\
  (target_is_config (s_target st) = false ->
   release_signed (k_keys env) (s_target st) (s_size st) (s_expect st)).
Proof.
  intros st Ho Ha. assert (Hok : session_ok env (fun p => p = FW_SIG_POLICY_REQUIRED) st)
    by (apply session_ok_run; [done|by apply session_ok_inactive]).
  destruct (Hok Ha) as (_ & Hsz & _ & _ & _ & _ & _ & Hauth). split; [done|]. intros Hc.
  destruct Hauth as [Hcfg|(pol & sig & m & -> & Hchk & Hacc)]; [congruence|].
  assert (E : s_sig st = FW_SIG_OK).
  { destruct (s_target st =? OTA_TARGET_BRIDGE); [apply Hacc|by apply accept_required]. }
  rewrite E in Hchk. by eapply check_ok_signed.
Qed.

(** ** Owners *)

(** The operation is a call by [who]. *)
Definition op_by (op : @ota_op P) (who : Z) : Prop :=
  match op with
  | OpBegin w _ _ _ _ _ | OpData w _ _ | OpEnd w | OpBusy w | OpAbort w | OpRefuse w _ | OpGone w => w = who
  | OpBeginSigned _ _ _ _ _ => who = OTA_OWNER_NONE
  | _ => False
  end.

(** A live session that [who] neither owns nor may take over. *)
Definition shut_out st (who : Z) : Prop :=
  session_active st = true /\ s_owner st <> OTA_OWNER_NONE /\ s_owner st <> who /\
  may_adopt st who = false /\ abandoned st = false.

(** The session of another owner, with at most a new refusal on record. *)
Definition refused_only st st' : Prop :=
  st' = {| st with s_ref_owner := s_ref_owner st'; s_ref_err := s_ref_err st'; s_ref_seq := s_ref_seq st' |}.

Lemma refused_only_refl st : refused_only st st.
Proof. by destruct st. Qed.

Lemma refused_only_trans st1 st2 st3 : refused_only st1 st2 -> refused_only st2 st3 -> refused_only st1 st3.
Proof. unfold refused_only. intros -> E. destruct st1, st3. cbn in *. by simplify_eq. Qed.

Lemma refused_only_shut st st' who : refused_only st st' -> shut_out st who -> shut_out st' who.
Proof. unfold refused_only. intros ->. by destruct st. Qed.

Lemma shut_may st who : shut_out st who -> may_act st who = false /\ may_replace st who = false.
Proof.
  intros (Ha & Hn & Hw & Had & Hab). unfold may_replace, may_act. rewrite Ha, Had, Hab.
  apply Z.eqb_neq in Hn as ->. apply Z.eqb_neq in Hw as ->. done.
Qed.

Lemma shut_refuse st who why fresh : shut_out st who -> refused_only st (refuse st who why fresh).
Proof.
  intros Hs. unfold refuse. destruct (shut_may st who Hs) as [_ ->].
  destruct (_ && negb fresh); [apply refused_only_refl|done].
Qed.

Lemma shut_step policy st op who :
  op_by op who -> shut_out st who ->
  refused_only st (fst (ota_step env policy st op)) /\
  (match op with OpRefuse _ _ | OpGone _ => True | _ => snd (ota_step env policy st op) <> 0 end).
Proof.
  intros Hby Hs. destruct (shut_may st who Hs) as [Hact Hrep].
  assert (Hbegin : forall size hex t v sig,
    refused_only st (fst (ota_begin_owned env policy st who size hex t v sig)) /\
    snd (ota_begin_owned env policy st who size hex t v sig) <> 0).
  { intros. unfold ota_begin_owned, ota_busy_replace_for. rewrite Hrep. split; [by apply shut_refuse|done]. }
  destruct op; cbn [op_by] in Hby; try done; subst; cbn [ota_step]; try apply Hbegin.
  - unfold ota_data_by, ota_busy_for. rewrite Hact. split; [by apply shut_refuse|done].
  - unfold ota_end_by, ota_busy_for. rewrite Hact. split; [by apply shut_refuse|done].
  - unfold ota_busy_for. rewrite Hact. split; [apply refused_only_refl|done].
  - unfold ota_abort_by. rewrite Hrep. split; [apply refused_only_refl|done].
  - split; [by apply shut_refuse|done].
  - unfold ota_owner_gone. destruct Hs as (_ & _ & Hw & _). apply Z.eqb_neq in Hw as ->.
    rewrite andb_false_r. split; [apply refused_only_refl|done].
Qed.

(** Another owner cannot disturb a live update. While a session is neither
    abandoned nor adoptable by a caller, none of that caller's begins, chunks,
    ends, aborts, busy queries, refusals or disconnections, in any number and
    under any policy, changes anything but the refusal shown to it: the image,
    the staged bytes, the progress, the owner and the clocks stay; and each
    begin, chunk, end, query and abort is answered with an error. *)
Theorem stranger_harmless st who policy op ops :
  shut_out st who -> Forall (fun o => op_by (snd o) who) ops -> op_by op who ->
  let st' := run env st ops in
  refused_only st st' /\
  (match op with OpRefuse _ _ | OpGone _ => True | _ => snd (ota_step env policy st' op) = -1 end).
Proof.
  intros Hs Ho Hop st'. assert (Hr : refused_only st st').
  { subst st'. clear Hop op. revert st Hs. induction Ho as [|[pol o] ops Hb _ IH]; intros st Hs; [apply refused_only_refl|].
    cbn. destruct (shut_step pol st o who Hb Hs) as [Hr _]. eapply refused_only_trans; [exact Hr|].
    apply IH. by eapply refused_only_shut. }
  split; [done|]. pose proof (refused_only_shut _ _ _ Hr Hs) as Hs'.
  destruct (shut_may st' who Hs') as [Hact Hrep].
  destruct op; cbn [op_by] in Hop; try done; subst; cbn [ota_step].
  - unfold ota_begin_owned_b64, ota_begin_owned, ota_busy_replace_for. by rewrite Hrep.
  - unfold ota_begin_signed, ota_begin_owned, ota_busy_replace_for. by rewrite Hrep.
  - unfold ota_data_by, ota_busy_for. by rewrite Hact.
  - unfold ota_end_by, ota_busy_for. by rewrite Hact.
  - unfold ota_busy_for. by rewrite Hact.
  - unfold ota_abort_by. by rewrite Hrep.
Qed.

(** ** The watchdog *)

Definition ticks st (ts : list Z) : ota_t P W := fold_left (fun st t => ota_watchdog st (u32 t)) ts st.

Lemma ticks_idle st ts : s_state st = OTA_IDLE -> s_state (ticks st ts) = OTA_IDLE.
Proof.
  revert st. induction ts as [|t ts IH]; intros st E; [done|]. cbn. apply IH.
  unfold ota_watchdog. destruct st. cbn in E. subst. done.
Qed.

(** The hold time of a live session and the mark it is measured from. *)
Definition hold_ms st : Z := if bool_decide (s_state st = OTA_VERIFIED) then OTA_VERIFIED_HOLD_MS else OTA_STAGE_IDLE_MS.
Definition armed_at st (m : Z) : Prop :=
  (s_state st = OTA_VERIFIED /\ s_verified_mark_ms st = m) \/
  (s_state st = OTA_RECEIVING /\ s_received st = s_wd_seen st /\ s_wd_mark_ms st = m).

Ltac decide_states :=
  change (bool_decide (OTA_VERIFIED = OTA_VERIFIED)) with true in *;
  change (bool_decide (OTA_RECEIVING = OTA_VERIFIED)) with false in *;
  change (bool_decide (OTA_RECEIVING = OTA_RECEIVING)) with true in *.

(** One tick of an armed session: kept as it is, or dropped. *)
Lemma armed_tick st m now :
  m <> 0 -> armed_at st m ->
  if u32 (now - m) <? hold_ms st
  then core (ota_watchdog st now) = core st /\ armed_at (ota_watchdog st now) m /\ s_owner (ota_watchdog st now) = s_owner st
  else s_state (ota_watchdog st now) = OTA_IDLE /\ s_owner (ota_watchdog st now) = OTA_OWNER_NONE.
Proof.
  intros Hm Ha. destruct st. unfold armed_at, hold_ms, ota_watchdog, ota_abort, core in *.
  cbn -[u32 Z.sub Z.eqb Z.ltb] in *. destruct Ha as [[-> ->]|(-> & -> & ->)]; decide_states; cbn -[u32 Z.sub Z.eqb Z.ltb].
  - apply Z.eqb_neq in Hm as ->. destruct (u32 (now - m) <? 600000); cbn -[u32]; [|done].
    split_and!; [done|by left|done].
  - rewrite Z.eqb_refl. apply Z.eqb_neq in Hm as ->. cbn -[u32 Z.sub Z.ltb].
    destruct (u32 (now - m) <? 120000); cbn -[u32]; [|done]. split_and!; [done|by right|done].
Qed.

Lemma u32_diff a b : 0 <= a - b < 4294967296 -> u32 (u32 a - u32 b) = a - b.
Proof. intros. unfold u32. rewrite <- Zminus_mod. by apply Z.mod_small. Qed.

Lemma core_state st st' : core st' = core st -> s_state st' = s_state st.
Proof. unfold core. intros E. by simplify_eq. Qed.

Lemma armed_ticks st t0 ts :
  u32 t0 <> 0 -> armed_at st (u32 t0) -> Forall (fun t => 0 <= t - t0 < 4294967296) ts ->
  if forallb (fun t => t - t0 <? hold_ms st) ts
  then core (ticks st ts) = core st /\ s_owner (ticks st ts) = s_owner st
  else s_state (ticks st ts) = OTA_IDLE.
Proof.
  intros Hz Ha Ht. revert st Ha. induction Ht as [|t ts Ht _ IH]; intros st Ha; [done|]. cbn [forallb ticks fold_left].
  fold (ticks (ota_watchdog st (u32 t)) ts). pose proof (armed_tick st (u32 t0) (u32 t) Hz Ha) as Hk.
  rewrite u32_diff in Hk by done. destruct (t - t0 <? hold_ms st); cbn [andb]; [|by apply ticks_idle, Hk].
  destruct Hk as (Hc & Ha' & Hw). specialize (IH _ Ha'). unfold hold_ms in IH |- *. rewrite (core_state _ _ Hc) in IH.
  destruct (forallb _ ts); [|done]. by rewrite Hc, Hw in IH.
Qed.

(** A stalled update frees the pod, and not too early. Take a session that
    has just made progress (or was just verified), and any calls of the
    watchdog from its next tick [t0] on, within the 49 days the clock needs to
    wrap, at ticks other than 0: as long as the last mark is less than 120 s
    old (600 s for a verified image) the session is kept as it is; one later
    call is enough to drop it, and it stays dropped. *)
Theorem watchdog_bounds st t0 ts :
  (s_state st = OTA_RECEIVING /\ (s_received st <> s_wd_seen st \/ s_wd_mark_ms st = 0)) \/
  (s_state st = OTA_VERIFIED /\ s_verified_mark_ms st = 0) ->
  u32 t0 <> 0 -> Forall (fun t => 0 <= t - t0 < 4294967296) ts ->
  if forallb (fun t => t - t0 <? hold_ms st) ts
  then core (ticks st (t0 :: ts)) = core st /\ s_owner (ticks st (t0 :: ts)) = s_owner st
  else s_state (ticks st (t0 :: ts)) = OTA_IDLE.
Proof.
  intros Hst Hz Ht. cbn [ticks fold_left]. fold (ticks (ota_watchdog st (u32 t0)) ts).
  assert (Hk : core (ota_watchdog st (u32 t0)) = core st /\ s_owner (ota_watchdog st (u32 t0)) = s_owner st /\
               armed_at (ota_watchdog st (u32 t0)) (u32 t0)).
  { destruct st. unfold armed_at, ota_watchdog, nonzero, core in *. apply Z.eqb_neq in Hz. cbn -[u32] in *.
    destruct Hst as [[-> Hr]|[-> ->]]; decide_states; cbn -[u32].
    - assert (E : negb (s_received =? s_wd_seen) || (s_wd_mark_ms =? 0) = true).
      { destruct Hr as [Hr| ->]; [apply Z.eqb_neq in Hr as ->|rewrite orb_true_r]; done. }
      rewrite E. cbn -[u32]. rewrite Hz. split_and!; [done|done|by right].
    - rewrite Hz. cbn -[u32]. split_and!; [done|done|by left]. }
  destruct Hk as (Hc & Hw & Ha). pose proof (armed_ticks _ t0 ts Hz Ha Ht) as Hr.
  unfold hold_ms in *. rewrite (core_state _ _ Hc) in Hr. destruct (forallb _ ts); [|done]. by rewrite Hc, Hw in Hr.
Qed.

(** ** Installing *)

Lemma staged_src_length st o n bs : staged_src st o n = Some bs -> length bs = n.
Proof. unfold staged_src. intros ->%p_read. by rewrite length_map, length_seq. Qed.

(** The slot after a successful install. *)
Lemma install_spec (Pol : Z -> Prop) st st' hooks :
  session_ok env Pol st -> length (s_info (blobs st)) = BLOB_SLOT_COUNT ->
  ota_install_blob env st = (st', 0, hooks) ->
  session_active st = true /\ s_state st' = OTA_INSTALLED /\
  (s_target st = OTA_TARGET_TLS /\ hooks = [] \/
   let id := target_blob (s_target st) in
   let w := b_flash (blobs st') in
   hooks = [OnInstalled id] /\
   s_info (blobs st') !! id = Some (BlobInfo true (s_size st) (s_version st) (s_expect st)) /\
   slot_info w id = BlobInfo true (s_size st) (s_version st) (s_expect st) /\
   sha256 (content w (sl_base (slot id) + BLOB_HDR_SIZE) (Z.to_nat (s_size st))) = s_expect st).
Proof.
  intros Hok Hlen. unfold ota_install_blob. case_bool_decide as Es; cbn [negb]; [|done].
  assert (Ha : session_active st = true) by (apply active_state; by right).
  destruct (Hok Ha) as (Ht & Hsz & _ & _ & Hx & Hv & Hb & _).
  destruct (Z.eqb_spec (s_target st) OTA_TARGET_FIRMWARE); [done|].
  destruct (Z.eqb_spec (s_target st) OTA_TARGET_TLS) as [E|E].
  { destruct (ota_install_staged_config _ _ _ _); [done|]. intros [= <- <-]. split_and!; [done..|by left]. }
  set (id := target_blob (s_target st)) in *.
  set (extra := if (id =? BLOB_BRIDGE)%nat then s_sig_copy st else []).
  assert (Ew : (if (id =? BLOB_BRIDGE)%nat
      then blob_store_write_ext (blobs st) id (s_size st) (s_version st) (s_expect st) (staged_src st) (s_sig_copy st)
      else blob_store_write (blobs st) id (s_size st) (s_version st) (s_expect st) (staged_src st)) =
    blob_store_write_ext (blobs st) id (s_size st) (s_version st) (s_expect st) (staged_src st) extra).
  { subst extra. by destruct (id =? BLOB_BRIDGE)%nat. }
  rewrite Ew. clear Ew.
  pose proof (write_ext_zero (blobs st) id (s_size st) (s_version st) (s_expect st) (staged_src st) extra ltac:(lia)) as Hz.
  pose proof (write_ext_result (blobs st) id (s_size st) (s_version st) (s_expect st) (staged_src st) extra) as Hr.
  destruct (blob_store_write_ext _ _ _ _ _ _ _) as [b rc]. cbn [fst snd] in Hz.
  destruct (Z.eqb_spec rc 0) as [->|]; [|done]. cbn [negb]. intros [= <- <-].
  destruct (Hz eq_refl) as (Hsl & Hc & He & Hf).
  assert (Hid : (id < BLOB_SLOT_COUNT)%nat).
  { unfold slot_ok in Hsl. apply andb_true_iff in Hsl as [Hsl _]. by apply Nat.ltb_lt. }
  destruct Hr as ((_ & Hd) & Hr & _); try done; [lia|lia|apply staged_src_length|].
  destruct (Hr eq_refl) as [Hi Hs]. cbn [fst snd] in *. split_and!; [done..|right].
  cbn. split_and!; try done. apply Hd. by rewrite Hs.
Qed.

(** What an update installs is what was announced and signed. From power up
    on, under the policy [required], whatever the transports send: when
    [ota_install_blob] succeeds with a W25Q target, that target's slot holds
    exactly the announced size, version and digest, on the chip and in the
    cache, and data that hashes to the digest; and unless the target is
    configuration, a release key signed that target, size and digest. *)
Theorem installed_blob_signed p b ops st' id :
  let st := run env (ota_init p b) ops in
  Forall (fun o => fst o = FW_SIG_POLICY_REQUIRED /\ op_ok (snd o)) ops ->
  length (s_info (blobs st)) = BLOB_SLOT_COUNT ->
  ota_install_blob env st = (st', 0, [OnInstalled id]) ->
  let w := b_flash (blobs st') in
  id = target_blob (s_target st) /\
  s_info (blobs st') !! id = Some (BlobInfo true (s_size st) (s_version st) (s_expect st)) /\
  slot_info w id = BlobInfo true (s_size st) (s_version st) (s_expect st) /\
  sha256 (content w (sl_base (slot id) + BLOB_HDR_SIZE) (Z.to_nat (s_size st))) = s_expect st /\
  (target_is_config (s_target st) = false ->
   release_signed (k_keys env) (s_target st) (s_size st) (s_expect st)).
Proof.
  intros st Ho Hlen Hi w. assert (Hok : session_ok env (fun p => p = FW_SIG_POLICY_REQUIRED) st)
    by (apply session_ok_run; [done|by apply session_ok_inactive]).
  destruct (install_spec _ _ _ _ Hok Hlen Hi) as (Ha & _ & [[_ Hh]|(Hh & Hc & Hs & Hd)]); [done|].
  assert (id = target_blob (s_target st)) as -> by congruence. split_and!; try done.
  intros Hcfg. destruct (Hok Ha) as (_ & _ & _ & _ & _ & _ & _ & [Hc'|(pol & sig & m & -> & Hchk & Hacc)]); [congruence|].
  assert (E : s_sig st = FW_SIG_OK).
  { destruct (s_target st =? OTA_TARGET_BRIDGE); [apply Hacc|by apply accept_required]. }
  rewrite E in Hchk. by eapply check_ok_signed.
Qed.

End ota.

(** ** A concrete pod: toy chip and checksum ([BlobTheorems.Toy]), a PSRAM that
    always works, a toy signature, one release key, the bridge built in. *)
Module ToyPod.
Import BlobTheorems.Toy.

Definition psram := Z -> Z.
#[export] Instance toy_psram : Psram psram := {
  psram_read p a n := Some (bytes_at p a n);
  psram_write p a bs := (fun x => if decide (a <= x < a + Z.of_nat (length bs)) then nth (Z.to_nat (x - a)) bs 0 else p x, true);
}.
#[export, refine] Instance toy_psram_laws : PsramLaws psram := {| p_byte p := p |}.
Proof.
  - intros p a n bs E. by apply (inj Some) in E.
  - intros p a bs x Hx. cbn. by case_decide.
  - intros p a bs i b _ Hi. cbn. pose proof (lookup_lt_Some _ _ _ Hi). case_decide; [|lia].
    replace (Z.to_nat (a + Z.of_nat i - a)) with i by lia. by apply nth_lookup_Some.
Defined.
#[export] Instance toy_sign : Monocypher := toy_crypto.

Definition env : ota_env psram := OtaEnv psram true [replicate 32 7] 0x200000 (fun _ _ _ => None) (fun _ _ _ => None).

Definition digest : list Z := sha256 data.
Definition hex : cstr := concat (map hex2 digest).
Definition manifest (target : Z) : list Z :=
  manifest_head (Manifest target 0 3 digest 1 2 2 1024 (replicate 8 7)) ++ replicate 64 7.
Definition b64 (target : Z) : option cstr := b64url_encode (manifest target) 1000.

Definition zeros : psram := fun _ => 0.
Definition pod : ota_t psram chip := ota_init zeros blank.

(** The cloud sends a gateware image; a LAN client and a capture interfere. *)
Definition upload : list (Z * @ota_op psram) :=
  [(2, OpTick 5); (2, OpBegin OTA_OWNER_CLOUD 3 (Some hex) OTA_TARGET_GW1 9 (b64 OTA_TARGET_GW1));
   (2, OpTick 6); (2, OpData OTA_OWNER_CLOUD 1 [20; 30]); (2, OpData (OTA_OWNER_LAN 0) 0 [66]);
   (2, OpData OTA_OWNER_CLOUD 0 [10]); (2, OpTick 7); (2, OpEnd OTA_OWNER_CLOUD)].
Abbreviation loaded := (run env (ota_init zeros blank) upload).

Lemma upload_ok : Forall (fun o => fst o = FW_SIG_POLICY_REQUIRED /\ op_ok (snd o)) upload.
Proof. repeat constructor; cbn; lia. Qed.

(** Without the signature nothing gets in. *)
Example unsigned_refused :
  let st := run env pod [(2, OpBegin OTA_OWNER_CLOUD 3 (Some hex) OTA_TARGET_GW1 9 None)] in
  s_state st = OTA_ERROR /\ s_err st = str "signature: none".
Proof. vm_compute. done. Qed.

End ToyPod.
Import BlobTheorems.Toy ToyPod.

Lemma required_means_signed_witness :
  session_active loaded = true /\ 0 < s_size loaded <= target_max_size (flash_size env) (s_target loaded) /\
  (target_is_config (s_target loaded) = false ->
   release_signed (k_keys env) (s_target loaded) (s_size loaded) (s_expect loaded)).
Proof.
  assert (Ha : session_active loaded = true) by (vm_compute; reflexivity). split; [exact Ha|].
  exact (required_means_signed env zeros blank upload upload_ok Ha).
Defined.

Definition installed : ota_t psram chip := fst (fst (ota_install_blob env loaded)).

Lemma installed_ok : ota_install_blob env loaded = (installed, 0, [OnInstalled BLOB_GW1]).
Proof.
  assert (E : snd (fst (ota_install_blob env loaded)) = 0 /\ snd (ota_install_blob env loaded) = [OnInstalled BLOB_GW1])
    by (vm_compute; split; reflexivity).
  destruct E as [E1 E2]. unfold installed. destruct (ota_install_blob env loaded) as [[st rc] hooks].
  cbn [fst snd] in *. by subst.
Qed.

Lemma loaded_slots : length (s_info (blobs loaded)) = BLOB_SLOT_COUNT.
Proof. vm_compute. reflexivity. Qed.

Lemma installed_blob_signed_witness :
  let w := b_flash (blobs installed) in
  BLOB_GW1 = target_blob (s_target loaded) /\
  s_info (blobs installed) !! BLOB_GW1 = Some (BlobInfo true (s_size loaded) (s_version loaded) (s_expect loaded)) /\
  slot_info w BLOB_GW1 = BlobInfo true (s_size loaded) (s_version loaded) (s_expect loaded) /\
  sha256 (content w (sl_base (slot BLOB_GW1) + BLOB_HDR_SIZE) (Z.to_nat (s_size loaded))) = s_expect loaded /\
  (target_is_config (s_target loaded) = false ->
   release_signed (k_keys env) (s_target loaded) (s_size loaded) (s_expect loaded)).
Proof.
  exact (installed_blob_signed env zeros blank upload installed BLOB_GW1 upload_ok loaded_slots installed_ok).
Defined.

Lemma ota_data_inside_witness :
  let st := run env pod (take 3 upload) in
  s_state st = OTA_RECEIVING /\
  let '(st', rc) := ota_data st 1 [20; 30] in
  (~ (OTA_PSRAM_BASE <= 700 < OTA_PSRAM_BASE + s_size st) -> p_byte (ps st') 700 = p_byte (ps st) 700) /\
  (rc = 0 -> [20; 30] <> [] -> 1 + Z.of_nat (length [20; 30]) <= s_size st /\
     p_content (ps st') (OTA_PSRAM_BASE + 1) (length [20; 30]) = [20; 30] /\
     s_received st' = Z.max (s_received st) (1 + Z.of_nat (length [20; 30]))) /\
  (rc <> 0 -> s_state st' = OTA_ERROR).
Proof.
  split; [vm_compute; reflexivity|].
  apply (ota_data_inside (run env pod (take 3 upload)) 1 [20; 30] 700); [lia|vm_compute; reflexivity].
Defined.

Lemma stranger_harmless_witness :
  let st := run env pod (take 4 upload) in
  let lan := [(0, OpBegin 16 9 (Some hex) OTA_TARGET_ESP 1 None); (0, OpData 16 0 [1]); (0, OpAbort 16); (0, OpGone 16)] in
  let st' := run env st lan in
  refused_only st st' /\ snd (ota_step env 0 st' (OpEnd 16)) = -1.
Proof.
  intros st lan. apply (stranger_harmless env st 16 0 (OpEnd 16) lan).
  - repeat split; vm_compute; (reflexivity || discriminate).
  - repeat constructor.
  - reflexivity.
Defined.

Lemma watchdog_bounds_witness :
  let st := run env pod (take 4 upload) in
  core (ticks st [1000; 50000; 120999]) = core st /\ s_state (ticks st [1000; 50000; 121000; 121001]) = OTA_IDLE.
Proof.
  intros st.
  assert (H1 : s_state st = OTA_RECEIVING /\ (s_received st <> s_wd_seen st \/ s_wd_mark_ms st = 0))
    by (vm_compute; split; [reflexivity|left; discriminate]).
  assert (Hh : hold_ms st = 120000) by (vm_compute; reflexivity). split.
  - pose proof (watchdog_bounds st 1000 [50000; 120999] (or_introl H1)) as Hw. rewrite Hh in Hw.
    apply Hw; [vm_compute; discriminate|repeat constructor; lia].
  - pose proof (watchdog_bounds st 1000 [50000; 121000; 121001] (or_introl H1)) as Hw. rewrite Hh in Hw.
    apply Hw; [vm_compute; discriminate|repeat constructor; lia].
Defined.

(** The exception at tick 0: the mark of 1 that stands for "armed at 0" lies in
    the future for a second call in the same millisecond, and the unsigned
    difference drops a session that has just made progress. *)
Example watchdog_tick_zero :
  let st := run env pod (take 4 upload) in
  s_state (ticks st [0]) = OTA_RECEIVING /\ s_state (ticks st [0; 0]) = OTA_IDLE.
Proof. vm_compute. done. Qed.
