(* ===== verification/HmacSha.v ===== *)
(** * SHA-256 and HMAC of the bridge ([hmac_sha256.c])

    Executable, as the C is written: the schedule, the rounds, the buffered
    [sha256_update]. The buffer is its used part. *)

From S2P Require Import Prelude.

(** The table in decimal; above each row, the words as the C spells them. *)
Definition K : list Z := [
  (* 428a2f98 71374491 b5c0fbcf e9b5dba5 3956c25b 59f111f1 923f82a4 ab1c5ed5 *)
  1116352408; 1899447441; 3049323471; 3921009573; 961987163; 1508970993; 2453635748; 2870763221;
  (* d807aa98 12835b01 243185be 550c7dc3 72be5d74 80deb1fe 9bdc06a7 c19bf174 *)
  3624381080; 310598401; 607225278; 1426881987; 1925078388; 2162078206; 2614888103; 3248222580;
  (* e49b69c1 efbe4786 0fc19dc6 240ca1cc 2de92c6f 4a7484aa 5cb0a9dc 76f988da *)
  3835390401; 4022224774; 264347078; 604807628; 770255983; 1249150122; 1555081692; 1996064986;
  (* 983e5152 a831c66d b00327c8 bf597fc7 c6e00bf3 d5a79147 06ca6351 14292967 *)
  2554220882; 2821834349; 2952996808; 3210313671; 3336571891; 3584528711; 113926993; 338241895;
  (* 27b70a85 2e1b2138 4d2c6dfc 53380d13 650a7354 766a0abb 81c2c92e 92722c85 *)
  666307205; 773529912; 1294757372; 1396182291; 1695183700; 1986661051; 2177026350; 2456956037;
  (* a2bfe8a1 a81a664b c24b8b70 c76c51a3 d192e819 d6990624 f40e3585 106aa070 *)
  2730485921; 2820302411; 3259730800; 3345764771; 3516065817; 3600352804; 4094571909; 275423344;
  (* 19a4c116 1e376c08 2748774c 34b0bcb5 391c0cb3 4ed8aa4a 5b9cca4f 682e6ff3 *)
  430227734; 506948616; 659060556; 883997877; 958139571; 1322822218; 1537002063; 1747873779;
  (* 748f82ee 78a5636f 84c87814 8cc70208 90befffa a4506ceb bef9a3f7 c67178f2 *)
  1955562222; 2024104815; 2227730452; 2361852424; 2428436474; 2756734187; 3204031479; 3329325298].

Definition H0 : list Z :=
  [0x6a09e667; 0xbb67ae85; 0x3c6ef372; 0xa54ff53a; 0x510e527f; 0x9b05688c; 0x1f83d9ab; 0x5be0cd19].

(** Big-endian words. *)
Fixpoint be (n : nat) (z : Z) : list Z :=
  match n with O => [] | S n' => u8 (Z.shiftr z (8 * Z.of_nat n')) :: be n' z end.
Fixpoint rd_be_acc (acc : Z) (l : list Z) : Z :=
  match l with [] => acc | b :: l' => rd_be_acc (Z.lor (Z.shiftl acc 8) b) l' end.
Definition rd_be (l : list Z) : Z := rd_be_acc 0 l.

Definition ROR (x n : Z) : Z := Z.lor (Z.shiftr x n) (u32 (Z.shiftl x (32 - n))).

Definition w_init (p : list Z) : list Z := map (fun i => rd_be (sub (4 * i) 4 p)) (seq 0 16).

(** [w[16]] to [w[63]]. *)
Fixpoint w_extend (k i : nat) (w : list Z) : list Z :=
  match k with
  | O => w
  | S k' =>
      let at_ j := nth j w 0 in
      let s0 := Z.lxor (Z.lxor (ROR (at_ (i - 15)%nat) 7) (ROR (at_ (i - 15)%nat) 18)) (Z.shiftr (at_ (i - 15)%nat) 3) in
      let s1 := Z.lxor (Z.lxor (ROR (at_ (i - 2)%nat) 17) (ROR (at_ (i - 2)%nat) 19)) (Z.shiftr (at_ (i - 2)%nat) 10) in
      w_extend k' (S i) (w ++ [u32 (at_ (i - 16)%nat + s0 + at_ (i - 7)%nat + s1)])
  end.

Record vars := Vars { va : Z; vb : Z; vc : Z; vd : Z; ve : Z; vf : Z; vg : Z; vh : Z }.

Definition round (v : vars) (kw : Z * Z) : vars :=
  let '(k, w) := kw in
  let t1 := u32 (vh v + Z.lxor (Z.lxor (ROR (ve v) 6) (ROR (ve v) 11)) (ROR (ve v) 25) +
                 Z.lxor (Z.land (ve v) (vf v)) (Z.land (not32 (ve v)) (vg v)) + k + w) in
  let t2 := u32 (Z.lxor (Z.lxor (ROR (va v) 2) (ROR (va v) 13)) (ROR (va v) 22) +
                 Z.lxor (Z.lxor (Z.land (va v) (vb v)) (Z.land (va v) (vc v))) (Z.land (vb v) (vc v))) in
  Vars (u32 (t1 + t2)) (va v) (vb v) (vc v) (u32 (vd v + t1)) (ve v) (vf v) (vg v).

(** [block]: the new [h] from the old one and 64 bytes. *)
Definition block (h : list Z) (p : list Z) : list Z :=
  let at_ j := nth j h 0 in
  let v := fold_left round (combine K (w_extend 48 16 (w_init p)))
             (Vars (at_ 0%nat) (at_ 1%nat) (at_ 2%nat) (at_ 3%nat) (at_ 4%nat) (at_ 5%nat) (at_ 6%nat) (at_ 7%nat)) in
  zip_with (fun x y => u32 (x + y)) h [va v; vb v; vc v; vd v; ve v; vf v; vg v; vh v].

Record sha256_ctx_t := Ctx { c_h : list Z; c_len : Z; c_buf : list Z }.

Definition u64 (z : Z) : Z := z mod 18446744073709551616.

Definition sha256_init : sha256_ctx_t := Ctx H0 0 [].

(** One turn of the copy loop: [n] bytes into the buffer, and the buffer into
    the state when it is full. *)
Definition absorb (c : sha256_ctx_t) (p : list Z) : sha256_ctx_t :=
  let buf := c_buf c ++ p in
  if (length buf =? 64)%nat then Ctx (block (c_h c) buf) (c_len c) [] else Ctx (c_h c) (c_len c) buf.

Fixpoint update_loop (fuel : nat) (c : sha256_ctx_t) (p : list Z) : sha256_ctx_t :=
  match fuel, p with
  | S fuel', _ :: _ =>
      let n := Nat.min (64 - length (c_buf c)) (length p) in
      update_loop fuel' (absorb c (take n p)) (drop n p)
  | _, _ => c
  end.

Definition sha256_update (c : sha256_ctx_t) (data : list Z) : sha256_ctx_t :=
  update_loop (length data) (Ctx (c_h c) (u64 (c_len c + Z.of_nat (length data))) (c_buf c)) data.

(** [while (c->used != 56)]: at most 63 turns. *)
Fixpoint pad_loop (fuel : nat) (c : sha256_ctx_t) : sha256_ctx_t :=
  if (length (c_buf c) =? 56)%nat then c
  else match fuel with O => c | S fuel' => pad_loop fuel' (sha256_update c [0]) end.

Definition sha256_final (c : sha256_ctx_t) : list Z :=
  let bits := u64 (c_len c * 8) in
  let c := pad_loop 63 (sha256_update c [0x80]) in
  let c := sha256_update c (be 8 bits) in
  concat (map (be 4) (c_h c)).

Definition sha256 (msg : list Z) : list Z := sha256_final (sha256_update sha256_init msg).

Record hmac_sha256_ctx_t := HmacCtx { inner : sha256_ctx_t; opad_key : list Z }.

Definition hmac_sha256_init (key : list Z) : hmac_sha256_ctx_t :=
  let k := if (64 <? length key)%nat then sha256_final (sha256_update sha256_init key) else key in
  let k := k ++ replicate (64 - length k) 0 in
  HmacCtx (sha256_update sha256_init (map (fun b => Z.lxor b 0x36) k)) (map (fun b => Z.lxor b 0x5c) k).

Definition hmac_sha256_update (c : hmac_sha256_ctx_t) (data : list Z) : hmac_sha256_ctx_t :=
  HmacCtx (sha256_update (inner c) data) (opad_key c).

Definition hmac_sha256_final (c : hmac_sha256_ctx_t) : list Z :=
  let ih := sha256_final (inner c) in
  sha256_final (sha256_update (sha256_update sha256_init (opad_key c)) ih).

(** [ct_memcmp(...) == 0] on two areas of the same size. *)
Definition ct_memcmp (a b : list Z) : Z := fold_left (fun d xy => Z.lor d (Z.lxor (fst xy) (snd xy))) (combine a b) 0.

(** FIPS 180-4: the digest of "abc". RFC 4231, test case 2. *)
Example sha256_abc : sha256 (str "abc") =
  [0xba; 0x78; 0x16; 0xbf; 0x8f; 0x01; 0xcf; 0xea; 0x41; 0x41; 0x40; 0xde; 0x5d; 0xae; 0x22; 0x23;
   0xb0; 0x03; 0x61; 0xa3; 0x96; 0x17; 0x7a; 0x9c; 0xb4; 0x10; 0xff; 0x61; 0xf2; 0x00; 0x15; 0xad].
Proof. vm_compute. reflexivity. Qed.

Example hmac_jefe :
  hmac_sha256_final (hmac_sha256_update (hmac_sha256_init (str "Jefe")) (str "what do ya want for nothing?")) =
  [0x5b; 0xdc; 0xc1; 0x46; 0xbf; 0x60; 0x75; 0x4e; 0x6a; 0x04; 0x24; 0x26; 0x08; 0x95; 0x75; 0xc7;
   0x5a; 0x00; 0x3f; 0x08; 0x9d; 0x27; 0x39; 0x83; 0x9d; 0xec; 0x58; 0xb9; 0x64; 0xec; 0x38; 0x43].
Proof. vm_compute. reflexivity. Qed.

(** ** FIPS 180-4 on a whole message *)

Fixpoint blocks (k : nat) (m : list Z) (h : list Z) : list Z :=
  match k with O => h | S k' => blocks k' (drop 64 m) (block h (take 64 m)) end.

Definition pad (m : list Z) : list Z :=
  m ++ [0x80] ++ replicate (Z.to_nat ((55 - Z.of_nat (length m)) mod 64)) 0 ++ be 8 (u64 (Z.of_nat (length m) * 8)).

Definition sha256_spec (m : list Z) : list Z :=
  concat (map (be 4) (blocks (Z.to_nat (Z.of_nat (length (pad m)) / 64)) (pad m) H0)).

(** RFC 2104. *)
Definition hmac_spec (key m : list Z) : list Z :=
  let k := if (64 <? length key)%nat then sha256_spec key else key in
  let k := k ++ replicate (64 - length k) 0 in
  sha256_spec (map (fun b => Z.lxor b 0x5c) k ++ sha256_spec (map (fun b => Z.lxor b 0x36) k ++ m)).

Lemma blocks_app k m full h :
  length m = (64 * k)%nat -> blocks (S k) (m ++ full) h = block (blocks k m h) (take 64 full).
Proof.
  revert m h. induction k as [|k IH]; intros m h Hm.
  - assert (m = []) as -> by (destruct m; [done|cbn in Hm; lia]). done.
  - assert (Ht : length (take 64 m) = 64%nat) by (rewrite length_take; lia).
    change (blocks (S (S k)) (m ++ full) h) with (blocks (S k) (drop 64 (m ++ full)) (block h (take 64 (m ++ full)))).
    change (blocks (S k) m h) with (blocks k (drop 64 m) (block h (take 64 m))).
    rewrite drop_app_le, take_app_le by lia. apply IH. rewrite length_drop. lia.
Qed.

(** What a context holds after the message [m], before its total length. *)
Definition absorbed (m : list Z) (c : sha256_ctx_t) : Prop :=
  exists k full, m = full ++ c_buf c /\ length full = (64 * k)%nat /\ (length (c_buf c) < 64)%nat /\
    c_h c = blocks k full H0.

Lemma absorb_step m c p :
  absorbed m c -> (length (c_buf c) + length p <= 64)%nat -> absorbed (m ++ p) (absorb c p).
Proof.
  intros (k & full & -> & Hf & Hb & Hh) Hp. unfold absorb. rewrite length_app.
  destruct (Nat.eqb_spec (length (c_buf c) + length p) 64) as [E|E].
  - exists (S k), (full ++ c_buf c ++ p). cbn [c_buf c_h]. rewrite app_nil_r, <- app_assoc.
    split_and!; [done|rewrite !length_app; lia|cbn; lia|].
    rewrite blocks_app, Hh by done. by rewrite take_ge by (rewrite length_app; lia).
  - exists k, full. cbn [c_buf c_h]. rewrite <- app_assoc, length_app. split_and!; (done || lia).
Qed.

Lemma absorb_room m c : absorbed m c -> (length (c_buf c) < 64)%nat.
Proof. by intros (? & ? & _ & _ & ? & _). Qed.

Lemma absorb_len c p : c_len (absorb c p) = c_len c.
Proof. unfold absorb. by destruct (_ =? _)%nat. Qed.

Lemma update_loop_spec fuel m c p :
  (length p <= fuel)%nat -> absorbed m c -> absorbed (m ++ p) (update_loop fuel c p) /\ c_len (update_loop fuel c p) = c_len c.
Proof.
  revert m c p. induction fuel as [|fuel IH]; intros m c p Hp Hc.
  { destruct p; [|cbn in Hp; lia]. by rewrite app_nil_r. }
  destruct p as [|x p]; [by rewrite app_nil_r|]. cbn [update_loop]. cbv zeta.
  pose proof (absorb_room m c Hc) as Hr.
  set (n := Nat.min (64 - length (c_buf c)) (length (x :: p))).
  assert (Hn : (1 <= n <= length (x :: p))%nat) by (cbn [length] in *; lia).
  assert (Ht : absorbed (m ++ take n (x :: p)) (absorb c (take n (x :: p))))
    by (apply absorb_step; [done|rewrite length_take; lia]).
  destruct (IH _ _ (drop n (x :: p)) ltac:(rewrite length_drop; lia) Ht) as [H1 H2].
  rewrite <- app_assoc, take_drop in H1. by rewrite H2, absorb_len.
Qed.

(** The whole context: the absorbed bytes and their count. *)
Definition hashed (m : list Z) (c : sha256_ctx_t) : Prop := absorbed m c /\ c_len c = u64 (Z.of_nat (length m)).

Lemma u64_add a b : u64 (u64 a + b) = u64 (a + b).
Proof. unfold u64. by rewrite Zplus_mod_idemp_l. Qed.

Lemma update_spec m c p : hashed m c -> hashed (m ++ p) (sha256_update c p).
Proof.
  intros [Ha Hl]. unfold sha256_update.
  destruct (update_loop_spec (length p) m (Ctx (c_h c) (u64 (c_len c + Z.of_nat (length p))) (c_buf c)) p ltac:(done) Ha) as [H1 H2].
  split; [done|]. rewrite H2. cbn [c_len]. rewrite Hl, u64_add, length_app. f_equal. lia.
Qed.

Lemma init_spec : hashed [] sha256_init.
Proof. split; [|done]. exists 0%nat, []. cbn. split_and!; (done || lia). Qed.

Lemma updates_spec m c chunks : hashed m c -> hashed (m ++ concat chunks) (fold_left sha256_update chunks c).
Proof.
  revert m c. induction chunks as [|p chunks IH]; intros m c Hc; [by rewrite app_nil_r|].
  cbn [fold_left concat]. rewrite app_assoc. apply IH. by apply update_spec.
Qed.

(** The buffer is the message modulo 64. *)
Lemma hashed_used m c : hashed m c -> Z.of_nat (length (c_buf c)) = Z.of_nat (length m) mod 64.
Proof.
  intros [(k & full & -> & Hf & Hb & _) _]. rewrite length_app, Hf, Nat2Z.inj_add, Nat2Z.inj_mul.
  rewrite Z.add_comm, Z.mul_comm, Z_mod_plus_full. rewrite Z.mod_small; lia.
Qed.

Lemma pad_loop_spec fuel m c :
  hashed m c -> (56 - Z.of_nat (length m)) mod 64 <= Z.of_nat fuel ->
  hashed (m ++ replicate (Z.to_nat ((56 - Z.of_nat (length m)) mod 64)) 0) (pad_loop fuel c) /\
  length (c_buf (pad_loop fuel c)) = 56%nat.
Proof.
  revert m c. induction fuel as [|fuel IH]; intros m c Hc Hf; pose proof (hashed_used m c Hc) as Hu; cbn [pad_loop];
    (destruct (Nat.eqb_spec (length (c_buf c)) 56) as [E|E];
     [replace ((56 - Z.of_nat (length m)) mod 64) with 0 by (Z.div_mod_to_equations; lia); by rewrite app_nil_r|]).
  - exfalso. Z.div_mod_to_equations; lia.
  - pose proof (update_spec m c [0] Hc) as Hc'.
    assert (En : (56 - Z.of_nat (length m)) mod 64 = (56 - Z.of_nat (length (m ++ [0]))) mod 64 + 1)
      by (rewrite length_app; cbn [length]; Z.div_mod_to_equations; lia).
    destruct (IH _ _ Hc' ltac:(lia)) as [H1 H2]. split; [|done]. rewrite En.
    rewrite Z2Nat.inj_add by (try apply Z.mod_pos_bound; lia). rewrite Nat.add_comm. cbn [Z.to_nat Pos.to_nat Nat.add].
    change (Pos.to_nat 1) with 1%nat. cbn [Nat.add replicate]. by rewrite <- app_assoc in H1.
Qed.

Lemma be_length n z : length (be n z) = n.
Proof. induction n as [|n IH]; [done|]. cbn [be length]. by rewrite IH. Qed.

Lemma final_spec m c : hashed m c -> sha256_final c = sha256_spec m.
Proof.
  intros Hc. pose proof (update_spec m c [0x80] Hc) as H1. unfold sha256_final.
  destruct (pad_loop_spec 63 _ _ H1) as [H2 Hb]; [pose proof (Z.mod_pos_bound (56 - Z.of_nat (length (m ++ [0x80]))) 64); lia|].
  pose proof (update_spec _ _ (be 8 (u64 (c_len c * 8))) H2) as H3.
  set (c3 := sha256_update (pad_loop 63 (sha256_update c [0x80])) (be 8 (u64 (c_len c * 8)))) in *.
  cbv zeta. fold c3. rewrite <- !app_assoc in H3.
  assert (Ep : m ++ [0x80] ++ replicate (Z.to_nat ((56 - Z.of_nat (length (m ++ [0x80]))) mod 64)) 0 ++ be 8 (u64 (c_len c * 8)) = pad m).
  { unfold pad. do 2 f_equal. f_equal.
    - rewrite length_app. cbn [length]. do 2 f_equal. f_equal. lia.
    - f_equal. destruct Hc as [_ ->]. unfold u64. by rewrite Zmult_mod_idemp_l. }
  rewrite Ep in H3. unfold sha256_spec. do 2 f_equal.
  pose proof (hashed_used _ _ H3) as Hu. pose proof (hashed_used _ _ H2) as Hu2. rewrite Hb in Hu2.
  assert (Hz : length (c_buf c3) = 0%nat).
  { apply (f_equal length) in Ep. rewrite !length_app, be_length in Ep. rewrite !length_app in Hu2.
    assert (Z.of_nat (length (pad m)) mod 64 = 0); [|lia].
    rewrite <- Ep. cbn [length] in *. rewrite length_replicate in *. Z.div_mod_to_equations; lia. }
  destruct H3 as [(k & full & Hp & Hf & _ & ->) _]. destruct (c_buf c3); [|done]. rewrite app_nil_r in Hp. subst full.
  f_equal. rewrite Hf. replace (Z.of_nat (64 * k) / 64) with (Z.of_nat k) by (Z.div_mod_to_equations; lia). lia.
Qed.


Lemma hash_of chunks : sha256_final (fold_left sha256_update chunks sha256_init) = sha256_spec (concat chunks).
Proof. apply final_spec. apply (updates_spec [] sha256_init chunks init_spec). Qed.

Lemma hmac_of key chunks :
  hmac_sha256_final (fold_left hmac_sha256_update chunks (hmac_sha256_init key)) = hmac_spec key (concat chunks).
Proof.
  assert (E : forall cs c, fold_left hmac_sha256_update cs c = HmacCtx (fold_left sha256_update cs (inner c)) (opad_key c)).
  { induction cs as [|x cs IH]; intros c; [by destruct c|]. cbn [fold_left]. by rewrite IH. }
  rewrite E. unfold hmac_sha256_final. cbn [inner opad_key hmac_sha256_init]. unfold hmac_spec.
  pose proof (hash_of [key]) as Hk. cbn [fold_left concat] in Hk. rewrite app_nil_r in Hk. rewrite Hk.
  set (k := _ ++ replicate _ 0).
  pose proof (hash_of (map (fun b => Z.lxor b 54) k :: chunks)) as Hi. cbn [fold_left] in Hi. rewrite Hi.
  pose proof (hash_of [map (fun b => Z.lxor b 92) k; sha256_spec (concat (map (fun b => Z.lxor b 54) k :: chunks))]) as Ho.
  cbn [fold_left] in Ho. rewrite Ho. cbn [concat]. by rewrite app_nil_r.
Qed.

(** The streaming MAC is HMAC-SHA256 (RFC 2104) of the key and the
    concatenated message, keys longer than a block hashed first. *)
Theorem hmac_streaming key chunks :
  hmac_sha256_final (fold_left hmac_sha256_update chunks (hmac_sha256_init key)) = hmac_spec key (concat chunks).
Proof. apply hmac_of. Qed.

(** The constant-time comparison decides equality. *)
Lemma ct_memcmp_eq a b : length a = length b -> ct_memcmp a b = 0 <-> a = b.
Proof.
  unfold ct_memcmp. intros Hl.
  assert (G : forall d, fold_left (fun d xy => Z.lor d (Z.lxor (fst xy) (snd xy))) (combine a b) d = 0 <-> d = 0 /\ a = b).
  { revert b Hl. induction a as [|x a IH]; intros [|y b] Hl d; try done; cbn [combine fold_left]; [tauto|].
    rewrite (IH b ltac:(cbn in Hl; lia)), Z.lor_eq_0_iff, Z.lxor_eq_0_iff. cbn. split.
    - intros [[-> ->] ->]. done.
    - by intros [-> [= -> ->]]. }
  rewrite G. tauto.
Qed.

Lemma block_length h p : length h = 8%nat -> length (block h p) = 8%nat.
Proof. intros Hh. unfold block. rewrite length_zip_with, Hh. done. Qed.

Lemma blocks_length k m h : length h = 8%nat -> length (blocks k m h) = 8%nat.
Proof. revert m h. induction k as [|k IH]; intros m h Hh; [done|]. cbn [blocks]. by apply IH, block_length. Qed.

Lemma sha256_spec_length m : length (sha256_spec m) = 32%nat.
Proof.
  unfold sha256_spec. pose proof (blocks_length (Z.to_nat (Z.of_nat (length (pad m)) / 64)) (pad m) H0 eq_refl) as Hl.
  destruct (blocks _ _ _) as [|? [|? [|? [|? [|? [|? [|? [|? [|]]]]]]]]]; done.
Qed.
