(* ===== verification/Bwp.v ===== *)
(** * The bridge's control protocol ([bwp.c], [bwp_crypto.c])

    A frame is the list of its bytes. X25519, BLAKE2b and XChaCha20 are
    Monocypher's (a vendored library), the class [MonocypherBox]. *)

From S2P Require Import Prelude HmacSha.

Abbreviation BWP_ETHERTYPE := 0x88B5.
Abbreviation BWP_MAGIC0 := 0x42.
Abbreviation BWP_MAGIC1 := 0x57.
Abbreviation BWP_VERSION := 1.
Abbreviation BWP_ETH_HDR_LEN := 14%nat.
Abbreviation BWP_HDR_LEN := 8%nat.
Abbreviation BWP_MIN_FRAME := 60%nat.
Abbreviation BWP_MAX_FRAME := 1514%nat.
Abbreviation BWP_RESPONSE := 0x80.
Abbreviation BWP_KEY_LEN := 32%nat.
Abbreviation BWP_NONCE_LEN := 8%nat.
Abbreviation BWP_AUTH_LEN := 16%nat.
Abbreviation BWP_PUBKEY_LEN := 32%nat.
Abbreviation BWP_SCAN_MAX_APS := 20%nat.

Abbreviation BWP_HELLO := 0x01.
Abbreviation BWP_STATUS := 0x02.
Abbreviation BWP_SCAN := 0x03.
Abbreviation BWP_SET_WIFI := 0x04.
Abbreviation BWP_CLEAR_WIFI := 0x05.
Abbreviation BWP_OTA_BEGIN := 0x06.
Abbreviation BWP_OTA_DATA := 0x07.
Abbreviation BWP_OTA_END := 0x08.
Abbreviation BWP_REBOOT := 0x09.
Abbreviation BWP_FACTORY_RESET := 0x0A.
Abbreviation BWP_OTA_ABORT := 0x0B.
Abbreviation BWP_PAIR := 0x0C.

Abbreviation BWP_T_RESULT := 0x01.
Abbreviation BWP_T_MODEL := 0x02.
Abbreviation BWP_T_FW_VERSION := 0x03.
Abbreviation BWP_T_HW_REV := 0x04.
Abbreviation BWP_T_STATE := 0x05.
Abbreviation BWP_T_BRIDGE_MAC := 0x06.
Abbreviation BWP_T_POD_MAC := 0x07.
Abbreviation BWP_T_SSID := 0x08.
Abbreviation BWP_T_PASSPHRASE := 0x09.
Abbreviation BWP_T_CHANNEL := 0x0A.
Abbreviation BWP_T_RSSI := 0x0B.
Abbreviation BWP_T_BSSID := 0x0C.
Abbreviation BWP_T_AUTHMODE := 0x0D.
Abbreviation BWP_T_AP := 0x0E.
Abbreviation BWP_T_IMAGE_SIZE := 0x0F.
Abbreviation BWP_T_OFFSET := 0x10.
Abbreviation BWP_T_DATA := 0x11.
Abbreviation BWP_T_UPTIME := 0x12.
Abbreviation BWP_T_REASON := 0x13.
Abbreviation BWP_T_COUNTERS := 0x14.
Abbreviation BWP_T_MESSAGE := 0x15.
Abbreviation BWP_T_FLAGS := 0x16.
Abbreviation BWP_T_NONCE := 0x17.
Abbreviation BWP_T_PUBKEY := 0x18.
Abbreviation BWP_T_COUNTER := 0x19.
Abbreviation BWP_T_AUTH := 0x1A.
Abbreviation BWP_T_ENC_PASSPHRASE := 0x1B.
Abbreviation BWP_T_SIGNATURE := 0x1C.

Abbreviation BWP_F_POD_KNOWN := 0x08.
Abbreviation BWP_F_PAIRED := 0x20.

(** [bwp_result_t] and the states used here. *)
Abbreviation BWP_OK := 0.
Abbreviation BWP_E_BAD_REQUEST := 1.
Abbreviation BWP_E_NOT_PAIRED := 11.
Abbreviation BWP_E_AUTH := 12.
Abbreviation BWP_E_ALREADY_PAIRED := 13.
Abbreviation BWP_ST_JOINING := 2.
Abbreviation BWP_ST_CONNECTED := 3.
Abbreviation BWP_ST_AUTH_FAILED := 4.
Abbreviation BWP_ST_NO_AP := 5.

Definition put_be16 (v : Z) : list Z := [u8 (Z.shiftr v 8); u8 v].
Definition get_be16 (p : list Z) : Z := Z.lor (Z.shiftl (nth 0 p 0) 8) (nth 1 p 0).
Definition put_be32 (v : Z) : list Z := [u8 (Z.shiftr v 24); u8 (Z.shiftr v 16); u8 (Z.shiftr v 8); u8 v].
Definition get_be32 (p : list Z) : Z :=
  Z.lor (Z.lor (Z.lor (Z.shiftl (nth 0 p 0) 24) (Z.shiftl (nth 1 p 0) 16)) (Z.shiftl (nth 2 p 0) 8)) (nth 3 p 0).

(** ** The writer: the bytes written so far and the room *)

Record bwp_writer_t := Writer { w_buf : list Z; w_cap : nat; w_nest_at : nat; w_overflow : bool }.

Definition w_len (w : bwp_writer_t) : nat := length (w_buf w).

Definition overflowed (w : bwp_writer_t) : bwp_writer_t := Writer (w_buf w) (w_cap w) (w_nest_at w) true.

(** [reserve] and the bytes the caller puts there. *)
Definition reserve (w : bwp_writer_t) (bytes : list Z) : bwp_writer_t :=
  if w_overflow w || (w_cap w <? w_len w + length bytes)%nat then overflowed w
  else Writer (w_buf w ++ bytes) (w_cap w) (w_nest_at w) false.

Definition clamp_cap (cap : nat) : nat := if (BWP_MAX_FRAME <? cap)%nat then BWP_MAX_FRAME else cap.

Definition bwp_begin (cap : nat) (dst src : list Z) (type seq : Z) : bwp_writer_t :=
  reserve (Writer [] (clamp_cap cap) 0 false)
    (dst ++ src ++ put_be16 BWP_ETHERTYPE ++ [BWP_MAGIC0; BWP_MAGIC1; BWP_VERSION; type] ++ put_be16 seq ++ put_be16 0).

Definition bwp_put (w : bwp_writer_t) (tag : Z) (val : list Z) : bwp_writer_t :=
  if 0xFFFF <? Z.of_nat (length val) then overflowed w
  else reserve w (tag :: put_be16 (Z.of_nat (length val)) ++ val).

Definition bwp_put_u8 (w : bwp_writer_t) (tag v : Z) : bwp_writer_t := bwp_put w tag [v].
Definition bwp_put_u32 (w : bwp_writer_t) (tag v : Z) : bwp_writer_t := bwp_put w tag (put_be32 v).
Definition bwp_put_str (w : bwp_writer_t) (tag : Z) (s : cstr) : bwp_writer_t := bwp_put w tag s.

(** The bytes at an offset replaced. *)
Definition patch (off : nat) (bytes l : list Z) : list Z := take off l ++ bytes ++ drop (off + length bytes) l.

(** The two bytes of the length are written by [bwp_nest_end]. *)
Definition bwp_nest_begin (w : bwp_writer_t) (tag : Z) : bwp_writer_t :=
  let w' := reserve w [tag; 0; 0] in
  if w_overflow w' then w' else Writer (w_buf w') (w_cap w') (w_len w' - 2) false.

Definition bwp_nest_end (w : bwp_writer_t) : bwp_writer_t :=
  let buf :=
    if negb (w_overflow w) && negb (w_nest_at w =? 0)%nat
    then patch (w_nest_at w) (put_be16 (Z.of_nat (w_len w - w_nest_at w - 2))) (w_buf w) else w_buf w in
  Writer buf (w_cap w) 0 (w_overflow w).

Definition patch_len (buf : list Z) (len : nat) : list Z :=
  patch 20 (put_be16 (Z.of_nat (len - BWP_ETH_HDR_LEN - BWP_HDR_LEN))) buf.

(** The frame, or nothing. *)
Definition bwp_finish (w : bwp_writer_t) : option (list Z) :=
  if w_overflow w then None
  else
    let buf := patch_len (w_buf w) (w_len w) in
    if (w_len w <? BWP_MIN_FRAME)%nat then
      if (w_cap w <? BWP_MIN_FRAME)%nat then None else Some (buf ++ replicate (BWP_MIN_FRAME - w_len w) 0)
    else Some buf.

Definition auth_mac (key nonce from : list Z) : list Z :=
  take BWP_AUTH_LEN (hmac_sha256_final (hmac_sha256_update (hmac_sha256_update (hmac_sha256_init key) nonce) from)).

Definition bwp_sign (w : bwp_writer_t) (key nonce : list Z) (counter : Z) : bwp_writer_t :=
  let w := bwp_put_u32 w BWP_T_COUNTER counter in
  if w_overflow w || (w_cap w <? w_len w + 3 + BWP_AUTH_LEN)%nat then overflowed w
  else
    let buf := patch_len (w_buf w) (w_len w + 3 + BWP_AUTH_LEN) in
    let mac := auth_mac key nonce (drop BWP_ETH_HDR_LEN buf) in
    bwp_put (Writer buf (w_cap w) (w_nest_at w) (w_overflow w)) BWP_T_AUTH mac.

(** An already finished frame, its padding dropped, signed. *)
Definition bwp_sign_frame (buf : list Z) (cap : nat) (key nonce : list Z) (counter : Z) : option (list Z) :=
  let len := (BWP_ETH_HDR_LEN + BWP_HDR_LEN + Z.to_nat (get_be16 (drop 20 buf)))%nat in
  if (clamp_cap cap <? len)%nat then None
  else bwp_finish (bwp_sign (Writer (take len buf) (clamp_cap cap) 0 false) key nonce counter).

(** ** The reader *)

Record bwp_msg_t := Msg { m_dst : list Z; m_src : list Z; m_version : Z; m_type : Z; m_seq : Z; m_body : list Z }.

Inductive bwp_parse_t := BWP_PARSE_OK | BWP_PARSE_NOT_BWP | BWP_PARSE_BAD_VERSION | BWP_PARSE_MALFORMED.

Fixpoint tlv_valid_loop (fuel : nat) (body : list Z) : bool :=
  match body with
  | [] => true
  | _ =>
      match fuel with
      | O => false
      | S fuel' =>
          if (length body <? 3)%nat then false
          else
            let vlen := get_be16 (drop 1 body) in
            if Z.of_nat (length body) - 3 <? vlen then false else tlv_valid_loop fuel' (drop (3 + Z.to_nat vlen) body)
      end
  end.
Definition bwp_tlv_valid (body : list Z) : bool := tlv_valid_loop (length body) body.

(** The message is filled in once the headers are long enough. *)
Definition bwp_parse (frame : list Z) : bwp_parse_t * option bwp_msg_t :=
  if (length frame <? BWP_ETH_HDR_LEN + 2)%nat || negb (get_be16 (drop 12 frame) =? BWP_ETHERTYPE) then (BWP_PARSE_NOT_BWP, None)
  else if negb (nth 14 frame 0 =? BWP_MAGIC0) || negb (nth 15 frame 0 =? BWP_MAGIC1) then (BWP_PARSE_NOT_BWP, None)
  else if (length frame <? BWP_ETH_HDR_LEN + BWP_HDR_LEN)%nat then (BWP_PARSE_MALFORMED, None)
  else
    let body_len := get_be16 (drop 20 frame) in
    let m := Msg (take 6 frame) (sub 6 6 frame) (nth 16 frame 0) (nth 17 frame 0) (get_be16 (drop 18 frame))
               (take (Z.to_nat body_len) (drop (BWP_ETH_HDR_LEN + BWP_HDR_LEN) frame)) in
    if negb (m_version m =? BWP_VERSION) then (BWP_PARSE_BAD_VERSION, Some m)
    else if Z.of_nat (length frame) - Z.of_nat (BWP_ETH_HDR_LEN + BWP_HDR_LEN) <? body_len then (BWP_PARSE_MALFORMED, Some m)
    else if negb (bwp_tlv_valid (m_body m)) then (BWP_PARSE_MALFORMED, Some m)
    else (BWP_PARSE_OK, Some m).

(** The tag, the value and the rest; nothing at the end or on a truncated TLV. *)
Definition bwp_iter_next (p : list Z) : option (Z * list Z * list Z) :=
  if (length p <? 3)%nat then None
  else
    let vlen := get_be16 (drop 1 p) in
    if Z.of_nat (length p) - 3 <? vlen then None
    else Some (nth 0 p 0, sub 3 (Z.to_nat vlen) p, drop (3 + Z.to_nat vlen) p).

Fixpoint find_loop (fuel : nat) (p : list Z) (tag : Z) : option (list Z) :=
  match fuel with
  | O => None
  | S fuel' =>
      match bwp_iter_next p with
      | None => None
      | Some (t, v, rest) => if t =? tag then Some v else find_loop fuel' rest tag
      end
  end.
Definition bwp_find (body : list Z) (tag : Z) : option (list Z) := find_loop (length body) body tag.

Definition bwp_get_u8 (body : list Z) (tag : Z) : option Z :=
  match bwp_find body tag with Some v => if (length v =? 1)%nat then Some (nth 0 v 0) else None | None => None end.
Definition bwp_get_u32 (body : list Z) (tag : Z) : option Z :=
  match bwp_find body tag with Some v => if (length v =? 4)%nat then Some (get_be32 v) else None | None => None end.
Definition bwp_get_str (body : list Z) (tag : Z) (cap : nat) : option (list Z) :=
  match bwp_find body tag with Some v => if (cap <=? length v)%nat then None else Some v | None => None end.

(** The loop of [bwp_verify]: the last AUTH seen, as its offset in the body and
    its value, and whether something is wrong with the chain. *)
Fixpoint verify_loop (fuel : nat) (p : list Z) (off : nat) (auth : option (nat * list Z)) (bad : bool)
    : option (nat * list Z) * bool :=
  match fuel with
  | O => (auth, bad)
  | S fuel' =>
      match bwp_iter_next p with
      | None => (auth, bad)
      | Some (tag, v, rest) =>
          let seen := match auth with Some _ => true | None => false end in
          let bad := bad || seen in
          let '(auth, bad) :=
            if tag =? BWP_T_AUTH then (Some (off, v), bad || negb (length v =? BWP_AUTH_LEN)%nat || seen)
            else (auth, bad) in
          verify_loop fuel' rest (off + 3 + length v) auth bad
      end
  end.

Inductive bwp_verify_t := BWP_VERIFY_OK | BWP_VERIFY_MISSING | BWP_VERIFY_BAD.

(** The verdict, and the counter when there is one. *)
Definition bwp_verify (frame : list Z) (m : bwp_msg_t) (key nonce : list Z) : bwp_verify_t * option Z :=
  let '(auth, bad) := verify_loop (length (m_body m)) (m_body m) 0 None false in
  match auth with
  | None => (BWP_VERIFY_MISSING, None)
  | Some (off, v) =>
      match bwp_get_u32 (m_body m) BWP_T_COUNTER with
      | None => (BWP_VERIFY_MISSING, None)
      | Some counter =>
          if bad then (BWP_VERIFY_BAD, Some counter)
          else
            let want := auth_mac key nonce (take (BWP_HDR_LEN + off) (drop BWP_ETH_HDR_LEN frame)) in
            (if ct_memcmp want v =? 0 then BWP_VERIFY_OK else BWP_VERIFY_BAD, Some counter)
      end
  end.

(** ** Messages *)

Definition BCAST : list Z := replicate 6 0xff.
Definition BWP_MODEL : cstr := str "benchpod-wifi-bridge".

Record bwp_hello_t := Hello {
  h_fw_version : cstr; h_hw_rev : cstr; h_state : Z; h_flags : Z; h_bridge_mac : list Z; h_pod_mac : list Z;
  h_nonce : list Z; h_bridge_pub : list Z;
}.
Definition has_flag (flags f : Z) : bool := negb (Z.land flags f =? 0).

Definition put_if (b : bool) (w : bwp_writer_t) (tag : Z) (val : list Z) : bwp_writer_t := if b then bwp_put w tag val else w.

Definition bwp_build_hello (cap : nat) (dst : option (list Z)) (h : bwp_hello_t) : option (list Z) :=
  let w := bwp_begin cap (match dst with Some d => d | None => BCAST end) (h_bridge_mac h) BWP_HELLO 0 in
  let w := bwp_put_str w BWP_T_MODEL BWP_MODEL in
  let w := bwp_put_str w BWP_T_FW_VERSION (h_fw_version h) in
  let w := bwp_put_str w BWP_T_HW_REV (h_hw_rev h) in
  let w := bwp_put_u8 w BWP_T_STATE (h_state h) in
  let w := bwp_put_u8 w BWP_T_FLAGS (h_flags h) in
  let w := bwp_put w BWP_T_BRIDGE_MAC (h_bridge_mac h) in
  let w := put_if (has_flag (h_flags h) BWP_F_POD_KNOWN) w BWP_T_POD_MAC (h_pod_mac h) in
  let w := bwp_put w BWP_T_NONCE (h_nonce h) in
  let w := put_if (has_flag (h_flags h) BWP_F_PAIRED) w BWP_T_PUBKEY (h_bridge_pub h) in
  bwp_finish w.

Record bwp_status_t := Status {
  st_state : Z; st_flags : Z; st_ssid : cstr; st_channel : Z; st_rssi : Z; st_bssid : list Z; st_reason : Z;
  st_uptime_s : Z; st_pod_mac : list Z; st_counters : list Z;   (* the seven of bwp_counters_t *)
}.

Definition bwp_build_status (cap : nat) (dst src : list Z) (seq : Z) (s : bwp_status_t) : option (list Z) :=
  let w := bwp_begin cap dst src (Z.lor BWP_STATUS BWP_RESPONSE) seq in
  let w := bwp_put_u8 w BWP_T_RESULT BWP_OK in
  let w := bwp_put_u8 w BWP_T_STATE (st_state s) in
  let w := bwp_put_u8 w BWP_T_FLAGS (st_flags s) in
  let w := put_if (negb (deref (st_ssid s) =? 0)) w BWP_T_SSID (st_ssid s) in
  let up := st_state s =? BWP_ST_CONNECTED in
  let w := put_if up w BWP_T_CHANNEL [st_channel s] in
  let w := put_if up w BWP_T_RSSI [u8 (st_rssi s)] in
  let w := put_if up w BWP_T_BSSID (st_bssid s) in
  let w := put_if (negb (st_reason s =? 0)) w BWP_T_REASON [st_reason s] in
  let w := bwp_put_u32 w BWP_T_UPTIME (st_uptime_s s) in
  let w := put_if (has_flag (st_flags s) BWP_F_POD_KNOWN) w BWP_T_POD_MAC (st_pod_mac s) in
  let w := bwp_put w BWP_T_COUNTERS (concat (map put_be32 (st_counters s))) in
  bwp_finish w.

Record bwp_ap_t := Ap { ap_ssid : cstr; ap_rssi : Z; ap_channel : Z; ap_authmode : Z; ap_bssid : list Z }.

Definition put_ap (w : bwp_writer_t) (a : bwp_ap_t) : bwp_writer_t :=
  let w := bwp_nest_begin w BWP_T_AP in
  let w := bwp_put_str w BWP_T_SSID (ap_ssid a) in
  let w := bwp_put_u8 w BWP_T_RSSI (u8 (ap_rssi a)) in
  let w := bwp_put_u8 w BWP_T_CHANNEL (ap_channel a) in
  let w := bwp_put_u8 w BWP_T_AUTHMODE (ap_authmode a) in
  let w := bwp_put w BWP_T_BSSID (ap_bssid a) in
  bwp_nest_end w.

Definition bwp_build_scan_result (cap : nat) (dst src : list Z) (seq result : Z) (aps : list bwp_ap_t) : option (list Z) :=
  let w := bwp_begin cap dst src (Z.lor BWP_SCAN BWP_RESPONSE) seq in
  let w := bwp_put_u8 w BWP_T_RESULT result in
  bwp_finish (fold_left put_ap (take BWP_SCAN_MAX_APS aps) w).

Definition bwp_build_result (cap : nat) (dst src : list Z) (type seq result : Z) (msg : option cstr) : option (list Z) :=
  let w := bwp_begin cap dst src (Z.lor type BWP_RESPONSE) seq in
  let w := bwp_put_u8 w BWP_T_RESULT result in
  let w := match msg with Some (c :: m) => bwp_put_str w BWP_T_MESSAGE (c :: m) | _ => w end in
  bwp_finish w.

(** ** Pairing key and sealed passphrase *)

Abbreviation BWP_SEAL_NONCE_LEN := 24%nat.
Abbreviation BWP_PASS_BLOCK := 65%nat.
Abbreviation BWP_SEALED_PASS_LEN := 89%nat.

Class MonocypherBox := {
  crypto_x25519_public_key : list Z -> list Z;
  crypto_x25519 : list Z -> list Z -> list Z;
  crypto_blake2b_keyed : list Z -> list Z -> list Z;                  (* key, message: 32 bytes *)
  crypto_chacha20_x : list Z -> list Z -> list Z -> list Z;            (* text, key, nonce *)
}.

Definition PAIR_LABEL : list Z := str "BWP pairing v1".
Definition PASS_LABEL : list Z := str "BWP passphrase v1".

Section crypto.
Context `{MonocypherBox}.

Definition bwp_x25519_public (secret : list Z) : list Z := crypto_x25519_public_key secret.

Definition bwp_pair_key (my_secret peer_pub pod_pub bridge_pub : list Z) : option (list Z) :=
  let shared := crypto_x25519 my_secret peer_pub in
  if bool_decide (shared = replicate 32 0) then None
  else Some (crypto_blake2b_keyed shared (PAIR_LABEL ++ pod_pub ++ bridge_pub)).

Definition pass_key (key : list Z) : list Z := crypto_blake2b_keyed key PASS_LABEL.

Definition bwp_seal_passphrase (key nonce : list Z) (pass : cstr) : option (list Z) :=
  let n := length pass in
  if (BWP_PASS_BLOCK - 1 <? n)%nat then None
  else
    let block := (Z.of_nat n :: pass) ++ replicate (BWP_PASS_BLOCK - 1 - n) 0 in
    Some (nonce ++ crypto_chacha20_x block (pass_key key) nonce).

(** The passphrase; [None] for -1. *)
Definition bwp_open_passphrase (key sealed : list Z) : option (list Z) :=
  if negb (length sealed =? BWP_SEALED_PASS_LEN)%nat then None
  else
    let block := crypto_chacha20_x (drop BWP_SEAL_NONCE_LEN sealed) (pass_key key) (take BWP_SEAL_NONCE_LEN sealed) in
    let n := nth 0 block 0 in
    if Z.of_nat BWP_PASS_BLOCK - 1 <? n then None else Some (sub 1 (Z.to_nat n) block).

Definition bwp_ssid_valid (ssid : list Z) : bool := (1 <=? length ssid)%nat && (length ssid <=? 32)%nat.

Definition is_hex (c : Z) : bool :=
  ((48 <=? c) && (c <=? 57)) || ((97 <=? c) && (c <=? 102)) || ((65 <=? c) && (c <=? 70)).

Definition bwp_passphrase_valid (pass : list Z) : bool :=
  let len := length pass in
  if (len =? 0)%nat then true
  else if (len =? 64)%nat then forallb is_hex pass
  else if (len <? 8)%nat || (63 <? len)%nat then false
  else forallb (fun c => negb ((c <? 0x20) || (0x7e <? c))) pass.

(** The SSID and the passphrase (empty: an open network), or BAD_REQUEST. *)
Definition bwp_parse_set_wifi (m : bwp_msg_t) (key : option (list Z)) : option (list Z * list Z) :=
  match bwp_find (m_body m) BWP_T_SSID with
  | None => None
  | Some v =>
      if negb (bwp_ssid_valid v) then None
      else
        match bwp_find (m_body m) BWP_T_PASSPHRASE with
        | Some _ => None
        | None =>
            match bwp_find (m_body m) BWP_T_ENC_PASSPHRASE with
            | None => Some (v, [])
            | Some e =>
                match key with
                | None => None
                | Some k =>
                    match bwp_open_passphrase k e with
                    | None => None
                    | Some pass => if bwp_passphrase_valid pass then Some (v, pass) else None
                    end
                end
            end
        end
  end.

End crypto.
