(* ===== verification/BwpTheorems.v ===== *)
(** * What the control protocol's frames guarantee *)

From S2P Require Import Prelude HmacSha Bwp.

(** ** The wire format *)

Definition enc_tlv (tv : Z * list Z) : list Z := fst tv :: put_be16 (Z.of_nat (length (snd tv))) ++ snd tv.
Definition enc (tlvs : list (Z * list Z)) : list Z := concat (map enc_tlv tlvs).

Definition hdr (dst src : list Z) (type seq len : Z) : list Z :=
  dst ++ src ++ put_be16 BWP_ETHERTYPE ++ [BWP_MAGIC0; BWP_MAGIC1; BWP_VERSION; type] ++ put_be16 seq ++ put_be16 len.

(** All TLVs a reader goes through. *)
Fixpoint read_loop (fuel : nat) (p : list Z) : list (Z * list Z) :=
  match fuel with
  | O => []
  | S fuel' => match bwp_iter_next p with None => [] | Some (t, v, rest) => (t, v) :: read_loop fuel' rest end
  end.
Definition read_all (body : list Z) : list (Z * list Z) := read_loop (length body) body.

Definition tlv_ok (tv : Z * list Z) : Prop := Z.of_nat (length (snd tv)) <= 0xFFFF.

Lemma get_put_be16 v r : 0 <= v < 65536 -> get_be16 (put_be16 v ++ r) = v.
Proof.
  intros Hv. unfold get_be16, put_be16. cbn [app nth]. rewrite Z.shiftr_div_pow2, lor_shiftl_add by (unfold u8; lia || (split; [apply Z.mod_pos_bound|apply Z.mod_pos_bound]; lia)).
  unfold u8. change (2 ^ 8) with 256. rewrite (Z.mod_small (v / 256)) by (Z.div_mod_to_equations; lia).
  Z.div_mod_to_equations; lia.
Qed.

Lemma get_put_be32 v : 0 <= v < 4294967296 -> get_be32 (put_be32 v) = v.
Proof.
  intros Hv. unfold get_be32, put_be32. cbn [nth]. rewrite <- !Z.lor_assoc.
  assert (Hb : forall z, 0 <= u8 z < 256) by (intros; apply u8_range).
  rewrite (lor_shiftl_add 8 _ (u8 v)) by (lia || apply Hb).
  rewrite (lor_shiftl_add 16) by (pose proof (Hb v); pose proof (Hb (Z.shiftr v 8)); lia).
  rewrite (lor_shiftl_add 24) by (pose proof (Hb v); pose proof (Hb (Z.shiftr v 8)); pose proof (Hb (Z.shiftr v 16)); lia).
  rewrite !Z.shiftr_div_pow2 by lia. unfold u8. change (2 ^ 8) with 256. change (2 ^ 16) with 65536. change (2 ^ 24) with 16777216.
  Z.div_mod_to_equations; lia.
Qed.

Lemma enc_tlv_length tv : length (enc_tlv tv) = (3 + length (snd tv))%nat.
Proof. unfold enc_tlv. cbn [length]. rewrite length_app. done. Qed.

Lemma iter_next_enc tv rest : tlv_ok tv -> bwp_iter_next (enc_tlv tv ++ rest) = Some (fst tv, snd tv, rest).
Proof.
  destruct tv as [t v]. unfold tlv_ok. cbn [fst snd]. intros Hv. unfold bwp_iter_next, enc_tlv. cbn [fst snd].
  rewrite <- app_comm_cons, <- app_assoc. cbn [drop]. rewrite drop_0, get_put_be16 by lia.
  cbn [length put_be16 app]. rewrite length_app.
  destruct (Nat.ltb_spec (S (S (S (length v + length rest)))) 3); [lia|].
  destruct (Z.ltb_spec (Z.of_nat (S (S (S (length v + length rest)))) - 3) (Z.of_nat (length v))); [lia|].
  rewrite Nat2Z.id. unfold sub. cbn [nth drop Nat.add]. rewrite drop_0, take_app_length, drop_app_length. done.
Qed.

Lemma iter_next_some p t v rest :
  bwp_iter_next p = Some (t, v, rest) ->
  (forall x, In x p -> 0 <= x < 256) -> p = enc_tlv (t, v) ++ rest /\ tlv_ok (t, v).
Proof.
  unfold bwp_iter_next. destruct (Nat.ltb_spec (length p) 3) as [|Hl]; [done|].
  destruct (Z.ltb_spec (Z.of_nat (length p) - 3) (get_be16 (drop 1 p))) as [|Hv]; [done|]. intros E Hb.
  apply (inj Some) in E. apply pair_equal_spec in E as [E <-]. apply pair_equal_spec in E as [<- <-].
  destruct p as [|t [|hi [|lo p]]]; cbn [length] in Hl; try lia.
  assert (0 <= hi < 256) by (apply Hb; cbn; auto). assert (0 <= lo < 256) by (apply Hb; cbn; auto).
  assert (Eg : get_be16 (drop 1 (t :: hi :: lo :: p)) = hi * 256 + lo).
  { unfold get_be16. cbn [drop nth]. by rewrite lor_shiftl_add by lia. }
  rewrite Eg in *. cbn [length] in Hv. set (n := Z.to_nat (hi * 256 + lo)).
  assert (Hs : length (take n p) = n) by (rewrite length_take; lia).
  unfold tlv_ok, enc_tlv, sub. cbn [fst snd]. change (drop 3 (t :: hi :: lo :: p)) with p. rewrite Hs.
  split; [|lia]. unfold put_be16. rewrite Z.shiftr_div_pow2 by lia. change (2 ^ 8) with 256. unfold u8.
  replace (Z.of_nat n) with (hi * 256 + lo) by lia.
  replace ((hi * 256 + lo) / 256) with hi by (Z.div_mod_to_equations; lia). rewrite (Z.mod_small hi) by lia.
  replace ((hi * 256 + lo) mod 256) with lo by (Z.div_mod_to_equations; lia).
  cbn [app Nat.add nth]. change (drop (S (S (S n))) (t :: hi :: lo :: p)) with (drop n p). by rewrite take_drop.
Qed.

Lemma enc_cons tv tlvs : enc (tv :: tlvs) = enc_tlv tv ++ enc tlvs.
Proof. done. Qed.

Lemma enc_app l1 l2 : enc (l1 ++ l2) = enc l1 ++ enc l2.
Proof. unfold enc. by rewrite map_app, concat_app. Qed.

Lemma enc_one tv : enc [tv] = enc_tlv tv.
Proof. apply app_nil_r. Qed.

Lemma read_loop_enc fuel tlvs : Forall tlv_ok tlvs -> (length (enc tlvs) <= fuel)%nat -> read_loop fuel (enc tlvs) = tlvs.
Proof.
  intros Hok. revert fuel. induction Hok as [|tv tlvs Htv _ IH]; intros fuel Hf; [by destruct fuel|].
  rewrite enc_cons, length_app, enc_tlv_length in Hf. destruct fuel as [|fuel]; [lia|].
  cbn [read_loop]. rewrite enc_cons, iter_next_enc by done. rewrite IH by lia. by destruct tv.
Qed.

Lemma tlv_valid_enc fuel tlvs : Forall tlv_ok tlvs -> (length (enc tlvs) <= fuel)%nat -> tlv_valid_loop fuel (enc tlvs) = true.
Proof.
  intros Hok. revert fuel. induction Hok as [|tv tlvs Htv _ IH]; intros fuel Hf; [by destruct fuel|].
  pose proof (iter_next_enc tv (enc tlvs) Htv) as Hn. rewrite enc_cons, length_app, enc_tlv_length in Hf.
  destruct fuel as [|fuel]; [lia|]. cbn [tlv_valid_loop]. rewrite enc_cons. unfold bwp_iter_next in Hn.
  destruct (length (enc_tlv tv ++ enc tlvs) <? 3)%nat; [done|].
  destruct (_ <? get_be16 _); [done|]. apply (inj Some) in Hn. apply pair_equal_spec in Hn as [_ ->].
  rewrite IH by lia. by destruct (enc_tlv tv ++ enc tlvs).
Qed.

(** ** Writing *)

Definition puts (w : bwp_writer_t) (tlvs : list (Z * list Z)) : bwp_writer_t :=
  fold_left (fun w tv => bwp_put w (fst tv) (snd tv)) tlvs w.

Lemma puts_overflow w tlvs : w_overflow w = true -> w_overflow (puts w tlvs) = true.
Proof.
  revert w. induction tlvs as [|tv tlvs IH]; intros w E; [done|]. cbn. apply IH. unfold bwp_put, reserve. rewrite E.
  by destruct (_ <? _).
Qed.

Lemma put_spec w t v :
  w_overflow w = false ->
  let w' := bwp_put w t v in
  w_cap w' = w_cap w /\ w_nest_at w' = w_nest_at w /\
  if bool_decide (tlv_ok (t, v) /\ (w_len w + length (enc_tlv (t, v)) <= w_cap w)%nat)
  then w_overflow w' = false /\ w_buf w' = w_buf w ++ enc_tlv (t, v) else w_overflow w' = true.
Proof.
  intros E. unfold bwp_put, tlv_ok. cbn [snd].
  destruct (Z.ltb_spec 65535 (Z.of_nat (length v))).
  { rewrite bool_decide_eq_false_2 by lia. done. }
  change (t :: put_be16 (Z.of_nat (length v)) ++ v) with (enc_tlv (t, v)). unfold reserve. rewrite E. cbn [orb].
  destruct (Nat.ltb_spec (w_cap w) (w_len w + length (enc_tlv (t, v)))).
  - rewrite bool_decide_eq_false_2 by lia. done.
  - rewrite bool_decide_eq_true_2 by lia. done.
Qed.

Lemma puts_spec w tlvs :
  w_overflow w = false ->
  let w' := puts w tlvs in
  w_cap w' = w_cap w /\ w_nest_at w' = w_nest_at w /\
  (w_overflow w' = false <-> Forall tlv_ok tlvs /\ (w_len w + length (enc tlvs) <= w_cap w \/ tlvs = [])%nat) /\
  (w_overflow w' = false -> w_buf w' = w_buf w ++ enc tlvs).
Proof.
  revert w. induction tlvs as [|[t v] tlvs IH]; intros w E.
  { cbn. rewrite app_nil_r. do 2 (split; [done|]). split; [|done].
    split; [intros _; split; [constructor|by right]|done]. }
  pose proof (put_spec w t v E) as (Hc & Hn & Hp). cbn [puts fold_left fst snd]. fold (puts (bwp_put w t v) tlvs).
  rewrite enc_cons, length_app, Forall_cons.
  case_bool_decide as Hd.
  - destruct Hp as [Ho Hb]. destruct (IH _ Ho) as (H1 & H2 & H3 & H4). rewrite H1, H2, Hc, Hn. do 2 (split; [done|]). split.
    + rewrite H3. unfold w_len in *. rewrite Hb, length_app. rewrite Hc. split.
      * intros [Hf [Hl| ->]]; (split; [split; [tauto|done]|left]); change (length (enc [])) with 0%nat; lia.
      * intros [[_ Hf] [Hl|]]; [|done]. split; [done|]. destruct tlvs; [by right|left; lia].
    + intros Hw. by rewrite H4, Hb, <- app_assoc.
  - pose proof (puts_overflow _ tlvs Hp) as Hov. rewrite Hov.
    assert (Hcap : forall w, w_cap (puts w tlvs) = w_cap w /\ w_nest_at (puts w tlvs) = w_nest_at w).
    { clear. induction tlvs as [|tv tlvs IH]; intros w; [done|]. cbn. fold (puts (bwp_put w (fst tv) (snd tv)) tlvs).
      destruct (IH (bwp_put w (fst tv) (snd tv))) as [-> ->]. unfold bwp_put, reserve, overflowed.
      destruct (_ <? _); [done|]. by destruct (_ || _). }
    destruct (Hcap (bwp_put w t v)) as [-> ->]. rewrite Hc, Hn. do 2 (split; [done|]). split; [|done]. split; [done|].
    intros [[Ht _] [Hl|]]; [|done]. exfalso. apply Hd. split; [done|lia].
Qed.

Lemma hdr_length dst src type seq len : length dst = 6%nat -> length src = 6%nat -> length (hdr dst src type seq len) = 22%nat.
Proof. intros Hd Hs. unfold hdr. rewrite !length_app, Hd, Hs. done. Qed.

(** Two MAC addresses as their six bytes. *)
Ltac six l := destruct l as [|? [|? [|? [|? [|? [|? [|]]]]]]]; try done.

Lemma patch_hdr dst src type seq len body n :
  length dst = 6%nat -> length src = 6%nat ->
  patch_len (hdr dst src type seq len ++ body) n = hdr dst src type seq (Z.of_nat (n - 14 - 8)) ++ body.
Proof. intros Hd Hs. six dst; six src. Qed.

Lemma begin_spec cap dst src type seq :
  length dst = 6%nat -> length src = 6%nat ->
  let w := bwp_begin cap dst src type seq in
  w_cap w = Nat.min cap 1514 /\ w_nest_at w = 0%nat /\
  if (22 <=? Nat.min cap 1514)%nat then w_overflow w = false /\ w_buf w = hdr dst src type seq 0 else w_overflow w = true.
Proof.
  intros Hd Hs. unfold bwp_begin. fold (hdr dst src type seq 0).
  assert (Hcl : clamp_cap cap = Nat.min cap 1514) by (unfold clamp_cap; destruct (Nat.ltb_spec 1514 cap); lia).
  unfold reserve. cbn [w_overflow w_cap w_buf w_len orb w_nest_at]. unfold w_len. cbn [w_buf length Nat.add].
  rewrite hdr_length, Hcl by done.
  destruct (Nat.ltb_spec (Nat.min cap 1514) 22), (Nat.leb_spec 22 (Nat.min cap 1514)); try lia; done.
Qed.

(** A writer at a TLV boundary of a frame. *)
Definition writing (w : bwp_writer_t) (cap : nat) (dst src : list Z) (type seq len : Z) (body : list Z) : Prop :=
  w_overflow w = false /\ w_cap w = Nat.min cap 1514 /\ w_buf w = hdr dst src type seq len ++ body /\
  (22 + length body <= Nat.min cap 1514)%nat.

Lemma finish_writing w cap dst src type seq len body :
  length dst = 6%nat -> length src = 6%nat -> writing w cap dst src type seq len body ->
  bwp_finish w =
    if (cap <? 60)%nat then None
    else Some (hdr dst src type seq (Z.of_nat (length body)) ++ body ++ replicate (38 - length body) 0).
Proof.
  intros Hd Hs (Ho & Hc & Hb & Hl). unfold bwp_finish, w_len. rewrite Ho, Hb, patch_hdr, length_app, hdr_length by done.
  replace (22 + length body - 14 - 8)%nat with (length body) by lia. rewrite Hc.
  destruct (Nat.ltb_spec (22 + length body) 60) as [Hlt|Hge].
  - destruct (Nat.ltb_spec (Nat.min cap 1514) 60), (Nat.ltb_spec cap 60); try lia; [done|].
    rewrite <- app_assoc. do 3 f_equal.
  - destruct (Nat.ltb_spec cap 60); [lia|]. replace (38 - length body)%nat with 0%nat by lia. by rewrite app_nil_r.
Qed.

(** ** Reading a frame back *)

Lemma parse_frame dst src type seq tlvs fill :
  length dst = 6%nat -> length src = 6%nat -> 0 <= seq < 65536 -> Forall tlv_ok tlvs ->
  Z.of_nat (length (enc tlvs)) < 65536 ->
  bwp_parse (hdr dst src type seq (Z.of_nat (length (enc tlvs))) ++ enc tlvs ++ fill) =
    (BWP_PARSE_OK, Some (Msg dst src BWP_VERSION type seq (enc tlvs))).
Proof.
  intros Hd Hs Hq Hok Hl. unfold bwp_parse. rewrite !length_app, hdr_length by done.
  set (body := enc tlvs) in *.
  destruct (Nat.ltb_spec (22 + (length body + length fill)) (14 + 2)); [lia|].
  destruct (Nat.ltb_spec (22 + (length body + length fill)) (14 + 8)); [lia|].
  assert (E20 : drop 20 (hdr dst src type seq (Z.of_nat (length body)) ++ body ++ fill) =
    put_be16 (Z.of_nat (length body)) ++ body ++ fill) by (six dst; six src).
  assert (E18 : drop 18 (hdr dst src type seq (Z.of_nat (length body)) ++ body ++ fill) =
    put_be16 seq ++ put_be16 (Z.of_nat (length body)) ++ body ++ fill) by (six dst; six src).
  rewrite E20, E18, !get_put_be16 by lia.
  assert (E : drop 12 (hdr dst src type seq (Z.of_nat (length body)) ++ body ++ fill) =
    put_be16 BWP_ETHERTYPE ++ drop 14 (hdr dst src type seq (Z.of_nat (length body)) ++ body ++ fill)) by (six dst; six src).
  rewrite E, get_put_be16 by lia. rewrite Z.eqb_refl. cbn [negb orb].
  assert (Eb : drop (14 + 8) (hdr dst src type seq (Z.of_nat (length body)) ++ body ++ fill) = body ++ fill)
    by (six dst; six src).
  rewrite Eb, Nat2Z.id, take_app_length.
  assert (E6 : take 6 (hdr dst src type seq (Z.of_nat (length body)) ++ body ++ fill) = dst /\
    sub 6 6 (hdr dst src type seq (Z.of_nat (length body)) ++ body ++ fill) = src /\
    nth 14 (hdr dst src type seq (Z.of_nat (length body)) ++ body ++ fill) 0 = BWP_MAGIC0 /\
    nth 15 (hdr dst src type seq (Z.of_nat (length body)) ++ body ++ fill) 0 = BWP_MAGIC1 /\
    nth 16 (hdr dst src type seq (Z.of_nat (length body)) ++ body ++ fill) 0 = BWP_VERSION /\
    nth 17 (hdr dst src type seq (Z.of_nat (length body)) ++ body ++ fill) 0 = type) by (six dst; six src).
  destruct E6 as (-> & -> & -> & -> & -> & ->). rewrite !Z.eqb_refl. cbn [negb orb m_version m_body].
  destruct (Z.ltb_spec (Z.of_nat (22 + (length body + length fill)) - Z.of_nat (14 + 8)) (Z.of_nat (length body))); [lia|].
  unfold bwp_tlv_valid, body. by rewrite tlv_valid_enc.
Qed.

Lemma puts_writing cap dst src type seq tlvs :
  length dst = 6%nat -> length src = 6%nat ->
  let w := puts (bwp_begin cap dst src type seq) tlvs in
  if bool_decide (Forall tlv_ok tlvs /\ (22 + length (enc tlvs) <= Nat.min cap 1514)%nat)
  then writing w cap dst src type seq 0 (enc tlvs) else w_overflow w = true.
Proof.
  intros Hd Hs w. pose proof (begin_spec cap dst src type seq Hd Hs) as (Hc & _ & Hb).
  destruct (Nat.leb_spec 22 (Nat.min cap 1514)) as [Hl|Hl].
  - destruct Hb as [Ho Hb]. pose proof (puts_spec _ tlvs Ho) as (H1 & _ & H3 & H4). fold w in H1, H3, H4.
    assert (Hlen : w_len (bwp_begin cap dst src type seq) = 22%nat) by (unfold w_len; rewrite Hb; by apply hdr_length).
    rewrite Hlen, Hc in H3.
    case_bool_decide as Hd'.
    + assert (Ho' : w_overflow w = false) by (apply H3; destruct Hd'; auto). unfold writing. rewrite H4, H1, Hb, Hc by done.
      split_and!; try done. lia.
    + apply not_false_iff_true. intros Hf. apply Hd'. apply H3 in Hf as [Hf [| ->]]; [done|]. split; [done|]. cbn. lia.
  - rewrite bool_decide_eq_false_2 by lia. by apply puts_overflow.
Qed.

(** The control frames round-trip. Any sequence of TLVs written between
    [bwp_begin] and [bwp_finish] gives, when it fits, a frame of at least the
    Ethernet minimum and at most the buffer and 1514 bytes, which [bwp_parse]
    accepts with the same addresses, type and sequence number, and from which
    the iterator reads the same TLVs; and [bwp_finish] fails exactly when a value
    is longer than 65535 bytes or the frame does not fit. *)
Theorem bwp_frame_roundtrip cap dst src type seq tlvs :
  length dst = 6%nat -> length src = 6%nat -> 0 <= seq < 65536 ->
  match bwp_finish (puts (bwp_begin cap dst src type seq) tlvs) with
  | Some frame =>
      bwp_parse frame = (BWP_PARSE_OK, Some (Msg dst src BWP_VERSION type seq (enc tlvs))) /\
      read_all (enc tlvs) = tlvs /\ (60 <= length frame <= Nat.min cap 1514)%nat
  | None => ~ (Forall tlv_ok tlvs /\ (22 + length (enc tlvs) <= Nat.min cap 1514)%nat /\ (60 <= cap)%nat)
  end.
Proof.
  intros Hd Hs Hq. pose proof (puts_writing cap dst src type seq tlvs Hd Hs) as Hw. cbv zeta in Hw.
  case_bool_decide as Hb.
  - rewrite (finish_writing _ _ _ _ _ _ _ _ Hd Hs Hw). destruct Hb as [Hok Hl].
    destruct (Nat.ltb_spec cap 60); [lia|]. rewrite parse_frame by (done || lia). split; [done|]. split.
    + by apply read_loop_enc.
    + rewrite !length_app, hdr_length, length_replicate by done. lia.
  - unfold bwp_finish. rewrite Hw. tauto.
Qed.

(** ** Signed frames *)

Definition no_tag (tag : Z) (tlvs : list (Z * list Z)) : Prop := Forall (fun tv => fst tv <> tag) tlvs.

Lemma auth_mac_spec key nonce from : auth_mac key nonce from = take 16 (hmac_spec key (nonce ++ from)).
Proof.
  unfold auth_mac. pose proof (hmac_of key [nonce; from]) as Hh. cbn [fold_left concat] in Hh.
  by rewrite Hh, app_nil_r.
Qed.

Lemma auth_mac_length key nonce from : length (auth_mac key nonce from) = 16%nat.
Proof. rewrite auth_mac_spec, length_take. unfold hmac_spec. cbv zeta. by rewrite sha256_spec_length. Qed.

#[local] Opaque auth_mac.

(** The MAC of a frame with these TLVs before it. *)
Definition frame_mac (key nonce dst src : list Z) (type seq : Z) (tlvs : list (Z * list Z)) : list Z :=
  auth_mac key nonce (drop 14 (hdr dst src type seq (Z.of_nat (length (enc tlvs) + 19)) ++ enc tlvs)).

Definition signed_tlvs (key nonce dst src : list Z) (type seq : Z) (tlvs : list (Z * list Z)) (counter : Z) :=
  let t := tlvs ++ [(BWP_T_COUNTER, put_be32 counter)] in
  t ++ [(BWP_T_AUTH, frame_mac key nonce dst src type seq t)].

Lemma sign_writing w cap dst src type seq len tlvs key nonce counter :
  length dst = 6%nat -> length src = 6%nat -> writing w cap dst src type seq len (enc tlvs) ->
  let w' := bwp_sign w key nonce counter in
  if (22 + length (enc tlvs) + 26 <=? Nat.min cap 1514)%nat
  then exists len', writing w' cap dst src type seq len' (enc (signed_tlvs key nonce dst src type seq tlvs counter))
  else w_overflow w' = true.
Proof.
  intros Hd Hs (Ho & Hc & Hb & Hl). unfold bwp_sign. cbv zeta.
  pose proof (put_spec w BWP_T_COUNTER (put_be32 counter) Ho) as (Hc1 & _ & Hp). unfold bwp_put_u32. cbv zeta in *.
  set (w1 := bwp_put w BWP_T_COUNTER (put_be32 counter)) in *.
  assert (Hwl : w_len w = (22 + length (enc tlvs))%nat) by (unfold w_len; rewrite Hb, length_app, hdr_length by done; done).
  rewrite Hwl, Hc in Hp.
  assert (Hcl : length (enc_tlv (BWP_T_COUNTER, put_be32 counter)) = 7%nat) by (by rewrite enc_tlv_length).
  rewrite Hcl in Hp. case_bool_decide as Hcase.
  2:{ rewrite Hp. cbn [orb]. destruct (Nat.leb_spec (22 + length (enc tlvs) + 26) (Nat.min cap 1514)); [|done].
      exfalso. apply Hcase. split; [unfold tlv_ok; cbn; lia|lia]. }
  destruct Hp as [Ho1 Hb1]. set (t := tlvs ++ [(BWP_T_COUNTER, put_be32 counter)]).
  assert (Et : enc t = enc tlvs ++ enc_tlv (BWP_T_COUNTER, put_be32 counter))
    by (unfold t; by rewrite enc_app, enc_one).
  assert (Hb1' : w_buf w1 = hdr dst src type seq len ++ enc t) by (by rewrite Hb1, Hb, Et, <- app_assoc).
  assert (Htl : length (enc t) = (length (enc tlvs) + 7)%nat) by (by rewrite Et, length_app, Hcl).
  assert (Hl1 : w_len w1 = (22 + length (enc t))%nat) by (unfold w_len; rewrite Hb1', length_app, hdr_length by done; done).
  rewrite Ho1, Hc1, Hc, Hl1, Htl. cbn [orb].
  destruct (Nat.ltb_spec (Nat.min cap 1514) (22 + (length (enc tlvs) + 7) + 3 + 16)),
    (Nat.leb_spec (22 + length (enc tlvs) + 26) (Nat.min cap 1514)); try lia; [done|].
  rewrite Hb1', patch_hdr by done.
  replace (22 + (length (enc tlvs) + 7) + 3 + 16 - 14 - 8)%nat with (length (enc t) + 19)%nat by lia.
  change (auth_mac key nonce (drop 14 (hdr dst src type seq (Z.of_nat (length (enc t) + 19)) ++ enc t)))
    with (frame_mac key nonce dst src type seq t).
  set (w2 := Writer _ _ _ _).
  assert (Ho2 : w_overflow w2 = false) by done.
  pose proof (put_spec w2 BWP_T_AUTH (frame_mac key nonce dst src type seq t) Ho2) as (Hc2 & _ & Hp2). cbv zeta in *.
  assert (Hml : length (frame_mac key nonce dst src type seq t) = 16%nat) by apply auth_mac_length.
  assert (Hal : length (enc_tlv (BWP_T_AUTH, frame_mac key nonce dst src type seq t)) = 19%nat)
    by (rewrite enc_tlv_length; cbn [snd]; by rewrite Hml).
  rewrite Hal in Hp2. assert (Hl2 : w_len w2 = (22 + length (enc t))%nat)
    by (unfold w_len, w2; cbn [w_buf]; rewrite length_app, hdr_length by done; done).
  rewrite bool_decide_eq_true_2 in Hp2 by (unfold tlv_ok, w2; cbn [snd w_cap]; unfold w2 in Hl2; rewrite Hml, Hl2; lia).
  destruct Hp2 as [Ho3 Hb3]. exists (Z.of_nat (length (enc t) + 19)). unfold writing. rewrite Ho3, Hc2, Hb3. unfold w2. cbn [w_cap w_buf].
  unfold signed_tlvs. fold t. rewrite enc_app, enc_one, <- app_assoc.
  split_and!; try done. rewrite length_app, Hal. lia.
Qed.

Lemma verify_loop_enc fuel tlvs v off :
  Forall tlv_ok tlvs -> no_tag BWP_T_AUTH tlvs -> length v = 16%nat -> (length (enc (tlvs ++ [(BWP_T_AUTH, v)])) <= fuel)%nat ->
  verify_loop fuel (enc (tlvs ++ [(BWP_T_AUTH, v)])) off None false = (Some ((off + length (enc tlvs))%nat, v), false).
Proof.
  intros Hok Hno Hv. revert fuel off. induction Hok as [|tv tlvs Htv Hok IH]; intros fuel off Hf.
  - cbn [app] in *. rewrite enc_cons, length_app, enc_tlv_length in Hf. cbn [snd] in Hf. destruct fuel as [|fuel]; [lia|].
    cbn [verify_loop]. rewrite enc_cons, iter_next_enc by (unfold tlv_ok; cbn; lia). cbn [fst snd orb]. rewrite Z.eqb_refl, Hv.
    cbn [negb orb Nat.eqb]. rewrite Nat.add_0_r. destruct fuel; [done|]. by cbn [verify_loop enc map concat].
  - cbn [app] in *. rewrite enc_cons, length_app, enc_tlv_length in Hf. destruct fuel as [|fuel]; [lia|].
    cbn [verify_loop]. rewrite enc_cons, iter_next_enc by done. inversion Hno as [|?? Ht Hno']; subst.
    cbn [orb]. apply Z.eqb_neq in Ht. rewrite Ht. rewrite IH by (done || lia). f_equal. f_equal. f_equal.
    change (enc (tv :: tlvs)) with (enc_tlv tv ++ enc tlvs). rewrite length_app, enc_tlv_length. lia.
Qed.

Lemma find_loop_enc fuel tlvs tag v rest :
  Forall tlv_ok tlvs -> no_tag tag tlvs -> tlv_ok (tag, v) -> (length (enc tlvs) < fuel)%nat ->
  find_loop fuel (enc (tlvs ++ (tag, v) :: rest)) tag = Some v.
Proof.
  intros Hok Hno Hv. revert fuel. induction Hok as [|tv tlvs Htv Hok IH]; intros fuel Hf.
  - destruct fuel as [|fuel]; [lia|]. cbn [app find_loop]. rewrite enc_cons, iter_next_enc by done. cbn [fst snd]. by rewrite Z.eqb_refl.
  - rewrite enc_cons, length_app, enc_tlv_length in Hf. destruct fuel as [|fuel]; [lia|]. cbn [app find_loop].
    rewrite enc_cons, iter_next_enc by done. inversion Hno as [|?? Ht Hno']; subst. apply Z.eqb_neq in Ht. rewrite Ht.
    apply IH; [done|lia].
Qed.

(** A signed frame authenticates. A frame written with any TLVs that are
    neither COUNTER nor AUTH, signed with a key, a nonce and a counter, parses,
    and [bwp_verify] under the same key and nonce accepts it and returns that
    counter. *)
Theorem bwp_sign_verify cap dst src type seq tlvs key nonce counter frame :
  length dst = 6%nat -> length src = 6%nat -> 0 <= seq < 65536 -> 0 <= counter < 4294967296 ->
  no_tag BWP_T_AUTH tlvs -> no_tag BWP_T_COUNTER tlvs ->
  bwp_finish (bwp_sign (puts (bwp_begin cap dst src type seq) tlvs) key nonce counter) = Some frame ->
  let body := enc (signed_tlvs key nonce dst src type seq tlvs counter) in
  let m := Msg dst src BWP_VERSION type seq body in
  bwp_parse frame = (BWP_PARSE_OK, Some m) /\ bwp_verify frame m key nonce = (BWP_VERIFY_OK, Some counter).
Proof.
  intros Hd Hs Hq Hcn Hna Hnc Hf body m. pose proof (puts_writing cap dst src type seq tlvs Hd Hs) as Hw. cbv zeta in Hw.
  case_bool_decide as Hb.
  2:{ exfalso. revert Hf. unfold bwp_sign, bwp_put_u32, bwp_put, reserve. rewrite Hw. cbn [orb]. cbv zeta.
      destruct (_ <? Z.of_nat _); cbn [overflowed w_overflow orb]; done. }
  destruct Hb as [Hok Hl].
  pose proof (sign_writing _ cap dst src type seq 0 tlvs key nonce counter Hd Hs Hw) as Hsg. cbv zeta in Hsg.
  destruct (Nat.leb_spec (22 + length (enc tlvs) + 26) (Nat.min cap 1514)) as [Hfit|].
  2:{ exfalso. revert Hf. unfold bwp_finish. by rewrite Hsg. }
  destruct Hsg as [len' Hsg]. rewrite (finish_writing _ _ _ _ _ _ _ _ Hd Hs Hsg) in Hf. destruct Hsg as (_ & _ & _ & Hbl).
  fold body in Hf, Hbl. destruct (cap <? 60)%nat; [done|]. apply (inj Some) in Hf as <-.
  set (t := tlvs ++ [(BWP_T_COUNTER, put_be32 counter)]) in *. set (mac := frame_mac key nonce dst src type seq t) in *.
  assert (Hml : length mac = 16%nat) by apply auth_mac_length.
  assert (Htok : Forall tlv_ok t) by (apply Forall_app; split; [done|repeat constructor; unfold tlv_ok; cbn; lia]).
  assert (Hbt : body = enc (t ++ [(BWP_T_AUTH, mac)])) by done.
  assert (Hsok : Forall tlv_ok (t ++ [(BWP_T_AUTH, mac)])) by (apply Forall_app; split; [done|repeat constructor; unfold tlv_ok; cbn; lia]).
  split; [rewrite Hbt; apply parse_frame; (done || (rewrite <- Hbt; lia))|].
  unfold bwp_verify. cbn [m_body m].
  assert (Hnt : no_tag BWP_T_AUTH t) by (apply Forall_app; split; [done|by repeat constructor]).
  rewrite Hbt, verify_loop_enc by done.
  assert (Hg : bwp_get_u32 (enc (t ++ [(BWP_T_AUTH, mac)])) BWP_T_COUNTER = Some counter).
  { unfold bwp_get_u32, bwp_find, t. rewrite <- app_assoc. cbn [app].
    rewrite find_loop_enc; [cbn [length]; by rewrite get_put_be32|done|done|unfold tlv_ok; cbn; lia|].
    rewrite enc_app, length_app, enc_cons, length_app, enc_tlv_length. lia. }
  rewrite Hg. rewrite Nat.add_0_l, <- Hbt.
  assert (Hpre : take (8 + length (enc t)) (drop 14 (hdr dst src type seq (Z.of_nat (length body)) ++ body ++ replicate (38 - length body) 0)) =
    drop 14 (hdr dst src type seq (Z.of_nat (length (enc t) + 19)) ++ enc t)).
  { assert (Hbl2 : length body = (length (enc t) + 19)%nat)
      by (rewrite Hbt, enc_app, length_app; f_equal; rewrite enc_one, enc_tlv_length; cbn [snd]; lia).
    rewrite Hbl2. rewrite Hbt at 1. rewrite enc_app.
    rewrite !drop_app_le by (rewrite hdr_length by done; lia). rewrite <- !app_assoc.
    rewrite app_assoc. apply take_app_length'. rewrite length_app, length_drop, hdr_length by done. lia. }
  rewrite Hpre. change (auth_mac key nonce _) with mac.
  by rewrite (proj2 (ct_memcmp_eq mac mac eq_refl) eq_refl).
Qed.

(** ** What an accepted signature covers *)

Lemma verify_loop_bad fuel p off auth : snd (verify_loop fuel p off auth true) = true.
Proof.
  revert p off auth. induction fuel as [|fuel IH]; intros p off auth; [done|]. cbn [verify_loop].
  destruct (bwp_iter_next p) as [[[t v] rest]|]; [|done]. cbn [orb]. by destruct (t =? BWP_T_AUTH).
Qed.

Lemma verify_loop_seen fuel p off a a' :
  (length p <= fuel)%nat -> verify_loop fuel p off (Some a) false = (a', false) -> bwp_iter_next p = None /\ a' = Some a.
Proof.
  destruct fuel as [|fuel]; intros Hp; cbn [verify_loop].
  - intros [= <-]. destruct p; [done|cbn in Hp; lia].
  - destruct (bwp_iter_next p) as [[[t v] rest]|]; [|by intros [= <-]]. cbn [orb]. intros E. exfalso.
    destruct (t =? BWP_T_AUTH); pose proof (f_equal snd E) as E2; by rewrite verify_loop_bad in E2.
Qed.

Lemma bytes_in p : bytes_ok p -> forall x, In x p -> 0 <= x < 256.
Proof. intros Hb x Hx. unfold bytes_ok in Hb. rewrite Forall_forall in Hb. apply Hb. by apply list_elem_of_In. Qed.

Lemma tlv_valid_next fuel p : tlv_valid_loop fuel p = true -> p = [] \/ exists t v rest, bwp_iter_next p = Some (t, v, rest) /\
  exists fuel', fuel = S fuel' /\ tlv_valid_loop fuel' rest = true.
Proof.
  destruct p as [|b p]; [by left|]. right. destruct fuel as [|fuel]; [done|]. revert H. cbn [tlv_valid_loop].
  unfold bwp_iter_next. destruct (length (b :: p) <? 3)%nat; [done|]. cbv zeta. destruct (_ <? get_be16 _); [done|].
  intros Hv. do 3 eexists. split; [done|]. by exists fuel.
Qed.

Lemma verify_loop_sound fuel fuel' p off o v :
  bytes_ok p -> (length p <= fuel)%nat -> tlv_valid_loop fuel' p = true ->
  verify_loop fuel p off None false = (Some (o, v), false) ->
  exists tlvs, p = enc (tlvs ++ [(BWP_T_AUTH, v)]) /\ o = (off + length (enc tlvs))%nat /\ length v = 16%nat /\
    no_tag BWP_T_AUTH tlvs /\ Forall tlv_ok tlvs.
Proof.
  revert fuel' p off. induction fuel as [|fuel IH]; intros fuel' p off Hb Hp Hv; [done|]. cbn [verify_loop].
  destruct (bwp_iter_next p) as [[[t w] rest]|] eqn:En; [|done].
  destruct (iter_next_some _ _ _ _ En (bytes_in p Hb)) as [Ep Ht].
  apply tlv_valid_next in Hv as [->|(t' & v' & r' & En' & f & _ & Hv)]; [done|].
  rewrite En in En'. apply (inj Some) in En'. apply pair_equal_spec in En' as [En' <-].
  assert (Hbr : bytes_ok rest) by (rewrite Ep in Hb; by apply Forall_app in Hb as [_ ?]).
  assert (Hlr : (length rest <= fuel)%nat) by (rewrite Ep, length_app, enc_tlv_length in Hp; lia).
  cbn [orb]. destruct (Z.eqb_spec t BWP_T_AUTH) as [->|Hne].
  - destruct (Nat.eqb_spec (length w) 16) as [Hw|Hw]; cbn [negb orb].
    + intros E. apply verify_loop_seen in E as [Hn Ha]; [|done]. apply (inj Some) in Ha. apply pair_equal_spec in Ha as [-> ->].
      apply tlv_valid_next in Hv as [->|(? & ? & ? & Hn' & _)]; [|congruence].
      exists []. cbn [app]. rewrite enc_one. rewrite app_nil_r in Ep.
      split; [done|]. split; [cbn; lia|]. split; [done|]. split; constructor.
    + intros E. pose proof (f_equal snd E) as E2. by rewrite verify_loop_bad in E2.
  - intros E. apply (IH f) in E as (tlvs & -> & -> & Hl & Hn & Hok); try done.
    exists ((t, w) :: tlvs). cbn [app]. rewrite !enc_cons. split_and!; try done; [|by constructor|by constructor].
    rewrite length_app, enc_tlv_length. cbn [snd]. lia.
Qed.

Lemma parse_ok_frame frame m :
  bwp_parse frame = (BWP_PARSE_OK, Some m) ->
  m_body m = take (Z.to_nat (get_be16 (drop 20 frame))) (drop 22 frame) /\ bwp_tlv_valid (m_body m) = true /\
  (22 + length (m_body m) <= length frame)%nat /\ m_type m = nth 17 frame 0.
Proof.
  unfold bwp_parse. destruct (_ || _); [done|]. destruct (_ || _); [done|].
  destruct (Nat.ltb_spec (length frame) (14 + 8)); [done|]. cbv zeta. cbn [m_version m_body].
  destruct (negb (nth 16 frame 0 =? _)); [done|]. destruct (_ <? get_be16 _); [done|].
  destruct (bwp_tlv_valid _) eqn:Ev; [|done]. cbn [negb]. intros E. apply pair_equal_spec in E as [_ E].
  apply (inj Some) in E as <-. cbn [m_body m_type]. split_and!; try done. rewrite length_take, length_drop. lia.
Qed.

(** C5: what [bwp_verify] accepts. If a parsed frame verifies, its last TLV is
    the only AUTH; it holds exactly the truncated HMAC-SHA256, under the key and
    nonce, of everything from the protocol header up to it (so a changed byte
    there needs a new MAC), and the counter returned is the one in that
    authenticated part's first COUNTER. *)
Theorem bwp_verify_sound frame m key nonce counter :
  bytes_ok frame -> bwp_parse frame = (BWP_PARSE_OK, Some m) ->
  bwp_verify frame m key nonce = (BWP_VERIFY_OK, counter) ->
  exists tlvs mac,
    m_body m = enc (tlvs ++ [(BWP_T_AUTH, mac)]) /\ no_tag BWP_T_AUTH tlvs /\
    counter = bwp_get_u32 (m_body m) BWP_T_COUNTER /\ is_Some counter /\
    mac = take 16 (hmac_spec key (nonce ++ take (8 + length (enc tlvs)) (drop 14 frame))).
Proof.
  intros Hb Hp. destruct (parse_ok_frame frame m Hp) as (Hbody & Hv & _ & _). unfold bwp_verify.
  assert (Hbb : bytes_ok (m_body m)) by (rewrite Hbody; by apply Forall_take, Forall_drop).
  destruct (verify_loop _ _ _ _ _) as [[[o v]|] bad] eqn:El; [|done].
  destruct (bwp_get_u32 (m_body m) BWP_T_COUNTER) as [c|] eqn:Ec; [|done]. destruct bad; [done|].
  destruct (Z.eqb_spec (ct_memcmp (auth_mac key nonce (take (8 + o) (drop 14 frame))) v) 0) as [Em|]; [|done].
  intros E. apply pair_equal_spec in E as [_ <-].
  destruct (verify_loop_sound _ _ _ _ _ _ Hbb ltac:(done) Hv El) as (tlvs & Ebody & -> & Hl & Hn & Hok).
  apply ct_memcmp_eq in Em; [|by rewrite auth_mac_length].
  exists tlvs, v. split_and!; try done. rewrite <- Em, Nat.add_0_l. apply auth_mac_spec.
Qed.

(** ** The same on concrete frames *)

Module ToyFrame.
Definition dst : list Z := [2; 0; 0; 0; 0; 1].
Definition src : list Z := [2; 0; 0; 0; 0; 2].
Definition tlvs : list (Z * list Z) := [(BWP_T_STATE, [3]); (BWP_T_SSID, str "lab")].
Definition key : list Z := replicate 32 7.
Definition nonce : list Z := replicate 8 9.
Definition written : bwp_writer_t := puts (bwp_begin 128 dst src BWP_STATUS 513) tlvs.
Definition signed : list Z := Eval vm_compute in default [] (bwp_finish (bwp_sign written key nonce 5)).
Definition msg : bwp_msg_t := Eval vm_compute in default (Msg [] [] 0 0 0 []) (snd (bwp_parse signed)).

Lemma signed_eq : bwp_finish (bwp_sign written key nonce 5) = Some signed.
Proof. vm_compute. reflexivity. Qed.

Lemma signed_parses : bytes_ok signed /\ bwp_parse signed = (BWP_PARSE_OK, Some msg).
Proof. split; [repeat constructor; discriminate|vm_compute; reflexivity]. Qed.

Lemma signed_verifies : bwp_verify signed msg key nonce = (BWP_VERIFY_OK, Some 5).
Proof. vm_compute. reflexivity. Qed.

(** One flipped bit, and the frame is refused. *)
Example flipped_refused : bwp_verify (<[17%nat := BWP_REBOOT]> signed) msg key nonce = (BWP_VERIFY_BAD, Some 5).
Proof. vm_compute. reflexivity. Qed.
End ToyFrame.

Lemma bwp_frame_roundtrip_witness :
  length ToyFrame.dst = 6%nat /\ length ToyFrame.src = 6%nat /\
  match bwp_finish ToyFrame.written with
  | Some frame =>
      bwp_parse frame = (BWP_PARSE_OK, Some (Msg ToyFrame.dst ToyFrame.src BWP_VERSION BWP_STATUS 513 (enc ToyFrame.tlvs))) /\
      read_all (enc ToyFrame.tlvs) = ToyFrame.tlvs /\ (60 <= length frame <= Nat.min 128 1514)%nat
  | None => ~ (Forall tlv_ok ToyFrame.tlvs /\ (22 + length (enc ToyFrame.tlvs) <= Nat.min 128 1514)%nat /\ (60 <= 128)%nat)
  end.
Proof.
  split; [reflexivity|]. split; [reflexivity|].
  apply (bwp_frame_roundtrip 128 ToyFrame.dst ToyFrame.src BWP_STATUS 513 ToyFrame.tlvs); [reflexivity|reflexivity|lia].
Defined.

Lemma bwp_sign_verify_witness :
  let body := enc (signed_tlvs ToyFrame.key ToyFrame.nonce ToyFrame.dst ToyFrame.src BWP_STATUS 513 ToyFrame.tlvs 5) in
  let m := Msg ToyFrame.dst ToyFrame.src BWP_VERSION BWP_STATUS 513 body in
  bwp_parse ToyFrame.signed = (BWP_PARSE_OK, Some m) /\
  bwp_verify ToyFrame.signed m ToyFrame.key ToyFrame.nonce = (BWP_VERIFY_OK, Some 5).
Proof.
  apply (bwp_sign_verify 128 ToyFrame.dst ToyFrame.src BWP_STATUS 513 ToyFrame.tlvs ToyFrame.key ToyFrame.nonce 5).
  - reflexivity.
  - reflexivity.
  - lia.
  - lia.
  - repeat constructor; discriminate.
  - repeat constructor; discriminate.
  - exact ToyFrame.signed_eq.
Defined.

Lemma bwp_verify_sound_witness :
  exists tlvs mac,
    m_body ToyFrame.msg = enc (tlvs ++ [(BWP_T_AUTH, mac)]) /\ no_tag BWP_T_AUTH tlvs /\
    Some 5 = bwp_get_u32 (m_body ToyFrame.msg) BWP_T_COUNTER /\ is_Some (Some 5) /\
    mac = take 16 (hmac_spec ToyFrame.key (ToyFrame.nonce ++ take (8 + length (enc tlvs)) (drop 14 ToyFrame.signed))).
Proof.
  apply (bwp_verify_sound ToyFrame.signed ToyFrame.msg ToyFrame.key ToyFrame.nonce (Some 5)).
  - exact (proj1 ToyFrame.signed_parses).
  - exact (proj2 ToyFrame.signed_parses).
  - exact ToyFrame.signed_verifies.
Defined.
