(* ===== verification/Pairing.v ===== *)
(** * Which requests the bridge accepts ([pairing.c])

    The bridge trusts the first pod that offers a key; after that a request
    must be signed with the key of the pairing and carry a counter above the
    last one accepted. *)

From S2P Require Import Prelude HmacSha Bwp BwpTheorems.

Record bwp_pairing_t := Pairing { paired : bool; p_key : list Z; p_nonce : list Z; last_counter : Z }.

Inductive pair_verdict_t :=
| PAIR_ACCEPT | PAIR_STORE_KEY | PAIR_NOT_PAIRED | PAIR_ALREADY_PAIRED | PAIR_AUTH_MISSING | PAIR_AUTH_BAD
| PAIR_REPLAY | PAIR_BAD_KEY.
#[export] Instance pair_verdict_eq : EqDecision pair_verdict_t.
Proof. solve_decision. Defined.

Definition pairing_set_key (p : bwp_pairing_t) (key : list Z) : bwp_pairing_t := Pairing true key (p_nonce p) 0.

(** [key] is the stored key, if any. *)
Definition pairing_init (nonce : list Z) (key : option (list Z)) : bwp_pairing_t :=
  let p := Pairing false (replicate BWP_KEY_LEN 0) nonce 0 in
  match key with Some k => pairing_set_key p k | None => p end.

Definition pairing_forget (p : bwp_pairing_t) : bwp_pairing_t :=
  Pairing false (replicate BWP_KEY_LEN 0) (p_nonce p) (last_counter p).

Record pair_check_t := PairCheck { pc_verdict : pair_verdict_t; pc_authed : bool; pc_counter : Z; pc_new_key : option (list Z) }.

(** The end of [pairing_check], once the request may be handled. *)
Definition pair_accept (m : bwp_msg_t) (authed : bool) (counter : Z) : pair_check_t :=
  if m_type m =? BWP_PAIR then
    match bwp_find (m_body m) BWP_T_PUBKEY with
    | None => PairCheck PAIR_BAD_KEY authed counter None
    | Some k =>
        if negb (length k =? 32)%nat then PairCheck PAIR_BAD_KEY authed counter None
        else PairCheck PAIR_STORE_KEY authed counter (Some k)
    end
  else PairCheck PAIR_ACCEPT authed counter None.

Definition pairing_check (p : bwp_pairing_t) (frame : list Z) (m : bwp_msg_t) : bwp_pairing_t * pair_check_t :=
  if paired p then
    let '(v, c) := bwp_verify frame m (p_key p) (p_nonce p) in
    let counter := default 0 c in
    let refused why := (p, PairCheck (if m_type m =? BWP_PAIR then PAIR_ALREADY_PAIRED else why) false counter None) in
    match v with
    | BWP_VERIFY_MISSING => refused PAIR_AUTH_MISSING
    | BWP_VERIFY_BAD => refused PAIR_AUTH_BAD
    | BWP_VERIFY_OK =>
        if counter <=? last_counter p then (p, PairCheck PAIR_REPLAY false counter None)
        else (Pairing (paired p) (p_key p) (p_nonce p) counter, pair_accept m true counter)
    end
  else if negb (m_type m =? BWP_STATUS) && negb (m_type m =? BWP_SCAN) && negb (m_type m =? BWP_PAIR)
  then (p, PairCheck PAIR_NOT_PAIRED false 0 None)
  else (p, pair_accept m false 0).

Definition pairing_result (v : pair_verdict_t) : Z :=
  match v with
  | PAIR_ACCEPT | PAIR_STORE_KEY => BWP_OK
  | PAIR_NOT_PAIRED => BWP_E_NOT_PAIRED
  | PAIR_ALREADY_PAIRED => BWP_E_ALREADY_PAIRED
  | PAIR_BAD_KEY => BWP_E_BAD_REQUEST
  | _ => BWP_E_AUTH
  end.

(** ** What a check says *)

(** The verdicts under which the request is carried out. *)
Definition handled (v : pair_verdict_t) : bool :=
  match v with PAIR_ACCEPT | PAIR_STORE_KEY => true | _ => false end.

Lemma result_ok v : pairing_result v = BWP_OK <-> handled v = true.
Proof. destruct v; split; done. Qed.

Lemma pair_accept_fields m authed counter :
  pc_authed (pair_accept m authed counter) = authed /\ pc_counter (pair_accept m authed counter) = counter.
Proof. unfold pair_accept. destruct (_ =? _); [|done]. destruct (bwp_find _ _); [|done]. by destruct (negb _). Qed.

(** A check never changes the key, the nonce or the pairing; an unpaired bridge
    does not change at all, and a paired one only by raising its counter to
    that of a request whose MAC was right. *)
Lemma check_state p frame m p' r :
  pairing_check p frame m = (p', r) ->
  paired p' = paired p /\ p_key p' = p_key p /\ p_nonce p' = p_nonce p /\
  (pc_authed r = false -> p' = p) /\
  (pc_authed r = true -> paired p = true /\ last_counter p < last_counter p' /\ pc_counter r = last_counter p' /\
     bwp_verify frame m (p_key p) (p_nonce p) = (BWP_VERIFY_OK, Some (last_counter p'))).
Proof.
  unfold pairing_check. destruct (paired p) eqn:Ep.
  - destruct (bwp_verify _ _ _ _) as [v c] eqn:Ev. destruct v; cbv zeta.
    + destruct (Z.leb_spec (default 0 c) (last_counter p)).
      * intros E. apply pair_equal_spec in E as [<- <-]. done.
      * intros E. apply pair_equal_spec in E as [<- <-].
        destruct (pair_accept_fields m true (default 0 c)) as [-> ->]. cbn [paired p_key p_nonce last_counter].
        split_and!; try done. intros _. split_and!; try done.
        destruct c as [c|]; [done|]. exfalso. revert Ev. unfold bwp_verify.
        destruct (verify_loop _ _ _ _ _) as [[[o w]|] bad]; [|done]. destruct (bwp_get_u32 _ _); [|done].
        by destruct bad.
    + intros E. apply pair_equal_spec in E as [<- <-]. done.
    + intros E. apply pair_equal_spec in E as [<- <-]. done.
  - destruct (_ && _).
    + intros E. apply pair_equal_spec in E as [<- <-]. done.
    + intros E. apply pair_equal_spec in E as [<- <-]. by destruct (pair_accept_fields m false 0) as [-> _].
Qed.

(** What is carried out was authenticated, or the bridge has no key yet and the
    request is one an unpaired bridge takes. *)
Lemma check_handled p frame m p' r :
  pairing_check p frame m = (p', r) -> handled (pc_verdict r) = true ->
  pc_authed r = paired p /\
  (paired p = false -> m_type m = BWP_STATUS \/ m_type m = BWP_SCAN \/ m_type m = BWP_PAIR) /\
  (m_type m = BWP_PAIR <-> pc_verdict r = PAIR_STORE_KEY) /\
  (pc_verdict r = PAIR_STORE_KEY -> exists k, pc_new_key r = Some k /\ bwp_find (m_body m) BWP_T_PUBKEY = Some k /\ length k = 32%nat).
Proof.
  assert (Ha : forall a c, handled (pc_verdict (pair_accept m a c)) = true ->
    (m_type m = BWP_PAIR <-> pc_verdict (pair_accept m a c) = PAIR_STORE_KEY) /\
    (pc_verdict (pair_accept m a c) = PAIR_STORE_KEY -> exists k, pc_new_key (pair_accept m a c) = Some k /\
       bwp_find (m_body m) BWP_T_PUBKEY = Some k /\ length k = 32%nat)).
  { intros a c. unfold pair_accept. destruct (Z.eqb_spec (m_type m) BWP_PAIR) as [Et|Et]; [|done].
    destruct (bwp_find _ _) as [k|]; [|done]. destruct (Nat.eqb_spec (length k) 32); [|done]. cbn [negb pc_verdict pc_new_key].
    intros _. split; [done|]. intros _. by exists k. }
  unfold pairing_check. destruct (paired p) eqn:Ep.
  - destruct (bwp_verify _ _ _ _) as [[] c]; cbv zeta.
    + destruct (_ <=? _); intros E; apply pair_equal_spec in E as [_ <-]; [done|]. intros Hh.
      destruct (pair_accept_fields m true (default 0 c)) as [-> _]. by destruct (Ha _ _ Hh).
    + intros E; apply pair_equal_spec in E as [_ <-]. cbn. by destruct (_ =? _).
    + intros E; apply pair_equal_spec in E as [_ <-]. cbn. by destruct (_ =? _).
  - destruct (negb (m_type m =? BWP_STATUS) && _ && _) eqn:Et; intros E; apply pair_equal_spec in E as [_ <-]; [done|].
    intros Hh. destruct (pair_accept_fields m false 0) as [-> _]. destruct (Ha _ _ Hh) as [H1 H2].
    split_and!; try done. intros _.
    destruct (Z.eqb_spec (m_type m) BWP_STATUS), (Z.eqb_spec (m_type m) BWP_SCAN), (Z.eqb_spec (m_type m) BWP_PAIR);
      first [by auto|done].
Qed.
