(* ===== verification/L2fwd.v ===== *)
(** * Layer-2 forwarding of the bridge ([l2fwd.c])

    One MAC, the pod's, crosses the bridge; it is learned from control frames
    only. A frame is the list of its bytes; [ev] is the reported event. *)

From S2P Require Import Prelude Bwp.

Inductive l2_action_t := L2_DROP | L2_FORWARD | L2_CONTROL.
Inductive l2_event_t := L2_EV_NONE | L2_EV_LEARNED | L2_EV_CHANGED.
Inductive l2_why_t :=
| L2_WHY_NONE | L2_WHY_RUNT | L2_WHY_BAD_SRC | L2_WHY_OWN_SRC | L2_WHY_OTHER_MAC | L2_WHY_NOT_FOR_POD | L2_WHY_CONTROL
| L2_WHY_TO_BRIDGE | L2_WHY_NO_POD | L2_WHY_WIFI_DOWN | L2_WHY_REFLECTED.
#[export] Instance l2_action_eq : EqDecision l2_action_t.
Proof. solve_decision. Defined.

Record l2fwd_t := L2fwd { bridge_mac : list Z; pod_mac : list Z; pod_known : bool; relearn : bool; last_why : l2_why_t }.

Definition ZERO : list Z := replicate 6 0.

Definition f_dst (f : list Z) : list Z := take 6 f.
Definition f_src (f : list Z) : list Z := sub 6 6 f.
Definition ethertype (f : list Z) : Z := Z.lor (Z.shiftl (nth 12 f 0) 8) (nth 13 f 0).
Definition l2_is_multicast (mac : list Z) : bool := negb (Z.land (nth 0 mac 0) 1 =? 0).
Definition mac_eq (a b : list Z) : bool := bool_decide (a = b).

Definition with_why (s : l2fwd_t) (why : l2_why_t) : l2fwd_t :=
  L2fwd (bridge_mac s) (pod_mac s) (pod_known s) (relearn s) why.
Definition drop_why (s : l2fwd_t) (why : l2_why_t) : l2fwd_t * l2_action_t := (with_why s why, L2_DROP).

Definition l2fwd_init (bridge_mac : list Z) : l2fwd_t := L2fwd bridge_mac ZERO false false L2_WHY_NONE.
Definition l2fwd_link_down (s : l2fwd_t) : l2fwd_t := L2fwd (bridge_mac s) (pod_mac s) (pod_known s) true (last_why s).

(** The learning step of a control frame from [src]. *)
Definition learn (s : l2fwd_t) (src : list Z) : l2fwd_t * l2_event_t :=
  if negb (pod_known s) || relearn s then
    let changed := pod_known s && negb (mac_eq (pod_mac s) src) in
    let ev := if negb (pod_known s) || changed then (if pod_known s then L2_EV_CHANGED else L2_EV_LEARNED) else L2_EV_NONE in
    (L2fwd (bridge_mac s) src true false (last_why s), ev)
  else (s, L2_EV_NONE).

Definition l2fwd_from_eth (s : l2fwd_t) (f : list Z) (wifi_up : bool) : l2fwd_t * l2_action_t * l2_event_t :=
  let dst := f_dst f in
  let src := f_src f in
  let s := with_why s L2_WHY_NONE in
  if (length f <? 14)%nat then (drop_why s L2_WHY_RUNT, L2_EV_NONE)
  else if l2_is_multicast src || mac_eq src ZERO then (drop_why s L2_WHY_BAD_SRC, L2_EV_NONE)
  else if mac_eq src (bridge_mac s) then (drop_why s L2_WHY_OWN_SRC, L2_EV_NONE)
  else if ethertype f =? BWP_ETHERTYPE then
    if negb (mac_eq dst (bridge_mac s)) && negb (l2_is_multicast dst) then (drop_why s L2_WHY_CONTROL, L2_EV_NONE)
    else
      let '(s, ev) := learn s src in
      if negb (mac_eq src (pod_mac s)) then (drop_why s L2_WHY_OTHER_MAC, ev) else (s, L2_CONTROL, ev)
  else if negb (pod_known s) then (drop_why s L2_WHY_NO_POD, L2_EV_NONE)
  else if negb (mac_eq src (pod_mac s)) then (drop_why s L2_WHY_OTHER_MAC, L2_EV_NONE)
  else if mac_eq dst (bridge_mac s) then (drop_why s L2_WHY_TO_BRIDGE, L2_EV_NONE)
  else if negb wifi_up then (drop_why s L2_WHY_WIFI_DOWN, L2_EV_NONE)
  else (s, L2_FORWARD, L2_EV_NONE).

Definition l2fwd_from_wifi (s : l2fwd_t) (f : list Z) : l2fwd_t * l2_action_t :=
  let dst := f_dst f in
  let src := f_src f in
  let s := with_why s L2_WHY_NONE in
  if (length f <? 14)%nat then drop_why s L2_WHY_RUNT
  else if ethertype f =? BWP_ETHERTYPE then drop_why s L2_WHY_CONTROL
  else if negb (pod_known s) || relearn s then drop_why s L2_WHY_NO_POD
  else if mac_eq src (pod_mac s) then drop_why s L2_WHY_REFLECTED
  else if l2_is_multicast dst || mac_eq dst (pod_mac s) then (s, L2_FORWARD)
  else drop_why s L2_WHY_NOT_FOR_POD.

(** ** Runs: what the bridge sees, in order *)

Inductive l2_input := FromEth (f : list Z) (wifi_up : bool) | FromWifi (f : list Z) | LinkDown.

Definition l2_step (s : l2fwd_t) (i : l2_input) : l2fwd_t * l2_action_t :=
  match i with
  | FromEth f up => fst (l2fwd_from_eth s f up)
  | FromWifi f => l2fwd_from_wifi s f
  | LinkDown => (l2fwd_link_down s, L2_DROP)
  end.

Fixpoint l2_run (s : l2fwd_t) (h : list l2_input) : l2fwd_t :=
  match h with [] => s | i :: h' => l2_run (fst (l2_step s i)) h' end.

(** A control frame the bridge can learn from: on the cable, to the bridge or
    to a group, from a proper address. *)
Definition control_from (bmac src f : list Z) : Prop :=
  (14 <= length f)%nat /\ ethertype f = BWP_ETHERTYPE /\ f_src f = src /\ l2_is_multicast src = false /\ src <> ZERO /\
  src <> bmac /\ (f_dst f = bmac \/ l2_is_multicast (f_dst f) = true).

(** The specification of the learned address: the source of a control frame
    that no later cable unplugging follows without another control frame. [who]
    is the pod, [fresh] whether it spoke since the last link-down. *)
Inductive pod_spec (bmac : list Z) : list l2_input -> option (list Z) -> bool -> Prop :=
| pod_none : pod_spec bmac [] None false
| pod_first h f up src :
    pod_spec bmac h None false -> control_from bmac src f -> pod_spec bmac (h ++ [FromEth f up]) (Some src) true
| pod_again h f up src old :
    pod_spec bmac h (Some old) false -> control_from bmac src f -> pod_spec bmac (h ++ [FromEth f up]) (Some src) true
| pod_down h who fresh : pod_spec bmac h who fresh -> pod_spec bmac (h ++ [LinkDown]) who false
| pod_other h f up who fresh :
    pod_spec bmac h who fresh -> (fresh = true \/ forall src, ~ control_from bmac src f) ->
    pod_spec bmac (h ++ [FromEth f up]) who fresh
| pod_wifi h f who fresh : pod_spec bmac h who fresh -> pod_spec bmac (h ++ [FromWifi f]) who fresh.

Definition pod_state (s : l2fwd_t) (bmac : list Z) (who : option (list Z)) (fresh : bool) : Prop :=
  bridge_mac s = bmac /\ who = (if pod_known s then Some (pod_mac s) else None) /\ fresh = (pod_known s && negb (relearn s)).

Lemma l2_run_app s h js : l2_run s (h ++ js) = l2_run (l2_run s h) js.
Proof. revert s. induction h as [|i h IH]; intros s; [done|]. cbn. apply IH. Qed.

Lemma mac_eq_spec a b : mac_eq a b = true <-> a = b.
Proof. apply bool_decide_eq_true. Qed.

Lemma mac_eq_refl a : mac_eq a a = true.
Proof. by apply mac_eq_spec. Qed.

(** The control frames are those that pass the tests of [l2fwd_from_eth]. *)
Definition control_test (bmac f : list Z) : bool :=
  negb (length f <? 14)%nat && negb (l2_is_multicast (f_src f) || mac_eq (f_src f) ZERO) && negb (mac_eq (f_src f) bmac) &&
  (ethertype f =? BWP_ETHERTYPE) && negb (negb (mac_eq (f_dst f) bmac) && negb (l2_is_multicast (f_dst f))).

Lemma control_test_iff bmac f : control_test bmac f = true <-> control_from bmac (f_src f) f.
Proof.
  unfold control_test, control_from. rewrite !andb_true_iff, !negb_true_iff, orb_false_iff, andb_false_iff, !negb_false_iff,
    mac_eq_spec, Nat.ltb_ge, Z.eqb_eq.
  assert (E : forall a b, mac_eq a b = false <-> a <> b) by (intros; apply bool_decide_eq_false).
  rewrite !E. naive_solver.
Qed.

(** One frame from the cable, in one equation. *)
Lemma from_eth_eq s f up :
  let '(s', act, ev) := l2fwd_from_eth s f up in
  bridge_mac s' = bridge_mac s /\
  (if control_test (bridge_mac s) f then
     pod_known s' = true /\
     (if negb (pod_known s) || relearn s
      then pod_mac s' = f_src f /\ relearn s' = false /\ act = L2_CONTROL
      else pod_mac s' = pod_mac s /\ relearn s' = relearn s /\ act = (if mac_eq (f_src f) (pod_mac s) then L2_CONTROL else L2_DROP))
   else
     pod_known s' = pod_known s /\ pod_mac s' = pod_mac s /\ relearn s' = relearn s /\ ev = L2_EV_NONE /\ act <> L2_CONTROL).
Proof.
  unfold l2fwd_from_eth, control_test. cbv zeta. cbn [bridge_mac with_why].
  destruct (Nat.ltb_spec (length f) 14); [done|]. destruct (_ || mac_eq _ ZERO); [done|].
  destruct (mac_eq (f_src f) (bridge_mac s)); [done|]. cbn [negb andb].
  destruct (Z.eqb_spec (ethertype f) BWP_ETHERTYPE) as [Ee|Ee]; cbn [andb].
  - destruct (negb (mac_eq _ _) && _); [done|]. cbn [negb]. unfold learn. cbn [with_why pod_known relearn pod_mac bridge_mac].
    destruct (pod_known s) eqn:Ek, (relearn s) eqn:Er; cbn [negb orb andb pod_mac]; rewrite ?mac_eq_refl; cbn [negb]; try done.
    cbn [with_why pod_mac]. destruct (mac_eq (f_src f) (pod_mac s)); cbn; rewrite ?Ek, ?Er; done.
  - cbn [pod_known with_why pod_mac]. destruct (pod_known s) eqn:Ek; cbn [negb]; [|cbn; rewrite Ek; done].
    destruct (mac_eq (f_src f) (pod_mac s)); cbn [negb]; [|cbn; rewrite Ek; done].
    destruct (mac_eq (f_dst f) (bridge_mac s)), up; cbn; rewrite Ek; done.
Qed.

Lemma from_wifi_eq s f :
  let '(s', act) := l2fwd_from_wifi s f in
  bridge_mac s' = bridge_mac s /\ pod_known s' = pod_known s /\ pod_mac s' = pod_mac s /\ relearn s' = relearn s /\ act <> L2_CONTROL.
Proof.
  unfold l2fwd_from_wifi, drop_why. cbv zeta. cbn [pod_known relearn pod_mac with_why].
  by repeat (case_match; simplify_eq/=).
Qed.

Lemma eth_forward_iff s f up :
  snd (fst (l2fwd_from_eth s f up)) = L2_FORWARD <->
  (14 <= length f)%nat /\ l2_is_multicast (f_src f) = false /\ f_src f <> ZERO /\ f_src f <> bridge_mac s /\
  ethertype f <> BWP_ETHERTYPE /\ pod_known s = true /\ f_src f = pod_mac s /\ f_dst f <> bridge_mac s /\ up = true.
Proof.
  unfold l2fwd_from_eth, drop_why, mac_eq. cbv zeta. cbn [bridge_mac pod_known pod_mac with_why].
  destruct (Nat.ltb_spec (length f) 14); [split; [done|lia]|].
  destruct (l2_is_multicast (f_src f)); [naive_solver|]. cbn [orb]. case_bool_decide; [naive_solver|].
  case_bool_decide; [naive_solver|]. destruct (Z.eqb_spec (ethertype f) BWP_ETHERTYPE).
  { split; [|naive_solver]. destruct (negb _ && _); [done|]. destruct (learn _ _) as [s' ev]. by case_match. }
  destruct (pod_known s); cbn [negb]; [|naive_solver]. case_bool_decide; cbn [negb]; [|naive_solver].
  case_bool_decide; [naive_solver|]. destruct up; naive_solver.
Qed.

Lemma wifi_forward_iff s f :
  snd (l2fwd_from_wifi s f) = L2_FORWARD <->
  (14 <= length f)%nat /\ ethertype f <> BWP_ETHERTYPE /\ pod_known s = true /\ relearn s = false /\ f_src f <> pod_mac s /\
  (l2_is_multicast (f_dst f) = true \/ f_dst f = pod_mac s).
Proof.
  unfold l2fwd_from_wifi, drop_why, mac_eq. cbv zeta. cbn [pod_known relearn pod_mac with_why].
  destruct (Nat.ltb_spec (length f) 14); [split; [done|lia]|].
  destruct (Z.eqb_spec (ethertype f) BWP_ETHERTYPE); [naive_solver|].
  destruct (pod_known s), (relearn s); cbn [negb orb]; try naive_solver.
  case_bool_decide; [naive_solver|]. destruct (l2_is_multicast (f_dst f)); cbn [orb]; [naive_solver|].
  case_bool_decide; naive_solver.
Qed.

(** ** The run refines the specification *)

Definition pod_ok (bmac : list Z) (s : l2fwd_t) (who : option (list Z)) (fresh : bool) : Prop :=
  pod_state s bmac who fresh /\
  forall m, who = Some m -> l2_is_multicast m = false /\ m <> ZERO /\ m <> bmac.

Lemma pod_eth bmac s who fresh f up :
  pod_ok bmac s who fresh ->
  let s' := fst (fst (l2fwd_from_eth s f up)) in
  if control_test bmac f && negb fresh then pod_ok bmac s' (Some (f_src f)) true else pod_ok bmac s' who fresh.
Proof.
  intros [(Hb & Hw & Hf) Hp]. pose proof (from_eth_eq s f up) as E. destruct (l2fwd_from_eth s f up) as [[s' act] ev].
  cbn [fst]. destruct E as [Eb E]. rewrite Hb in *. destruct (control_test bmac f) eqn:Ec; cbn [andb].
  - destruct E as [Ek E]. apply control_test_iff in Ec as (_ & _ & _ & Hm & Hz & Hbm & _).
    destruct (pod_known s), (relearn s); cbn [negb orb andb] in *; subst who fresh; cbn [negb];
      destruct E as (Em & Er & _); unfold pod_ok, pod_state; rewrite Eb, Ek, Em, Er; cbn [negb andb];
      (split; [done|]); try done; intros ? [= <-]; done.
  - destruct E as (Ek & Em & Er & _). unfold pod_ok, pod_state. by rewrite Eb, Ek, Em, Er.
Qed.

Lemma run_pod_ok bmac h who fresh : pod_spec bmac h who fresh -> pod_ok bmac (l2_run (l2fwd_init bmac) h) who fresh.
Proof.
  assert (Hstep : forall h i, l2_run (l2fwd_init bmac) (h ++ [i]) = fst (l2_step (l2_run (l2fwd_init bmac) h) i))
    by (intros; by rewrite l2_run_app).
  induction 1 as [|h f up src _ IH Hc|h f up src old _ IH Hc|h who fresh _ IH|h f up who fresh _ IH Ho|h f who fresh _ IH];
    rewrite ?Hstep; cbn [l2_step].
  - done.
  - pose proof (pod_eth _ _ _ _ f up IH) as E. cbv zeta in E. destruct Hc as (H1 & H2 & <- & H3).
    by rewrite (proj2 (control_test_iff bmac f)) in E.
  - pose proof (pod_eth _ _ _ _ f up IH) as E. cbv zeta in E. destruct Hc as (H1 & H2 & <- & H3).
    by rewrite (proj2 (control_test_iff bmac f)) in E.
  - destruct IH as [(Hb & Hw & Hf) Hp]. split; [|done]. unfold pod_state. cbn. by rewrite andb_false_r.
  - pose proof (pod_eth _ _ _ _ f up IH) as E. cbv zeta in E. destruct Ho as [-> |Ho]; [by rewrite andb_false_r in E|].
    destruct (control_test bmac f) eqn:Ec; [|done]. by apply control_test_iff, Ho in Ec.
  - pose proof (from_wifi_eq (l2_run (l2fwd_init bmac) h) f) as E. destruct (l2fwd_from_wifi _ f) as [s' act]. cbn [fst].
    destruct E as (Eb & Ek & Em & Er & _). destruct IH as [(Hb & Hw & Hf) Hp]. split; [|done]. unfold pod_state.
    by rewrite Eb, Ek, Em, Er.
Qed.

(** Every run has a pod in the specification's sense. *)
Lemma pod_spec_total bmac h : exists who fresh, pod_spec bmac h who fresh.
Proof.
  induction h as [|i h (who & fresh & IH)] using rev_ind; [by exists None, false; constructor|].
  pose proof (run_pod_ok _ _ _ _ IH) as Hp. destruct i as [f up|f|]; [|by exists who, fresh; constructor|by exists who, false; econstructor].
  destruct fresh; [exists who, true; constructor; auto|].
  destruct (control_test bmac f) eqn:Ec.
  - apply control_test_iff in Ec. exists (Some (f_src f)), true. destruct who; [by eapply pod_again|by eapply pod_first].
  - exists who, false. constructor; [done|]. right. intros src Hc. assert (Hs : f_src f = src) by apply Hc. subst src.
    apply control_test_iff in Hc. congruence.
Qed.

(** C17: the bridge forwards for the pod and for nobody else. After any history of
    frames and link-downs, with the pod as the specification defines it (the
    source of the first control frame since boot or since a link-down, and
    whether it has spoken since the last one): a frame from the cable goes to
    Wi-Fi exactly when it is the pod's, is no control frame, is not for the
    bridge and Wi-Fi is up; a frame from Wi-Fi goes to the cable exactly when
    the pod has spoken since the last link-down, did not send it itself, and it
    is for the pod or a group. *)
Theorem l2_forwards_pod_only bmac h who fresh :
  pod_spec bmac h who fresh ->
  let s := l2_run (l2fwd_init bmac) h in
  (forall f up, snd (l2_step s (FromEth f up)) = L2_FORWARD <->
     (14 <= length f)%nat /\ who = Some (f_src f) /\ ethertype f <> BWP_ETHERTYPE /\ f_dst f <> bmac /\ up = true) /\
  (forall f, snd (l2_step s (FromWifi f)) = L2_FORWARD <->
     exists pod, who = Some pod /\ fresh = true /\ (14 <= length f)%nat /\ f_src f <> pod /\ ethertype f <> BWP_ETHERTYPE /\
       (l2_is_multicast (f_dst f) = true \/ f_dst f = pod)).
Proof.
  intros Hs s. destruct (run_pod_ok _ _ _ _ Hs) as [(Hb & Hw & Hf) Hp]. fold s in Hb, Hw, Hf. cbn [l2_step]. split.
  - intros f up. rewrite eth_forward_iff, Hb. destruct (pod_known s); subst who; [|naive_solver].
    specialize (Hp _ eq_refl). split; [naive_solver congruence|]. intros (H1 & [= E] & H2 & H3 & H4). rewrite <- E. split_and!; naive_solver.
  - intros f. rewrite wifi_forward_iff. destruct (pod_known s), (relearn s); cbn [andb negb] in *; subst who fresh; naive_solver.
Qed.

Lemma l2_forwards_pod_only_witness :
  let bmac := [2; 0; 0; 0; 0; 1] in let pod := [2; 0; 0; 0; 0; 2] in
  let hello := bmac ++ pod ++ [0x88; 0xB5] in
  let data := replicate 6 0xff ++ pod ++ [8; 0] in
  snd (l2_step (l2_run (l2fwd_init bmac) [FromEth hello false; LinkDown; FromEth hello false]) (FromEth data true)) = L2_FORWARD.
Proof.
  assert (Hc : control_from [2; 0; 0; 0; 0; 1] [2; 0; 0; 0; 0; 2] ([2; 0; 0; 0; 0; 1] ++ [2; 0; 0; 0; 0; 2] ++ [0x88; 0xB5]))
    by (unfold control_from; repeat split; (discriminate || (cbn; lia) || (left; reflexivity))).
  assert (H : pod_spec [2; 0; 0; 0; 0; 1] ((([] ++ [FromEth ([2; 0; 0; 0; 0; 1] ++ [2; 0; 0; 0; 0; 2] ++ [0x88; 0xB5]) false]) ++ [LinkDown]) ++
    [FromEth ([2; 0; 0; 0; 0; 1] ++ [2; 0; 0; 0; 0; 2] ++ [0x88; 0xB5]) false]) (Some [2; 0; 0; 0; 0; 2]) true)
    by (eapply pod_again; [|exact Hc]; eapply pod_down; eapply pod_first; [constructor|exact Hc]).
  intros. apply (proj1 (l2_forwards_pod_only _ _ _ _ H) _ true).
  repeat split; (discriminate || (cbn; lia)).
Defined.
