(* ===== verification/BridgeUtil.v ===== *)
(** * Small parts of the bridge ([bridge_util.c], [fwsig.c])

    The console tokenizer, the sequencing of update chunks, the identity of an
    image, HELLO pacing, and the bridge's check of the pod's signed manifest. *)

From S2P Require Import Prelude Bwp FwSign.

(** ** The console line tokenizer

    [tok] is one word: the bytes of the word, the rest of the line, and whether
    a quote is still open at its end. *)

Fixpoint tok (fuel : nat) (r : cstr) (quoted : bool) : cstr * cstr * bool :=
  match fuel with
  | O => ([], r, quoted)
  | S fuel' =>
      match r with
      | [] => ([], [], quoted)
      | c :: r' =>
          if (c =? 92) && negb (deref r' =? 0) then
            let '(w, rest, q) := tok fuel' (tail r') quoted in (deref r' :: w, rest, q)
          else if c =? 34 then tok fuel' r' (negb quoted)
          else if negb quoted && ((c =? 32) || (c =? 9)) then ([], r', quoted)
          else let '(w, rest, q) := tok fuel' r' quoted in (c :: w, rest, q)
      end
  end.

Fixpoint skip_blank (r : cstr) : cstr :=
  match r with c :: r' => if (c =? 32) || (c =? 9) then skip_blank r' else r | [] => [] end.

(** The words, or -1 (an open quote), -2 (too many words). *)
Fixpoint tokenize_loop (fuel : nat) (r : cstr) (argc max_args : nat) : Z + list cstr :=
  match fuel with
  | O => inr []
  | S fuel' =>
      match r with
      | [] => inr []
      | _ =>
          match skip_blank r with
          | [] => inr []
          | r =>
              if (argc =? max_args)%nat then inl (-2)
              else
                let '(w, rest, quoted) := tok (length r) r false in
                if quoted then inl (-1)
                else match tokenize_loop fuel' rest (S argc) max_args with inl e => inl e | inr ws => inr (w :: ws) end
          end
      end
  end.
Definition bu_tokenize (line : cstr) (max_args : nat) : Z + list cstr := tokenize_loop (S (length line)) line 0 max_args.

Example tokenize_quotes : bu_tokenize (str "wifi  'a b") 4 = inr [str "wifi"; str "'a"; str "b"].
Proof. reflexivity. Qed.

(** ** Wi-Fi disconnect reasons *)

Definition bu_state_for_reason (reason : Z) : Z :=
  if existsb (Z.eqb reason) [2; 14; 15; 202; 204] then BWP_ST_AUTH_FAILED
  else if existsb (Z.eqb reason) [201; 210; 211; 212] then BWP_ST_NO_AP
  else BWP_ST_JOINING.

(** ** Chunks of an update *)

Record bu_ota_seq_t := Seq { q_active : bool; q_size : Z; q_next : Z; q_last_off : Z; q_last_len : Z }.

Definition seq_zero : bu_ota_seq_t := Seq false 0 0 0 0.

Inductive bu_ota_chunk_t := BU_OTA_WRITE | BU_OTA_DUPLICATE | BU_OTA_BAD_OFFSET | BU_OTA_TOO_LARGE | BU_OTA_INACTIVE.
#[export] Instance bu_ota_chunk_eq : EqDecision bu_ota_chunk_t.
Proof. solve_decision. Defined.

Definition bu_ota_begin (size : Z) : bu_ota_seq_t := Seq true size 0 0 0.

Definition bu_ota_check (s : bu_ota_seq_t) (offset len : Z) : bu_ota_chunk_t :=
  if negb (q_active s) then BU_OTA_INACTIVE
  else if negb (q_last_len s =? 0) && (offset =? q_last_off s) && (len =? q_last_len s) then BU_OTA_DUPLICATE
  else if negb (offset =? q_next s) then BU_OTA_BAD_OFFSET
  else if u32 (q_size s - q_next s) <? len then BU_OTA_TOO_LARGE
  else BU_OTA_WRITE.

Definition bu_ota_advance (s : bu_ota_seq_t) (offset len : Z) : bu_ota_seq_t :=
  Seq (q_active s) (q_size s) (u32 (offset + len)) offset len.

Definition bu_ota_complete (s : bu_ota_seq_t) : bool := q_active s && (q_next s =? q_size s).

(** What has been written is the image up to [q_next], and it fits. *)
Definition seq_inv (s : bu_ota_seq_t) (written : list Z) : Prop :=
  q_active s = true -> 0 <= q_size s < 4294967296 /\ q_next s = Z.of_nat (length written) /\ q_next s <= q_size s.

Lemma seq_inv_begin size : 0 <= size < 4294967296 -> seq_inv (bu_ota_begin size) [].
Proof. intros Hs _. cbn. lia. Qed.

Lemma seq_inv_write s written offset data :
  seq_inv s written -> bu_ota_check s offset (Z.of_nat (length data)) = BU_OTA_WRITE ->
  offset = q_next s /\ q_active s = true /\ seq_inv (bu_ota_advance s offset (Z.of_nat (length data))) (written ++ data).
Proof.
  unfold seq_inv, bu_ota_check, bu_ota_advance. destruct (q_active s) eqn:Ea; [|done]. cbn [negb q_active q_size q_next].
  intros Hi. destruct (Hi eq_refl) as (Hs & Hn & Hle). destruct (_ && (_ =? q_last_len s)); [done|].
  destruct (Z.eqb_spec offset (q_next s)) as [->|]; [|done]. cbn [negb].
  rewrite (u32_id (q_size s - q_next s)) by lia.
  destruct (Z.ltb_spec (q_size s - q_next s) (Z.of_nat (length data))); [done|]. intros _.
  split; [done|]. split; [done|]. intros _. rewrite u32_id by lia. rewrite length_app. lia.
Qed.

(** ** The identity of an ESP32 application image *)

Abbreviation BU_IMG_DESC_END := 112.
Abbreviation IMG_MAGIC := 0xE9.
Abbreviation APP_DESC_MAGIC := 0xABCD5432.

(** The bytes of a 32-byte string field before its NUL. *)
Fixpoint until_nul (p : list Z) : cstr :=
  match p with [] => [] | c :: p' => if c =? 0 then [] else c :: until_nul p' end.

(** The project and the version, as the C strings they are used as. *)
Definition bu_image_ident (img : list Z) : option (cstr * cstr) :=
  if (Z.of_nat (length img) <? BU_IMG_DESC_END) || negb (nth 0 img 0 =? IMG_MAGIC) then None
  else if negb (rd_le (sub 32 4 img) =? APP_DESC_MAGIC) then None
  else Some (until_nul (sub 80 32 img), until_nul (sub 48 32 img)).

Definition hex2_char (n : Z) : Z := if n <? 10 then 48 + n else 87 + n.
Definition hex2 (b : Z) : cstr := [hex2_char (b / 16); hex2_char (b mod 16)].

Fixpoint mac_str_loop (m : list Z) : cstr :=
  match m with [] => [] | [b] => hex2 b | b :: m' => hex2 b ++ 58 :: mac_str_loop m' end.
Definition bu_mac_str (m : list Z) : cstr := mac_str_loop m.

(** ** HELLO pacing *)

Record bu_hello_timer_t := HelloTimer { t_link : bool; t_next_us : Z }.

Definition bu_hello_due (t : bu_hello_timer_t) (link_up : bool) (now_us interval_us : Z) : bu_hello_timer_t * bool :=
  let came_up := link_up && negb (t_link t) in
  if negb link_up || (negb came_up && (now_us <? t_next_us t)) then (HelloTimer link_up (t_next_us t), false)
  else (HelloTimer link_up (now_us + interval_us), true).

(** ** The pod's signed manifest, as the bridge checks it *)

Abbreviation FWSIG_LEN := 128%nat.
Abbreviation FWSIG_TARGET_BRIDGE := 6.

Inductive fwsig_result_t := FWSIG_OK | FWSIG_FORMAT | FWSIG_UNKNOWN_KEY | FWSIG_SIGNATURE | FWSIG_TARGET | FWSIG_IMAGE.
#[export] Instance fwsig_result_eq : EqDecision fwsig_result_t.
Proof. solve_decision. Defined.

Record fwsig_t := FwSig { g_target : Z; g_size : Z; g_sha256 : list Z; g_version : Z; g_release : Z; g_key_id : list Z }.

Definition CONTEXT : list Z := str "benchpod-fw-sign:v1" ++ [0].

Definition le32 (p : list Z) : Z := rd_le (take 4 p).

Definition fwsig_fields (sig : list Z) : fwsig_t :=
  FwSig (nth 6 sig 0) (le32 (drop 8 sig)) (sub 12 32 sig) (le32 (drop 44 sig)) (le32 (drop 48 sig)) (sub 56 8 sig).

Section fwsig.
Context `{Monocypher}.

(** The loop over the keys keeps the first match. *)
Definition fwsig_key (keys : list (list Z)) (id : list Z) : option (list Z) :=
  List.find (fun k => bool_decide (take 8 (crypto_sha512 k) = id)) keys.

(** The verdict, and the parsed fields once the format is right. *)
Definition fwsig_check (sig : option (list Z)) (keys : list (list Z)) (target size : Z) : fwsig_result_t * option fwsig_t :=
  match sig with
  | None => (FWSIG_FORMAT, None)
  | Some sig =>
      if negb (length sig =? FWSIG_LEN)%nat || negb (bool_decide (take 4 sig = BPSG)) ||
         negb (Z.lor (nth 4 sig 0) (Z.shiftl (nth 5 sig 0) 8) =? 1)
      then (FWSIG_FORMAT, None)
      else
        let m := fwsig_fields sig in
        match fwsig_key keys (g_key_id m) with
        | None => (FWSIG_UNKNOWN_KEY, Some m)
        | Some key =>
            if negb (crypto_ed25519_check (drop 64 sig) key (CONTEXT ++ take 64 sig)) then (FWSIG_SIGNATURE, Some m)
            else if negb (g_target m =? target) then (FWSIG_TARGET, Some m)
            else if negb (g_size m =? size) then (FWSIG_IMAGE, Some m)
            else (FWSIG_OK, Some m)
        end
  end.

End fwsig.

Definition fwsig_result_str (r : fwsig_result_t) : cstr :=
  match r with
  | FWSIG_OK => str "ok" | FWSIG_FORMAT => str "format" | FWSIG_UNKNOWN_KEY => str "unknown-key"
  | FWSIG_SIGNATURE => str "signature" | FWSIG_TARGET => str "target" | FWSIG_IMAGE => str "image"
  end.

(** ** The two checks agree *)

Lemma fmt_16 sig : bytes_ok sig -> (length sig = 128)%nat ->
  (Z.lor (nth 4 sig 0) (Z.shiftl (nth 5 sig 0) 8) =? 1) = (rd16 (drop 4 sig) =? 1).
Proof.
  intros Hb Hl. f_equal. unfold rd16. do 6 (destruct sig as [|? sig]; [done|]). cbn [nth drop take rd_le].
  unfold bytes_ok in Hb. rewrite !Forall_cons in Hb. destruct Hb as (_ & _ & _ & _ & H4 & H5 & _). unfold byte_ok in *.
  rewrite Z.lor_comm, lor_shiftl_add by lia. change (2 ^ 8) with 256. rewrite take_0. cbn [rd_le]. lia.
Qed.

(** Pod and bridge accept the same updates. For the bridge as target, the
    bridge's check of a manifest says OK, with the digest it will compare the
    received image with, exactly when the pod's own check accepts that manifest
    for an image of that size and digest; and a manifest the bridge refuses, the
    pod refuses for every image, with the same word. *)
Theorem fwsig_agrees `{Monocypher} sig keys size :
  bytes_ok sig ->
  (forall sha, (exists m, fwsig_check (Some sig) keys FWSIG_TARGET_BRIDGE size = (FWSIG_OK, Some m) /\ g_sha256 m = sha) <->
     fst (fw_sign_check_keys (Some sig) FWSIG_TARGET_BRIDGE size sha keys) = FW_SIG_OK) /\
  (forall sha, sig <> [] -> fst (fwsig_check (Some sig) keys FWSIG_TARGET_BRIDGE size) <> FWSIG_OK ->
     (nth 6 sig 0 <= 3 \/ nth 6 sig 0 = 6) ->
     fwsig_result_str (fst (fwsig_check (Some sig) keys FWSIG_TARGET_BRIDGE size)) =
     fw_sign_result_name (fst (fw_sign_check_keys (Some sig) FWSIG_TARGET_BRIDGE size sha keys))).
Proof.
  intros Hb. destruct sig as [|b sig']; [split; [|done]; intros; split; [intros (m & E & _); done|done]|].
  set (sig := b :: sig') in *.
  assert (Ef : fwsig_check (Some sig) keys FWSIG_TARGET_BRIDGE size =
    if negb ((length sig =? 128)%nat && bool_decide (take 4 sig = BPSG) && (rd16 (drop 4 sig) =? 1)) then (FWSIG_FORMAT, None)
    else let m := fwsig_fields sig in
         match find_pub keys (g_key_id m) with
         | None => (FWSIG_UNKNOWN_KEY, Some m)
         | Some key =>
             if negb (crypto_ed25519_check (drop 64 sig) key (signed_msg sig)) then (FWSIG_SIGNATURE, Some m)
             else if negb (g_target m =? FWSIG_TARGET_BRIDGE) then (FWSIG_TARGET, Some m)
             else if negb (g_size m =? size) then (FWSIG_IMAGE, Some m) else (FWSIG_OK, Some m)
         end).
  { unfold fwsig_check. destruct (Nat.eqb_spec (length sig) 128) as [Hl|Hl]; [|done]. rewrite (fmt_16 sig Hb Hl).
    cbn [negb orb andb]. by destruct (bool_decide _), (_ =? 1). }
  rewrite Ef. clear Ef.
  change (fw_sign_check_keys (Some sig)) with (fun target size sha256 keys =>
      if negb (manifest_format sig) then (FW_SIG_FORMAT, None) else
      let m := parse_manifest sig in
      match find_pub keys (m_key_id m) with
      | None => (FW_SIG_UNKNOWN_KEY, Some m)
      | Some pub =>
          if negb (crypto_ed25519_check (drop SIGNED_LEN sig) pub (signed_msg sig)) then (FW_SIG_SIGNATURE, Some m)
          else if negb (m_target m =? target) then (FW_SIG_TARGET, Some m)
          else if negb (m_size m =? size) || negb (bool_decide (m_sha256 m = sha256)) then (FW_SIG_IMAGE, Some m)
          else (FW_SIG_OK, Some m)
      end). cbv beta.
  unfold manifest_format. destruct (_ && bool_decide (take 4 sig = BPSG) && _); cbn [andb negb].
  2:{ split; [intros; split; [by intros (m & E & _)|done]|done]. }
  change (byte_at sig 6) with (nth 6 sig 0). cbv zeta. change (m_key_id (parse_manifest sig)) with (g_key_id (fwsig_fields sig)).
  change (m_target (parse_manifest sig)) with (nth 6 sig 0). change (g_target (fwsig_fields sig)) with (nth 6 sig 0).
  change (m_size (parse_manifest sig)) with (g_size (fwsig_fields sig)).
  change (m_sha256 (parse_manifest sig)) with (g_sha256 (fwsig_fields sig)). change (drop SIGNED_LEN sig) with (drop 64 sig).
  destruct (find_pub keys _) as [key|]; cbn [fst].
  2:{ split; [|intros ? _ _ Ht; destruct (Z.leb_spec (nth 6 sig 0) 3), (Z.eqb_spec (nth 6 sig 0) 6); cbn [orb negb]; (done || lia)].
      intros sha. split; [by intros (m & E & _)|]. by destruct (negb _). }
  destruct (crypto_ed25519_check _ _ _); cbn [negb].
  2:{ split; [|intros ? _ _ Ht; destruct (Z.leb_spec (nth 6 sig 0) 3), (Z.eqb_spec (nth 6 sig 0) 6); cbn [orb negb]; (done || lia)].
      intros sha. split; [by intros (m & E & _)|]. by destruct (negb _). }
  destruct (Z.eqb_spec (nth 6 sig 0) FWSIG_TARGET_BRIDGE) as [Et|Et]; cbn [negb].
  - rewrite Et. cbn [Z.leb Z.eqb Pos.eqb orb negb Z.compare Pos.compare Pos.compare_cont].
    destruct (g_size _ =? size); cbn [negb orb fst].
    + split; [|done]. intros sha. split; [intros (m & [= <-] & <-); by rewrite bool_decide_eq_true_2|].
      case_bool_decide as Es; [|done]. intros _. eexists. split; [done|]. done.
    + split; [|done]. intros sha. split; [by intros (m & E & _)|done].
  - split; [|intros ? _ _ Ht; destruct (Z.leb_spec (nth 6 sig 0) 3), (Z.eqb_spec (nth 6 sig 0) 6); cbn [orb negb]; (done || lia)].
    intros sha. split; [by intros (m & E & _)|]. by destruct (negb _).
Qed.

Lemma fwsig_agrees_witness :
  let sig := manifest_head (Manifest 6 0 4096 (replicate 32 170) 1 2 2 1024 (replicate 8 7)) ++ replicate 64 7 in
  fst (@fw_sign_check_keys toy_crypto (Some sig) FWSIG_TARGET_BRIDGE 4096 (replicate 32 170) [replicate 32 7]) = FW_SIG_OK.
Proof.
  assert (Hb : bytes_ok (manifest_head (Manifest 6 0 4096 (replicate 32 170) 1 2 2 1024 (replicate 8 7)) ++ replicate 64 7))
    by (refine (bool_decide_unpack _ _); vm_compute; exact I).
  intros sig.
  apply (proj1 (@fwsig_agrees toy_crypto sig [replicate 32 7] 4096 Hb) (replicate 32 170)).
  eexists. split; vm_compute; reflexivity.
Defined.
