(* ===== verification/BridgeOta.v ===== *)
(** * The bridge's own update ([wifi-bridge/main/ota.c])

    ESP-IDF's OTA calls are the class [EspOta]; [calls] is the trace of those
    made, with what they returned. [now] is [esp_timer_get_time()]. The mutex is
    taken around every operation. *)

From S2P Require Import Prelude HmacSha Bwp FwSign BridgeUtil.

Abbreviation ESP_OK := 0.
Abbreviation BWP_OTA_CHUNK_MAX := 1024.
Abbreviation BWP_E_STORAGE := 4.
Abbreviation BWP_E_OTA_NOT_STARTED := 5.
Abbreviation BWP_E_OTA_BAD_OFFSET := 6.
Abbreviation BWP_E_OTA_VERIFY := 7.
Abbreviation BWP_E_OTA_TOO_LARGE := 8.
Abbreviation BWP_E_INTERNAL := 9.
Abbreviation BWP_E_OTA_WRONG_IMAGE := 10.

Class EspOta (E : Type) := {
  esp_ota_get_next_update_partition : E -> option Z;      (* the partition's size *)
  esp_ota_begin : E -> Z -> E * Z;
  esp_ota_write : E -> list Z -> E * Z;
  esp_ota_abort : E -> E;
  esp_ota_end : E -> E * Z;
  esp_ota_set_boot_partition : E -> E * Z;
  esp_ota_mark_app_valid : E -> E * Z;
  ESP_ERR_OTA_VALIDATE_FAILED : Z;
  esp_err_to_name : Z -> cstr;
  project_name : cstr;                                     (* esp_app_get_description() *)
}.

Inductive esp_call :=
| CallBegin (size err : Z) | CallWrite (data : list Z) (err : Z) | CallAbort | CallEnd (err : Z) | CallSetBoot (err : Z).

Section bridge_ota.
Context {E : Type} `{EspOta E} `{Monocypher} (k_keys : list (list Z)).

Record bota_t := BOta {
  esp : E; calls : list esp_call; s_seq : bu_ota_seq_t; s_last_us : Z; s_sig : fwsig_t; s_hash : sha256_ctx_t; s_pending : bool;
}.

Definition bota_init (e : E) : bota_t := BOta e [] seq_zero 0 (FwSig 0 0 [] 0 0 []) (Ctx [] 0 []) false.

Definition ota_active (st : bota_t) : bool := q_active (s_seq st).

Definition abort_locked (st : bota_t) : bota_t :=
  if q_active (s_seq st)
  then {| st with esp := esp_ota_abort (esp st); calls := calls st ++ [CallAbort]; s_seq := seq_zero |}
  else st.

Definition ota_abort (st : bota_t) : bota_t := abort_locked st.

Definition ota_poll (st : bota_t) (now : Z) : bota_t :=
  if q_active (s_seq st) && (60 * 1000000 <? now - s_last_us st) then abort_locked st else st.

(** The result and the message. *)
Definition ota_begin (st : bota_t) (size : Z) (sig : option (list Z)) (now : Z) : bota_t * Z * option cstr :=
  let st := abort_locked st in
  let part := esp_ota_get_next_update_partition (esp st) in
  let '(v, m) := fwsig_check sig k_keys FWSIG_TARGET_BRIDGE size in
  let st := {| st with s_sig := default (s_sig st) m |} in
  if negb (bool_decide (v = FWSIG_OK)) then
    (st, BWP_E_OTA_VERIFY, Some (snprintf_cut 40 (str "signature: " ++ match sig with Some _ => fwsig_result_str v | None => str "none" end)))
  else
    match part with
    | None => (st, BWP_E_INTERNAL, Some (str "no OTA partition"))
    | Some psize =>
        if (size <? BU_IMG_DESC_END) || (psize <? size) then (st, BWP_E_OTA_TOO_LARGE, Some (str "image size out of range"))
        else
          let '(e, err) := esp_ota_begin (esp st) size in
          let st := {| st with esp := e; calls := calls st ++ [CallBegin size err] |} in
          if negb (err =? ESP_OK) then (st, BWP_E_STORAGE, Some (esp_err_to_name err))
          else ({| st with s_seq := bu_ota_begin size; s_hash := sha256_init; s_last_us := now |}, BWP_OK, None)
    end.

(** The chunk is this firmware's image. *)
Definition is_own_image (data : list Z) : bool :=
  match bu_image_ident data with Some (project, _) => streq project project_name | None => false end.

(** The result, the next offset and the message. *)
Definition ota_data (st : bota_t) (offset : Z) (data : list Z) (now : Z) : bota_t * Z * Z * option cstr :=
  let len := Z.of_nat (length data) in
  if (len =? 0) || (BWP_OTA_CHUNK_MAX <? len) then (st, BWP_E_BAD_REQUEST, q_next (s_seq st), None)
  else
    let '(st, r, msg) :=
      match bu_ota_check (s_seq st) offset len with
      | BU_OTA_INACTIVE => (st, BWP_E_OTA_NOT_STARTED, None)
      | BU_OTA_DUPLICATE => (st, BWP_OK, None)
      | BU_OTA_BAD_OFFSET => (st, BWP_E_OTA_BAD_OFFSET, None)
      | BU_OTA_TOO_LARGE => (st, BWP_E_OTA_TOO_LARGE, None)
      | BU_OTA_WRITE =>
          if (offset =? 0) && negb (is_own_image data) then (st, BWP_E_OTA_WRONG_IMAGE, Some (str "not a benchpod-wifi-bridge image"))
          else
            let '(e, err) := esp_ota_write (esp st) data in
            let st := {| st with esp := e; calls := calls st ++ [CallWrite data err] |} in
            if negb (err =? ESP_OK) then (st, BWP_E_STORAGE, Some (esp_err_to_name err))
            else ({| st with s_hash := sha256_update (s_hash st) data; s_seq := bu_ota_advance (s_seq st) offset len |}, BWP_OK, None)
      end in
    let st := if q_active (s_seq st) then {| st with s_last_us := now |} else st in
    (st, r, q_next (s_seq st), msg).

Definition ota_end (st : bota_t) : bota_t * Z * option cstr :=
  if negb (q_active (s_seq st)) then (st, BWP_E_OTA_NOT_STARTED, None)
  else if negb (bu_ota_complete (s_seq st)) then (st, BWP_E_OTA_BAD_OFFSET, Some (str "image incomplete"))
  else
    let h := sha256_final (s_hash st) in
    let st := {| st with s_seq := seq_zero |} in
    if negb (bool_decide (h = g_sha256 (s_sig st))) then
      ({| st with esp := esp_ota_abort (esp st); calls := calls st ++ [CallAbort] |}, BWP_E_OTA_VERIFY,
       Some (str "image does not match its signed manifest"))
    else
      let '(e, err) := esp_ota_end (esp st) in
      let st := {| st with esp := e; calls := calls st ++ [CallEnd err] |} in
      if err =? ESP_ERR_OTA_VALIDATE_FAILED then (st, BWP_E_OTA_VERIFY, Some (str "image verification failed (hash or signature)"))
      else if negb (err =? ESP_OK) then (st, BWP_E_INTERNAL, Some (esp_err_to_name err))
      else
        let '(e, err) := esp_ota_set_boot_partition (esp st) in
        let st := {| st with esp := e; calls := calls st ++ [CallSetBoot err] |} in
        if negb (err =? ESP_OK) then (st, BWP_E_STORAGE, Some (esp_err_to_name err)) else (st, BWP_OK, None).

(** [ota_confirm]: a valid control request arrived. *)
Definition ota_confirm (st : bota_t) : bota_t :=
  if negb (s_pending st) then st
  else
    let '(e, err) := esp_ota_mark_app_valid (esp st) in
    if err =? ESP_OK then {| st with esp := e; s_pending := false |} else {| st with esp := e |}.

(** ** Every sequence of calls *)

Inductive bota_op :=
| OBegin (size : Z) (sig : option (list Z)) | OData (offset : Z) (data : list Z) | OEnd | OAbort | OPoll | OConfirm.

Definition bota_step (st : bota_t) (o : bota_op * Z) : bota_t :=
  let now := snd o in
  match fst o with
  | OBegin size sig => fst (fst (ota_begin st size sig now))
  | OData offset data => fst (fst (fst (ota_data st offset data now)))
  | OEnd => fst (fst (ota_end st))
  | OAbort => ota_abort st
  | OPoll => ota_poll st now
  | OConfirm => ota_confirm st
  end.

(** The bytes of the writes that succeeded since the last start. *)
Definition flashed_step (w : list Z) (c : esp_call) : list Z :=
  match c with CallBegin _ 0 => [] | CallWrite d 0 => w ++ d | _ => w end.
Definition flashed (cs : list esp_call) : list Z := fold_left flashed_step cs [].

Lemma flashed_snoc cs c : flashed (cs ++ [c]) = flashed_step (flashed cs) c.
Proof. unfold flashed. by rewrite fold_left_app. Qed.

#[local] Arguments flashed : simpl never.
#[local] Arguments flashed_step : simpl never.

(** A manifest signed for the bridge, of this size and digest. *)
Definition signed_for (size : Z) (digest : list Z) : Prop :=
  exists sig m, fwsig_check (Some sig) k_keys FWSIG_TARGET_BRIDGE size = (FWSIG_OK, Some m) /\ g_sha256 m = digest.

(** What made the new image bootable. *)
Definition boots_signed (cs : list esp_call) : Prop :=
  forall pre err post, cs = pre ++ CallSetBoot err :: post ->
  signed_for (Z.of_nat (length (flashed pre))) (sha256_spec (flashed pre)).

Lemma boots_snoc cs c :
  boots_signed cs -> (forall err, c = CallSetBoot err -> signed_for (Z.of_nat (length (flashed cs))) (sha256_spec (flashed cs))) ->
  boots_signed (cs ++ [c]).
Proof.
  intros Hb Hc pre err post E2. destruct post as [|x post' _] using rev_ind.
  - apply app_inj_tail in E2 as [<- ->]. by eapply Hc.
  - rewrite app_comm_cons, app_assoc in E2. apply app_inj_tail in E2 as [-> ->]. by eapply Hb.
Qed.

Definition active_inv (st : bota_t) : Prop :=
  q_active (s_seq st) = true ->
  signed_for (q_size (s_seq st)) (g_sha256 (s_sig st)) /\ hashed (flashed (calls st)) (s_hash st) /\
  seq_inv (s_seq st) (flashed (calls st)).

Definition bota_inv (st : bota_t) : Prop := boots_signed (calls st) /\ active_inv st.

Lemma abort_inv st : bota_inv st -> bota_inv (abort_locked st) /\ q_active (s_seq (abort_locked st)) = false.
Proof.
  unfold abort_locked. intros [Hb Ha]. destruct (q_active (s_seq st)) eqn:Eq; [|done]. split; [|done].
  destruct st. cbn in *. split; cbn; [by apply boots_snoc|]. by intros Hq.
Qed.

(** ** Every operation keeps the invariant *)

Lemma begin_inv st size sig now :
  0 <= size < 4294967296 -> bota_inv st -> bota_inv (fst (fst (ota_begin st size sig now))).
Proof.
  intros Hs Hi. unfold ota_begin. cbv zeta. destruct (abort_inv st Hi) as [[Hb _] Hq].
  set (st1 := abort_locked st) in *. destruct (fwsig_check sig k_keys FWSIG_TARGET_BRIDGE size) as [v m] eqn:Ev.
  destruct st1 as [e cs q us sg hs pd]. cbn -[fwsig_check bu_ota_begin sha256_init] in *.
  assert (Hoff : forall e' sg', bota_inv (BOta e' cs q us sg' hs pd)) by (intros; split; [done|by unfold active_inv; cbn; rewrite Hq]).
  case_bool_decide as Hv; [|apply Hoff]. destruct (esp_ota_get_next_update_partition e) as [psize|]; [|apply Hoff].
  destruct (_ || _); [apply Hoff|]. destruct (esp_ota_begin e size) as [e' err].
  cbn -[fwsig_check bu_ota_begin sha256_init]. destruct (Z.eqb_spec err ESP_OK) as [->|Herr]; cbn [negb fst].
  2:{ split; [by apply boots_snoc|]. unfold active_inv. cbn. by rewrite Hq. }
  split; [by apply boots_snoc|]. unfold active_inv. cbn -[bu_ota_begin sha256_init fwsig_check]. intros _.
  rewrite flashed_snoc. cbn [flashed_step]. split_and!.
  - cbn [bu_ota_begin q_size]. destruct sig as [sig|]; [|cbn in Ev; congruence]. subst v. destruct m as [m|].
    + by exists sig, m.
    + exfalso. revert Ev. unfold fwsig_check. repeat (case_match; try done).
  - apply init_spec.
  - by apply seq_inv_begin.
Qed.

Lemma data_inv st offset data now : bota_inv st -> bota_inv (fst (fst (fst (ota_data st offset data now)))).
Proof.
  intros [Hb Ha]. unfold ota_data. cbv zeta. destruct (_ || _); [done|].
  assert (Hmark : forall s, bota_inv s -> bota_inv (if q_active (s_seq s) then {| s with s_last_us := now |} else s)).
  { intros s Hs. destruct (q_active (s_seq s)) eqn:Eq; [|done]. destruct s, Hs. by split. }
  destruct (bu_ota_check (s_seq st) offset _) eqn:Ec; try (by apply (Hmark st)).
  destruct ((offset =? 0) && _); [by apply (Hmark st)|]. destruct (esp_ota_write (esp st) data) as [e' err].
  destruct (Z.eqb_spec err ESP_OK) as [->|Herr]; cbn [negb].
  - cbv beta iota. cbn [fst]. apply Hmark.
    assert (Hq : q_active (s_seq st) = true) by (revert Ec; unfold bu_ota_check; by destruct (q_active (s_seq st))).
    destruct (Ha Hq) as (Hsg & Hh & Hs). destruct (seq_inv_write _ _ _ _ Hs Ec) as (_ & _ & Hs').
    destruct st as [e cs q us sg hs pd]. cbn -[bu_ota_advance sha256_update flashed_step] in *.
    split; [by apply boots_snoc|]. unfold active_inv. cbn -[sha256_update flashed_step seq_inv]. intros _.
    rewrite flashed_snoc. cbn [flashed_step]. split_and!; [done|by apply update_spec|done].
  - cbv beta iota. cbn [fst]. apply Hmark. destruct st as [e cs q us sg hs pd]. cbn -[flashed_step] in *.
    split; [by apply boots_snoc|]. unfold active_inv in *. cbn -[flashed_step seq_inv hashed] in *. intros Hq. rewrite flashed_snoc.
    unfold flashed_step. destruct err; [done|by apply Ha..].
Qed.

Lemma end_inv st : bota_inv st -> bota_inv (fst (fst (ota_end st))).
Proof.
  intros Hi. unfold ota_end. destruct (q_active (s_seq st)) eqn:Hq; [|done]. cbn [negb].
  destruct (bu_ota_complete (s_seq st)) eqn:Ec; [|done]. cbn [negb]. cbv zeta. destruct Hi as [Hb Ha].
  destruct (Ha Hq) as (Hsg & Hh & Hs). destruct (Hs Hq) as (_ & Hn & _).
  unfold bu_ota_complete in Ec. rewrite Hq in Ec. cbn [andb] in Ec. apply Z.eqb_eq in Ec.
  apply final_spec in Hh. destruct st as [e cs q us sg hs pd]. cbn -[seq_zero sha256_final flashed_step] in *.
  assert (Hoff : forall e' cs', boots_signed cs' -> bota_inv (BOta e' cs' seq_zero us sg hs pd)) by (intros; by split).
  case_bool_decide as Hd; cbn [negb]; [|apply Hoff; by apply boots_snoc].
  destruct (esp_ota_end e) as [e1 err1]. cbn -[seq_zero sha256_final].
  assert (Hb1 : boots_signed (cs ++ [CallEnd err1])) by (by apply boots_snoc).
  destruct (_ =? ESP_ERR_OTA_VALIDATE_FAILED); [by apply Hoff|]. destruct (err1 =? ESP_OK); [|by apply Hoff]. cbn [negb].
  destruct (esp_ota_set_boot_partition e1) as [e2 err2]. cbn -[seq_zero sha256_final].
  assert (Hb2 : boots_signed ((cs ++ [CallEnd err1]) ++ [CallSetBoot err2])).
  { apply boots_snoc; [done|]. intros err [= <-]. rewrite flashed_snoc. unfold flashed_step.
    rewrite <- Hh, Hd, <- Hn, Ec. done. }
  destruct (err2 =? ESP_OK); by apply Hoff.
Qed.

Lemma bota_step_inv st o :
  match fst o with OBegin size _ => 0 <= size < 4294967296 | _ => True end -> bota_inv st -> bota_inv (bota_step st o).
Proof.
  destruct o as [[size sig|offset data| | | |] now]; cbn [fst snd bota_step]; intros Hs Hi.
  - by apply begin_inv.
  - by apply data_inv.
  - by apply end_inv.
  - apply (abort_inv st Hi).
  - unfold ota_poll. destruct (_ && _); [apply (abort_inv st Hi)|done].
  - unfold ota_confirm. destruct (negb (s_pending st)); [done|]. destruct (esp_ota_mark_app_valid _) as [e err].
    destruct st, Hi. cbn in *. by destruct (err =? ESP_OK).
Qed.

End bridge_ota.
