(* ===== verification/BridgeControl.v ===== *)
(** * The bridge's control task ([wifi-bridge/main/control.c])

    One request at a time. What the rest of the firmware is asked to do is the
    list of effects; what it answers is the record [ctl_env], one per item. *)

From S2P Require Import Prelude HmacSha Bwp FwSign L2fwd Pairing BridgeUtil BridgeOta.

Abbreviation BWP_E_UNSUPPORTED := 2.
Abbreviation BWP_E_BUSY := 3.

Inductive effect :=
| EConfirm | EPairkeyStore (key pub : list Z) | EScan | ESetWifi (ssid pass : list Z) | EClearWifi
| EOta (o : bota_op) | EReboot | ECredsClear | EPairkeyClear.

Record ctl_env := CtlEnv {
  c_now : Z; c_mac : list Z; c_status : bwp_status_t; c_hello : bwp_hello_t; c_pod_known : bool; c_link_up : bool;
  c_random : list Z; c_pairkey_store : bool; c_scan : Z * list bwp_ap_t; c_set_wifi : bool; c_clear_wifi : bool;
  c_creds_clear : bool; c_pairkey_clear : bool;
}.

Inductive item_t := IT_FRAME (buf : list Z) | IT_NOTIFY | IT_FORGET.

Definition CAP : nat := BWP_MAX_FRAME.

Definition why_text (v : pair_verdict_t) : cstr :=
  match v with
  | PAIR_NOT_PAIRED => str "not paired: send PAIR first"
  | PAIR_ALREADY_PAIRED => str "paired with another pod: press PAIR on the bridge"
  | PAIR_AUTH_MISSING => str "AUTH required"
  | PAIR_AUTH_BAD => str "AUTH wrong (key or nonce)"
  | PAIR_REPLAY => str "COUNTER not increasing"
  | PAIR_BAD_KEY => str "KEY must be 32 bytes"
  | _ => []
  end.

Definition MSG_SET_WIFI : cstr :=
  str "SSID 1-32 bytes; passphrase sealed (ENC_PASSPHRASE), empty, 8-63 printable ASCII or 64 hex".

Section control.
Context {E : Type} `{EspOta E} `{Monocypher} `{MonocypherBox} (k_keys : list (list Z)).

Record ctl_t := Ctl {
  s_pair : bwp_pairing_t; s_paired : bool; s_pub : list Z; s_sign : bool; s_counter : Z; fwd : l2fwd_t; bota : bota_t (E := E);
}.

(** The stored key and our public key of that pairing, if any. *)
Definition control_start (nonce : list Z) (stored : option (list Z * list Z)) (fw : l2fwd_t) (o : bota_t) : ctl_t :=
  Ctl (pairing_init nonce (option_map fst stored)) (match stored with Some _ => true | None => false end)
    (match stored with Some (_, pub) => pub | None => replicate 32 0 end) false 0 fw o.

(** What goes out: the frame, signed when the request was. *)
Definition send (st : ctl_t) (built : option (list Z)) : list (list Z) :=
  match built with
  | None => []
  | Some f =>
      if s_sign st then
        match bwp_sign_frame f CAP (p_key (s_pair st)) (p_nonce (s_pair st)) (s_counter st) with
        | Some f' => [f'] | None => []
        end
      else [f]
  end.

Definition send_status (st : ctl_t) (env : ctl_env) (dst : list Z) (seq : Z) : list (list Z) :=
  send st (bwp_build_status CAP dst (c_mac env) seq (c_status env)).

Definition send_hello (st : ctl_t) (env : ctl_env) : list (list Z) :=
  let h := c_hello env in
  let h := Hello (h_fw_version h) (h_hw_rev h) (h_state h) (h_flags h) (c_mac env) (h_pod_mac h) (p_nonce (s_pair st)) (s_pub st) in
  send st (bwp_build_hello CAP (if c_pod_known env then Some (h_pod_mac h) else None) h).

Definition reply (st : ctl_t) (env : ctl_env) (m : bwp_msg_t) (result : Z) (msg : option cstr) : list (list Z) :=
  send st (bwp_build_result CAP (m_src m) (c_mac env) (m_type m) (m_seq m) result msg).

Definition forget_pairing (st : ctl_t) : ctl_t * list effect :=
  ({| st with s_pair := pairing_forget (s_pair st); s_pub := replicate 32 0; s_paired := false;
      fwd := l2fwd_link_down (fwd st) |}, [EPairkeyClear]).

Definition response_of (env : ctl_env) (m : bwp_msg_t) (result : Z) : bwp_writer_t :=
  bwp_put_u8 (bwp_begin CAP (m_src m) (c_mac env) (Z.lor (m_type m) BWP_RESPONSE) (m_seq m)) BWP_T_RESULT result.

(** The answer to a refused request: unsigned, with our nonce. *)
Definition refuse (st : ctl_t) (env : ctl_env) (m : bwp_msg_t) (v : pair_verdict_t) : list (list Z) :=
  let w := bwp_put_str (response_of env m (pairing_result v)) BWP_T_MESSAGE (why_text v) in
  let w := bwp_put w BWP_T_NONCE (p_nonce (s_pair st)) in
  let w := if bool_decide (v = PAIR_REPLAY) then bwp_put_u32 w BWP_T_COUNTER (last_counter (s_pair st)) else w in
  send st (bwp_finish w).

Definition handle_pair (st : ctl_t) (env : ctl_env) (m : bwp_msg_t) (new_key : list Z) : ctl_t * list (list Z) * list effect :=
  let pub := bwp_x25519_public (c_random env) in
  let '(r, msg, key, effs) :=
    match bwp_pair_key (c_random env) new_key new_key pub with
    | None => (BWP_E_BAD_REQUEST, Some (str "bad public key"), [], [])
    | Some key =>
        if c_pairkey_store env then (BWP_OK, None, key, [EPairkeyStore key pub])
        else (BWP_E_STORAGE, None, key, [EPairkeyStore key pub])
    end in
  let w := response_of env m r in
  let w := if r =? BWP_OK then bwp_put w BWP_T_PUBKEY pub
           else match msg with Some t => bwp_put_str w BWP_T_MESSAGE t | None => w end in
  let out := send st (bwp_finish w) in
  if r =? BWP_OK then ({| st with s_pair := pairing_set_key (s_pair st) key; s_pub := pub; s_paired := true |}, out, effs)
  else (st, out, effs).

Definition handle_set_wifi (st : ctl_t) (env : ctl_env) (m : bwp_msg_t) : list (list Z) * list effect :=
  match bwp_parse_set_wifi m (if paired (s_pair st) then Some (p_key (s_pair st)) else None) with
  | None => (reply st env m BWP_E_BAD_REQUEST (Some MSG_SET_WIFI), [])
  | Some (ssid, pass) =>
      if ota_active (bota st) then (reply st env m BWP_E_BUSY (Some (str "OTA in progress")), [])
      else if negb (c_set_wifi env) then (reply st env m BWP_E_STORAGE None, [ESetWifi ssid pass])
      else (reply st env m BWP_OK None, [ESetWifi ssid pass])
  end.

Definition handle_ota_begin (st : ctl_t) (env : ctl_env) (m : bwp_msg_t) : ctl_t * list (list Z) * list effect :=
  let sig := bwp_find (m_body m) BWP_T_SIGNATURE in
  match bwp_get_u32 (m_body m) BWP_T_IMAGE_SIZE with
  | None => (st, reply st env m BWP_E_BAD_REQUEST None, [])
  | Some size =>
      let '(o, r, msg) := ota_begin k_keys (bota st) size sig (c_now env) in
      ({| st with bota := o |}, reply st env m r msg, [EOta (OBegin size sig)])
  end.

Definition handle_ota_data (st : ctl_t) (env : ctl_env) (m : bwp_msg_t) : ctl_t * list (list Z) * list effect :=
  let '(o, r, next, msg, effs) :=
    match bwp_get_u32 (m_body m) BWP_T_OFFSET, bwp_find (m_body m) BWP_T_DATA with
    | Some off, Some data => (ota_data (bota st) off data (c_now env), [EOta (OData off data)])
    | _, _ => (bota st, BWP_E_BAD_REQUEST, 0, None, [])
    end in
  let w := bwp_put_u32 (response_of env m r) BWP_T_OFFSET next in
  let w := match msg with Some t => bwp_put_str w BWP_T_MESSAGE t | None => w end in
  ({| st with bota := o |}, send st (bwp_finish w), effs).

(** A request that [pairing_check] let through. *)
Definition carry_out (st : ctl_t) (env : ctl_env) (m : bwp_msg_t) (new_key : option (list Z))
    : ctl_t * list (list Z) * list effect :=
  let t := m_type m in
  if t =? BWP_PAIR then handle_pair st env m (default [] new_key)
  else if t =? BWP_STATUS then (st, send_status st env (m_src m) (m_seq m), [])
  else if t =? BWP_SCAN then
    (st, send st (bwp_build_scan_result CAP (m_src m) (c_mac env) (m_seq m) (fst (c_scan env)) (snd (c_scan env))), [EScan])
  else if t =? BWP_SET_WIFI then let '(out, effs) := handle_set_wifi st env m in (st, out, effs)
  else if t =? BWP_CLEAR_WIFI then (st, reply st env m (if c_clear_wifi env then BWP_OK else BWP_E_STORAGE) None, [EClearWifi])
  else if t =? BWP_OTA_BEGIN then handle_ota_begin st env m
  else if t =? BWP_OTA_DATA then handle_ota_data st env m
  else if t =? BWP_OTA_END then
    let '(o, r, msg) := ota_end (bota st) in ({| st with bota := o |}, reply st env m r msg, [EOta OEnd])
  else if t =? BWP_OTA_ABORT then ({| st with bota := ota_abort (bota st) |}, reply st env m BWP_OK None, [EOta OAbort])
  else if t =? BWP_REBOOT then (st, reply st env m BWP_OK None, [EReboot])
  else if t =? BWP_FACTORY_RESET then
    (st, reply st env m (if c_creds_clear env && c_pairkey_clear env then BWP_OK else BWP_E_STORAGE) None,
     [ECredsClear] ++ (if c_creds_clear env then [EPairkeyClear] else []) ++ [EReboot])
  else (st, reply st env m BWP_E_UNSUPPORTED None, []).

Definition handle (st : ctl_t) (env : ctl_env) (buf : list Z) : ctl_t * list (list Z) * list effect :=
  match bwp_parse buf with
  | (BWP_PARSE_OK, Some m) =>
      if negb (Z.land (m_type m) BWP_RESPONSE =? 0) then (st, [], [])
      else
        let '(p, r) := pairing_check (s_pair st) buf m in
        let st := {| st with s_pair := p; s_counter := pc_counter r |} in
        if negb (handled (pc_verdict r)) then (st, refuse st env m (pc_verdict r), [])
        else
          let st := {| st with s_sign := pc_authed r; bota := ota_confirm (bota st) |} in
          let '(st, out, effs) := carry_out st env m (pc_new_key r) in
          (st, out, EConfirm :: effs)
  | _ => (st, [], [])
  end.

(** One item of the task's queue. *)
Definition control_item (st : ctl_t) (env : ctl_env) (it : item_t) : ctl_t * list (list Z) * list effect :=
  match it with
  | IT_NOTIFY =>
      (st, if c_link_up env then send_status st env (if c_pod_known env then h_pod_mac (c_hello env) else BCAST) 0 else [], [])
  | IT_FORGET => let '(st, effs) := forget_pairing st in (st, [], effs)
  | IT_FRAME buf =>
      let '(st, out, effs) := handle st env buf in ({| st with s_sign := false |}, out, effs)
  end.

End control.
