(* ===== verification/BridgeTheorems.v ===== *)
(** * What the bridge's control channel guarantees *)

From S2P Require Import Prelude HmacSha Bwp BwpTheorems FwSign L2fwd Pairing BridgeUtil BridgeOta BridgeControl.

Definition stores_key (effs : list effect) : Prop := exists key pub, In (EPairkeyStore key pub) effs.

(** What a bridge without a key may be asked to do. *)
Definition harmless (e : effect) : bool :=
  match e with EConfirm | EScan | EPairkeyStore _ _ => true | _ => false end.

(** Values read from a frame are in range. *)
Lemma find_loop_bytes fuel p tag v : bytes_ok p -> find_loop fuel p tag = Some v -> bytes_ok v.
Proof.
  revert p. induction fuel as [|fuel IH]; intros p Hp; [done|]. cbn [find_loop]. unfold bwp_iter_next.
  destruct (_ <? 3)%nat; [done|]. cbv zeta. destruct (_ <? get_be16 _); [done|].
  destruct (_ =? tag); [intros [= <-]; by apply Forall_take, Forall_drop|]. intros E. eapply IH; [|exact E]. by apply Forall_drop.
Qed.

Lemma get_u32_range body tag v : bytes_ok body -> bwp_get_u32 body tag = Some v -> 0 <= v < 4294967296.
Proof.
  unfold bwp_get_u32. intros Hb. destruct (bwp_find body tag) as [w|] eqn:Ef; [|done].
  destruct (Nat.eqb_spec (length w) 4) as [Hl|]; [|done]. intros [= <-].
  apply find_loop_bytes in Ef; [|done]. do 5 (destruct w as [|? w]; try done).
  unfold bytes_ok in Ef. rewrite !Forall_cons in Ef. destruct Ef as (B0 & B1 & B2 & B3 & _). unfold byte_ok in *.
  unfold get_be32. cbn [nth]. rewrite !Z.shiftl_mul_pow2 by lia. repeat apply (lor_bound 32); lia.
Qed.

Section bridge.
Context {E : Type} {EO : EspOta E} {MC : Monocypher} {MB : MonocypherBox} (k_keys : list (list Z)).

(** The request is signed with the bridge's key and nonce, and its counter is
    above the last accepted one. *)
Definition fresh_signed (st : ctl_t (E := E)) (buf : list Z) (m : bwp_msg_t) (c : Z) : Prop :=
  paired (s_pair st) = true /\ bwp_verify buf m (p_key (s_pair st)) (p_nonce (s_pair st)) = (BWP_VERIFY_OK, Some c) /\
  last_counter (s_pair st) < c.

Lemma handle_pair_state st env m k st' out effs :
  handle_pair (E := E) st env m k = (st', out, effs) ->
  bota st' = bota st /\ s_sign st' = s_sign st /\ Forall (fun e => harmless e = true) effs /\
  (s_pair st' = s_pair st \/ stores_key effs).
Proof.
  unfold handle_pair. cbv zeta. destruct (bwp_pair_key _ _ _ _) as [key|]; [destruct (c_pairkey_store env)|];
    cbn [Z.eqb]; intros [= <- <- <-]; destruct st; cbn; (split_and!; [done|done|by repeat constructor|]);
    first [by left|right; eexists _, _; by left].
Qed.

(** A request that is carried out changes the pairing only by storing a key,
    and the update only by one operation. *)
Lemma carry_out_state st env m k st' out effs :
  carry_out k_keys st env m k = (st', out, effs) ->
  (s_pair st' = s_pair st \/ stores_key effs) /\
  (bota st' = bota st \/ exists o, bota st' = bota_step k_keys (bota st) (o, c_now env) /\ In (EOta o) effs /\
     forall size sig, o = OBegin size sig -> bwp_get_u32 (m_body m) BWP_T_IMAGE_SIZE = Some size) /\
  ((m_type m = BWP_STATUS \/ m_type m = BWP_SCAN \/ m_type m = BWP_PAIR) -> Forall (fun e => harmless e = true) effs).
Proof.
  unfold carry_out. cbv zeta.
  destruct (Z.eqb_spec (m_type m) BWP_PAIR) as [Et|E1].
  { intros (Hb & _ & Hh & Hp)%handle_pair_state. split_and!; [done|by left|done]. }
  destruct (Z.eqb_spec (m_type m) BWP_STATUS) as [Et|E2]; [intros [= <- <- <-]; split_and!; [by left|by left|constructor]|].
  destruct (Z.eqb_spec (m_type m) BWP_SCAN) as [Et|E3]; [intros [= <- <- <-]; split_and!; [by left|by left|by repeat constructor]|].
  assert (Hno : ~ (m_type m = BWP_STATUS \/ m_type m = BWP_SCAN \/ m_type m = BWP_PAIR)) by naive_solver.
  destruct (_ =? BWP_SET_WIFI).
  { destruct (handle_set_wifi st env m) as [o e]. intros [= <- <- <-]. split_and!; [by left|by left|done]. }
  destruct (_ =? BWP_CLEAR_WIFI); [intros [= <- <- <-]; split_and!; [by left|by left|done]|].
  destruct (_ =? BWP_OTA_BEGIN).
  { unfold handle_ota_begin. cbv zeta. destruct (bwp_get_u32 _ _) as [size|]; [|intros [= <- <- <-]; split_and!; [by left|by left|done]].
    destruct (ota_begin _ _ _ _ _) as [[o r] msg] eqn:Eo. intros [= <- <- <-]. destruct st; cbn in *. split_and!; [by left| |done].
    right. eexists. split; [|split; [by left|by intros ? ? [= <- _]]]. cbn [bota_step fst snd]. by rewrite Eo. }
  destruct (_ =? BWP_OTA_DATA).
  { unfold handle_ota_data. destruct (bwp_get_u32 _ _) as [off|]; [|intros [= <- <- <-]; destruct st; split_and!; [by left|by left|done]].
    destruct (bwp_find _ BWP_T_DATA) as [d|]; [|intros [= <- <- <-]; destruct st; split_and!; [by left|by left|done]].
    destruct (ota_data _ _ _ _) as [[[o r] next] msg] eqn:Eo. intros [= <- <- <-]. destruct st; cbn in *. split_and!; [by left| |done].
    right. eexists. split; [|split; [by left|done]]. cbn [bota_step fst snd]. by rewrite Eo. }
  destruct (_ =? BWP_OTA_END).
  { destruct (ota_end _) as [[o r] msg] eqn:Eo. intros [= <- <- <-]. destruct st; cbn in *. split_and!; [by left| |done].
    right. eexists. split; [|split; [by left|done]]. cbn [bota_step fst snd]. by rewrite Eo. }
  destruct (_ =? BWP_OTA_ABORT).
  { intros [= <- <- <-]. destruct st; cbn in *. split_and!; [by left| |done].
    right. exists OAbort. split; [done|split; [by left|done]]. }
  destruct (_ =? BWP_REBOOT); [intros [= <- <- <-]; split_and!; [by left|by left|done]|].
  destruct (_ =? BWP_FACTORY_RESET); intros [= <- <- <-]; (split_and!; [by left|by left|done]).
Qed.

(** The same pairing, its counter not lowered. *)
Definition same_pairing (p p' : bwp_pairing_t) : Prop :=
  paired p' = paired p /\ p_key p' = p_key p /\ p_nonce p' = p_nonce p /\ last_counter p <= last_counter p'.

#[local] Instance same_pairing_preorder : PreOrder same_pairing.
Proof.
  split; [intros p; by unfold same_pairing|]. unfold same_pairing. intros p q r (-> & -> & -> & ?) (-> & -> & -> & ?).
  split_and!; try done. lia.
Qed.

Lemma check_same p frame m p' r : pairing_check p frame m = (p', r) -> same_pairing p p'.
Proof.
  intros Ec. destruct (check_state _ _ _ _ _ Ec) as (H1 & H2 & H3 & Hf & Ht). split_and!; try done.
  destruct (pc_authed r); [destruct (Ht eq_refl) as (_ & Hl & _); lia|by rewrite Hf].
Qed.

(** The cases of one frame: ignored or refused, or carried out. *)
Lemma handle_cases st env buf st' out effs :
  handle k_keys st env buf = (st', out, effs) ->
  (effs = [] /\ same_pairing (s_pair st) (s_pair st') /\ bota st' = bota st) \/
  (exists m r p st1 effs1,
     bwp_parse buf = (BWP_PARSE_OK, Some m) /\ pairing_check (s_pair st) buf m = (p, r) /\ handled (pc_verdict r) = true /\
     s_pair st1 = p /\ bota st1 = ota_confirm (bota st) /\ s_sign st1 = pc_authed r /\ s_counter st1 = pc_counter r /\
     carry_out k_keys st1 env m (pc_new_key r) = (st', out, effs1) /\ effs = EConfirm :: effs1).
Proof.
  unfold handle. destruct (bwp_parse buf) as [[] [m|]] eqn:Ep; try (intros [= <- <- <-]; by left).
  destruct (negb _); [intros [= <- <- <-]; by left|].
  destruct (pairing_check (s_pair st) buf m) as [p r] eqn:Ec. destruct (handled (pc_verdict r)) eqn:Eh; cbn [negb].
  - cbv zeta. set (st1 := Ctl _ _ _ _ _ _ _). destruct (carry_out k_keys st1 env m (pc_new_key r)) as [[s2 o2] e2] eqn:Eo.
    intros [= <- <- <-]. right. exists m, r, p, st1, e2. by split_and!.
  - cbv zeta. intros [= <- <- <-]. left. apply check_same in Ec. by destruct st.
Qed.

Lemma item_frame st env buf :
  let '(st1, out, effs) := handle k_keys st env buf in
  control_item k_keys st env (IT_FRAME buf) = ({| st1 with s_sign := false |}, out, effs).
Proof. unfold control_item. by destruct (handle k_keys st env buf) as [[s o] e]. Qed.

(** C14: nothing is done for a request that is not the paired pod's. If one frame
    makes the bridge do anything at all, it parses, and either the bridge is
    paired and the frame carries the only AUTH it needs, right under the stored
    key and this boot's nonce, with a counter above every one accepted so far
    (which the bridge then remembers, unless the request was a key rotation); or
    the bridge has no key, the request is STATUS, SCAN or PAIR, and all it causes
    is a scan or the storing of the first key. *)
Theorem control_authenticated st env buf st' out effs :
  control_item k_keys st env (IT_FRAME buf) = (st', out, effs) -> effs <> [] ->
  exists m, bwp_parse buf = (BWP_PARSE_OK, Some m) /\
    ((exists c, fresh_signed st buf m c /\ (last_counter (s_pair st') = c \/ stores_key effs)) \/
     (paired (s_pair st) = false /\ (m_type m = BWP_STATUS \/ m_type m = BWP_SCAN \/ m_type m = BWP_PAIR) /\
      Forall (fun e => harmless e = true) effs)).
Proof.
  pose proof (item_frame st env buf) as Ei. destruct (handle k_keys st env buf) as [[s1 o1] e1] eqn:Eh. rewrite Ei.
  intros [= <- <- <-] Hne.
  destruct (handle_cases _ _ _ _ _ _ Eh) as [(? & _)|(m & r & p & s2 & effs1 & Ep & Ec & Hh & Hp & _ & _ & _ & Eo & ->)]; [done|].
  exists m. split; [done|]. destruct (carry_out_state _ _ _ _ _ _ _ Eo) as (Hk & _ & Hharm).
  destruct (check_handled _ _ _ _ _ Ec Hh) as (Ha & Hun & _). destruct (check_state _ _ _ _ _ Ec) as (_ & _ & _ & _ & Ht).
  destruct (paired (s_pair st)) eqn:Epd.
  - left. destruct (Ht Ha) as (_ & Hl & _ & Hv). exists (last_counter p). split; [done|].
    destruct s1. cbn in *. destruct Hk as [->|(k & pb & Hk)]; [left; by rewrite Hp|right; exists k, pb; by right].
  - right. split; [done|]. split; [by apply Hun|]. constructor; [done|]. by apply Hharm, Hun.
Qed.

(** ** No request is carried out twice *)

(** Any item, except one that replaces or forgets the key. *)
Inductive keeps : ctl_t (E := E) -> ctl_t (E := E) -> Prop :=
| keeps_item st env it st' out effs :
    control_item k_keys st env it = (st', out, effs) -> it <> IT_FORGET -> ~ stores_key effs -> keeps st st'.

Lemma keeps_same st st' : keeps st st' -> same_pairing (s_pair st) (s_pair st').
Proof.
  destruct 1 as [st env it st' out effs Ei Hf Hk]. destruct it as [buf| |]; [|by injection Ei as <- <- <-|done].
  pose proof (item_frame st env buf) as Ei'. destruct (handle k_keys st env buf) as [[s1 o1] e1] eqn:Eh.
  rewrite Ei' in Ei. injection Ei as <- <- <-.
  destruct (handle_cases _ _ _ _ _ _ Eh) as [(_ & Hs & _)|(m & r & p & s2 & effs1 & _ & Ec & _ & Hp & _ & _ & _ & Eo & ->)].
  - by destruct s1.
  - destruct (carry_out_state _ _ _ _ _ _ _ Eo) as ([Hs|(k & pb & Hs)] & _).
    + apply check_same in Ec. rewrite <- Hp, <- Hs in Ec. by destruct s1.
    + exfalso. apply Hk. exists k, pb. by right.
Qed.

Lemma run_same st st' : rtc keeps st st' -> same_pairing (s_pair st) (s_pair st').
Proof. induction 1 as [|st st1 st2 Hs _ IH]; [reflexivity|]. etrans; [by apply keeps_same|done]. Qed.

(** C15: a recorded request is worthless. Once a paired bridge has carried out a
    frame, the same frame does nothing after any further sequence of frames and
    events, as long as the bridge keeps its key: neither the pairing nor the
    update changes and no effect follows. *)
Theorem control_no_replay st env buf st1 out effs st2 env2 :
  paired (s_pair st) = true -> control_item k_keys st env (IT_FRAME buf) = (st1, out, effs) -> effs <> [] ->
  ~ stores_key effs -> rtc keeps st1 st2 ->
  let '(st3, _, effs2) := control_item k_keys st2 env2 (IT_FRAME buf) in
  effs2 = [] /\ bota st3 = bota st2 /\ s_pair st3 = s_pair st2.
Proof.
  intros Hpd Ei Hne Hk Hrun.
  assert (Hfirst : exists m p r, bwp_parse buf = (BWP_PARSE_OK, Some m) /\ pairing_check (s_pair st) buf m = (p, r) /\
    s_pair st1 = p /\ pc_authed r = true).
  { pose proof (item_frame st env buf) as Ei'. destruct (handle k_keys st env buf) as [[s1 o1] e1] eqn:Eh.
    rewrite Ei' in Ei. injection Ei as <- <- <-.
    destruct (handle_cases _ _ _ _ _ _ Eh) as [(? & _)|(m & r & p & s2 & effs1 & Ep & Ec & Hh & Hp & _ & _ & _ & Eo & ->)]; [done|].
    exists m, p, r. split_and!; try done.
    - destruct (carry_out_state _ _ _ _ _ _ _ Eo) as ([Hs|(k & pb & Hs)] & _).
      + rewrite <- Hp, <- Hs. by destruct s1.
      + exfalso. apply Hk. exists k, pb. by right.
    - by rewrite (proj1 (check_handled _ _ _ _ _ Ec Hh)). }
  destruct Hfirst as (m & p & r & Ep & Ec & Hp1 & Ha). destruct (check_state _ _ _ _ _ Ec) as (H1' & H2' & H3' & _ & Ht).
  destruct (Ht Ha) as (_ & _ & _ & Hv). apply run_same in Hrun as (R1 & R2 & R3 & R4). rewrite Hp1 in *.
  assert (Hchk : pairing_check (s_pair st2) buf m = (s_pair st2, PairCheck PAIR_REPLAY false (last_counter p) None)).
  { unfold pairing_check. rewrite R1, H1', Hpd, R2, R3, H2', H3', Hv. cbv zeta. cbn [from_option]. unfold id.
    destruct (Z.leb_spec (last_counter p) (last_counter (s_pair st2))); [done|lia]. }
  unfold control_item, handle. rewrite Ep. destruct (negb (Z.land _ _ =? 0)); [by destruct st2|]. rewrite Hchk. by destruct st2.
Qed.

(** ** The running image *)

Lemma item_bota st env it st' out effs :
  control_item k_keys st env it = (st', out, effs) ->
  (forall buf, it = IT_FRAME buf -> bytes_ok buf) -> bota_inv k_keys (bota st) -> bota_inv k_keys (bota st').
Proof.
  intros Ei Hb Hi. destruct it as [buf| |].
  - pose proof (item_frame st env buf) as Ei'. destruct (handle k_keys st env buf) as [[s1 o1] e1] eqn:Eh.
    rewrite Ei' in Ei. injection Ei as <- <- <-. assert (Hgoal : bota_inv k_keys (bota s1)); [|by destruct s1].
    destruct (handle_cases _ _ _ _ _ _ Eh) as [(_ & _ & ->)|(m & r & p & s2 & effs1 & Ep & Ec & Hh & Hp & Hc & _ & _ & Eo & ->)]; [done|].
    assert (Hi2 : bota_inv k_keys (bota s2)) by (rewrite Hc; by apply (bota_step_inv k_keys (bota st) (OConfirm, 0))).
    destruct (carry_out_state _ _ _ _ _ _ _ Eo) as (_ & [->|(o & -> & _ & Hsz)] & _); [done|].
    apply bota_step_inv; [|done]. destruct o as [size sig| | | | |]; try done. cbn [fst].
    specialize (Hsz _ _ eq_refl). destruct (parse_ok_frame _ _ Ep) as (Hbody & _).
    eapply get_u32_range; [|exact Hsz]. rewrite Hbody. by apply Forall_take, Forall_drop, Hb.
  - by injection Ei as <- <- <-.
  - unfold control_item, forget_pairing in Ei. injection Ei as <- <- <-. by destruct st.
Qed.

(** One item, whatever it is; frames are bytes. *)
Inductive item_step : ctl_t (E := E) -> ctl_t (E := E) -> Prop :=
| item_step_intro st env it st' out effs :
    control_item k_keys st env it = (st', out, effs) -> (forall buf, it = IT_FRAME buf -> bytes_ok buf) -> item_step st st'.


End bridge.

(** ** A transfer *)

Section transfer.
Context {E : Type} {EO : EspOta E} {MC : Monocypher} (k_keys : list (list Z)) (now : Z).
Context (write_ok : forall e d, snd (esp_ota_write e d) = ESP_OK).

(** A chunk, sent [1 + n] times; whether every answer was OK. *)
Fixpoint resend (n : nat) (st : bota_t (E := E)) (off : Z) (d : list Z) : bota_t * bool :=
  let '(st, r, _, _) := ota_data st off d now in
  match n with O => (st, r =? BWP_OK) | S n' => let '(st', ok) := resend n' st off d in (st', (r =? BWP_OK) && ok) end.

Fixpoint transfer (st : bota_t (E := E)) (off : Z) (cs : list (list Z * nat)) : bota_t * bool :=
  match cs with
  | [] => (st, true)
  | (d, n) :: cs' =>
      let '(st, ok) := resend n st off d in
      let '(st', ok') := transfer st (off + Z.of_nat (length d)) cs' in (st', ok && ok')
  end.

Definition chunk_ok (d : list Z) : Prop := (0 < length d)%nat /\ Z.of_nat (length d) <= BWP_OTA_CHUNK_MAX.

(** Receiving at [off], the digest of [w] so far. *)
Definition at_offset (st : bota_t (E := E)) (size off : Z) (sg : fwsig_t) (w : list Z) : Prop :=
  q_active (s_seq st) = true /\ q_size (s_seq st) = size /\ q_next (s_seq st) = off /\ off = Z.of_nat (length w) /\
  s_sig st = sg /\ hashed w (s_hash st).

Lemma dup_ok st size off sg w d :
  at_offset st size (off + Z.of_nat (length d)) sg w -> q_last_off (s_seq st) = off -> q_last_len (s_seq st) = Z.of_nat (length d) ->
  chunk_ok d ->
  let '(st', r, _, _) := ota_data st off d now in
  r = BWP_OK /\ at_offset st' size (off + Z.of_nat (length d)) sg w /\ q_last_off (s_seq st') = off /\ q_last_len (s_seq st') = Z.of_nat (length d).
Proof.
  intros (Ha & Hsz & Hn & Ho & Hsg & Hh) Hlo Hll [Hp Hm]. unfold ota_data. cbv zeta.
  destruct (Z.eqb_spec (Z.of_nat (length d)) 0); [lia|]. destruct (Z.ltb_spec BWP_OTA_CHUNK_MAX (Z.of_nat (length d))); [lia|]. cbn [orb].
  unfold bu_ota_check. rewrite Ha, Hlo, Hll, !Z.eqb_refl. destruct (Z.eqb_spec (Z.of_nat (length d)) 0); [lia|]. cbn [negb andb].
  rewrite Ha. destruct st; cbn in *. by split_and!.
Qed.

Lemma first_ok st size off sg w d :
  at_offset st size off sg w -> chunk_ok d -> off + Z.of_nat (length d) <= size -> 0 <= off -> size < 4294967296 ->
  (off = 0 -> is_own_image d = true) -> (q_last_len (s_seq st) <> 0 -> q_last_off (s_seq st) <> off) ->
  let '(st', r, _, _) := ota_data st off d now in
  r = BWP_OK /\ at_offset st' size (off + Z.of_nat (length d)) sg (w ++ d) /\ q_last_off (s_seq st') = off /\ q_last_len (s_seq st') = Z.of_nat (length d).
Proof.
  intros (Ha & Hsz & Hn & Ho & Hsg & Hh) [Hp Hm] Hfit H0 Hlt Hown Hlast. unfold ota_data. cbv zeta.
  destruct (Z.eqb_spec (Z.of_nat (length d)) 0); [lia|]. destruct (Z.ltb_spec BWP_OTA_CHUNK_MAX (Z.of_nat (length d))); [lia|]. cbn [orb].
  assert (Ec : bu_ota_check (s_seq st) off (Z.of_nat (length d)) = BU_OTA_WRITE).
  { unfold bu_ota_check. rewrite Ha, Hn, Hsz, Z.eqb_refl. cbn [negb]. rewrite u32_id by lia.
    destruct (Z.eqb_spec (q_last_len (s_seq st)) 0), (Z.eqb_spec off (q_last_off (s_seq st))); cbn [negb andb];
      destruct (Z.ltb_spec (size - off) (Z.of_nat (length d))); (done || lia || (exfalso; by apply Hlast)). }
  rewrite Ec. assert (Hid : (off =? 0) && negb (is_own_image d) = false)
    by (destruct (Z.eqb_spec off 0) as [E0|]; [by rewrite Hown|done]).
  rewrite Hid. pose proof (write_ok (esp st) d) as Hw. destruct (esp_ota_write (esp st) d) as [e err]. cbn [snd] in Hw. rewrite Hw.
  cbn [Z.eqb negb]. destruct st. cbn -[sha256_update] in *. rewrite Ha. cbn -[sha256_update].
  split_and!; try done. unfold at_offset. cbn -[sha256_update]. split_and!; try done; [apply u32_id; lia|rewrite length_app; lia|by apply update_spec].
Qed.

Lemma resend_dup n st size off sg w d :
  at_offset st size (off + Z.of_nat (length d)) sg w -> q_last_off (s_seq st) = off -> q_last_len (s_seq st) = Z.of_nat (length d) ->
  chunk_ok d ->
  let '(st', ok) := resend n st off d in
  ok = true /\ at_offset st' size (off + Z.of_nat (length d)) sg w /\ q_last_off (s_seq st') = off /\ q_last_len (s_seq st') = Z.of_nat (length d).
Proof.
  revert st. induction n as [|n IH]; intros st Hat Hlo Hll Hd; cbn [resend]; pose proof (dup_ok st size off sg w d Hat Hlo Hll Hd) as HE;
    destruct (ota_data st off d now) as [[[st1 r] nx] msg]; destruct HE as (-> & H1 & H2 & H3); [done|].
  specialize (IH st1 H1 H2 H3 Hd). destruct (resend n st1 off d) as [st2 ok]. destruct IH as (-> & IH). done.
Qed.

Lemma resend_ok n st size off sg w d :
  at_offset st size off sg w -> chunk_ok d -> off + Z.of_nat (length d) <= size -> 0 <= off -> size < 4294967296 ->
  (off = 0 -> is_own_image d = true) -> (q_last_len (s_seq st) <> 0 -> q_last_off (s_seq st) <> off) ->
  let '(st', ok) := resend n st off d in
  ok = true /\ at_offset st' size (off + Z.of_nat (length d)) sg (w ++ d) /\ q_last_off (s_seq st') = off /\ q_last_len (s_seq st') = Z.of_nat (length d).
Proof.
  intros Hat Hd Hfit H0 Hlt Hown Hlast. pose proof (first_ok st size off sg w d Hat Hd Hfit H0 Hlt Hown Hlast) as HE.
  destruct n as [|n]; cbn [resend]; destruct (ota_data st off d now) as [[[st1 r] nx] msg]; destruct HE as (-> & H1 & H2 & H3); [done|].
  pose proof (resend_dup n st1 size off sg (w ++ d) d H1 H2 H3 Hd) as HE. destruct (resend n st1 off d) as [st2 ok]. by destruct HE as (-> & HE).
Qed.

Lemma transfer_ok cs st size off sg w :
  at_offset st size off sg w -> Forall chunk_ok (map fst cs) -> off + Z.of_nat (length (concat (map fst cs))) <= size ->
  0 <= off -> size < 4294967296 -> (off = 0 -> forall d n cs', cs = (d, n) :: cs' -> is_own_image d = true) ->
  (q_last_len (s_seq st) <> 0 -> q_last_off (s_seq st) < off) ->
  let '(st', ok) := transfer st off cs in
  ok = true /\ at_offset st' size (off + Z.of_nat (length (concat (map fst cs)))) sg (w ++ concat (map fst cs)).
Proof.
  revert st off w. induction cs as [|[d n] cs IH]; intros st off w Hat Hcs Hfit H0 Hlt Hown Hlast; cbn [transfer map fst concat] in *.
  { rewrite app_nil_r. cbn [length]. rewrite Z.add_0_r. done. }
  inversion Hcs as [|?? Hd Hcs']; subst. rewrite length_app in Hfit.
  pose proof (resend_ok n st size off sg w d Hat Hd ltac:(lia) H0 Hlt ltac:(intros; by eapply Hown) ltac:(intros Hx; specialize (Hlast Hx); lia)) as HE.
  destruct (resend n st off d) as [st1 ok]. destruct HE as (-> & H1 & H2 & H3).
  destruct Hd as [Hd1 Hd2].
  specialize (IH st1 (off + Z.of_nat (length d)) (w ++ d) H1 Hcs' ltac:(lia) ltac:(lia) Hlt ltac:(intros; lia) ltac:(intros; lia)).
  destruct (transfer st1 _ cs) as [st2 ok2]. destruct IH as (-> & IH).
  rewrite <- app_assoc in IH. rewrite length_app. replace (off + Z.of_nat (length d + length (concat (map fst cs)))) with
    (off + Z.of_nat (length d) + Z.of_nat (length (concat (map fst cs)))) by lia. done.
Qed.

Context (begin_ok : forall e size, snd (esp_ota_begin e size) = ESP_OK) (end_ok : forall e, snd (esp_ota_end e) = ESP_OK)
  (boot_ok : forall e, snd (esp_ota_set_boot_partition e) = ESP_OK) (ok_valid : ESP_ERR_OTA_VALIDATE_FAILED <> ESP_OK).

(** A transfer completes, whatever acknowledgements get lost. When the flash
    calls succeed, an image that fits the partition, sent in chunks of 1 to 1024
    bytes in order, each any number of times, under a manifest signed for it, is
    acknowledged chunk by chunk, and the closing request makes it bootable
    exactly when its SHA-256 is the manifest's. *)
Theorem ota_transfer_completes st size sig m psize cs d n cs' :
  fwsig_check (Some sig) k_keys FWSIG_TARGET_BRIDGE size = (FWSIG_OK, Some m) ->
  esp_ota_get_next_update_partition (esp (abort_locked st)) = Some psize ->
  BU_IMG_DESC_END <= size <= psize -> size < 4294967296 ->
  cs = (d, n) :: cs' -> is_own_image d = true -> Forall chunk_ok (map fst cs) ->
  Z.of_nat (length (concat (map fst cs))) = size ->
  let '(st1, r1, _) := ota_begin k_keys st size (Some sig) now in
  let '(st2, ok) := transfer st1 0 cs in
  let '(st3, r3, _) := ota_end st2 in
  r1 = BWP_OK /\ ok = true /\
  (if bool_decide (sha256_spec (concat (map fst cs)) = g_sha256 m) then r3 = BWP_OK else r3 = BWP_E_OTA_VERIFY) /\
  q_active (s_seq st3) = false.
Proof.
  intros Hm Hps [Hlo Hhi] Hlt Hcs Hown Hck Hlen.
  assert (Hbegin : let '(st1, r1, _) := ota_begin k_keys st size (Some sig) now in
    r1 = BWP_OK /\ at_offset st1 size 0 m [] /\ q_last_len (s_seq st1) = 0).
  { unfold ota_begin. cbv zeta. rewrite Hm, Hps. rewrite bool_decide_eq_true_2 by done. cbn [negb].
    destruct (Z.ltb_spec size BU_IMG_DESC_END); [lia|]. destruct (Z.ltb_spec psize size); [lia|]. cbn [orb].
    destruct (abort_locked st) as [e cl q us sg hs pd]. cbn -[sha256_init bu_ota_begin].
    pose proof (begin_ok e size) as Hb. destruct (esp_ota_begin e size) as [e' err]. cbn [snd] in Hb. rewrite Hb. cbn [Z.eqb negb].
    split; [done|]. split; [|done]. unfold at_offset. cbn -[sha256_init]. split_and!; try done. apply init_spec. }
  destruct (ota_begin _ st size (Some sig) now) as [[st1 r1] m1]. destruct Hbegin as (-> & Hat & Hll).
  pose proof (transfer_ok cs st1 size 0 m [] Hat Hck ltac:(lia) ltac:(lia) Hlt ltac:(intros _ ? ? ? Hx; rewrite Hcs in Hx; congruence)
    ltac:(congruence)) as HE.
  destruct (transfer st1 0 cs) as [st2 ok]. destruct HE as (-> & (Ha & Hsz & Hn & _ & Hsg & Hh)). cbn [app] in Hh.
  apply final_spec in Hh. unfold ota_end, bu_ota_complete. rewrite Ha, Hn, Hsz, Z.add_0_l, Hlen, Z.eqb_refl. cbn [andb negb]. cbv zeta.
  destruct st2 as [e cl q us sg hs pd]. cbn -[sha256_final] in *. rewrite Hh, Hsg.
  destruct (decide (sha256_spec (concat (map fst cs)) = g_sha256 m));
    [rewrite !bool_decide_eq_true_2 by done|rewrite !bool_decide_eq_false_2 by done]; cbn [negb]; [|done].
  pose proof (end_ok e) as He. destruct (esp_ota_end e) as [e1 err1]. cbn [snd] in He. subst err1.
  destruct (Z.eqb_spec ESP_OK ESP_ERR_OTA_VALIDATE_FAILED); [congruence|]. cbn [Z.eqb negb esp].
  pose proof (boot_ok e1) as Hb. destruct (esp_ota_set_boot_partition e1) as [e2 err2]. cbn [snd] in Hb. subst err2. done.
Qed.

End transfer.

(** ** A concrete bridge *)

Module ToyBridge.
Definition ident : list Z :=
  [IMG_MAGIC] ++ replicate 31 0 ++ le 4 APP_DESC_MAGIC ++ replicate 12 0 ++ replicate 32 0 ++ str "bridge" ++ replicate 26 0.
#[export] Instance flash : EspOta (list Z) := {|
  esp_ota_get_next_update_partition := fun _ => Some 4096;
  esp_ota_begin := fun _ _ => ([], 0);
  esp_ota_write := fun e d => (e ++ d, 0);
  esp_ota_abort := fun _ => [];
  esp_ota_end := fun e => (e, 0);
  esp_ota_set_boot_partition := fun e => (e, 0);
  esp_ota_mark_app_valid := fun e => (e, 0);
  ESP_ERR_OTA_VALIDATE_FAILED := 0x1503;
  esp_err_to_name := fun _ => str "ESP_FAIL";
  project_name := str "bridge";
|}.
#[export] Instance sigs : Monocypher := toy_crypto.
#[export] Instance box : MonocypherBox := {|
  crypto_x25519_public_key := fun s => s;
  crypto_x25519 := fun s p => p;
  crypto_blake2b_keyed := fun k _ => k;
  crypto_chacha20_x := fun t _ _ => t;
|}.
Definition keys : list (list Z) := [replicate 32 7].
Definition env : ctl_env :=
  CtlEnv 1000 ToyFrame.src (Status 3 0x20 (str "lab") 6 200 (replicate 6 1) 0 60 (replicate 6 2) (replicate 7 0))
    (Hello (str "1.0") (str "A") 3 0x20 ToyFrame.src ToyFrame.dst [] []) true true (replicate 32 3) true (0, []) true true true true.
Definition start : ctl_t (E := list Z) :=
  control_start ToyFrame.nonce (Some (ToyFrame.key, replicate 32 3)) (l2fwd_init ToyFrame.src) (bota_init []).
Definition after : ctl_t * list (list Z) * list effect := control_item keys start env (IT_FRAME ToyFrame.signed).

Lemma after_effects : snd after = [EConfirm].
Proof. vm_compute. reflexivity. Qed.

(** The answer to the signed request is signed. *)
Example answer_signed :
  match snd (fst after) with
  | [f] => match bwp_parse f with
           | (BWP_PARSE_OK, Some m) => bwp_verify f m ToyFrame.key ToyFrame.nonce = (BWP_VERIFY_OK, Some 5) | _ => False end
  | _ => False
  end.
Proof. vm_compute. reflexivity. Qed.

(** An update: two chunks, the first one sent twice. *)
Definition img : list Z := ident ++ replicate 88 5.
Definition digest : list Z := Eval vm_compute in sha256_spec img.
Definition manifest : list Z :=
  manifest_head (Manifest 6 0 200 digest 1 2 2 1024 (replicate 8 7)) ++ replicate 64 7.
Definition chunks : list (list Z * nat) := [(take 120 img, 1%nat); (drop 120 img, 0%nat)].
Definition fields : fwsig_t := Eval vm_compute in default (FwSig 0 0 [] 0 0 []) (snd (fwsig_check (Some manifest) keys 6 200)).

Lemma manifest_checks : fwsig_check (Some manifest) keys FWSIG_TARGET_BRIDGE 200 = (FWSIG_OK, Some fields).
Proof. vm_compute. reflexivity. Qed.
Lemma first_chunk_own : is_own_image (take 120 img) = true.
Proof. vm_compute. reflexivity. Qed.
Lemma chunks_ok : Forall chunk_ok (map fst chunks).
Proof. repeat constructor; vm_compute; congruence. Qed.
Lemma chunks_whole : Z.of_nat (length (concat (map fst chunks))) = 200.
Proof. vm_compute. reflexivity. Qed.

(** The same update through the control channel: signed frames. *)
Definition frame (type counter : Z) (tlvs : list (Z * list Z)) : list Z :=
  default [] (bwp_finish (bwp_sign (puts (bwp_begin 1514 ToyFrame.src ToyFrame.dst type 1) tlvs) ToyFrame.key ToyFrame.nonce counter)).
Definition frames : list (list Z) := Eval vm_compute in
  [frame BWP_OTA_BEGIN 1 [(BWP_T_IMAGE_SIZE, put_be32 200); (BWP_T_SIGNATURE, manifest)];
   frame BWP_OTA_DATA 2 [(BWP_T_OFFSET, put_be32 0); (BWP_T_DATA, take 120 img)];
   frame BWP_OTA_DATA 3 [(BWP_T_OFFSET, put_be32 120); (BWP_T_DATA, drop 120 img)];
   frame BWP_OTA_END 4 []].
Definition serve (st : ctl_t (E := list Z)) (f : list Z) : ctl_t := fst (fst (control_item keys st env (IT_FRAME f))).
Definition served : ctl_t := fold_left serve frames start.

Lemma frames_bytes : Forall bytes_ok frames.
Proof. refine (bool_decide_unpack _ _). vm_compute. exact I. Qed.
Lemma served_calls :
  calls (bota served) = [CallBegin 200 0; CallWrite (take 120 img) 0; CallWrite (drop 120 img) 0; CallEnd 0] ++ CallSetBoot 0 :: [].
Proof. vm_compute. reflexivity. Qed.
Lemma serve_all fs st : Forall bytes_ok fs -> rtc (item_step keys) st (fold_left serve fs st).
Proof.
  intros Hf. revert st. induction Hf as [|f fs Hb _ IH]; intros st; [constructor|]. cbn [fold_left].
  eapply rtc_l; [|apply IH]. unfold serve. destruct (control_item keys st env (IT_FRAME f)) as [[s o] e] eqn:Ei.
  eapply item_step_intro; [exact Ei|]. by intros ? [= <-].
Qed.

End ToyBridge.
Import ToyBridge.

Lemma control_authenticated_witness :
  exists m, bwp_parse ToyFrame.signed = (BWP_PARSE_OK, Some m) /\
    ((exists c, fresh_signed ToyBridge.start ToyFrame.signed m c /\
        (last_counter (s_pair (fst (fst ToyBridge.after))) = c \/ stores_key (snd ToyBridge.after))) \/
     (paired (s_pair ToyBridge.start) = false /\ (m_type m = BWP_STATUS \/ m_type m = BWP_SCAN \/ m_type m = BWP_PAIR) /\
      Forall (fun e => harmless e = true) (snd ToyBridge.after))).
Proof.
  apply (control_authenticated ToyBridge.keys ToyBridge.start ToyBridge.env ToyFrame.signed _ (snd (fst ToyBridge.after))).
  - unfold ToyBridge.after. destruct (control_item _ _ _ _) as [[s o] e]. reflexivity.
  - rewrite ToyBridge.after_effects. discriminate.
Defined.

Lemma control_no_replay_witness :
  let '(st3, _, effs2) := control_item ToyBridge.keys (fst (fst ToyBridge.after)) ToyBridge.env (IT_FRAME ToyFrame.signed) in
  effs2 = [] /\ bota st3 = bota (fst (fst ToyBridge.after)) /\ s_pair st3 = s_pair (fst (fst ToyBridge.after)).
Proof.
  apply (control_no_replay ToyBridge.keys ToyBridge.start ToyBridge.env ToyFrame.signed (fst (fst ToyBridge.after))
    (snd (fst ToyBridge.after)) (snd ToyBridge.after) (fst (fst ToyBridge.after)) ToyBridge.env).
  - reflexivity.
  - unfold ToyBridge.after. destruct (control_item _ _ _ _) as [[s o] e]. reflexivity.
  - rewrite ToyBridge.after_effects. discriminate.
  - rewrite ToyBridge.after_effects. intros (k & pb & [Hx|[]]). discriminate.
  - constructor.
Defined.

Lemma ota_transfer_completes_witness :
  let '(st1, r1, _) := ota_begin ToyBridge.keys (bota_init []) 200 (Some ToyBridge.manifest) 0 in
  let '(st2, ok) := transfer 0 st1 0 ToyBridge.chunks in
  let '(st3, r3, _) := ota_end st2 in
  r1 = BWP_OK /\ ok = true /\
  (if bool_decide (sha256_spec (concat (map fst ToyBridge.chunks)) = g_sha256 ToyBridge.fields)
   then r3 = BWP_OK else r3 = BWP_E_OTA_VERIFY) /\
  q_active (s_seq st3) = false.
Proof.
  apply (ota_transfer_completes ToyBridge.keys 0) with (psize := 4096) (d := take 120 ToyBridge.img) (n := 1%nat)
    (cs' := [(drop 120 ToyBridge.img, 0%nat)]).
  - reflexivity.
  - reflexivity.
  - reflexivity.
  - reflexivity.
  - discriminate.
  - exact ToyBridge.manifest_checks.
  - reflexivity.
  - lia.
  - lia.
  - reflexivity.
  - exact ToyBridge.first_chunk_own.
  - exact ToyBridge.chunks_ok.
  - exact ToyBridge.chunks_whole.
Defined.

