(* ===== verification/OtaCommit.v ===== *)
(** * The in-place commit ([ota_commit.c])

    The running firmware is erased and rewritten from the image staged in PSRAM.
    The raw register paths are the class [CommitHw]: a burst from PSRAM, a sector
    erase, one quad-word program, the error flags, a flash byte, the CRC unit.
    Offsets are from [FLASH_BASE_ADDR]. *)

From S2P Require Import Prelude Flash FwSign BlobStore PsramRegions Ota BootGuard.

Abbreviation FLASH_SECTOR_BYTES := 0x2000.
Abbreviation FLASH_SECTOR_SHIFT := 13.
Abbreviation OTA_SCRATCH_REF_OFF := 0x1F0000.
Abbreviation OTA_RD_BURST := 128.
Abbreviation OTA_MAX_SECTORS := 128.
Abbreviation OTA_READ_TRIES := 3%nat.
Abbreviation OTA_SECTOR_TRIES := 3%nat.

Class CommitHw (H P : Type) := {
  hw_psram_burst : H -> P -> Z -> nat -> H * list Z;
  hw_erase : H -> bool -> Z -> H;                    (* the second bank, the sector in it *)
  hw_program_quad : H -> Z -> list Z -> H;
  hw_take_errors : H -> H * Z;
  hw_flash : H -> Z -> Z;
  crc_unit : list Z -> Z;
}.

Section commit.
Context {H P : Type} `{CommitHw H P}.

(** One sector of the flash. *)
Definition SECTOR : nat := Z.to_nat FLASH_SECTOR_BYTES.

(** The sector and the bank of an offset, with the chip's bank size. *)
Definition ram_flash_erase (s_bank_bytes : Z) (h : H) (off : Z) : H :=
  if off <? s_bank_bytes then hw_erase h false (Z.shiftr off FLASH_SECTOR_SHIFT)
  else hw_erase h true (Z.shiftr (off - s_bank_bytes) FLASH_SECTOR_SHIFT).

Fixpoint program_quads (k : nat) (h : H) (off : Z) (src : list Z) : H :=
  match k with O => h | S k' => program_quads k' (hw_program_quad h off (take 16 src)) (off + 16) (drop 16 src) end.

(** [len] rounded up to whole quad-words. *)
Definition ram_flash_program (h : H) (off : Z) (src : list Z) (len : Z) : H :=
  let nbytes := Z.shiftl (Z.shiftr (len + 15) 4) 4 in
  program_quads (Z.to_nat (Z.shiftr nbytes 4)) h off src.

Definition ram_crc32 (buf : list Z) : Z := crc_unit buf.

(** The bytes of a sector's part of the image, burst by burst. *)
Fixpoint read_bursts (fuel : nat) (h : H) (p : P) (addr off len : Z) : H * list Z :=
  match fuel with
  | O => (h, [])
  | S fuel' =>
      if len <=? off then (h, [])
      else
        let n := if OTA_RD_BURST <? len - off then OTA_RD_BURST else len - off in
        let '(h, b) := hw_psram_burst h p (addr + off) (Z.to_nat n) in
        let '(h, r) := read_bursts fuel' h p addr (off + OTA_RD_BURST) len in
        (h, b ++ r)
  end.

Definition sector_buf (bytes : list Z) : list Z := bytes ++ replicate (SECTOR - length bytes) 0xFF.

(** The buffer as left by the last try, and whether it matched. *)
Fixpoint read_tries (t : nat) (h : H) (p : P) (addr len crc : Z) (buf : list Z) : H * list Z * bool :=
  match t with
  | O => (h, buf, false)
  | S t' =>
      let '(h, bytes) := read_bursts (Z.to_nat (len / OTA_RD_BURST + 1)) h p addr 0 len in
      let buf := sector_buf bytes in
      if ram_crc32 buf =? crc then (h, buf, true) else read_tries t' h p addr len crc buf
  end.
Definition ram_read_checked (h : H) (p : P) (addr len crc : Z) : H * list Z * bool :=
  read_tries OTA_READ_TRIES h p addr len crc [].

Definition flash_holds (h : H) (off : Z) (buf : list Z) : bool :=
  bool_decide (bytes_at (hw_flash h) off (length buf) = buf).

Fixpoint sector_tries (t : nat) (s_bank_bytes : Z) (h : H) (off : Z) (buf : list Z) : H * bool :=
  match t with
  | O => (h, false)
  | S t' =>
      let '(h, _) := hw_take_errors h in
      let h := ram_flash_erase s_bank_bytes h off in
      let '(h, e1) := hw_take_errors h in
      let h := ram_flash_program h off buf FLASH_SECTOR_BYTES in
      let '(h, e2) := hw_take_errors h in
      if negb (Z.lor e1 e2 =? 0) then sector_tries t' s_bank_bytes h off buf
      else if flash_holds h off buf then (h, true)
      else sector_tries t' s_bank_bytes h off buf
  end.
Definition ram_flash_sector (s_bank_bytes : Z) (h : H) (off : Z) (buf : list Z) : H * bool :=
  sector_tries OTA_SECTOR_TRIES s_bank_bytes h off buf.

(** The image's bytes in sector [s]. *)
Definition sector_len (total s : Z) : Z :=
  let len := total - Z.shiftl s FLASH_SECTOR_SHIFT in if FLASH_SECTOR_BYTES <? len then FLASH_SECTOR_BYTES else len.

(** The pre-pass over the sectors from [s]; whether all matched. *)
Fixpoint check_sectors (k : nat) (s : Z) (h : H) (p : P) (total : Z) (crcs : list Z) : H * bool :=
  match k with
  | O => (h, true)
  | S k' =>
      let '(h, _, ok) := ram_read_checked h p (OTA_PSRAM_BASE + Z.shiftl s FLASH_SECTOR_SHIFT) (sector_len total s)
                           (nth (Z.to_nat s) crcs 0) in
      if ok then check_sectors k' (s + 1) h p total crcs else (h, false)
  end.

(** What became of one sector: its number, its buffer, whether the read matched
    and whether the write took. The C ignores both results. *)
Record sector_log := SectorLog { l_sector : Z; l_buf : list Z; l_read_ok : bool; l_write_ok : bool }.

Fixpoint write_sectors (k : nat) (s : Z) (s_bank_bytes : Z) (h : H) (p : P) (total : Z) (crcs : list Z) : H * list sector_log :=
  match k with
  | O => (h, [])
  | S k' =>
      let base := Z.shiftl s FLASH_SECTOR_SHIFT in
      let '(h, buf, rok) := ram_read_checked h p (OTA_PSRAM_BASE + base) (sector_len total s) (nth (Z.to_nat s) crcs 0) in
      let '(h, wok) := ram_flash_sector s_bank_bytes h base buf in
      let '(h, r) := write_sectors k' (s + 1) s_bank_bytes h p total crcs in
      (h, SectorLog s buf rok wok :: r)
  end.

(** [None]: refused, nothing erased; otherwise the chip resets, and the log says
    what each sector got. *)
Definition ram_commit_all (s_bank_bytes : Z) (h : H) (p : P) (nsectors total : Z) (crcs : list Z) : H * option (list sector_log) :=
  let '(h, ok) := check_sectors (Z.to_nat nsectors) 0 h p total crcs in
  if negb ok then (h, None)
  else let '(h, log) := write_sectors (Z.to_nat nsectors) 0 s_bank_bytes h p total crcs in (h, Some log).

End commit.

(** ** [ota_commit] *)

Section ota_commit.
Context {H P W : Type} `{CommitHw H P} `{Psram P} `{W25q W} `{Sha256}.

(** The CRC of every sector, read through the ordinary path. *)
Fixpoint sector_crcs (k : nat) (s : Z) (p : P) (total : Z) : option (list Z) :=
  match k with
  | O => Some []
  | S k' =>
      match psram_read p (OTA_PSRAM_BASE + s * FLASH_SECTOR_BYTES) (Z.to_nat (sector_len total s)) with
      | None => None
      | Some bytes =>
          match sector_crcs k' (s + 1) p total with
          | None => None
          | Some r => Some (ram_crc32 (sector_buf bytes) :: r)
          end
      end
  end.

Inductive commit_outcome :=
| CommitRefused                         (* -1, the firmware untouched *)
| CommitInstalled (rc : Z)              (* a blob target: ota_install_blob's result *)
| CommitReset (log : list sector_log).  (* the firmware rewritten, the chip resets *)

Definition n_sectors (total : Z) : Z := (total + (FLASH_SECTOR_BYTES - 1)) / FLASH_SECTOR_BYTES.

Definition ota_commit (env : ota_env P) (st : ota_t P W) (g : guard_t) (h : H) : ota_t P W * guard_t * H * commit_outcome :=
  if negb (bool_decide (s_state st = OTA_VERIFIED)) then (st, g, h, CommitRefused)
  else if negb (s_target st =? OTA_TARGET_FIRMWARE) then
    let '(st, rc, _) := ota_install_blob env st in (st, g, h, CommitInstalled rc)
  else
    let total := s_size st in
    let nsectors := n_sectors total in
    let '(st, _) := ota_store_fw_copy st in
    let '(st, rc) := ota_reverify_held st in
    if negb (rc =? 0) then (st, g, h, CommitRefused)
    else if OTA_MAX_SECTORS <? nsectors then (st, g, h, CommitRefused)
    else
      match sector_crcs (Z.to_nat nsectors) 0 (ps st) total with
      | None => (st, g, h, CommitRefused)
      | Some crcs =>
          let g1 := boot_guard_planned_reset g true in
          match ram_commit_all (flash_layout_bank_size (flash_size env)) h (ps st) nsectors total crcs with
          | (h, None) => (st, boot_guard_planned_reset g1 false, h, CommitRefused)
          | (h, Some log) => (st, g1, h, CommitReset log)
          end
      end.

End ota_commit.
