(* ===== verification/OtaCommitTheorems.v ===== *)
(** * What the in-place commit does to the flash *)

From S2P Require Import Prelude Flash FwSign BlobStore BlobTheorems PsramRegions Ota OtaSession OtaTheorems BootGuard OtaCommit.

(** The raw paths: a burst has the length asked for; reads and flag accesses leave
    the flash alone; an erase and a program change their range only. *)
Class CommitLaws (H P : Type) `{CommitHw H P} := {
  hw_bank : Z;
  bank_sectors : hw_bank mod FLASH_SECTOR_BYTES = 0;
  burst_length (h : H) (p : P) a n : length (snd (hw_psram_burst h p a n)) = n;
  burst_flash (h : H) (p : P) a n x : hw_flash (P := P) (fst (hw_psram_burst h p a n)) x = hw_flash (P := P) h x;
  errors_flash (h : H) x : hw_flash (P := P) (fst (hw_take_errors (P := P) h)) x = hw_flash (P := P) h x;
  erase_out (h : H) (b : bool) s x :
    ~ ((if b then hw_bank else 0) + s * FLASH_SECTOR_BYTES <= x < (if b then hw_bank else 0) + (s + 1) * FLASH_SECTOR_BYTES) ->
    hw_flash (P := P) (hw_erase (P := P) h b s) x = hw_flash (P := P) h x;
  program_out (h : H) off q x : ~ (off <= x < off + 16) ->
    hw_flash (P := P) (hw_program_quad (P := P) h off q) x = hw_flash (P := P) h x;
}.

Section commit.
Context {H P : Type} {HW : CommitHw H P} {CL : CommitLaws H P}.
Implicit Types (h : H) (p : P).

Definition same_flash h h' : Prop := forall x, hw_flash (P := P) h' x = hw_flash (P := P) h x.
Definition same_outside (a b : Z) h h' : Prop := forall x, ~ (a <= x < b) -> hw_flash (P := P) h' x = hw_flash (P := P) h x.

Lemma same_outside_trans a b h1 h2 h3 : same_outside a b h1 h2 -> same_outside a b h2 h3 -> same_outside a b h1 h3.
Proof. intros E1 E2 x Hx. by rewrite E2, E1. Qed.

Lemma same_flash_outside a b h h' : same_flash h h' -> same_outside a b h h'.
Proof. intros E x _. apply E. Qed.

Lemma sector_size : Z.of_nat SECTOR = FLASH_SECTOR_BYTES.
Proof. done. Qed.

Lemma erase_sector_only h off :
  off mod FLASH_SECTOR_BYTES = 0 -> same_outside off (off + FLASH_SECTOR_BYTES) h (ram_flash_erase (P := P) hw_bank h off).
Proof.
  intros Ha x Hx. unfold ram_flash_erase. rewrite !Z.shiftr_div_pow2 by lia. change (2 ^ 13) with 0x2000.
  pose proof bank_sectors as Hb. destruct (Z.ltb_spec off hw_bank); apply erase_out; Z.div_mod_to_equations; lia.
Qed.

Lemma program_quads_only k h off src : same_outside off (off + 16 * Z.of_nat k) h (program_quads (P := P) k h off src).
Proof.
  revert h off src. induction k as [|k IH]; intros h off src; [done|]. cbn [program_quads]. intros x Hx.
  rewrite IH by lia. apply program_out. lia.
Qed.

Lemma program_sector_only h off buf :
  same_outside off (off + FLASH_SECTOR_BYTES) h (ram_flash_program (P := P) h off buf FLASH_SECTOR_BYTES).
Proof. intros x Hx. unfold ram_flash_program. apply program_quads_only. exact Hx. Qed.

Lemma sector_tries_spec t h off buf h' ok :
  off mod FLASH_SECTOR_BYTES = 0 -> length buf = SECTOR -> sector_tries (P := P) t hw_bank h off buf = (h', ok) ->
  same_outside off (off + FLASH_SECTOR_BYTES) h h' /\ (ok = true -> bytes_at (hw_flash (P := P) h') off SECTOR = buf).
Proof.
  intros Ha Hl. revert h. induction t as [|t IH]; intros h; cbn [sector_tries]; [by intros [= <- <-]|].
  destruct (hw_take_errors h) as [h1 e0] eqn:E1. set (h2 := ram_flash_erase hw_bank h1 off).
  destruct (hw_take_errors h2) as [h3 e1] eqn:E3. set (h4 := ram_flash_program h3 off buf _).
  destruct (hw_take_errors h4) as [h5 e2] eqn:E5.
  assert (Hs : same_outside off (off + FLASH_SECTOR_BYTES) h h5).
  { assert (F1 : same_outside off (off + FLASH_SECTOR_BYTES) h h1)
      by (intros x _; pose proof (errors_flash h x) as F; by rewrite E1 in F).
    assert (F3 : same_outside off (off + FLASH_SECTOR_BYTES) h2 h3)
      by (intros x _; pose proof (errors_flash h2 x) as F; by rewrite E3 in F).
    assert (F5 : same_outside off (off + FLASH_SECTOR_BYTES) h4 h5)
      by (intros x _; pose proof (errors_flash h4 x) as F; by rewrite E5 in F).
    eapply same_outside_trans; [exact F1|]. eapply same_outside_trans; [by apply (erase_sector_only h1 off)|].
    eapply same_outside_trans; [exact F3|]. eapply same_outside_trans; [apply (program_sector_only h3 off buf)|]. exact F5. }
  destruct (negb _).
  { intros Et. apply IH in Et as [Hs' Hok]. split; [by eapply same_outside_trans|done]. }
  unfold flash_holds. rewrite Hl. case_bool_decide as Hh; [by intros [= <- <-]|].
  intros Et. apply IH in Et as [Hs' Hok]. split; [by eapply same_outside_trans|done].
Qed.

Lemma read_bursts_spec fuel h p addr off len h' bytes :
  0 <= off -> len - off <= OTA_RD_BURST * Z.of_nat fuel -> read_bursts fuel h p addr off len = (h', bytes) ->
  same_flash h h' /\ Z.of_nat (length bytes) = Z.max 0 (len - off).
Proof.
  revert h off bytes. induction fuel as [|fuel IH]; intros h off bytes H0 Hf; cbn [read_bursts].
  { intros [= <- <-]. split; [done|]. cbn [length]. lia. }
  destruct (Z.leb_spec len off); [intros [= <- <-]; split; [done|cbn [length]; lia]|].
  set (n := if OTA_RD_BURST <? len - off then OTA_RD_BURST else len - off).
  destruct (hw_psram_burst h p (addr + off) (Z.to_nat n)) as [h1 b] eqn:Eb.
  destruct (read_bursts fuel h1 p addr (off + OTA_RD_BURST) len) as [h2 r] eqn:Er. intros [= <- <-].
  apply IH in Er as [Hs Hl]; [|lia..]. split.
  - intros x. rewrite Hs. pose proof (burst_flash h p (addr + off) (Z.to_nat n) x) as F. by rewrite Eb in F.
  - rewrite length_app. pose proof (burst_length h p (addr + off) (Z.to_nat n)) as F. rewrite Eb in F. cbn [snd] in F.
    subst n. destruct (Z.ltb_spec OTA_RD_BURST (len - off)); lia.
Qed.

Lemma sector_buf_length bytes : (length bytes <= SECTOR)%nat -> length (sector_buf bytes) = SECTOR.
Proof. intros Hl. unfold sector_buf. rewrite length_app, length_replicate. lia. Qed.

Lemma read_tries_spec t h p addr len crc buf0 h' buf ok :
  0 <= len <= FLASH_SECTOR_BYTES -> read_tries t h p addr len crc buf0 = (h', buf, ok) ->
  same_flash h h' /\ (t <> 0%nat -> length buf = SECTOR) /\ (ok = true -> crc_unit (H := H) (P := P) buf = crc).
Proof.
  intros Hlen. revert h buf0. induction t as [|t IH]; intros h buf0; cbn [read_tries]; [by intros [= <- <- <-]|].
  destruct (read_bursts _ h p addr 0 len) as [h1 bytes] eqn:Eb.
  apply read_bursts_spec in Eb as [Hs Hl]; [|lia|Z.div_mod_to_equations; lia].
  assert (Hsec : length (sector_buf bytes) = SECTOR)
    by (apply sector_buf_length; pose proof sector_size; lia).
  unfold ram_crc32. destruct (Z.eqb_spec (crc_unit (sector_buf bytes)) crc) as [Ec|]; [by intros [= <- <- <-]|].
  intros Et. destruct t as [|t].
  - cbn [read_tries] in Et. injection Et as <- <- <-. done.
  - apply IH in Et as (Hs' & Hl' & Hok). split; [intros x; by rewrite Hs', Hs|]. split; [intros _; by apply Hl'|done].
Qed.

Lemma sector_len_range total s : 0 <= s -> s < n_sectors total -> 0 <= sector_len total s <= FLASH_SECTOR_BYTES.
Proof.
  unfold sector_len, n_sectors. rewrite Z.shiftl_mul_pow2 by lia. change (2 ^ 13) with 0x2000. intros H0' Hs.
  destruct (Z.ltb_spec FLASH_SECTOR_BYTES (total - s * 0x2000)); Z.div_mod_to_equations; lia.
Qed.

Lemma check_sectors_flash k s h p total crcs h' ok :
  0 <= s -> s + Z.of_nat k <= n_sectors total -> check_sectors k s h p total crcs = (h', ok) -> same_flash h h'.
Proof.
  revert s h. induction k as [|k IH]; intros s h H0 Hk; cbn [check_sectors]; [by intros [= <- _]|].
  destruct (ram_read_checked _ _ _ _ _) as [[h1 buf] ok1] eqn:Er.
  apply read_tries_spec in Er as (Hs & _); [|apply sector_len_range; lia].
  destruct ok1; [|by intros [= <- _]]. intros Ec. apply IH in Ec; [|lia..]. intros x. by rewrite Ec, Hs.
Qed.

Lemma shift_sector s : Z.shiftl s FLASH_SECTOR_SHIFT = s * FLASH_SECTOR_BYTES.
Proof. by rewrite Z.shiftl_mul_pow2 by lia. Qed.

(** The second pass: nothing outside its sectors changes, and each sector whose
    write took holds its buffer at the end, however many follow. *)
Lemma write_sectors_spec k s h p total crcs h' log :
  0 <= s -> s + Z.of_nat k <= n_sectors total -> write_sectors k s hw_bank h p total crcs = (h', log) ->
  same_outside (s * FLASH_SECTOR_BYTES) ((s + Z.of_nat k) * FLASH_SECTOR_BYTES) h h' /\
  map l_sector log = map (fun i => s + Z.of_nat i) (seq 0 k) /\
  Forall (fun l => (l_write_ok l = true -> bytes_at (hw_flash (P := P) h') (l_sector l * FLASH_SECTOR_BYTES) SECTOR = l_buf l) /\
                   (l_read_ok l = true -> crc_unit (H := H) (P := P) (l_buf l) = nth (Z.to_nat (l_sector l)) crcs 0)) log.
Proof.
  revert s h log. induction k as [|k IH]; intros s h log H0 Hk; cbn [write_sectors].
  { intros [= <- <-]. by split_and!. }
  rewrite shift_sector. destruct (ram_read_checked _ _ _ _ _) as [[h1 buf] rok] eqn:Er.
  apply read_tries_spec in Er as (Hs1 & Hl & Hc); [|apply sector_len_range; lia]. specialize (Hl ltac:(done)).
  destruct (ram_flash_sector hw_bank h1 _ buf) as [h2 wok] eqn:Ew.
  apply sector_tries_spec in Ew as [Hs2 Hw]; [|by apply Z.mod_mul|done].
  destruct (write_sectors k (s + 1) hw_bank h2 p total crcs) as [h3 r] eqn:Er. intros [= <- <-].
  apply IH in Er as (Hs3 & Hm & Hf); [|lia..]. split_and!.
  - intros x Hx. rewrite Hs3 by lia. rewrite Hs2 by lia. apply Hs1.
  - cbn [map l_sector seq]. f_equal; [lia|]. rewrite Hm, <- seq_shift, map_map. apply map_ext. intros i. lia.
  - constructor; [|done]. cbn [l_write_ok l_sector l_buf l_read_ok]. split; [|done]. intros Hk'. rewrite <- (Hw Hk').
    apply bytes_at_eq. intros x Hx. apply Hs3. rewrite sector_size in Hx. lia.
Qed.

End commit.

Section ota_commit.
Context {H P W : Type} {HW : CommitHw H P} {CL : CommitLaws H P} {PI : Psram P} {PL : PsramLaws P} {WI : W25q W} {SH : Sha256}.
Context (env : ota_env P).
Implicit Types (st : ota_t P W) (h : H).

(** The image's part of a sector, padded as the code pads it. *)
Definition image_sector (p : P) (total s : Z) : list Z :=
  sector_buf (p_content p (OTA_PSRAM_BASE + s * FLASH_SECTOR_BYTES) (Z.to_nat (sector_len total s))).

Lemma sector_crcs_spec k s p total crcs :
  sector_crcs (H := H) k s p total = Some crcs ->
  length crcs = k /\
  forall i, (i < k)%nat -> nth i crcs 0 = crc_unit (H := H) (P := P) (image_sector p total (s + Z.of_nat i)).
Proof.
  revert s crcs. induction k as [|k IH]; intros s crcs; cbn [sector_crcs]; [intros [= <-]; split; [done|lia]|].
  destruct (psram_read p _ _) as [bytes|] eqn:Er; [|done]. destruct (sector_crcs k (s + 1) p total) as [r|] eqn:Ec; [|done].
  intros [= <-]. apply IH in Ec as [Hl Hn]. apply p_read in Er. split; [cbn; lia|]. intros [|i] Hi; cbn [nth].
  - rewrite Z.add_0_r. unfold ram_crc32, image_sector, p_content, bytes_at. by rewrite Er.
  - rewrite Hn by lia. by replace (s + 1 + Z.of_nat i) with (s + Z.of_nat (S i)) by lia.
Qed.

Lemma reverify_spec st st' :
  ota_reverify_held st = (st', 0) ->
  ps st' = ps st /\ s_size st' = s_size st /\ s_expect st' = s_expect st /\
  sha256 (p_content (ps st) OTA_PSRAM_BASE (Z.to_nat (s_size st))) = s_expect st.
Proof.
  unfold ota_reverify_held, staged_hash_check. destruct (negb _); [done|].
  destruct (staged st) as [bs|] eqn:Eb; [|done]. pose proof (staged_content st bs Eb) as ->.
  case_bool_decide; [|done]. cbn. by intros [= <-].
Qed.

Lemma store_copy_same st : let '(st', _) := ota_store_fw_copy st in
  ps st' = ps st /\ s_size st' = s_size st /\ s_expect st' = s_expect st /\ s_state st' = s_state st /\ s_target st' = s_target st.
Proof. unfold ota_store_fw_copy. destruct (_ || _); [done|]. by destruct (blob_store_write _ _ _ _ _ _). Qed.


End ota_commit.

(** ** A concrete commit: one sector, its first write torn *)

Module ToyCommit.
Import BlobTheorems.Toy ToyPod.

(** The flash, and how many programs still fail. *)
Definition flash := ((Z -> Z) * Z)%type.
#[export] Instance hw : CommitHw flash psram := {
  hw_psram_burst h p a n := (h, bytes_at p a n);
  hw_erase h b s :=
    let base := (if b then 0x100000 else 0) + s * FLASH_SECTOR_BYTES in
    (fun x => if decide (base <= x < base + FLASH_SECTOR_BYTES) then 0xFF else fst h x, snd h);
  hw_program_quad h off q :=
    if 0 <? snd h then (fst h, snd h - 1)
    else (fun x => if decide (off <= x < off + 16) then nth (Z.to_nat (x - off)) q 0 else fst h x, 0);
  hw_take_errors h := (h, 0);
  hw_flash h := fst h;
  crc_unit l := fold_left Z.add l 0;
}.
#[export, refine] Instance hw_laws : CommitLaws flash psram := {| hw_bank := 0x100000 |}.
Proof.
  - reflexivity.
  - intros h p a n. apply bytes_at_length.
  - done.
  - done.
  - intros h b s x Hx. cbn. case_decide; [|done]. exfalso. apply Hx. lia.
  - intros h off q x Hx. cbn. destruct (0 <? snd h); [done|]. cbn. by case_decide.
Defined.

Definition staged_pod : ota_t psram chip :=
  {| pod with s_state := OTA_VERIFIED; s_size := 3; s_expect := digest; ps := fst (psram_write zeros 0 data) |}.
Definition running : flash := (fun _ => 0x5A, 1).
Definition guard : guard_t := boot_guard_begin (BootRecord 0 0 0 0 0 0 0) (BootTest 0 0 0) true None.
Abbreviation committed := (ota_commit env staged_pod guard running).

Lemma staged_size : 0 <= s_size staged_pod.
Proof. vm_compute. discriminate. Qed.

(** The first write of the sector is torn, the second one takes. *)
Example committed_ok :
  match committed with
  | (_, _, h, CommitReset [l]) =>
      (l_read_ok l, l_write_ok l) = (true, true) /\ bytes_at (hw_flash (P := psram) h) 0 4 = data ++ [0xFF] /\ hw_flash (P := psram) h 8192 = 0x5A
  | _ => False
  end.
Proof. vm_compute. done. Qed.
End ToyCommit.
Import BlobTheorems.Toy ToyPod ToyCommit.

