(* ===== verification/Worker.v ===== *)
(** * The hardware worker's queue ([hw_worker.c])

    The net and console tasks submit work, one task carries it out. A step is one
    submission or one step of the worker; tasks interleave as sequences of steps.
    The command handlers are the trace [handled] of what was carried out. *)

From S2P Require Import Prelude.

Abbreviation HW_WORK_DATA_MAX := 1536%nat.
Abbreviation HW_WORK_QUEUE_DEPTH := 16%nat.
Abbreviation HW_PEND_IDS := 16.
Abbreviation PEND_CLOSED := 1.
Abbreviation PEND_RESET := 2.
Abbreviation BP_TUNNEL_ID_MAX := 64%nat.

(** [cmd_work_t]; the update items carry their owner, the [u32] and the data. *)
Inductive ota_work := OwBegin | OwData | OwEnd | OwAbort | OwCommit.
Inductive work :=
| WkBytes (conn_id : Z) (data : list Z)
| WkConsole (line : list Z)
| WkCloud (req_id json : list Z)
| WkClosed (conn_id : Z)
| WkTunnelReset (conn_id : Z)
| WkOta (kind : ota_work) (owner u32 : Z) (data : list Z)
| WkEspFlash.

(** What the worker did, as the command handler sees it. *)
Inductive event :=
| EvBytes (conn_id : Z) (data : list Z) | EvConsole (line : list Z) | EvCloud (req_id json : list Z)
| EvClosed (conn_id : Z) | EvReset (conn_id : Z) | EvOta (kind : ota_work) (owner u32 : Z) (data : list Z) | EvEspFlash.

Record worker_t := Worker {
  q : list work; s_inflight : list Z; s_parked : list Z;
  s_cloud_pending : bool; s_cloud_ready : bool; s_cloud_req_id : list Z; s_cloud_reply : list Z;
  handled : list event;
}.

Definition worker_init : worker_t := Worker [] (replicate 16 0) (replicate 16 0) false false [] [] [].

(** [submit_u] with no wait: the item, or nothing when the queue is full. *)
Definition submit (st : worker_t) (w : work) : worker_t * bool :=
  if (length (q st) <? HW_WORK_QUEUE_DEPTH)%nat then ({| st with q := q st ++ [w] |}, true) else (st, false).

Definition clamp_data (buf : list Z) : list Z := take HW_WORK_DATA_MAX buf.

Definition pend_id (conn_id : Z) : bool := (0 <=? conn_id) && (conn_id <? HW_PEND_IDS).
Definition pend (l : list Z) (conn_id : Z) : Z := nth (Z.to_nat conn_id) l 0.
Definition pend_or (l : list Z) (conn_id bit : Z) : list Z := <[Z.to_nat conn_id := Z.lor (pend l conn_id) bit]> l.
Definition pend_clear (l : list Z) (conn_id bit : Z) : list Z := <[Z.to_nat conn_id := Z.land (pend l conn_id) (255 - bit)]> l.

Definition hw_worker_submit_bytes (st : worker_t) (conn_id : Z) (buf : list Z) : worker_t * bool :=
  if pend_id conn_id && negb (pend (s_parked st) conn_id =? 0) then (st, false)
  else submit st (WkBytes conn_id (clamp_data buf)).

Definition hw_worker_can_accept (st : worker_t) (len : nat) : bool :=
  let segs := ((len + (HW_WORK_DATA_MAX - 1)) / HW_WORK_DATA_MAX)%nat in
  let segs := if (segs =? 0)%nat then 1%nat else segs in
  (segs <=? HW_WORK_QUEUE_DEPTH - length (q st))%nat.

Definition submit_teardown (st : worker_t) (item : Z -> work) (bit conn_id : Z) : worker_t :=
  if negb (pend_id conn_id) then fst (submit st (item conn_id))
  else
    let st := {| st with s_inflight := pend_or (s_inflight st) conn_id bit |} in
    let '(st', sent) := if pend (s_parked st) conn_id =? 0 then submit st (item conn_id) else (st, false) in
    if sent then st' else {| st with s_parked := pend_or (s_parked st) conn_id bit |}.

Definition hw_worker_submit_closed (st : worker_t) (conn_id : Z) : worker_t := submit_teardown st WkClosed PEND_CLOSED conn_id.
Definition hw_worker_submit_tunnel_reset (st : worker_t) (conn_id : Z) : worker_t :=
  submit_teardown st WkTunnelReset PEND_RESET conn_id.

Definition hw_worker_conn_busy (st : worker_t) (conn_id : Z) : bool :=
  pend_id conn_id && negb (pend (s_inflight st) conn_id =? 0).

Definition teardown_done (st : worker_t) (conn_id bit : Z) : worker_t :=
  if negb (pend_id conn_id) then st else {| st with s_inflight := pend_clear (s_inflight st) conn_id bit |}.

Definition log (st : worker_t) (e : event) : worker_t := {| st with handled := handled st ++ [e] |}.

(** The teardowns parked for one id. *)
Definition apply_one (st : worker_t) (id : Z) : worker_t :=
  let bits := pend (s_parked st) id in
  if bits =? 0 then st
  else
    let st := {| st with s_parked := <[Z.to_nat id := 0]> (s_parked st) |} in
    let st := if Z.land bits PEND_CLOSED =? 0 then st else teardown_done (log st (EvClosed id)) id PEND_CLOSED in
    if Z.land bits PEND_RESET =? 0 then st else teardown_done (log st (EvReset id)) id PEND_RESET.

Definition apply_parked_teardowns (st : worker_t) : worker_t :=
  if negb (length (q st) =? 0)%nat then st else fold_left apply_one (map Z.of_nat (seq 0 16)) st.

Definition hw_worker_submit_cloud (st : worker_t) (req_id json : list Z) : worker_t * bool :=
  if s_cloud_pending st || s_cloud_ready st then (st, false)
  else
    let '(st', ok) := submit {| st with s_cloud_pending := true |} (WkCloud (take (BP_TUNNEL_ID_MAX - 1) req_id) (clamp_data json)) in
    if ok then (st', true) else ({| st' with s_cloud_pending := false |}, false).

(** The console waits for room; here it is tried once there is some, or gave up. *)
Definition hw_worker_submit_console (st : worker_t) (line : list Z) : worker_t * bool := submit st (WkConsole (clamp_data line)).

Definition hw_worker_submit_ota (st : worker_t) (kind : ota_work) (owner u32 : Z) (data : list Z) : worker_t * bool :=
  submit st (WkOta kind owner u32 (clamp_data data)).
Definition hw_worker_submit_esp_flash (st : worker_t) : worker_t * bool := submit st WkEspFlash.

(** The request's id and the reply, once. *)
Definition hw_worker_take_cloud_reply (st : worker_t) (reply_cap : nat) : worker_t * option (list Z * list Z) :=
  if negb (s_cloud_ready st) then (st, None)
  else ({| st with s_cloud_ready := false; s_cloud_pending := false |},
        Some (s_cloud_req_id st, take (reply_cap - 1) (s_cloud_reply st))).

Definition hw_worker_cloud_pending (st : worker_t) : bool := s_cloud_pending st.

Section worker.
(** [command_handler_dispatch_cloud]: a command line to its reply. *)
Variable dispatch_cloud : list Z -> list Z.

Definition handle_work (st : worker_t) (w : work) : worker_t :=
  match w with
  | WkBytes conn_id data => log st (EvBytes conn_id data)
  | WkConsole line => log st (EvConsole line)
  | WkCloud req_id json =>
      let st := log st (EvCloud req_id json) in
      {| st with s_cloud_reply := dispatch_cloud json; s_cloud_req_id := req_id; s_cloud_ready := true |}
  | WkClosed conn_id => teardown_done (log st (EvClosed conn_id)) conn_id PEND_CLOSED
  | WkTunnelReset conn_id => teardown_done (log st (EvReset conn_id)) conn_id PEND_RESET
  | WkOta kind owner u32 data => log st (EvOta kind owner u32 data)
  | WkEspFlash => log st EvEspFlash
  end.

(** One [xQueueReceive] with its [handle_work]. *)
Definition worker_receive (st : worker_t) : worker_t :=
  match q st with [] => st | w :: q' => handle_work {| st with q := q' |} w end.

(** One turn of the task's loop: a bounded batch, then the parked teardowns. *)
Fixpoint drain (k : nat) (st : worker_t) : worker_t := match k with O => st | S k' => drain k' (worker_receive st) end.
Definition worker_turn (st : worker_t) : worker_t := apply_parked_teardowns (drain HW_WORK_QUEUE_DEPTH st).

(** ** Steps of all tasks *)

(** The size of the buffer the cloud client takes a reply into. *)
Variable reply_cap : nat.

Inductive wop :=
| OpBytes (conn_id : Z) (buf : list Z) | OpClosed (conn_id : Z) | OpReset (conn_id : Z) | OpConsole (line : list Z)
| OpCloud (req_id json : list Z) | OpOta (kind : ota_work) (owner u32 : Z) (data : list Z) | OpEspFlash
| OpTake | OpReceive | OpApply.

Definition wstep (st : worker_t) (o : wop) : worker_t :=
  match o with
  | OpBytes c b => fst (hw_worker_submit_bytes st c b)
  | OpClosed c => hw_worker_submit_closed st c
  | OpReset c => hw_worker_submit_tunnel_reset st c
  | OpConsole l => fst (hw_worker_submit_console st l)
  | OpCloud r j => fst (hw_worker_submit_cloud st r j)
  | OpOta k o u d => fst (hw_worker_submit_ota st k o u d)
  | OpEspFlash => fst (hw_worker_submit_esp_flash st)
  | OpTake => fst (hw_worker_take_cloud_reply st reply_cap)
  | OpReceive => worker_receive st
  | OpApply => apply_parked_teardowns st
  end.

Definition wrun (st : worker_t) (ops : list wop) : worker_t := fold_left wstep ops st.
End worker.

(** Two resets of one tunnel in flight (its opening and its closing): the first
    one handled clears the id's flag, so the slot no longer counts as busy while
    bytes of the old session and its closing reset are still queued. *)
Example busy_cleared_early :
  let st := wrun (fun _ => []) 64 worker_init [OpReset 7; OpBytes 7 (str "old"); OpReset 7; OpReceive] in
  hw_worker_conn_busy st 7 = false /\ q st = [WkBytes 7 (str "old"); WkTunnelReset 7].
Proof. vm_compute. done. Qed.

(** ** Per connection: what was accepted, what was done, what is pending *)

(** A connection's history: its bytes in order, and its teardowns. *)
Inductive cev := CB (data : list Z) | CT.

Definition of_event (c : Z) (e : event) : list cev :=
  match e with
  | EvBytes c' d => if c' =? c then [CB d] else []
  | EvClosed c' | EvReset c' => if c' =? c then [CT] else []
  | _ => []
  end.
Definition of_work (c : Z) (w : work) : list cev :=
  match w with
  | WkBytes c' d => if c' =? c then [CB d] else []
  | WkClosed c' | WkTunnelReset c' => if c' =? c then [CT] else []
  | _ => []
  end.

Definition done_of (c : Z) (st : worker_t) : list cev := concat (map (of_event c) (handled st)).
Definition queued_of (c : Z) (st : worker_t) : list cev := concat (map (of_work c) (q st)).
Definition parked_of (c : Z) (st : worker_t) : list cev := if pend (s_parked st) c =? 0 then [] else [CT].

(** Teardowns in a row are one: the state is gone after the first. *)
Inductive same_history : list cev -> list cev -> Prop :=
| sh_refl l : same_history l l
| sh_sym l l' : same_history l l' -> same_history l' l
| sh_trans l1 l2 l3 : same_history l1 l2 -> same_history l2 l3 -> same_history l1 l3
| sh_dup l1 l2 : same_history (l1 ++ CT :: CT :: l2) (l1 ++ CT :: l2).

#[export] Instance same_history_equiv : Equivalence same_history.
Proof. split; [exact sh_refl|exact sh_sym|exact sh_trans]. Qed.

#[export] Instance same_history_app : Proper (same_history ==> eq ==> same_history) (@app cev).
Proof.
  intros l l' Hl r _ <-. induction Hl as [l|l l' _ IH|l1 l2 l3 _ IH1 _ IH2|l1 l2].
  - reflexivity.
  - by symmetry.
  - by etrans.
  - rewrite <- !app_assoc. apply sh_dup.
Qed.

(** The history an accepted operation adds. *)
Definition accepted (c : Z) (st : worker_t) (o : wop) : list cev :=
  match o with
  | OpBytes c' b => if (c' =? c) && snd (hw_worker_submit_bytes st c' b) then [CB (clamp_data b)] else []
  | OpClosed c' | OpReset c' => if c' =? c then [CT] else []
  | _ => []
  end.

Fixpoint history (dispatch : list Z -> list Z) (cap : nat) (c : Z) (st : worker_t) (ops : list wop) : list cev :=
  match ops with [] => [] | o :: ops' => accepted c st o ++ history dispatch cap c (wstep dispatch cap st o) ops' end.

Definition pend_len (st : worker_t) : Prop := length (s_parked st) = 16%nat /\ length (s_inflight st) = 16%nat.

Lemma pend_insert_eq l c v : 0 <= c < 16 -> length l = 16%nat -> pend (<[Z.to_nat c := v]> l) c = v.
Proof. intros Hc Hl. unfold pend. apply nth_lookup_Some. apply list_lookup_insert_eq. lia. Qed.

Lemma pend_insert_ne l c c' v : 0 <= c -> 0 <= c' -> c <> c' -> pend (<[Z.to_nat c := v]> l) c' = pend l c'.
Proof.
  intros H0 H0' Hne. unfold pend. rewrite !nth_lookup. by rewrite list_lookup_insert_ne by lia.
Qed.

Lemma done_log c st e : done_of c (log st e) = done_of c st ++ of_event c e.
Proof.
  unfold done_of, log. destruct st. cbn [handled]. rewrite map_app, concat_app. cbn [map concat]. by rewrite app_nil_r.
Qed.

Definition same_work (st st' : worker_t) : Prop := q st' = q st /\ s_parked st' = s_parked st /\ handled st' = handled st.

(** The states that differ in the flags only. *)
Lemma same_work_hist c st st' : same_work st st' ->
  done_of c st' = done_of c st /\ queued_of c st' = queued_of c st /\ parked_of c st' = parked_of c st.
Proof. intros (E1 & E2 & E3). unfold done_of, queued_of, parked_of. by rewrite E1, E2, E3. Qed.

Definition pending_of (c : Z) (st : worker_t) : list cev := queued_of c st ++ parked_of c st.

Lemma submit_queue c st w :
  let '(st', ok) := submit st w in
  done_of c st' = done_of c st /\ s_parked st' = s_parked st /\ s_inflight st' = s_inflight st /\
  queued_of c st' = queued_of c st ++ (if ok then of_work c w else []).
Proof.
  unfold submit. destruct (_ <? _)%nat; destruct st; cbn; unfold done_of, queued_of; cbn [q handled].
  - split_and!; try done. rewrite map_app, concat_app. cbn [map concat]. by rewrite app_nil_r.
  - split_and!; try done. by rewrite app_nil_r.
Qed.

Lemma lor_nonzero a b : 0 <= a -> 0 < b -> Z.lor a b <> 0.
Proof. intros Ha Hb E. apply Z.lor_eq_0_iff in E. lia. Qed.

(** ** Each step keeps every connection's history *)

Section steps.
Variable dispatch_cloud : list Z -> list Z.

Definition pend_wf (st : worker_t) : Prop :=
  length (s_parked st) = 16%nat /\ length (s_inflight st) = 16%nat /\ (forall c, 0 <= c < 16 -> 0 <= pend (s_parked st) c <= 3).

(** Nothing of an id waits in the queue behind a parked teardown of it. *)
Definition hist_ok (c : Z) (st st' : worker_t) (new : list cev) : Prop :=
  same_history (done_of c st' ++ pending_of c st') ((done_of c st ++ pending_of c st) ++ new).

Lemma teardown_hist c st (item : Z -> work) bit c' :
  (item = WkClosed /\ bit = PEND_CLOSED \/ item = WkTunnelReset /\ bit = PEND_RESET) ->
  pend_wf st -> 0 <= c < 16 ->
  pend_wf (submit_teardown st item bit c') /\ hist_ok c st (submit_teardown st item bit c') (if c' =? c then [CT] else []).
Proof.
  intros Hit (Hl1 & Hl2 & Hp) Hc. unfold submit_teardown, hist_ok.
  assert (Hw : forall x, of_work c (item x) = if x =? c then [CT] else []) by (intros; by destruct Hit as [[-> _]|[-> _]]).
  assert (Hbit : 0 < bit <= 2) by (destruct Hit as [[_ ->]|[_ ->]]; lia).
  unfold pend_id. destruct (Z.leb_spec 0 c') as [H0|H0], (Z.ltb_spec c' HW_PEND_IDS) as [H1|H1]; cbn [andb negb].
  2-4: pose proof (submit_queue c st (item c')) as Hq; destruct (submit st (item c')) as [st' ok]; destruct Hq as (E1 & E2 & E3 & E4);
    cbn [fst]; (split; [unfold pend_wf; by rewrite E2, E3|]); unfold pending_of, parked_of; rewrite E1, E2, E4;
    replace (c' =? c) with false by (symmetry; apply Z.eqb_neq; lia); rewrite Hw;
    replace (c' =? c) with false by (symmetry; apply Z.eqb_neq; lia); destruct ok; by rewrite !app_nil_r.
  set (st1 := {| st with s_inflight := pend_or (s_inflight st) c' bit |}).
  assert (Hs1 : done_of c st1 = done_of c st /\ queued_of c st1 = queued_of c st /\ s_parked st1 = s_parked st /\
    length (s_inflight st1) = 16%nat) by (destruct st; cbn in *; unfold pend_or; by rewrite length_insert).
  destruct Hs1 as (D1 & Q1 & P1 & I1). rewrite P1.
  assert (Hpark : pend_wf {| st1 with s_parked := pend_or (s_parked st) c' bit |} /\
     hist_ok c st {| st1 with s_parked := pend_or (s_parked st) c' bit |} (if c' =? c then [CT] else [])).
  { split.
    - split_and!; [destruct st; cbn in *; unfold pend_or; by rewrite length_insert|by destruct st1|].
      intros x Hx. replace (s_parked {| st1 with s_parked := pend_or (s_parked st) c' bit |}) with (pend_or (s_parked st) c' bit) by (by destruct st1).
      unfold pend_or. destruct (decide (x = c')) as [->|Hne].
      + rewrite pend_insert_eq by lia. pose proof (Hp c' Hx). pose proof (lor_bound 2 (pend (s_parked st) c') bit). lia.
      + rewrite pend_insert_ne by lia. by apply Hp.
    - unfold hist_ok, pending_of, parked_of.
      replace (done_of c {| st1 with s_parked := pend_or (s_parked st) c' bit |}) with (done_of c st) by (rewrite <- D1; by destruct st1).
      replace (queued_of c {| st1 with s_parked := pend_or (s_parked st) c' bit |}) with (queued_of c st) by (rewrite <- Q1; by destruct st1).
      replace (s_parked {| st1 with s_parked := pend_or (s_parked st) c' bit |}) with (pend_or (s_parked st) c' bit) by (by destruct st1).
      unfold pend_or. destruct (Z.eqb_spec c' c) as [->|Hne].
      + rewrite pend_insert_eq by lia. pose proof (Hp c Hc) as Hpc.
        destruct (Z.eqb_spec (Z.lor (pend (s_parked st) c) bit) 0) as [Ez|_]; [by apply lor_nonzero in Ez; lia|].
        destruct (pend (s_parked st) c =? 0); rewrite ?app_nil_r, <- ?app_assoc; [reflexivity|].
        cbn [app]. rewrite !app_assoc. symmetry. apply (sh_dup _ []).
      + rewrite pend_insert_ne by lia. by rewrite app_nil_r. }
  destruct (pend (s_parked st) c' =? 0) eqn:Ep; [|exact Hpark].
  pose proof (submit_queue c st1 (item c')) as Hq. destruct (submit st1 (item c')) as [st' ok]. destruct Hq as (E1 & E2 & E3 & E4).
  destruct ok; [|exact Hpark]. split; [unfold pend_wf; by rewrite E2, E3, P1|].
  unfold pending_of, parked_of. rewrite E1, E2, E4, P1, D1, Q1, Hw. destruct (Z.eqb_spec c' c) as [->|].
  - rewrite Ep, !app_nil_r, app_assoc. reflexivity.
  - by rewrite !app_nil_r.
Qed.

Lemma bytes_hist c st c' b :
  pend_wf st -> 0 <= c < 16 ->
  pend_wf (fst (hw_worker_submit_bytes st c' b)) /\
  hist_ok c st (fst (hw_worker_submit_bytes st c' b))
    (if (c' =? c) && snd (hw_worker_submit_bytes st c' b) then [CB (clamp_data b)] else []).
Proof.
  intros Hwf Hc. unfold hw_worker_submit_bytes, hist_ok. destruct (pend_id c' && negb _) eqn:Ep.
  { cbn [fst snd]. rewrite andb_false_r, app_nil_r. split; [done|reflexivity]. }
  pose proof (submit_queue c st (WkBytes c' (clamp_data b))) as Hq. destruct (submit st _) as [st' ok]. destruct Hq as (E1 & E2 & E3 & E4).
  cbn [fst snd]. split; [unfold pend_wf; by rewrite E2, E3|]. unfold pending_of, parked_of. rewrite E1, E2, E4. cbn [of_work].
  destruct (Z.eqb_spec c' c) as [->|Hne]; [|cbn [andb]; by destruct ok; rewrite !app_nil_r].
  destruct ok; [|by rewrite !app_nil_r]. cbn [andb].
  assert (Hz : (pend (s_parked st) c =? 0) = true).
  { destruct (pend (s_parked st) c =? 0); [done|]. unfold pend_id in Ep.
    destruct (Z.leb_spec 0 c), (Z.ltb_spec c HW_PEND_IDS); cbn in Ep; (done || lia). }
  rewrite Hz, !app_nil_r, app_assoc. reflexivity.
Qed.

Lemma other_hist c st w : (forall x, of_work x w = []) -> pend_wf st ->
  pend_wf (fst (submit st w)) /\ hist_ok c st (fst (submit st w)) [].
Proof.
  intros Hw Hwf. pose proof (submit_queue c st w) as Hq. destruct (submit st w) as [st' ok]. destruct Hq as (E1 & E2 & E3 & E4).
  cbn [fst]. split; [unfold pend_wf; by rewrite E2, E3|]. unfold hist_ok, pending_of, parked_of. rewrite E1, E2, E4, Hw.
  rewrite app_nil_r. by destruct ok; rewrite app_nil_r.
Qed.

Lemma teardown_done_flags st id bit :
  same_work st (teardown_done st id bit) /\ (length (s_inflight st) = 16%nat -> length (s_inflight (teardown_done st id bit)) = 16%nat).
Proof.
  unfold teardown_done. destruct (negb _); [by split|]. destruct st. cbn. unfold pend_clear. split; [done|]. by rewrite length_insert.
Qed.

Lemma handle_hist c st w q' :
  q st = w :: q' -> pend_wf st ->
  let st' := handle_work dispatch_cloud {| st with q := q' |} w in pend_wf st' /\ hist_ok c st st' [] /\ q st' = q'.
Proof.
  intros Hq Hwf. cbv zeta. set (st0 := {| st with q := q' |}).
  assert (H0 : s_parked st0 = s_parked st /\ s_inflight st0 = s_inflight st /\ handled st0 = handled st /\ q st0 = q') by (by destruct st).
  destruct H0 as (P0 & I0 & H0 & Q0).
  assert (Hgen : forall e st1, of_event c e = of_work c w -> same_work (log st0 e) st1 -> length (s_inflight st1) = 16%nat ->
    pend_wf st1 /\ hist_ok c st st1 [] /\ q st1 = q').
  { intros e st1 He Hs Hl. pose proof (same_work_hist c _ _ Hs) as (D & Q & P). destruct Hs as (Sq & Sp & _).
    assert (Hp1 : s_parked st1 = s_parked st) by (rewrite Sp; unfold log; destruct st0; cbn in *; congruence).
    assert (Hq1 : q st1 = q') by (rewrite Sq; unfold log; destruct st0; cbn in *; congruence).
    split; [unfold pend_wf; rewrite Hp1; by destruct Hwf as (? & _ & ?)|]. split; [|done].
    unfold hist_ok, pending_of, parked_of. rewrite D, done_log, Hp1, He. unfold queued_of. rewrite Hq1, Hq. cbn [map concat].
    unfold done_of. rewrite H0, app_nil_r, <- !app_assoc. reflexivity. }
  assert (Hl : length (s_inflight (log st0 EvEspFlash)) = 16%nat) by (destruct Hwf as (_ & Hl & _); rewrite <- I0 in Hl; by destruct st0).
  assert (Hlog : forall e, length (s_inflight (log st0 e)) = 16%nat) by (intros; by destruct st0).
  destruct w as [c' d|l|r j|c'|c'|k o u d|]; cbn [handle_work].
  - by apply (Hgen (EvBytes c' d)).
  - by apply (Hgen (EvConsole l)).
  - apply (Hgen (EvCloud r j)); [done| |]; specialize (Hlog (EvCloud r j)); by destruct st0.
  - destruct (teardown_done_flags (log st0 (EvClosed c')) c' PEND_CLOSED) as [Hs Hln]. apply (Hgen (EvClosed c')); [done|done|by apply Hln].
  - destruct (teardown_done_flags (log st0 (EvReset c')) c' PEND_RESET) as [Hs Hln]. apply (Hgen (EvReset c')); [done|done|by apply Hln].
  - by apply (Hgen (EvOta k o u d)).
  - by apply (Hgen EvEspFlash).
Qed.

(** Applying one id's parked teardowns, the queue being empty. *)
Lemma apply_one_spec c st id :
  q st = [] -> pend_wf st -> 0 <= id < 16 -> 0 <= c < 16 ->
  let st' := apply_one st id in
  q st' = [] /\ pend_wf st' /\ hist_ok c st st' [] /\ pend (s_parked st') id = 0 /\
  (forall x, 0 <= x < 16 -> x <> id -> pend (s_parked st') x = pend (s_parked st) x).
Proof.
  intros Hq Hwf Hid Hc. cbv zeta. unfold apply_one. pose proof Hwf as (Hl1 & Hl2 & Hp). specialize (Hp id Hid) as Hpi.
  destruct (Z.eqb_spec (pend (s_parked st) id) 0) as [Hz|Hz]; [split_and!; try done; unfold hist_ok; by rewrite app_nil_r|].
  set (st0 := {| st with s_parked := <[Z.to_nat id := 0]> (s_parked st) |}).
  assert (H0 : s_parked st0 = <[Z.to_nat id := 0]> (s_parked st) /\ s_inflight st0 = s_inflight st /\ handled st0 = handled st /\ q st0 = [])
    by (by destruct st).
  destruct H0 as (P0 & I0 & H0 & Q0).
  assert (Hx : forall x, 0 <= x < 16 -> pend (s_parked st0) x = if x =? id then 0 else pend (s_parked st) x).
  { intros x Hx. rewrite P0. destruct (Z.eqb_spec x id) as [->|Hne]; [apply pend_insert_eq; (done || lia)|apply pend_insert_ne; lia]. }
  assert (Hgen : forall st1 new, q st1 = [] -> s_parked st1 = s_parked st0 -> length (s_inflight st1) = 16%nat ->
    done_of c st1 = done_of c st ++ new -> (if id =? c then new = [CT] \/ new = [CT; CT] else new = []) ->
    q st1 = [] /\ pend_wf st1 /\ hist_ok c st st1 [] /\ pend (s_parked st1) id = 0 /\
    (forall x, 0 <= x < 16 -> x <> id -> pend (s_parked st1) x = pend (s_parked st) x)).
  { intros st1 new Hq1 Hp1 Hl Hd Hn. rewrite Hp1. split_and!; try done.
    - split_and!; [by rewrite Hp1, P0, length_insert|done|]. intros x Hxx. rewrite Hp1, Hx by done.
      destruct (x =? id); [lia|]. destruct Hwf as (_ & _ & Hpp). by apply Hpp.
    - unfold hist_ok, pending_of, parked_of, queued_of. rewrite Hq1, Hq, Hd, Hp1, Hx, app_nil_r by done. cbn [map concat app].
      rewrite Z.eqb_sym in Hn. destruct (Z.eqb_spec c id) as [->|Hne].
      + destruct (Z.eqb_spec (pend (s_parked st) id) 0); [done|]. rewrite Z.eqb_refl, app_nil_r.
        destruct Hn as [->| ->]; [reflexivity|apply (sh_dup _ [])].
      + rewrite Hn, app_nil_r. reflexivity.
    - by rewrite Hx, Z.eqb_refl.
    - intros x Hxx Hne. rewrite Hx by done. destruct (Z.eqb_spec x id); [done|]. done. }
  assert (Hlog : forall st1 e bit, q st1 = [] -> s_parked st1 = s_parked st0 -> length (s_inflight st1) = 16%nat ->
    let st2 := teardown_done (log st1 e) id bit in
    q st2 = [] /\ s_parked st2 = s_parked st0 /\ length (s_inflight st2) = 16%nat /\ done_of c st2 = done_of c st1 ++ of_event c e).
  { intros st1 e bit Hq1 Hp1 Hl. cbv zeta. destruct (teardown_done_flags (log st1 e) id bit) as [Hs Hln].
    destruct (same_work_hist c _ _ Hs) as (D & _ & _). destruct Hs as (Sq & Sp & _). rewrite Sq, Sp, D, done_log.
    split_and!; [by destruct st1|by destruct st1|apply Hln; by destruct st1|done]. }
  assert (D0 : done_of c st0 = done_of c st) by (unfold done_of; by rewrite H0).
  assert (L0 : length (s_inflight st0) = 16%nat) by congruence.
  destruct (Hlog st0 (EvClosed id) PEND_CLOSED Q0 eq_refl L0) as (A1 & A2 & A3 & A4).
  destruct (Hlog st0 (EvReset id) PEND_RESET Q0 eq_refl L0) as (B1 & B2 & B3 & B4).
  destruct (Hlog _ (EvReset id) PEND_RESET A1 A2 A3) as (C1 & C2 & C3 & C4).
  assert (Hbits : pend (s_parked st) id = 1 \/ pend (s_parked st) id = 2 \/ pend (s_parked st) id = 3) by lia.
  cbn [of_event] in *. rewrite D0 in A4, B4.
  destruct Hbits as [E|[E|E]]; rewrite E; cbn [Z.land Pos.land Z.eqb].
  - eapply Hgen; [exact A1|exact A2|exact A3|exact A4|]. destruct (id =? c); auto.
  - eapply Hgen; [exact B1|exact B2|exact B3|exact B4|]. destruct (id =? c); auto.
  - eapply Hgen; [exact C1|exact C2|exact C3|etrans; [exact C4|rewrite A4, <- app_assoc; reflexivity]|]. destruct (id =? c); cbn; auto.
Qed.


(** ** The flags: a set bit has its teardown queued or parked *)

Definition teardown_kind (item : Z -> work) (bit : Z) : Prop :=
  item = WkClosed /\ bit = PEND_CLOSED \/ item = WkTunnelReset /\ bit = PEND_RESET.

Definition flags_at (c : Z) (qs : list work) (parked inflight : Z) : Prop :=
  0 <= inflight <= 3 /\
  forall item bit, teardown_kind item bit -> Z.land inflight bit <> 0 -> In (item c) qs \/ Z.land parked bit <> 0.

Definition flags_ok (st : worker_t) : Prop :=
  forall c, 0 <= c < 16 -> flags_at c (q st) (pend (s_parked st) c) (pend (s_inflight st) c).

Lemma flags_at_more c qs qs' parked inflight :
  (forall w, In w qs -> In w qs') -> flags_at c qs parked inflight -> flags_at c qs' parked inflight.
Proof. intros Hin [Hb Hf]. split; [done|]. intros item bit Hk Hbit. destruct (Hf item bit Hk Hbit); auto. Qed.

Lemma small_bits x : 0 <= x <= 3 -> x = 0 \/ x = 1 \/ x = 2 \/ x = 3.
Proof. lia. Qed.

(** Setting a bit whose teardown is queued now. *)
Lemma flags_at_queue c qs parked inflight item bit :
  teardown_kind item bit -> flags_at c qs parked inflight -> flags_at c (qs ++ [item c]) parked (Z.lor inflight bit).
Proof.
  intros Hk [Hb Hf]. split.
  - destruct Hk as [[_ ->]|[_ ->]]; destruct (small_bits _ Hb) as [-> |[-> |[-> | ->]]]; split; by vm_compute.
  - intros item' bit' Hk' Hbit. rewrite in_app_iff.
    assert (Hor : item' = item \/ Z.land inflight bit' <> 0).
    { destruct Hk as [[-> ->]|[-> ->]], Hk' as [[-> ->]|[-> ->]]; try (by left);
        right; destruct (small_bits _ Hb) as [-> |[-> |[-> | ->]]]; (by vm_compute) || (by exfalso; apply Hbit). }
    destruct Hor as [->|Hor]; [left; right; by left|]. destruct (Hf item' bit' Hk' Hor); auto.
Qed.

(** Setting a bit whose teardown is parked now. *)
Lemma flags_at_park c qs parked inflight item bit :
  teardown_kind item bit -> 0 <= parked <= 3 ->
  flags_at c qs parked inflight -> flags_at c qs (Z.lor parked bit) (Z.lor inflight bit).
Proof.
  intros Hk Hp [Hb Hf]. split.
  - destruct Hk as [[_ ->]|[_ ->]]; destruct (small_bits _ Hb) as [-> |[-> |[-> | ->]]]; split; by vm_compute.
  - intros item' bit' Hk' Hbit. specialize (Hf item' bit' Hk').
    destruct Hk as [[_ ->]|[_ ->]], Hk' as [[-> ->]|[-> ->]];
      destruct (small_bits _ Hb) as [-> |[-> |[-> | ->]]], (small_bits _ Hp) as [-> |[-> |[-> | ->]]];
      (right; by vm_compute) || (by exfalso; apply Hbit) || (destruct Hf as [?|Hn]; [by vm_compute|by left|by exfalso; apply Hn]).
Qed.

(** Clearing a bit, with one item of its kind gone. *)
Lemma flags_at_done c qs parked inflight item bit :
  teardown_kind item bit -> flags_at c (item c :: qs) parked inflight -> flags_at c qs parked (Z.land inflight (255 - bit)).
Proof.
  intros Hk [Hb Hf]. split.
  - destruct Hk as [[_ ->]|[_ ->]]; destruct (small_bits _ Hb) as [-> |[-> |[-> | ->]]]; split; by vm_compute.
  - intros item' bit' Hk' Hbit.
    assert (Hor : item' c <> item c /\ Z.land inflight bit' <> 0).
    { destruct Hk as [[-> ->]|[-> ->]], Hk' as [[-> ->]|[-> ->]];
        destruct (small_bits _ Hb) as [-> |[-> |[-> | ->]]]; (by exfalso; apply Hbit) || (by split_and!). }
    destruct Hor as (Hni & Hset). destruct (Hf item' bit' Hk' Hset) as [[Hin|Hin]|Hpk]; [by rewrite Hin in Hni|by left|by right].
Qed.

Lemma submit_flags st w : flags_ok st -> flags_ok (fst (submit st w)).
Proof.
  intros Hf c Hc. specialize (Hf c Hc). unfold submit. destruct (_ <? _)%nat; [|done]. destruct st. cbn in *.
  eapply flags_at_more, Hf. intros. apply in_app_iff. by left.
Qed.

Lemma teardown_flags st item bit c' :
  teardown_kind item bit -> pend_wf st -> flags_ok st -> flags_ok (submit_teardown st item bit c').
Proof.
  intros Hk (Hl1 & Hl2 & Hp) Hf. unfold submit_teardown. unfold pend_id.
  destruct (Z.leb_spec 0 c') as [H0|H0], (Z.ltb_spec c' HW_PEND_IDS) as [H1|H1]; cbn [andb negb]; try by apply submit_flags.
  intros c Hc. specialize (Hf c Hc). specialize (Hp c Hc). unfold submit. destruct st as [qs infl park ? ? ? ? ?]. cbn [q s_parked s_inflight] in *.
  destruct (Z.eq_dec c c') as [<-|Hne].
  - destruct (pend park c =? 0); [destruct (_ <? _)%nat|]; cbn [q s_parked s_inflight]; unfold pend_or; rewrite ?pend_insert_eq by lia;
      (by apply flags_at_queue) || (by eapply flags_at_park).
  - destruct (pend park c' =? 0); [destruct (_ <? _)%nat|]; cbn [q s_parked s_inflight]; unfold pend_or; rewrite ?pend_insert_ne by lia; try done.
    eapply flags_at_more, Hf. intros. apply in_app_iff. by left.
Qed.
Lemma flags_at_tail c w qs parked inflight :
  (forall item bit, teardown_kind item bit -> w <> item c) -> flags_at c (w :: qs) parked inflight -> flags_at c qs parked inflight.
Proof.
  intros Hw [Hb Hf]. split; [done|]. intros item bit Hk Hbit. destruct (Hf item bit Hk Hbit) as [[E|Hin]|Hpk]; [by destruct (Hw item bit Hk)|by left|by right].
Qed.

Lemma teardown_done_ok st item bit c' qs :
  teardown_kind item bit -> length (s_inflight st) = 16%nat ->
  (forall c, 0 <= c < 16 -> flags_at c (item c' :: qs) (pend (s_parked st) c) (pend (s_inflight st) c)) ->
  forall c, 0 <= c < 16 -> flags_at c qs (pend (s_parked st) c) (pend (s_inflight (teardown_done st c' bit)) c).
Proof.
  intros Hk Hl Hf c Hc. specialize (Hf c Hc). unfold teardown_done, pend_id.
  destruct (Z.eq_dec c c') as [<-|Hne].
  - replace ((0 <=? c) && (c <? HW_PEND_IDS)) with true by lia. cbn [negb]. destruct st. cbn [s_inflight s_parked] in *.
    unfold pend_clear. rewrite pend_insert_eq by lia. by eapply flags_at_done.
  - assert (Hi : pend (s_inflight (if negb ((0 <=? c') && (c' <? HW_PEND_IDS)) then st
      else {| st with s_inflight := pend_clear (s_inflight st) c' bit |})) c = pend (s_inflight st) c).
    { destruct (Z.leb_spec 0 c'), (Z.ltb_spec c' HW_PEND_IDS); cbn [andb negb]; try done. destruct st. cbn [s_inflight].
      unfold pend_clear. by rewrite pend_insert_ne by lia. }
    rewrite Hi. eapply flags_at_tail, Hf. intros item' bit' Hk' E. destruct Hk as [[-> _]|[-> _]], Hk' as [[-> _]|[-> _]]; congruence.
Qed.

Lemma receive_flags st : pend_wf st -> flags_ok st -> flags_ok (worker_receive dispatch_cloud st).
Proof.
  intros (Hl1 & Hl2 & _) Hf. unfold worker_receive. destruct (q st) as [|w qs] eqn:Hq; [done|].
  assert (Hrest : (forall c item bit, teardown_kind item bit -> w <> item c) ->
    forall c, 0 <= c < 16 -> flags_at c qs (pend (s_parked st) c) (pend (s_inflight st) c)).
  { intros Hw c Hc. eapply flags_at_tail; [intros; by eapply Hw|]. rewrite <- Hq. by apply Hf. }
  assert (Htd : forall item bit c' st', teardown_kind item bit -> w = item c' -> q st' = qs -> s_parked st' = s_parked st -> s_inflight st' = s_inflight st ->
    flags_ok (teardown_done st' c' bit)).
  { intros item bit c' st' Hk -> Hq' Hp' Hi' c Hc.
    destruct (teardown_done_flags st' c' bit) as [(Sq & Sp & _) _]. rewrite Sq, Sp, Hq'.
    eapply teardown_done_ok; [done|by rewrite Hi'| |done]. intros x Hx. rewrite Hp', Hi', <- Hq. by apply Hf. }
  destruct w as [c' d|l|r j|c'|c'|k o u d|]; cbn [handle_work].
  4: apply (Htd WkClosed PEND_CLOSED); [by left|done|by destruct st..].
  4: apply (Htd WkTunnelReset PEND_RESET); [by right|done|by destruct st..].
  all: intros c Hc; destruct st; cbn in *; apply Hrest; [|done]; intros ? ? ? [[-> _]|[-> _]]; done.
Qed.

(** The queue empty, applying one id's parked teardowns clears its flags. *)
Lemma apply_one_flags st id : q st = [] -> pend_wf st -> 0 <= id < 16 -> flags_ok st -> flags_ok (apply_one st id).
Proof.
  intros Hq (Hl1 & Hl2 & Hp) Hid Hf. specialize (Hp id Hid). pose proof (Hf id Hid) as [Hi Hfi]. rewrite Hq in Hfi.
  assert (Hset : forall v : Z, flags_at id [] 0 (Z.land (pend (s_inflight st) id) v) ->
    forall c, 0 <= c < 16 -> flags_at c [] (pend (<[Z.to_nat id := 0]> (s_parked st)) c)
      (pend (<[Z.to_nat id := Z.land (pend (s_inflight st) id) v]> (s_inflight st)) c)).
  { intros v Hv c Hc. destruct (Z.eq_dec c id) as [->|Hne]; [by rewrite !pend_insert_eq by lia|].
    rewrite !pend_insert_ne by lia. rewrite <- Hq. by apply Hf. }
  assert (Hin : forall b, 0 <= b <= 3 -> pend (s_parked st) id = b -> flags_at id [] 0 (Z.land (pend (s_inflight st) id) (255 - b))).
  { intros b Hb Eb. pose proof (Hfi WkClosed PEND_CLOSED ltac:(by left)) as Hc. pose proof (Hfi WkTunnelReset PEND_RESET ltac:(by right)) as Hr.
    rewrite Eb in Hc, Hr. clear Hfi Hf Hset. replace (Z.land (pend (s_inflight st) id) (255 - b)) with 0; [split; [lia|]; intros item bit _ Hbit; by rewrite Z.land_0_l in Hbit|].
    destruct (small_bits _ Hb) as [-> |[-> |[-> | ->]]], (small_bits _ Hi) as [E|[E|[E|E]]]; rewrite E in *; try reflexivity;
      exfalso; (by destruct Hc as [[]|Hc]; [by vm_compute|by apply Hc]) || (by destruct Hr as [[]|Hr]; [by vm_compute|by apply Hr]). }
  assert (Hpid : pend_id id = true) by (unfold pend_id; lia).
  unfold apply_one. destruct (Z.eqb_spec (pend (s_parked st) id) 0) as [Hz|Hz]; [done|].
  assert (Hb : pend (s_parked st) id = 1 \/ pend (s_parked st) id = 2 \/ pend (s_parked st) id = 3) by lia.
  destruct st as [qs infl park ? ? ? ? ?]. cbn [q s_parked s_inflight] in *. subst qs. unfold teardown_done. rewrite Hpid. cbn [negb].
  destruct Hb as [E|[E|E]]; rewrite E; intros c Hc.
  - change (Z.land 1 PEND_CLOSED =? 0) with false. change (Z.land 1 PEND_RESET =? 0) with true. cbn [q s_parked s_inflight log handled].
    apply Hset, Hc. by apply (Hin 1).
  - change (Z.land 2 PEND_CLOSED =? 0) with true. change (Z.land 2 PEND_RESET =? 0) with false. cbn [q s_parked s_inflight log handled].
    apply Hset, Hc. by apply (Hin 2).
  - change (Z.land 3 PEND_CLOSED =? 0) with false. change (Z.land 3 PEND_RESET =? 0) with false. cbn [q s_parked s_inflight log handled].
    specialize (Hset (Z.land 254 253)). unfold pend_clear. rewrite pend_insert_eq by (done || lia). rewrite list_insert_insert_eq, <- Z.land_assoc.
    apply Hset, Hc. by apply (Hin 3).
Qed.

End steps.
