(* ===== verification/WorkerTheorems.v ===== *)
(** * What the hardware worker's queue guarantees *)

From S2P Require Import Prelude Worker.

(** The invariant of every run. *)
Definition inv (st : worker_t) : Prop := pend_wf st /\ flags_ok st /\ (length (q st) <= 16)%nat.

Lemma inv_init : inv worker_init.
Proof.
  split_and!; [split_and!; [done|done|]|intros c Hc|cbn; lia].
  - intros c Hc. assert (E : pend (s_parked worker_init) c = 0); [|lia].
    unfold pend, worker_init. cbn [s_parked]. apply nth_lookup_Some, lookup_replicate_2. lia.
  - replace (pend (s_inflight worker_init) c) with 0; [split; [lia|]; intros ? ? _ Hb; by rewrite Z.land_0_l in Hb|].
    symmetry. unfold pend, worker_init. cbn [s_inflight]. apply nth_lookup_Some, lookup_replicate_2. lia.
Qed.

Lemma submit_len st w : (length (q st) <= 16)%nat -> (length (q (fst (submit st w))) <= 16)%nat.
Proof. unfold submit. destruct (Nat.ltb_spec (length (q st)) 16); [|done]. intros _. destruct st. cbn in *. rewrite length_app. cbn. lia. Qed.

Section proofs.
Variable dispatch_cloud : list Z -> list Z.
Variable reply_cap : nat.
Abbreviation wstep := (wstep dispatch_cloud reply_cap).
Abbreviation worker_receive := (worker_receive dispatch_cloud).

Lemma hist_refl c st : hist_ok c st st [].
Proof. unfold hist_ok. by rewrite app_nil_r. Qed.

Lemma hist_trans c st1 st2 st3 n1 n2 : hist_ok c st1 st2 n1 -> hist_ok c st2 st3 n2 -> hist_ok c st1 st3 (n1 ++ n2).
Proof. unfold hist_ok. intros H1 H2. rewrite H2, H1. by rewrite app_assoc. Qed.

Lemma receive_step c st : inv st -> inv (worker_receive st) /\ hist_ok c st (worker_receive st) [] /\ q (worker_receive st) = tail (q st).
Proof.
  intros (Hw & Hf & Hl). pose proof (receive_flags dispatch_cloud st Hw Hf) as Hf'.
  unfold Worker.worker_receive in *. destruct (q st) as [|w qs] eqn:Hq.
  { split; [split_and!; [done|done|by rewrite Hq]|]. split; [apply hist_refl|done]. }
  destruct (handle_hist dispatch_cloud c st w qs Hq Hw) as (Hw' & Hh & Hq'). cbn in Hl.
  split; [split_and!; [done|done|rewrite Hq'; lia]|by split].
Qed.

Lemma drain_step c k : forall st, inv st ->
  let st' := drain dispatch_cloud k st in inv st' /\ hist_ok c st st' [] /\ q st' = skipn k (q st).
Proof.
  induction k as [|k IH]; intros st Hi; cbv zeta; [split_and!; [done|apply hist_refl|done]|]. cbn [drain].
  destruct (receive_step c st Hi) as (Hi' & Hh & Hq). destruct (IH _ Hi') as (Hi2 & Hh2 & Hq2).
  split_and!; [done|by apply (hist_trans _ _ _ _ [] [] Hh)|]. rewrite Hq2, Hq. by destruct (q st); cbn; rewrite ?skipn_nil.
Qed.

(** The parked teardowns of the ids, one after the other. *)
Lemma apply_ids c ids : forall st, inv st -> q st = [] -> 0 <= c < 16 -> Forall (fun id => 0 <= id < 16) ids ->
  let st' := fold_left apply_one ids st in
  inv st' /\ hist_ok c st st' [] /\ q st' = [] /\
  (forall x, 0 <= x < 16 -> (In x ids \/ pend (s_parked st) x = 0) -> pend (s_parked st') x = 0).
Proof.
  induction ids as [|id ids IH]; intros st Hi Hq Hc Hids; cbv zeta; cbn [fold_left].
  { split_and!; [done|apply hist_refl|done|]. by intros x _ [[]|]. }
  inversion Hids as [|? ? Hid Hids']; subst. pose proof Hi as (Hw & Hf & Hl).
  destruct (apply_one_spec c st id Hq Hw Hid Hc) as (Hq' & Hw' & Hh & Hz & Hkeep).
  assert (Hi' : inv (apply_one st id)) by (split_and!; [done|by apply apply_one_flags|rewrite Hq'; cbn; lia]).
  destruct (IH _ Hi' Hq' Hc Hids') as (Hi2 & Hh2 & Hq2 & Hz2). split_and!; [done|by apply (hist_trans _ _ _ _ [] [] Hh)|done|].
  intros x Hx Hor. apply Hz2; [done|]. destruct (Z.eq_dec x id) as [->|Hne]; [by right|].
  destruct Hor as [[E|Hin]|Hp]; [done|by left|right; by rewrite Hkeep].
Qed.

Lemma ids_range : Forall (fun id => 0 <= id < 16) (map Z.of_nat (seq 0 16)).
Proof. apply List.Forall_forall. intros x Hin. apply in_map_iff in Hin as (n & <- & Hn). apply in_seq in Hn. lia. Qed.

Lemma apply_step c st : inv st -> 0 <= c < 16 ->
  let st' := apply_parked_teardowns st in
  inv st' /\ hist_ok c st st' [] /\ (q st = [] -> q st' = [] /\ pend (s_parked st') c = 0).
Proof.
  intros Hi Hc. cbv zeta. unfold apply_parked_teardowns. destruct (Nat.eqb_spec (length (q st)) 0) as [E|E]; cbn [negb].
  - apply length_zero_iff_nil in E. destruct (apply_ids c _ st Hi E Hc ids_range) as (Hi' & Hh & Hq' & Hz).
    split_and!; [done|done|]. intros _. split; [done|]. apply Hz; [done|]. left. apply in_map_iff. exists (Z.to_nat c). split; [lia|apply in_seq; lia].
  - split_and!; [done|apply hist_refl|]. intros Hq. by rewrite Hq in E.
Qed.

(** A step of any task keeps the invariant and adds what it accepted. *)
Lemma step_ok c st o : inv st -> 0 <= c < 16 -> inv (wstep st o) /\ hist_ok c st (wstep st o) (accepted c st o).
Proof.
  intros Hi Hc. pose proof Hi as (Hw & Hf & Hl).
  assert (Hsub : forall w, (forall x, of_work x w = []) -> inv (fst (submit st w)) /\ hist_ok c st (fst (submit st w)) []).
  { intros w Hno. destruct (other_hist c st w Hno Hw). split; [split_and!; [done|by apply submit_flags|by apply submit_len]|done]. }
  assert (Htd : forall item bit c', teardown_kind item bit ->
    inv (submit_teardown st item bit c') /\ hist_ok c st (submit_teardown st item bit c') (if c' =? c then [CT] else [])).
  { intros item bit c' Hk. destruct (teardown_hist c st item bit c' Hk Hw Hc). split; [split_and!; [done|by apply teardown_flags|]|done].
    unfold submit_teardown. destruct (negb _); [by apply submit_len|].
    assert (Hl' : (length (q {| st with s_inflight := pend_or (s_inflight st) c' bit |}) <= 16)%nat) by (by destruct st).
    destruct (_ =? 0); [|by destruct st]. pose proof (submit_len _ (item c') Hl') as Hsl.
    destruct (submit _ (item c')) as [st' ok]. destruct ok; [done|]. by destruct st'. }
  destruct o as [c' b|c'|c'|l|r j|k w u d| | | |]; cbn [Worker.wstep accepted].
  - destruct (bytes_hist c st c' b Hw Hc). split; [split_and!; [done| |]|done];
      unfold hw_worker_submit_bytes; destruct (pend_id c' && negb (pend (s_parked st) c' =? 0)); try done; by apply submit_flags || by apply submit_len.
  - apply (Htd WkClosed PEND_CLOSED). by left.
  - apply (Htd WkTunnelReset PEND_RESET). by right.
  - by apply Hsub.
  - unfold hw_worker_submit_cloud. destruct (_ || _); [split; [done|apply hist_refl]|].
    unfold submit. destruct st as [qs infl park b1 b2 l1 l2 hs]. cbn [q] in *. destruct (Nat.ltb_spec (length qs) 16) as [Hlt|Hge]; cbn [fst].
    + unfold inv, pend_wf, flags_ok, hist_ok, pending_of, done_of, queued_of, parked_of in *. cbn [q s_parked s_inflight handled] in *.
      rewrite map_app, concat_app. cbn [map concat of_work app]. rewrite !app_nil_r. split; [split_and!; try apply Hw| reflexivity].
      * intros x Hx. eapply flags_at_more, Hf, Hx. intros. apply in_app_iff. by left.
      * rewrite length_app. cbn. lia.
    + split; [exact Hi|]. unfold hist_ok. rewrite app_nil_r. reflexivity.
  - by apply Hsub.
  - by apply Hsub.
  - unfold hw_worker_take_cloud_reply. destruct (negb _); cbn [fst]; [split; [done|apply hist_refl]|].
    destruct st. split; [exact Hi|]. unfold hist_ok. rewrite app_nil_r. reflexivity.
  - by destruct (receive_step c st Hi) as (? & ? & _).
  - by destruct (apply_step c st Hi Hc) as (? & ? & _).
Qed.

Lemma run_ok c ops : forall st, inv st -> 0 <= c < 16 ->
  inv (wrun dispatch_cloud reply_cap st ops) /\
  hist_ok c st (wrun dispatch_cloud reply_cap st ops) (history dispatch_cloud reply_cap c st ops).
Proof.
  induction ops as [|o ops IH]; intros st Hi Hc; cbn [wrun fold_left history]; [split; [done|apply hist_refl]|].
  destruct (step_ok c st o Hi Hc) as [Hi' Hh]. destruct (IH _ Hi' Hc) as [Hi2 Hh2]. split; [exact Hi2|]. by apply (hist_trans _ _ _ _ _ _ Hh).
Qed.

Lemma turn_ok c st : inv st -> 0 <= c < 16 ->
  let st' := worker_turn dispatch_cloud st in
  inv st' /\ hist_ok c st st' [] /\ q st' = [] /\ pend (s_parked st') c = 0.
Proof.
  intros Hi Hc. cbv zeta. unfold worker_turn. destruct (drain_step c 16 st Hi) as (Hi1 & Hh1 & Hq1).
  destruct (apply_step c _ Hi1 Hc) as (Hi2 & Hh2 & Hz). destruct Hz as [Hq2 Hz].
  { rewrite Hq1. apply skipn_all2. by destruct Hi as (_ & _ & ?). }
  split_and!; [done|by apply (hist_trans _ _ _ _ [] [] Hh1)|done|done].
Qed.

Lemma idle_not_busy c st : inv st -> 0 <= c < 16 -> q st = [] -> pend (s_parked st) c = 0 -> hw_worker_conn_busy st c = false.
Proof.
  intros (_ & Hf & _) Hc Hq Hz. unfold hw_worker_conn_busy. destruct (Hf c Hc) as [Hi Hb]. rewrite Hq, Hz in Hb.
  pose proof (Hb WkClosed PEND_CLOSED ltac:(by left)) as H1. pose proof (Hb WkTunnelReset PEND_RESET ltac:(by right)) as H2.
  destruct (small_bits _ Hi) as [E|[E|[E|E]]]; rewrite E in *; [by rewrite andb_false_r| | |];
    exfalso; (by destruct H1 as [[]|H1]; [by vm_compute|by apply H1]) || (by destruct H2 as [[]|H2]; [by vm_compute|by apply H2]).
Qed.

(** Everything of a connection is done once nothing of it is pending. *)
Lemma nothing_pending c st st' acc :
  hist_ok c st st' [] -> q st' = [] -> pend (s_parked st') c = 0 ->
  same_history (done_of c st ++ pending_of c st) acc -> same_history (done_of c st') acc.
Proof.
  unfold hist_ok. intros Hh Hq Hz Hacc. rewrite app_nil_r in Hh. rewrite <- Hacc, <- Hh.
  unfold pending_of, queued_of, parked_of. rewrite Hq, Hz. cbn [map concat app Z.eqb]. by rewrite app_nil_r.
Qed.

Lemma turn_done c st acc : inv st -> 0 <= c < 16 -> same_history (done_of c st ++ pending_of c st) acc ->
  q (worker_turn dispatch_cloud st) = [] /\ (hw_worker_conn_busy (worker_turn dispatch_cloud st) c = false) /\
  same_history (done_of c (worker_turn dispatch_cloud st)) acc.
Proof.
  intros Hi Hc Hacc. destruct (turn_ok c st Hi Hc) as (Hi' & Hh' & Hq & Hz). revert Hi' Hh' Hq Hz.
  generalize (worker_turn dispatch_cloud st). intros st' Hi' Hh' Hq Hz.
  split_and!; [done|by apply idle_not_busy|by apply (nothing_pending c st)].
Qed.

Lemma nothing_at_start c : 0 <= c < 16 -> done_of c worker_init ++ pending_of c worker_init = [].
Proof.
  intros Hc. unfold pending_of, parked_of, pend, worker_init. cbn [s_parked].
  rewrite (nth_lookup_Some _ _ _ 0); [done|]. apply lookup_replicate_2. lia.
Qed.
End proofs.



(** ** The cloud's request slot *)

Definition cloud_of (w : work) : list (list Z * list Z) := match w with WkCloud r j => [(r, j)] | _ => [] end.
Definition cloud_in (st : worker_t) (o : wop) : list (list Z * list Z) :=
  match o with
  | OpCloud r j => if snd (hw_worker_submit_cloud st r j) then [(take (BP_TUNNEL_ID_MAX - 1) r, clamp_data j)] else []
  | _ => []
  end.
Definition cloud_out (cap : nat) (st : worker_t) (o : wop) : list (list Z * list Z) :=
  match o with OpTake => option_list (snd (hw_worker_take_cloud_reply st cap)) | _ => [] end.

Section cloud.
Variable dispatch_cloud : list Z -> list Z.
Variable reply_cap : nat.

(** The requests accepted and the replies taken in a run. *)
Fixpoint requests (st : worker_t) (ops : list wop) : list (list Z * list Z) :=
  match ops with [] => [] | o :: ops' => cloud_in st o ++ requests (wstep dispatch_cloud reply_cap st o) ops' end.
Fixpoint replies (st : worker_t) (ops : list wop) : list (list Z * list Z) :=
  match ops with [] => [] | o :: ops' => cloud_out reply_cap st o ++ replies (wstep dispatch_cloud reply_cap st o) ops' end.

Definition answer (rj : list Z * list Z) : list Z * list Z := (fst rj, take (reply_cap - 1) (dispatch_cloud (snd rj))).

(** The slot: free, its request queued, or its reply waiting. *)
Inductive slot_state : list (list Z * list Z) -> list (list Z * list Z) -> bool -> bool -> list (list Z * list Z) -> list Z -> list Z -> Prop :=
| sl_free ins rid rep : slot_state ins (map answer ins) false false [] rid rep
| sl_queued ins r rid rep : slot_state (ins ++ [r]) (map answer ins) true false [r] rid rep
| sl_ready ins rid j : slot_state (ins ++ [(rid, j)]) (map answer ins) true true [] rid (dispatch_cloud j).

Definition slot_ok (ins outs : list (list Z * list Z)) (st : worker_t) : Prop :=
  slot_state ins outs (s_cloud_pending st) (s_cloud_ready st) (concat (map cloud_of (q st))) (s_cloud_req_id st) (s_cloud_reply st).

(** The steps that leave the slot alone. *)
Definition slot_same (st st' : worker_t) : Prop :=
  s_cloud_pending st' = s_cloud_pending st /\ s_cloud_ready st' = s_cloud_ready st /\
  concat (map cloud_of (q st')) = concat (map cloud_of (q st)) /\ s_cloud_req_id st' = s_cloud_req_id st /\ s_cloud_reply st' = s_cloud_reply st.

Lemma slot_same_ok ins outs st st' : slot_same st st' -> slot_ok ins outs st -> slot_ok ins outs st'.
Proof. unfold slot_ok. by intros (-> & -> & -> & -> & ->). Qed.

Lemma slot_same_trans st1 st2 st3 : slot_same st1 st2 -> slot_same st2 st3 -> slot_same st1 st3.
Proof. unfold slot_same. intros (? & ? & ? & ? & ?) (? & ? & ? & ? & ?). split_and!; congruence. Qed.

Lemma submit_slot st w : cloud_of w = [] -> slot_same st (fst (submit st w)).
Proof.
  intros Hw. unfold submit, slot_same. destruct (_ <? _)%nat; destruct st as [qs infl park b1 b2 l1 l2 hs]; cbn [fst q]; [|done]. split_and!; try done.
  rewrite map_app, concat_app. cbn [map concat]. by rewrite Hw, !app_nil_r.
Qed.

Lemma teardown_done_slot st c bit : slot_same st (teardown_done st c bit).
Proof. unfold teardown_done. destruct (negb _); by destruct st. Qed.

Lemma log_slot st e : slot_same st (log st e).
Proof. by destruct st. Qed.

Lemma teardown_slot st item bit c : teardown_kind item bit -> slot_same st (submit_teardown st item bit c).
Proof.
  intros Hk. assert (Hw : forall x, cloud_of (item x) = []) by (intros; by destruct Hk as [[-> _]|[-> _]]).
  unfold submit_teardown. destruct (negb _); [by apply submit_slot|].
  set (st1 := {| st with s_inflight := pend_or (s_inflight st) c bit |}). assert (H1 : slot_same st st1) by (by destruct st).
  assert (Hp : forall l, slot_same st {| st1 with s_parked := l |}) by (intros; by destruct st).
  destruct (_ =? 0); [|apply Hp]. pose proof (submit_slot st1 (item c) (Hw c)) as Hs. unfold submit in *. destruct (_ <? _)%nat; cbn [fst] in *; [|apply Hp].
  by apply (slot_same_trans _ st1).
Qed.

Lemma apply_one_slot st id : slot_same st (apply_one st id).
Proof.
  unfold apply_one. destruct (_ =? 0); [by destruct st|].
  set (st1 := {| st with s_parked := <[Z.to_nat id := 0]> (s_parked st) |}). assert (H1 : slot_same st st1) by (by destruct st).
  assert (Htd : forall st0 e bit, slot_same st st0 -> slot_same st (teardown_done (log st0 e) id bit)).
  { intros st0 e bit H. eapply slot_same_trans; [exact H|]. eapply slot_same_trans; [apply (log_slot st0 e)|apply teardown_done_slot]. }
  destruct (Z.land _ PEND_CLOSED =? 0), (Z.land _ PEND_RESET =? 0); eauto.
Qed.

Lemma apply_slot st : slot_same st (apply_parked_teardowns st).
Proof.
  unfold apply_parked_teardowns. destruct (negb _); [by destruct st|]. generalize (map Z.of_nat (seq 0 16)). intros ids. revert st.
  induction ids as [|id ids IH]; intros st; cbn [fold_left]; [by destruct st|]. eapply slot_same_trans; [apply apply_one_slot|apply IH].
Qed.

Ltac rewrite_queue :=
  match goal with E : [] = concat _ |- _ => rewrite <- E | E : concat _ = [] |- _ => rewrite E end.

Lemma receive_slot ins outs st : slot_ok ins outs st -> slot_ok ins outs (worker_receive dispatch_cloud st).
Proof.
  unfold worker_receive. destruct (q st) as [|w qs] eqn:Hq; [done|].
  destruct st as [q0 infl park p r rid rep hs]. cbn [q] in Hq. subst q0. unfold slot_ok. cbn [q s_cloud_pending s_cloud_ready s_cloud_req_id s_cloud_reply].
  assert (Htd : forall st0 c e bit, slot_ok ins outs st0 -> slot_ok ins outs (teardown_done (log st0 e) c bit)).
  { intros st0 c e bit. apply slot_same_ok. eapply slot_same_trans; [apply (log_slot st0 e)|apply teardown_done_slot]. }
  destruct w as [c d|l|r' j|c|c|k o u d|]; cbn [map concat cloud_of app]; try done; try by intros; apply Htd.
  intros H. cbn. inversion H; subst. constructor.
Qed.

(** A step of any task moves the slot as its requests and replies say. *)
Lemma slot_step ins outs st o : slot_ok ins outs st ->
  slot_ok (ins ++ cloud_in st o) (outs ++ cloud_out reply_cap st o) (wstep dispatch_cloud reply_cap st o).
Proof.
  intros H. assert (Hsame : forall st', slot_same st st' -> slot_ok (ins ++ []) (outs ++ []) st') by (intros; rewrite !app_nil_r; by apply (slot_same_ok _ _ st)).
  destruct o as [c b|c|c|l|r j|k w u d| | | |]; cbn [cloud_in cloud_out wstep].
  - apply Hsame. unfold hw_worker_submit_bytes. destruct (_ && _); [by destruct st|by apply submit_slot].
  - apply Hsame, (teardown_slot _ WkClosed PEND_CLOSED). by left.
  - apply Hsame, (teardown_slot _ WkTunnelReset PEND_RESET). by right.
  - by apply Hsame, submit_slot.
  - unfold hw_worker_submit_cloud. destruct (s_cloud_pending st || s_cloud_ready st) eqn:Hbusy; [by apply Hsame; destruct st|].
    apply orb_false_iff in Hbusy as [Hp Hr]. unfold slot_ok in *. rewrite Hp, Hr in H. unfold submit. destruct st as [qs infl park b1 b2 l1 l2 hs].
    cbn [q s_inflight s_parked s_cloud_pending s_cloud_ready s_cloud_req_id s_cloud_reply fst snd handled] in *. inversion H; subst.
    destruct (_ <? _)%nat; cbn [q s_inflight s_parked s_cloud_pending s_cloud_ready s_cloud_req_id s_cloud_reply fst snd handled].
    + rewrite map_app, concat_app. rewrite_queue. cbn [map concat cloud_of app]. rewrite app_nil_r. constructor.
    + rewrite !app_nil_r. rewrite_queue. constructor.
  - by apply Hsame, submit_slot.
  - by apply Hsame, submit_slot.
  - unfold hw_worker_take_cloud_reply. destruct (s_cloud_ready st) eqn:Hr; cbn [negb fst snd option_list]; [|by apply Hsame; destruct st].
    unfold slot_ok in *. rewrite Hr in H. destruct st as [qs infl park b1 b2 l1 l2 hs]. cbn in *. rewrite app_nil_r.
    inversion H as [| |ins' rid j]; subst.
    replace (map answer ins' ++ [(l1, take (reply_cap - 1) (dispatch_cloud j))]) with (map answer (ins' ++ [(l1, j)])) by (by rewrite map_app).
    constructor.
  - rewrite !app_nil_r. by apply receive_slot.
  - apply Hsame, apply_slot.
Qed.

Lemma slot_run ops : forall ins outs st, slot_ok ins outs st ->
  slot_ok (ins ++ requests st ops) (outs ++ replies st ops) (wrun dispatch_cloud reply_cap st ops).
Proof.
  induction ops as [|o ops IH]; intros ins outs st H; cbn [requests replies wrun fold_left]; [by rewrite !app_nil_r|].
  rewrite !app_assoc. by apply IH, slot_step.
Qed.
End cloud.

(** The cloud's replies are the answers to its accepted requests, each with its
    own request's id, in order and once; at most one request is outstanding. *)
Theorem cloud_replies_match (dispatch_cloud : list Z -> list Z) (reply_cap : nat) (ops : list wop) :
  let ins := requests dispatch_cloud reply_cap worker_init ops in
  let outs := replies dispatch_cloud reply_cap worker_init ops in
  let st := wrun dispatch_cloud reply_cap worker_init ops in
  exists waiting, map (answer dispatch_cloud reply_cap) ins = outs ++ waiting /\ length waiting = if hw_worker_cloud_pending st then 1%nat else O.
Proof.
  intros ins outs st. pose proof (slot_run dispatch_cloud reply_cap ops [] [] worker_init ltac:(apply (sl_free _ _ []))) as H.
  unfold hw_worker_cloud_pending. fold ins outs st in H. cbn [app] in H. unfold slot_ok in H.
  inversion H as [ins' rid rep Ein Eout Ep Er Eq|ins' r rid rep Ein Eout Ep Er Eq|ins' rid j Ein Eout Ep Er Eq].
  - exists []. by rewrite app_nil_r.
  - exists (map (answer dispatch_cloud reply_cap) [r]). by rewrite map_app.
  - exists (map (answer dispatch_cloud reply_cap) [(s_cloud_req_id st, j)]). by rewrite map_app.
Qed.
