(* ===== verification/ConnTx.v ===== *)
(** * The outbound byte rings ([conn_tx.c])

    One ring per connection, filled by the worker and emptied by the net task
    with no lock. The operations first, as each task runs them; then their steps,
    interleaved: the worker's copy goes byte by byte and the net task reads the
    ring between its peek and its advance. *)

From S2P Require Import Prelude.

Abbreviation CONN_TX_RING_SIZE := 2048.
Abbreviation CONN_TX_MASK := 2047.
Abbreviation CONN_TX_TCP_SLOTS := 5.
Abbreviation CH_CLOUD_TUNNEL_CONN := 7.
Abbreviation CH_CLOUD_TUNNEL_CONN_COUNT := 3.
Abbreviation CONN_TX_SLOTS := 8.

Record ring_t := Ring { r_head : Z; r_tail : Z; r_buf : list Z }.

Definition conn_tx_slot (conn_id : Z) : Z :=
  if (0 <=? conn_id) && (conn_id <? CONN_TX_TCP_SLOTS) then conn_id
  else if (CH_CLOUD_TUNNEL_CONN <=? conn_id) && (conn_id <=? CH_CLOUD_TUNNEL_CONN + CH_CLOUD_TUNNEL_CONN_COUNT - 1)
  then CONN_TX_TCP_SLOTS + (conn_id - CH_CLOUD_TUNNEL_CONN)
  else -1.

(** The zeroed rings of a boot. *)
Definition ring_zero : ring_t := Ring 0 0 (replicate 2048 0).
Definition s_rings : list ring_t := replicate 8 ring_zero.

Definition ring_of (rs : list ring_t) (conn_id : Z) : option ring_t :=
  let s := conn_tx_slot conn_id in if s <? 0 then None else rs !! Z.to_nat s.

Definition ring_used (r : ring_t) : Z := u16 (r_head r - r_tail r).
Definition ring_free (r : ring_t) : Z := CONN_TX_MASK - u16 (r_head r - r_tail r).

Definition cell (i : Z) : nat := Z.to_nat (Z.land i CONN_TX_MASK).

(** The copy loop, from position [i]. *)
Fixpoint ring_copy (m : list Z) (i : Z) (bs : list Z) : list Z :=
  match bs with [] => m | b :: bs' => ring_copy (<[cell i := b]> m) (i + 1) bs' end.

Definition ring_write (r : ring_t) (bs : list Z) : ring_t * Z :=
  let len := Z.of_nat (length bs) in
  if ring_free r <? len then (r, 0)
  else (Ring (u16 (r_head r + len)) (r_tail r) (ring_copy (r_buf r) (r_head r) bs), len).

(** The contiguous run of queued bytes: its position and length. *)
Definition ring_peek (r : ring_t) : option (Z * Z) :=
  let used := u16 (r_head r - r_tail r) in
  if used =? 0 then None
  else
    let tpos := u16 (Z.land (r_tail r) CONN_TX_MASK) in
    let to_end := u16 (CONN_TX_RING_SIZE - tpos) in
    Some (tpos, if used <? to_end then used else to_end).

Definition ring_advance (r : ring_t) (n : Z) : ring_t := Ring (r_head r) (u16 (r_tail r + n)) (r_buf r).
Definition ring_reset (r : ring_t) : ring_t := Ring (r_head r) (r_head r) (r_buf r).

Definition set_ring (rs : list ring_t) (conn_id : Z) (r : ring_t) : list ring_t := <[Z.to_nat (conn_tx_slot conn_id) := r]> rs.

Definition conn_tx_used (rs : list ring_t) (conn_id : Z) : Z := match ring_of rs conn_id with None => 0 | Some r => ring_used r end.
Definition conn_tx_free (rs : list ring_t) (conn_id : Z) : Z := match ring_of rs conn_id with None => 0 | Some r => ring_free r end.
Definition conn_tx_write (rs : list ring_t) (conn_id : Z) (bs : list Z) : list ring_t * Z :=
  match ring_of rs conn_id with None => (rs, 0) | Some r => let '(r', n) := ring_write r bs in (set_ring rs conn_id r', n) end.
Definition conn_tx_peek (rs : list ring_t) (conn_id : Z) : option (Z * Z) :=
  match ring_of rs conn_id with None => None | Some r => ring_peek r end.
Definition conn_tx_advance (rs : list ring_t) (conn_id : Z) (n : Z) : list ring_t :=
  match ring_of rs conn_id with None => rs | Some r => set_ring rs conn_id (ring_advance r n) end.
Definition conn_tx_reset (rs : list ring_t) (conn_id : Z) : list ring_t :=
  match ring_of rs conn_id with None => rs | Some r => set_ring rs conn_id (ring_reset r) end.

(** ** The two tasks *)

(** Where the worker stands in a write: the head it read, what it copied and
    what it has still to copy. *)
Inductive prod := PIdle | PCopy (hd : Z) (copied todo : list Z).

(** The ring with both tasks' positions, the bytes published and the bytes taken
    out (handed to lwIP or dropped by a reset). *)
Record spsc := Spsc { ring : ring_t; producer : prod; peeked : option (Z * Z); published : list Z; removed : list Z }.

Definition spsc_init : spsc := Spsc ring_zero PIdle None [] [].

Inductive rop := PBegin (bs : list Z) | PByte | PPublish | CPeek | CAdvance (n : Z) | CReset.

Definition bytes_from (m : list Z) (pos n : Z) : list Z := take (Z.to_nat n) (drop (Z.to_nat pos) m).

(** The bytes queued, as the indices tell. *)
Definition fifo (r : ring_t) : list Z :=
  map (fun i => nth (cell (r_tail r + Z.of_nat i)) (r_buf r) 0) (seq 0 (Z.to_nat (ring_used r))).

(** One step; a task's step that it cannot take at this point is [None]. *)
Definition rstep (s : spsc) (o : rop) : option spsc :=
  let r := ring s in
  match o, producer s with
  | PBegin bs, PIdle => if ring_free r <? Z.of_nat (length bs) then Some s else Some (Spsc r (PCopy (r_head r) [] bs) (peeked s) (published s) (removed s))
  | PByte, PCopy hd copied (b :: todo) =>
      let m := <[cell (hd + Z.of_nat (length copied)) := b]> (r_buf r) in
      Some (Spsc (Ring (r_head r) (r_tail r) m) (PCopy hd (copied ++ [b]) todo) (peeked s) (published s) (removed s))
  | PPublish, PCopy hd copied [] =>
      Some (Spsc (Ring (u16 (hd + Z.of_nat (length copied))) (r_tail r) (r_buf r)) PIdle (peeked s) (published s ++ copied) (removed s))
  | CPeek, p => Some (Spsc r p (ring_peek r) (published s) (removed s))
  | CAdvance n, p =>
      match peeked s with
      | Some (pos, len) =>
          if (0 <=? n) && (n <=? len)
          then Some (Spsc (ring_advance r n) p None (published s) (removed s ++ bytes_from (r_buf r) pos n)) else None
      | None => None
      end
  | CReset, p => Some (Spsc (ring_reset r) p None (published s) (removed s ++ fifo r))
  | _, _ => None
  end.

Fixpoint rrun (s : spsc) (ops : list rop) : option spsc :=
  match ops with [] => Some s | o :: ops' => match rstep s o with None => None | Some s' => rrun s' ops' end end.

(** ** The ring is a bounded FIFO *)

Lemma cell_mod i : cell i = Z.to_nat (i mod 2048).
Proof. unfold cell. by change 2047 with (Z.ones 11); rewrite Z.land_ones by lia. Qed.

Lemma cell_lt i : (cell i < 2048)%nat.
Proof. rewrite cell_mod. pose proof (Z.mod_pos_bound i 2048). lia. Qed.

Lemma cell_inj i j : cell i = cell j -> i mod 2048 = j mod 2048.
Proof. rewrite !cell_mod. pose proof (Z.mod_pos_bound i 2048). pose proof (Z.mod_pos_bound j 2048). lia. Qed.

(** The indices are 16-bit words at most 2047 apart. *)
Definition ring_ok (r : ring_t) : Prop :=
  0 <= r_head r < 65536 /\ 0 <= r_tail r < 65536 /\ ring_used r <= 2047 /\ length (r_buf r) = 2048%nat.

Lemma ring_used_range r : 0 <= ring_used r < 65536.
Proof. apply u16_range. Qed.

Lemma fifo_length r : length (fifo r) = Z.to_nat (ring_used r).
Proof. unfold fifo. by rewrite length_map, length_seq. Qed.

Lemma fifo_lookup r i : (i < Z.to_nat (ring_used r))%nat -> fifo r !! i = Some (nth (cell (r_tail r + Z.of_nat i)) (r_buf r) 0).
Proof. intros Hi. unfold fifo. rewrite list_lookup_fmap, lookup_seq_lt by done. done. Qed.

(** The rings of the same tail whose cells agree on what is queued. *)
Lemma fifo_ext r r' : r_tail r' = r_tail r -> ring_used r' = ring_used r ->
  (forall i, (i < Z.to_nat (ring_used r))%nat -> nth (cell (r_tail r + Z.of_nat i)) (r_buf r') 0 = nth (cell (r_tail r + Z.of_nat i)) (r_buf r) 0) ->
  fifo r' = fifo r.
Proof. intros Et Eu E. unfold fifo. rewrite Et, Eu. apply map_ext_in. intros i Hi%in_seq. apply E. lia. Qed.

Lemma nth_insert_ne (m : list Z) i j b : i <> j -> nth j (<[i := b]> m) 0 = nth j m 0.
Proof. intros H. rewrite !nth_lookup. by rewrite list_lookup_insert_ne. Qed.

Lemma nth_insert_eq (m : list Z) i b : (i < length m)%nat -> nth i (<[i := b]> m) 0 = b.
Proof. intros H. apply nth_lookup_Some, list_lookup_insert_eq, H. Qed.

(** A cell past the head is none of the queued ones. *)
Lemma cell_free r k i : ring_ok r -> 0 <= k -> ring_used r + k <= 2047 -> 0 <= i < ring_used r -> cell (r_head r + k) <> cell (r_tail r + i).
Proof.
  intros (Hh & Ht & Hu & _) Hk Hs Hi E%cell_inj. unfold ring_used in *. wrap_lia.
Qed.

Lemma cell_head_ne h j k : 0 <= j < k -> k <= 2047 -> cell (h + j) <> cell (h + k).
Proof. intros Hj Hk E%cell_inj. Z.div_mod_to_equations; lia. Qed.

(** What the worker copied so far waits past the head. *)
Definition copied_ok (r : ring_t) (p : prod) : Prop :=
  match p with
  | PIdle => True
  | PCopy hd copied todo =>
      hd = r_head r /\ ring_used r + Z.of_nat (length copied + length todo) <= 2047 /\
      (forall i, (i < length copied)%nat -> nth (cell (r_head r + Z.of_nat i)) (r_buf r) 0 = nth i copied 0)
  end.

Definition peek_ok (r : ring_t) (p : option (Z * Z)) : Prop :=
  match p with
  | None => True
  | Some (pos, len) => pos = r_tail r mod 2048 /\ 0 < len <= ring_used r /\ pos + len <= 2048
  end.

Record spsc_ok (s : spsc) : Prop := {
  ok_ring : ring_ok (ring s);
  ok_copied : copied_ok (ring s) (producer s);
  ok_peek : peek_ok (ring s) (peeked s);
  ok_bytes : published s = removed s ++ fifo (ring s);
}.

Lemma peek_spec r : ring_ok r -> peek_ok r (ring_peek r) /\ (ring_peek r = None <-> fifo r = []).
Proof.
  intros (Hh & Ht & Hu & Hl). unfold ring_peek. fold (ring_used r).
  assert (Hf : fifo r = [] <-> ring_used r = 0).
  { rewrite <- length_zero_iff_nil, fifo_length. pose proof (ring_used_range r). lia. }
  rewrite Hf. pose proof (ring_used_range r) as Hr. destruct (Z.eqb_spec (ring_used r) 0) as [E|E]; [done|].
  change 2047 with (Z.ones 11). rewrite Z.land_ones by lia. change (2 ^ 11) with 2048.
  pose proof (Z.mod_pos_bound (r_tail r) 2048 ltac:(lia)) as Hm. rewrite (u16_id (r_tail r mod 2048)), (u16_id (2048 - _)) by lia.
  split; [cbn|done]. destruct (Z.ltb_spec (ring_used r) (2048 - r_tail r mod 2048)); lia.
Qed.

(** The run peeked at is the front of the queue. *)
Lemma peeked_bytes r pos len n : ring_ok r -> peek_ok r (Some (pos, len)) -> 0 <= n <= len ->
  bytes_from (r_buf r) pos n = take (Z.to_nat n) (fifo r).
Proof.
  intros (Hh & Ht & Hu & Hl) (-> & Hlen & Hend) Hn. unfold bytes_from. pose proof (Z.mod_pos_bound (r_tail r) 2048 ltac:(lia)).
  apply list_eq. intros i. destruct (decide (i < Z.to_nat n)%nat) as [Hi|Hi].
  - rewrite !lookup_take_lt, lookup_drop, fifo_lookup by lia. rewrite cell_mod.
    replace ((r_tail r + Z.of_nat i) mod 2048) with (r_tail r mod 2048 + Z.of_nat i) by (Z.div_mod_to_equations; lia).
    replace (Z.to_nat (r_tail r mod 2048 + Z.of_nat i)) with (Z.to_nat (r_tail r mod 2048) + i)%nat by lia.
    destruct (lookup_lt_is_Some_2 (r_buf r) (Z.to_nat (r_tail r mod 2048) + i)) as [x Ex]; [lia|].
    by rewrite Ex, (nth_lookup_Some _ _ _ _ Ex).
  - by rewrite !lookup_take_ge by lia.
Qed.

Lemma advance_spec r n : ring_ok r -> 0 <= n <= ring_used r ->
  ring_ok (ring_advance r n) /\ ring_used (ring_advance r n) = ring_used r - n /\ fifo (ring_advance r n) = drop (Z.to_nat n) (fifo r).
Proof.
  intros (Hh & Ht & Hu & Hl) Hn.
  assert (Eu : ring_used (ring_advance r n) = ring_used r - n) by (unfold ring_used in *; cbn; wrap_lia).
  split; [|split; [done|]].
  - pose proof (u16_range (r_tail r + n)). unfold ring_ok. rewrite Eu. cbn. lia.
  - apply list_eq. intros i. rewrite lookup_drop. destruct (decide (i < Z.to_nat (ring_used r - n))%nat) as [Hi|Hi].
    + rewrite !fifo_lookup by (rewrite ?Eu; lia). cbn. rewrite !cell_mod. do 3 f_equal. unfold u16. Z.div_mod_to_equations; lia.
    + rewrite !lookup_ge_None_2 by (rewrite fifo_length, ?Eu; lia). done.
Qed.

Lemma begin_ok s bs s' : spsc_ok s -> rstep s (PBegin bs) = Some s' ->
  spsc_ok s' /\ published s' = published s /\ (producer s' = producer s \/ producer s' = PCopy (r_head (ring s)) [] bs).
Proof.
  intros [Hr Hc Hp Hb] E. cbn in E. destruct (producer s) eqn:Ep; [|done].
  destruct (Z.ltb_spec (ring_free (ring s)) (Z.of_nat (length bs))) as [Hlt|Hge]; simplify_eq/=.
  - split; [by constructor; rewrite ?Ep|auto].
  - split; [|auto]. constructor; cbn; try done. split_and!; [done| |lia].
    unfold ring_free, ring_used in *. lia.
Qed.

Lemma take_byte_ok s s' : spsc_ok s -> rstep s PByte = Some s' -> spsc_ok s' /\ published s' = published s.
Proof.
  intros [Hr Hc Hp Hb] E. cbn in E. destruct (producer s) as [|hd copied [|b todo]] eqn:Ep; simplify_eq/=.
  destruct Hc as (-> & Hroom & Hcop). cbn [length] in Hroom. pose proof (ring_used_range (ring s)). pose proof Hr as (Hh & Ht & Hu & Hl).
  set (m := <[cell (r_head (ring s) + Z.of_nat (length copied)) := b]> (r_buf (ring s))).
  assert (Hf : fifo (Ring (r_head (ring s)) (r_tail (ring s)) m) = fifo (ring s)).
  { apply fifo_ext; [done|done|]. intros i Hi. cbn [r_buf]. unfold m. apply nth_insert_ne, cell_free; (done || lia). }
  split; [constructor; cbn|done].
  - unfold ring_ok, ring_used in *. cbn. unfold m. rewrite length_insert. lia.
  - split_and!; [done|unfold ring_used in *; cbn; rewrite length_app; cbn; lia|].
    intros i Hi. rewrite length_app in Hi. cbn in Hi. unfold m. destruct (decide (i = length copied)) as [->|Hne].
    + rewrite nth_insert_eq by (rewrite Hl; apply cell_lt). by rewrite nth_middle.
    + rewrite nth_insert_ne, app_nth1 by (lia || (intros E; symmetry in E; revert E; apply cell_head_ne; lia)). apply Hcop. lia.
  - exact Hp.
  - by rewrite Hf.
Qed.

Lemma publish_ok s s' : spsc_ok s -> rstep s PPublish = Some s' ->
  spsc_ok s' /\ exists hd copied, producer s = PCopy hd copied [] /\ published s' = published s ++ copied.
Proof.
  intros [Hr Hc Hp Hb] E. cbn in E. destruct (producer s) as [|hd copied [|b todo]] eqn:Ep; simplify_eq/=.
  destruct Hc as (-> & Hroom & Hcop). cbn [length] in Hroom. pose proof (ring_used_range (ring s)). pose proof Hr as (Hh & Ht & Hu & Hl).
  set (r := ring s) in *. set (r' := Ring (u16 (r_head r + Z.of_nat (length copied))) (r_tail r) (r_buf r)).
  assert (Eu : ring_used r' = ring_used r + Z.of_nat (length copied)) by (unfold ring_used in *; cbn; wrap_lia).
  assert (Hf : fifo r' = fifo r ++ copied).
  { apply list_eq. intros i. destruct (decide (i < Z.to_nat (ring_used r'))%nat) as [Hi|Hi].
    - rewrite fifo_lookup by done. destruct (decide (i < Z.to_nat (ring_used r))%nat) as [Hj|Hj].
      + by rewrite lookup_app_l, fifo_lookup by (rewrite ?fifo_length; done).
      + rewrite lookup_app_r by (rewrite fifo_length; lia). rewrite fifo_length. set (k := (i - Z.to_nat (ring_used r))%nat).
        assert (Hk : (k < length copied)%nat) by lia. destruct (lookup_lt_is_Some_2 copied k Hk) as [x Ex]. rewrite Ex. f_equal.
        rewrite <- (nth_lookup_Some _ _ 0 _ Ex), <- Hcop by done. cbn [r_buf r_tail r']. f_equal. rewrite !cell_mod. f_equal.
        assert (Ek : Z.of_nat k = Z.of_nat i - ring_used r) by lia. rewrite Ek. clear - Hh Ht Hu. unfold ring_used in *. wrap_lia.
    - rewrite !lookup_ge_None_2; [done|rewrite length_app, fifo_length; lia|rewrite fifo_length; lia]. }
  split; [|by exists (r_head r), copied]. constructor; cbn.
  - pose proof (u16_range (r_head r + Z.of_nat (length copied))). unfold ring_ok. rewrite Eu. cbn. lia.
  - done.
  - destruct (peeked s) as [[pos len]|]; [|done]. destruct Hp as (? & ? & ?). cbn [peek_ok]. rewrite Eu. cbn. fold r'. lia.
  - fold r'. by rewrite Hf, Hb, app_assoc.
Qed.

Lemma peek_step_ok s s' : spsc_ok s -> rstep s CPeek = Some s' -> spsc_ok s' /\ published s' = published s.
Proof.
  intros [Hr Hc Hp Hb] E. cbn in E. destruct (producer s) eqn:Ep; simplify_eq/=; (split; [constructor; cbn; try done; by apply peek_spec|done]).
Qed.

(** A smaller use leaves what the worker copied in place. *)
Lemma copied_less r r' p : copied_ok r p -> r_head r' = r_head r -> r_buf r' = r_buf r -> ring_used r' <= ring_used r -> copied_ok r' p.
Proof. destruct p as [|hd copied todo]; cbn; [done|]. intros (-> & H1 & H2) -> -> Hu. split_and!; [done|lia|done]. Qed.

Lemma advance_ok s n s' : spsc_ok s -> rstep s (CAdvance n) = Some s' -> spsc_ok s' /\ published s' = published s.
Proof.
  intros [Hr Hc Hp Hb] E. assert (E' : exists pos len, peeked s = Some (pos, len) /\ 0 <= n <= len /\
    s' = Spsc (ring_advance (ring s) n) (producer s) None (published s) (removed s ++ bytes_from (r_buf (ring s)) pos n)).
  { cbn in E. destruct (producer s), (peeked s) as [[pos len]|]; try done;
      (destruct (Z.leb_spec 0 n), (Z.leb_spec n len); cbn in E; [|done..]; simplify_eq; by exists pos, len). }
  destruct E' as (pos & len & Epk & Hn & ->). rewrite Epk in Hp. pose proof Hp as (_ & Hlen & _).
  destruct (advance_spec (ring s) n Hr ltac:(lia)) as (Hr' & Hu' & Hf').
  split; [constructor; cbn|done]; [done| |done|].
  - apply (copied_less (ring s)); try done. rewrite Hu'. lia.
  - rewrite (peeked_bytes _ pos len), Hf' by done. by rewrite Hb, <- app_assoc, take_drop.
Qed.

Lemma reset_ok s s' : spsc_ok s -> rstep s CReset = Some s' -> spsc_ok s' /\ published s' = published s.
Proof.
  intros [Hr Hc Hp Hb] E. pose proof Hr as (Hh & Ht & Hu & Hl).
  assert (E' : s' = Spsc (ring_reset (ring s)) (producer s) None (published s) (removed s ++ fifo (ring s))) by (cbn in E; by destruct (producer s); simplify_eq).
  subst s'. assert (Eu : ring_used (ring_reset (ring s)) = 0) by (unfold ring_used; cbn; by rewrite Z.sub_diag).
  assert (Hf : fifo (ring_reset (ring s)) = []) by (unfold fifo; by rewrite Eu). pose proof (ring_used_range (ring s)).
  split; [constructor; cbn|done]; [| |done|].
  - unfold ring_ok. rewrite Eu. cbn. lia.
  - apply (copied_less (ring s)); try done. lia.
  - by rewrite Hf, app_nil_r.
Qed.

Lemma rstep_ok s o s' : spsc_ok s -> rstep s o = Some s' -> spsc_ok s'.
Proof.
  intros Hs E. destruct o.
  - by destruct (begin_ok s bs s' Hs E).
  - by destruct (take_byte_ok s s' Hs E).
  - by destruct (publish_ok s s' Hs E).
  - by destruct (peek_step_ok s s' Hs E).
  - by destruct (advance_ok s n s' Hs E).
  - by destruct (reset_ok s s' Hs E).
Qed.

Lemma init_ok : spsc_ok spsc_init.
Proof. constructor; cbn; try done; by vm_compute. Qed.

Lemma rrun_ok ops : forall s s', spsc_ok s -> rrun s ops = Some s' -> spsc_ok s'.
Proof.
  induction ops as [|o ops IH]; intros s s' Hs E; cbn [rrun] in E; [by simplify_eq|].
  destruct (rstep s o) as [s1|] eqn:E1; [|done]. eapply IH, E. by eapply rstep_ok.
Qed.

(** The writes a run accepts, and the one still being copied. *)
Fixpoint accepted_writes (s : spsc) (ops : list rop) : list (list Z) :=
  match ops with
  | [] => []
  | o :: ops' =>
      (match o, producer s with PBegin bs, PIdle => if ring_free (ring s) <? Z.of_nat (length bs) then [] else [bs] | _, _ => [] end) ++
      match rstep s o with None => [] | Some s' => accepted_writes s' ops' end
  end.
Definition in_progress (p : prod) : list Z := match p with PIdle => [] | PCopy _ copied todo => copied ++ todo end.

Lemma rstep_accepted s o s' : rstep s o = Some s' ->
  published s' ++ in_progress (producer s') = (published s ++ in_progress (producer s)) ++
  concat (match o, producer s with PBegin bs, PIdle => if ring_free (ring s) <? Z.of_nat (length bs) then [] else [bs] | _, _ => [] end).
Proof.
  intros E. destruct o; cbn in E; destruct (producer s) as [|hd copied [|b todo]] eqn:Ep; try done.
  all: repeat case_match; simplify_eq/=; rewrite ?Ep; cbn [in_progress]; rewrite ?app_nil_r; try done; by rewrite <- app_assoc.
Qed.

Lemma rrun_accepted ops : forall s s', rrun s ops = Some s' ->
  published s' ++ in_progress (producer s') = (published s ++ in_progress (producer s)) ++ concat (accepted_writes s ops).
Proof.
  induction ops as [|o ops IH]; intros s s' E; cbn [rrun accepted_writes] in *; [simplify_eq; by rewrite app_nil_r|].
  destruct (rstep s o) as [s1|] eqn:E1; [|done]. rewrite (IH _ _ E), (rstep_accepted s o s1 E1), concat_app. by rewrite <- !app_assoc.
Qed.

(** C11: However the two tasks interleave, step by step and across the wrap-around of
    the 16-bit indices, what the net task takes out of a ring is what the worker
    published, in order, none lost and none twice; a write is published whole or
    not at all, and at most 2047 bytes wait. *)
Theorem ring_refines_fifo (ops : list rop) (s : spsc) :
  rrun spsc_init ops = Some s ->
  published s = removed s ++ fifo (ring s) /\ (length (fifo (ring s)) <= 2047)%nat /\
  published s ++ in_progress (producer s) = concat (accepted_writes spsc_init ops).
Proof.
  intros E. destruct (rrun_ok ops _ _ init_ok E) as [(_ & _ & Hu & _) _ _ Hb]. split_and!; [done|rewrite fifo_length; lia|].
  apply (rrun_accepted ops spsc_init s E).
Qed.

(** A reply of two bytes, read while the next one is being copied. *)
Lemma ring_refines_fifo_witness :
  let ops := [PBegin [65; 66]; PByte; PByte; PPublish; CPeek; PBegin [67]; PByte; CAdvance 1; PPublish] in
  let s := default spsc_init (rrun spsc_init ops) in
  removed s = [65] /\ fifo (ring s) = [66; 67] /\ published s = removed s ++ fifo (ring s).
Proof.
  intros ops s. split_and!; [by vm_compute|by vm_compute|]. refine (proj1 (ring_refines_fifo ops s _)). by vm_compute.
Defined.

(** ** The operations are their steps *)

Lemma copy_steps bs : forall r copied pk pub rem,
  rrun (Spsc r (PCopy (r_head r) copied bs) pk pub rem) (replicate (length bs) PByte) =
  Some (Spsc (Ring (r_head r) (r_tail r) (ring_copy (r_buf r) (r_head r + Z.of_nat (length copied)) bs)) (PCopy (r_head r) (copied ++ bs) []) pk pub rem).
Proof.
  induction bs as [|b bs IH]; intros r copied pk pub rem; cbn [length replicate rrun ring_copy].
  - rewrite app_nil_r. by destruct r.
  - cbn [rstep producer ring peeked published removed]. set (r' := Ring (r_head r) (r_tail r) _). change (r_head r) with (r_head r') at 1.
    rewrite IH. cbn [r_head r_tail r_buf r']. rewrite length_app, <- app_assoc. cbn [length app]. do 4 f_equal. lia.
Qed.

Lemma rrun_app ops1 : forall s ops2, rrun s (ops1 ++ ops2) = match rrun s ops1 with None => None | Some s' => rrun s' ops2 end.
Proof. induction ops1 as [|o ops1 IH]; intros s ops2; cbn; [done|]. by destruct (rstep s o). Qed.

(** A write that runs to its end is [ring_write]. *)
Lemma write_steps r bs pk pub rem : (ring_free r <? Z.of_nat (length bs)) = false ->
  rrun (Spsc r PIdle pk pub rem) (PBegin bs :: replicate (length bs) PByte ++ [PPublish]) =
  Some (Spsc (fst (ring_write r bs)) PIdle pk (pub ++ bs) rem) /\ snd (ring_write r bs) = Z.of_nat (length bs).
Proof.
  intros Hroom. unfold ring_write. rewrite Hroom. split; [|done]. cbn [rrun rstep producer ring peeked published removed].
  rewrite Hroom, rrun_app, copy_steps. cbn [rrun rstep producer ring peeked published removed r_head r_tail r_buf app fst].
  by rewrite Z.add_0_r.
Qed.

Definition rings_ok (rs : list ring_t) : Prop := length rs = 8%nat /\ Forall ring_ok rs.

Lemma slot_range c : -1 <= conn_tx_slot c < 8.
Proof. unfold conn_tx_slot. branch; lia. Qed.

(** Two connections share a ring only if they are the same. *)
Lemma slot_inj c c' : conn_tx_slot c = conn_tx_slot c' -> 0 <= conn_tx_slot c -> c = c'.
Proof. unfold conn_tx_slot. intros. repeat case_match; lia. Qed.

Lemma ring_of_set rs c c' r : rings_ok rs -> 0 <= conn_tx_slot c -> c <> c' -> ring_of (set_ring rs c r) c' = ring_of rs c'.
Proof.
  intros _ Hs Hne. unfold ring_of, set_ring. destruct (Z.ltb_spec (conn_tx_slot c') 0); [done|].
  rewrite list_lookup_insert_ne; [done|]. intros E. apply Hne, slot_inj; lia.
Qed.

Lemma ring_of_set_eq rs c r : rings_ok rs -> 0 <= conn_tx_slot c -> ring_of (set_ring rs c r) c = Some r.
Proof.
  intros [Hl _] Hs. unfold ring_of, set_ring. destruct (Z.ltb_spec (conn_tx_slot c) 0); [lia|]. pose proof (slot_range c).
  apply list_lookup_insert_eq. lia.
Qed.

Lemma ring_of_some rs c r : rings_ok rs -> ring_of rs c = Some r -> ring_ok r /\ 0 <= conn_tx_slot c.
Proof.
  intros [_ Hf]. unfold ring_of. destruct (Z.ltb_spec (conn_tx_slot c) 0); [done|]. intros E. split; [|done].
  by eapply Forall_lookup_1 in E.
Qed.

Lemma ring_write_spec r bs : ring_ok r -> Z.of_nat (length bs) <= ring_free r ->
  ring_ok (fst (ring_write r bs)) /\ snd (ring_write r bs) = Z.of_nat (length bs) /\ fifo (fst (ring_write r bs)) = fifo r ++ bs.
Proof.
  intros Hr Hroom. assert (Hb : (ring_free r <? Z.of_nat (length bs)) = false) by lia.
  destruct (write_steps r bs None (fifo r) [] Hb) as [E ->].
  assert (H0 : spsc_ok (Spsc r PIdle None (fifo r) [])) by by constructor.
  pose proof (rrun_ok _ _ _ H0 E) as [Hr' _ _ Hf]. cbn in *. by rewrite Hf.
Qed.

(** A write appends all its bytes to its connection's queue and returns their
    number, or (no room, or a connection without a ring) returns 0 and changes
    nothing; the other connections' queues never change. *)
Theorem conn_tx_write_spec (rs : list ring_t) (c : Z) (bs : list Z) :
  rings_ok rs ->
  let '(rs', n) := conn_tx_write rs c bs in
  (n = 0 /\ rs' = rs /\ (bs = [] \/ conn_tx_free rs c < Z.of_nat (length bs)) \/
   n = Z.of_nat (length bs) /\ Z.of_nat (length bs) <= conn_tx_free rs c /\
   exists r r', ring_of rs c = Some r /\ ring_of rs' c = Some r' /\ ring_ok r' /\ fifo r' = fifo r ++ bs) /\
  (forall c', c' <> c -> ring_of rs' c' = ring_of rs c').
Proof.
  intros Hrs. unfold conn_tx_write, conn_tx_free. destruct (ring_of rs c) as [r|] eqn:E.
  - destruct (ring_of_some rs c r Hrs E) as [Hr Hs]. destruct (Z.ltb_spec (ring_free r) (Z.of_nat (length bs))) as [Hlt|Hge].
    + replace (ring_write r bs) with (r, 0) by (unfold ring_write; by replace (ring_free r <? Z.of_nat (length bs)) with true by lia).
      assert (Eset : set_ring rs c r = rs).
      { apply list_insert_id. unfold ring_of in E. by destruct (conn_tx_slot c <? 0). }
      rewrite Eset. split; [left; auto|done].
    + destruct (ring_write_spec r bs Hr Hge) as (Hr' & Hn & Hf). destruct (ring_write r bs) as [r' n]. cbn in *. split.
      * right. split_and!; [done|done|]. exists r, r'. split_and!; try done. by apply ring_of_set_eq.
      * intros c' Hne. by apply ring_of_set.
  - split; [|done]. left. split_and!; [done|done|]. destruct bs; [by left|right; cbn; lia].
Qed.

Lemma conn_tx_write_spec_witness :
  let '(rs', n) := conn_tx_write s_rings 7 [104; 105] in
  n = 2 /\ (forall c', c' <> 7 -> ring_of rs' c' = ring_of s_rings c').
Proof.
  split; [by vm_compute|]. assert (H : rings_ok s_rings) by (by split; [vm_compute|apply Forall_replicate; vm_compute]).
  exact (proj2 (conn_tx_write_spec s_rings 7 [104; 105] H)).
Defined.
