(* ===== verification/WsFrame.v ===== *)
(** * WebSocket framing and the receive buffer ([ws_frame.c], [cloud_rx.c])

    A frame parsed is its opcode, FIN and payload (the bytes the payload pointer
    spans). The receive buffer is the list of its used bytes. *)

From S2P Require Import Prelude.

Abbreviation WS_OP_CONT := 0.
Abbreviation WS_OP_TEXT := 1.
Abbreviation WS_OP_BIN := 2.
Abbreviation WS_OP_CLOSE := 8.
Abbreviation WS_OP_PING := 9.
Abbreviation WS_OP_PONG := 10.
Abbreviation WS_PARSE_FRAGMENTED := (-2).

Record ws_frame_t := WsFrame { opcode : Z; fin : bool; payload : list Z }.

(** The masking loop, [i] bytes in. *)
Fixpoint mask_loop (mask_key : list Z) (i : nat) (p : list Z) : list Z :=
  match p with [] => [] | b :: p' => Z.lxor b (nth (Nat.modulo i 4) mask_key 0) :: mask_loop mask_key (S i) p' end.

(** [i & 3] is [i mod 4]. An empty result is the 0 of a refusal. *)
Definition ws_build_frame (op : Z) (p mask_key : list Z) (out_cap : Z) : list Z :=
  let len := Z.of_nat (length p) in
  if 65535 <? len then []
  else
    let hdr := 2 in
    let hdr := if 126 <=? len then hdr + 2 else hdr in
    let hdr := hdr + 4 in
    if out_cap <? hdr + len then []
    else
      Z.lor 128 (Z.land op 15) ::
      (if len <? 126 then [Z.lor 128 (u8 len)] else [Z.lor 128 126; u8 (Z.shiftr len 8); Z.land len 255]) ++
      take 4 mask_key ++ mask_loop mask_key 0 p.

Definition at_ (buf : list Z) (i : nat) : Z := nth i buf 0.

(** The 64-bit length, most significant byte first. *)
Definition be64 (bs : list Z) : Z := fold_left (fun n b => Z.lor (Z.shiftl n 8) b) bs 0.

(** The header: where the payload starts and how long it is, or the verdict. *)
Definition ws_header (buf : list Z) : Z + (nat * Z) :=
  let len := length buf in
  if (len <? 2)%nat then inl 0
  else
    let b0 := at_ buf 0 in
    let b1 := at_ buf 1 in
    if negb (Z.land b1 128 =? 0) then inl (-1)
    else if negb (Z.land b0 112 =? 0) then inl (-1)
    else if (Z.land b0 128 =? 0) || (Z.land b0 15 =? WS_OP_CONT) then inl WS_PARSE_FRAGMENTED
    else
      let payload_len := Z.land b1 127 in
      if payload_len =? 126 then
        if (len <? 4)%nat then inl 0 else inr (4%nat, Z.lor (Z.shiftl (at_ buf 2) 8) (at_ buf 3))
      else if payload_len =? 127 then
        if (len <? 10)%nat then inl 0
        else let n := be64 (sub 2 8 buf) in if 65535 <? n then inl (-1) else inr (10%nat, n)
      else inr (2%nat, payload_len).

Definition ws_parse_frame (buf : list Z) : Z * option ws_frame_t :=
  match ws_header buf with
  | inl r => (r, None)
  | inr (offset, payload_len) =>
      if Z.of_nat (length buf) <? Z.of_nat offset + payload_len then (0, None)
      else
        (Z.of_nat offset + payload_len,
         Some (WsFrame (Z.land (at_ buf 0) 15) (negb (Z.land (at_ buf 0) 128 =? 0)) (sub offset (Z.to_nat payload_len) buf)))
  end.

(** ** The receive buffer *)

Definition cloud_rx_append (buf : list Z) (cap : Z) (data : list Z) : option (list Z) :=
  if cap - Z.of_nat (length buf) <? Z.of_nat (length data) then None else Some (buf ++ data).
Definition cloud_rx_consume (buf : list Z) (n : nat) : list Z := if (length buf <=? n)%nat then [] else drop n buf.
Definition cloud_rx_refuse (cap len incoming : Z) : bool := (cap - len <? incoming) && (0 <? len).

(** ** Parsing *)

Lemma at_app buf more i : (i < length buf)%nat -> at_ (buf ++ more) i = at_ buf i.
Proof. intros H. unfold at_. by rewrite app_nth1. Qed.

(** A verdict on a prefix stays the same when more bytes arrive. *)
Lemma ws_header_more buf more : ws_header buf <> inl 0 -> ws_header (buf ++ more) = ws_header buf.
Proof.
  unfold ws_header. rewrite length_app. destruct (Nat.ltb_spec (length buf) 2); [done|].
  destruct (Nat.ltb_spec (length buf + length more) 2); [lia|]. rewrite !(at_app buf more 0), !(at_app buf more 1) by lia.
  destruct (negb (Z.land (at_ buf 1) 128 =? 0)); [done|]. destruct (negb (Z.land (at_ buf 0) 112 =? 0)); [done|].
  destruct ((Z.land (at_ buf 0) 128 =? 0) || _); [done|]. destruct (Z.land (at_ buf 1) 127 =? 126).
  { destruct (Nat.ltb_spec (length buf) 4); [done|]. destruct (Nat.ltb_spec (length buf + length more) 4); [lia|].
    by rewrite !(at_app buf more 2), !(at_app buf more 3) by lia. }
  destruct (Z.land (at_ buf 1) 127 =? 127); [|done].
  destruct (Nat.ltb_spec (length buf) 10); [done|]. destruct (Nat.ltb_spec (length buf + length more) 10); [lia|].
  by rewrite sub_app_l by lia.
Qed.

Lemma be64_bound bs : bytes_ok bs -> 0 <= be64 bs.
Proof.
  unfold be64. assert (H : forall n, 0 <= n -> bytes_ok bs -> 0 <= fold_left (fun n b => Z.lor (Z.shiftl n 8) b) bs n); [|by apply H].
  induction bs as [|b bs IH]; intros n Hn Hb; [done|]. inversion Hb as [|? ? Hb0 Hb']; subst. cbn [fold_left]. apply IH; [|done].
  apply Z.lor_nonneg. split; [by apply Z.shiftl_nonneg|unfold byte_ok in Hb0; lia].
Qed.

Lemma bytes_ok_at buf i : bytes_ok buf -> 0 <= at_ buf i < 256.
Proof.
  intros H. unfold at_. rewrite nth_lookup. destruct (buf !! i) eqn:E; cbn; [|lia]. eapply Forall_lookup_1 in E; [|done]. done.
Qed.

Lemma bytes_ok_sub off n buf : bytes_ok buf -> bytes_ok (sub off n buf).
Proof. intros H. unfold sub. by apply Forall_take, Forall_drop. Qed.

Lemma ws_header_range buf off n : bytes_ok buf -> ws_header buf = inr (off, n) -> (2 <= off <= 10)%nat /\ 0 <= n <= 65535 /\ (off <= length buf)%nat.
Proof.
  intros Hb. unfold ws_header. destruct (Nat.ltb_spec (length buf) 2); [done|]. pose proof (bytes_ok_at buf 1 Hb).
  pose proof (bytes_ok_at buf 2 Hb). pose proof (bytes_ok_at buf 3 Hb). pose proof (be64_bound (sub 2 8 buf) (bytes_ok_sub _ _ _ Hb)).
  destruct (negb _); [done|]. destruct (negb _); [done|]. destruct (_ || _); [done|]. destruct (_ =? 126).
  { destruct (Nat.ltb_spec (length buf) 4); [done|]. intros E. simplify_eq. rewrite lor_shiftl_add by lia. lia. }
  destruct (_ =? 127).
  { destruct (Nat.ltb_spec (length buf) 10); [done|]. destruct (Z.ltb_spec 65535 (be64 (sub 2 8 buf))); [done|]. intros E. simplify_eq. lia. }
  intros E. simplify_eq. pose proof (land_bound 127 (at_ buf 1)). rewrite Z.land_comm. lia.
Qed.

Lemma parse_range buf r fr : bytes_ok buf -> ws_parse_frame buf = (r, Some fr) ->
  2 <= r <= Z.of_nat (length buf) /\ r <= 65545 /\ (length (payload fr) <= Z.to_nat r)%nat.
Proof.
  intros Hb. unfold ws_parse_frame. destruct (ws_header buf) as [v|[off n]] eqn:Eh; [done|].
  destruct (ws_header_range buf off n Hb Eh) as (Ho & Hn & Hl). destruct (Z.ltb_spec (Z.of_nat (length buf)) (Z.of_nat off + n)); [done|].
  intros E. simplify_eq. cbn [payload]. rewrite sub_length by lia. lia.
Qed.

Lemma parse_sign buf r : bytes_ok buf -> ws_parse_frame buf = (r, None) -> r = 0 \/ r = -1 \/ r = WS_PARSE_FRAGMENTED.
Proof.
  intros Hb. unfold ws_parse_frame. destruct (ws_header buf) as [v|[off n]] eqn:Eh.
  - intros E. simplify_eq. revert Eh. unfold ws_header. repeat case_match; intros; simplify_eq; auto.
  - repeat case_match; intros; simplify_eq; auto.
Qed.

(** Nothing parsed changes when more bytes arrive. *)
Lemma parse_more buf more r fr : bytes_ok buf -> r <> 0 -> ws_parse_frame buf = (r, fr) -> ws_parse_frame (buf ++ more) = (r, fr).
Proof.
  intros Hb Hr E. unfold ws_parse_frame in *. destruct (ws_header buf) as [v|[off n]] eqn:Eh.
  - simplify_eq. rewrite ws_header_more, Eh by (rewrite Eh; congruence). done.
  - destruct (ws_header_range buf off n Hb Eh) as (Ho & Hn & Hl). rewrite ws_header_more, Eh by (rewrite Eh; congruence).
    rewrite length_app. destruct (Z.ltb_spec (Z.of_nat (length buf)) (Z.of_nat off + n)); [simplify_eq|].
    destruct (Z.ltb_spec (Z.of_nat (length buf + length more)) (Z.of_nat off + n)); [lia|].
    rewrite at_app, sub_app_l by lia. exact E.
Qed.

(** A frame completes within 65545 bytes. *)
Lemma parse_waits_bounded buf : bytes_ok buf -> 65545 <= Z.of_nat (length buf) -> fst (ws_parse_frame buf) <> 0.
Proof.
  intros Hb Hl. unfold ws_parse_frame. destruct (ws_header buf) as [v|[off n]] eqn:Eh.
  - cbn. intros ->. revert Eh. unfold ws_header. repeat case_match; intros; simplify_eq; try done;
    repeat match goal with H : (_ <? _)%nat = true |- _ => apply Nat.ltb_lt in H end; lia.
  - destruct (ws_header_range buf off n Hb Eh) as (Ho & Hn & _). destruct (Z.ltb_spec (Z.of_nat (length buf)) (Z.of_nat off + n)); cbn; lia.
Qed.

(** ** Against RFC 6455 *)

(** The frames of section 5.2: a server's (unmasked) with the shortest length
    field, and the reading of a masked one. *)
Definition rfc_length (n : Z) : list Z :=
  if n <? 126 then [n] else if n <? 65536 then [126; n / 256; n mod 256] else 127 :: rev (le 8 n).
Definition rfc_server_frame (op : Z) (p : list Z) : list Z := (128 + op) :: rfc_length (Z.of_nat (length p)) ++ p.

Definition rfc_unmask (key p : list Z) : list Z := imap (fun i b => Z.lxor b (nth (Nat.modulo i 4) key 0)) p.
Definition rfc_client_read (f : list Z) : option (Z * list Z) :=
  match f with
  | b0 :: b1 :: f1 =>
      if (b0 <? 128) || (b1 <? 128) then None
      else
        let '(n, f2) := if b1 - 128 =? 126 then (nth 0 f1 0 * 256 + nth 1 f1 0, drop 2 f1) else (b1 - 128, f1) in
        if Z.of_nat (length f2) =? 4 + n then Some (b0 - 128, rfc_unmask (take 4 f2) (drop 4 f2)) else None
  | _ => None
  end.

Lemma mask_loop_imap key p : forall i, mask_loop key i p = imap (fun j b => Z.lxor b (nth (Nat.modulo (i + j) 4) key 0)) p.
Proof.
  induction p as [|b p IH]; intros i; cbn [mask_loop]; [done|]. rewrite IH, imap_cons, Nat.add_0_r. f_equal.
  apply imap_ext. intros j x _. cbn. by rewrite Nat.add_succ_r.
Qed.

Lemma unmask_mask key p : rfc_unmask key (mask_loop key 0 p) = p.
Proof.
  rewrite mask_loop_imap. unfold rfc_unmask. apply list_eq. intros i. rewrite !list_lookup_imap. destruct (p !! i) as [b|]; cbn; [|done].
  f_equal. by rewrite Z.lxor_assoc, Z.lxor_nilpotent, Z.lxor_0_r.
Qed.

Lemma mask_loop_length key p i : length (mask_loop key i p) = length p.
Proof. revert i. induction p; intros; cbn; auto. Qed.

Lemma lor128 x : 0 <= x < 128 -> Z.lor 128 x = 128 + x.
Proof. intros H. change (Z.lor 128 x) with (Z.lor (Z.shiftl 1 7) x). rewrite lor_shiftl_add by (cbn; lia). lia. Qed.

Lemma land127 x : 128 <= x < 256 -> Z.land x 127 = x - 128.
Proof. intros H. change 127 with (Z.ones 7). rewrite Z.land_ones by lia. change (2 ^ 7) with 128. Z.div_mod_to_equations; lia. Qed.

(** The header bytes of a 4-bit opcode. *)
Lemma op_bits op : 0 <= op < 16 ->
  Z.lor 128 (Z.land op 15) = 128 + op /\ Z.land (128 + op) 112 = 0 /\ Z.land (128 + op) 128 = 128 /\ Z.land (128 + op) 15 = op.
Proof.
  intros H. assert (Hall : Forall (fun o => Z.lor 128 (Z.land o 15) = 128 + o /\ Z.land (128 + o) 112 = 0 /\ Z.land (128 + o) 128 = 128 /\ Z.land (128 + o) 15 = o)
    (map Z.of_nat (seq 0 16))) by (repeat constructor).
  eapply Forall_lookup_1 in Hall; [exact Hall|]. instantiate (1 := Z.to_nat op).
  rewrite list_lookup_fmap, lookup_seq_lt by lia. cbn. f_equal. lia.
Qed.

Lemma len7_bits n : 0 <= n < 128 -> Z.land n 128 = 0 /\ Z.land n 127 = n.
Proof.
  intros H. split.
  - apply Z.bits_inj_iff'. intros i Hi. rewrite Z.land_spec, Z.bits_0. change 128 with (2 ^ 7). rewrite Z.pow2_bits_eqb by lia.
    destruct (Z.eqb_spec 7 i) as [<-|]; [|by rewrite andb_false_r]. by rewrite (testbit_high 7) by (cbn; lia).
  - change 127 with (Z.ones 7). rewrite Z.land_ones by lia. apply Z.mod_small. cbn. lia.
Qed.

Lemma len16_bytes n : 0 <= n < 65536 -> u8 (Z.shiftr n 8) * 256 + Z.land n 255 = n.
Proof.
  intros H. change 255 with (Z.ones 8). rewrite Z.land_ones, Z.shiftr_div_pow2 by lia. change (2 ^ 8) with 256. wrap_lia.
Qed.

Lemma build_rfc op p key cap : 0 <= op < 16 -> length key = 4%nat ->
  let len := Z.of_nat (length p) in
  let f := ws_build_frame op p key cap in
  if (65535 <? len) || (cap <? len + (if len <? 126 then 6 else 8)) then f = []
  else rfc_client_read f = Some (op, p) /\ Z.of_nat (length f) <= cap.
Proof.
  intros Hop Hk len f. unfold f, ws_build_frame. fold len. destruct (op_bits op Hop) as (Eop & _).
  assert (Hml : length (mask_loop key 0 p) = length p) by apply mask_loop_length. assert (Hlen0 : len = Z.of_nat (length p)) by done. clearbody len.
  destruct (Z.ltb_spec 65535 len) as [|Hlen]; [done|]. cbn [orb]. rewrite Eop, (firstn_all2 key) by lia.
  destruct (Z.leb_spec 126 len) as [Hl|Hl], (Z.ltb_spec len 126) as [Hl'|Hl']; try lia.
  - replace (2 + 2 + 4 + len) with (len + 8) by lia. destruct (Z.ltb_spec cap (len + 8)); [done|].
    split; [|cbn [length]; rewrite !length_app; cbn [length]; lia].
    unfold rfc_client_read. cbn [app]. change (Z.lor 128 126) with 254. change (254 <? 128) with false. change (254 - 128 =? 126) with true.
    destruct (Z.ltb_spec (128 + op) 128); [lia|]. cbn [orb nth drop]. rewrite drop_0, len16_bytes, length_app, Hk, Hml by lia.
    destruct (Z.eqb_spec (Z.of_nat (4 + length p)) (4 + len)); [|lia].
    rewrite take_app_length', drop_app_length', unmask_mask by done. do 2 f_equal. lia.
  - replace (2 + 4 + len) with (len + 6) by lia. destruct (Z.ltb_spec cap (len + 6)); [done|]. rewrite u8_id, lor128 by lia.
    split; [|cbn [length]; rewrite !length_app; cbn [length]; lia].
    unfold rfc_client_read. cbn [app]. destruct (Z.ltb_spec (128 + op) 128), (Z.ltb_spec (128 + len) 128); try lia. cbn [orb].
    destruct (Z.eqb_spec (128 + len - 128) 126); [lia|]. rewrite length_app, Hk, Hml.
    destruct (Z.eqb_spec (Z.of_nat (4 + length p)) (4 + (128 + len - 128))); [|lia].
    rewrite take_app_length', drop_app_length', unmask_mask by done. do 2 f_equal. lia.
Qed.

(** A header that opens one final unmasked frame of opcode [op]. *)
Lemma parse_rfc op p more : 0 <= op < 16 -> op <> WS_OP_CONT -> Z.of_nat (length p) <= 65535 ->
  ws_parse_frame (rfc_server_frame op p ++ more) = (Z.of_nat (length (rfc_server_frame op p)), Some (WsFrame op true p)).
Proof.
  intros Hop Hcont Hlen. destruct (op_bits op Hop) as (_ & E112 & E128 & E15). set (len := Z.of_nat (length p)) in *.
  assert (Hlen0 : len = Z.of_nat (length p)) by done. unfold rfc_server_frame. fold len. clearbody len.
  assert (Hhdr : forall off hd, hd = (128 + op) :: rfc_length len -> off = length hd -> ws_header (hd ++ p ++ more) = inr (off, len) ->
    ws_parse_frame ((hd ++ p) ++ more) = (Z.of_nat (length (hd ++ p)), Some (WsFrame op true p))).
  { intros off hd -> -> Eh. unfold ws_parse_frame. rewrite <- app_assoc, Eh. rewrite !length_app.
    destruct (Z.ltb_spec (Z.of_nat (length ((128 + op) :: rfc_length len) + (length p + length more))) (Z.of_nat (length ((128 + op) :: rfc_length len)) + len)); [lia|].
    change (at_ (((128 + op) :: rfc_length len) ++ p ++ more) 0) with (128 + op). rewrite E15, E128, sub_app_r.
    rewrite take_app_length' by lia. do 2 f_equal. lia. }
  apply (Hhdr _ ((128 + op) :: rfc_length len) eq_refl eq_refl). clear Hhdr. unfold ws_header, rfc_length.
  destruct (Z.ltb_spec len 126) as [Hl|Hl]; [|destruct (Z.ltb_spec len 65536); [|lia]]; cbn [app length at_ nth Nat.ltb Nat.leb];
    rewrite E112, E128, E15; cbn [negb orb Z.eqb]; (destruct (Z.eqb_spec op WS_OP_CONT); [done|]); change (128 =? 0) with false; cbn [orb].
  - destruct (len7_bits len ltac:(lia)) as [-> ->]. change (negb (0 =? 0)) with false.
    destruct (Z.eqb_spec len 126), (Z.eqb_spec len 127); try lia. done.
  - change (Z.land 126 128) with 0. change (Z.land 126 127) with 126. change (negb (0 =? 0)) with false. change (126 =? 126) with true.
    assert (E : Z.lor (Z.shiftl (len / 256) 8) (len mod 256) = len).
    { rewrite lor_shiftl_add by (change (2 ^ 8) with 256; Z.div_mod_to_equations; lia). change (2 ^ 8) with 256. Z.div_mod_to_equations; lia. }
    by rewrite E.
Qed.


