(* ===== verification/ReplyCap.v ===== *)
(** * The captured reply of a cloud command ([cloud_reply_cap.c])

    The counters are the lengths themselves (a handler's reply is far below the
    32 bits of [size_t]); the buffer is the list of its used bytes. *)

From S2P Require Import Prelude.

Abbreviation CLOUD_REPLY_CAP_MAX := 1792%nat.

Record cap_t := Cap { s_buf : list Z; s_want : nat; s_nl : nat; s_active : bool }.

Definition cap_init : cap_t := Cap [] 0 0 false.

Definition cloud_reply_cap_begin (c : cap_t) : cap_t := Cap [] 0 0 true.

Definition is_eol (b : Z) : bool := (b =? 10) || (b =? 13).
Definition nl_count (nl : nat) (buf : list Z) : nat := fold_left (fun n b => if is_eol b then S n else O) buf nl.

Definition cloud_reply_cap_append (c : cap_t) (buf : list Z) : cap_t :=
  if negb (s_active c) then c
  else
    let space := (CLOUD_REPLY_CAP_MAX - 1 - length (s_buf c))%nat in
    Cap (s_buf c ++ take space buf) (s_want c + length buf) (nl_count (s_nl c) buf) true.

Definition err_reply (out_cap : nat) (msg : cstr) : cstr :=
  let s := str "{" ++ [34] ++ str "status" ++ [34; 58; 34] ++ str "error" ++ [34; 44; 34] ++ str "message" ++ [34; 58; 34] ++ msg ++ [34] ++ str "}" in
  if (length s <? out_cap)%nat then s else [].

Definition too_large (want limit : nat) : cstr :=
  snprintf_cut 96 (str "reply too large for the cloud channel (" ++ dec (Z.of_nat want) ++ str " bytes, limit " ++ dec (Z.of_nat limit) ++ str ")").

(** The reply; an empty one is the 0 of a buffer too small even for the error. *)
Definition cloud_reply_cap_end (c : cap_t) (out_cap : nat) : cap_t * cstr :=
  let c := Cap (s_buf c) (s_want c) (s_nl c) false in
  if (out_cap =? 0)%nat then (c, [])
  else
    let want := (s_want c - s_nl c)%nat in
    let c := if (want <? length (s_buf c))%nat then Cap (take want (s_buf c)) (s_want c) (s_nl c) false else c in
    let limit := ((if (out_cap <? CLOUD_REPLY_CAP_MAX)%nat then out_cap else CLOUD_REPLY_CAP_MAX) - 1)%nat in
    if (length (s_buf c) <? want)%nat || (limit <? length (s_buf c))%nat then (c, err_reply out_cap (too_large want limit))
    else if (length (s_buf c) =? 0)%nat then (c, err_reply out_cap (str "no reply"))
    else (c, s_buf c).

(** A handler's run: the chunks it writes between begin and end. *)
Definition captured (c : cap_t) (chunks : list (list Z)) (out_cap : nat) : cstr :=
  snd (cloud_reply_cap_end (fold_left cloud_reply_cap_append chunks (cloud_reply_cap_begin c)) out_cap).

(** ** The reply is whole or an error *)

(** What the handler wrote without its final line ending. *)
Fixpoint strip_front (l : list Z) : list Z := match l with b :: l' => if is_eol b then strip_front l' else l | [] => [] end.
Definition strip_eol (l : list Z) : list Z := rev (strip_front (rev l)).

Lemma nl_count_app nl l1 l2 : nl_count nl (l1 ++ l2) = nl_count (nl_count nl l1) l2.
Proof. unfold nl_count. by rewrite fold_left_app. Qed.

Lemma strip_snoc l b : strip_eol (l ++ [b]) = if is_eol b then strip_eol l else l ++ [b].
Proof.
  unfold strip_eol. rewrite rev_unit. cbn [strip_front]. destruct (is_eol b); [done|]. cbn [rev]. by rewrite rev_involutive.
Qed.

Lemma strip_nl l : strip_eol l = take (length l - nl_count 0 l) l /\ (nl_count 0 l <= length l)%nat.
Proof.
  induction l as [|b l [IH Hle]] using rev_ind; [done|]. rewrite strip_snoc, nl_count_app, length_app. cbn [nl_count fold_left length].
  destruct (is_eol b).
  - split; [|lia]. replace (length l + 1 - S (nl_count 0 l))%nat with (length l - nl_count 0 l)%nat by lia.
    rewrite IH. by rewrite take_app_le by lia.
  - split; [|lia]. by rewrite firstn_all2 by (rewrite length_app; cbn; lia).
Qed.

(** The capture after the chunks: what fits of what was written. *)
Lemma append_all chunks : forall c, s_active c = true -> (length (s_buf c) <= 1791)%nat ->
  let c' := fold_left cloud_reply_cap_append chunks c in
  s_active c' = true /\ s_want c' = (s_want c + length (concat chunks))%nat /\ s_nl c' = nl_count (s_nl c) (concat chunks) /\
  s_buf c' = s_buf c ++ take (1791 - length (s_buf c)) (concat chunks).
Proof.
  induction chunks as [|b chunks IH]; intros c Ha Hl; cbv zeta; cbn [fold_left concat].
  { rewrite take_nil, app_nil_r, Nat.add_0_r. done. }
  assert (E : cloud_reply_cap_append c b = Cap (s_buf c ++ take (1791 - length (s_buf c)) b) (s_want c + length b) (nl_count (s_nl c) b) true)
    by (unfold cloud_reply_cap_append; by rewrite Ha).
  rewrite E. clear E. set (c1 := Cap _ _ _ true).
  destruct (IH c1 eq_refl ltac:(unfold c1; cbn [s_buf]; rewrite length_app, length_take; lia)) as (I1 & I2 & I3 & I4).
  rewrite I1, I2, I3, I4. unfold c1. cbn [s_want s_nl s_buf]. rewrite nl_count_app, !length_app. split_and!; [done|lia|done|].
  rewrite <- app_assoc, take_app, length_take. do 3 f_equal. lia.
Qed.

(** C19: The reply of a cloud command is exactly what the handler wrote, without its
    final line ending, whatever the chunks it came in; when that is longer than the
    capture or the caller's buffer can hold, or nothing, it is an error reply that
    says so, and never a reply cut short. *)
Theorem reply_whole_or_error (c : cap_t) (chunks : list (list Z)) (out_cap : nat) :
  let reply := strip_eol (concat chunks) in
  let limit := (min out_cap CLOUD_REPLY_CAP_MAX - 1)%nat in
  captured c chunks out_cap =
  if (out_cap =? 0)%nat then []
  else if (limit <? length reply)%nat then err_reply out_cap (too_large (length reply) limit)
  else if (length reply =? 0)%nat then err_reply out_cap (str "no reply")
  else reply.
Proof.
  intros reply limit. unfold captured.
  destruct (append_all chunks (cloud_reply_cap_begin c) eq_refl ltac:(cbn; lia)) as (_ & Hw & Hn & Hb). cbn [cloud_reply_cap_begin s_want s_nl s_buf app] in Hw, Hn, Hb.
  set (c' := fold_left _ _ _) in *. set (w := concat chunks) in *. destruct (strip_nl w) as [Hs Hle]. unfold cloud_reply_cap_end. cbn [s_buf s_want s_nl].
  destruct (Nat.eqb_spec out_cap 0) as [|Hcap]; [done|]. rewrite Hw, Hn, Hb. cbn [Nat.add length] in *. rewrite Nat.sub_0_r.
  assert (Hlr : length reply = (length w - nl_count 0 w)%nat) by (unfold reply; rewrite Hs, length_take; lia).
  assert (Hlim : (limit = (if (out_cap <? 1792)%nat then out_cap else 1792) - 1)%nat) by (unfold limit; destruct (Nat.ltb_spec out_cap 1792); lia).
  rewrite <- Hlim, <- Hlr. rewrite length_take. destruct (Nat.ltb_spec (length reply) (min 1791 (length w))) as [Hlt|Hge].
  - cbn [s_buf]. assert (Et : take (length reply) (take 1791 w) = reply) by (rewrite take_take, Nat.min_l by lia; unfold reply at 2; by rewrite Hs, Hlr).
    rewrite Et, Nat.ltb_irrefl. cbn [orb]. by repeat case_match.
  - cbn [s_buf]. rewrite length_take. destruct (Nat.ltb_spec (min 1791 (length w)) (length reply)) as [Hlt|Heq]; cbn [orb].
    + destruct (Nat.ltb_spec limit (length reply)); [done|]. lia.
    + assert (El : min 1791 (length w) = length reply) by lia. rewrite El.
      assert (Et : take 1791 w = reply) by (unfold reply; rewrite Hs, <- Hlr; destruct (decide (length w <= 1791)%nat); [rewrite !firstn_all2 by lia; done|f_equal; lia]).
      rewrite Et. by repeat case_match.
Qed.
