(* ===== verification/Psram.v ===== *)
(** * Sharing the PSRAM ([psram_alloc.c], [bus_owner.c], [psram.c])

    The zones of a combined capture, and who holds the quad bus. A task's token
    is a [Z]; the pins are the only hardware state. *)

From S2P Require Import Prelude.

(** ** The zone allocator *)

Abbreviation PSRAM_TOTAL_BYTES := 8388608.
Abbreviation PSRAM_GUARD_BYTES := 4096.
Abbreviation PSRAM_USABLE_BYTES := 8384512.
Abbreviation PSRAM_SUSTAINED_BPS := 20000000.

Inductive psram_alloc_status_t := PSRAM_ALLOC_OK | PSRAM_ALLOC_ERR_CAPACITY | PSRAM_ALLOC_ERR_BANDWIDTH.
#[export] Instance psram_alloc_status_eq : EqDecision psram_alloc_status_t.
Proof. solve_decision. Defined.

Record psram_request_t := PsramRequest {
  la_samples : Z; adc_samples : Z; dac_bytes : Z; la_rate_hz : Z; adc_rate_hz : Z; dac_rate_hz : Z }.
Record psram_layout_t := PsramLayout {
  status : psram_alloc_status_t; la_base : Z; la_len : Z; adc_base : Z; adc_len : Z; dac_base : Z; dac_len : Z;
  need_bytes : Z; avail_bytes : Z; load_bps : Z; bus_bps : Z }.

Definition psram_plan (req : psram_request_t) : psram_layout_t :=
  let la := u32 (la_samples req * 2) in
  let adc := u32 (adc_samples req * 2) in
  let dac := dac_bytes req in
  let off := 0 in
  let lab := off in let off := u32 (off + la) in
  let adcb := off in let off := u32 (off + adc) in
  let dacb := off in
  let need := la + adc + dac in
  let load := (la_rate_hz req + adc_rate_hz req + dac_rate_hz req) * 2 in
  let st := if PSRAM_USABLE_BYTES <? need then PSRAM_ALLOC_ERR_CAPACITY
            else if PSRAM_SUSTAINED_BPS <? load then PSRAM_ALLOC_ERR_BANDWIDTH else PSRAM_ALLOC_OK in
  PsramLayout st lab la adcb adc dacb dac
    (if 4294967295 <? need then 4294967295 else need) PSRAM_USABLE_BYTES
    (if 4294967295 <? load then 4294967295 else load) PSRAM_SUSTAINED_BPS.

Definition req_ok (r : psram_request_t) : Prop :=
  0 <= la_samples r < 4294967296 /\ 0 <= adc_samples r < 4294967296 /\ 0 <= dac_bytes r < 4294967296 /\
  0 <= la_rate_hz r < 4294967296 /\ 0 <= adc_rate_hz r < 4294967296 /\ 0 <= dac_rate_hz r < 4294967296.

(** A count of 2^31 + 1 samples is planned as a two-byte zone: the product wraps
    before the 64-bit sum that is to catch such a request. *)
Example wrapped_request_accepted :
  let p := psram_plan (PsramRequest 2147483649 0 0 0 0 0) in status p = PSRAM_ALLOC_OK /\ la_len p = 2.
Proof. done. Qed.

(** A plan that is accepted gives every stream its whole length (the counts below
    2^31, where twice a count fits 32 bits), in zones that follow one another without
    overlap below the guard tail, at a rate the bus drains; and a request whose
    streams fit both limits is accepted. *)
Theorem psram_plan_fits (r : psram_request_t) :
  req_ok r -> la_samples r < 2147483648 -> adc_samples r < 2147483648 ->
  let p := psram_plan r in
  (status p = PSRAM_ALLOC_OK <->
   2 * la_samples r + 2 * adc_samples r + dac_bytes r <= PSRAM_USABLE_BYTES /\
   2 * (la_rate_hz r + adc_rate_hz r + dac_rate_hz r) <= PSRAM_SUSTAINED_BPS) /\
  (status p = PSRAM_ALLOC_OK ->
   la_len p = 2 * la_samples r /\ adc_len p = 2 * adc_samples r /\ dac_len p = dac_bytes r /\
   la_base p = 0 /\ adc_base p = la_base p + la_len p /\ dac_base p = adc_base p + adc_len p /\
   dac_base p + dac_len p <= PSRAM_TOTAL_BYTES - PSRAM_GUARD_BYTES).
Proof.
  intros (H1 & H2 & H3 & H4 & H5 & H6) Hla Hadc p.
  assert (Ela : la_len p = 2 * la_samples r) by (cbn; rewrite u32_id; lia).
  assert (Eadc : adc_len p = 2 * adc_samples r) by (cbn; rewrite u32_id; lia).
  assert (Est : status p = if PSRAM_USABLE_BYTES <? la_len p + adc_len p + dac_bytes r then PSRAM_ALLOC_ERR_CAPACITY
    else if PSRAM_SUSTAINED_BPS <? (la_rate_hz r + adc_rate_hz r + dac_rate_hz r) * 2 then PSRAM_ALLOC_ERR_BANDWIDTH else PSRAM_ALLOC_OK) by done.
  assert (Eb : la_base p = 0 /\ adc_base p = u32 (la_len p) /\ dac_base p = u32 (u32 (la_len p) + adc_len p) /\ dac_len p = dac_bytes r) by done.
  clearbody p. destruct Eb as (-> & -> & -> & ->). rewrite Est, Ela, Eadc.
  destruct (Z.ltb_spec PSRAM_USABLE_BYTES (2 * la_samples r + 2 * adc_samples r + dac_bytes r)); [split; [split; [done|lia]|done]|].
  destruct (Z.ltb_spec PSRAM_SUSTAINED_BPS ((la_rate_hz r + adc_rate_hz r + dac_rate_hz r) * 2)); [split; [split; [done|lia]|done]|].
  split; [split; [lia|done]|]. intros _. rewrite (u32_id (2 * la_samples r)), u32_id by lia. lia.
Qed.

Lemma psram_plan_fits_witness :
  let r := PsramRequest 100000 50000 2000 3000000 1000000 500000 in
  let p := psram_plan r in
  req_ok r /\ adc_base p = la_base p + la_len p /\ dac_base p = adc_base p + adc_len p.
Proof.
  intros r p. assert (Hr : req_ok r) by (unfold req_ok, r; cbn; lia).
  destruct (proj2 (psram_plan_fits r Hr ltac:(cbn; lia) ltac:(cbn; lia)) eq_refl) as (_ & _ & _ & _ & H1 & H2 & _). by split_and!.
Defined.

(** ** The bus *)

Record bus_owner_t := BusOwner { owner : option Z; depth : Z; violations : Z; unpaired : Z }.

Definition bus_owner_take (b : bus_owner_t) (who : Z) : bus_owner_t * bool :=
  if depth b =? 0 then (BusOwner (Some who) 1 (violations b) (unpaired b), true)
  else
    let v := if bool_decide (owner b = Some who) then violations b else u32 (violations b + 1) in
    (BusOwner (owner b) (if depth b <? 65535 then depth b + 1 else depth b) v (unpaired b), false).

Definition bus_owner_give (b : bus_owner_t) (who : Z) : bus_owner_t * bool :=
  if depth b =? 0 then (BusOwner (owner b) (depth b) (violations b) (u32 (unpaired b + 1)), true)
  else
    let v := if bool_decide (owner b = Some who) then violations b else u32 (violations b + 1) in
    if depth b - 1 =? 0 then (BusOwner None 0 v (unpaired b), true)
    else (BusOwner (owner b) (depth b - 1) v (unpaired b), false).

Definition bus_owner_handover (b : bus_owner_t) : bus_owner_t * Z :=
  let dropped := depth b in
  (BusOwner None 0 (if dropped =? 0 then violations b else u32 (violations b + 1)) (unpaired b), dropped).

(** [s_bus] and who drives the pins. *)
Inductive pins_t := PinsSTM32 | PinsICE40.
Record bus_t := Bus { s_bus : bus_owner_t; pins : pins_t }.

Definition psram_bus_acquire (b : bus_t) (who : Z) : bus_t :=
  let '(o, first) := bus_owner_take (s_bus b) who in Bus o (if first then PinsSTM32 else pins b).
Definition psram_bus_release (b : bus_t) (who : Z) : bus_t :=
  let '(o, last) := bus_owner_give (s_bus b) who in Bus o (if last then PinsICE40 else pins b).
Definition psram_bus_handover (b : bus_t) : bus_t := Bus (fst (bus_owner_handover (s_bus b))) PinsICE40.

(** A task's use of the bus: transfers, holds around them, one after another. *)
Inductive use := Skip | Transfer | Seq (u1 u2 : use) | Hold (who : Z) (u : use).

Fixpoint use_depth (u : use) : Z :=
  match u with Skip | Transfer => 0 | Seq u1 u2 => Z.max (use_depth u1) (use_depth u2) | Hold _ u => 1 + use_depth u end.

(** The bus after a use, and the pins at each transfer. *)
Fixpoint run_use (b : bus_t) (u : use) : bus_t * list pins_t :=
  match u with
  | Skip => (b, [])
  | Transfer => (b, [pins b])
  | Seq u1 u2 => let '(b1, s1) := run_use b u1 in let '(b2, s2) := run_use b1 u2 in (b2, s1 ++ s2)
  | Hold who u => let '(b1, s) := run_use (psram_bus_acquire b who) u in (psram_bus_release b1 who, s)
  end.

(** Every transfer is inside a hold. *)
Fixpoint guarded (u : use) : Prop :=
  match u with Skip => True | Transfer => False | Seq u1 u2 => guarded u1 /\ guarded u2 | Hold _ _ => True end.

Definition held (b : bus_t) : Prop := 0 < depth (s_bus b) <= 65535 /\ pins b = PinsSTM32.

Lemma acquire_held b who : depth (s_bus b) < 65535 -> (0 < depth (s_bus b) -> pins b = PinsSTM32) -> 0 <= depth (s_bus b) ->
  held (psram_bus_acquire b who) /\ depth (s_bus (psram_bus_acquire b who)) = depth (s_bus b) + 1.
Proof.
  intros Hd Hp H0. unfold psram_bus_acquire, bus_owner_take, held. destruct (Z.eqb_spec (depth (s_bus b)) 0) as [E|E]; cbn [s_bus pins depth].
  - rewrite E. split; [split; [lia|done]|done].
  - destruct (Z.ltb_spec (depth (s_bus b)) 65535); [|lia]. split; [split; [lia|by apply Hp; lia]|done].
Qed.

Lemma release_depth b who : held b ->
  depth (s_bus (psram_bus_release b who)) = depth (s_bus b) - 1 /\
  (1 < depth (s_bus b) -> held (psram_bus_release b who)) /\ (depth (s_bus b) = 1 -> pins (psram_bus_release b who) = PinsICE40).
Proof.
  intros [Hd Hp]. unfold psram_bus_release, bus_owner_give, held. destruct (Z.eqb_spec (depth (s_bus b)) 0); [lia|].
  destruct (Z.eqb_spec (depth (s_bus b) - 1) 0); cbn [s_bus pins depth]; (split; [lia|]); split; intros; (done || lia || (split; [lia|done])).
Qed.

(** Uses inside a hold keep it. *)
Lemma run_held u : forall b, held b -> depth (s_bus b) + use_depth u <= 65535 ->
  held (fst (run_use b u)) /\ depth (s_bus (fst (run_use b u))) = depth (s_bus b) /\ Forall (eq PinsSTM32) (snd (run_use b u)).
Proof.
  induction u as [| |u1 IH1 u2 IH2|who u IH]; intros b Hb Hd; cbn [run_use use_depth] in *.
  - by split_and!.
  - destruct Hb as [? Hp]. split_and!; try done. constructor; [by rewrite Hp|done].
  - destruct (IH1 b Hb ltac:(lia)) as (H1 & D1 & F1). destruct (run_use b u1) as [b1 s1]. cbn [fst snd] in *.
    destruct (IH2 b1 H1 ltac:(lia)) as (H2 & D2 & F2). destruct (run_use b1 u2) as [b2 s2]. cbn [fst snd] in *.
    split_and!; [done|lia|by apply Forall_app].
  - assert (0 <= use_depth u) by (clear; induction u; cbn; lia). pose proof Hb as [Hr Hp].
    destruct (acquire_held b who ltac:(lia) ltac:(done) ltac:(lia)) as [Ha Da].
    destruct (IH _ Ha ltac:(lia)) as (H1 & D1 & F1). destruct (run_use (psram_bus_acquire b who) u) as [b1 s1]. cbn [fst snd] in *.
    destruct (release_depth b1 who H1) as (D2 & H2 & _). split_and!; [apply H2; lia|lia|done].
Qed.

(** However deep the holds nest (up to the counter's 65535) and whoever takes the
    inner ones, every transfer made under a hold finds the bus driven by the STM32,
    and the bus goes to the iCE40 with the outermost release and not before. *)
Theorem bus_held_until_outermost (u : use) (b : bus_t) :
  guarded u -> use_depth u <= 65535 -> depth (s_bus b) = 0 -> pins b = PinsICE40 ->
  let '(b', transfers) := run_use b u in
  Forall (eq PinsSTM32) transfers /\ depth (s_bus b') = 0 /\ pins b' = PinsICE40.
Proof.
  revert b. induction u as [| |u1 IH1 u2 IH2|who u IH]; intros b Hg Hd Hb Hp; cbn [run_use use_depth guarded] in *.
  - done.
  - done.
  - destruct Hg as [G1 G2]. specialize (IH1 b G1 ltac:(lia) Hb Hp). destruct (run_use b u1) as [b1 s1]. destruct IH1 as (F1 & D1 & P1).
    specialize (IH2 b1 G2 ltac:(lia) D1 P1). destruct (run_use b1 u2) as [b2 s2]. destruct IH2 as (F2 & D2 & P2). split; [by apply Forall_app|done].
  - destruct (acquire_held b who ltac:(lia) ltac:(lia) ltac:(lia)) as [Ha Da].
    destruct (run_held u _ Ha ltac:(lia)) as (H1 & D1 & F1). destruct (run_use (psram_bus_acquire b who) u) as [b1 s1]. cbn [fst snd] in *.
    destruct (release_depth b1 who H1) as (D2 & _ & P2). split_and!; [done|lia|apply P2; lia].
Qed.

(** A read of the blob flash inside an update's hold. *)
Lemma bus_held_until_outermost_witness :
  let u := Hold 1 (Seq Transfer (Seq (Hold 1 Transfer) Transfer)) in
  let b := Bus (BusOwner None 0 0 0) PinsICE40 in
  snd (run_use b u) = [PinsSTM32; PinsSTM32; PinsSTM32] /\ pins (fst (run_use b u)) = PinsICE40.
Proof.
  intros u b. split; [by vm_compute|].
  pose proof (bus_held_until_outermost u b I ltac:(by vm_compute) eq_refl eq_refl) as (_ & _ & H). exact H.
Defined.
