(* ===== verification/CloudClient.v ===== *)
(** * The cloud client: its link, its frames and its tunnels ([cloud_client.c])

    The net task's state machine over lwIP, TLS and DNS, which are the arguments
    of the operations: what a call of the stack returned, what a callback got. The
    calls made to the stack are the trace [acts]. The worker's queue, the outbound
    rings, the tunnel tiers and the lease are the components' own models. *)

From S2P Require Import Prelude Json B64 CmdTable CmdGate Ota Worker ConnTx WsFrame.

Abbreviation PING_INTERVAL_MS := 6000.
Abbreviation IDLE_TIMEOUT_MS := 20000.
Abbreviation OTA_IDLE_TIMEOUT_MS := (2 * 6000).
Abbreviation HTTP_TIMEOUT_MS := 8000.
Abbreviation CONNECT_TIMEOUT_MS := 12000.
Abbreviation DNS_TIMEOUT_MS := 8000.
Abbreviation BACKOFF_START_MS := 2000.
Abbreviation BACKOFF_MAX_MS := 30000.
Abbreviation CONN_STABLE_MS := 10000.
Abbreviation CL_EXTRAS_WAIT_MS := 20000.
Abbreviation BP_CLOUD_RX_ACCUM := 16384.
Abbreviation BP_CLOUD_RX_MAX := 2048%nat.
Abbreviation BP_WS_FRAME_MAX := 2048.
Abbreviation BP_TUNNEL_CHUNK := 768%nat.
Abbreviation BP_TUNNEL_OUT_FRAME_MAX := 1300%nat.
Abbreviation BP_CLOUD_CMD_IN_MAX := 1280%nat.
Abbreviation BP_CLOUD_CMD_FRAME_MAX := 2000%nat.
Abbreviation OTA_STATUS_EVERY := 8192.
Abbreviation OTA_STATUS_TICK_MS := 500.
Abbreviation ERR_OK := 0.
Abbreviation ERR_MEM := (-1).
Abbreviation ERR_INPROGRESS := (-5).
Abbreviation ERR_RST := (-14).
Abbreviation ERR_CLSD := (-15).

Inductive cl_state_t :=
| CL_DISABLED | CL_WAIT_WIFI | CL_RESOLVE | CL_RESOLVE_WAIT | CL_CHAL_OPEN | CL_CHAL_CONNECT | CL_CHAL_WAIT
| CL_WS_WAIT | CL_CONNECTED | CL_BACKOFF.
Inductive link_ev_t := LINK_IDLE | LINK_CONNECTING | LINK_UP | LINK_FAILED.
Inductive dns_t := DNS_NONE | DNS_PENDING | DNS_OK | DNS_FAIL.
#[export] Instance cl_state_eq : EqDecision cl_state_t.
Proof. solve_decision. Defined.
#[export] Instance link_ev_eq : EqDecision link_ev_t.
Proof. solve_decision. Defined.
#[export] Instance dns_eq : EqDecision dns_t.
Proof. solve_decision. Defined.

(** The calls made to the stack, with what they returned. *)
Inductive act := ActConnect | ActVerify (flags : Z) | ActWrite (bytes : list Z) (err : Z) | ActClose | ActKick.

Record cloud_config_t := CloudConfig { cf_host : cstr; cf_device_id : cstr; cf_port : Z; cf_tls : bool; cf_enabled : bool }.
Record cloud_proxy_t := CloudProxy { px_host : cstr; px_port : Z; px_user : cstr; px_pass : cstr }.

(** [absolute_time_t] is in microseconds (64 bits, never wrapping). *)
Record cl_t := Cl {
  s_cfg : cloud_config_t; s_have_cfg : bool; c_state : cl_state_t; s_deadline : Z; s_next_ping : Z; s_last_rx : Z; s_backoff_ms : Z;
  s_stable_at : Z; s_backoff_reset_pending : bool; s_nonce : cstr; s_sig : cstr; s_auth_v1 : bool; s_last_error : cstr;
  s_pcb : bool; s_tls_conf : bool; s_proxy_host : cstr; s_link : link_ev_t; s_dropped : bool; s_rx_overflow : bool; s_dns : dns_t; s_tcp_up : bool;
  s_rx : list Z; s_rx_refused : bool; s_send_full : bool; s_pend : list Z; s_tunnels : list cstr;
  s_efuse_ev : list (option (bool * bool)); s_resend_caps : bool;
  s_ota_last_state : ota_state_t; s_ota_last_refusals : Z; o_last_reported : Z; o_next_tick : Z;
  hw : worker_t; rings : list ring_t; tiers : list Z; lease : lease_t; writes : nat; acts : list act;
}.

(** The state with one field changed. *)
Definition set_s_cfg (v : cloud_config_t) (st : cl_t) : cl_t := {| st with s_cfg := v |}.
Definition set_s_have_cfg (v : bool) (st : cl_t) : cl_t := {| st with s_have_cfg := v |}.
Definition set_c_state (v : cl_state_t) (st : cl_t) : cl_t := {| st with c_state := v |}.
Definition set_s_deadline (v : Z) (st : cl_t) : cl_t := {| st with s_deadline := v |}.
Definition set_s_next_ping (v : Z) (st : cl_t) : cl_t := {| st with s_next_ping := v |}.
Definition set_s_last_rx (v : Z) (st : cl_t) : cl_t := {| st with s_last_rx := v |}.
Definition set_s_backoff_ms (v : Z) (st : cl_t) : cl_t := {| st with s_backoff_ms := v |}.
Definition set_s_stable_at (v : Z) (st : cl_t) : cl_t := {| st with s_stable_at := v |}.
Definition set_s_backoff_reset_pending (v : bool) (st : cl_t) : cl_t := {| st with s_backoff_reset_pending := v |}.
Definition set_s_nonce (v : cstr) (st : cl_t) : cl_t := {| st with s_nonce := v |}.
Definition set_s_sig (v : cstr) (st : cl_t) : cl_t := {| st with s_sig := v |}.
Definition set_s_auth_v1 (v : bool) (st : cl_t) : cl_t := {| st with s_auth_v1 := v |}.
Definition set_s_last_error (v : cstr) (st : cl_t) : cl_t := {| st with s_last_error := v |}.
Definition set_s_pcb (v : bool) (st : cl_t) : cl_t := {| st with s_pcb := v |}.
Definition set_s_tls_conf (v : bool) (st : cl_t) : cl_t := {| st with s_tls_conf := v |}.
Definition set_s_proxy_host (v : cstr) (st : cl_t) : cl_t := {| st with s_proxy_host := v |}.
Definition set_s_link (v : link_ev_t) (st : cl_t) : cl_t := {| st with s_link := v |}.
Definition set_s_dropped (v : bool) (st : cl_t) : cl_t := {| st with s_dropped := v |}.
Definition set_s_rx_overflow (v : bool) (st : cl_t) : cl_t := {| st with s_rx_overflow := v |}.
Definition set_s_dns (v : dns_t) (st : cl_t) : cl_t := {| st with s_dns := v |}.
Definition set_s_tcp_up (v : bool) (st : cl_t) : cl_t := {| st with s_tcp_up := v |}.
Definition set_s_rx (v : list Z) (st : cl_t) : cl_t := {| st with s_rx := v |}.
Definition set_s_rx_refused (v : bool) (st : cl_t) : cl_t := {| st with s_rx_refused := v |}.
Definition set_s_send_full (v : bool) (st : cl_t) : cl_t := {| st with s_send_full := v |}.
Definition set_s_pend (v : list Z) (st : cl_t) : cl_t := {| st with s_pend := v |}.
Definition set_s_tunnels (v : list cstr) (st : cl_t) : cl_t := {| st with s_tunnels := v |}.
Definition set_s_efuse_ev (v : list (option (bool * bool))) (st : cl_t) : cl_t := {| st with s_efuse_ev := v |}.
Definition set_s_resend_caps (v : bool) (st : cl_t) : cl_t := {| st with s_resend_caps := v |}.
Definition set_s_ota_last_state (v : ota_state_t) (st : cl_t) : cl_t := {| st with s_ota_last_state := v |}.
Definition set_s_ota_last_refusals (v : Z) (st : cl_t) : cl_t := {| st with s_ota_last_refusals := v |}.
Definition set_o_last_reported (v : Z) (st : cl_t) : cl_t := {| st with o_last_reported := v |}.
Definition set_o_next_tick (v : Z) (st : cl_t) : cl_t := {| st with o_next_tick := v |}.
Definition set_hw (v : worker_t) (st : cl_t) : cl_t := {| st with hw := v |}.
Definition set_rings (v : list ring_t) (st : cl_t) : cl_t := {| st with rings := v |}.
Definition set_tiers (v : list Z) (st : cl_t) : cl_t := {| st with tiers := v |}.
Definition set_lease (v : lease_t) (st : cl_t) : cl_t := {| st with lease := v |}.
Definition set_writes (v : nat) (st : cl_t) : cl_t := {| st with writes := v |}.
Definition set_acts (v : list act) (st : cl_t) : cl_t := {| st with acts := v |}.

(** ** Text *)

(** A literal with its apostrophes as double quotes. *)
Definition jq (s : string) : cstr := map (fun c => if c =? 39 then QUOTE else c) (str s).
Definition CRLF : cstr := [13; 10].

(** The bytes before the first NUL. *)
Fixpoint cstr_of (bs : list Z) : cstr := match bs with [] => [] | b :: bs' => if b =? 0 then [] else b :: cstr_of bs' end.

Definition cl_status_is_101 (buf : list Z) (n : nat) : bool :=
  existsb (fun i => (at_ buf i =? 49) && (at_ buf (i + 1) =? 48) && (at_ buf (i + 2) =? 49) && ((at_ buf (i + 3) =? 32) || (at_ buf (i + 3) =? 13)))
    (seq 0 (n - 3)).

Fixpoint find_space (buf : list Z) : nat := match buf with [] => 0 | b :: buf' => if b =? 32 then 0 else S (find_space buf') end.
Definition is_digit (c : Z) : bool := (48 <=? c) && (c <=? 57).

Definition cl_http_status (buf : list Z) (n : nat) : Z :=
  let i := find_space (take n buf) in
  if (n <=? i + 3)%nat then 0
  else
    let d := sub (i + 1) 3 buf in
    if forallb is_digit d then fold_left (fun code c => code * 10 + (c - 48)) d 0 else 0.

(** The end of the headers in [buf], [off] bytes in. *)
Fixpoint headers_end_loop (buf : list Z) (off : nat) : nat :=
  match buf with
  | 13 :: ((10 :: 13 :: 10 :: _) as buf') => off + 4
  | _ :: buf' => headers_end_loop buf' (S off)
  | [] => 0
  end.
Definition cl_http_headers_end (buf : list Z) : nat := headers_end_loop buf 0.

Definition lower (c : Z) : Z := if (65 <=? c) && (c <=? 90) then c + 32 else c.
Fixpoint skip_blank (p : list Z) : list Z := match p with b :: p' => if (b =? 32) || (b =? 9) then skip_blank p' else p | [] => [] end.
Fixpoint digits_of (p : list Z) (v : Z) : Z := match p with b :: p' => if is_digit b then digits_of p' (v * 10 + (b - 48)) else v | [] => v end.

Fixpoint content_length_loop (key hdr : list Z) : Z :=
  match hdr with
  | [] => -1
  | _ :: hdr' =>
      if (length key <? length hdr)%nat && bool_decide (map lower (take (length key) hdr) = key)
      then let p := skip_blank (drop (length key) hdr) in
           if is_digit (deref p) then digits_of p 0 else -1
      else content_length_loop key hdr'
  end.
Definition cl_content_length (buf : list Z) (hdr_len : nat) : Z := content_length_loop (str "content-length:") (take hdr_len buf).

Definition cl_json_str (json key : cstr) (cap : nat) : got := bp_json_get_top json key cap.
Definition cl_json_object (json key : cstr) (cap : nat) : option cstr := bp_json_object_top json key cap.

(** [bp_json_scan_str] on bytes that need not end in a NUL. *)
Fixpoint scan_value (p : list Z) (cap : nat) : option (list Z) :=
  match p with
  | [] => None
  | b :: p' =>
      if b =? QUOTE then Some []
      else match cap with O => None | S cap' => match scan_value p' cap' with None => None | Some v => Some (b :: v) end end
  end.
Fixpoint bp_json_scan_str (buf key : list Z) (cap : nat) : option (list Z) :=
  match buf with
  | b :: buf' =>
      let next := bp_json_scan_str buf' key cap in
      let kl := length key in
      if (length buf <=? kl + 3)%nat then None
      else if negb ((b =? QUOTE) && bool_decide (take kl buf' = key) && (at_ buf (S kl) =? QUOTE)) then next
      else
        let p := skip_blank (drop (kl + 2) buf) in
        if negb (deref p =? COLON) then next
        else
          let p := skip_blank (tail p) in
          if negb (deref p =? QUOTE) then next
          else match scan_value (tail p) (cap - 1) with Some v => Some v | None => next end
  | [] => None
  end.

(** [%lx]. *)
Fixpoint hex_loop (fuel : nat) (z : Z) (acc : cstr) : cstr :=
  let acc := hex_digit (z mod 16) :: acc in
  if z <? 16 then acc else match fuel with O => acc | S fuel' => hex_loop fuel' (z / 16) acc end.
Definition hex (z : Z) : cstr := hex_loop 16 z [].

(** [strtoul(p, NULL, 10)]. *)
Definition strtoul10 (p : cstr) : Z :=
  let p := skip_space p in
  let '(neg, p) := if deref p =? 45 then (true, tail p) else if deref p =? 43 then (false, tail p) else (false, p) in
  let v := strtoul_digits 10 0 p in
  if 4294967295 <? v then 4294967295 else if neg then u32 (- v) else v.

(** ** Connections to the stack and to the other tasks *)

Section client.
(** What [altcp_write] answers and the random words in use, by the number of the write. *)
Variable altcp_write_err : nat -> Z.
Variable get_rand : nat -> list Z.
(** [device_identity_sign_ctx] with the pod's key: the signature, or its failure. *)
Variable sign_ctx : cstr -> list Z -> option (list Z).

Definition set_error (st : cl_t) (e : cstr) : cl_t := (set_s_last_error e st).
Definition set_state (st : cl_t) (s : cl_state_t) : cl_t := (set_c_state s st).
Definition do_act (st : cl_t) (a : act) : cl_t := (set_acts (acts st ++ [a]) st).

Definition cl_rx_append (st : cl_t) (data : list Z) : cl_t :=
  match cloud_rx_append (s_rx st) BP_CLOUD_RX_ACCUM data with
  | None => (set_s_rx_overflow true st)
  | Some rx => (set_s_rx rx st)
  end.
Definition cl_rx_consume (st : cl_t) (n : nat) : cl_t := (set_s_rx (cloud_rx_consume (s_rx st) n) st).

Definition tunnel_conn (slot : nat) : Z := CH_CLOUD_TUNNEL_CONN + Z.of_nat slot.
Definition tunnel (st : cl_t) (slot : nat) : cstr := nth slot (s_tunnels st) [].
Definition tunnel_ring_reset (st : cl_t) (slot : nat) : cl_t :=
  (set_rings (conn_tx_reset (rings st) (tunnel_conn slot)) st).
Definition tunnel_submit_reset (st : cl_t) (slot : nat) : cl_t :=
  (set_hw (hw_worker_submit_tunnel_reset (hw st) (tunnel_conn slot)) st).
Definition tunnel_free (st : cl_t) (slot : nat) : cl_t :=
  let st := (set_s_tunnels (<[slot := []]> (s_tunnels st)) st) in
  tunnel_submit_reset (tunnel_ring_reset st slot) slot.

Definition slots : list nat := [0; 1; 2]%nat.
Definition is_empty (l : list Z) : bool := match l with [] => true | _ => false end.

Definition drop_tunnel (st : cl_t) (slot : nat) : cl_t := if is_empty (tunnel st slot) then st else tunnel_free st slot.

Definition cl_drop_link (st : cl_t) : cl_t :=
  let st := (set_lease (lease_gate_clear (lease st)) st) in
  let st := if s_pcb st then do_act (set_s_pcb false st) ActClose else st in
  let st := (set_s_link LINK_IDLE (set_s_dropped false (set_s_rx_overflow false st))) in
  let st := fold_left drop_tunnel slots st in
  (set_s_rx [] st).

(** The wait, and the next one doubled up to the maximum. *)
Definition start_backoff (st : cl_t) (now : Z) : cl_t :=
  let ms := u32 (s_backoff_ms st * 2) in
  set_c_state CL_BACKOFF (set_s_deadline (now + s_backoff_ms st * 1000)
    (set_s_backoff_ms (if BACKOFF_MAX_MS <? ms then BACKOFF_MAX_MS else ms) st)).
Definition cl_backoff (st : cl_t) (now : Z) : cl_t := start_backoff (cl_drop_link (set_s_pend [] st)) now.

Definition cl_tcp_send (st : cl_t) (bytes : list Z) : cl_t * bool :=
  if negb (s_pcb st) then (st, false)
  else
    let err := altcp_write_err (writes st) in
    let st := do_act (set_writes (S (writes st)) (set_s_send_full ((err =? ERR_MEM)) st)) (ActWrite bytes err) in
    (st, err =? ERR_OK).

Definition cl_ws_send (st : cl_t) (opcode : Z) (payload : list Z) : cl_t * bool :=
  if negb (s_pcb st) then (st, false)
  else
    let frame := ws_build_frame opcode payload (take 4 (get_rand (writes st))) BP_WS_FRAME_MAX in
    if is_empty frame then (st, false) else cl_tcp_send st frame.

(** ** Tunnels *)

Definition cl_tunnel_slot_by_id (st : cl_t) (id : cstr) : option nat :=
  if is_empty id then None
  else fold_right (fun i r => if negb (is_empty (tunnel st i)) && streq (tunnel st i) id then Some i else r) None slots.

Definition cl_tunnel_free_slot (st : cl_t) : option nat :=
  match fold_right (fun i r => if is_empty (tunnel st i) && negb (hw_worker_conn_busy (hw st) (tunnel_conn i)) then Some i else r) None slots with
  | Some i => Some i
  | None => fold_right (fun i r => if is_empty (tunnel st i) then Some i else r) None slots
  end.

(** [cloud_client_tunnel_out]: chunks of the bytes, as frames, until one is not taken. *)
Definition data_frame (id b64 : cstr) : cstr :=
  jq "{'type':'tunnel.data','tunnel_id':'" ++ id ++ jq "','data_b64':'" ++ b64 ++ jq "'}".

Fixpoint tunnel_out_loop (fuel : nat) (st : cl_t) (slot : nat) (rest : list Z) (off len : nat) : cl_t * nat :=
  match fuel, rest with
  | S fuel', _ :: _ =>
      let chunk := take BP_TUNNEL_CHUNK rest in
      match b64url_encode chunk (B64URL_ENCODED_LEN 768 + 1) with
      | None => (st, len)
      | Some b64 =>
          let frame := data_frame (tunnel st slot) b64 in
          if (BP_TUNNEL_OUT_FRAME_MAX <=? length frame)%nat then (st, len)
          else
            let '(st, sent) := cl_ws_send st WS_OP_TEXT frame in
            if negb sent then (st, off) else tunnel_out_loop fuel' st slot (drop BP_TUNNEL_CHUNK rest) (off + length chunk) len
      end
  | _, _ => (st, len)
  end.

Definition cloud_client_tunnel_out (st : cl_t) (conn_id : Z) (buf : list Z) : cl_t * nat :=
  let slot := conn_id - CH_CLOUD_TUNNEL_CONN in
  let len := length buf in
  if (slot <? 0) || (CH_CLOUD_TUNNEL_CONN_COUNT <=? slot) then (st, len)
  else if is_empty (tunnel st (Z.to_nat slot)) || (len =? 0)%nat then (st, len)
  else tunnel_out_loop (S (len / BP_TUNNEL_CHUNK)) st (Z.to_nat slot) buf 0 len.

Definition cloud_client_tunnel_avail (st : cl_t) (conn_id altcp_sndbuf : Z) : Z :=
  let slot := conn_id - CH_CLOUD_TUNNEL_CONN in
  if (slot <? 0) || (CH_CLOUD_TUNNEL_CONN_COUNT <=? slot) then 0
  else if is_empty (tunnel st (Z.to_nat slot)) || negb (s_pcb st) then 0
  else if altcp_sndbuf <=? 96 then 0 else (altcp_sndbuf - 96) / 2.

Definition cl_tunnel_fail (st : cl_t) (slot : nat) (reason : cstr) : cl_t :=
  let id := tunnel st slot in
  let e := bp_emit_raw (bp_emit_jstr (bp_emit_raw (bp_emit_init 192) (jq "{'status':'error','message':")) reason) (jq "}" ++ [10]) in
  let st := if e_ok e then fst (cloud_client_tunnel_out st (tunnel_conn slot) (e_buf e)) else st in
  let e := bp_emit_raw (bp_emit_jstr (bp_emit_raw (bp_emit_jstr (bp_emit_raw (bp_emit_init (BP_TUNNEL_ID_MAX + 256))
    (jq "{'type':'tunnel.close','tunnel_id':")) id) (jq ",'reason':")) reason) (jq "}") in
  let st := if e_ok e then fst (cl_ws_send st WS_OP_TEXT (e_buf e)) else st in
  tunnel_free st slot.

(** A known id keeps its slot. *)
Definition open_slot (st : cl_t) (id : cstr) : option nat :=
  match cl_tunnel_slot_by_id st id with Some s => Some s | None => cl_tunnel_free_slot st end.

Definition cl_handle_tunnel_open (st : cl_t) (json : cstr) : cl_t :=
  let id := out (cl_json_str json (str "tunnel_id") BP_TUNNEL_ID_MAX) in
  if is_empty id then st
  else
    match open_slot st id with
    | None => st
    | Some slot =>
        let st := (set_s_tunnels (<[slot := id]> (s_tunnels st)) st) in
        let g := cl_json_str json (str "max_tier") 8 in
        let max_tier := if found g && negb (is_empty (out g)) then atoi (out g) else 3 in
        let st := (set_tiers (command_handler_set_tunnel_max_tier (tiers st) (tunnel_conn slot) max_tier) st) in
        tunnel_submit_reset (tunnel_ring_reset st slot) slot
    end.

(** The flag is false when the frame must stay and be tried again. *)
Definition cl_handle_tunnel_data (st : cl_t) (json : cstr) : cl_t * bool :=
  let id := out (cl_json_str json (str "tunnel_id") BP_TUNNEL_ID_MAX) in
  match cl_tunnel_slot_by_id st id with
  | None => (st, true)
  | Some slot =>
      let g := cl_json_str json (str "data_b64") BP_CLOUD_RX_MAX in
      if negb (found g) then (cl_tunnel_fail st slot (str "tunnel.data without data_b64"), true)
      else
        match b64url_decode (out g) 1536 with
        | None => (cl_tunnel_fail st slot (str "tunnel.data with bad base64"), true)
        | Some [] => (st, true)
        | Some raw =>
            let '(w, ok) := hw_worker_submit_bytes (hw st) (tunnel_conn slot) raw in ((set_hw w st), ok)
        end
  end.

Definition cl_handle_tunnel_close (st : cl_t) (json : cstr) : cl_t :=
  match cl_tunnel_slot_by_id st (out (cl_json_str json (str "tunnel_id") BP_TUNNEL_ID_MAX)) with
  | None => st
  | Some slot => tunnel_free st slot
  end.

Definition cl_handle_lease_state (st : cl_t) (json : cstr) (tick : Z) : cl_t :=
  let on := streq (out (cl_json_str json (str "held") 8)) (str "true") in
  (set_lease (lease_gate_update (lease st) on (Some (out (cl_json_str json (str "holder") LEASE_GATE_HOLDER_MAX))) (strtoul10 (out (cl_json_str json (str "expires_in_s") 12))) tick) st).

(** ** Frames of the server *)

Definition cl_send_reply_frame (st : cl_t) (frame : list Z) (now : Z) : cl_t :=
  let '(st, sent) := cl_ws_send st WS_OP_TEXT frame in
  if sent then (set_s_pend [] st)
  else if s_send_full st then (set_s_pend frame st)
  else cl_backoff st now.

Definition cl_send_command_error (st : cl_t) (request_id error : cstr) (now : Z) : cl_t :=
  let e := bp_emit_raw (bp_emit_init BP_CLOUD_CMD_FRAME_MAX) (jq "{'type':'command.response','request_id':") in
  let e := bp_emit_jstr e request_id in
  let e := bp_emit_raw e (jq ",'device_id':'" ++ cf_device_id (s_cfg st) ++ jq "','status':'error','error':") in
  let e := bp_emit_raw (bp_emit_jstr e error) (jq "}") in
  if e_ok e then cl_send_reply_frame st (e_buf e) now else st.

Fixpoint has_infix (needle p : cstr) : bool :=
  has_prefix needle p || match p with [] => false | _ :: p' => has_infix needle p' end.

Definition cl_handle_command_request (st : cl_t) (json : cstr) (now : Z) : cl_t :=
  let request_id := out (cl_json_str json (str "request_id") BP_TUNNEL_ID_MAX) in
  match cl_json_object json (str "command") BP_CLOUD_CMD_IN_MAX with
  | None =>
      if has_infix (jq "'command'") json
      then cl_send_command_error st request_id (snprintf_cut 96 (str "command too large for this device (limit " ++ dec 1279 ++ str " bytes)")) now
      else cl_send_command_error st request_id (str "missing command") now
  | Some command =>
      let '(w, ok) := hw_worker_submit_cloud (hw st) request_id command in
      let st := (set_hw w st) in
      if ok then st else cl_send_command_error st request_id (str "device busy") now
  end.

Definition cloud_client_send_command_response (st : cl_t) (request_id reply : cstr) (now : Z) : cl_t :=
  if negb (bool_decide (c_state st = CL_CONNECTED)) then st
  else if has_prefix (jq "{'status':'error'") reply
  then cl_send_command_error st request_id (out (cl_json_str reply (str "message") 320)) now
  else
    let tail := if deref reply =? LBRACE then tail reply else reply in
    let e := bp_emit_jstr (bp_emit_raw (bp_emit_init BP_CLOUD_CMD_FRAME_MAX) (jq "{'type':'command.response','request_id':")) request_id in
    let e := bp_emit_raw e (jq ",'device_id':'" ++ cf_device_id (s_cfg st) ++ jq "'," ++ tail) in
    if negb (e_ok e) then cl_send_command_error st request_id (str "reply too large for the cloud channel") now
    else cl_send_reply_frame st (e_buf e) now.

Definition submit_ota (st : cl_t) (kind : ota_work) (u32 : Z) (data : list Z) : cl_t * bool :=
  let '(w, ok) := hw_worker_submit_ota (hw st) kind OTA_OWNER_CLOUD u32 data in ((set_hw w st), ok).

(** [hw_worker_submit_ota_begin]: the item's text; one that does not fit is consumed. *)
Definition hw_worker_submit_ota_begin (st : cl_t) (size : Z) (sha target : cstr) (version : Z) (sig : cstr) : cl_t * bool :=
  let arg := sha ++ [32] ++ (if is_empty target then str "firmware" else target) ++ [32] ++ dec version ++ [32] ++ sig in
  if (320 <=? length arg)%nat then (st, true) else submit_ota st OwBegin size arg.

Definition cl_handle_ota_begin (st : cl_t) (json : cstr) : cl_t * bool :=
  let size := cl_json_str json (str "size") 16 in
  let sha := cl_json_str json (str "sha256") 80 in
  if negb (found size) || negb (found sha) then (st, true)
  else
    hw_worker_submit_ota_begin st (strtoul0 (out size)) (out sha) (out (cl_json_str json (str "target") 16))
      (strtoul0 (out (cl_json_str json (str "version") 16))) (out (cl_json_str json (str "sig") 200)).

Definition cl_handle_ota_data (st : cl_t) (json : cstr) : cl_t * bool :=
  let off := out (cl_json_str json (str "offset") 16) in
  let b64 := cl_json_str json (str "data_b64") BP_CLOUD_RX_MAX in
  if negb (found b64) then (st, true)
  else
    match b64url_decode (out b64) 1536 with
    | None | Some [] => (st, true)
    | Some raw => submit_ota st OwData (strtoul0 off) raw
    end.

(** A frame longer than the copy buffer: dropped, with what it tells the client. *)
Definition oversized_frame (st : cl_t) (payload : list Z) (now : Z) : cl_t :=
  let type := default [] (bp_json_scan_str payload (str "type") 32) in
  if streq type (str "command.request") then
    let rid := default [] (bp_json_scan_str payload (str "request_id") 64) in
    if is_empty rid then st else cl_send_command_error st rid (str "command too large") now
  else if streq type (str "tunnel.data") then
    match cl_tunnel_slot_by_id st (default [] (bp_json_scan_str payload (str "tunnel_id") BP_TUNNEL_ID_MAX)) with
    | None => st
    | Some slot =>
        cl_tunnel_fail st slot (snprintf_cut 96 (str "tunnel.data frame too large (" ++ dec (Z.of_nat (length payload)) ++ str " bytes, limit " ++ dec 2047 ++ str ")"))
    end
  else st.

Definition cl_handle_text_frame (st : cl_t) (payload : list Z) (now tick : Z) : cl_t * bool :=
  if (BP_CLOUD_RX_MAX <=? length payload)%nat then (oversized_frame st payload now, true)
  else
    let msg := cstr_of payload in
    let type := out (cl_json_str msg (str "type") 32) in
    if streq type (str "command.request") then (cl_handle_command_request st msg now, true)
    else if streq type (str "tunnel.data") then cl_handle_tunnel_data st msg
    else if streq type (str "lease.state") then (cl_handle_lease_state st msg tick, true)
    else if streq type (str "tunnel.open") then (cl_handle_tunnel_open st msg, true)
    else if streq type (str "tunnel.close") then (cl_handle_tunnel_close st msg, true)
    else if streq type (str "ota.begin") then cl_handle_ota_begin st msg
    else if streq type (str "ota.data") then cl_handle_ota_data st msg
    else if streq type (str "ota.end") then submit_ota st OwEnd 0 []
    else if streq type (str "ota.abort") then submit_ota st OwAbort 0 []
    else if streq type (str "ota.commit") then submit_ota st OwCommit 0 []
    else if streq type (str "ping") then (fst (cl_ws_send st WS_OP_TEXT (jq "{'type':'pong'}")), true)
    else (st, true).

(** One frame; the flag says whether to go on with the next. *)
Definition handle_frame (st : cl_t) (consumed : nat) (fr : ws_frame_t) (now tick : Z) : cl_t * bool :=
  let done (st : cl_t) := if bool_decide (c_state st = CL_CONNECTED) then (cl_rx_consume st consumed, true) else (st, false) in
  if opcode fr =? WS_OP_TEXT then
    let '(st, ok) := cl_handle_text_frame st (payload fr) now tick in if ok then done st else (st, false)
  else if opcode fr =? WS_OP_PING then done (fst (cl_ws_send st WS_OP_PONG (payload fr)))
  else if opcode fr =? WS_OP_CLOSE then (cl_backoff st now, false)
  else done st.

Fixpoint process_loop (fuel : nat) (st : cl_t) (now tick : Z) : cl_t :=
  match fuel with
  | O => st
  | S fuel' =>
      match ws_parse_frame (s_rx st) with
      | (r, Some fr) => let '(st, more) := handle_frame st (Z.to_nat r) fr now tick in if more then process_loop fuel' st now tick else st
      | (r, None) =>
          if r =? 0 then st
          else if r =? WS_PARSE_FRAGMENTED
          then cl_backoff (set_error st (str "fragmented websocket message (not supported)")) now
          else cl_backoff (set_error st (str "bad websocket frame")) now
      end
  end.

(** A frame takes two bytes at least, so the bytes buffered bound their number. *)
Definition cl_process_ws_frames (st : cl_t) (now tick : Z) : cl_t := process_loop (S (length (s_rx st))) st now tick.

(** ** Logging in *)

Definition cl_send_challenge_post (st : cl_t) : cl_t * bool :=
  cl_tcp_send st (snprintf_cut 256 (
    str "POST /api/benchpod/devices/" ++ cf_device_id (s_cfg st) ++ str "/challenge HTTP/1.1" ++ CRLF ++
    str "Host: " ++ cf_host (s_cfg st) ++ CRLF ++ str "Content-Length: 0" ++ CRLF ++ str "Connection: keep-alive" ++ CRLF ++ CRLF)).

(** [ws_make_sec_key] from two 64-bit random words. *)
Definition B64STD : list Z := str "ABCDEFGHIJKLMNOPQRSTUVWXYZabcdefghijklmnopqrstuvwxyz0123456789+/".
Definition b64ch (v : Z) : Z := nth (Z.to_nat (Z.land v 63)) B64STD 0.
Fixpoint sec_key_loop (key : list Z) : cstr :=
  match key with
  | b0 :: b1 :: b2 :: key' =>
      let v := Z.lor (Z.lor (Z.shiftl b0 16) (Z.shiftl b1 8)) b2 in
      b64ch (Z.shiftr v 18) :: b64ch (Z.shiftr v 12) :: b64ch (Z.shiftr v 6) :: b64ch v :: sec_key_loop key'
  | b0 :: _ => let v := Z.shiftl b0 16 in [b64ch (Z.shiftr v 18); b64ch (Z.shiftr v 12); 61; 61]
  | [] => []
  end.
Definition ws_make_sec_key (r0 r1 : list Z) : cstr := sec_key_loop (take 8 r0 ++ take 8 r1).

Definition cl_send_ws_upgrade (st : cl_t) : cl_t * bool :=
  let key := ws_make_sec_key (get_rand (writes st)) (get_rand (S (writes st))) in
  let req := str "GET /api/benchpod/ws?device_id=" ++ cf_device_id (s_cfg st) ++ str "&nonce=" ++ s_nonce st ++ str "&signature=" ++ s_sig st ++
    str "&auth=" ++ (if s_auth_v1 st then str "v1" else str "v2") ++ str " HTTP/1.1" ++ CRLF ++ str "Host: " ++ cf_host (s_cfg st) ++ CRLF ++
    str "Upgrade: websocket" ++ CRLF ++ str "Connection: Upgrade" ++ CRLF ++ str "Sec-WebSocket-Key: " ++ key ++ CRLF ++
    str "Sec-WebSocket-Version: 13" ++ CRLF ++ CRLF in
  if (512 <=? length req)%nat then (st, false) else cl_tcp_send st req.

Definition cl_sign_nonce (st : cl_t) : cl_t * bool :=
  match b64url_decode (s_nonce st) 128 with
  | None => (st, false)
  | Some nonce =>
      let '(ctx, msg) :=
        if s_auth_v1 st then (str "benchpod-ws-auth:v1", nonce)
        else (str "benchpod-ws-auth:v2", map lower (take 63 (cf_host (s_cfg st))) ++ 0 :: nonce) in
      match sign_ctx ctx msg with
      | None => (st, false)
      | Some sig => ((set_s_sig (default [] (b64url_encode sig (B64URL_ENCODED_LEN 64 + 1))) st), true)
      end
  end.

(** What opening a link met: allocation, TLS set-up or the connect call failed. *)
Inductive open_res := OpenNoPcb | OpenNoCa | OpenNoTls (ca_refused : bool) | OpenNoWrap | OpenConnErr | OpenOk.

(** What a poll reads of the rest of the system. *)
Record poll_in := PollIn {
  i_now : Z; i_tick : Z; i_wifi_ready : bool; i_usb_link : bool; i_proxy : cloud_proxy_t; i_extras_ready : bool; i_dns : Z;
  i_open : open_res; i_tcp_up : bool; i_tls_verify : option Z; i_proxy_status : Z; i_proxy_early : bool; i_identity_problem : cstr;
  i_caps : list Z; i_efuse : list (option (bool * bool)); i_ota_view : ota_view_t; i_ota_state : ota_state_t; i_ota_sig : cstr; i_ota_key : cstr;
}.

Definition cl_open (st : cl_t) (i : poll_in) : cl_t * bool :=
  let tls := cf_tls (s_cfg st) in
  match i_open i with
  | OpenNoPcb => (st, false)
  | OpenNoCa => if tls && negb (s_tls_conf st) then (set_error st (str "out of memory for the company CA"), false) else (st, false)
  | OpenNoTls ca_refused =>
      if tls && negb (s_tls_conf st)
      then (set_error st (if ca_refused then str "company CA unusable: using the built-in roots" else str "tls config create failed (out of memory?)"), false)
      else (st, false)
  | OpenNoWrap => ((if tls then (set_s_tls_conf true st) else st), false)
  | res =>
      let st := if tls then (set_s_tls_conf true st) else st in
      let st := (set_s_pcb true (set_s_link LINK_CONNECTING (set_s_dropped false (set_s_tcp_up false (set_s_rx [] st))))) in
      let st := do_act st ActConnect in
      match res with OpenConnErr => (cl_drop_link st, false) | _ => (st, true) end
  end.

(** The certificate check of a link that is up; 0 is "verified", [None] no TLS context. *)
Definition cl_tls_verified (st : cl_t) (flags : option Z) : cl_t * bool :=
  if negb (cf_tls (s_cfg st)) then (st, true)
  else if negb (s_pcb st) then (st, false)
  else
    match flags with
    | None => (st, false)
    | Some f =>
        let st := do_act st (ActVerify f) in
        if f =? 0 then (st, true) else (set_error st (snprintf_cut 80 (str "tls certificate not trusted (flags 0x" ++ hex f ++ str ")")), false)
    end.

Definition cl_send_capabilities (st : cl_t) (caps : list Z) : cl_t * bool :=
  if is_empty caps then (st, true) else cl_ws_send st WS_OP_TEXT caps.

Definition bool_text (b : bool) : cstr := if b then str "true" else str "false".
Definition cl_send_efuse_event (st : cl_t) (efuse : Z) (enabled fault : bool) : cl_t :=
  let f := jq "{'type':'efuse.event','device_id':'" ++ cf_device_id (s_cfg st) ++ jq "','efuse':" ++ dec efuse ++ jq ",'enabled':" ++ bool_text enabled ++
    jq ",'fault':" ++ bool_text fault ++ jq "}" in
  if (length f <? 160)%nat then fst (cl_ws_send st WS_OP_TEXT f) else st.

Definition cl_efuse_event_cb (st : cl_t) (efuse : Z) (enabled fault : bool) : cl_t :=
  if efuse =? 1 then (set_s_efuse_ev (<[0%nat := Some (enabled, fault)]> (s_efuse_ev st)) st)
  else if efuse =? 2 then (set_s_efuse_ev (<[1%nat := Some (enabled, fault)]> (s_efuse_ev st)) st)
  else st.

Definition drain_efuse (st : cl_t) (idx : nat) : cl_t :=
  match nth idx (s_efuse_ev st) None with
  | None => st
  | Some (en, fl) => cl_send_efuse_event (set_s_efuse_ev (<[idx := None]> (s_efuse_ev st)) st) (Z.of_nat idx + 1) en fl
  end.
Definition cl_drain_efuse_events (st : cl_t) : cl_t := fold_left drain_efuse [0; 1]%nat st.

Definition snapshot_efuse (cached : list (option (bool * bool))) (st : cl_t) (idx : nat) : cl_t :=
  match nth idx cached None with None => st | Some (en, fl) => cl_send_efuse_event st (Z.of_nat idx + 1) en fl end.
Definition cl_send_efuse_snapshot (st : cl_t) (cached : list (option (bool * bool))) : cl_t := fold_left (snapshot_efuse cached) [0; 1]%nat st.

Definition ota_status_frame (st : cl_t) (i : poll_in) : bp_emit_t :=
  let v := i_ota_view i in
  let e := bp_emit_raw (bp_emit_init 320) (
    jq "{'type':'ota.status','device_id':'" ++ cf_device_id (s_cfg st) ++ jq "','state':'" ++ ota_state_name (v_state v) ++ jq "','received':" ++
    dec (v_received v) ++ jq ",'size':" ++ dec (v_size v) ++ jq ",'sig':'" ++ i_ota_sig i ++ jq "','sig_key':'" ++ i_ota_key i ++ jq "','error':") in
  bp_emit_raw (bp_emit_jstr e (v_error v)) (jq "}").

Definition cl_ota_status_poll (st : cl_t) (i : poll_in) : cl_t :=
  let v := i_ota_view i in
  let receiving := bool_decide (v_state v = OTA_RECEIVING) in
  let changed := negb (bool_decide (v_state v = s_ota_last_state st)) || negb (v_refusals v =? s_ota_last_refusals st) ||
    (receiving && (OTA_STATUS_EVERY <=? u32 (v_received v - o_last_reported st))) || (receiving && (o_next_tick st <=? i_now i)) in
  if negb changed then st
  else
    let e := ota_status_frame st i in
    if negb (e_ok e) then st
    else
      let '(st, sent) := cl_ws_send st WS_OP_TEXT (e_buf e) in
      if negb sent then st
      else (set_o_next_tick (i_now i + OTA_STATUS_TICK_MS * 1000) (set_s_ota_last_state (v_state v) (set_o_last_reported (v_received v) (set_s_ota_last_refusals (v_refusals v) st)))).

(** ** The poll *)

Definition deadline (st : cl_t) (now ms : Z) : cl_t := (set_s_deadline (now + ms * 1000) st).
Definition reached (now t : Z) : bool := t <=? now.
Definition fail (st : cl_t) (error : cstr) (now : Z) : cl_t := cl_backoff (set_error st error) now.

Definition cl_net_ready (i : poll_in) : bool := i_wifi_ready i || (i_usb_link i && negb (is_empty (px_host (i_proxy i)))).

Definition poll_wait_wifi (st : cl_t) (i : poll_in) : cl_t :=
  if cl_net_ready i && (i_extras_ready i || (CL_EXTRAS_WAIT_MS <? i_now i / 1000)) then set_state st CL_RESOLVE else st.

Definition poll_resolve (st : cl_t) (i : poll_in) : cl_t :=
  let st := (set_s_dns DNS_PENDING (set_s_proxy_host (px_host (i_proxy i)) st)) in
  if (i_dns i =? ERR_OK) || (i_dns i =? ERR_INPROGRESS) then
    let st := (set_s_dns (if i_dns i =? ERR_OK then DNS_OK else DNS_PENDING) st) in
    set_state (deadline st (i_now i) DNS_TIMEOUT_MS) CL_RESOLVE_WAIT
  else fail st (str "dns lookup failed") (i_now i).

Definition poll_resolve_wait (st : cl_t) (i : poll_in) : cl_t :=
  match s_dns st with
  | DNS_OK => set_state st CL_CHAL_OPEN
  | DNS_FAIL => fail st (str "dns lookup failed") (i_now i)
  | _ => if reached (i_now i) (s_deadline st) then fail st (str "dns lookup timed out") (i_now i) else st
  end.

Definition poll_chal_open (st : cl_t) (i : poll_in) : cl_t :=
  let '(st, ok) := cl_open st i in
  if negb ok then fail st (str "tcp connect failed") (i_now i)
  else set_state (deadline st (i_now i) CONNECT_TIMEOUT_MS) CL_CHAL_CONNECT.

Definition poll_chal_connect (st : cl_t) (i : poll_in) : cl_t :=
  let now := i_now i in
  let st := if negb (s_tcp_up st) && i_tcp_up i then (set_s_tcp_up true st) else st in
  if bool_decide (s_link st = LINK_UP) then
    let '(st, ok) := cl_tls_verified st (i_tls_verify i) in
    if negb ok then cl_backoff st now
    else
      let '(st, ok) := cl_send_challenge_post st in
      if negb ok then cl_backoff st now else set_state (deadline st now HTTP_TIMEOUT_MS) CL_CHAL_WAIT
  else if bool_decide (s_link st = LINK_FAILED) || s_dropped st then
    let st :=
      if negb (is_empty (s_proxy_host st)) && negb (i_proxy_status i =? 0) && negb (i_proxy_status i =? 200)
      then set_error st (snprintf_cut 80 (str "the proxy refused the connection (HTTP " ++ dec (i_proxy_status i) ++
             (if i_proxy_status i =? 407 then str ": proxy user or password" else []) ++ str ")"))
      else if negb (is_empty (s_proxy_host st)) && (i_proxy_early i || (i_proxy_status i =? 0))
      then set_error st (str "the proxy closed the connection before it replied") else st in
    cl_backoff st now
  else if reached now (s_deadline st)
  then fail st (if s_tcp_up st then str "tls handshake timed out" else str "tcp connect timed out") now
  else st.

Definition poll_chal_wait (st : cl_t) (i : poll_in) : cl_t :=
  let now := i_now i in
  let late (st : cl_t) := if reached now (s_deadline st) then fail st (str "no reply from server") now else st in
  if s_dropped st then fail st (str "connection lost") now
  else
    let body := cl_http_headers_end (s_rx st) in
    if (body =? 0)%nat then late st
    else
      let code := cl_http_status (s_rx st) body in
      if (code <? 200) || (299 <? code) then fail st (str "server refused the device (HTTP " ++ dec code ++ str ")") now
      else
        let clen := cl_content_length (s_rx st) body in
        if clen <? 0 then cl_backoff st now
        else
          let total := (body + Z.to_nat clen)%nat in
          if (length (s_rx st) <? total)%nat then late st
          else
            let nul := if Z.of_nat total <? BP_CLOUD_RX_ACCUM then total else Z.to_nat (BP_CLOUD_RX_ACCUM - 1) in
            let g := cl_json_str (cstr_of (drop body (take nul (s_rx st)))) (str "nonce") 96 in
            if negb (found g) then cl_backoff st now
            else
              let st := cl_rx_consume (set_s_nonce (out g) st) total in
              let '(st, ok) := cl_sign_nonce st in
              if negb ok then
                cl_backoff (if is_empty (i_identity_problem i) then st else set_error st (snprintf_cut 80 (str "device identity: " ++ i_identity_problem i))) now
              else
                let '(st, ok) := cl_send_ws_upgrade st in
                if negb ok then cl_backoff st now else set_state (deadline st now HTTP_TIMEOUT_MS) CL_WS_WAIT.

Definition poll_ws_wait (st : cl_t) (i : poll_in) : cl_t :=
  let now := i_now i in
  if s_dropped st then fail st (str "websocket upgrade failed (connection closed)") now
  else
    let e := cl_http_headers_end (s_rx st) in
    if (e =? 0)%nat then (if reached now (s_deadline st) then fail st (str "websocket upgrade timed out") now else st)
    else if negb (cl_status_is_101 (s_rx st) (e - 4)) then
      let code := cl_http_status (s_rx st) (e - 4) in
      let st := set_error st (str "websocket upgrade failed (HTTP " ++ dec code ++ str ")") in
      let auth_refused := (code =? 401) || (code =? 403) in
      let st := if auth_refused && negb (s_auth_v1 st) then (set_s_auth_v1 true st)
                else if auth_refused then (set_s_auth_v1 false st) else st in
      cl_backoff st now
    else
      let st := cl_rx_consume st e in
      let st := (set_s_stable_at (now + CONN_STABLE_MS * 1000) (set_s_backoff_reset_pending true (set_s_last_rx now (set_s_next_ping (now + PING_INTERVAL_MS * 1000) st)))) in
      let st := set_error (set_state st CL_CONNECTED) [] in
      let '(st, ok) := cl_send_capabilities st (i_caps i) in
      if negb ok then cl_backoff st now
      else cl_process_ws_frames (cl_send_efuse_snapshot st (i_efuse i)) now (i_tick i).

(** The connected link's upkeep once its frames are processed. *)
Definition poll_upkeep (st : cl_t) (i : poll_in) : cl_t :=
  let now := i_now i in
  let st := if s_rx_refused st && s_pcb st && (Z.of_nat (length (s_rx st)) <? BP_CLOUD_RX_ACCUM / 2)
            then let st := (set_s_rx_refused false st) in if cf_tls (s_cfg st) then do_act st ActKick else st else st in
  let st := if s_backoff_reset_pending st && reached now (s_stable_at st)
            then (set_s_backoff_ms BACKOFF_START_MS (set_s_backoff_reset_pending false st)) else st in
  let idle_budget_ms := if bool_decide (i_ota_state i = OTA_RECEIVING) then OTA_IDLE_TIMEOUT_MS else IDLE_TIMEOUT_MS in
  if idle_budget_ms * 1000 <? now - s_last_rx st then fail st (str "connection lost (no reply from server)") now
  else
    let '(st, ok) :=
      if is_empty (s_pend st) then (st, true)
      else
        let '(st, sent) := cl_ws_send st WS_OP_TEXT (s_pend st) in
        if sent then ((set_s_pend [] st), true) else if negb (s_send_full st) then (cl_backoff st now, false) else (st, true) in
    if negb ok then st
    else
      let '(st, ok) :=
        if negb (reached now (s_next_ping st)) then (st, true)
        else
          let st := (set_s_next_ping (now + PING_INTERVAL_MS * 1000) st) in
          let '(st, sent) := cl_ws_send st WS_OP_PING [] in
          if sent then (st, true)
          else if s_send_full st then ((set_s_next_ping (now + 250 * 1000) st), true) else (cl_backoff st now, false) in
      if negb ok then st
      else
        let st := cl_drain_efuse_events st in
        let st := if s_resend_caps st then let '(st, sent) := cl_send_capabilities st (i_caps i) in if sent then (set_s_resend_caps false st) else st else st in
        cl_ota_status_poll st i.

Definition poll_connected (st : cl_t) (i : poll_in) : cl_t :=
  if s_dropped st then fail st (str "connection lost") (i_now i)
  else if s_rx_overflow st then fail st (str "connection lost (rx overflow)") (i_now i)
  else
    let st := if is_empty (s_rx st) then st else cl_process_ws_frames st (i_now i) (i_tick i) in
    if negb (bool_decide (c_state st = CL_CONNECTED)) then st else poll_upkeep st i.

Definition cloud_client_poll (st : cl_t) (i : poll_in) : cl_t :=
  let st := (set_lease (lease_gate_expire (lease st) (i_tick i)) st) in
  match c_state st with
  | CL_DISABLED => st
  | CL_WAIT_WIFI => poll_wait_wifi st i
  | CL_RESOLVE => poll_resolve st i
  | CL_RESOLVE_WAIT => poll_resolve_wait st i
  | CL_CHAL_OPEN => poll_chal_open st i
  | CL_CHAL_CONNECT => poll_chal_connect st i
  | CL_CHAL_WAIT => poll_chal_wait st i
  | CL_WS_WAIT => poll_ws_wait st i
  | CL_CONNECTED => poll_connected st i
  | CL_BACKOFF => if reached (i_now i) (s_deadline st) then set_state st CL_RESOLVE else st
  end.

(** ** Callbacks, configuration and the steps of all tasks *)

Definition cl_connected_cb (st : cl_t) (err now : Z) : cl_t :=
  if negb (err =? ERR_OK) then (set_s_last_error (str "tcp connect failed (err " ++ sdec err ++ str ")") (set_s_link LINK_FAILED st))
  else (set_s_link LINK_UP (set_s_last_rx now st)).

(** A segment is its chain of buffers; the flag says whether it was taken. *)
Definition cl_recv_cb (st : cl_t) (p : option (list (list Z))) (err now : Z) : cl_t * bool :=
  match p with
  | None => ((set_s_dropped true st), true)
  | Some bufs =>
      if negb (err =? ERR_OK) then (st, true)
      else
        let st := (set_s_last_rx now st) in
        if cloud_rx_refuse BP_CLOUD_RX_ACCUM (Z.of_nat (length (s_rx st))) (Z.of_nat (length (concat bufs)))
        then ((set_s_rx_refused true st), false)
        else (fold_left cl_rx_append bufs st, true)
  end.

Definition cl_err_cb (st : cl_t) (err : Z) : cl_t :=
  let st := if err =? ERR_CLSD then (set_s_tcp_up true st) else st in
  let st := if bool_decide (s_link st = LINK_CONNECTING)
            then set_error st (if s_tcp_up st then str "tls handshake failed" else if err =? ERR_RST then str "tcp connect refused" else str "tcp connect failed (err " ++ sdec err ++ str ")")
            else st in
  (set_s_pcb false (set_s_link LINK_FAILED (set_s_dropped true st))).

Definition cl_dns_cb (st : cl_t) (ok : bool) : cl_t := (set_s_dns (if ok then DNS_OK else DNS_FAIL) st).

(** [cloud_config_load] is the configuration found, if any; release firmware refuses plain ws. *)
Definition cloud_client_init (st : cl_t) (release : bool) (loaded : option cloud_config_t) : cl_t :=
  let st := match loaded with Some c => (set_s_cfg c st) | None => st end in
  let c := s_cfg st in
  let refused := release && bool_decide (is_Some loaded) && negb (cf_tls c) && cf_enabled c in
  let st := if refused then set_error st (str "plain (non-TLS) cloud config refused by release firmware; run cloud_set with tls") else st in
  let ok := bool_decide (is_Some loaded) && negb refused in
  if ok && cf_enabled c && negb (is_empty (cf_host c)) && negb (is_empty (cf_device_id c))
  then set_state (set_s_have_cfg true st) CL_WAIT_WIFI
  else set_state (set_s_have_cfg false st) CL_DISABLED.

Definition cloud_client_reload (st : cl_t) (release : bool) (loaded : option cloud_config_t) : cl_t :=
  let st := cl_drop_link st in
  let st := (set_s_tls_conf false st) in
  let st := set_error (set_s_backoff_ms BACKOFF_START_MS (set_s_dns DNS_NONE st)) [] in
  cloud_client_init st release loaded.

Definition cloud_client_request_caps_resend (st : cl_t) : cl_t := (set_s_resend_caps true st).

Definition cloud_client_state_str (st : cl_t) : cstr :=
  match c_state st with
  | CL_DISABLED => str "disabled"
  | CL_WAIT_WIFI => str "waiting-wifi"
  | CL_RESOLVE | CL_RESOLVE_WAIT | CL_CHAL_OPEN | CL_CHAL_CONNECT | CL_CHAL_WAIT | CL_WS_WAIT => str "connecting"
  | CL_CONNECTED => str "connected"
  | CL_BACKOFF => str "backoff"
  end.

(** [queued] is whether TCP holds bytes not sent or not acknowledged. *)
Definition cloud_client_tx_busy (st : cl_t) (v : ota_view_t) (queued : bool) : bool :=
  if negb (bool_decide (c_state st = CL_CONNECTED)) || negb (s_pcb st) then false
  else if hw_worker_cloud_pending (hw st) || negb (is_empty (s_pend st)) then true
  else if existsb (fun i => negb (is_empty (tunnel st i)) && negb (conn_tx_used (rings st) (tunnel_conn i) =? 0)) slots then true
  else if negb (bool_decide (v_state v = s_ota_last_state st)) || negb (v_refusals v =? s_ota_last_refusals st) then true
  else queued.

Definition cl_zero : cl_t :=
  Cl (CloudConfig [] [] 0 false false) false CL_DISABLED 0 0 0 BACKOFF_START_MS 0 false [] [] false [] false false [] LINK_IDLE false false DNS_NONE false
    [] false false [] [[]; []; []] [None; None] false OTA_IDLE 0 0 0 worker_init s_rings tunnel_tiers_init lease_init 0 [].

Inductive cop :=
| OpPoll (i : poll_in) | OpConnected (err now : Z) | OpRecv (p : option (list (list Z))) (err now : Z) | OpErr (err : Z) | OpDns (ok : bool)
| OpEfuse (efuse : Z) (enabled fault : bool) | OpCaps | OpReply (request_id reply : cstr) (now : Z)
| OpReload (release : bool) (loaded : option cloud_config_t)
| OpWorker (w : worker_t) | OpRings (rs : list ring_t).

(** A step of any task; the worker may leave its queue and the rings as it likes. *)
Definition cstep (st : cl_t) (o : cop) : cl_t :=
  match o with
  | OpPoll i => cloud_client_poll st i
  | OpConnected err now => cl_connected_cb st err now
  | OpRecv p err now => fst (cl_recv_cb st p err now)
  | OpErr err => cl_err_cb st err
  | OpDns ok => cl_dns_cb st ok
  | OpEfuse efuse en fl => cl_efuse_event_cb st efuse en fl
  | OpCaps => cloud_client_request_caps_resend st
  | OpReply id reply now => cloud_client_send_command_response st id reply now
  | OpReload release loaded => cloud_client_reload st release loaded
  | OpWorker w => (set_hw w st)
  | OpRings rs => (set_rings rs st)
  end.

Definition crun (st : cl_t) (ops : list cop) : cl_t := fold_left cstep ops st.
End client.

(** A refusal whose body is 101 bytes long reads as the switch of protocols. *)
Example refusal_read_as_101 :
  let reply := str "HTTP/1.1 403 Forbidden" ++ CRLF ++ str "Content-Length: 101" ++ CRLF ++ str "Connection: close" ++ CRLF ++ CRLF in
  cl_http_status reply (length reply) = 403 /\ cl_status_is_101 reply (cl_http_headers_end reply - 4) = true.
Proof. vm_compute. done. Qed.

(** A frame longer than the buffer never completes: once full, every further
    segment is refused and nothing is ever parsed. *)
Example long_frame_stalls :
  let buf := [129; 126; 78; 32] ++ replicate 16380 65 in
  length buf = 16384%nat /\ fst (ws_parse_frame buf) = 0 /\ cloud_rx_refuse BP_CLOUD_RX_ACCUM (Z.of_nat (length buf)) 1 = true.
Proof. vm_compute. done. Qed.
