(* ===== verification/CloudLemmas.v ===== *)
(** * How the cloud client's handlers move the link

    Every handler either keeps the link as it is ([keep]: it may write to it) or
    backs off ([backed]), and processing frames consumes them in order. *)

From S2P Require Import Prelude Json B64 CmdTable CmdGate Ota Worker ConnTx WsFrame CloudClient.

Definition is_output (a : act) : bool := match a with ActWrite _ _ | ActKick => true | _ => false end.

(** The link as it was, up to output on it. *)
Record keep0 (st st' : cl_t) : Prop := {
  k_cfg : s_cfg st' = s_cfg st;
  k_state : c_state st' = c_state st;
  k_deadline : s_deadline st' = s_deadline st;
  k_backoff : s_backoff_ms st' = s_backoff_ms st \/ s_backoff_ms st' = BACKOFF_START_MS;
  k_pcb : s_pcb st' = s_pcb st;
  k_tlen : length (s_tunnels st') = length (s_tunnels st);
  k_acts : exists l, acts st' = acts st ++ l /\ Forall (fun a => is_output a = true) l /\ (s_pcb st = false -> l = []);
}.

(** ... and its input buffer too. *)
Definition keep (st st' : cl_t) : Prop := keep0 st st' /\ s_rx st' = s_rx st /\ s_rx_overflow st' = s_rx_overflow st.

Definition backed (now : Z) (st st' : cl_t) : Prop := exists st1, keep0 st st1 /\ st' = cl_backoff st1 now.

#[export] Instance keep0_refl : Reflexive keep0.
Proof. intros st. constructor; try done; [by left|]. exists []. by rewrite app_nil_r. Qed.

#[export] Instance keep0_trans : Transitive keep0.
Proof.
  intros st1 st2 st3 [C1 S1 D1 B1 P1 T1 (l1 & A1 & F1 & N1)] [C2 S2 D2 B2 P2 T2 (l2 & A2 & F2 & N2)].
  constructor; try congruence.
  - destruct B2 as [->|]; auto.
  - exists (l1 ++ l2). rewrite A2, A1, app_assoc. split_and!; [done|by apply Forall_app|].
    intros E. rewrite N1, N2 by congruence. done.
Qed.

#[export] Instance keep_refl : Reflexive keep.
Proof. intros st. by split. Qed.

#[export] Instance keep_trans : Transitive keep.
Proof. intros st1 st2 st3 (K1 & R1 & O1) (K2 & R2 & O2). split; [by etrans|]. split; congruence. Qed.

Lemma keep_keep0 st st' : keep st st' -> keep0 st st'.
Proof. by intros [? _]. Qed.

Lemma keep_backed now st st1 st2 : keep0 st st1 -> backed now st1 st2 -> backed now st st2.
Proof. intros H (st3 & H3 & ->). exists st3. split; [by etrans|done]. Qed.

(** The fields the relations do not mention. *)
Ltac frame_step :=
  match goal with
  | |- keep _ _ => split; [frame_step|split; reflexivity]
  | |- keep0 _ _ => constructor; [reflexivity|reflexivity|reflexivity|left; reflexivity|reflexivity|reflexivity|exists []; by rewrite app_nil_r]
  end.

(** Nothing changed. *)
Ltac kr := cbn [fst snd]; apply keep_refl.

Create HintDb cloud.

Section setters.
Variables st st' : cl_t.
Lemma keep_s_have_cfg v : keep st st' -> keep st (set_s_have_cfg v st').
Proof. intros K. etrans; [exact K|frame_step]. Qed.
Lemma keep_s_next_ping v : keep st st' -> keep st (set_s_next_ping v st').
Proof. intros K. etrans; [exact K|frame_step]. Qed.
Lemma keep_s_last_rx v : keep st st' -> keep st (set_s_last_rx v st').
Proof. intros K. etrans; [exact K|frame_step]. Qed.
Lemma keep_s_stable_at v : keep st st' -> keep st (set_s_stable_at v st').
Proof. intros K. etrans; [exact K|frame_step]. Qed.
Lemma keep_s_backoff_reset_pending v : keep st st' -> keep st (set_s_backoff_reset_pending v st').
Proof. intros K. etrans; [exact K|frame_step]. Qed.
Lemma keep_s_nonce v : keep st st' -> keep st (set_s_nonce v st').
Proof. intros K. etrans; [exact K|frame_step]. Qed.
Lemma keep_s_sig v : keep st st' -> keep st (set_s_sig v st').
Proof. intros K. etrans; [exact K|frame_step]. Qed.
Lemma keep_s_auth_v1 v : keep st st' -> keep st (set_s_auth_v1 v st').
Proof. intros K. etrans; [exact K|frame_step]. Qed.
Lemma keep_s_last_error v : keep st st' -> keep st (set_s_last_error v st').
Proof. intros K. etrans; [exact K|frame_step]. Qed.
Lemma keep_s_tls_conf v : keep st st' -> keep st (set_s_tls_conf v st').
Proof. intros K. etrans; [exact K|frame_step]. Qed.
Lemma keep_s_proxy_host v : keep st st' -> keep st (set_s_proxy_host v st').
Proof. intros K. etrans; [exact K|frame_step]. Qed.
Lemma keep_s_link v : keep st st' -> keep st (set_s_link v st').
Proof. intros K. etrans; [exact K|frame_step]. Qed.
Lemma keep_s_dropped v : keep st st' -> keep st (set_s_dropped v st').
Proof. intros K. etrans; [exact K|frame_step]. Qed.
Lemma keep_s_dns v : keep st st' -> keep st (set_s_dns v st').
Proof. intros K. etrans; [exact K|frame_step]. Qed.
Lemma keep_s_tcp_up v : keep st st' -> keep st (set_s_tcp_up v st').
Proof. intros K. etrans; [exact K|frame_step]. Qed.
Lemma keep_s_rx_refused v : keep st st' -> keep st (set_s_rx_refused v st').
Proof. intros K. etrans; [exact K|frame_step]. Qed.
Lemma keep_s_send_full v : keep st st' -> keep st (set_s_send_full v st').
Proof. intros K. etrans; [exact K|frame_step]. Qed.
Lemma keep_s_pend v : keep st st' -> keep st (set_s_pend v st').
Proof. intros K. etrans; [exact K|frame_step]. Qed.
Lemma keep_s_tunnels slot id : keep st st' -> keep st (set_s_tunnels (<[slot := id]> (s_tunnels st')) st').
Proof.
  intros K. etrans; [exact K|]. split; [|split; reflexivity]. constructor; [reflexivity|reflexivity|reflexivity|left; reflexivity|reflexivity| |].
  - apply length_insert.
  - exists []. by rewrite app_nil_r.
Qed.
Lemma keep_s_efuse_ev v : keep st st' -> keep st (set_s_efuse_ev v st').
Proof. intros K. etrans; [exact K|frame_step]. Qed.
Lemma keep_s_resend_caps v : keep st st' -> keep st (set_s_resend_caps v st').
Proof. intros K. etrans; [exact K|frame_step]. Qed.
Lemma keep_s_ota_last_state v : keep st st' -> keep st (set_s_ota_last_state v st').
Proof. intros K. etrans; [exact K|frame_step]. Qed.
Lemma keep_s_ota_last_refusals v : keep st st' -> keep st (set_s_ota_last_refusals v st').
Proof. intros K. etrans; [exact K|frame_step]. Qed.
Lemma keep_o_last_reported v : keep st st' -> keep st (set_o_last_reported v st').
Proof. intros K. etrans; [exact K|frame_step]. Qed.
Lemma keep_o_next_tick v : keep st st' -> keep st (set_o_next_tick v st').
Proof. intros K. etrans; [exact K|frame_step]. Qed.
Lemma keep_hw v : keep st st' -> keep st (set_hw v st').
Proof. intros K. etrans; [exact K|frame_step]. Qed.
Lemma keep_rings v : keep st st' -> keep st (set_rings v st').
Proof. intros K. etrans; [exact K|frame_step]. Qed.
Lemma keep_tiers v : keep st st' -> keep st (set_tiers v st').
Proof. intros K. etrans; [exact K|frame_step]. Qed.
Lemma keep_lease v : keep st st' -> keep st (set_lease v st').
Proof. intros K. etrans; [exact K|frame_step]. Qed.
Lemma keep_writes v : keep st st' -> keep st (set_writes v st').
Proof. intros K. etrans; [exact K|frame_step]. Qed.
End setters.

#[export] Hint Resolve keep_keep0 keep0_refl keep_refl keep_s_have_cfg keep_s_next_ping keep_s_last_rx keep_s_stable_at keep_s_backoff_reset_pending keep_s_nonce keep_s_sig keep_s_auth_v1 keep_s_last_error keep_s_tls_conf keep_s_proxy_host keep_s_link keep_s_dropped keep_s_dns keep_s_tcp_up keep_s_rx_refused keep_s_send_full keep_s_pend keep_s_tunnels keep_s_efuse_ev keep_s_resend_caps keep_s_ota_last_state keep_s_ota_last_refusals keep_o_last_reported keep_o_next_tick keep_hw keep_rings keep_tiers keep_lease keep_writes : cloud.

Section proofs.
Variable altcp_write_err : nat -> Z.
Variable get_rand : nat -> list Z.
Variable sign_ctx : cstr -> list Z -> option (list Z).
Abbreviation cl_tcp_send := (cl_tcp_send altcp_write_err).
Abbreviation cl_ws_send := (cl_ws_send altcp_write_err get_rand).

Lemma tcp_send_keep st bytes : keep st (fst (cl_tcp_send st bytes)).
Proof.
  unfold CloudClient.cl_tcp_send. destruct (negb (s_pcb st)) eqn:Ep; [kr|]. apply negb_false_iff in Ep.
  split; [|split; reflexivity]. constructor; [reflexivity|reflexivity|reflexivity|left; reflexivity|reflexivity|reflexivity|].
  exists [ActWrite bytes (altcp_write_err (writes st))]. split_and!; [reflexivity|by repeat constructor|congruence].
Qed.

(** Sending leaves the tunnels and the lease alone. *)
Lemma tcp_send_session st bytes : s_tunnels (fst (cl_tcp_send st bytes)) = s_tunnels st /\ lease (fst (cl_tcp_send st bytes)) = lease st.
Proof. unfold CloudClient.cl_tcp_send. by destruct (negb (s_pcb st)). Qed.

Lemma ws_send_keep st op p : keep st (fst (cl_ws_send st op p)).
Proof.
  unfold CloudClient.cl_ws_send. destruct (negb (s_pcb st)); [kr|]. destruct (is_empty _); [kr|apply tcp_send_keep].
Qed.

Lemma tunnel_free_keep st slot : keep st (tunnel_free st slot).
Proof. unfold tunnel_free, tunnel_submit_reset, tunnel_ring_reset. auto 6 with cloud. Qed.

Lemma tunnel_out_keep fuel : forall st slot rest off len, keep st (fst (tunnel_out_loop altcp_write_err get_rand fuel st slot rest off len)).
Proof.
  induction fuel as [|fuel IH]; intros st slot rest off len; cbn [tunnel_out_loop]; [kr|].
  destruct rest as [|b rest]; [kr|]. destruct (b64url_encode _ _) as [b64|]; [|kr]. destruct (_ <=? _)%nat; [kr|].
  pose proof (ws_send_keep st WS_OP_TEXT (data_frame (tunnel st slot) b64)) as K. destruct (cl_ws_send st WS_OP_TEXT _) as [st' sent]. cbn [fst] in K.
  destruct (negb sent); [done|]. etrans; [exact K|apply IH].
Qed.

Lemma cloud_tunnel_out_keep st c buf : keep st (fst (cloud_client_tunnel_out altcp_write_err get_rand st c buf)).
Proof. unfold cloud_client_tunnel_out. destruct (_ || _); [kr|]. destruct (_ || _); [kr|apply tunnel_out_keep]. Qed.

Lemma tunnel_fail_keep st slot why : keep st (cl_tunnel_fail altcp_write_err get_rand st slot why).
Proof.
  unfold cl_tunnel_fail. etrans; [|apply tunnel_free_keep].
  match goal with |- context [if e_ok ?e then fst (cloud_client_tunnel_out _ _ _ _ _) else _] => destruct (e_ok e) end.
  - etrans; [apply cloud_tunnel_out_keep|]. destruct (e_ok _); [apply ws_send_keep|kr].
  - destruct (e_ok _); [apply ws_send_keep|kr].
Qed.

Lemma tunnel_open_keep st json : keep st (cl_handle_tunnel_open st json).
Proof.
  unfold cl_handle_tunnel_open. destruct (is_empty _); [kr|]. destruct (open_slot _ _); [|kr].
  unfold tunnel_submit_reset, tunnel_ring_reset. auto 8 with cloud.
Qed.

Lemma tunnel_data_keep st json : keep st (fst (cl_handle_tunnel_data altcp_write_err get_rand st json)).
Proof.
  unfold cl_handle_tunnel_data. destruct (cl_tunnel_slot_by_id _ _); [|kr]. destruct (negb _); [apply tunnel_fail_keep|].
  destruct (b64url_decode _ _) as [[|b raw]|]; [kr| |apply tunnel_fail_keep].
  destruct (hw_worker_submit_bytes _ _ _) as [w ok]. cbn [fst]. frame_step.
Qed.

Lemma tunnel_close_keep st json : keep st (cl_handle_tunnel_close st json).
Proof. unfold cl_handle_tunnel_close. destruct (cl_tunnel_slot_by_id _ _); [apply tunnel_free_keep|kr]. Qed.

Lemma submit_ota_keep st k n d : keep st (fst (submit_ota st k n d)).
Proof. unfold submit_ota. destruct (hw_worker_submit_ota _ _ _ _ _) as [w ok]. cbn [fst]. frame_step. Qed.

Lemma ota_begin_keep st json : keep st (fst (cl_handle_ota_begin st json)).
Proof.
  unfold cl_handle_ota_begin, hw_worker_submit_ota_begin. destruct (_ || _); [kr|]. destruct (_ <=? _)%nat; [kr|apply submit_ota_keep].
Qed.

Lemma ota_data_keep st json : keep st (fst (cl_handle_ota_data st json)).
Proof.
  unfold cl_handle_ota_data. destruct (negb _); [kr|]. destruct (b64url_decode _ _) as [[|b raw]|]; [kr|apply submit_ota_keep|kr].
Qed.

(** ** The handlers that may back off *)

Definition outcome (now : Z) (st st' : cl_t) : Prop := keep st st' \/ backed now st st'.

Lemma reply_frame_outcome st frame now : outcome now st (cl_send_reply_frame altcp_write_err get_rand st frame now).
Proof.
  unfold cl_send_reply_frame. pose proof (ws_send_keep st WS_OP_TEXT frame) as K. destruct (cl_ws_send st WS_OP_TEXT frame) as [st' sent]. cbn [fst] in K.
  destruct sent; [left; etrans; [exact K|]; frame_step|]. destruct (s_send_full st'); [left; etrans; [exact K|]; frame_step|].
  right. exists st'. auto with cloud.
Qed.

Lemma command_error_outcome st id e now : outcome now st (cl_send_command_error altcp_write_err get_rand st id e now).
Proof. unfold cl_send_command_error. destruct (e_ok _); [apply reply_frame_outcome|left; kr]. Qed.

Lemma outcome_after now st st1 st2 : keep st st1 -> outcome now st1 st2 -> outcome now st st2.
Proof. intros K [H|H]; [left; by etrans|right]. eapply keep_backed, H. auto with cloud. Qed.

Lemma command_request_outcome st json now : outcome now st (cl_handle_command_request altcp_write_err get_rand st json now).
Proof.
  unfold cl_handle_command_request. destruct (cl_json_object _ _ _).
  - destruct (hw_worker_submit_cloud _ _ _) as [w ok]. destruct ok; [left; frame_step|].
    eapply outcome_after; [|apply command_error_outcome]. frame_step.
  - destruct (has_infix _ _); apply command_error_outcome.
Qed.

Lemma oversized_outcome st p now : outcome now st (oversized_frame altcp_write_err get_rand st p now).
Proof.
  unfold oversized_frame. destruct (streq _ _); [destruct (is_empty _); [left; kr|apply command_error_outcome]|].
  destruct (streq _ _); [|left; kr]. destruct (cl_tunnel_slot_by_id _ _); [left; apply tunnel_fail_keep|left; kr].
Qed.

Lemma text_frame_outcome st p now tick : outcome now st (fst (cl_handle_text_frame altcp_write_err get_rand st p now tick)).
Proof.
  unfold cl_handle_text_frame. destruct (_ <=? _)%nat; [apply oversized_outcome|].
  destruct (streq _ _); [apply command_request_outcome|]. destruct (streq _ _); [left; apply tunnel_data_keep|].
  destruct (streq _ _); [left; unfold cl_handle_lease_state; cbn [fst]; frame_step|].
  destruct (streq _ _); [left; apply tunnel_open_keep|]. destruct (streq _ _); [left; apply tunnel_close_keep|].
  destruct (streq _ _); [left; apply ota_begin_keep|]. destruct (streq _ _); [left; apply ota_data_keep|].
  do 3 (destruct (streq _ _); [left; apply submit_ota_keep|]). destruct (streq _ _); [left; apply ws_send_keep|left; kr].
Qed.

Lemma response_outcome st id reply now : outcome now st (cloud_client_send_command_response altcp_write_err get_rand st id reply now).
Proof.
  unfold cloud_client_send_command_response. destruct (negb _); [left; kr|]. destruct (has_prefix _ _); [apply command_error_outcome|].
  destruct (negb _); [apply command_error_outcome|apply reply_frame_outcome].
Qed.

(** ** Backing off *)

Lemma drop_tunnel_keep st slot : keep st (drop_tunnel st slot).
Proof. unfold drop_tunnel. destruct (is_empty _); [kr|apply tunnel_free_keep]. Qed.

Lemma fold_drop_keep l : forall st, keep st (fold_left drop_tunnel l st).
Proof. induction l as [|slot l IH]; intros st; cbn [fold_left]; [kr|]. etrans; [apply drop_tunnel_keep|apply IH]. Qed.

Lemma drop_tunnel_fields st slot :
  s_backoff_ms (drop_tunnel st slot) = s_backoff_ms st /\ lease (drop_tunnel st slot) = lease st /\
  s_tunnels (drop_tunnel st slot) = <[slot := []]> (s_tunnels st).
Proof.
  unfold drop_tunnel. destruct (is_empty (tunnel st slot)) eqn:E; [|done]. split_and!; [done|done|]. symmetry.
  assert (Ht : tunnel st slot = []) by (by destruct (tunnel st slot)). unfold tunnel in Ht.
  destruct (decide (slot < length (s_tunnels st))%nat) as [Hl|Hl].
  - apply list_insert_id. destruct (lookup_lt_is_Some_2 _ _ Hl) as [x Ex]. by rewrite (nth_lookup_Some _ _ _ _ Ex) in Ht; subst.
  - apply list_insert_ge. lia.
Qed.

(** What dropping the link leaves. *)
Record dropped (st st' : cl_t) : Prop := {
  d_cfg : s_cfg st' = s_cfg st;
  d_state : c_state st' = c_state st;
  d_backoff : s_backoff_ms st' = s_backoff_ms st;
  d_pcb : s_pcb st' = false;
  d_acts : acts st' = acts st ++ (if s_pcb st then [ActClose] else []);
  d_lease : s_held (lease st') = false;
  d_tunnels : length (s_tunnels st) = 3%nat -> s_tunnels st' = [[]; []; []];
}.

Lemma drop_link_spec st : dropped st (cl_drop_link st).
Proof.
  unfold cl_drop_link. set (st1 := set_lease _ st). set (st2 := if s_pcb st1 then _ else st1).
  assert (H2 : s_cfg st2 = s_cfg st /\ c_state st2 = c_state st /\ s_backoff_ms st2 = s_backoff_ms st /\ s_pcb st2 = false /\
    acts st2 = acts st ++ (if s_pcb st then [ActClose] else []) /\ s_held (lease st2) = false /\ s_tunnels st2 = s_tunnels st).
  { unfold st2. change (s_pcb st1) with (s_pcb st). destruct (s_pcb st) eqn:Ep; [by split_and!|]. rewrite app_nil_r. by split_and!. }
  clearbody st2. clear st1. destruct H2 as (C2 & S2 & B2 & P2 & A2 & L2 & T2).
  set (st3 := set_s_link _ _).
  assert (H3 : s_cfg st3 = s_cfg st /\ c_state st3 = c_state st /\ s_backoff_ms st3 = s_backoff_ms st /\ s_pcb st3 = false /\
    acts st3 = acts st ++ (if s_pcb st then [ActClose] else []) /\ s_held (lease st3) = false /\ s_tunnels st3 = s_tunnels st) by done.
  clearbody st3. clear C2 S2 B2 P2 A2 L2 T2 st2. destruct H3 as (C3 & S3 & B3 & P3 & A3 & L3 & T3).
  pose proof (fold_drop_keep slots st3) as [[C S _ _ P _ (l & A & _ & N)] _]. rewrite (N P3), app_nil_r in A.
  cbn [fold_left slots] in *. destruct (drop_tunnel_fields st3 0) as (E1 & E2 & E3).
  destruct (drop_tunnel_fields (drop_tunnel st3 0) 1) as (F1 & F2 & F3).
  destruct (drop_tunnel_fields (drop_tunnel (drop_tunnel st3 0) 1) 2) as (G1 & G2 & G3).
  set (st4 := drop_tunnel _ 2) in *. clearbody st4. constructor; cbn [set_s_rx s_cfg c_state s_backoff_ms s_pcb acts lease s_tunnels]; try congruence.
  intros Hl. rewrite G3, F3, E3, T3. destruct (s_tunnels st) as [|? [|? [|? []]]]; done.
Qed.

(** What backing off leaves. *)
Record in_backoff (now : Z) (st st' : cl_t) : Prop := {
  b_cfg : s_cfg st' = s_cfg st;
  b_state : c_state st' = CL_BACKOFF;
  b_deadline : s_deadline st' = now + s_backoff_ms st * 1000;
  b_backoff : 2000 <= s_backoff_ms st <= 30000 -> 2000 <= s_backoff_ms st' <= 30000;
  b_pcb : s_pcb st' = false;
  b_acts : exists l, acts st' = acts st ++ l /\ Forall (fun a => a = ActClose) l;
  b_lease : s_held (lease st') = false;
  b_tunnels : length (s_tunnels st) = 3%nat -> s_tunnels st' = [[]; []; []];
}.

Lemma start_backoff_spec now st st1 : dropped st st1 -> in_backoff now st (start_backoff st1 now).
Proof.
  intros [C S B P A L T]. constructor.
  - exact C.
  - reflexivity.
  - rewrite <- B. reflexivity.
  - rewrite <- B. change (s_backoff_ms (start_backoff st1 now)) with
      (if BACKOFF_MAX_MS <? u32 (s_backoff_ms st1 * 2) then BACKOFF_MAX_MS else u32 (s_backoff_ms st1 * 2)).
    intros Hr. rewrite u32_id by lia. destruct (Z.ltb_spec BACKOFF_MAX_MS (s_backoff_ms st1 * 2)); lia.
  - exact P.
  - exists (if s_pcb st then [ActClose] else []). split; [exact A|]. destruct (s_pcb st); repeat constructor.
  - exact L.
  - exact T.
Qed.

Lemma backoff_spec now st : in_backoff now st (cl_backoff st now).
Proof.
  pose proof (start_backoff_spec now (set_s_pend [] st) _ (drop_link_spec (set_s_pend [] st))) as [C S D B P A L T].
  constructor; assumption.
Qed.

Lemma backed_state now st st' : backed now st st' -> c_state st' = CL_BACKOFF.
Proof. intros (st1 & _ & ->). apply (b_state _ _ _ (backoff_spec now st1)). Qed.

Lemma backed_now now st : backed now st (cl_backoff st now).
Proof. exists st. auto with cloud. Qed.

Lemma fail_backed now st e : backed now st (fail st e now).
Proof. unfold fail, set_error. exists (set_s_last_error e st). auto with cloud. Qed.

(** ** Frames *)

(** [consumes rx fs rx']: parsing [rx] gives the frames [fs] and leaves [rx']. *)
Inductive consumes : list Z -> list ws_frame_t -> list Z -> Prop :=
| con_nil rx : consumes rx [] rx
| con_frame rx r fr fs rx' : ws_parse_frame rx = (r, Some fr) -> consumes (drop (Z.to_nat r) rx) fs rx' -> consumes rx (fr :: fs) rx'.

Lemma consumes_app rx fs rx' fs' rx'' : consumes rx fs rx' -> consumes rx' fs' rx'' -> consumes rx (fs ++ fs') rx''.
Proof. induction 1 as [|rx r fr fs rx' Hp _ IH]; intros H'; [done|]. cbn [app]. by econstructor; [|apply IH]. Qed.

(** More bytes behind change nothing of what was parsed. *)
Lemma consumes_more rx fs rx' more : bytes_ok rx -> consumes rx fs rx' -> consumes (rx ++ more) fs (rx' ++ more).
Proof.
  intros Hb Hc. induction Hc as [|rx r fr fs rx' Hp _ IH]; [constructor|].
  destruct (parse_range rx r fr Hb Hp) as (Hr & _). apply (con_frame _ r fr); [apply parse_more; [done|lia|exact Hp]|].
  rewrite drop_app_le by lia. apply IH. by apply Forall_drop.
Qed.

Lemma consumes_bytes rx fs rx' : bytes_ok rx -> consumes rx fs rx' -> bytes_ok rx'.
Proof. intros Hb Hc. induction Hc as [|rx r fr fs rx' Hp _ IH]; [done|]. by apply IH, Forall_drop. Qed.

(** The frames one processing consumes, in order. *)
Fixpoint frames_done (fuel : nat) (st : cl_t) (now tick : Z) : list ws_frame_t :=
  match fuel with
  | O => []
  | S fuel' =>
      match ws_parse_frame (s_rx st) with
      | (r, Some fr) =>
          let '(st', more) := handle_frame altcp_write_err get_rand st (Z.to_nat r) fr now tick in
          if more then fr :: frames_done fuel' st' now tick else []
      | _ => []
      end
  end.

Lemma handle_frame_spec st n fr now tick : c_state st = CL_CONNECTED ->
  let '(st', more) := handle_frame altcp_write_err get_rand st n fr now tick in
  if more then exists st1, keep st st1 /\ st' = cl_rx_consume st1 n else outcome now st st'.
Proof.
  intros Hs. unfold handle_frame.
  assert (Hdone : forall st1, outcome now st st1 ->
    let '(st', more) := if bool_decide (c_state st1 = CL_CONNECTED) then (cl_rx_consume st1 n, true) else (st1, false) in
    if more then exists st1, keep st st1 /\ st' = cl_rx_consume st1 n else outcome now st st').
  { intros st1 [K|B].
    - pose proof (k_state _ _ (keep_keep0 _ _ K)) as E. rewrite bool_decide_eq_true_2 by congruence. by exists st1.
    - rewrite bool_decide_eq_false_2 by (rewrite (backed_state _ _ _ B); done). by right. }
  destruct (opcode fr =? WS_OP_TEXT).
  - pose proof (text_frame_outcome st (payload fr) now tick) as H. destruct (cl_handle_text_frame _ _ _ _ _ _) as [st1 ok]. cbn [fst] in H.
    destruct ok; [by apply Hdone|done].
  - destruct (opcode fr =? WS_OP_PING); [apply Hdone; left; apply ws_send_keep|].
    destruct (opcode fr =? WS_OP_CLOSE); [right; apply backed_now|]. apply Hdone. left. kr.
Qed.

Lemma rx_consume_keep0 st st1 n : keep st st1 -> keep0 st (cl_rx_consume st1 n).
Proof. intros [K _]. etrans; [exact K|]. unfold cl_rx_consume. frame_step. Qed.

Lemma process_spec fuel : forall st now tick, c_state st = CL_CONNECTED -> bytes_ok (s_rx st) ->
  let st' := process_loop altcp_write_err get_rand fuel st now tick in
  (keep0 st st' /\ s_rx_overflow st' = s_rx_overflow st /\ consumes (s_rx st) (frames_done fuel st now tick) (s_rx st')) \/ backed now st st'.
Proof.
  induction fuel as [|fuel IH]; intros st now tick Hs Hb; cbv zeta; cbn [process_loop frames_done].
  { left. split; [apply keep0_refl|]. split; [done|constructor]. }
  destruct (ws_parse_frame (s_rx st)) as [r [fr|]] eqn:Ep.
  - pose proof (handle_frame_spec st (Z.to_nat r) fr now tick Hs) as H. destruct (handle_frame _ _ _ _ _ _ _) as [st1 more]. destruct more.
    + destruct H as (st0 & K & ->). set (st1 := cl_rx_consume st0 (Z.to_nat r)). destruct (parse_range _ _ _ Hb Ep) as (Hr & _).
      assert (Erx : s_rx st1 = drop (Z.to_nat r) (s_rx st)).
      { unfold st1, cl_rx_consume, cloud_rx_consume. cbn [set_s_rx s_rx]. destruct K as (_ & -> & _).
        destruct (Nat.leb_spec (length (s_rx st)) (Z.to_nat r)); [by rewrite drop_ge by lia|done]. }
      pose proof (rx_consume_keep0 st st0 (Z.to_nat r) K) as K1. fold st1 in K1.
      destruct (IH st1 now tick) as [(K2 & O2 & C2)|B2].
      * rewrite <- Hs. apply (k_state _ _ K1).
      * rewrite Erx. by apply Forall_drop.
      * left. split; [by etrans|]. split; [rewrite O2; by destruct K as (_ & _ & <-)|]. econstructor; [exact Ep|]. by rewrite <- Erx.
      * right. by eapply keep_backed.
    + destruct H as [K|B]; [left|by right]. destruct K as (K0 & Er & Eo). split; [done|]. split; [done|]. rewrite Er. constructor.
  - destruct (r =? 0); [left; split; [apply keep0_refl|split; [done|constructor]]|].
    right. destruct (r =? WS_PARSE_FRAGMENTED); apply fail_backed.
Qed.
Lemma process_moves fuel : forall st now tick, c_state st = CL_CONNECTED ->
  keep0 st (process_loop altcp_write_err get_rand fuel st now tick) \/ backed now st (process_loop altcp_write_err get_rand fuel st now tick).
Proof.
  induction fuel as [|fuel IH]; intros st now tick Hs; cbn [process_loop]; [left; apply keep0_refl|].
  destruct (ws_parse_frame (s_rx st)) as [r [fr|]] eqn:Ep.
  - pose proof (handle_frame_spec st (Z.to_nat r) fr now tick Hs) as H. destruct (handle_frame _ _ _ _ _ _ _) as [st1 more]. destruct more.
    + destruct H as (st0 & K & ->). pose proof (rx_consume_keep0 st st0 (Z.to_nat r) K) as K1.
      destruct (IH (cl_rx_consume st0 (Z.to_nat r)) now tick) as [K2|B2]; [rewrite <- Hs; apply (k_state _ _ K1)|left; by etrans|right; by eapply keep_backed].
    + destruct H as [[K _]|B]; [by left|by right].
  - destruct (r =? 0); [left; apply keep0_refl|]. right. destruct (r =? WS_PARSE_FRAGMENTED); apply fail_backed.
Qed.

Lemma capabilities_keep st caps : keep st (fst (cl_send_capabilities altcp_write_err get_rand st caps)).
Proof. unfold cl_send_capabilities. destruct (is_empty caps); [kr|apply ws_send_keep]. Qed.

Lemma efuse_event_keep st n en fl : keep st (cl_send_efuse_event altcp_write_err get_rand st n en fl).
Proof. unfold cl_send_efuse_event. destruct (_ <? _)%nat; [apply ws_send_keep|kr]. Qed.

Lemma fold_keep {A} (f : cl_t -> A -> cl_t) l : (forall st x, keep st (f st x)) -> forall st, keep st (fold_left f l st).
Proof. intros Hf. induction l as [|x l IH]; intros st; cbn [fold_left]; [kr|]. etrans; [apply Hf|apply IH]. Qed.

Lemma drain_keep st : keep st (cl_drain_efuse_events altcp_write_err get_rand st).
Proof.
  apply fold_keep. intros st' idx. unfold drain_efuse. destruct (nth _ _ _) as [[en fl]|]; [|kr].
  etrans; [|apply efuse_event_keep]. auto with cloud.
Qed.

Lemma snapshot_keep st cached : keep st (cl_send_efuse_snapshot altcp_write_err get_rand st cached).
Proof. apply fold_keep. intros st' idx. unfold snapshot_efuse. destruct (nth _ _ _) as [[en fl]|]; [apply efuse_event_keep|kr]. Qed.

Lemma ota_poll_keep st i : keep st (cl_ota_status_poll altcp_write_err get_rand st i).
Proof.
  unfold cl_ota_status_poll. destruct (negb _); [kr|]. destruct (negb _); [kr|].
  pose proof (ws_send_keep st WS_OP_TEXT (e_buf (ota_status_frame st i))) as K. destruct (cl_ws_send st _ _) as [st' sent]. cbn [fst] in K.
  destruct (negb sent); [done|]. auto 8 with cloud.
Qed.

Lemma kick_keep st : s_pcb st = true -> keep st (do_act st ActKick).
Proof.
  intros Hp. split; [|split; reflexivity]. constructor; [reflexivity|reflexivity|reflexivity|left; reflexivity|reflexivity|reflexivity|].
  exists [ActKick]. split_and!; [reflexivity|by repeat constructor|congruence].
Qed.

Lemma reset_backoff_keep st : keep st (set_s_backoff_ms BACKOFF_START_MS st).
Proof. split; [|split; reflexivity]. constructor; try reflexivity; [by right|]. exists []. by rewrite app_nil_r. Qed.

(** The upkeep of a connected link, step by step. *)
Lemma upkeep_moves st i : outcome (i_now i) st (poll_upkeep altcp_write_err get_rand st i).
Proof.
  unfold poll_upkeep. set (st1 := if s_rx_refused st && s_pcb st && _ then _ else st).
  assert (K1 : keep st st1).
  { unfold st1. destruct (s_rx_refused st); [|apply keep_refl]. destruct (s_pcb st) eqn:Ep; [|apply keep_refl]. destruct (_ <? _); [|apply keep_refl].
    cbn [andb]. destruct (cf_tls _); [|auto with cloud]. etrans; [|apply kick_keep; exact Ep]. auto with cloud. }
  clearbody st1. set (st2 := if s_backoff_reset_pending st1 && _ then _ else st1).
  assert (K2 : keep st st2).
  { unfold st2. destruct (_ && _); [|done]. etrans; [exact K1|]. etrans; [|apply reset_backoff_keep]. auto with cloud. }
  clearbody st2. clear st1 K1. destruct (_ <? _); [right; eapply keep_backed; [exact (keep_keep0 _ _ K2)|apply fail_backed]|].
  match goal with |- context [let '(_, _) := ?x in _] => set (p3 := x) end.
  assert (H3 : (snd p3 = true /\ keep st (fst p3)) \/ (snd p3 = false /\ backed (i_now i) st (fst p3))).
  { unfold p3. destruct (is_empty (s_pend st2)); [by left|]. pose proof (ws_send_keep st2 WS_OP_TEXT (s_pend st2)) as K. destruct (cl_ws_send st2 _ _) as [st' sent]. cbn [fst] in K.
    destruct sent; [left; split; [done|]; etrans; [exact K2|]; cbn [fst]; auto with cloud|].
    destruct (negb _); [right|left]; (split; [done|]); cbn [fst]; [|by etrans]. eapply keep_backed; [|apply backed_now]. apply keep_keep0. by etrans. }
  clearbody p3. destruct p3 as [st3 ok3]. cbn [fst snd] in H3. destruct H3 as [[-> K3]|[-> B3]]; cbn [negb]; [|by right].
  match goal with |- context [let '(_, _) := ?x in _] => set (p4 := x) end.
  assert (H4 : (snd p4 = true /\ keep st (fst p4)) \/ (snd p4 = false /\ backed (i_now i) st (fst p4))).
  { unfold p4. destruct (negb _); [by left|]. set (st3' := set_s_next_ping _ st3). assert (K3' : keep st st3') by (etrans; [exact K3|]; unfold st3'; auto with cloud).
    clearbody st3'. pose proof (ws_send_keep st3' WS_OP_PING []) as K. destruct (cl_ws_send st3' _ _) as [st' sent]. cbn [fst] in K.
    destruct sent; [left; split; [done|]; by etrans|].
    destruct (s_send_full st'); [left; split; [done|]; cbn [fst]; etrans; [exact K3'|]; auto with cloud|right].
    split; [done|]. cbn [fst]. eapply keep_backed; [|apply backed_now]. apply keep_keep0. by etrans. }
  clearbody p4. destruct p4 as [st4 ok4]. cbn [fst snd] in H4. destruct H4 as [[-> K4]|[-> B4]]; cbn [negb]; [|by right].
  left. etrans; [exact K4|]. etrans; [apply (drain_keep st4)|]. set (st5 := cl_drain_efuse_events _ _ _). clearbody st5.
  etrans; [|apply ota_poll_keep]. destruct (s_resend_caps st5); [|apply keep_refl].
  pose proof (capabilities_keep st5 (i_caps i)) as K. destruct (cl_send_capabilities _ _ _ _) as [st' sent]. cbn [fst] in K. destruct sent; auto with cloud.
Qed.
End proofs.
