(* ===== verification/CloudTheorems.v ===== *)
(** * What the cloud client guarantees

    By runs of all tasks: what goes out on a link, when the pod reconnects, when
    the lease and the tunnels live, and which frames are handled. *)

From S2P Require Import Prelude Json B64 CmdTable CmdGate Ota Worker ConnTx WsFrame CloudClient CloudLemmas.

(** ** The trace of the stack's calls *)

(** Whether the link open now is verified, and every write so far was on a
    verified link. *)
Definition trace_step (s : bool * bool) (a : act) : bool * bool :=
  let '(v, ok) := s in
  match a with
  | ActConnect | ActClose => (false, ok)
  | ActVerify f => (f =? 0, ok)
  | ActWrite _ _ => (v, ok && v)
  | ActKick => (v, ok)
  end.
Definition trace (l : list act) : bool * bool := fold_left trace_step l (false, true).
Definition verified (l : list act) : bool := fst (trace l).
Definition writes_verified (l : list act) : bool := snd (trace l).

Lemma trace_outputs l : Forall (fun a => is_output a = true) l -> forall v ok, (v = true \/ l = []) ->
  fold_left trace_step l (v, ok) = (v, ok).
Proof.
  induction 1 as [|a l Ha _ IH]; intros v ok Hv; cbn [fold_left]; [done|]. destruct Hv as [->|]; [|done].
  destruct a; try done; cbn [trace_step]; rewrite ?andb_true_r; apply IH; by left.
Qed.

Lemma trace_closes l : Forall (fun a => a = ActClose) l -> forall s, snd (fold_left trace_step l s) = snd s.
Proof. induction 1 as [|a l -> _ IH]; intros [v ok]; cbn [fold_left]; [done|]. by rewrite IH. Qed.

(** ** The invariant

    [now] is the time, [tc] that of the last connect, if there was one since the
    last change of configuration. *)

Abbreviation GAP := 2000000.

Record base (now : Z) (tc : option Z) (st : cl_t) : Prop := {
  i_sent : writes_verified (acts st) = true;
  i_tls : cf_tls (s_cfg st) = true;
  i_range : 2000 <= s_backoff_ms st <= 30000;
  i_tlen : length (s_tunnels st) = 3%nat;
  i_tc : forall t, tc = Some t -> t <= now;
}.

Definition has_link (s : cl_state_t) : bool := match s with CL_CHAL_CONNECT | CL_CHAL_WAIT | CL_WS_WAIT | CL_CONNECTED => true | _ => false end.
Definition waits (tc : option Z) (now : Z) (st : cl_t) : Prop :=
  forall t, tc = Some t ->
  match c_state st with
  | CL_RESOLVE | CL_RESOLVE_WAIT | CL_CHAL_OPEN => t + GAP <= now
  | CL_BACKOFF => t + GAP <= s_deadline st
  | CL_WAIT_WIFI | CL_DISABLED => False
  | _ => True
  end.
Definition no_session (st : cl_t) : Prop := s_held (lease st) = false /\ s_tunnels st = [[]; []; []].

Record cinv (now : Z) (tc : option Z) (st : cl_t) : Prop := {
  i_base : base now tc st;
  i_link : s_pcb st = true -> has_link (c_state st) = true;
  i_verified : s_pcb st = true -> c_state st <> CL_CHAL_CONNECT -> verified (acts st) = true;
  i_idle : c_state st <> CL_CONNECTED -> no_session st;
  i_waits : waits tc now st;
}.

Lemma trace_app l1 l2 : trace (l1 ++ l2) = fold_left trace_step l2 (trace l1).
Proof. unfold trace. by rewrite fold_left_app. Qed.

(** Output on a verified link, or none. *)
Lemma base_keep now tc st st' : base now tc st -> (s_pcb st = true -> verified (acts st) = true) -> keep0 st st' ->
  base now tc st' /\ (s_pcb st' = true -> verified (acts st') = true).
Proof.
  intros [Hs Ht Hr Hl Htc] Hv [C S D B P T (l & A & F & N)].
  assert (E : trace (acts st') = trace (acts st)).
  { rewrite A, trace_app. destruct (trace (acts st)) as [v ok] eqn:Et. apply trace_outputs; [done|].
    destruct (s_pcb st); [left; specialize (Hv eq_refl); unfold verified in Hv; by rewrite Et in Hv|right; by apply N]. }
  split; [constructor|].
  - unfold writes_verified in *. by rewrite E.
  - by rewrite C.
  - destruct B as [->| ->]; lia.
  - by rewrite T.
  - done.
  - unfold verified in *. by rewrite E, P.
Qed.

(** Backing off restores the invariant from any state of the link. *)
Lemma cinv_backoff now tc st : base now tc st -> cinv now tc (cl_backoff st now).
Proof.
  intros [Hs Ht Hr Hl Htc]. destruct (backoff_spec now st) as [C S D B P (l & A & F) L T]. constructor.
  - constructor.
    + unfold writes_verified in *. by rewrite A, trace_app, trace_closes.
    + by rewrite C.
    + by apply B.
    + by rewrite T.
    + done.
  - by rewrite P.
  - by rewrite P.
  - intros _. split; [done|by apply T].
  - intros t Et. rewrite S, D. specialize (Htc t Et). lia.
Qed.

Lemma cinv_backed now tc st st' : base now tc st -> (s_pcb st = true -> verified (acts st) = true) -> backed now st st' -> cinv now tc st'.
Proof. intros Hb Hv (st1 & K & ->). apply cinv_backoff. by destruct (base_keep now tc st st1 Hb Hv K). Qed.

(** The link as it was, the session as it was. *)
Definition calm (st st' : cl_t) : Prop :=
  s_cfg st' = s_cfg st /\ c_state st' = c_state st /\ s_deadline st' = s_deadline st /\ s_backoff_ms st' = s_backoff_ms st /\ s_pcb st' = s_pcb st /\
  acts st' = acts st /\ s_tunnels st' = s_tunnels st /\ (s_held (lease st') = true -> s_held (lease st) = true).

Lemma base_calm now tc st st' : base now tc st -> calm st st' -> base now tc st'.
Proof. intros [Hs Ht Hr Hl Htc] (C & S & D & B & P & A & T & L). constructor; rewrite ?C, ?S, ?B, ?P, ?A, ?T; done. Qed.

Lemma no_session_calm st st' : no_session st -> calm st st' -> no_session st'.
Proof. intros [Hl Ht] (_ & _ & _ & _ & _ & _ & T & L). split; [|by rewrite T]. destruct (s_held (lease st')); [by rewrite L in Hl|done]. Qed.

Lemma cinv_calm now tc st st' : cinv now tc st -> calm st st' -> cinv now tc st'.
Proof.
  intros [Hb Hlk Hv Hi Hw] Hc. pose proof Hc as (C & S & D & B & P & A & T & L). constructor.
  - by eapply base_calm.
  - by rewrite S, P.
  - by rewrite S, P, A.
  - rewrite S. intros Hne. by eapply no_session_calm; [apply Hi|].
  - unfold waits in *. by rewrite S, D.
Qed.

Lemma cinv_later now now' tc st : cinv now tc st -> now <= now' -> cinv now' tc st.
Proof.
  intros [[Hs Ht Hr Hl Htc] Hlk Hv Hi Hw] Hle. constructor; try done.
  - constructor; try done. intros t Et. specialize (Htc t Et). lia.
  - intros t Et. specialize (Hw t Et). destruct (c_state st); lia || done.
Qed.

(** Connected, the handlers may do what they like with the session. *)
Lemma cinv_keep now tc st st' : cinv now tc st -> c_state st = CL_CONNECTED -> keep0 st st' -> cinv now tc st'.
Proof.
  intros [Hb Hlk Hv Hi Hw] Hs K. destruct (base_keep now tc st st' Hb) as [Hb' Hv']; [intros; apply Hv; [done|by rewrite Hs]|done|].
  pose proof (k_state _ _ K) as S. constructor; try done.
  - intros _. by rewrite S, Hs.
  - intros Hp _. by apply Hv'.
  - congruence.
  - intros t Et. by rewrite S, Hs.
Qed.

Lemma cinv_outcome now tc st st' : cinv now tc st -> c_state st = CL_CONNECTED -> outcome now st st' -> cinv now tc st'.
Proof.
  intros Hi Hs [[K _]|B]; [by eapply cinv_keep|]. pose proof Hi as [Hb _ Hv _ _]. eapply cinv_backed; [exact Hb| |exact B].
  intros Hp. apply Hv; [done|by rewrite Hs].
Qed.

(** A change of state (and deadline) alone. *)
Definition same_but_state (st st' : cl_t) : Prop :=
  s_cfg st' = s_cfg st /\ s_backoff_ms st' = s_backoff_ms st /\ s_pcb st' = s_pcb st /\ acts st' = acts st /\
  s_tunnels st' = s_tunnels st /\ lease st' = lease st.

Lemma cinv_move now tc st st' : cinv now tc st -> same_but_state st st' -> c_state st <> CL_CONNECTED ->
  (s_pcb st = true -> has_link (c_state st') = true /\ (c_state st' <> CL_CHAL_CONNECT -> verified (acts st) = true)) ->
  waits tc now st' -> cinv now tc st'.
Proof.
  intros [[Hs Ht Hr Hl Htc] Hlk Hv Hi Hw] (C & B & P & A & T & L) Hne Hp Hw'. constructor; [constructor|..]; rewrite ?C, ?B, ?A, ?T, ?P; try done.
  - intros E. by apply Hp.
  - intros E. by apply Hp.
  - intros _. unfold no_session. rewrite T, L. by apply Hi.
Qed.

Section steps.
Variable altcp_write_err : nat -> Z.
Variable get_rand : nat -> list Z.
Variable sign_ctx : cstr -> list Z -> option (list Z).
Abbreviation poll := (cloud_client_poll altcp_write_err get_rand sign_ctx).

Lemma fail_cinv now tc st e : base now tc st -> cinv now tc (fail st e now).
Proof. intros Hb. apply cinv_backoff. by destruct Hb; constructor. Qed.

(** The time of a poll that opens a link. *)
Definition connects (st : cl_t) (i : poll_in) : bool :=
  bool_decide (c_state st = CL_CHAL_OPEN) && match i_open i with OpenConnErr | OpenOk => true | _ => false end.

Lemma no_link now tc st : cinv now tc st -> has_link (c_state st) = false -> s_pcb st = false.
Proof. intros [_ Hlk _ _ _] Hs. destruct (s_pcb st); [|done]. by rewrite Hlk in Hs. Qed.

(** Moving on where there is no link. *)
Lemma cinv_goto now tc st st' : cinv now tc st -> same_but_state st st' -> has_link (c_state st) = false -> waits tc now st' -> cinv now tc st'.
Proof.
  intros Hi Hsm Hs Hw. eapply cinv_move; [exact Hi|done| | |done].
  - intros E. by rewrite E in Hs.
  - intros Hp. by rewrite (no_link now tc st Hi Hs) in Hp.
Qed.

Lemma wait_wifi_cinv tc st i : c_state st = CL_WAIT_WIFI -> cinv (i_now i) tc st -> cinv (i_now i) tc (poll_wait_wifi st i).
Proof.
  intros Hs Hi. unfold poll_wait_wifi. destruct (_ && _); [|done]. apply (cinv_goto _ _ st); [done|done|by rewrite Hs|].
  intros t Et. pose proof (i_waits _ _ _ Hi t Et) as Hw. by rewrite Hs in Hw.
Qed.

Lemma resolve_cinv tc st i : c_state st = CL_RESOLVE -> cinv (i_now i) tc st -> cinv (i_now i) tc (poll_resolve st i).
Proof.
  intros Hs Hi. unfold poll_resolve. set (st1 := set_s_dns DNS_PENDING _).
  assert (H1 : cinv (i_now i) tc st1) by (eapply cinv_calm; [exact Hi|]; done). assert (Hs1 : c_state st1 = CL_RESOLVE) by done. clearbody st1.
  destruct (_ || _); [|apply fail_cinv, H1]. apply (cinv_goto _ _ st1); [done|done|by rewrite Hs1|].
  intros t Et. pose proof (i_waits _ _ _ H1 t Et) as Hw. by rewrite Hs1 in Hw.
Qed.

Lemma resolve_wait_cinv tc st i : c_state st = CL_RESOLVE_WAIT -> cinv (i_now i) tc st -> cinv (i_now i) tc (poll_resolve_wait st i).
Proof.
  intros Hs Hi. unfold poll_resolve_wait. destruct (s_dns st); [destruct (reached _ _); [apply fail_cinv, Hi|done]..| |apply fail_cinv, Hi].
  apply (cinv_goto _ _ st); [done|done|by rewrite Hs|]. intros t Et. pose proof (i_waits _ _ _ Hi t Et) as Hw. by rewrite Hs in Hw.
Qed.

(** A connect notes the time; the link it opens is not verified. *)
Lemma base_connect now tc st st' : base now tc st -> s_cfg st' = s_cfg st -> s_backoff_ms st' = s_backoff_ms st -> s_tunnels st' = s_tunnels st ->
  (exists l, acts st' = acts st ++ ActConnect :: l /\ Forall (fun a => a = ActClose) l) -> base now (Some now) st'.
Proof.
  intros [Hs Ht Hr Hl _] C B T (l & A & F). constructor; rewrite ?C, ?B, ?T; try done.
  - unfold writes_verified in *. rewrite A, trace_app. cbn [fold_left]. rewrite trace_closes by done. by destruct (trace (acts st)).
  - intros t E. simplify_eq. lia.
Qed.

Lemma chal_open_cinv tc st i : c_state st = CL_CHAL_OPEN -> cinv (i_now i) tc st ->
  cinv (i_now i) (if connects st i then Some (i_now i) else tc) (poll_chal_open st i).
Proof.
  intros Hs Hi. pose proof Hi as [Hb _ _ Hid _]. assert (Hns : no_session st) by (apply Hid; by rewrite Hs).
  unfold poll_chal_open, cl_open, connects. rewrite bool_decide_eq_true_2 by done. cbn [andb].
  assert (Hfail : forall st1, calm st st1 -> cinv (i_now i) tc (fail st1 (str "tcp connect failed") (i_now i))).
  { intros st1 Hc. apply fail_cinv. by eapply base_calm. }
  destruct (i_open i) as [| |ca| | |].
  - by apply Hfail.
  - destruct (_ && _); by apply Hfail.
  - destruct (_ && _); by apply Hfail.
  - destruct (cf_tls _); by apply Hfail.
  - set (st1 := if cf_tls (s_cfg st) then _ else st). assert (H1 : calm st st1) by (unfold st1; by destruct (cf_tls _)). clearbody st1.
    set (st2 := do_act _ ActConnect). apply fail_cinv. pose proof (drop_link_spec st2) as [C S B P A L T].
    eapply base_connect; [exact (base_calm _ _ _ _ Hb H1)|exact C|exact B| |].
    + rewrite T; destruct H1 as (_ & _ & _ & _ & _ & _ & T1 & _).
      * destruct Hns as [_ Ht]. by rewrite T1, Ht.
      * change (s_tunnels st2) with (s_tunnels st1). rewrite T1. by destruct Hb.
    + exists [ActClose]. split; [|by repeat constructor]. rewrite A. change (s_pcb st2) with true. change (acts st2) with (acts st1 ++ [ActConnect]).
      by rewrite <- app_assoc.
  - set (st1 := if cf_tls (s_cfg st) then _ else st). assert (H1 : calm st st1) by (unfold st1; by destruct (cf_tls _)). clearbody st1.
    cbn [negb]. set (st2 := set_state _ CL_CHAL_CONNECT). pose proof H1 as (_ & _ & _ & _ & _ & _ & T1 & _).
    assert (Hb2 : base (i_now i) (Some (i_now i)) st2).
    { eapply base_connect; [exact (base_calm _ _ _ _ Hb H1)|done|done|done|]. exists []. by split. }
    constructor; [exact Hb2|intros _; reflexivity|intros _ []; reflexivity|intros _; exact (no_session_calm st st1 Hns H1)|intros t Et; exact I].
Qed.

(** The verification is what makes a link usable. *)
Lemma chal_connect_cinv tc st i : c_state st = CL_CHAL_CONNECT -> cinv (i_now i) tc st ->
  cinv (i_now i) tc (poll_chal_connect altcp_write_err st i).
Proof.
  intros Hs Hi. unfold poll_chal_connect. set (st1 := if negb (s_tcp_up st) && _ then _ else st).
  assert (H1 : cinv (i_now i) tc st1) by (eapply cinv_calm; [exact Hi|]; unfold st1; by destruct (_ && _)).
  assert (Hs1 : c_state st1 = CL_CHAL_CONNECT) by (unfold st1; by destruct (_ && _)). clearbody st1.
  pose proof H1 as [Hb _ _ Hid _]. destruct (bool_decide (s_link st1 = LINK_UP)).
  - assert (Hv : let '(st2, ok) := cl_tls_verified st1 (i_tls_verify i) in
      base (i_now i) tc st2 /\ (ok = true -> c_state st2 = CL_CHAL_CONNECT /\ no_session st2 /\ (s_pcb st2 = true -> verified (acts st2) = true))).
    { unfold cl_tls_verified. rewrite (i_tls _ _ _ Hb). cbn [negb]. destruct (negb (s_pcb st1)); [by split|].
      destruct (i_tls_verify i) as [f|]; [|by split].
      assert (Hb2 : base (i_now i) tc (do_act st1 (ActVerify f))).
      { destruct Hb as [E ? ? ? ?]. constructor; try done. unfold writes_verified in *. unfold do_act. cbn [set_acts acts]. rewrite trace_app.
        cbn [fold_left]. by destruct (trace (acts st1)). }
      destruct (Z.eqb_spec f 0) as [->|Hf]; [|split; [by destruct Hb2; constructor|done]].
      split; [exact Hb2|]. intros _. split; [done|]. split; [apply Hid; by rewrite Hs1|]. intros _.
      unfold verified, do_act. cbn [set_acts acts]. rewrite trace_app. cbn [fold_left]. by destruct (trace (acts st1)). }
    destruct (cl_tls_verified st1 (i_tls_verify i)) as [st2 ok]. destruct Hv as [Hb2 Hok]. destruct ok; cbn [negb]; [|by apply cinv_backoff].
    destruct (Hok eq_refl) as (Hs2 & Hns & Hver). unfold cl_send_challenge_post.
    match goal with |- context [cl_tcp_send _ st2 ?x] => generalize x end. intros bytes.
    pose proof (tcp_send_keep altcp_write_err st2 bytes) as K. pose proof (tcp_send_session altcp_write_err st2 bytes) as Hsess.
    destruct (cl_tcp_send altcp_write_err st2 bytes) as [st3 ok]. cbn [fst] in K, Hsess.
    destruct (base_keep _ _ _ _ Hb2 Hver (keep_keep0 _ _ K)) as [Hb3 Hver3]. destruct ok; cbn [negb]; [|by apply cinv_backoff].
    destruct Hsess as [T L]. destruct Hns as [N1 N2].
    constructor; [by destruct Hb3; constructor|intros _; reflexivity|intros Hp _; exact (Hver3 Hp)| |intros t Et; exact I].
    intros _. split; [exact (eq_trans (f_equal s_held L) N1)|exact (eq_trans T N2)].
  - destruct (_ || s_dropped st1).
    + apply cinv_backoff. repeat case_match; try done; by destruct Hb; constructor.
    + destruct (reached _ _); [|done]. apply fail_cinv, Hb.
Qed.
(** On a verified link. *)
Definition live (now : Z) (tc : option Z) (st : cl_t) : Prop := base now tc st /\ (s_pcb st = true -> verified (acts st) = true).

Lemma live_of now tc st : cinv now tc st -> c_state st <> CL_CHAL_CONNECT -> live now tc st.
Proof. intros [Hb _ Hv _ _] Hs. split; [done|]. intros Hp. by apply Hv. Qed.

Lemma live_keep now tc st st' : live now tc st -> keep0 st st' -> live now tc st'.
Proof. intros [Hb Hv] K. by apply (base_keep now tc st). Qed.

Lemma live_backoff now tc st : live now tc st -> cinv now tc (cl_backoff st now).
Proof. intros [Hb _]. by apply cinv_backoff. Qed.

Lemma live_fail now tc st e : live now tc st -> cinv now tc (fail st e now).
Proof. intros [Hb _]. by apply fail_cinv. Qed.

Lemma sign_keep st : keep st (fst (cl_sign_nonce sign_ctx st)).
Proof.
  unfold cl_sign_nonce. destruct (b64url_decode _ _) as [nonce|]; [|kr]. destruct (s_auth_v1 st); destruct (sign_ctx _ _); cbn [fst]; auto with cloud.
Qed.

Lemma sign_session st : s_tunnels (fst (cl_sign_nonce sign_ctx st)) = s_tunnels st /\ lease (fst (cl_sign_nonce sign_ctx st)) = lease st.
Proof. unfold cl_sign_nonce. destruct (b64url_decode _ _) as [nonce|]; [|done]. by destruct (s_auth_v1 st), (sign_ctx _ _). Qed.

Lemma upgrade_keep st : keep st (fst (cl_send_ws_upgrade altcp_write_err get_rand st)).
Proof. unfold cl_send_ws_upgrade. destruct (_ <=? _)%nat; [kr|apply tcp_send_keep]. Qed.

Lemma upgrade_session st : s_tunnels (fst (cl_send_ws_upgrade altcp_write_err get_rand st)) = s_tunnels st /\
  lease (fst (cl_send_ws_upgrade altcp_write_err get_rand st)) = lease st.
Proof. unfold cl_send_ws_upgrade. destruct (_ <=? _)%nat; [done|apply tcp_send_session]. Qed.

Lemma chal_wait_cinv tc st i : c_state st = CL_CHAL_WAIT -> cinv (i_now i) tc st ->
  cinv (i_now i) tc (poll_chal_wait altcp_write_err get_rand sign_ctx st i).
Proof.
  intros Hs Hi. assert (Hl : live (i_now i) tc st) by (apply live_of; [done|by rewrite Hs]). assert (Hns : no_session st) by (apply Hi; by rewrite Hs).
  unfold poll_chal_wait. destruct (s_dropped st); [by apply live_fail|].
  assert (Hlate : cinv (i_now i) tc (if reached (i_now i) (s_deadline st) then fail st (str "no reply from server") (i_now i) else st))
    by (destruct (reached _ _); [by apply live_fail|done]).
  set (body := cl_http_headers_end _). destruct (body =? 0)%nat; [exact Hlate|]. destruct (_ || _); [by apply live_fail|].
  set (clen := cl_content_length _ _). destruct (clen <? 0); [by apply live_backoff|]. destruct (_ <? _)%nat; [exact Hlate|].
  set (g := cl_json_str _ _ _). clearbody g. destruct (negb (found g)); [by apply live_backoff|].
  set (st1 := cl_rx_consume _ _). assert (K1 : keep0 st st1) by (etrans; [|apply (rx_consume_keep0 (set_s_nonce (out g) st)); kr]; auto with cloud).
  assert (N1 : no_session st1) by done. clearbody st1.
  pose proof (sign_keep st1) as K2. pose proof (sign_session st1) as [T2 L2]. destruct (cl_sign_nonce sign_ctx st1) as [st2 ok]. cbn [fst] in *.
  assert (Hl2 : live (i_now i) tc st2) by (eapply live_keep; [exact Hl|]; etrans; [exact K1|auto with cloud]).
  destruct ok; cbn [negb]; [|destruct (is_empty _); apply live_backoff; [done|]; eapply live_keep; [exact Hl2|unfold set_error; auto with cloud]].
  pose proof (upgrade_keep st2) as K3. pose proof (upgrade_session st2) as [T3 L3]. destruct (cl_send_ws_upgrade _ _ st2) as [st3 ok]. cbn [fst] in *.
  assert (Hl3 : live (i_now i) tc st3) by (eapply live_keep; [exact Hl2|auto with cloud]).
  destruct ok; cbn [negb]; [|by apply live_backoff]. destruct Hl3 as [Hb3 Hv3].
  constructor; [by destruct Hb3; constructor|intros _; reflexivity|intros Hp _; exact (Hv3 Hp)| |intros t Et; exact I].
  intros _. destruct N1 as [N1 N2]. split; [exact (eq_trans (f_equal s_held (eq_trans L3 L2)) N1)|exact (eq_trans T3 (eq_trans T2 N2))].
Qed.

Lemma live_connected now tc st : live now tc st -> c_state st = CL_CONNECTED -> cinv now tc st.
Proof.
  intros [Hb Hv] Hs. constructor; [done|intros _; by rewrite Hs|intros Hp _; by apply Hv|congruence|]. intros t Et. by rewrite Hs.
Qed.

Lemma process_cinv now tc st tick : live now tc st -> c_state st = CL_CONNECTED ->
  cinv now tc (cl_process_ws_frames altcp_write_err get_rand st now tick).
Proof.
  intros Hl Hs. unfold cl_process_ws_frames. destruct (process_moves altcp_write_err get_rand (S (length (s_rx st))) st now tick Hs) as [K|B].
  - apply live_connected; [by eapply live_keep|]. rewrite <- Hs. apply (k_state _ _ K).
  - destruct Hl. by eapply cinv_backed.
Qed.

Lemma ws_wait_cinv tc st i : c_state st = CL_WS_WAIT -> cinv (i_now i) tc st ->
  cinv (i_now i) tc (poll_ws_wait altcp_write_err get_rand st i).
Proof.
  intros Hs Hi. assert (Hl : live (i_now i) tc st) by (apply live_of; [done|by rewrite Hs]).
  unfold poll_ws_wait. destruct (s_dropped st); [by apply live_fail|].
  set (e := cl_http_headers_end _). destruct (e =? 0)%nat; [destruct (reached _ _); [by apply live_fail|done]|].
  destruct (negb (cl_status_is_101 _ _)).
  { apply live_backoff. eapply live_keep; [exact Hl|]. unfold set_error. destruct (_ && _); [auto with cloud|]. destruct (_ || _); auto with cloud. }
  set (st1 := cl_rx_consume st e). assert (K1 : keep0 st st1) by (apply rx_consume_keep0; kr). assert (Hl1 : live (i_now i) tc st1) by (by eapply live_keep). clearbody st1.
  set (st2 := set_error _ []). assert (Hl2 : live (i_now i) tc st2) by (destruct Hl1 as [Hb Hv]; split; [by destruct Hb; constructor|exact Hv]).
  assert (Hs2 : c_state st2 = CL_CONNECTED) by done. clearbody st2. clear Hl1 K1 st1.
  pose proof (capabilities_keep altcp_write_err get_rand st2 (i_caps i)) as K3. destruct (cl_send_capabilities _ _ st2 _) as [st3 ok]. cbn [fst] in K3.
  assert (Hl3 : live (i_now i) tc st3) by (eapply live_keep; [exact Hl2|auto with cloud]).
  destruct ok; cbn [negb]; [|by apply live_backoff].
  pose proof (snapshot_keep altcp_write_err get_rand st3 (i_efuse i)) as K4. set (st4 := cl_send_efuse_snapshot _ _ st3 _) in *. clearbody st4.
  apply process_cinv; [eapply live_keep; [exact Hl3|auto with cloud]|].
  rewrite (k_state _ _ (keep_keep0 _ _ K4)), (k_state _ _ (keep_keep0 _ _ K3)). exact Hs2.
Qed.

Lemma connected_cinv tc st i : c_state st = CL_CONNECTED -> cinv (i_now i) tc st ->
  cinv (i_now i) tc (poll_connected altcp_write_err get_rand st i).
Proof.
  intros Hs Hi. assert (Hl : live (i_now i) tc st) by (apply live_of; [done|by rewrite Hs]).
  unfold poll_connected. destruct (s_dropped st); [by apply live_fail|]. destruct (s_rx_overflow st); [by apply live_fail|].
  set (st1 := if is_empty (s_rx st) then st else _). assert (H1 : cinv (i_now i) tc st1) by (unfold st1; destruct (is_empty _); [done|by apply process_cinv]). clearbody st1.
  destruct (decide (c_state st1 = CL_CONNECTED)) as [Hs1|Hs1]; [rewrite bool_decide_eq_true_2 by done|rewrite bool_decide_eq_false_2 by done]; cbn [negb]; [|done].
  assert (Hl1 : live (i_now i) tc st1) by (apply live_of; [done|by rewrite Hs1]).
  destruct (upkeep_moves altcp_write_err get_rand st1 i) as [[K _]|B].
  - apply live_connected; [by eapply live_keep|]. rewrite <- Hs1. apply (k_state _ _ K).
  - destruct Hl1. by eapply cinv_backed.
Qed.

(** One poll. *)
Lemma poll_cinv tc st i : cinv (i_now i) tc st -> cinv (i_now i) (if connects st i then Some (i_now i) else tc) (poll st i).
Proof.
  intros Hi. unfold cloud_client_poll. set (st1 := set_lease _ st).
  assert (H1 : cinv (i_now i) tc st1).
  { eapply cinv_calm; [exact Hi|]. split_and!; try done. unfold st1, set_lease, lease_gate_expire. cbn [lease]. by destruct (_ && _). }
  assert (Hc : connects st i = connects st1 i) by done. rewrite Hc. clearbody st1. clear Hi Hc st.
  assert (Hno : c_state st1 <> CL_CHAL_OPEN -> connects st1 i = false) by (intros; unfold connects; by rewrite bool_decide_eq_false_2).
  destruct (c_state st1) eqn:Hs; try rewrite Hno by done.
  - done.
  - by apply wait_wifi_cinv.
  - by apply resolve_cinv.
  - by apply resolve_wait_cinv.
  - by apply chal_open_cinv.
  - by apply chal_connect_cinv.
  - by apply chal_wait_cinv.
  - by apply ws_wait_cinv.
  - by apply connected_cinv.
  - destruct (reached (i_now i) (s_deadline st1)) eqn:Er; [|done]. apply (cinv_goto _ _ st1); [done|done|by rewrite Hs|].
    intros t Et. pose proof (i_waits _ _ _ H1 t Et) as Hw. rewrite Hs in Hw. unfold reached in Er. cbn. lia.
Qed.
End steps.

(** ** Every step *)

Section runs.
Variable altcp_write_err : nat -> Z.
Variable get_rand : nat -> list Z.
Variable sign_ctx : cstr -> list Z -> option (list Z).
Abbreviation cstep := (cstep altcp_write_err get_rand sign_ctx).
Abbreviation crun := (crun altcp_write_err get_rand sign_ctx).

(** A conjunction, part by part. *)
Ltac parts := split_and!; first [done | lia | tauto].

(** Switched off: nothing but a change of configuration leaves this state. *)
Definition off (st : cl_t) : Prop :=
  c_state st = CL_DISABLED /\ s_pcb st = false /\ no_session st /\ writes_verified (acts st) = true /\
  2000 <= s_backoff_ms st <= 30000 /\ length (s_tunnels st) = 3%nat.

Definition inv (now : Z) (tc : option Z) (st : cl_t) : Prop := off st \/ cinv now tc st.

(** The time an operation brings, if it does. *)
Definition op_time (o : cop) : option Z :=
  match o with OpPoll i => Some (i_now i) | OpConnected _ now | OpRecv _ _ now | OpReply _ _ now => Some now | _ => None end.
Definition after_op (now : Z) (o : cop) : Z := default now (op_time o).
Definition connect_after (tc : option Z) (st : cl_t) (o : cop) : option Z :=
  match o with OpPoll i => if connects st i then Some (i_now i) else tc | OpReload _ _ => None | _ => tc end.

(** Release firmware refuses a plain configuration. *)
Definition op_release (o : cop) : bool := match o with OpReload release _ => release | _ => true end.

Lemma cinv_forget now now' tc st : cinv now tc st -> cinv now' None st.
Proof. intros [[Hs Ht Hr Hl Htc] Hlk Hv Hi Hw]. constructor; done. Qed.

Lemma calm_refl st : calm st st.
Proof. by split_and!. Qed.

Lemma recv_calm st p err now : calm st (fst (cl_recv_cb st p err now)).
Proof.
  unfold cl_recv_cb. destruct p as [bufs|]; [|by split_and!]. destruct (negb _); [apply calm_refl|]. set (st1 := set_s_last_rx now st).
  assert (H1 : calm st st1) by (by split_and!). clearbody st1. destruct (cloud_rx_refuse _ _ _); [exact H1|].
  cbn [fst]. revert st1 H1. induction bufs as [|b bufs IH]; intros st1 H1; cbn [fold_left]; [done|].
  apply IH. unfold cl_rx_append. destruct (cloud_rx_append _ _ _); exact H1.
Qed.

Lemma efuse_calm st n en fl : calm st (cl_efuse_event_cb st n en fl).
Proof. unfold cl_efuse_event_cb. destruct (n =? 1); [by split_and!|]. destruct (n =? 2); by split_and!. Qed.

Lemma connected_calm st err now : calm st (cl_connected_cb st err now).
Proof. unfold cl_connected_cb. destruct (negb _); by split_and!. Qed.

(** An error of the stack takes the link away and nothing else. *)
Lemma err_same st err : same_but_state st (set_s_pcb (s_pcb st) (cl_err_cb st err)) /\ s_pcb (cl_err_cb st err) = false /\
  c_state (cl_err_cb st err) = c_state st /\ s_deadline (cl_err_cb st err) = s_deadline st.
Proof. unfold cl_err_cb. destruct (err =? ERR_CLSD), (bool_decide _); by split_and!. Qed.

Lemma err_cinv now tc st err : cinv now tc st -> cinv now tc (cl_err_cb st err).
Proof.
  intros [[Hs Ht Hr Hl Htc] Hlk Hv Hi Hw]. destruct (err_same st err) as ((C & B & _ & A & T & L) & P & S & D).
  revert C B A T L P S D. generalize (cl_err_cb st err). intros st'. cbn [set_s_pcb s_cfg s_backoff_ms acts s_tunnels lease]. intros C B A T L P S D.
  constructor; [constructor|..]; rewrite ?C, ?B, ?A, ?T, ?P, ?S; try done.
  - intros Hne. unfold no_session. rewrite T, L. by apply Hi.
  - unfold waits in *. by rewrite S, D.
Qed.

Lemma off_calm st st' : off st -> calm st st' -> off st'.
Proof.
  intros (S & P & N & W & B & T) Hc. pose proof (no_session_calm _ _ N Hc) as N'. destruct Hc as (_ & S' & _ & B' & P' & A' & T' & _).
  unfold off. rewrite S', P', A', B', T'. parts.
Qed.

Lemma off_err st err : off st -> off (cl_err_cb st err).
Proof.
  intros (S & P & N & W & B & T). destruct (err_same st err) as ((_ & B' & _ & A' & T' & L') & P' & S' & _).
  revert B' A' T' L' P' S'. generalize (cl_err_cb st err). intros st'. cbn [set_s_pcb s_backoff_ms acts s_tunnels lease]. intros B' A' T' L' P' S'.
  unfold off, no_session in *. rewrite S', P', A', B', T', L'. parts.
Qed.

(** No link and no session. *)
Definition quiet (st : cl_t) : Prop :=
  s_pcb st = false /\ no_session st /\ writes_verified (acts st) = true /\ 2000 <= s_backoff_ms st <= 30000 /\ length (s_tunnels st) = 3%nat.

Lemma quiet_off st b : quiet st -> off (set_state (set_s_have_cfg b st) CL_DISABLED).
Proof. intros Q. split; [reflexivity|exact Q]. Qed.

Lemma quiet_starts now st b : quiet st -> cf_tls (s_cfg st) = true -> cinv now None (set_state (set_s_have_cfg b st) CL_WAIT_WIFI).
Proof.
  intros (P & N & W & B & T) Ht. constructor; [by constructor|..].
  - intros E. change (s_pcb st = true) in E. congruence.
  - intros E. change (s_pcb st = true) in E. congruence.
  - intros _. exact N.
  - done.
Qed.

Lemma quiet_cfg st c : quiet st -> quiet (set_s_cfg c st).
Proof. intros Q. exact Q. Qed.

Lemma quiet_error st e : quiet st -> quiet (set_error st e).
Proof. intros Q. exact Q. Qed.

(** A configuration taken over, in release firmware. *)
Lemma quiet_init now st some (r : bool) e ok : quiet st -> (ok = true -> cf_tls (s_cfg st) = true) ->
  let st' := if r then set_error st e else st in
  inv now None (if ok then set_state (set_s_have_cfg true st') CL_WAIT_WIFI else set_state (set_s_have_cfg some st') CL_DISABLED).
Proof.
  intros Q Hok st'. assert (Q' : quiet st') by (unfold st'; destruct r; [by apply quiet_error|done]).
  assert (C : s_cfg st' = s_cfg st) by (unfold st'; by destruct r). clearbody st'.
  destruct ok; [right|left; by apply quiet_off]. apply quiet_starts; [done|]. rewrite C. by apply Hok.
Qed.

(** Loading a configuration where there is no link. *)
Lemma init_inv now st loaded : quiet st -> inv now None (cloud_client_init st true loaded).
Proof.
  intros Q. unfold cloud_client_init. set (st1 := match loaded with Some c => set_s_cfg c st | None => st end).
  assert (Q1 : quiet st1) by (unfold st1; destruct loaded; [by apply quiet_cfg|done]). clearbody st1. clear Q st.
  generalize (bool_decide (is_Some loaded)). intros some. apply (quiet_init now st1 false); [done|].
  clear. destruct (cf_tls (s_cfg st1)); [done|]. destruct some; [|done]. cbn. by destruct (cf_enabled (s_cfg st1)).
Qed.

Lemma drop_quiet st : writes_verified (acts st) = true -> length (s_tunnels st) = 3%nat ->
  quiet (set_error (set_s_backoff_ms BACKOFF_START_MS (set_s_dns DNS_NONE (set_s_tls_conf false (cl_drop_link st)))) []).
Proof.
  intros W T. pose proof (drop_link_spec st) as [C S B P A L T'].
  generalize dependent (cl_drop_link st). intros st1 C S B P A L T'. split; [|split; [|split; [|split]]].
  - exact P.
  - split; [exact L|by apply T'].
  - unfold writes_verified in *. change (snd (trace (acts st1)) = true). rewrite A, trace_app.
    destruct (s_pcb st); cbn [fold_left]; [|exact W]. by destruct (trace (acts st)).
  - change (2000 <= 2000 <= 30000). lia.
  - change (length (s_tunnels st1) = 3%nat). by rewrite T'.
Qed.

Lemma reload_inv now st loaded : writes_verified (acts st) = true -> length (s_tunnels st) = 3%nat -> inv now None (cloud_client_reload st true loaded).
Proof. intros W T. unfold cloud_client_reload. apply init_inv. by apply drop_quiet. Qed.

Lemma inv_facts now tc st : inv now tc st -> writes_verified (acts st) = true /\ length (s_tunnels st) = 3%nat.
Proof. intros [(_ & _ & _ & W & _ & T)|[[W _ _ T _] _ _ _ _]]; done. Qed.

Lemma reply_cinv now tc st id reply : cinv now tc st -> cinv now tc (cloud_client_send_command_response altcp_write_err get_rand st id reply now).
Proof.
  intros Hi. destruct (decide (c_state st = CL_CONNECTED)) as [Hs|Hs].
  - eapply cinv_outcome; [exact Hi|exact Hs|apply response_outcome].
  - unfold cloud_client_send_command_response. by rewrite bool_decide_eq_false_2.
Qed.

Lemma off_reply now st id reply : off st -> cloud_client_send_command_response altcp_write_err get_rand st id reply now = st.
Proof. intros [S _]. unfold cloud_client_send_command_response. by rewrite S, bool_decide_eq_false_2. Qed.

Lemma off_poll st i : off st -> off (cloud_client_poll altcp_write_err get_rand sign_ctx st i).
Proof.
  intros Ho. unfold cloud_client_poll. set (st1 := set_lease _ st).
  assert (H1 : off st1).
  { eapply off_calm; [exact Ho|]. split_and!; try done. unfold st1, set_lease, lease_gate_expire. cbn [lease]. by destruct (_ && _). }
  clearbody st1. pose proof H1 as [S _]. by rewrite S.
Qed.

Definition timely (now : Z) (o : cop) : Prop := forall t, op_time o = Some t -> now <= t.

Lemma step_inv now tc st o : inv now tc st -> timely now o -> op_release o = true -> inv (after_op now o) (connect_after tc st o) (cstep st o).
Proof.
  intros Hi Ht Hr. unfold timely, after_op in *. destruct (inv_facts _ _ _ Hi) as [W T].
  destruct o as [i|err t|p err t|err|ok|n en fl| |id reply t|release loaded|w|rs]; cbn [op_time default connect_after CloudClient.cstep] in *;
    try (specialize (Ht _ eq_refl)).
  - destruct Hi as [Ho|Hi]; [left; by apply off_poll|right]. apply poll_cinv. by eapply cinv_later.
  - destruct Hi as [Ho|Hi]; [left|right; eapply cinv_later; [|exact Ht]]; [eapply off_calm|eapply cinv_calm]; eauto using connected_calm.
  - destruct Hi as [Ho|Hi]; [left|right; eapply cinv_later; [|exact Ht]]; [eapply off_calm|eapply cinv_calm]; eauto using recv_calm.
  - destruct Hi as [Ho|Hi]; [left; by apply off_err|right; by apply err_cinv].
  - destruct Hi as [Ho|Hi]; [left; eapply off_calm|right; eapply cinv_calm]; eauto; by split_and!.
  - destruct Hi as [Ho|Hi]; [left|right]; [eapply off_calm|eapply cinv_calm]; eauto using efuse_calm.
  - destruct Hi as [Ho|Hi]; [left; eapply off_calm|right; eapply cinv_calm]; eauto; by split_and!.
  - destruct Hi as [Ho|Hi]; [left; by rewrite off_reply|right; apply reply_cinv; by eapply cinv_later].
  - cbn in Hr. subst. by apply reload_inv.
  - destruct Hi as [Ho|Hi]; [left; eapply off_calm|right; eapply cinv_calm]; eauto; by split_and!.
  - destruct Hi as [Ho|Hi]; [left; eapply off_calm|right; eapply cinv_calm]; eauto; by split_and!.
Qed.
(** *** Runs *)

Lemma run_inv ops : forall now st, inv now None st -> forallb op_release ops = true -> exists now', inv now' None (crun st ops).
Proof.
  induction ops as [|o ops IH]; intros now st Hi Hr; [by exists now|]. cbn in Hr. apply andb_true_iff in Hr as [Hr Hr'].
  set (now1 := default now (op_time o)). assert (Hi1 : inv now1 None st) by (destruct Hi as [Ho|Hi]; [by left|right; by eapply cinv_forget]).
  destruct (step_inv now1 None st o Hi1) as [Ho|Hi2]; [unfold timely, now1; intros t ->; done|done|..].
  - apply (IH now1); [by left|done].
  - apply (IH now1); [right; by eapply cinv_forget|done].
Qed.

(** The client as it starts, in release firmware. *)
Definition started (loaded : option cloud_config_t) : cl_t := cloud_client_init cl_zero true loaded.

Lemma started_inv now loaded : inv now None (started loaded).
Proof. apply init_inv. split_and!; by vm_compute. Qed.

(** C8: Release firmware, whatever configurations it is given (one that asks for
    plain ws included), whatever the network, the worker and the server do and
    however the tasks interleave: every byte the client writes, the pod's proof of
    identity first of all, is written to a connection whose certificate check
    came back clean after that connection was opened. *)
Theorem release_writes_verified (loaded : option cloud_config_t) (ops : list cop) :
  forallb op_release ops = true -> writes_verified (acts (crun (started loaded) ops)) = true.
Proof. intros Hr. destruct (run_inv ops 0 _ (started_inv 0 loaded) Hr) as [now Hi]. exact (proj1 (inv_facts _ _ _ Hi)). Qed.

(** While the client is not connected no lease restricts the pod and no tunnel
    is open: nothing of a session with the server outlives the session. *)
Theorem session_needs_link (loaded : option cloud_config_t) (ops : list cop) :
  forallb op_release ops = true ->
  let st := crun (started loaded) ops in
  c_state st <> CL_CONNECTED -> (forall tick, lease_gate_active (lease st) tick = (false, 0)) /\ s_tunnels st = [[]; []; []].
Proof.
  intros Hr st Hs. destruct (run_inv ops 0 _ (started_inv 0 loaded) Hr) as [now Hi].
  assert (N : no_session st) by (destruct Hi as [(_ & _ & N & _)|Hi]; [exact N|exact (i_idle _ _ _ Hi Hs)]). clearbody st.
  destruct N as [Nl Nt]. split; [|done]. intros tick. unfold lease_gate_active. by rewrite Nl.
Qed.

(** The times at which a run opens a connection. *)
Fixpoint connect_times (st : cl_t) (ops : list cop) : list Z :=
  match ops with
  | [] => []
  | o :: ops' => (match o with OpPoll i => if connects st i then [i_now i] else [] | _ => [] end) ++ connect_times (cstep st o) ops'
  end.

Fixpoint clock_forward (now : Z) (ops : list cop) : bool :=
  match ops with [] => true | o :: ops' => (now <=? after_op now o) && clock_forward (after_op now o) ops' end.
Definition no_reload (o : cop) : bool := match o with OpReload _ _ => false | _ => true end.

Fixpoint spaced (gap : Z) (last : option Z) (ts : list Z) : bool :=
  match ts with [] => true | t :: ts' => match last with Some t0 => t0 + gap <=? t | None => true end && spaced gap (Some t) ts' end.

Lemma connect_gap now tc st i : inv now tc st -> now <= i_now i -> connects st i = true -> forall t, tc = Some t -> t + GAP <= i_now i.
Proof.
  intros Hi Hle Hc t Et. unfold connects in Hc. apply andb_true_iff in Hc as [Hc _]. apply bool_decide_eq_true in Hc.
  destruct Hi as [[Ho _]|Hi]; [congruence|]. pose proof (i_waits _ _ _ Hi t Et) as H. rewrite Hc in H. lia.
Qed.

Lemma no_reload_release o : no_reload o = true -> op_release o = true.
Proof. by destruct o. Qed.

Lemma clock_timely now o : now <= after_op now o -> timely now o.
Proof. unfold after_op. intros H t Et. by rewrite Et in H. Qed.

Lemma run_spaced ops : forall now tc st, inv now tc st -> forallb no_reload ops = true -> clock_forward now ops = true ->
  spaced GAP tc (connect_times st ops) = true.
Proof.
  induction ops as [|o ops IH]; intros now tc st Hi Hr Hc; cbn [connect_times spaced]; [done|].
  cbn [forallb] in Hr. apply andb_true_iff in Hr as [Hr Hr']. cbn [clock_forward] in Hc. apply andb_true_iff in Hc as [Hle Hc]. apply Z.leb_le in Hle.
  pose proof (step_inv now tc st o Hi (clock_timely _ _ Hle) (no_reload_release _ Hr)) as Hi'.
  specialize (IH _ _ _ Hi' Hr' Hc). destruct o as [i| | | | | | | | | |]; cbn [connect_after app] in *; try done.
  destruct (connects st i) eqn:Ec; cbn [app spaced]; [|done]. rewrite IH, andb_true_r.
  destruct tc as [t|]; [|done]. apply Z.leb_le. eapply connect_gap; [exact Hi|exact Hle|exact Ec|done].
Qed.

(** With a configuration in place and a clock that does not go back, whatever
    goes wrong (lookups, connects, handshakes, refusals, lost links) two
    connections are never opened less than two seconds apart: the pod cannot
    storm the server. *)
Theorem reconnects_spaced (loaded : option cloud_config_t) (ops : list cop) :
  forallb no_reload ops = true -> clock_forward 0 ops = true -> spaced 2000000 None (connect_times (started loaded) ops) = true.
Proof. intros Hr Hc. eapply run_spaced; [apply (started_inv 0)|done|done]. Qed.

(** ** The frames of a connection *)

(** The bytes the client took from the stack, and the frames its polls handled. *)
Definition op_received (st : cl_t) (o : cop) : list Z :=
  match o with
  | OpRecv (Some bufs) err now => if (err =? ERR_OK) && snd (cl_recv_cb st (Some bufs) err now) then concat bufs else []
  | _ => []
  end.
Definition op_handled (st : cl_t) (o : cop) : list ws_frame_t :=
  match o with
  | OpPoll i =>
      if s_dropped st || s_rx_overflow st then []
      else frames_done altcp_write_err get_rand (S (length (s_rx st))) (set_lease (lease_gate_expire (lease st) (i_tick i)) st) (i_now i) (i_tick i)
  | _ => []
  end.
Fixpoint received (st : cl_t) (ops : list cop) : list Z :=
  match ops with [] => [] | o :: ops' => op_received st o ++ received (cstep st o) ops' end.
Fixpoint handled (st : cl_t) (ops : list cop) : list ws_frame_t :=
  match ops with [] => [] | o :: ops' => op_handled st o ++ handled (cstep st o) ops' end.

(** Connected before and after every step. *)
Fixpoint stays (st : cl_t) (ops : list cop) : bool :=
  bool_decide (c_state st = CL_CONNECTED) && match ops with [] => true | o :: ops' => stays (cstep st o) ops' end.

(** What a step does to the buffer while the link stays. *)
Definition rx_step (st st' : cl_t) (got : list Z) (fs : list ws_frame_t) : Prop :=
  (s_rx_overflow st = true -> s_rx_overflow st' = true /\ fs = []) /\
  (s_rx_overflow st = false -> exists rest, consumes (s_rx st ++ got) fs rest /\ (s_rx_overflow st' = false -> s_rx st' = rest)).

Lemma rx_step_same st st' : s_rx st' = s_rx st -> s_rx_overflow st' = s_rx_overflow st -> rx_step st st' [] [].
Proof. intros Er Eo. split; [by rewrite Eo|]. intros _. exists (s_rx st). rewrite app_nil_r. split; [constructor|done]. Qed.

(** Appending until a buffer does not fit. *)
Lemma append_fold bufs : forall st, let st' := fold_left cl_rx_append bufs st in
  (s_rx_overflow st = true -> s_rx_overflow st' = true) /\ (s_rx_overflow st' = false -> s_rx st' = s_rx st ++ concat bufs).
Proof.
  induction bufs as [|b bufs IH]; intros st st'; cbn [fold_left concat] in *; [split; [done|by rewrite app_nil_r]|].
  destruct (IH (cl_rx_append st b)) as [I1 I2]. fold st' in I1, I2. clearbody st'. unfold cl_rx_append, cloud_rx_append in *.
  destruct (_ <? _); cbn [set_s_rx_overflow set_s_rx s_rx s_rx_overflow] in *; split; try done.
  - intros _. by apply I1.
  - intros E. rewrite I1 in E; done.
  - intros E. by rewrite I2, app_assoc.
Qed.

Lemma recv_rx st p err now : rx_step st (fst (cl_recv_cb st p err now)) (op_received st (OpRecv p err now)) [].
Proof.
  unfold op_received, cl_recv_cb. destruct p as [bufs|]; [|by apply rx_step_same]. destruct (err =? ERR_OK); [|by apply rx_step_same].
  cbn [negb andb]. set (st1 := set_s_last_rx now st). assert (E1 : s_rx st1 = s_rx st /\ s_rx_overflow st1 = s_rx_overflow st) by done. clearbody st1.
  destruct E1 as [Er Eo]. destruct (cloud_rx_refuse _ _ _); cbn [fst snd]; [by apply rx_step_same|].
  destruct (append_fold bufs st1) as [A1 A2]. rewrite Er, Eo in *. split; [auto|]. intros _. exists (s_rx st ++ concat bufs).
  split; [constructor|done].
Qed.

Lemma frames_done_empty n st now tick : s_rx st = [] -> frames_done altcp_write_err get_rand n st now tick = [].
Proof. intros E. destruct n; cbn [frames_done]; [done|]. by rewrite E. Qed.

Lemma connected_not_backed now st st' : c_state st' = CL_CONNECTED -> backed now st st' -> False.
Proof. intros Hs B. rewrite (backed_state _ _ _ B) in Hs. done. Qed.

Lemma fail_not_connected st e now : c_state (fail st e now) <> CL_CONNECTED.
Proof. by rewrite (backed_state _ _ _ (fail_backed now st e)). Qed.

Lemma poll_rx st i : c_state st = CL_CONNECTED -> (s_rx_overflow st = false -> bytes_ok (s_rx st)) ->
  c_state (cloud_client_poll altcp_write_err get_rand sign_ctx st i) = CL_CONNECTED ->
  rx_step st (cloud_client_poll altcp_write_err get_rand sign_ctx st i) [] (op_handled st (OpPoll i)).
Proof.
  intros Hs Hb. unfold cloud_client_poll, op_handled. set (st1 := set_lease _ st).
  assert (H1 : c_state st1 = CL_CONNECTED /\ s_rx st1 = s_rx st /\ s_rx_overflow st1 = s_rx_overflow st /\ s_dropped st1 = s_dropped st) by done.
  clearbody st1. destruct H1 as (Hs1 & Er & Eo & Ed). rewrite Hs1. cbn match. unfold poll_connected. rewrite Ed.
  destruct (s_dropped st); [intros Hf; by destruct (fail_not_connected _ _ _ Hf)|].
  rewrite Eo. cbn [orb]. destruct (s_rx_overflow st) eqn:Eov; [intros Hf; by destruct (fail_not_connected _ _ _ Hf)|].
  rewrite <- Er. set (st2 := if is_empty (s_rx st1) then st1 else _).
  assert (H2 : c_state st2 = CL_CONNECTED -> s_rx_overflow st2 = false /\
    consumes (s_rx st1) (frames_done altcp_write_err get_rand (S (length (s_rx st1))) st1 (i_now i) (i_tick i)) (s_rx st2)).
  { unfold st2. destruct (s_rx st1) as [|b rx] eqn:E1; cbn [is_empty].
    - intros _. split; [done|]. rewrite frames_done_empty by done. rewrite E1. constructor.
    - unfold cl_process_ws_frames. intros Hc.
      destruct (process_spec altcp_write_err get_rand (S (length (s_rx st1))) st1 (i_now i) (i_tick i)) as [(_ & O & C)|B]; [done|rewrite E1, Er; by apply Hb| |].
      + split; [congruence|]. rewrite <- E1. exact C.
      + by destruct (connected_not_backed _ _ _ Hc B). }
  clearbody st2. destruct (decide (c_state st2 = CL_CONNECTED)) as [Hs2|Hs2].
  - rewrite bool_decide_eq_true_2 by done. cbn [negb]. intros Hc. destruct (H2 Hs2) as [O2 C2].
    destruct (upkeep_moves altcp_write_err get_rand st2 i) as [(_ & R & O)|B]; [|by destruct (connected_not_backed _ _ _ Hc B)].
    split; [congruence|]. intros _. exists (s_rx st2). rewrite app_nil_r, <- Er. split; [exact C2|]. intros _. exact R.
  - rewrite bool_decide_eq_false_2 by done. done.
Qed.

Lemma step_rx st o : c_state st = CL_CONNECTED -> (s_rx_overflow st = false -> bytes_ok (s_rx st)) -> c_state (cstep st o) = CL_CONNECTED ->
  rx_step st (cstep st o) (op_received st o) (op_handled st o).
Proof.
  intros Hs Hb. destruct o as [i|err t|p err t|err|ok|n en fl| |id reply t|release loaded|w|rs]; cbn [CloudClient.cstep]; intros Hc.
  - by apply poll_rx.
  - apply rx_step_same; unfold cl_connected_cb; by destruct (negb _).
  - apply recv_rx.
  - apply rx_step_same; unfold cl_err_cb; by destruct (err =? ERR_CLSD), (bool_decide _).
  - by apply rx_step_same.
  - apply rx_step_same; unfold cl_efuse_event_cb; destruct (n =? 1); [done| |done|]; by destruct (n =? 2).
  - by apply rx_step_same.
  - destruct (response_outcome altcp_write_err get_rand st id reply t) as [(_ & R & O)|B]; [by apply rx_step_same|].
    by destruct (connected_not_backed _ _ _ Hc B).
  - exfalso. revert Hc. unfold cloud_client_reload, cloud_client_init. match goal with |- c_state (if ?x then _ else _) = _ -> _ => by destruct x end.
  - by apply rx_step_same.
  - by apply rx_step_same.
Qed.

Lemma stays_next st o ops : stays st (o :: ops) = true -> c_state st = CL_CONNECTED /\ c_state (cstep st o) = CL_CONNECTED /\ stays (cstep st o) ops = true.
Proof.
  cbn [stays]. intros H. apply andb_true_iff in H as [Hs H]. apply bool_decide_eq_true in Hs. split; [done|]. split; [|done].
  destruct ops; cbn [stays] in H; apply andb_true_iff in H as [H _]; by apply bool_decide_eq_true in H.
Qed.

Lemma run_overflow ops : forall st, s_rx_overflow st = true -> stays st ops = true ->
  handled st ops = [] /\ s_rx_overflow (crun st ops) = true.
Proof.
  induction ops as [|o ops IH]; intros st Ho Hst; [done|]. destruct (stays_next _ _ _ Hst) as (Hs & Hs' & Hst').
  destruct (step_rx st o Hs) as [H1 _]; [congruence|done|]. destruct (H1 Ho) as [Ho' Hf]. cbn [handled]. rewrite Hf.
  exact (IH _ Ho' Hst').
Qed.

Lemma run_consumes ops : forall st, stays st ops = true -> s_rx_overflow st = false -> bytes_ok (s_rx st ++ received st ops) ->
  exists rest, consumes (s_rx st ++ received st ops) (handled st ops) rest /\ (s_rx_overflow (crun st ops) = false -> s_rx (crun st ops) = rest).
Proof.
  induction ops as [|o ops IH]; intros st Hst Ho Hb.
  { exists (s_rx st). cbn [received handled]. rewrite app_nil_r. split; [constructor|done]. }
  destruct (stays_next _ _ _ Hst) as (Hs & Hs' & Hst'). cbn [received handled] in *. set (st1 := cstep st o) in *. change (crun st (o :: ops)) with (crun st1 ops).
  rewrite app_assoc in *. pose proof (proj1 (proj1 (Forall_app _ _ _) Hb)) as Hb1.
  destruct (step_rx st o Hs) as [_ H1]; [intros _; by apply Forall_app in Hb1 as [? _]|done|]. fold st1 in H1.
  destruct (H1 Ho) as (rest1 & C1 & E1). pose proof (consumes_more _ _ _ (received st1 ops) Hb1 C1) as C1'.
  destruct (s_rx_overflow st1) eqn:Ho1.
  - destruct (run_overflow ops st1 Ho1 Hst') as [Eh Eo]. exists (rest1 ++ received st1 ops). rewrite Eh, app_nil_r. split; [done|congruence].
  - specialize (E1 eq_refl). destruct (IH st1) as (rest & C2 & E2); [done|done|rewrite E1; by apply (consumes_bytes _ _ _ Hb C1')|].
    exists rest. split; [|done]. eapply consumes_app; [exact C1'|]. by rewrite E1 in C2.
Qed.

(** More fuel than bytes changes nothing. *)
Lemma process_enough n : forall m st now tick, c_state st = CL_CONNECTED -> bytes_ok (s_rx st) ->
  (length (s_rx st) < n)%nat -> (length (s_rx st) < m)%nat ->
  process_loop altcp_write_err get_rand n st now tick = process_loop altcp_write_err get_rand m st now tick.
Proof.
  induction n as [|n IH]; intros [|m] st now tick Hs Hb Hn Hm; [lia..|]. cbn [process_loop].
  destruct (ws_parse_frame (s_rx st)) as [r [fr|]] eqn:Ep; [|done].
  pose proof (handle_frame_spec altcp_write_err get_rand st (Z.to_nat r) fr now tick Hs) as H. destruct (handle_frame _ _ _ _ _ _ _) as [st1 more].
  destruct more; [|done]. destruct H as (st0 & K & ->). destruct (parse_range _ _ _ Hb Ep) as (Hr & _).
  assert (Erx : s_rx (cl_rx_consume st0 (Z.to_nat r)) = drop (Z.to_nat r) (s_rx st)).
  { unfold cl_rx_consume, cloud_rx_consume. cbn [set_s_rx s_rx]. destruct K as (_ & -> & _).
    destruct (Nat.leb_spec (length (s_rx st)) (Z.to_nat r)); [by rewrite drop_ge by lia|done]. }
  apply IH; rewrite ?Erx, ?length_drop; [|by apply Forall_drop|lia|lia].
  rewrite <- Hs. apply (k_state _ _ (rx_consume_keep0 st st0 (Z.to_nat r) K)).
Qed.

(** Processing the buffered frames terminates: one turn per buffered byte is
    enough, and any larger bound gives the same final state. *)
Theorem frame_loop_terminates (st : cl_t) (n : nat) (now tick : Z) :
  c_state st = CL_CONNECTED -> bytes_ok (s_rx st) -> (length (s_rx st) < n)%nat ->
  process_loop altcp_write_err get_rand n st now tick = cl_process_ws_frames altcp_write_err get_rand st now tick.
Proof. intros Hs Hb Hn. unfold cl_process_ws_frames. apply process_enough; auto. Qed.

(** *** Of a server that follows the RFC *)

Definition rfc_stream (fs : list (Z * list Z)) : list Z := concat (map (fun f => rfc_server_frame f.1 f.2) fs).
Definition frame_of (f : Z * list Z) : ws_frame_t := WsFrame f.1 true f.2.
(** Text, binary and control frames, with a payload the client can take. *)
Definition rfc_ok (f : Z * list Z) : Prop := 0 < f.1 < 16 /\ bytes_ok f.2 /\ Z.of_nat (length f.2) <= 65535.

Lemma rfc_frame_bytes f : rfc_ok f -> bytes_ok (rfc_server_frame f.1 f.2).
Proof.
  intros (Ho & Hb & Hl). unfold rfc_server_frame, rfc_length. constructor; [unfold byte_ok; lia|]. apply Forall_app. split; [|done].
  destruct (Z.ltb_spec (Z.of_nat (length f.2)) 126); [|destruct (Z.ltb_spec (Z.of_nat (length f.2)) 65536); [|lia]];
    repeat (constructor; [unfold byte_ok; Z.div_mod_to_equations; lia|]); constructor.
Qed.

Lemma rfc_stream_bytes fs : Forall rfc_ok fs -> bytes_ok (rfc_stream fs).
Proof. induction 1 as [|f fs Hf _ IH]; [constructor|]. apply Forall_app. split; [by apply rfc_frame_bytes|exact IH]. Qed.

(** What parses from a prefix of the stream is a prefix of its frames. *)
Lemma consumes_rfc rx hs rest : consumes rx hs rest -> forall fs, Forall rfc_ok fs -> rx `prefix_of` rfc_stream fs ->
  exists fs1 fs2, fs = fs1 ++ fs2 /\ hs = map frame_of fs1 /\ rx = rfc_stream fs1 ++ rest.
Proof.
  induction 1 as [rx|rx r fr hs rest Hp _ IH]; intros fs Hok Hpre; [by exists [], fs|].
  assert (Hb : bytes_ok rx).
  { pose proof (rfc_stream_bytes fs Hok) as Hb. destruct Hpre as [k Ek]. rewrite Ek in Hb. by apply Forall_app in Hb as [? _]. }
  destruct (parse_range rx r fr Hb Hp) as (Hr & _). destruct fs as [|f fs].
  { apply prefix_nil_inv in Hpre. subst. cbn in Hr. lia. }
  inversion Hok as [|? ? Hf Hok']; subst. destruct Hpre as [k Ek]. pose proof (parse_more rx k r (Some fr) Hb ltac:(lia) Hp) as Hm.
  rewrite <- Ek in Hm. change (rfc_stream (f :: fs)) with (rfc_server_frame f.1 f.2 ++ rfc_stream fs) in *.
  destruct Hf as (Ho & _ & Hl). rewrite parse_rfc in Hm by (lia || done). simplify_eq.
  set (n := length (rfc_server_frame f.1 f.2)) in *. rewrite Nat2Z.id in *.
  assert (Et : take n rx = rfc_server_frame f.1 f.2).
  { rewrite <- (take_app_le rx k) by lia. rewrite <- Ek. by apply take_app_length'. }
  destruct (IH fs Hok') as (fs1 & fs2 & -> & -> & E).
  { exists k. rewrite <- drop_app_le, <- Ek by lia. symmetry. by apply drop_app_length'. }
  exists (f :: fs1), fs2. split; [done|]. split; [done|]. rewrite <- (take_drop n rx), Et, E. cbn. by rewrite app_assoc.
Qed.

(** C10: While a connection lasts, whatever the segments the server's frames arrive
    in, the back-pressure of the worker's queue and the steps of the other tasks
    between, the client handles a prefix of exactly the frames the server sent,
    each once and in order; and unless the buffer overflowed (which ends the
    connection) every byte taken is either one of those frames or still in the
    buffer. *)
Theorem frames_in_order (st : cl_t) (ops : list cop) (fs : list (Z * list Z)) :
  s_rx st = [] -> s_rx_overflow st = false -> stays st ops = true ->
  Forall rfc_ok fs -> received st ops `prefix_of` rfc_stream fs ->
  exists fs1 fs2, fs = fs1 ++ fs2 /\ handled st ops = map frame_of fs1 /\
    (s_rx_overflow (crun st ops) = false -> received st ops = rfc_stream fs1 ++ s_rx (crun st ops)).
Proof.
  intros Er Ho Hst Hok Hpre. assert (Hb : bytes_ok (received st ops)).
  { pose proof (rfc_stream_bytes fs Hok) as Hb. destruct Hpre as [k Ek]. rewrite Ek in Hb. by apply Forall_app in Hb as [? _]. }
  destruct (run_consumes ops st Hst Ho) as (rest & C & E); rewrite Er in *; [done|]. cbn [app] in C.
  destruct (consumes_rfc _ _ _ C fs Hok Hpre) as (fs1 & fs2 & E1 & E2 & E3). exists fs1, fs2. split; [done|]. split; [done|].
  intros Ho'. by rewrite E.
Qed.
End runs.

(** ** A concrete login *)

Definition login_cfg : cloud_config_t := CloudConfig (str "cloud.example") (str "pod-1") 443 true true.
Definition login_poll (now : Z) : poll_in :=
  PollIn now (now / 1000) true false (CloudProxy [] 0 [] []) true ERR_OK OpenOk true (Some 0) 0 false [] [] [None; None]
    (OtaView OTA_IDLE 0 0 [] 0) OTA_IDLE [] [].
Definition login_reply : list Z :=
  str "HTTP/1.1 200 OK" ++ CRLF ++ str "Content-Length: 20" ++ CRLF ++ CRLF ++ jq "{'nonce':'AAAAAAAA'}".
Definition login_switch : list Z := str "HTTP/1.1 101 Switching Protocols" ++ CRLF ++ CRLF.
Definition login_ops : list cop :=
  [OpPoll (login_poll 0); OpPoll (login_poll 1); OpPoll (login_poll 2); OpPoll (login_poll 3); OpConnected ERR_OK 4; OpPoll (login_poll 5);
   OpRecv (Some [login_reply]) ERR_OK 6; OpPoll (login_poll 7); OpRecv (Some [login_switch]) ERR_OK 8; OpPoll (login_poll 9)].
(** The network takes everything; the random words and the signature are fixed. *)
Definition net_ok (n : nat) : Z := ERR_OK.
Definition rand_7 (n : nat) : list Z := replicate 8 7.
Definition sig_1 (ctx : cstr) (msg : list Z) : option (list Z) := Some (replicate 64 1).
Definition logged_in : cl_t := crun net_ok rand_7 sig_1 (started (Some login_cfg)) login_ops.

Lemma release_writes_verified_witness :
  forallb op_release login_ops = true /\ length (acts logged_in) = 4%nat /\ c_state logged_in = CL_CONNECTED /\ writes_verified (acts logged_in) = true.
Proof.
  split; [by vm_compute|]. split; [by vm_compute|]. split; [by vm_compute|].
  exact (release_writes_verified net_ok rand_7 sig_1 (Some login_cfg) login_ops eq_refl).
Defined.

(** The server closes a connection on which a lease was held and a tunnel open. *)
Definition session_ops : list cop :=
  login_ops ++ [OpRecv (Some [rfc_server_frame WS_OP_TEXT (jq "{'type':'tunnel.open','tunnel_id':'t1'}") ++
                              rfc_server_frame WS_OP_TEXT (jq "{'type':'lease.state','held':'true','holder':'ann','expires_in_s':'60'}")]) ERR_OK 10; OpPoll (login_poll 11)].

Lemma session_needs_link_witness :
  let st := crun net_ok rand_7 sig_1 (started (Some login_cfg)) session_ops in
  s_tunnels st = [str "t1"; []; []] /\ s_held (lease st) = true /\
  let st' := crun net_ok rand_7 sig_1 (started (Some login_cfg)) (session_ops ++ [OpErr ERR_RST; OpPoll (login_poll 12)]) in
  (forall tick, lease_gate_active (lease st') tick = (false, 0)) /\ s_tunnels st' = [[]; []; []].
Proof.
  cbv zeta. split; [by vm_compute|]. split; [by vm_compute|].
  apply (session_needs_link net_ok rand_7 sig_1 (Some login_cfg) (session_ops ++ [OpErr ERR_RST; OpPoll (login_poll 12)])); by vm_compute.
Defined.

(** Refused twice in a row. *)
Definition refused_poll (now : Z) : list cop := [OpPoll (login_poll now); OpPoll (login_poll now); OpPoll (login_poll now); OpPoll (login_poll now); OpErr ERR_RST].
Definition refused_ops : list cop := OpPoll (login_poll 0) :: concat (map refused_poll [0; 1; 2000000; 2000001; 6000000; 12000000]).

Lemma reconnects_spaced_witness :
  forallb no_reload refused_ops = true /\ clock_forward 0 refused_ops = true /\
  connect_times net_ok rand_7 sig_1 (started (Some login_cfg)) refused_ops = [0; 2000001; 12000000] /\
  spaced 2000000 None (connect_times net_ok rand_7 sig_1 (started (Some login_cfg)) refused_ops) = true.
Proof.
  split; [by vm_compute|]. split; [by vm_compute|]. split; [by vm_compute|].
  apply (reconnects_spaced net_ok rand_7 sig_1 (Some login_cfg) refused_ops); by vm_compute.
Defined.

(** Three frames in two segments, the cut in the middle of the second. *)
Definition three_frames : list (Z * list Z) := [(WS_OP_TEXT, jq "{'type':'ping'}"); (WS_OP_PING, [1; 2]); (WS_OP_TEXT, jq "{'type':'ping'}")].
Definition cut_ops : list cop :=
  [OpRecv (Some [take 19 (rfc_stream three_frames)]) ERR_OK 10; OpPoll (login_poll 11);
   OpRecv (Some [take 4 (drop 19 (rfc_stream three_frames)); drop 23 (rfc_stream three_frames)]) ERR_OK 12; OpCaps; OpPoll (login_poll 13)].

Lemma frames_in_order_witness :
  handled net_ok rand_7 sig_1 logged_in cut_ops = map frame_of three_frames /\
  exists fs1 fs2, three_frames = fs1 ++ fs2 /\ handled net_ok rand_7 sig_1 logged_in cut_ops = map frame_of fs1 /\
    (s_rx_overflow (crun net_ok rand_7 sig_1 logged_in cut_ops) = false ->
     received net_ok rand_7 sig_1 logged_in cut_ops = rfc_stream fs1 ++ s_rx (crun net_ok rand_7 sig_1 logged_in cut_ops)).
Proof.
  split; [by vm_compute|]. apply frames_in_order; [by vm_compute..| |].
  - repeat (constructor; [split; [by vm_compute|]; split; [|by vm_compute]; repeat (constructor; [by vm_compute|]); constructor|]). constructor.
  - exists []. by vm_compute.
Defined.

Lemma frame_loop_terminates_witness :
  let st := set_s_rx (rfc_stream three_frames) logged_in in
  process_loop net_ok rand_7 100 st 20 0 = cl_process_ws_frames net_ok rand_7 st 20 0 /\ s_rx (process_loop net_ok rand_7 100 st 20 0) = [].
Proof.
  intros st. split; [|by vm_compute]. apply (frame_loop_terminates net_ok rand_7 st 100 20 0); [by vm_compute| |].
  - apply rfc_stream_bytes. repeat (constructor; [split; [by vm_compute|]; split; [|by vm_compute]; repeat (constructor; [by vm_compute|]); constructor|]). constructor.
  - apply Nat.ltb_lt. by vm_compute.
Defined.

(** A change of configuration forgets everything of the old link but the reply that
    was waiting for room: the new server gets it. *)
Example reload_keeps_reply :
  let st := set_s_pend (str "reply") logged_in in
  let st' := cloud_client_reload st true (Some (CloudConfig (str "other.example") (str "pod-1") 443 true true)) in
  s_pend st' = str "reply" /\
  last (acts (crun net_ok rand_7 sig_1 st' (login_ops ++ [OpPoll (login_poll 10)]))) =
    Some (ActWrite (ws_build_frame WS_OP_TEXT (str "reply") (take 4 (rand_7 0)) BP_WS_FRAME_MAX) ERR_OK).
Proof. by vm_compute. Qed.
