(* ===== verification/LanTls.v ===== *)
(** * The pod's own TLS certificate ([lan_tls.c], [lan_tls_pem.c])

    An uploaded PEM bundle is split into key and certificates, checked, stored as
    one record and served; the configurations it replaced live on until nothing
    refers to them. mbedTLS (the pair check, generation, creating and freeing a
    configuration) is an argument. A configuration is the address of its object
    with what it was created from. *)

From S2P Require Import Prelude Flash ConfigStore Json CmdTable CmdGate CloudClient.

Abbreviation ORIGIN_GENERATED := 1.
Abbreviation ORIGIN_USER := 2.
Abbreviation LAN_TLS_RECORD_MAX := 7680.
Abbreviation LAN_TLS_UPLOAD_MAX := 7664.
Abbreviation KEY_BUF_MAX := 3300.
Abbreviation RETIRED_MAX := 3%nat.

(** ** Splitting a bundle *)

Definition eol (b : Z) : bool := (b =? 10) || (b =? 13).
Fixpoint line_of (p : list Z) : list Z := match p with b :: p' => if eol b then [] else b :: line_of p' | [] => [] end.
Fixpoint skip_eol (p : list Z) : list Z := match p with b :: p' => if eol b then skip_eol p' else p | [] => [] end.

(** The line at [p], and where the next one starts. *)
Definition line_at (p : list Z) : list Z * list Z := let l := line_of p in (l, skip_eol (drop (length l) p)).

Definition starts (p : list Z) (s : string) : bool := bool_decide (take (length (str s)) p = str s).
Definition ends (p : list Z) (s : string) : bool := bool_decide (drop (length p - length (str s)) p = str s).

(** Room is kept for the newline and the final NUL. *)
Definition put (buf : list Z) (cap : nat) (line : list Z) : option (list Z) :=
  if (cap <? length buf + length line + 2)%nat then None else Some (buf ++ line ++ [10]).

Inductive pem_block := NONE | IN_KEY | IN_CERT | IN_OTHER.
Record pem_t := Pem { p_key : list Z; p_cert : list Z; p_keys : nat; p_certs : nat; in_block : pem_block }.

Definition PEM_ENCRYPTED : cstr := str "the private key is encrypted; upload it without a passphrase".
Definition KEY_TOO_LARGE : cstr := str "the private key is too large".
Definition CERTS_TOO_LARGE : cstr := str "the certificates are too large".

Definition put_key (s : pem_t) (cap : nat) (line : list Z) (b : pem_block) : pem_t + cstr :=
  match put (p_key s) cap line with None => inr KEY_TOO_LARGE | Some k => inl (Pem k (p_cert s) (p_keys s) (p_certs s) b) end.
Definition put_cert (s : pem_t) (cap : nat) (line : list Z) (b : pem_block) : pem_t + cstr :=
  match put (p_cert s) cap line with None => inr CERTS_TOO_LARGE | Some c => inl (Pem (p_key s) c (p_keys s) (p_certs s) b) end.

Definition pem_label (line : list Z) : cstr := cstr_of (take 47 (sub 11 (length line - 16) line)).

Definition pem_begin (key_cap cert_cap : nat) (s : pem_t) (line : list Z) : pem_t + cstr :=
  if negb (starts line "-----BEGIN " && (16 <? length line)%nat && ends line "-----") then inl s
  else
    let label := pem_label line in
    if streq label (str "CERTIFICATE")
    then put_cert (Pem (p_key s) (p_cert s) (p_keys s) (S (p_certs s)) (in_block s)) cert_cap line IN_CERT
    else if has_infix (str "PRIVATE KEY") label then
      if has_infix (str "ENCRYPTED") label then inr PEM_ENCRYPTED
      else if (1 <? S (p_keys s))%nat then inr (str "more than one private key")
      else put_key (Pem (p_key s) (p_cert s) (S (p_keys s)) (p_certs s) (in_block s)) key_cap line IN_KEY
    else inl (Pem (p_key s) (p_cert s) (p_keys s) (p_certs s) IN_OTHER).

Definition pem_inside (key_cap cert_cap : nat) (s : pem_t) (line : list Z) : pem_t + cstr :=
  let b := if starts line "-----END " then NONE else in_block s in
  match in_block s with
  | IN_KEY =>
      if starts line "Proc-Type:" && (19 <=? length line)%nat && ends line "ENCRYPTED" then inr PEM_ENCRYPTED
      else put_key s key_cap line b
  | IN_CERT => put_cert s cert_cap line b
  | _ => inl (Pem (p_key s) (p_cert s) (p_keys s) (p_certs s) b)
  end.

Definition pem_line (key_cap cert_cap : nat) (s : pem_t) (line : list Z) : pem_t + cstr :=
  match in_block s with NONE => pem_begin key_cap cert_cap s line | _ => pem_inside key_cap cert_cap s line end.

Fixpoint pem_loop (fuel key_cap cert_cap : nat) (s : pem_t) (p : list Z) : pem_t + cstr :=
  match fuel, p with
  | S fuel', _ :: _ =>
      let '(line, next) := line_at p in
      match pem_line key_cap cert_cap s line with inl s' => pem_loop fuel' key_cap cert_cap s' next | inr why => inr why end
  | _, _ => inl s
  end.

(** The key and the certificates, each with its final NUL, or what is wrong. A line
    takes a byte at least, so the bytes bound the lines. *)
Definition lan_tls_pem_split (pem : list Z) (key_cap cert_cap : nat) : (list Z * list Z) + cstr :=
  match pem_loop (length pem) key_cap cert_cap (Pem [] [] 0 0 NONE) pem with
  | inr why => inr why
  | inl s =>
      match in_block s with
      | NONE =>
          if (p_keys s =? 0)%nat then inr (str "no private key in the upload")
          else if (p_certs s =? 0)%nat then inr (str "no certificate in the upload")
          else inl (p_key s ++ [0], p_cert s ++ [0])
      | _ => inr (str "a PEM block has no END line")
      end
  end.

(** ** Configurations and their references *)

Record tls_config := TlsConfig { tc_addr : Z; tc_key : list Z; tc_cert : list Z }.
Record cfg_slot_t := CfgSlot { cfg : option tls_config; refs : Z }.
Definition no_cfg : cfg_slot_t := CfgSlot None 0.

Definition is_cfg (s : cfg_slot_t) (a : Z) : bool := match cfg s with Some c => tc_addr c =? a | None => false end.

Record lan_tls_info_t := TlsInfo { ready : bool; origin : cstr; ti_error : cstr }.

Definition rec_hdr (o : Z) (key_len cert_len : nat) : list Z :=
  [o; 0] ++ le 2 (u16 (Z.of_nat key_len)) ++ le 2 (u16 (Z.of_nat cert_len)) ++ [0; 0].

Definition rec_build (o : Z) (key cert : list Z) : option (list Z) :=
  if LAN_TLS_RECORD_MAX <? 8 + Z.of_nat (length key) + Z.of_nat (length cert) then None
  else Some (rec_hdr o (length key) (length cert) ++ key ++ cert).

(** The origin, key and certificate of a record, unless it is damaged. *)
Definition rec_parse (rec : list Z) : option (Z * list Z * list Z) :=
  if (length rec <? 8)%nat then None
  else
    let kl := Z.to_nat (rd_le (sub 2 2 rec)) in
    let cl := Z.to_nat (rd_le (sub 4 2 rec)) in
    if negb (8 + kl + cl =? length rec)%nat || (kl =? 0)%nat || (cl =? 0)%nat then None
    else
      let key := sub 8 kl rec in
      let cert := drop (8 + kl) rec in
      if negb (nth (kl - 1) key 0 =? 0) || negb (nth (cl - 1) cert 0 =? 0) then None else Some (nth 0 rec 0, key, cert).

Definition k_store : ab_store_t := {|
  tag := "tls"; slot_off0 := 0x1E2000; slot_off1 := 0x1E0000; s_magic := 0x534C5442; s_version := 1;
  legacy_off := 0; legacy_magic := 0; max_len := LAN_TLS_RECORD_MAX;
|}.

(** What a job finds: memory, a generated pair, and the configuration mbedTLS creates. *)
Record job_env := JobEnv { e_mem : bool; e_gen : option (list Z * list Z); e_cfg : option Z }.

Definition DAMAGED : cstr := str "the stored record is damaged".

Section tls.
Context `{FlashDev D}.
(** Whether key and certificates parse and belong together; [None] is fine. *)
Variable check_pair : list Z -> list Z -> option cstr.

Record tls_t := Tls {
  t_flash : D; s_cur : cfg_slot_t; s_retired : list cfg_slot_t; s_gen : Z; s_info : lan_tls_info_t; freed : list Z;
}.
Definition tls_boot (d : D) : tls_t := Tls d no_cfg (replicate RETIRED_MAX no_cfg) 0 (TlsInfo false [] []) [].

Definition free_retired (l : list cfg_slot_t) : option nat :=
  fold_right (fun i r => match cfg (nth i l no_cfg) with None => Some i | Some _ => r end) None (seq 0 RETIRED_MAX).

(** With no free place the oldest one is left behind, not freed. *)
Definition cfg_swap (st : tls_t) (c : tls_config) : tls_t :=
  let retired :=
    match cfg (s_cur st) with
    | None => s_retired st
    | Some _ => <[default 0%nat (free_retired (s_retired st)) := s_cur st]> (s_retired st)
    end in
  Tls (t_flash st) (CfgSlot (Some c) 0) retired (u32 (s_gen st + 1)) (s_info st) (freed st).

Definition publish (st : tls_t) (i : lan_tls_info_t) : tls_t := Tls (t_flash st) (s_cur st) (s_retired st) (s_gen st) i (freed st).
Definition origin_text (o : Z) : cstr := if o =? ORIGIN_GENERATED then str "generated" else str "user".

Definition apply_record (st : tls_t) (rec : list Z) (new_cfg : option Z) : tls_t * option cstr :=
  match rec_parse rec with
  | None => (st, Some DAMAGED)
  | Some (o, key, cert) =>
      match check_pair key cert with
      | Some why => (st, Some why)
      | None =>
          match new_cfg with
          | None => (st, Some (str "out of memory for the TLS configuration"))
          | Some a => (publish (cfg_swap st (TlsConfig a key cert)) (TlsInfo true (origin_text o) []), None)
          end
      end
  end.

Definition store_and_apply (st : tls_t) (rec : list Z) (new_cfg : option Z) : tls_t * option cstr :=
  let '(d, rc) := ab_store_save k_store (t_flash st) rec in
  let st := Tls d (s_cur st) (s_retired st) (s_gen st) (s_info st) (freed st) in
  if negb (rc =? 0) then (st, Some (str "could not save the certificate")) else apply_record st rec new_cfg.

Definition regenerate_here (st : tls_t) (e : job_env) : tls_t * option cstr :=
  if negb (e_mem e) then (st, Some (str "out of memory"))
  else
    match e_gen e ≫= (fun kc => rec_build ORIGIN_GENERATED kc.1 kc.2) with
    | None => (st, Some (str "could not generate a key and certificate"))
    | Some rec => store_and_apply st rec (e_cfg e)
    end.

Definition install_job (st : tls_t) (pem : list Z) (store : bool) (e : job_env) : tls_t * option cstr :=
  if negb (e_mem e) then (st, Some (str "out of memory"))
  else
    match lan_tls_pem_split pem (Z.to_nat KEY_BUF_MAX) (Z.to_nat LAN_TLS_UPLOAD_MAX) with
    | inr why => (st, Some why)
    | inl (key, cert) =>
        match check_pair key cert with
        | Some why => (st, Some why)
        | None =>
            if negb store then (st, None)
            else
              match rec_build ORIGIN_USER key cert with
              | None => (st, Some (str "the key and certificates are too large"))
              | Some rec => store_and_apply st rec (e_cfg e)
              end
        end
    end.

Definition publish_error (st : tls_t) (why : cstr) : tls_t := publish st (TlsInfo false [] why).

(** At boot: the stored certificate, or a new one. [e2] is the second attempt's. *)
Definition lan_tls_init (st : tls_t) (e e2 : job_env) : tls_t :=
  let '(st, why) :=
    if negb (e_mem e) then (st, Some (str "out of memory"))
    else match ab_store_load_var k_store (t_flash st) LAN_TLS_RECORD_MAX with
         | None => (st, Some (str "none stored"))
         | Some rec => apply_record st rec (e_cfg e)
         end in
  match why with
  | None => st
  | Some _ => let '(st, why) := regenerate_here st e2 in match why with None => st | Some w => publish_error st w end
  end.

Definition lan_tls_config (st : tls_t) : option tls_config := cfg (s_cur st).
Definition lan_tls_generation (st : tls_t) : Z := s_gen st.

(** The first slot of the address gets the count. *)
Fixpoint on_retired (a : Z) (f : Z -> Z) (l : list cfg_slot_t) : list cfg_slot_t :=
  match l with [] => [] | s :: l' => if is_cfg s a then CfgSlot (cfg s) (f (refs s)) :: l' else s :: on_retired a f l' end.
Definition on_cfg (st : tls_t) (a : Z) (f : Z -> Z) : tls_t :=
  if is_cfg (s_cur st) a then Tls (t_flash st) (CfgSlot (cfg (s_cur st)) (f (refs (s_cur st)))) (s_retired st) (s_gen st) (s_info st) (freed st)
  else Tls (t_flash st) (s_cur st) (on_retired a f (s_retired st)) (s_gen st) (s_info st) (freed st).
Definition lan_tls_ref (st : tls_t) (a : Z) : tls_t := on_cfg st a (fun r => r + 1).
Definition lan_tls_unref (st : tls_t) (a : Z) : tls_t := on_cfg st a (fun r => if 0 <? r then r - 1 else r).

Definition collectable (s : cfg_slot_t) : bool := match cfg s with Some _ => refs s =? 0 | None => false end.
Definition lan_tls_collect (st : tls_t) : tls_t :=
  Tls (t_flash st) (s_cur st) (map (fun s => if collectable s then CfgSlot None (refs s) else s) (s_retired st)) (s_gen st) (s_info st)
    (freed st ++ concat (map (fun s => match cfg s with Some c => if collectable s then [tc_addr c] else [] | None => [] end) (s_retired st))).

(** The jobs as the worker asks for them: the net task may not answer. *)
Definition NO_ANSWER : cstr := str "the network task did not answer".
Definition lan_tls_regenerate (st : tls_t) (answers : bool) (e : job_env) : tls_t * option cstr :=
  if answers then regenerate_here st e else (st, Some NO_ANSWER).
Definition lan_tls_job (st : tls_t) (pem : list Z) (store answers : bool) (e : job_env) : tls_t * option cstr :=
  if LAN_TLS_UPLOAD_MAX <? Z.of_nat (length pem) then (st, Some (str "the upload is too large"))
  else if answers then install_job st pem store e else (st, Some NO_ANSWER).
Definition lan_tls_install (st : tls_t) (pem : list Z) (answers : bool) (e : job_env) : tls_t * option cstr := lan_tls_job st pem true answers e.
Definition lan_tls_check (st : tls_t) (pem : list Z) (answers : bool) (e : job_env) : tls_t * option cstr := lan_tls_job st pem false answers e.

(** The bundle staged by an update: [mem] a heap buffer, [staged] what PSRAM gives. *)
Definition read_staged (size : Z) (mem : bool) (staged : option (list Z)) : list Z + cstr :=
  if (size =? 0) || (LAN_TLS_UPLOAD_MAX <? size) then inr (str "lan_tls: upload larger than " ++ dec LAN_TLS_UPLOAD_MAX ++ str " bytes")
  else if negb mem then inr (str "lan_tls: out of memory")
  else match staged with None => inr (str "lan_tls: psram read failed") | Some b => inl b end.

Definition staged_result (r : tls_t * option cstr) : tls_t * Z * cstr :=
  match snd r with Some bad => (fst r, -1, str "lan_tls: " ++ bad) | None => (fst r, 0, []) end.
Definition lan_tls_validate_staged (st : tls_t) (size : Z) (mem : bool) (staged : option (list Z)) (answers : bool) (e : job_env) : tls_t * Z * cstr :=
  match read_staged size mem staged with inr why => (st, -1, why) | inl b => staged_result (lan_tls_check st b answers e) end.
Definition ota_install_staged_config (st : tls_t) (tls_target : bool) (size : Z) (mem : bool) (staged : option (list Z)) (answers : bool) (e : job_env) : tls_t * Z * cstr :=
  if negb tls_target then (st, -1, str "not supported")
  else match read_staged size mem staged with inr why => (st, -1, why) | inl b => staged_result (lan_tls_install st b answers e) end.
End tls.
Arguments tls_t : clear implicits.

(** ** What a split bundle is *)

Lemma put_some buf cap line b : put buf cap line = Some b -> b = buf ++ line ++ [10] /\ (length b + 1 <= cap)%nat.
Proof.
  unfold put. destruct (Nat.ltb_spec cap (length buf + length line + 2)); [done|]. intros E. simplify_eq. split; [done|].
  rewrite !length_app. cbn [length]. lia.
Qed.

(** Buffers never outgrow their room, the final NUL included. *)
Record pem_ok (kc cc : nat) (s : pem_t) : Prop := {
  po_key : p_keys s = 0%nat \/ (length (p_key s) + 1 <= kc)%nat;
  po_cert : p_certs s = 0%nat \/ (length (p_cert s) + 1 <= cc)%nat;
  po_in : (in_block s = IN_KEY -> p_keys s <> 0%nat) /\ (in_block s = IN_CERT -> p_certs s <> 0%nat);
  po_keys : (p_keys s <= 1)%nat;
}.

Lemma pem_line_ok kc cc s line s' : pem_ok kc cc s -> pem_line kc cc s line = inl s' -> pem_ok kc cc s'.
Proof.
  intros [Hk Hc [Hik Hic] Hn]. unfold pem_line, pem_begin, pem_inside, put_key, put_cert. destruct (in_block s) eqn:Eb.
  - destruct (negb _); [intros E; simplify_eq; by constructor; try rewrite Eb|]. destruct (streq _ _).
    { destruct (put _ _ _) eqn:Ep; [|done]. apply put_some in Ep as [_ Hl]. intros E. simplify_eq. constructor; cbn; auto. }
    destruct (has_infix _ _); [destruct (has_infix _ _); [done|]|intros E; simplify_eq; by constructor].
    destruct (Nat.ltb_spec 1 (S (p_keys s))); [done|]. destruct (put _ _ _) eqn:Ep; [|done]. apply put_some in Ep as [_ Hl].
    intros E. simplify_eq. constructor; cbn; auto.
  - destruct (_ && _); [done|]. destruct (put _ _ _) eqn:Ep; [|done]. apply put_some in Ep as [_ Hl]. intros E. simplify_eq.
    constructor; cbn; auto. destruct (starts _ _); split; auto; done.
  - destruct (put _ _ _) eqn:Ep; [|done]. apply put_some in Ep as [_ Hl]. intros E. simplify_eq.
    constructor; cbn; auto. destruct (starts _ _); split; auto; done.
  - intros E. simplify_eq. constructor; cbn; auto. destruct (starts _ _); split; done.
Qed.

Lemma pem_loop_ok fuel kc cc : forall s p s', pem_ok kc cc s -> pem_loop fuel kc cc s p = inl s' -> pem_ok kc cc s'.
Proof.
  induction fuel as [|fuel IH]; intros s p s' Hs E; cbn [pem_loop] in E; [by simplify_eq|].
  destruct p as [|b p]; [by simplify_eq|]. destruct (line_at (b :: p)) as [line next]. destruct (pem_line kc cc s line) eqn:El; [|done].
  eapply IH; [|exact E]. by eapply pem_line_ok.
Qed.

Lemma split_bounds pem kc cc k c : lan_tls_pem_split pem kc cc = inl (k, c) -> (length k <= kc)%nat /\ (length c <= cc)%nat.
Proof.
  unfold lan_tls_pem_split. destruct (pem_loop _ _ _ _ _) as [s|] eqn:El; [|done].
  assert (H : pem_ok kc cc s) by (eapply pem_loop_ok; [|exact El]; constructor; cbn; auto; split; done).
  destruct H as [Hk Hc _ _]. destruct (in_block s); try done. destruct (Nat.eqb_spec (p_keys s) 0); [done|]. destruct (Nat.eqb_spec (p_certs s) 0); [done|].
  intros E. simplify_eq. rewrite !length_app. cbn [length]. lia.
Qed.

(** *** A well-formed bundle *)

Definition text (lines : list (list Z)) : list Z := concat (map (fun l => l ++ [10]) lines).
Definition line_ok (l : list Z) : Prop := l <> [] /\ Forall (fun b => eol b = false) l.

Fixpoint pem_fold (kc cc : nat) (s : pem_t) (lines : list (list Z)) : pem_t + cstr :=
  match lines with [] => inl s | l :: ls => match pem_line kc cc s l with inl s' => pem_fold kc cc s' ls | inr w => inr w end end.

Lemma line_of_text l rest : Forall (fun b => eol b = false) l -> line_of (l ++ 10 :: rest) = l.
Proof. induction 1 as [|b l Hb _ IH]; [done|]. cbn [app line_of]. by rewrite Hb, IH. Qed.

Lemma skip_text lines : Forall line_ok lines -> skip_eol (text lines) = text lines.
Proof. intros H. destruct lines as [|[|b l] lines]; [done|by inversion H as [|? ? []]|]. inversion H as [|? ? [_ Hl]]; subst. inversion Hl as [|? ? Hb]; subst. unfold text. cbn. by rewrite Hb. Qed.

Lemma line_at_text l lines : line_ok l -> Forall line_ok lines -> line_at (text (l :: lines)) = (l, text lines).
Proof.
  intros [_ Hl] Hls. unfold line_at. change (text (l :: lines)) with ((l ++ [10]) ++ text lines). rewrite <- app_assoc. cbn [app].
  rewrite line_of_text by done. rewrite drop_app_length. cbn [skip_eol]. change (eol 10) with true. cbn match. by rewrite skip_text.
Qed.

Lemma pem_loop_text kc cc lines : forall fuel s, Forall line_ok lines -> (length (text lines) <= fuel)%nat ->
  pem_loop fuel kc cc s (text lines) = pem_fold kc cc s lines.
Proof.
  induction lines as [|l lines IH]; intros fuel s Hok Hf; [by destruct fuel|].
  inversion Hok as [|? ? Hl Hls]; subst. change (text (l :: lines)) with ((l ++ [10]) ++ text lines) in Hf. rewrite !length_app in Hf. cbn [length] in Hf.
  destruct fuel as [|fuel]; [lia|]. cbn [pem_loop]. destruct (text (l :: lines)) as [|b p] eqn:Et.
  { destruct l; done. }
  rewrite <- Et, line_at_text by done. cbn [pem_fold]. destruct (pem_line kc cc s l); [|done]. apply IH; [done|lia].
Qed.

(** A block of a bundle: its label and the lines between BEGIN and END. *)
Record block := Block { b_label : list Z; b_lines : list (list Z) }.
Definition begin_line (b : block) : list Z := str "-----BEGIN " ++ b_label b ++ str "-----".
Definition end_line (b : block) : list Z := str "-----END " ++ b_label b ++ str "-----".
Definition block_lines (b : block) : list (list Z) := begin_line b :: b_lines b ++ [end_line b].
Definition block_text (b : block) : list Z := text (block_lines b).
Definition is_cert (b : block) : bool := bool_decide (b_label b = str "CERTIFICATE").
Definition is_key (b : block) : bool := negb (is_cert b) && has_infix (str "PRIVATE KEY") (b_label b).

Record block_ok (b : block) : Prop := {
  bk_len : (0 < length (b_label b) <= 47)%nat;
  bk_label : Forall (fun x => eol x = false /\ x <> 0) (b_label b);
  bk_lines : Forall line_ok (b_lines b);
  bk_end : Forall (fun l => starts l "-----END " = false) (b_lines b);
  bk_plain : is_key b = true -> has_infix (str "ENCRYPTED") (b_label b) = false /\ Forall (fun l => starts l "Proc-Type:" = false) (b_lines b);
}.

Lemma starts_app s l : starts (str s ++ l) s = true.
Proof. unfold starts. rewrite take_app_length. by apply bool_decide_eq_true. Qed.

Lemma ends_app l s : ends (l ++ str s) s = true.
Proof. unfold ends. rewrite length_app, Nat.add_sub, drop_app_length. by apply bool_decide_eq_true. Qed.

Lemma cstr_of_id l : Forall (fun x => x <> 0) l -> cstr_of l = l.
Proof. induction 1 as [|x l Hx _ IH]; [done|]. cbn [cstr_of]. destruct (Z.eqb_spec x 0); [done|]. by rewrite IH. Qed.

Lemma begin_label b : block_ok b -> pem_label (begin_line b) = b_label b /\ (16 <? length (begin_line b))%nat = true /\
  starts (begin_line b) "-----BEGIN " = true /\ ends (begin_line b) "-----" = true.
Proof.
  intros [Hl Hb _ _ _]. unfold begin_line. split_and!.
  - unfold pem_label. rewrite !length_app. change (length (str "-----BEGIN ")) with 11%nat. change (length (str "-----")) with 5%nat.
    replace (11 + (length (b_label b) + 5) - 16)%nat with (length (b_label b)) by lia.
    pose proof (sub_app_r (length (b_label b)) (str "-----BEGIN ") (b_label b ++ str "-----")) as E. rewrite take_app_length in E.
    change (length (str "-----BEGIN ")) with 11%nat in E. rewrite E, take_ge by lia.
    apply cstr_of_id. eapply Forall_impl; [exact Hb|]. cbn. tauto.
  - apply Nat.ltb_lt. rewrite !length_app. change (length (str "-----BEGIN ")) with 11%nat. change (length (str "-----")) with 5%nat. lia.
  - apply starts_app.
  - rewrite app_assoc. apply ends_app.
Qed.

Lemma end_starts b : starts (end_line b) "-----END " = true.
Proof. apply starts_app. Qed.

Lemma put_fits (buf : list Z) cap (line more : list Z) : (length (buf ++ (line ++ [10%Z]) ++ more) + 1 <= cap)%nat -> put buf cap line = Some (buf ++ line ++ [10]).
Proof. rewrite !length_app. cbn [length]. intros Hl. unfold put. destruct (Nat.ltb_spec cap (length buf + length line + 2)); [lia|done]. Qed.

Lemma text_cons l ls : text (l :: ls) = (l ++ [10]) ++ text ls.
Proof. done. Qed.

Lemma text_app l1 l2 : text (l1 ++ l2) = text l1 ++ text l2.
Proof. unfold text. by rewrite map_app, concat_app. Qed.

(** Inside a key, a certificate and any other block, up to and with its END line. *)
Lemma fold_key kc cc lines e rest : forall k c n m, starts e "-----END " = true -> starts e "Proc-Type:" = false ->
  Forall (fun l => starts l "-----END " = false) lines -> Forall (fun l => starts l "Proc-Type:" = false) lines ->
  (length (k ++ text (lines ++ [e])) + 1 <= kc)%nat ->
  pem_fold kc cc (Pem k c n m IN_KEY) (lines ++ e :: rest) = pem_fold kc cc (Pem (k ++ text (lines ++ [e])) c n m NONE) rest.
Proof.
  induction lines as [|l lines IH]; intros k c n m He Hp Hne Hpl Hs; cbn [app pem_fold]; unfold pem_line, pem_inside, put_key; cbn [in_block p_key p_cert p_keys p_certs].
  - rewrite Hp. cbn [andb]. rewrite (put_fits k kc e []) by exact Hs. cbn iota. rewrite He. cbn [app]. by rewrite text_cons, app_nil_r.
  - inversion Hne as [|? ? Hl Hne']; inversion Hpl as [|? ? Hlp Hpl']; subst. rewrite Hlp. cbn [andb]. cbn [app] in Hs. rewrite text_cons in Hs.
    rewrite (put_fits k kc l (text (lines ++ [e]))) by exact Hs. cbn iota. rewrite Hl.
    rewrite IH; [|done..|]; rewrite <- app_assoc; [by rewrite text_cons|exact Hs].
Qed.

Lemma fold_cert kc cc lines e rest : forall k c n m, starts e "-----END " = true ->
  Forall (fun l => starts l "-----END " = false) lines -> (length (c ++ text (lines ++ [e])) + 1 <= cc)%nat ->
  pem_fold kc cc (Pem k c n m IN_CERT) (lines ++ e :: rest) = pem_fold kc cc (Pem k (c ++ text (lines ++ [e])) n m NONE) rest.
Proof.
  induction lines as [|l lines IH]; intros k c n m He Hne Hs; cbn [app pem_fold]; unfold pem_line, pem_inside, put_cert; cbn [in_block p_key p_cert p_keys p_certs].
  - rewrite (put_fits c cc e []) by exact Hs. cbn iota. rewrite He. cbn [app]. by rewrite text_cons, app_nil_r.
  - inversion Hne as [|? ? Hl Hne']; subst. cbn [app] in Hs. rewrite text_cons in Hs.
    rewrite (put_fits c cc l (text (lines ++ [e]))) by exact Hs. cbn iota. rewrite Hl.
    rewrite IH; [|done..|]; rewrite <- app_assoc; [by rewrite text_cons|exact Hs].
Qed.

Lemma fold_other kc cc lines e rest : forall k c n m, starts e "-----END " = true -> Forall (fun l => starts l "-----END " = false) lines ->
  pem_fold kc cc (Pem k c n m IN_OTHER) (lines ++ e :: rest) = pem_fold kc cc (Pem k c n m NONE) rest.
Proof.
  induction lines as [|l lines IH]; intros k c n m He Hne; cbn [app pem_fold]; unfold pem_line, pem_inside; cbn [in_block p_key p_cert p_keys p_certs].
  - by rewrite He.
  - inversion Hne as [|? ? Hl Hne']; subst. rewrite Hl. by apply IH.
Qed.

(** The texts of the key blocks and of the certificates of a bundle. *)
Definition keys_of (bs : list block) : list block := List.filter is_key bs.
Definition certs_of (bs : list block) : list block := List.filter is_cert bs.
Definition bundle (bs : list block) : list Z := concat (map block_text bs).

Lemma block_lines_app b rest : block_lines b ++ rest = begin_line b :: b_lines b ++ end_line b :: rest.
Proof. unfold block_lines. cbn [app]. by rewrite <- app_assoc. Qed.

Lemma streq_eq a b : streq a b = bool_decide (a = b).
Proof. unfold streq. apply bool_decide_ext. tauto. Qed.

Lemma fold_block kc cc b rest k c n m : block_ok b ->
  let k' := if is_key b then k ++ block_text b else k in
  let c' := if is_cert b then c ++ block_text b else c in
  (is_key b = true -> n = 0%nat /\ length k' + 1 <= kc)%nat -> (is_cert b = true -> length c' + 1 <= cc)%nat ->
  pem_fold kc cc (Pem k c n m NONE) (block_lines b ++ rest) =
  pem_fold kc cc (Pem k' c' (if is_key b then S n else n) (if is_cert b then S m else m) NONE) rest.
Proof.
  intros Hb k' c' Hk Hc. rewrite block_lines_app. cbn [pem_fold]. unfold pem_line, pem_begin. cbn [in_block].
  destruct (begin_label b Hb) as (El & E16 & Es & Ee). rewrite Es, E16, Ee, El. cbn [andb negb]. rewrite streq_eq.
  destruct Hb as [_ _ _ Hne Hpl]. unfold k', c', is_key, is_cert in *. destruct (bool_decide_reflect (b_label b = str "CERTIFICATE")) as [Ec|Ec]; cbn [negb andb] in *.
  - specialize (Hc eq_refl). unfold put_cert. cbn [p_cert p_key p_keys p_certs]. unfold block_text in *. unfold block_lines in *. rewrite text_cons in *.
    rewrite (put_fits c cc _ (text (b_lines b ++ [end_line b]))) by exact Hc. cbn iota. rewrite fold_cert; [|apply end_starts|done|]; rewrite <- app_assoc; [done|exact Hc].
  - destruct (has_infix (str "PRIVATE KEY") (b_label b)); [|by rewrite fold_other; [|apply end_starts|done]].
    destruct (Hk eq_refl) as [-> Hs]. destruct (Hpl eq_refl) as [-> Hp]. cbn [Nat.ltb Nat.leb]. unfold put_key. cbn [p_cert p_key p_keys p_certs].
    unfold block_text in *. unfold block_lines in *. rewrite text_cons in *.
    rewrite (put_fits k kc _ (text (b_lines b ++ [end_line b]))) by exact Hs. cbn iota.
    rewrite fold_key; [|apply end_starts|done|done|done|]; rewrite <- app_assoc; [done|exact Hs].
Qed.

Lemma fold_bundle kc cc bs : forall k c n m, Forall block_ok bs -> (n + length (keys_of bs) <= 1)%nat ->
  (keys_of bs <> [] -> length (k ++ bundle (keys_of bs)) + 1 <= kc)%nat ->
  (certs_of bs <> [] -> length (c ++ bundle (certs_of bs)) + 1 <= cc)%nat ->
  pem_fold kc cc (Pem k c n m NONE) (concat (map block_lines bs)) =
  inl (Pem (k ++ bundle (keys_of bs)) (c ++ bundle (certs_of bs)) (n + length (keys_of bs)) (m + length (certs_of bs)) NONE).
Proof.
  induction bs as [|b bs IH]; intros k c n m Hok Hn Hk Hc.
  { cbn. by rewrite !app_nil_r, !Nat.add_0_r. }
  inversion Hok as [|? ? Hb Hbs]; subst. cbn [map concat]. unfold keys_of, certs_of in *. cbn [List.filter] in *.
  unfold bundle in *. rewrite fold_block; [|done|..].
  2: { intros E. rewrite E in *. cbn [map concat length] in *. specialize (Hk ltac:(done)). rewrite !length_app in *. lia. }
  2: { intros E. rewrite E in *. cbn [map concat length] in *. specialize (Hc ltac:(done)). rewrite !length_app in *. lia. }
  assert (Hex : is_key b = true -> is_cert b = false) by (unfold is_key; by destruct (is_cert b)).
  destruct (is_key b), (is_cert b); try (by specialize (Hex eq_refl)); cbn [bundle map concat length] in *.
  - rewrite IH; [f_equal; f_equal; rewrite ?app_assoc; (done || lia)|done|lia|rewrite <- app_assoc; auto|auto].
  - rewrite IH; [f_equal; f_equal; rewrite ?app_assoc; (done || lia)|done|lia|auto|rewrite <- app_assoc; auto].
  - by rewrite IH.
Qed.

Lemma str_ok s : forallb (fun b => negb (eol b)) (str s) = true -> Forall (fun b => eol b = false) (str s).
Proof. intros H. apply Forall_forall. intros b Hb. rewrite forallb_forall in H. apply list_elem_of_In in Hb. specialize (H b Hb). by destruct (eol b). Qed.

Lemma block_lines_ok b : block_ok b -> Forall line_ok (block_lines b).
Proof.
  intros [Hl Hb Hls _ _]. assert (He : Forall (fun x => eol x = false) (b_label b)) by (eapply Forall_impl; [exact Hb|cbn; tauto]).
  unfold block_lines. apply Forall_cons. split; [|apply Forall_app; split; [done|apply Forall_singleton]].
  - split; [done|]. unfold begin_line. repeat apply Forall_app_2; (done || by apply str_ok).
  - split; [done|]. unfold end_line. repeat apply Forall_app_2; (done || by apply str_ok).
Qed.

Lemma bundle_text bs : bundle bs = text (concat (map block_lines bs)).
Proof. induction bs as [|b bs IH]; [done|]. cbn [map concat]. rewrite text_app, <- IH. done. Qed.

Lemma bundle_lines_ok bs : Forall block_ok bs -> Forall line_ok (concat (map block_lines bs)).
Proof. induction 1 as [|b bs Hb _ IH]; [constructor|]. cbn [map concat]. apply Forall_app. split; [by apply block_lines_ok|done]. Qed.

(** A bundle of PEM blocks in any order, with one unencrypted private key and at
    least one certificate among them (whatever else it carries), splits into
    exactly the key's block and the certificates' blocks in their order, each
    ended by a NUL. *)
Theorem pem_split_bundle (bs : list block) (kb : block) (key_cap cert_cap : nat) :
  Forall block_ok bs -> keys_of bs = [kb] -> certs_of bs <> [] ->
  (length (block_text kb) + 1 <= key_cap)%nat -> (length (bundle (certs_of bs)) + 1 <= cert_cap)%nat ->
  lan_tls_pem_split (bundle bs) key_cap cert_cap = inl (block_text kb ++ [0], bundle (certs_of bs) ++ [0]).
Proof.
  intros Hok Hk Hc Hks Hcs. unfold lan_tls_pem_split. rewrite bundle_text, pem_loop_text by (by apply bundle_lines_ok || done).
  assert (Ek : bundle (keys_of bs) = block_text kb) by (rewrite Hk; cbn; by rewrite app_nil_r).
  rewrite fold_bundle; [|done|rewrite Hk; cbn; lia|intros _; cbn [app]; by rewrite Ek|intros _; exact Hcs].
  cbn [in_block p_keys p_certs p_key p_cert app]. rewrite Ek, Hk. cbn [length Nat.add Nat.eqb].
  destruct (certs_of bs) as [|b bs'] eqn:E; [done|]. done.
Qed.

Definition two_blocks : list block :=
  [Block (str "CERTIFICATE") [str "MIIB"]; Block (str "EC PARAMETERS") [str "Bggq"]; Block (str "EC PRIVATE KEY") [str "MHcC"; str "AwEH"]].

Lemma pem_split_bundle_witness :
  Forall block_ok two_blocks /\
  lan_tls_pem_split (bundle two_blocks) 100 100 =
    inl (block_text (Block (str "EC PRIVATE KEY") [str "MHcC"; str "AwEH"]) ++ [0], block_text (Block (str "CERTIFICATE") [str "MIIB"]) ++ [0]).
Proof.
  assert (H : Forall block_ok two_blocks).
  { repeat apply Forall_cons_2; [..|apply Forall_nil_2]; (constructor; [cbn; lia|repeat (constructor; [done|]); constructor|
      repeat (constructor; [split; [done|repeat (constructor; [done|]); constructor]|]); constructor|repeat (constructor; [done|]); constructor|
      intros _; split; [done|repeat (constructor; [done|]); constructor]]). }
  split; [exact H|]. apply (pem_split_bundle two_blocks); [exact H|done|done|apply Nat.leb_le; by vm_compute..].
Defined.
