(* ===== verification/LanTlsTheorems.v ===== *)
(** * What installing a certificate leaves behind *)

From S2P Require Import Prelude Flash ConfigStore ConfigStoreFacts ConfigStoreWrite ConfigStoreProofs Json CmdTable CmdGate StoreTheorems CloudClient LanTls.

(** ** Records *)

Lemma rd_le2 n : 0 <= n < 65536 -> rd_le (le 2 (u16 n)) = n.
Proof. intros H. rewrite u16_id by lia. apply rd_le_le. cbn. lia. Qed.

Lemma nth_last (l : list Z) : nth (length (l ++ [0]) - 1) (l ++ [0]) 0 = 0.
Proof. rewrite length_app, Nat.add_sub. rewrite app_nth2 by lia. by rewrite Nat.sub_diag. Qed.

Lemma rec_parse_build o k c rec : rec_build o (k ++ [0]) (c ++ [0]) = Some rec -> rec_parse rec = Some (o, k ++ [0], c ++ [0]).
Proof.
  unfold rec_build. set (key := k ++ [0]). set (cert := c ++ [0]).
  destruct (Z.ltb_spec LAN_TLS_RECORD_MAX (8 + Z.of_nat (length key) + Z.of_nat (length cert))) as [|Hl]; [done|]. intros E. simplify_eq.
  assert (Hk : (0 < length key)%nat) by (unfold key; rewrite length_app; cbn; lia). assert (Hc : (0 < length cert)%nat) by (unfold cert; rewrite length_app; cbn; lia).
  set (rec := rec_hdr o (length key) (length cert) ++ key ++ cert).
  assert (Elen : length rec = (8 + length key + length cert)%nat) by (unfold rec, rec_hdr; rewrite !length_app, !le_length; cbn; lia).
  assert (E2 : sub 2 2 rec = le 2 (u16 (Z.of_nat (length key)))) by done.
  assert (E4 : sub 4 2 rec = le 2 (u16 (Z.of_nat (length cert)))) by done.
  unfold rec_parse. rewrite Elen, E2, E4, !rd_le2, !Nat2Z.id by lia. destruct (Nat.ltb_spec (8 + length key + length cert) 8); [lia|].
  rewrite Nat.eqb_refl. cbn [negb orb]. destruct (Nat.eqb_spec (length key) 0), (Nat.eqb_spec (length cert) 0); try lia. cbn [orb].
  assert (Ed : drop 8 rec = key ++ cert) by done.
  assert (Ek : sub 8 (length key) rec = key) by (unfold sub; by rewrite Ed, take_app_length).
  assert (Ec : drop (8 + length key) rec = cert) by (by rewrite <- drop_drop, Ed, drop_app_length).
  rewrite Ek, Ec. unfold key, cert. rewrite !nth_last. done.
Qed.

(** ** The bytes of a bundle *)

Lemma bytes1 b : 0 <= b < 256 -> bytes_ok [b].
Proof. intros H. constructor; [exact H|constructor]. Qed.

Lemma line_of_bytes p : bytes_ok p -> bytes_ok (line_of p).
Proof. induction 1 as [|b p Hb _ IH]; [constructor|]. cbn [line_of]. destruct (eol b); [constructor|by constructor]. Qed.

Lemma skip_eol_bytes p : bytes_ok p -> bytes_ok (skip_eol p).
Proof. induction 1 as [|b p Hb Hp IH]; [constructor|]. cbn [skip_eol]. destruct (eol b); [done|by constructor]. Qed.

Definition pem_bytes (s : pem_t) : Prop := bytes_ok (p_key s) /\ bytes_ok (p_cert s).

Lemma put_bytes buf cap line b : bytes_ok buf -> bytes_ok line -> put buf cap line = Some b -> bytes_ok b.
Proof. intros Hb Hl E. apply put_some in E as [-> _]. repeat apply Forall_app_2; [done|done|]. by apply bytes1. Qed.

Lemma pem_line_bytes kc cc s line s' : bytes_ok line -> pem_bytes s -> pem_line kc cc s line = inl s' -> pem_bytes s'.
Proof.
  intros Hl [Hk Hc]. unfold pem_line, pem_begin, pem_inside, put_key, put_cert, pem_bytes.
  destruct (in_block s); repeat case_match; intros; simplify_eq; cbn [p_key p_cert] in *; split; try done; by eapply put_bytes; [| |eassumption].
Qed.

Lemma pem_loop_bytes fuel kc cc : forall s p s', bytes_ok p -> pem_bytes s -> pem_loop fuel kc cc s p = inl s' -> pem_bytes s'.
Proof.
  induction fuel as [|fuel IH]; intros s p s' Hp Hs E; cbn [pem_loop] in E; [by simplify_eq|].
  destruct p as [|b p]; [by simplify_eq|]. unfold line_at in E. set (line := line_of (b :: p)) in *.
  assert (Hl : bytes_ok line) by (by apply line_of_bytes). destruct (pem_line kc cc s line) eqn:El; [|done].
  eapply IH; [| |exact E]; [by apply skip_eol_bytes, Forall_drop|by eapply pem_line_bytes].
Qed.

Lemma split_shape pem kc cc k c : bytes_ok pem -> lan_tls_pem_split pem kc cc = inl (k, c) ->
  exists k0 c0, k = k0 ++ [0] /\ c = c0 ++ [0] /\ bytes_ok k /\ bytes_ok c.
Proof.
  intros Hb. unfold lan_tls_pem_split. destruct (pem_loop _ _ _ _ _) as [s|] eqn:El; [|done].
  assert (H : pem_bytes s) by (eapply pem_loop_bytes; [exact Hb| |exact El]; split; constructor). destruct H as [Hk Hc].
  destruct (in_block s); try done. destruct (_ =? 0)%nat; [done|]. destruct (_ =? 0)%nat; [done|]. intros E. simplify_eq.
  exists (p_key s), (p_cert s). split_and!; [done|done|..]; apply Forall_app_2; try done; by apply bytes1.
Qed.

Lemma rec_build_bytes o k c rec : byte_ok o -> bytes_ok k -> bytes_ok c -> rec_build o k c = Some rec -> bytes_ok rec /\ Z.of_nat (length rec) <= LAN_TLS_RECORD_MAX /\ rec <> [].
Proof.
  intros Ho Hk Hc. unfold rec_build. destruct (Z.ltb_spec LAN_TLS_RECORD_MAX (8 + Z.of_nat (length k) + Z.of_nat (length c))) as [|Hl]; [done|]. intros E. simplify_eq.
  split_and!; [|unfold rec_hdr; rewrite !length_app, !le_length; cbn [length]; lia|done].
  unfold rec_hdr. repeat apply Forall_app_2; try done; try apply le_bytes; repeat apply Forall_cons_2; done || apply Forall_nil_2.
Qed.

(** ** Installing *)

Lemma tls_store_wf : store_wf k_store.
Proof. constructor; try (cbn; lia); try done. intros [|[|i]]; vm_compute; (done || split; done). Qed.

Section install.
Context `{SP : StorePromise k_store D}.
Variable check_pair : list Z -> list Z -> option cstr.

Lemma load_var_of_load (d : D) data cap : ab_store_load k_store d (length data) = Some data -> data <> [] -> Z.of_nat (length data) <= cap ->
  ab_store_load_var k_store d cap = Some data.
Proof.
  intros El Hne Hc. unfold ab_store_load, ab_store_load_var in *. destruct (scan k_store d) as [[n h]|]; [|done].
  destruct (hdr_len h =? 0); [done|]. destruct (negb (hdr_ver h =? s_version k_store)); [done|]. cbn [orb] in *.
  destruct (Z.eqb_spec (hdr_len h) (Z.of_nat (length data))) as [E|]; [|done]. cbn [negb] in El. rewrite E.
  destruct (Z.ltb_spec cap (Z.of_nat (length data))); [lia|done].
Qed.

Lemma store_and_apply_spec (st : tls_t D) o k0 c0 rec (a : option Z) :
  let key := k0 ++ [0] in let cert := c0 ++ [0] in
  byte_ok o -> bytes_ok key -> bytes_ok cert -> rec_build o key cert = Some rec -> st_inv (t_flash st) ->
  let '(st', why) := store_and_apply check_pair st rec a in
  st_inv (t_flash st') /\ ab_store_load_var k_store (t_flash st') LAN_TLS_RECORD_MAX = Some rec /\
  match why with
  | None => check_pair key cert = None /\ exists x, a = Some x /\ lan_tls_config st' = Some (TlsConfig x key cert)
  | Some w => lan_tls_config st' = lan_tls_config st /\ s_retired st' = s_retired st /\ (check_pair key cert = Some w \/ a = None)
  end.
Proof.
  intros key cert Ho Hk Hc Er Hi. destruct (rec_build_bytes o key cert rec Ho Hk Hc Er) as (Hb & Hl & Hne).
  destruct (st_save (t_flash st) rec) as (d & Es & Hi' & Eload); [by split|done|done|].
  unfold store_and_apply. rewrite Es. cbn [negb Z.eqb]. unfold apply_record. rewrite (rec_parse_build o k0 c0 rec Er).
  pose proof (load_var_of_load d rec LAN_TLS_RECORD_MAX Eload Hne Hl) as Ev.
  fold key cert. destruct (check_pair key cert) as [w|] eqn:Ec; [by split_and!; auto|]. destruct a as [x|]; [|by split_and!; auto].
  split_and!; [done|done|done|]. by exists x.
Qed.

Definition served (st : tls_t D) : option (list Z * list Z) := (fun c => (tc_key c, tc_cert c)) <$> lan_tls_config st.

(** Restarting on a device that holds a good record serves it. *)
Lemma boot_serves (d : D) o k0 c0 rec e e2 x :
  ab_store_load_var k_store d LAN_TLS_RECORD_MAX = Some rec -> rec_build o (k0 ++ [0]) (c0 ++ [0]) = Some rec ->
  check_pair (k0 ++ [0]) (c0 ++ [0]) = None -> e_mem e = true -> e_cfg e = Some x ->
  served (lan_tls_init check_pair (tls_boot d) e e2) = Some (k0 ++ [0], c0 ++ [0]).
Proof.
  intros El Er Ec Em Ex. unfold lan_tls_init. rewrite Em. cbn [negb]. change (t_flash (tls_boot d)) with d. rewrite El.
  unfold apply_record. by rewrite (rec_parse_build o k0 c0 rec Er), Ec, Ex.
Qed.

End install.

(** ** A concrete pod *)

#[export] Instance tls_promise : StorePromise k_store pod_flash := ab_store_promise k_store tls_store_wf.

Lemma tls_blank_inv : store_inv k_store pod_blank.
Proof. vm_compute. done. Qed.

(** A pair check that wants both parts to be of some length. *)
Definition check_len (key cert : list Z) : option cstr := if (length key <? 20)%nat then Some (str "the private key does not parse") else None.

Definition installed : tls_t pod_flash * option cstr :=
  lan_tls_install check_len (tls_boot pod_blank) (bundle two_blocks) true (JobEnv true None (Some 7)).

Lemma installed_done : snd installed = None.
Proof. by vm_compute. Qed.

Lemma two_blocks_bytes : bytes_ok (bundle two_blocks).
Proof. refine (bool_decide_unpack _ _). vm_compute. exact I. Qed.


(** The last step fails: the old certificate is served, the new one is stored. *)
Example install_out_of_memory :
  let st := fst (lan_tls_install check_len (tls_boot pod_blank) (bundle two_blocks) true (JobEnv true None (Some 7))) in
  let other := bundle [Block (str "CERTIFICATE") [str "NEWER"]; Block (str "PRIVATE KEY") [str "NEWER"]] in
  let '(st', why) := lan_tls_install check_len st other true (JobEnv true None None) in
  why = Some (str "out of memory for the TLS configuration") /\ served st' = served st /\
  served (lan_tls_init check_len (tls_boot (t_flash st')) (JobEnv true None (Some 8)) (JobEnv true None None)) <> served st.
Proof. by vm_compute. Qed.
