(* ===== verification/NetUtil.v ===== *)
(** * The net task's small state machines
    ([net_reload.c], [net_route.c], [net_dhcp.c], [net_call_sync] of [net_server.c])

    Reloads asked for by a settings command, the outbound interface, the DHCP
    state machine, and calls handed to the net task. Where two tasks share
    variables, a step is one access. *)

From S2P Require Import Prelude.

(** ** Reloads after a reply *)

Abbreviation NET_RELOAD_CLOUD := 1.
Abbreviation NET_RELOAD_WIFI := 2.
Abbreviation NET_RELOAD_SETTLE_MS := 20.
Abbreviation NET_RELOAD_MAX_WAIT_MS := 1000.

Record reload_t := Reload { s_bits : Z; s_req_seq : Z; s_req_ms : Z; s_commit_seq : Z; s_commit_ms : Z; s_taken_seq : Z }.
Definition reload_init : reload_t := Reload 0 0 0 0 0 0.

(** The three parts of a request: the clock, the bits, the sequence number. *)
Definition request_clock (r : reload_t) (now : Z) : reload_t :=
  if s_req_seq r =? s_taken_seq r then {| r with s_req_ms := now |} else r.
Definition request_bits (r : reload_t) (bits : Z) : reload_t := {| r with s_bits := bits |}.
Definition request_seq (r : reload_t) : reload_t := {| r with s_req_seq := u32 (s_req_seq r + 1) |}.

Definition net_reload_request (r : reload_t) (what now : Z) : reload_t :=
  if what =? 0 then r else let r := request_clock r now in request_seq (request_bits r (Z.lor (s_bits r) what)).

Definition net_reload_commit (r : reload_t) (now : Z) : reload_t :=
  if (s_req_seq r =? s_taken_seq r) || (s_req_seq r =? s_commit_seq r) then r
  else {| r with s_commit_ms := now; s_commit_seq := s_req_seq r |}.

Definition reload_due (r : reload_t) (now : Z) (tx_busy : bool) : bool :=
  if NET_RELOAD_MAX_WAIT_MS <=? u32 (now - s_req_ms r) then true
  else (s_commit_seq r =? s_req_seq r) && (NET_RELOAD_SETTLE_MS <=? u32 (now - s_commit_ms r)) && negb tx_busy.

Definition net_reload_take (r : reload_t) (now : Z) (tx_busy : bool) : reload_t * Z :=
  if s_req_seq r =? s_taken_seq r then (r, 0)
  else if negb (reload_due r now tx_busy) then (r, 0)
  else ({| r with s_bits := 0; s_taken_seq := s_req_seq r |}, s_bits r).

Definition net_reload_pending (r : reload_t) : bool := negb (s_req_seq r =? s_taken_seq r).

(** *** The two tasks, access by access

    The net task outranks the worker: a take is one step, a request is four, with
    the read and the write of the bits apart. [owed] is what the requests that
    completed asked for and no later take has returned. *)
Inductive rpc := RIdle | RBits (what : Z) | RWrite (what bits : Z) | RSeq (what : Z).
Record reload_run := ReloadRun { rr : reload_t; pc : rpc; owed : Z; taken : list Z }.
Definition reload_start : reload_run := ReloadRun reload_init RIdle 0 [].

Inductive rl_op := RequestStart (what now : Z) | RequestNext | Commit (now : Z) | Take (now : Z) (tx_busy : bool).

Definition rl_step (s : reload_run) (o : rl_op) : reload_run :=
  match o with
  | RequestStart what now =>
      match pc s with
      | RIdle => if what =? 0 then s else {| s with rr := request_clock (rr s) now; pc := RBits what |}
      | _ => s
      end
  | RequestNext =>
      match pc s with
      | RIdle => s
      | RBits what => {| s with pc := RWrite what (Z.lor (s_bits (rr s)) what) |}
      | RWrite what bits => {| s with rr := request_bits (rr s) bits; pc := RSeq what; owed := Z.lor (owed s) what |}
      | RSeq what => {| s with rr := request_seq (rr s); pc := RIdle |}
      end
  | Commit now => match pc s with RIdle => {| s with rr := net_reload_commit (rr s) now |} | _ => s end
  | Take now tx_busy =>
      let '(r, bits) := net_reload_take (rr s) now tx_busy in
      ReloadRun r (pc s) (Z.land (owed s) (Z.lnot bits)) (if bits =? 0 then taken s else taken s ++ [bits])
  end.
Definition rl_run (s : reload_run) (ops : list rl_op) : reload_run := fold_left rl_step ops s.

(** The bits of [a] are among those of [b]. *)
Definition within (a b : Z) : Prop := Z.land a (Z.lnot b) = 0.

Lemma within_iff a b : within a b <-> forall i, 0 <= i -> Z.testbit a i = true -> Z.testbit b i = true.
Proof.
  unfold within. split.
  - intros E i Hi Ha. assert (Hx : Z.testbit (Z.land a (Z.lnot b)) i = false) by (by rewrite E, Z.bits_0).
    rewrite Z.land_spec, Z.lnot_spec, Ha in Hx by done. by destruct (Z.testbit b i).
  - intros H. apply Z.bits_inj_iff'. intros i Hi. rewrite Z.bits_0, Z.land_spec, Z.lnot_spec by done.
    destruct (Z.testbit a i) eqn:Ea; [|done]. by rewrite (H i Hi Ea).
Qed.

Lemma within_lor_l a b c : within a c -> within (Z.lor a b) (Z.lor c b).
Proof. rewrite !within_iff. intros H i Hi. rewrite !Z.lor_spec. intros Ho. apply orb_true_iff in Ho as [Ho| ->]; [by rewrite H|by rewrite orb_true_r]. Qed.

Lemma within_lor a b c : within a c -> within b c -> within (Z.lor a b) c.
Proof. rewrite !within_iff. intros H1 H2 i Hi. rewrite Z.lor_spec. intros Ho. apply orb_true_iff in Ho as [Ho|Ho]; auto. Qed.

Lemma within_minus a b c : within a c -> within (Z.land a (Z.lnot b)) c.
Proof. rewrite !within_iff. intros H i Hi. rewrite Z.land_spec. intros Ho. apply andb_true_iff in Ho as [Ho _]. auto. Qed.

Lemma within_refl_r a b : within b (Z.lor a b).
Proof. apply within_iff. intros i Hi Hb. rewrite Z.lor_spec, Hb. by rewrite orb_true_r. Qed.

Lemma within_trans a b c : within a b -> within b c -> within a c.
Proof. rewrite !within_iff. intros H1 H2 i Hi Ha. auto. Qed.

Lemma within_lor_r a b : within a (Z.lor a b).
Proof. apply within_iff. intros i Hi Ha. by rewrite Z.lor_spec, Ha. Qed.

(** What is owed is in the bits, and in the copy a request is about to write back;
    what is owed is pending, or about to be. *)
Record owed_ok (k : nat) (s : reload_run) : Prop := {
  ok_bits : within (owed s) (s_bits (rr s));
  ok_copy : match pc s with RWrite what bits => within (owed s) bits /\ within what bits | RSeq what => True | _ => True end;
  ok_seq : exists n, 0 <= n <= Z.of_nat k /\ s_req_seq (rr s) = u32 (s_taken_seq (rr s) + n) /\ 0 <= s_taken_seq (rr s) < 4294967296 /\
    (owed s <> 0 -> n <> 0 \/ exists what, pc s = RSeq what);
}.

Lemma seq_next t n : u32 (u32 (t + n) + 1) = u32 (t + (n + 1)).
Proof. wrap_lia. Qed.

Lemma rl_step_ok k s o : owed_ok k s -> owed_ok (S k) (rl_step s o).
Proof.
  intros [H1 H2 (n & Hn & Es & Ht & Ho)]. destruct o as [what now| |now|now busy]; cbn [rl_step].
  - assert (Hsame : owed_ok (S k) s) by (constructor; [done|done|exists n; split; [lia|auto]]).
    destruct (pc s) eqn:Ep; try done. destruct (what =? 0); [done|].
    assert (Er : s_bits (request_clock (rr s) now) = s_bits (rr s) /\ s_req_seq (request_clock (rr s) now) = s_req_seq (rr s) /\
      s_taken_seq (request_clock (rr s) now) = s_taken_seq (rr s)) by (unfold request_clock; by destruct (_ =? _)).
    destruct Er as (E1 & E2 & E3). constructor; cbn [rr pc owed]; [by rewrite E1|done|]. exists n. rewrite E2, E3. split; [lia|]. split; [exact Es|]. split; [exact Ht|].
    intros Hne. destruct (Ho Hne) as [?|[w Ew]]; [by left|congruence].
  - destruct (pc s) as [|what|what bits|what] eqn:Ep.
    + constructor; [done|by rewrite Ep|]. exists n. rewrite Ep. split; [lia|auto].
    + constructor; cbn [rr pc owed]; [done|split; [by eapply within_trans; [|apply within_lor_r]|apply within_refl_r]|]. exists n. split; [lia|]. split; [exact Es|]. split; [exact Ht|].
      intros Hne. destruct (Ho Hne) as [?|[w Ew]]; [by left|congruence].
    + destruct H2 as [H2 H3]. constructor; cbn [rr pc owed request_bits s_bits]; [by apply within_lor|done|]. exists n. split; [lia|]. split; [exact Es|]. split; [exact Ht|]. intros _. right. by exists what.
    + constructor; cbn [rr pc owed]; [done|done|]. exists (n + 1). cbn [request_seq s_req_seq s_taken_seq]. rewrite Es, seq_next. split; [lia|]. split; [done|]. split; [exact Ht|]. intros _. left. lia.
  - assert (Hsame : owed_ok (S k) s) by (constructor; [done|done|exists n; split; [lia|auto]]).
    destruct (pc s) eqn:Ep; try done. unfold net_reload_commit. destruct (_ || _); [constructor; cbn [rr pc owed]; [done|done|exists n; split; [lia|auto]]|]. cbn [rr pc owed].
    constructor; cbn [rr pc owed s_bits]; [done|done|]. exists n. cbn [s_req_seq s_taken_seq]. split; [lia|]. auto.
  - unfold net_reload_take. assert (Hno : forall r, r = rr s -> owed_ok (S k) (ReloadRun r (pc s) (Z.land (owed s) (Z.lnot 0)) (taken s))).
    { intros r ->. change (Z.lnot 0) with (-1). rewrite Z.land_m1_r. constructor; cbn [rr pc owed]; [done|done|]. exists n. split; [lia|auto]. }
    destruct (_ =? _); [by apply Hno|]. destruct (negb _); [by apply Hno|].
    assert (E0 : Z.land (owed s) (Z.lnot (s_bits (rr s))) = 0) by exact H1. rewrite E0.
    constructor; cbn [rr pc owed s_bits]; [done|by destruct (pc s); try done; destruct H2|]. exists 0. cbn [s_req_seq s_taken_seq].
    rewrite Z.add_0_r. pose proof (u32_range (s_taken_seq (rr s) + n)). rewrite <- Es in *. rewrite u32_id by lia. split_and!; try done; try lia.
Qed.

Lemma rl_run_ok ops : forall k s, owed_ok k s -> owed_ok (length ops + k) (rl_run s ops).
Proof. induction ops as [|o ops IH]; intros k s H; [done|]. cbn [rl_run fold_left length]. replace (S (length ops) + k)%nat with (length ops + S k)%nat by lia. apply IH, rl_step_ok, H. Qed.

Lemma reload_start_ok : owed_ok 0 reload_start.
Proof. constructor; [done|done|]. exists 0. cbn. split_and!; try done; lia. Qed.

(** However a settings command's request interleaves, access by access, with the
    net task's takes, no reload is lost: once the request is complete, a take a
    second after it was asked for returns every reload still owed, and nothing is
    pending for ever without one. *)
Theorem reload_never_lost (ops : list rl_op) (now : Z) (busy : bool) :
  Z.of_nat (length ops) < 4294967295 ->
  let s := rl_run reload_start ops in
  pc s = RIdle -> NET_RELOAD_MAX_WAIT_MS <= u32 (now - s_req_ms (rr s)) ->
  within (owed s) (snd (net_reload_take (rr s) now busy)) /\ owed (rl_step s (Take now busy)) = 0.
Proof.
  intros Hlen s Hpc Hms. pose proof (rl_run_ok ops 0 _ reload_start_ok) as [H1 _ (n & Hn & Es & Ht & Ho)]. fold s in H1, Es, Ht, Ho.
  rewrite Nat.add_0_r in Hn. cbn [rl_step]. unfold net_reload_take.
  destruct (Z.eqb_spec (s_req_seq (rr s)) (s_taken_seq (rr s))) as [E|E].
  - assert (n = 0) by (rewrite E in Es; unfold u32 in Es; Z.div_mod_to_equations; lia).
    assert (E0 : owed s = 0) by (destruct (Z.eq_dec (owed s) 0); [done|]; destruct (Ho n0) as [?|[w Ew]]; [done|congruence]).
    cbn [snd owed]. rewrite E0. done.
  - unfold reload_due. destruct (Z.leb_spec NET_RELOAD_MAX_WAIT_MS (u32 (now - s_req_ms (rr s)))); [|lia]. cbn [negb snd owed]. split; [exact H1|exact H1].
Qed.

Lemma reload_never_lost_witness :
  let ops := [RequestStart NET_RELOAD_CLOUD 5; RequestNext; Take 2000 false; RequestNext; RequestNext; RequestStart NET_RELOAD_WIFI 7; RequestNext; RequestNext; RequestNext] in
  let s := rl_run reload_start ops in
  owed s = 3 /\ within (owed s) (snd (net_reload_take (rr s) 3000 true)) /\ owed (rl_step s (Take 3000 true)) = 0.
Proof. intros ops s. split; [by vm_compute|]. apply (reload_never_lost ops 3000 true); by vm_compute. Defined.

(** ** The outbound interface *)

Record net_route_if_t := RouteIf { ri_ip : Z; ri_mask : Z; ri_usable : bool }.

Fixpoint first_idx {A} (p : A -> bool) (l : list A) : option nat :=
  match l with [] => None | x :: l' => if p x then Some O else S <$> first_idx p l' end.

Definition net_route_pick (ifs : list net_route_if_t) (src dest : Z) : option nat :=
  match (if src =? 0 then None else first_idx (fun r => ri_usable r && (ri_ip r =? src)) ifs) with
  | Some i => Some i
  | None => first_idx (fun r => ri_usable r && negb (ri_ip r =? 0) && (Z.land (ri_ip r) (ri_mask r) =? Z.land dest (ri_mask r))) ifs
  end.

Definition net_route_owner (ifs : list net_route_if_t) (local : Z) : option nat :=
  if local =? 0 then None else first_idx (fun r => ri_ip r =? local) ifs.

(** ** DHCP *)

Abbreviation NET_DHCP_OFF := 0.
Abbreviation NET_DHCP_WAIT := 1.
Abbreviation NET_DHCP_DONE := 2.
Inductive net_dhcp_action_t :=
| NET_DHCP_DO_NOTHING | NET_DHCP_DO_DISCOVER | NET_DHCP_DO_REKICK | NET_DHCP_DO_BOUND | NET_DHCP_DO_IPCHANGE | NET_DHCP_DO_LINKDOWN.
Record net_dhcp_t := NetDhcp { d_state : Z; d_wait_ticks : Z }.

Definition net_dhcp_step (d : net_dhcp_t) (link_up has_lease ip_changed : bool) (rekick_ticks : Z) : net_dhcp_t * net_dhcp_action_t :=
  if negb link_up then
    (NetDhcp NET_DHCP_OFF 0, if d_state d =? NET_DHCP_OFF then NET_DHCP_DO_NOTHING else NET_DHCP_DO_LINKDOWN)
  else if d_state d =? NET_DHCP_OFF then (NetDhcp NET_DHCP_WAIT 0, NET_DHCP_DO_DISCOVER)
  else if d_state d =? NET_DHCP_WAIT then
    if has_lease then (NetDhcp NET_DHCP_DONE 0, NET_DHCP_DO_BOUND)
    else if rekick_ticks =? 0 then (d, NET_DHCP_DO_NOTHING)
    else
      let w := u16 (d_wait_ticks d + 1) in
      if rekick_ticks <=? w then (NetDhcp NET_DHCP_WAIT 0, NET_DHCP_DO_REKICK) else (NetDhcp NET_DHCP_WAIT w, NET_DHCP_DO_NOTHING)
  else if d_state d =? NET_DHCP_DONE then
    if negb has_lease then (NetDhcp NET_DHCP_WAIT 0, NET_DHCP_DO_DISCOVER)
    else (d, if ip_changed then NET_DHCP_DO_IPCHANGE else NET_DHCP_DO_NOTHING)
  else (NetDhcp NET_DHCP_OFF 0, NET_DHCP_DO_NOTHING).

(** A run of ticks: the last state and the actions. *)
Fixpoint dhcp_run (rekick : Z) (d : net_dhcp_t) (ins : list (bool * bool * bool)) : net_dhcp_t * list net_dhcp_action_t :=
  match ins with
  | [] => (d, [])
  | (link, lease, changed) :: ins' =>
      let '(d, a) := net_dhcp_step d link lease changed rekick in
      let '(d', l) := dhcp_run rekick d ins' in (d', a :: l)
  end.

Definition asks (a : net_dhcp_action_t) : Prop := a = NET_DHCP_DO_DISCOVER \/ a = NET_DHCP_DO_REKICK.

Lemma dhcp_wait rekick n : forall w, 0 < rekick < 65536 -> 0 <= w < rekick -> rekick - w <= Z.of_nat n ->
  Exists asks (snd (dhcp_run rekick (NetDhcp NET_DHCP_WAIT w) (replicate n (true, false, false)))).
Proof.
  induction n as [|n IH]; intros w Hr Hw Hn; [lia|]. cbn [replicate dhcp_run]. unfold net_dhcp_step. cbn [negb d_state d_wait_ticks Z.eqb Pos.eqb].
  destruct (Z.eqb_spec rekick 0); [lia|]. rewrite u16_id by lia. destruct (Z.leb_spec rekick (w + 1)).
  - destruct (dhcp_run _ _ _). cbn [snd]. left. by right.
  - specialize (IH (w + 1) Hr ltac:(lia) ltac:(lia)). destruct (dhcp_run _ _ _). cbn [snd] in *. by right.
Qed.

Lemma dhcp_run_cons rekick d link lease changed ins :
  snd (dhcp_run rekick d ((link, lease, changed) :: ins)) =
  snd (net_dhcp_step d link lease changed rekick) :: snd (dhcp_run rekick (fst (net_dhcp_step d link lease changed rekick)) ins).
Proof. cbn [dhcp_run]. destruct (net_dhcp_step _ _ _ _ _) as [d1 a]. cbn [fst]. by destruct (dhcp_run rekick d1 ins). Qed.

(** Whatever state the machine is in (a corrupted one included), with the link up
    the pod asks for an address again within [rekick] + 2 ticks for as long as it
    has none, and three ticks after a lease is there it is bound. *)
Theorem dhcp_never_strands (rekick : Z) (d : net_dhcp_t) :
  0 < rekick < 65536 -> (d_state d = NET_DHCP_WAIT -> 0 <= d_wait_ticks d < rekick) ->
  Exists asks (snd (dhcp_run rekick d (replicate (Z.to_nat rekick + 2) (true, false, false)))) /\
  d_state (fst (dhcp_run rekick d (replicate 3 (true, true, false)))) = NET_DHCP_DONE.
Proof.
  intros Hr Hw. destruct d as [s w]. cbn [d_state d_wait_ticks] in Hw. split.
  - destruct (Z.eqb_spec s NET_DHCP_WAIT) as [->|Hne]; [apply dhcp_wait; [done|by apply Hw|specialize (Hw eq_refl); lia]|].
    replace (Z.to_nat rekick + 2)%nat with (S (S (Z.to_nat rekick))) by lia. generalize (Z.to_nat rekick). intros n. cbn [replicate].
    rewrite dhcp_run_cons. unfold net_dhcp_step at 1 2. cbn [negb d_state d_wait_ticks]. destruct (Z.eqb_spec s NET_DHCP_WAIT); [done|].
    destruct (Z.eqb_spec s NET_DHCP_OFF) as [->|Hoff]; [left; by left|]. destruct (s =? NET_DHCP_DONE); [left; by left|].
    rewrite dhcp_run_cons. right. left. by left.
  - cbn [replicate dhcp_run]. unfold net_dhcp_step. cbn [negb d_state d_wait_ticks].
    destruct (Z.eqb_spec s NET_DHCP_OFF) as [->|]; [done|]. destruct (Z.eqb_spec s NET_DHCP_WAIT) as [->|]; [done|].
    destruct (Z.eqb_spec s NET_DHCP_DONE) as [->|]; done.
Qed.

Lemma dhcp_never_strands_witness :
  Exists asks (snd (dhcp_run 40 (NetDhcp 77 9) (replicate 42 (true, false, false)))) /\
  d_state (fst (dhcp_run 40 (NetDhcp 77 9) (replicate 3 (true, true, false)))) = NET_DHCP_DONE.
Proof. apply (dhcp_never_strands 40 (NetDhcp 77 9)); [lia|done]. Defined.

(** ** Calls on the net task *)

(** The shared variables, whether the caller waits and what for, and what the net
    task is running; [ran] and [results] are the calls run and the answers given. *)
Record calls_t := Calls {
  s_net_call : bool; s_net_call_id : Z; s_net_call_done : Z; s_net_call_seq : Z;
  waiting : option Z; running : option Z; ran : list Z; results : list (Z * bool);
}.
Definition calls_init : calls_t := Calls false 0 0 0 None None [] [].

Inductive call_op := CCall | CCheck (late : bool) | NTake | NFinish.

Definition call_step (s : calls_t) (o : call_op) : calls_t :=
  match o with
  | CCall =>
      match waiting s with
      | Some _ => s
      | None => let id := u32 (s_net_call_seq s + 1) in {| s with s_net_call_seq := id; s_net_call_id := id; s_net_call := true; waiting := Some id |}
      end
  | CCheck late =>
      match waiting s with
      | None => s
      | Some id =>
          if s_net_call_done s =? id then {| s with waiting := None; results := results s ++ [(id, true)] |}
          else if late && s_net_call s && (s_net_call_id s =? id)
          then {| s with s_net_call := false; waiting := None; results := results s ++ [(id, false)] |}
          else s
      end
  | NTake =>
      match running s with
      | Some _ => s
      | None => if s_net_call s then {| s with s_net_call := false; running := Some (s_net_call_id s) |} else s
      end
  | NFinish =>
      match running s with
      | None => s
      | Some id => {| s with running := None; s_net_call_done := id; ran := ran s ++ [id] |}
      end
  end.
Definition call_run (s : calls_t) (ops : list call_op) : calls_t := fold_left call_step ops s.

Record calls_ok (k : Z) (s : calls_t) : Prop := {
  co_seq : 0 <= s_net_call_seq s <= k;
  co_waiting : forall id, waiting s = Some id -> id = s_net_call_seq s /\ 0 < id /\ forall r, (id, r) ∉ results s;
  co_running : forall id, running s = Some id -> waiting s = Some id /\ s_net_call s = false /\ id ∉ ran s;
  co_pending : s_net_call s = true -> waiting s = Some (s_net_call_id s) /\ s_net_call_id s ∉ ran s;
  co_done : s_net_call_done s = 0 \/ s_net_call_done s ∈ ran s;
  co_ran : NoDup (ran s) /\ forall id, id ∈ ran s -> 0 < id <= s_net_call_seq s;
  co_results : forall id r, (id, r) ∈ results s -> 0 < id <= s_net_call_seq s /\ (r = true <-> id ∈ ran s);
}.

Lemma calls_ok_later k s : calls_ok k s -> calls_ok (k + 1) s.
Proof. intros []. constructor; try done. lia. Qed.

Lemma call_step_ok k s o : calls_ok k s -> k < 4294967295 -> calls_ok (k + 1) (call_step s o).
Proof.
  intros Hs Hk. pose proof Hs as [Hq Hw Hr Hp Hd [Hn Hran] Hres]. destruct o as [|late| |]; cbn [call_step].
  - destruct (waiting s) as [w|] eqn:Ew; [by apply calls_ok_later|]. rewrite u32_id by lia.
    assert (Hnr : running s = None) by (destruct (running s) as [i|] eqn:E; [|done]; destruct (Hr i eq_refl) as [? _]; congruence).
    constructor; cbn [s_net_call s_net_call_id s_net_call_done s_net_call_seq waiting running ran results].
    + lia.
    + intros id E. simplify_eq. split; [done|]. split; [lia|]. intros r Hin. destruct (Hres _ _ Hin). lia.
    + rewrite Hnr. done.
    + intros _. split; [done|]. intros Hin. apply Hran in Hin. lia.
    + done.
    + split; [done|]. intros id Hin. apply Hran in Hin. lia.
    + intros id r Hin. destruct (Hres _ _ Hin). split; [lia|done].
  - destruct (waiting s) as [w|] eqn:Ew; [|by apply calls_ok_later]. destruct (Hw w eq_refl) as (E & Hpos & Hnew).
    assert (Hrun : s_net_call_done s = w -> running s = None).
    { intros Ed. destruct (running s) as [i|] eqn:Er; [|done]. destruct (Hr i eq_refl) as (Ewi & _ & Hni). assert (i = w) by congruence. subst i.
      exfalso. apply Hni. destruct Hd as [Hd|Hd]; [lia|by rewrite Ed in Hd]. }
    destruct (Z.eqb_spec (s_net_call_done s) w) as [Ed|Ed].
    + assert (Hin : w ∈ ran s) by (destruct Hd as [Hd|Hd]; [lia|by rewrite <- Ed]).
      assert (Hnp : s_net_call s = false) by (destruct (s_net_call s); [|done]; destruct (Hp eq_refl) as [E1 E2]; injection E1 as E1; destruct E2; by rewrite <- E1).
      constructor; cbn [s_net_call s_net_call_id s_net_call_done s_net_call_seq waiting running ran results]; try done.
      * lia.
      * rewrite Hrun by done. done.
      * by rewrite Hnp.
      * intros id r Hx. apply elem_of_app in Hx as [Hx|Hx]; [by apply Hres|]. apply list_elem_of_singleton in Hx. simplify_eq. split; [lia|]. split; done.
    + destruct (late && s_net_call s && (s_net_call_id s =? w)) eqn:El; [|by apply calls_ok_later].
      apply andb_true_iff in El as [El Eid]. apply andb_true_iff in El as [_ Ep]. apply Z.eqb_eq in Eid. destruct (Hp Ep) as [_ Hni].
      assert (Hnr : running s = None) by (destruct (running s) as [i|]; [|done]; destruct (Hr i eq_refl) as (_ & Hf & _); congruence).
      constructor; cbn [s_net_call s_net_call_id s_net_call_done s_net_call_seq waiting running ran results]; try done.
      * lia.
      * by rewrite Hnr.
      * intros id r Hx. apply elem_of_app in Hx as [Hx|Hx]; [by apply Hres|]. apply list_elem_of_singleton in Hx. injection Hx as -> ->. split; [lia|]. split; [done|]. intros Hx. rewrite Eid in Hni. done.
  - destruct (running s) as [w|] eqn:Er; [by apply calls_ok_later|]. destruct (s_net_call s) eqn:Ep; [|by apply calls_ok_later].
    destruct (Hp eq_refl) as [Ew Hni]. constructor; cbn [s_net_call s_net_call_id s_net_call_done s_net_call_seq waiting running ran results]; try done; try lia.
    intros id E. by simplify_eq.
  - destruct (running s) as [w|] eqn:Er; [|by apply calls_ok_later]. destruct (Hr w eq_refl) as (Ew & Ep & Hni). destruct (Hw w Ew) as (E & Hpos & Hnew).
    constructor; cbn [s_net_call s_net_call_id s_net_call_done s_net_call_seq waiting running ran results]; try done; try lia.
    + by rewrite Ep.
    + right. apply elem_of_app. right. by apply list_elem_of_singleton.
    + split; [apply NoDup_app; split; [done|]; split; [|apply NoDup_singleton]; intros x Hx ->%list_elem_of_singleton; done|].
      intros id Hx. apply elem_of_app in Hx as [Hx|Hx%list_elem_of_singleton]; [by apply Hran|]. subst. lia.
    + intros id r Hx. destruct (Hres _ _ Hx) as [H1 H2]. split; [done|]. rewrite H2, elem_of_app, list_elem_of_singleton. split; [by left|].
      intros [?| ->]; [done|]. by destruct (Hnew r).
Qed.

Lemma call_run_ok ops : forall k s, calls_ok k s -> k + Z.of_nat (length ops) <= 4294967295 -> calls_ok (k + Z.of_nat (length ops)) (call_run s ops).
Proof.
  induction ops as [|o ops IH]; intros k s H Hk; cbn [length] in *; [by rewrite Z.add_0_r|]. rewrite Nat2Z.inj_succ in *. cbn [call_run fold_left].
  replace (k + Z.succ (Z.of_nat (length ops))) with (k + 1 + Z.of_nat (length ops)) by lia. apply IH; [apply call_step_ok; [done|lia]|lia].
Qed.

(** Of the calls handed to the net task, each runs at most once; one reported as
    done has run; and one reported as not run (the caller's time was up) has not
    run and never will, however the two tasks interleave. *)
Theorem call_runs_iff_reported (ops : list call_op) :
  Z.of_nat (length ops) <= 4294967295 ->
  let s := call_run calls_init ops in
  NoDup (ran s) /\ forall id r, (id, r) ∈ results s -> (r = true <-> id ∈ ran s).
Proof.
  intros Hl s. assert (H0 : calls_ok 0 calls_init).
  { constructor; cbn; [lia|done|done|done|by left|split; [constructor|by intros ? ?%not_elem_of_nil]|by intros ? ? ?%not_elem_of_nil]. }
  destruct (call_run_ok ops 0 _ H0 ltac:(lia)) as [_ _ _ _ _ [Hn _] Hres]. split; [done|]. intros id r Hin. by apply Hres.
Qed.

Lemma call_runs_iff_reported_witness :
  let ops := [CCall; CCheck true; CCall; NTake; CCheck true; NFinish; CCheck true; NTake] in
  let s := call_run calls_init ops in
  results s = [(1, false); (2, true)] /\ ran s = [2] /\ NoDup (ran s) /\ forall id r, (id, r) ∈ results s -> (r = true <-> id ∈ ran s).
Proof. intros ops s. split; [by vm_compute|]. split; [by vm_compute|]. apply (call_runs_iff_reported ops). by vm_compute. Defined.
