(* ===== verification/NetServer.v ===== *)
(** * The LAN server and the net task's poll ([net_server.c])

    The connections of :8080 and :8443, the bytes they hand to the worker, the
    replies it queued, the LAN and HTTPS-only policies, the certificate the TLS
    listener serves and the reloads. lwIP is an argument: what its calls return,
    by the number of the call, and what its callbacks bring; the calls made to it
    are the trace [nacts]. The link and DHCP side of the file is in NetUtil. *)

From S2P Require Import Prelude Flash ConfigStore Json CmdTable CmdGate Ota Worker ConnTx ReplyCap CloudClient LanTls NetUtil.

Abbreviation NET_MAX_CONN := 5%nat.
Abbreviation LAN_TLS_MAX_SESSIONS := 3%nat.
Abbreviation LAN_TLS_HEAP_FLOOR := 49152.
Abbreviation LAN_TLS_SESSION_HEAP := 24576.
Abbreviation CH_CLOUD_CONN := 6.
Abbreviation BP_CLOUD_REPLY_MAX := 1792%nat.

(** One connection's variables: the arrays of the file, at one id. *)
Record slot_t := Slot { conn_pcb : bool; conn_tls : option Z; conn_refused : bool; conn_usb : bool; close_req : bool; nodelay_req : Z }.
Definition slot0 : slot_t := Slot false None false false false (-1).

Inductive nact :=
| NAbort | NAbortConn (id : nat) | NClose (id : nat) | NRecved (id n : nat) | NWrite (id : nat) (bytes : list Z) (ok : bool)
| NOutput (id : nat) | NKick (id : nat) | NNagle (id : nat) (on : bool) | NMdnsOn | NMdnsOff | NWifiReload.

Inductive recv_res := RvClosed | RvErr | RvMem | RvOk | RvAbrt.

Section net.
Context `{FlashDev D}.
Variable check_pair : list Z -> list Z -> option cstr.
Variable altcp_write_err : nat -> Z.
Variable get_rand : nat -> list Z.
Variable sign_ctx : cstr -> list Z -> option (list Z).
(** [altcp_sndbuf] and whether [altcp_write] took its bytes, by the number of the call. *)
Variable sndbuf : nat -> Z.
Variable tcp_write_ok : nat -> bool.

Record net_t := Net {
  cloud : cl_t; tls : tls_t D; conns : list slot_t; cap : cap_t;
  s_lan_up : bool; s_https_only : bool; s_lan_req : Z; s_https_req : Z;
  s_tls_listen : bool; s_tls_listen_cfg : option Z; s_tls_listen_gen : Z;
  reload : reload_t; calls : nat; nacts : list nact;
}.

Definition set_cloud (v : cl_t) (st : net_t) : net_t := {| st with cloud := v |}.
Definition set_tls (v : tls_t D) (st : net_t) : net_t := {| st with tls := v |}.
Definition set_conns (v : list slot_t) (st : net_t) : net_t := {| st with conns := v |}.
Definition set_calls (v : nat) (st : net_t) : net_t := {| st with calls := v |}.
Definition nlog (a : nact) (st : net_t) : net_t := {| st with nacts := nacts st ++ [a] |}.

Definition conn (st : net_t) (id : nat) : slot_t := nth id (conns st) slot0.
Definition set_conn (id : nat) (s : slot_t) (st : net_t) : net_t := set_conns (<[id := s]> (conns st)) st.
Definition worker (st : net_t) : worker_t := hw (cloud st).
Definition set_worker (w : worker_t) (st : net_t) : net_t := set_cloud (set_hw w (cloud st)) st.
Definition set_tx (rs : list ring_t) (st : net_t) : net_t := set_cloud (CloudClient.set_rings rs (cloud st)) st.
Definition zid (id : nat) : Z := Z.of_nat id.

(** ** The transmit seam, on the worker *)

Definition at_send_data (st : net_t) (conn_id : Z) (buf : list Z) : net_t * Z :=
  if conn_id =? CH_CLOUD_CONN then ({| st with cap := cloud_reply_cap_append (cap st) buf |}, 0)
  else if 0 <=? conn_tx_slot conn_id then
    let '(rs, n) := conn_tx_write (rings (cloud st)) conn_id buf in
    (set_tx rs st, if n =? Z.of_nat (length buf) then 0 else -1)
  else (st, -1).

Definition at_send_avail (st : net_t) (conn_id : Z) : Z :=
  if conn_id =? CH_CLOUD_CONN then 65535
  else if 0 <=? conn_tx_slot conn_id then conn_tx_free (rings (cloud st)) conn_id else 0.

Definition is_conn (conn_id : Z) : bool := (0 <=? conn_id) && (conn_id <? Z.of_nat NET_MAX_CONN).
Definition set_close_req (b : bool) (s : slot_t) : slot_t := {| s with close_req := b |}.
Definition set_nodelay_req (n : Z) (s : slot_t) : slot_t := {| s with nodelay_req := n |}.
Definition set_refused (b : bool) (s : slot_t) : slot_t := {| s with conn_refused := b |}.

Definition at_close_connection (st : net_t) (conn_id : Z) : net_t * Z :=
  if is_conn conn_id then let id := Z.to_nat conn_id in (set_conn id (set_close_req true (conn st id)) st, 0) else (st, -1).
Definition at_set_tcp_nodelay (st : net_t) (conn_id : Z) (enable : bool) : net_t * Z :=
  if is_conn conn_id
  then let id := Z.to_nat conn_id in (set_conn id (set_nodelay_req (if enable then 1 else 0) (conn st id)) st, 0) else (st, -1).

(** ** Connections *)

Definition conn_detach (st : net_t) (id : nat) : net_t :=
  let s := conn st id in
  let st := set_conn id (Slot false None false (conn_usb s) (close_req s) (nodelay_req s)) st in
  match conn_tls s with Some a => set_tls (lan_tls_unref (tls st) a) st | None => st end.

Definition submit_closed (st : net_t) (id : nat) : net_t := set_worker (hw_worker_submit_closed (worker st) (zid id)) st.

(** One segment, until the worker takes it or 100 waits have passed; [others] is
    what the other tasks do to the queue before each try. *)
Fixpoint submit_tries (others : nat -> worker_t -> worker_t) (n k : nat) (w : worker_t) (id : nat) (seg : list Z) : worker_t * bool * nat :=
  match n with
  | O => (others k w, false, S k)
  | S n' =>
      let '(w, ok) := hw_worker_submit_bytes (others k w) (zid id) seg in
      if ok then (w, true, S k) else submit_tries others n' (S k) w id seg
  end.

Fixpoint submit_segs (others : nat -> worker_t -> worker_t) (fuel k : nat) (w : worker_t) (id : nat) (rest : list Z) : worker_t * bool :=
  match fuel, rest with
  | S fuel', _ :: _ =>
      let '(w, ok, k) := submit_tries others 100 k w id (take HW_WORK_DATA_MAX rest) in
      if ok then submit_segs others fuel' k w id (drop HW_WORK_DATA_MAX rest) else (w, false)
  | _, _ => (w, true)
  end.

(** The receive callback of the connection in slot [id]; a segment takes a byte at
    least, so the bytes bound the segments. *)
Definition srv_recv (st : net_t) (id : nat) (p : option (list Z)) (err : Z) (others : nat -> worker_t -> worker_t) : net_t * recv_res :=
  match p with
  | None => (nlog (NClose id) (conn_detach (submit_closed st id) id), RvClosed)
  | Some data =>
      if negb (err =? ERR_OK) then (st, RvErr)
      else if negb (hw_worker_can_accept (worker st) (length data))
      then (set_conn id (set_refused true (conn st id)) st, RvMem)
      else
        let '(w, ok) := submit_segs others (length data) 0 (worker st) id data in
        let st := set_worker w st in
        if ok then (nlog (NRecved id (length data)) st, RvOk)
        else (nlog (NAbortConn id) (conn_detach (submit_closed st id) id), RvAbrt)
  end.

Definition srv_err (st : net_t) (id : nat) : net_t := conn_detach (submit_closed st id) id.

Definition tls_sessions (st : net_t) : nat := length (List.filter (fun s => match conn_tls s with Some _ => true | None => false end) (conns st)).

Definition free_id (st : net_t) : option nat :=
  fold_right (fun i r => if negb (conn_pcb (conn st i)) && negb (hw_worker_conn_busy (worker st) (zid i)) then Some i else r) None (seq 0 NET_MAX_CONN).

(** [arg] is the configuration of the listener, [usb] whether the client came in on
    the USB adapter, [heap] the free heap. The flag says whether it stays. *)
Definition srv_accept (st : net_t) (arg : option Z) (good usb : bool) (heap : Z) : net_t * bool :=
  if negb good then (st, false)
  else
    match free_id st with
    | None => (nlog NAbort st, false)
    | Some id =>
        let is_tls := match arg with Some _ => true | None => false end in
        if negb usb && negb (s_lan_up st) then (nlog NAbort st, false)
        else if negb is_tls && negb usb && s_https_only st then (nlog NAbort st, false)
        else if is_tls && ((LAN_TLS_MAX_SESSIONS <=? tls_sessions st)%nat || (heap <? LAN_TLS_HEAP_FLOOR + LAN_TLS_SESSION_HEAP))
        then (nlog NAbort st, false)
        else
          let st := set_tx (conn_tx_reset (rings (cloud st)) (zid id)) st in
          let st := set_conn id (Slot true arg false usb false (-1)) st in
          ((match arg with Some a => set_tls (lan_tls_ref (tls st) a) st | None => st end), true)
    end.

(** ** Output *)

Definition chunk_at (st : net_t) (conn_id pos n : Z) : list Z :=
  match ring_of (rings (cloud st)) conn_id with Some r => bytes_from (r_buf r) pos n | None => [] end.

Fixpoint drain_conn (fuel : nat) (st : net_t) (id : nat) (wrote : bool) : net_t * bool :=
  match fuel with
  | O => (st, wrote)
  | S fuel' =>
      match conn_tx_peek (rings (cloud st)) (zid id) with
      | None => (st, wrote)
      | Some (pos, n) =>
          let sb := sndbuf (calls st) in
          let ok := tcp_write_ok (calls st) in
          let st := set_calls (S (calls st)) st in
          if sb =? 0 then (st, wrote)
          else
            let n := if sb <? n then sb else n in
            let st := nlog (NWrite id (chunk_at st (zid id) pos n) ok) st in
            if negb ok then (st, wrote)
            else drain_conn fuel' (set_tx (conn_tx_advance (rings (cloud st)) (zid id) n) st) id true
      end
  end.

(** A turn of the loop takes a byte at least out of a ring of 2047. *)
Definition drain_slot (st : net_t) (id : nat) : net_t :=
  if negb (conn_pcb (conn st id)) then st
  else if hw_worker_conn_busy (worker st) (zid id) then st
  else
    let '(st, wrote) := drain_conn 2048 st id false in
    let st := if wrote then nlog (NOutput id) st else st in
    let s := conn st id in
    if conn_refused s && (match conn_tls s with Some _ => true | None => false end) && hw_worker_can_accept (worker st) HW_WORK_DATA_MAX
    then nlog (NKick id) (set_conn id (set_refused false s) st) else st.

Definition drain_tunnel (st : net_t) (t : nat) : net_t :=
  let id := tunnel_conn t in
  match conn_tx_peek (rings (cloud st)) id with
  | None => st
  | Some (pos, n) =>
      if hw_worker_conn_busy (worker st) id then set_tx (conn_tx_advance (rings (cloud st)) id n) st
      else
        let avail := cloud_client_tunnel_avail (cloud st) id (sndbuf (calls st)) in
        let st := set_calls (S (calls st)) st in
        if avail =? 0 then st
        else
          let n := if avail <? n then avail else n in
          let '(c, out) := cloud_client_tunnel_out altcp_write_err get_rand (cloud st) id (chunk_at st id pos n) in
          let st := set_cloud c st in
          set_tx (conn_tx_advance (rings (cloud st)) id (Z.of_nat out)) st
  end.

Definition net_tx_drain (st : net_t) : net_t := fold_left drain_tunnel slots (fold_left drain_slot (seq 0 NET_MAX_CONN) st).

(** ** What the worker and the policies asked for *)

Definition apply_request (st : net_t) (id : nat) : net_t :=
  let s := conn st id in
  let st :=
    if 0 <=? nodelay_req s then
      let st := if conn_pcb s then nlog (NNagle id (nodelay_req s =? 0)) st else st in
      set_conn id (set_nodelay_req (-1) s) st
    else st in
  if close_req (conn st id) then
    let st := set_conn id (set_close_req false (conn st id)) st in
    let st := if conn_pcb (conn st id) then nlog (NClose id) (conn_detach st id) else st in
    submit_closed (set_tx (conn_tx_reset (rings (cloud st)) (zid id)) st) id
  else st.
Definition net_apply_worker_requests (st : net_t) : net_t := fold_left apply_request (seq 0 NET_MAX_CONN) st.

Definition net_frame_cloud_reply (st : net_t) (now : Z) : net_t :=
  let '(w, r) := hw_worker_take_cloud_reply (worker st) BP_CLOUD_REPLY_MAX in
  let st := set_worker w st in
  match r with
  | Some (req_id, reply) => set_cloud (cloud_client_send_command_response altcp_write_err get_rand (cloud st) req_id reply now) st
  | None => st
  end.

Definition flag_if (p : slot_t -> bool) (st : net_t) (id : nat) : net_t :=
  if conn_pcb (conn st id) && p (conn st id) then set_conn id (set_close_req true (conn st id)) st else st.

Definition lan_access (st : net_t) (up : bool) : net_t :=
  if eqb up (s_lan_up st) then st
  else
    let st := {| st with s_lan_up := up |} in
    if up then nlog NMdnsOn st
    else fold_left (flag_if (fun s => negb (conn_usb s))) (seq 0 NET_MAX_CONN) (nlog NMdnsOff st).

Definition is_plain (s : slot_t) : bool := match conn_tls s with Some _ => false | None => true end.

Definition https_only_apply (st : net_t) (on : bool) : net_t :=
  if eqb on (s_https_only st) then st
  else
    let st := {| st with s_https_only := on |} in
    if on then fold_left (flag_if (fun s => negb (conn_usb s) && is_plain s)) (seq 0 NET_MAX_CONN) st else st.

Definition net_conn_on_usb (st : net_t) (conn_id : Z) : bool :=
  is_conn conn_id && conn_pcb (conn st (Z.to_nat conn_id)) && conn_usb (conn st (Z.to_nat conn_id)).
Definition net_conn_on_tls (st : net_t) (conn_id : Z) : bool :=
  is_conn conn_id && conn_pcb (conn st (Z.to_nat conn_id)) && negb (is_plain (conn st (Z.to_nat conn_id))).

Definition pod_policy_on_lan_change (st : net_t) (off : bool) : net_t := {| st with s_lan_req := if off then 0 else 1 |}.
Definition pod_policy_on_https_only_change (st : net_t) (on : bool) : net_t := {| st with s_https_req := if on then 1 else 0 |}.

Definition apply_lan_req (st : net_t) : net_t :=
  if s_lan_req st <? 0 then st else lan_access ({| st with s_lan_req := -1 |}) (s_lan_req st =? 1).
Definition apply_https_req (st : net_t) : net_t :=
  if s_https_req st <? 0 then st else https_only_apply ({| st with s_https_req := -1 |}) (s_https_req st =? 1).

(** ** The TLS listener *)

Definition cfg_addr (st : net_t) : option Z := tc_addr <$> LanTls.lan_tls_config (tls st).
Definition set_listen (l : bool) (c : option Z) (st : net_t) : net_t := {| st with s_tls_listen := l; s_tls_listen_cfg := c |}.
Definition unref_opt (st : net_t) (a : option Z) : net_t := match a with Some a => set_tls (lan_tls_unref (tls st) a) st | None => st end.

(** [opened] is whether a new listener could be opened. *)
Definition tls_listener_sync (st : net_t) (opened : bool) : net_t :=
  let c := cfg_addr st in
  let st := {| st with s_tls_listen_gen := lan_tls_generation (tls st) |} in
  if s_tls_listen st && bool_decide (s_tls_listen_cfg st = c) then st
  else
    match s_tls_listen st, c with
    | true, Some a => set_listen true c (unref_opt (set_tls (lan_tls_ref (tls st) a) st) (s_tls_listen_cfg st))
    | _, _ =>
        let st := set_listen false None (unref_opt st (s_tls_listen_cfg st)) in
        match c with
        | Some a => if opened then set_tls (lan_tls_ref (tls st) a) (set_listen true c st) else st
        | None => st
        end
    end.

(** ** The poll *)

Record net_in := NetIn { n_poll : poll_in; n_opened : bool; n_view : ota_view_t; n_queued : bool; n_release : bool; n_loaded : option cloud_config_t }.

Definition has_bit (bits b : Z) : bool := negb (Z.land bits b =? 0).
Definition net_apply_reload (st : net_t) (i : net_in) : net_t :=
  if negb (net_reload_pending (reload st)) then st
  else
    let '(r, what) := net_reload_take (reload st) (i_tick (n_poll i)) (cloud_client_tx_busy (cloud st) (n_view i) (n_queued i)) in
    let st := {| st with reload := r |} in
    let st := if has_bit what NET_RELOAD_CLOUD then set_cloud (cloud_client_reload (cloud st) (n_release i) (n_loaded i)) st else st in
    if has_bit what NET_RELOAD_WIFI then nlog NWifiReload st else st.

Definition net_poll (st : net_t) (i : net_in) : net_t :=
  let st := set_cloud (cloud_client_poll altcp_write_err get_rand sign_ctx (cloud st) (n_poll i)) st in
  let st := net_tx_drain st in
  let st := apply_https_req (apply_lan_req st) in
  let st := if s_tls_listen_gen st =? lan_tls_generation (tls st) then st else tls_listener_sync st (n_opened i) in
  let st := set_tls (lan_tls_collect (tls st)) st in
  let st := net_apply_worker_requests st in
  let st := net_frame_cloud_reply st (i_now (n_poll i)) in
  net_apply_reload st i.

(** At boot: the certificate is loaded, the policies are what is stored, and the
    listeners open. *)
Definition net_start (t : tls_t D) (c : cl_t) (lan_off https_only opened : bool) : net_t :=
  let st := Net c t (replicate NET_MAX_CONN slot0) cap_init false https_only (-1) (-1) false None 0 reload_init 0 [] in
  let st := tls_listener_sync st opened in
  if lan_off then st else lan_access st true.

(** ** Steps of all tasks *)

Inductive cert_job := Regenerate (e : job_env) | Install (pem : list Z) (e : job_env).
Definition run_cert_job (t : tls_t D) (j : cert_job) : tls_t D :=
  match j with Regenerate e => fst (regenerate_here check_pair t e) | Install pem e => fst (install_job check_pair t pem true e) end.

Inductive nop :=
| NPoll (i : net_in)
| NAccept (on_tls good usb : bool) (heap : Z)
| NRecv (id : nat) (p : option (list Z)) (err : Z) (others : nat -> worker_t -> worker_t)
| NErr (id : nat)
| NCloud (o : cop)
| NSend (conn_id : Z) (buf : list Z)
| NCloseReq (conn_id : Z)
| NNodelayReq (conn_id : Z) (on : bool)
| NLanPolicy (off : bool)
| NHttpsPolicy (on : bool)
| NCert (j : cert_job)
| NReloadRequest (what now : Z)
| NReloadCommit (now : Z).

(** A callback runs only for a connection that is there. *)
Definition here (st : net_t) (id : nat) : bool := (id <? NET_MAX_CONN)%nat && conn_pcb (conn st id).

Definition nstep (st : net_t) (o : nop) : net_t :=
  match o with
  | NPoll i => net_poll st i
  | NAccept on_tls good usb heap =>
      if on_tls then (if s_tls_listen st then fst (srv_accept st (s_tls_listen_cfg st) good usb heap) else st)
      else fst (srv_accept st None good usb heap)
  | NRecv id p err others => if here st id then fst (srv_recv st id p err others) else st
  | NErr id => if here st id then srv_err st id else st
  | NCloud o => set_cloud (cstep altcp_write_err get_rand sign_ctx (cloud st) o) st
  | NSend c buf => fst (at_send_data st c buf)
  | NCloseReq c => fst (at_close_connection st c)
  | NNodelayReq c on => fst (at_set_tcp_nodelay st c on)
  | NLanPolicy off => pod_policy_on_lan_change st off
  | NHttpsPolicy on => pod_policy_on_https_only_change st on
  | NCert j => set_tls (run_cert_job (tls st) j) st
  | NReloadRequest what now => {| st with reload := net_reload_request (reload st) what now |}
  | NReloadCommit now => {| st with reload := net_reload_commit (reload st) now |}
  end.
Definition nrun (st : net_t) (ops : list nop) : net_t := fold_left nstep ops st.
End net.
Arguments net_t : clear implicits.
