(* ===== verification/NetTheorems.v ===== *)
(** * What the LAN server guarantees *)

From S2P Require Import Prelude Flash ConfigStore Json CmdTable CmdGate StoreTheorems Ota Worker WorkerTheorems ConnTx ReplyCap CloudClient CloudTheorems LanTls NetUtil NetServer.

Section net.
Context `{FlashDev D}.
Variable check_pair : list Z -> list Z -> option cstr.
Variable altcp_write_err : nat -> Z.
Variable get_rand : nat -> list Z.
Variable sign_ctx : cstr -> list Z -> option (list Z).
Variable sndbuf : nat -> Z.
Variable tcp_write_ok : nat -> bool.
Abbreviation net_poll := (net_poll altcp_write_err get_rand sign_ctx sndbuf tcp_write_ok).
Abbreviation nstep := (nstep check_pair altcp_write_err get_rand sign_ctx sndbuf tcp_write_ok).
Abbreviation nrun := (nrun check_pair altcp_write_err get_rand sign_ctx sndbuf tcp_write_ok).
Abbreviation net_t := (net_t D).
Implicit Types (st : net_t) (s : slot_t).

(** ** The connections' table *)

Lemma conn_set_eq st id s : (id < length (conns st))%nat -> conn (set_conn id s st) id = s.
Proof. intros Hl. unfold conn, set_conn, set_conns. cbn [conns]. by apply nth_lookup_Some, list_lookup_insert_eq. Qed.

Lemma conn_set_ne st id id' s : id <> id' -> conn (set_conn id s st) id' = conn st id'.
Proof. intros Hne. unfold conn, set_conn, set_conns. cbn [conns]. rewrite !nth_lookup. by rewrite list_lookup_insert_ne. Qed.

Lemma conns_set st id s : length (conns (set_conn id s st)) = length (conns st).
Proof. unfold set_conn, set_conns. cbn [conns]. apply length_insert. Qed.

(** What the policies look at. *)
Definition frame (st st' : net_t) : Prop :=
  s_lan_up st' = s_lan_up st /\ s_https_only st' = s_https_only st /\ s_lan_req st' = s_lan_req st /\ s_https_req st' = s_https_req st /\
  length (conns st') = length (conns st).
#[local] Instance frame_trans : Transitive frame.
Proof. intros a b c (?&?&?&?&?) (?&?&?&?&?). unfold frame. split_and!; congruence. Qed.
#[local] Instance frame_refl : Reflexive frame.
Proof. by intros a. Qed.

(** A connection of [st'] was one of [st], from the same side and with the same
    closing request, or a stronger one. *)
Definition fewer (st st' : net_t) : Prop :=
  frame st st' /\
  forall id, conn_pcb (conn st' id) = true ->
    conn_pcb (conn st id) = true /\ conn_usb (conn st' id) = conn_usb (conn st id) /\ conn_tls (conn st' id) = conn_tls (conn st id) /\
    (close_req (conn st id) = true -> close_req (conn st' id) = true).
#[local] Instance fewer_refl : Reflexive fewer.
Proof. by intros a. Qed.
#[local] Instance fewer_trans : Transitive fewer.
Proof.
  intros a b c [F1 H1] [F2 H2]. split; [by etrans|]. intros id Hp. destruct (H2 id Hp) as (P2 & U2 & T2 & C2).
  destruct (H1 id P2) as (P1 & U1 & T1 & C1). split_and!; [done|congruence|congruence|auto].
Qed.

Lemma fewer_same st st' : frame st st' -> conns st' = conns st -> fewer st st'.
Proof. intros F E. split; [done|]. unfold conn. by rewrite E. Qed.

#[local] Ltac same := apply fewer_same; [unfold frame; split_and!; reflexivity|reflexivity].

(** The change of one slot. *)
Lemma fewer_set st id s :
  (conn_pcb s = true -> conn_pcb (conn st id) = true /\ conn_usb s = conn_usb (conn st id) /\ conn_tls s = conn_tls (conn st id) /\
    (close_req (conn st id) = true -> close_req s = true)) ->
  fewer st (set_conn id s st).
Proof.
  intros Hs. split; [unfold frame; cbn; split_and!; try done; apply conns_set|]. intros id' Hp.
  destruct (Nat.eq_dec id id') as [<-|Hne]; [|rewrite conn_set_ne in * by done; done].
  destruct (Nat.lt_ge_cases id (length (conns st))) as [Hl|Hg]; [rewrite conn_set_eq in * by done; auto|].
  unfold conn, set_conn, set_conns in Hp. cbn [conns] in Hp. rewrite nth_overflow in Hp by (by rewrite length_insert). done.
Qed.

Lemma fewer_detach st id : fewer st (conn_detach st id).
Proof.
  unfold conn_detach. set (s := Slot _ _ _ _ _ _). etrans; [apply (fewer_set st id s); by cbn|]. destruct (conn_tls (conn st id)); [same|reflexivity].
Qed.

Lemma fewer_fold {A} (f : net_t -> A -> net_t) l : (forall st a, fewer st (f st a)) -> forall st, fewer st (fold_left f l st).
Proof. intros Hf. induction l as [|a l IH]; intros st; [reflexivity|]. cbn [fold_left]. etrans; [apply Hf|apply IH]. Qed.

Lemma drain_conn_same fuel : forall st id w,
  frame st (fst (drain_conn sndbuf tcp_write_ok fuel st id w)) /\ conns (fst (drain_conn sndbuf tcp_write_ok fuel st id w)) = conns st.
Proof.
  induction fuel as [|fuel IH]; intros st id w; cbn [drain_conn]; [done|]. destruct (conn_tx_peek _ _) as [[pos n]|]; [|done].
  destruct (_ =? 0); [done|]. cbv zeta. destruct (tcp_write_ok _); cbn [negb]; [|done].
  match goal with |- context [drain_conn _ _ fuel ?s _ _] => destruct (IH s id true) as [F E] end. split; [by etrans; [|exact F]|by rewrite E].
Qed.

Lemma fewer_drain_slot st id : fewer st (drain_slot sndbuf tcp_write_ok st id).
Proof.
  unfold drain_slot. destruct (negb _); [reflexivity|]. destruct (hw_worker_conn_busy _ _); [reflexivity|].
  pose proof (drain_conn_same 2048 st id false) as [F E]. destruct (drain_conn _ _ _ _ _ _) as [st1 wrote]. cbn [fst] in *.
  assert (H1 : fewer st (if wrote then nlog (NOutput id) st1 else st1)) by (destruct wrote; by apply fewer_same).
  revert H1. generalize (if wrote then nlog (NOutput id) st1 else st1). intros st2 H2. etrans; [exact H2|].
  destruct (_ && _); [|reflexivity]. etrans; [apply (fewer_set st2 id (set_refused false (conn st2 id)))|same]. by destruct (conn st2 id).
Qed.

Lemma fewer_drain_tunnel st t : fewer st (drain_tunnel altcp_write_err get_rand sndbuf st t).
Proof.
  unfold drain_tunnel. destruct (conn_tx_peek _ _) as [[pos n]|]; [|reflexivity]. destruct (hw_worker_conn_busy _ _); [same|].
  cbv zeta. destruct (_ =? 0); [same|]. destruct (cloud_client_tunnel_out _ _ _ _ _) as [c out]. same.
Qed.

Lemma fewer_drain st : fewer st (net_tx_drain altcp_write_err get_rand sndbuf tcp_write_ok st).
Proof.
  unfold net_tx_drain. transitivity (fold_left (drain_slot sndbuf tcp_write_ok) (seq 0 NET_MAX_CONN) st); apply fewer_fold.
  - apply fewer_drain_slot.
  - apply fewer_drain_tunnel.
Qed.

Lemma fewer_one st st' id :
  frame st st' -> (forall id', id' <> id -> conn st' id' = conn st id') ->
  (conn_pcb (conn st' id) = true -> conn_pcb (conn st id) = true /\ conn_usb (conn st' id) = conn_usb (conn st id) /\
     conn_tls (conn st' id) = conn_tls (conn st id) /\ (close_req (conn st id) = true -> close_req (conn st' id) = true)) ->
  fewer st st'.
Proof. intros F Hne Hid. split; [done|]. intros id' Hp. destruct (Nat.eq_dec id' id) as [->|E]; [auto|]. by rewrite (Hne id' E) in *. Qed.

(** ** The worker's requests *)

Lemma conn_detach_conns st id : conns (conn_detach st id) = conns (set_conn id (Slot false None false (conn_usb (conn st id)) (close_req (conn st id)) (nodelay_req (conn st id))) st).
Proof. unfold conn_detach. by destruct (conn_tls (conn st id)). Qed.

Lemma detach_gone st id : conn_pcb (conn (conn_detach st id) id) = false.
Proof.
  unfold conn. rewrite conn_detach_conns. unfold set_conn, set_conns. cbn [conns].
  destruct (Nat.lt_ge_cases id (length (conns st))); [|by rewrite nth_overflow by (by rewrite length_insert)].
  by erewrite nth_lookup_Some by (by apply list_lookup_insert_eq).
Qed.

Lemma detach_ne st id id' : id' <> id -> conn (conn_detach st id) id' = conn st id'.
Proof. intros Hne. unfold conn at 1. rewrite conn_detach_conns. by apply (conn_set_ne st id id'). Qed.

Lemma frame_detach st id : frame st (conn_detach st id).
Proof. apply fewer_detach. Qed.

Lemma frame_set st id s : frame st (set_conn id s st).
Proof. unfold frame. split_and!; try reflexivity. apply conns_set. Qed.

(** The closing half of a request. *)
Definition close_part (st : net_t) (id : nat) : net_t :=
  let st := set_conn id (set_close_req false (conn st id)) st in
  let st := if conn_pcb (conn st id) then nlog (NClose id) (conn_detach st id) else st in
  submit_closed (set_tx (conn_tx_reset (rings (cloud st)) (zid id)) st) id.

Lemma close_part_spec st id :
  frame st (close_part st id) /\ (forall id', id' <> id -> conn (close_part st id) id' = conn st id') /\ conn_pcb (conn (close_part st id) id) = false.
Proof.
  unfold close_part. set (st1 := set_conn id (set_close_req false (conn st id)) st).
  assert (F1 : frame st st1) by apply frame_set.
  assert (N1 : forall id', id' <> id -> conn st1 id' = conn st id') by (intros; by apply conn_set_ne).
  clearbody st1. cbv zeta.
  match goal with |- frame st ?s /\ _ =>
    assert (E : conns s = conns (if conn_pcb (conn st1 id) then conn_detach st1 id else st1)) by (by destruct (conn_pcb (conn st1 id)));
    assert (F : frame (if conn_pcb (conn st1 id) then conn_detach st1 id else st1) s) by (destruct (conn_pcb (conn st1 id)); unfold frame; split_and!; reflexivity);
    revert E F; generalize s end.
  intros s E F. unfold conn. rewrite E. change (frame st s /\ (forall id', id' <> id -> conn (if conn_pcb (conn st1 id) then conn_detach st1 id else st1) id' = conn st id') /\
    conn_pcb (conn (if conn_pcb (conn st1 id) then conn_detach st1 id else st1) id) = false).
  destruct (conn_pcb (conn st1 id)) eqn:Ep.
  - split_and!; [by do 2 (etrans; [eassumption||apply frame_detach|])| |apply detach_gone]. intros id' Hne. rewrite detach_ne by done. by apply N1.
  - split_and!; [by etrans|done|done].
Qed.

Lemma apply_request_spec st id :
  fewer st (apply_request st id) /\ (forall id', id' <> id -> conn (apply_request st id) id' = conn st id') /\
  (conn_pcb (conn (apply_request st id) id) = true -> close_req (conn (apply_request st id) id) = false).
Proof.
  unfold apply_request. cbv zeta.
  set (st1 := if 0 <=? nodelay_req (conn st id) then _ else st).
  assert (H1 : fewer st st1 /\ (forall id', id' <> id -> conn st1 id' = conn st id')).
  { unfold st1. destruct (0 <=? nodelay_req (conn st id)); [|split; [reflexivity|done]].
    assert (G : fewer st (set_conn id (set_nodelay_req (-1) (conn st id)) st)) by (apply fewer_set; by destruct (conn st id)).
    destruct (conn_pcb (conn st id)); (split; [etrans; [exact G|same]|intros id' Hne]);
      [apply (conn_set_ne (nlog _ st) id id')|apply (conn_set_ne st id id')]; done. }
  clearbody st1. destruct H1 as [F1 N1]. change (if close_req (conn st1 id) then _ else st1) with (if close_req (conn st1 id) then close_part st1 id else st1).
  destruct (close_req (conn st1 id)) eqn:Ec; [|done]. destruct (close_part_spec st1 id) as (F & Ne & G). split_and!.
  - etrans; [exact F1|]. apply (fewer_one _ _ id F Ne). by rewrite G.
  - intros id' Hne. by rewrite Ne, N1.
  - by rewrite G.
Qed.

Lemma requests_spec st : fewer st (net_apply_worker_requests st) /\
  (forall id, (id < 5)%nat -> conn_pcb (conn (net_apply_worker_requests st) id) = true -> close_req (conn (net_apply_worker_requests st) id) = false).
Proof.
  unfold net_apply_worker_requests. split; [apply fewer_fold, apply_request_spec|].
  assert (G : forall l st, NoDup l -> forall id, id ∈ l -> conn_pcb (conn (fold_left apply_request l st) id) = true ->
     close_req (conn (fold_left apply_request l st) id) = false).
  { clear st. intros l. induction l as [|a l IH]; intros st Hnd id Hin; [by apply elem_of_nil in Hin|]. cbn [fold_left].
    apply NoDup_cons in Hnd as [Ha Hnd]. destruct (Nat.eq_dec id a) as [->|Hne]; [|apply elem_of_cons in Hin as [|Hin]; [done|by apply IH]].
    assert (K : forall l st, a ∉ l -> conn (fold_left apply_request l st) a = conn st a).
    { clear. intros l. induction l as [|b l IH]; intros st Ha; [done|]. cbn [fold_left]. apply not_elem_of_cons in Ha as [Hb Ha].
      rewrite IH by done. by apply apply_request_spec. }
    rewrite K by done. apply apply_request_spec. }
  intros id Hid. apply G; [apply NoDup_seq|]. apply elem_of_seq. lia.
Qed.

(** ** The policies *)

Definition allowed (lan https : bool) (s : slot_t) : Prop := conn_usb s = true \/ (lan = true /\ (https = true -> is_plain s = false)).
Definition pol_ok (st : net_t) : Prop :=
  length (conns st) = 5%nat /\
  forall id, conn_pcb (conn st id) = true -> close_req (conn st id) = true \/ allowed (s_lan_up st) (s_https_only st) (conn st id).

Lemma fewer_pol st st' : fewer st st' -> pol_ok st -> pol_ok st'.
Proof.
  intros [(L & Hs & _ & _ & Len) F] [P0 P]. split; [congruence|]. intros id Hp. destruct (F id Hp) as (Hp0 & U & T & C).
  destruct (P id Hp0) as [Hc|Ha]; [left; auto|right]. unfold allowed, is_plain in *. by rewrite L, Hs, U, T.
Qed.

Section flags.
Variable p : slot_t -> bool.
Hypothesis p_same : forall s s', conn_usb s = conn_usb s' -> conn_tls s = conn_tls s' -> p s = p s'.

Lemma fewer_flag st id : fewer st (flag_if p st id).
Proof. unfold flag_if. destruct (_ && _); [|reflexivity]. apply fewer_set. by destruct (conn st id). Qed.

Lemma flagged l : forall st id, length (conns st) = 5%nat -> id ∈ l -> (id < 5)%nat ->
  conn_pcb (conn (fold_left (flag_if p) l st) id) = true -> p (conn (fold_left (flag_if p) l st) id) = true ->
  close_req (conn (fold_left (flag_if p) l st) id) = true.
Proof.
  induction l as [|a l IH]; intros st id Hl Hin Hid; [by apply elem_of_nil in Hin|]. cbn [fold_left].
  assert (Hl' : length (conns (flag_if p st a)) = 5%nat) by (destruct (fewer_flag st a) as [(_ & _ & _ & _ & E) _]; congruence).
  apply elem_of_cons in Hin as [<-|Hin]; [|by apply IH].
  intros Hp Hpp. destruct (fewer_fold (flag_if p) l fewer_flag (flag_if p st id)) as [_ F]. destruct (F id Hp) as (P1 & U1 & T1 & C1). apply C1.
  rewrite (p_same _ _ U1 T1) in Hpp. revert P1 Hpp. unfold flag_if.
  destruct (conn_pcb (conn st id) && p (conn st id)) eqn:E; [rewrite conn_set_eq by lia; done|].
  intros P1 Hpp. by rewrite P1, Hpp in E.
Qed.
End flags.

Lemma lan_access_spec st up : pol_ok st ->
  pol_ok (lan_access st up) /\ s_lan_up (lan_access st up) = up /\ s_https_only (lan_access st up) = s_https_only st /\
  s_lan_req (lan_access st up) = s_lan_req st /\ s_https_req (lan_access st up) = s_https_req st.
Proof.
  intros Hok. unfold lan_access. destruct (eqb_spec up (s_lan_up st)) as [->|Hne]; [done|]. destruct up.
  - destruct Hok as [Hl Hok]. split; [split; [done|]|done]. intros id Hp. destruct (Hok id Hp) as [Hc|[Hu|[_ Ht]]]; [by left|right; by left|].
    right. right. by split.
  - set (st1 := nlog NMdnsOff _). set (p := fun s => negb (conn_usb s)).
    assert (Ep : forall s, p s = negb (conn_usb s)) by done.
    destruct (fewer_fold (flag_if p) (seq 0 5) (fewer_flag p) st1) as [(L & Hs & Rl & Rh & Len) _]. destruct Hok as [Hl Hok]. split; [split|by split_and!].
    + rewrite Len. exact Hl.
    + intros id Hp. destruct (conn_usb (conn (fold_left (flag_if p) (seq 0 5) st1) id)) eqn:Hu; [right; by left|left].
      assert (Hid : (id < 5)%nat).
      { destruct (Nat.lt_ge_cases id 5) as [|Hg]; [done|]. unfold conn in Hp. rewrite nth_overflow in Hp by (rewrite Len; cbn; lia). done. }
      apply flagged; [|done|by apply elem_of_seq; lia|done|done|by rewrite Ep, Hu].
      by intros s s' U _; rewrite !Ep, U.
Qed.

Lemma https_only_spec st on : pol_ok st ->
  pol_ok (https_only_apply st on) /\ s_https_only (https_only_apply st on) = on /\ s_lan_up (https_only_apply st on) = s_lan_up st /\
  s_lan_req (https_only_apply st on) = s_lan_req st /\ s_https_req (https_only_apply st on) = s_https_req st.
Proof.
  intros Hok. unfold https_only_apply. destruct (eqb_spec on (s_https_only st)) as [->|Hne]; [done|]. destruct on.
  - set (st1 := {| st with s_https_only := true |}). set (p := fun s => negb (conn_usb s) && is_plain s).
    assert (Ep : forall s, p s = negb (conn_usb s) && is_plain s) by done.
    destruct (fewer_fold (flag_if p) (seq 0 5) (fewer_flag p) st1) as [(L & Hs & Rl & Rh & Len) F]. destruct Hok as [Hl Hok]. split; [split|by split_and!].
    + rewrite Len. exact Hl.
    + intros id Hp. destruct (F id Hp) as (Hp0 & U & T & C). change (conn st1 id) with (conn st id) in *.
      destruct (conn_usb (conn (fold_left (flag_if p) (seq 0 5) st1) id)) eqn:Hu; [right; by left|].
      destruct (Hok id Hp0) as [Hc|[Hu'|[HL Ht]]]; [left; auto|congruence|].
      destruct (is_plain (conn (fold_left (flag_if p) (seq 0 5) st1) id)) eqn:Hpl; [left|right; right; by rewrite L].
      assert (Hid : (id < 5)%nat).
      { destruct (Nat.lt_ge_cases id 5) as [|Hg]; [done|]. unfold conn in Hp. rewrite nth_overflow in Hp by (rewrite Len; cbn; lia). done. }
      apply flagged; [|done|by apply elem_of_seq; lia|done|done|by rewrite Ep, Hu, Hpl].
      by intros s s' U' T'; rewrite !Ep, U'; unfold is_plain; rewrite T'.
  - destruct Hok as [Hl Hok]. split; [split; [done|]|done]. intros id Hp. destruct (Hok id Hp) as [Hc|[Hu|[HL Ht]]]; [by left|right; by left|].
    right. right. done.
Qed.

(** The setting in force: the one asked for last. *)
Definition eff_lan (st : net_t) : bool := if s_lan_req st <? 0 then s_lan_up st else s_lan_req st =? 1.
Definition eff_https (st : net_t) : bool := if s_https_req st <? 0 then s_https_only st else s_https_req st =? 1.

Lemma lan_req_spec st : pol_ok st ->
  pol_ok (apply_lan_req st) /\ s_lan_up (apply_lan_req st) = eff_lan st /\ s_lan_req (apply_lan_req st) < 0 /\
  s_https_only (apply_lan_req st) = s_https_only st /\ s_https_req (apply_lan_req st) = s_https_req st.
Proof.
  intros Hok. unfold apply_lan_req, eff_lan. destruct (Z.ltb_spec (s_lan_req st) 0); [done|].
  destruct (lan_access_spec {| st with s_lan_req := -1 |} (s_lan_req st =? 1) Hok) as (P & U & Hh & R & Rh). split_and!; try done. by rewrite R.
Qed.

Lemma https_req_spec st : pol_ok st ->
  pol_ok (apply_https_req st) /\ s_https_only (apply_https_req st) = eff_https st /\ s_https_req (apply_https_req st) < 0 /\
  s_lan_up (apply_https_req st) = s_lan_up st /\ s_lan_req (apply_https_req st) = s_lan_req st.
Proof.
  intros Hok. unfold apply_https_req, eff_https. destruct (Z.ltb_spec (s_https_req st) 0); [done|].
  destruct (https_only_spec {| st with s_https_req := -1 |} (s_https_req st =? 1) Hok) as (P & U & Hh & R & Rh). split_and!; try done. by rewrite Rh.
Qed.

Lemma fewer_sync st opened : fewer st (tls_listener_sync st opened).
Proof.
  unfold tls_listener_sync. cbv zeta. destruct (_ && _); [same|]. unfold unref_opt.
  destruct (s_tls_listen st), (cfg_addr st) as [a|] eqn:Ea, (s_tls_listen_cfg st) eqn:El, opened; same.
Qed.

Lemma fewer_reply st now : fewer st (net_frame_cloud_reply altcp_write_err get_rand st now).
Proof. unfold net_frame_cloud_reply. destruct (hw_worker_take_cloud_reply _ _) as [w [[r rep]|]]; same. Qed.

Lemma fewer_reload st i : fewer st (net_apply_reload st i).
Proof.
  unfold net_apply_reload. destruct (negb _); [reflexivity|]. destruct (net_reload_take _ _ _) as [r what]. cbv zeta.
  destruct (has_bit what NET_RELOAD_CLOUD), (has_bit what NET_RELOAD_WIFI); same.
Qed.

Lemma fewer_allowed st st' : fewer st st' ->
  (forall id, conn_pcb (conn st id) = true -> allowed (s_lan_up st) (s_https_only st) (conn st id)) ->
  (forall id, conn_pcb (conn st' id) = true -> allowed (s_lan_up st') (s_https_only st') (conn st' id)).
Proof.
  intros [(L & Hs & _) F] P id Hp. destruct (F id Hp) as (Hp0 & U & T & C). pose proof (P id Hp0) as Ha.
  unfold allowed, is_plain in *. by rewrite L, Hs, U, T.
Qed.

Lemma pcb_range st id : length (conns st) = 5%nat -> conn_pcb (conn st id) = true -> (id < 5)%nat.
Proof. intros Hl Hp. destruct (Nat.lt_ge_cases id 5) as [|Hg]; [done|]. unfold conn in Hp. rewrite nth_overflow in Hp by lia. done. Qed.

Lemma requests_allowed st : pol_ok st -> forall id, let st' := net_apply_worker_requests st in
  conn_pcb (conn st' id) = true -> allowed (s_lan_up st') (s_https_only st') (conn st' id).
Proof.
  intros Hok id st' Hp. unfold st' in *. destruct (requests_spec st) as [F C]. pose proof (fewer_pol _ _ F Hok) as [Hl P].
  pose proof (C id (pcb_range _ _ Hl Hp) Hp) as Hc. destruct (P id Hp) as [E|]; [congruence|done].
Qed.

(** The poll up to the requests, and after them. *)
Definition poll_policies (st : net_t) (i : net_in) : net_t :=
  apply_https_req (apply_lan_req (net_tx_drain altcp_write_err get_rand sndbuf tcp_write_ok
    (set_cloud (cloud_client_poll altcp_write_err get_rand sign_ctx (cloud st) (n_poll i)) st))).
Definition poll_certs (st : net_t) (i : net_in) : net_t :=
  let st := if s_tls_listen_gen st =? lan_tls_generation (tls st) then st else tls_listener_sync st (n_opened i) in
  set_tls (lan_tls_collect (tls st)) st.
Definition poll_rest (st : net_t) (i : net_in) : net_t :=
  net_apply_reload (net_frame_cloud_reply altcp_write_err get_rand st (i_now (n_poll i))) i.

Lemma poll_parts st i : net_poll st i = poll_rest (net_apply_worker_requests (poll_certs (poll_policies st i) i)) i.
Proof. unfold NetServer.net_poll, poll_rest, poll_certs, poll_policies. cbv zeta. reflexivity. Qed.

Lemma fewer_certs st i : fewer st (poll_certs st i).
Proof.
  unfold poll_certs. destruct (_ =? _); [same|]. etrans; [apply (fewer_sync st (n_opened i))|same].
Qed.

Lemma fewer_rest st i : fewer st (poll_rest st i).
Proof. unfold poll_rest. etrans; [apply fewer_reply|apply fewer_reload]. Qed.

Lemma poll_policies_spec st i : pol_ok st -> let st' := poll_policies st i in
  pol_ok st' /\ s_lan_up st' = eff_lan st /\ s_https_only st' = eff_https st /\ s_lan_req st' < 0 /\ s_https_req st' < 0.
Proof.
  intros Hok. cbv zeta. unfold poll_policies. set (st1 := set_cloud _ st).
  assert (F : fewer st (net_tx_drain altcp_write_err get_rand sndbuf tcp_write_ok st1)) by (etrans; [|apply fewer_drain]; same).
  revert F. generalize (net_tx_drain altcp_write_err get_rand sndbuf tcp_write_ok st1). clear st1. intros st2 F.
  pose proof (fewer_pol _ _ F Hok) as Hok2. destruct F as [(L & Hs & Rl & Rh & _) _].
  destruct (lan_req_spec st2 Hok2) as (P3 & U3 & R3 & H3 & Q3). destruct (https_req_spec _ P3) as (P4 & U4 & R4 & H4 & Q4).
  split_and!; [done| | |by rewrite Q4|done].
  - rewrite H4, U3. unfold eff_lan. by rewrite Rl, L.
  - rewrite U4. unfold eff_https. by rewrite H3, Q3, Rh, Hs.
Qed.

Lemma poll_spec st i : pol_ok st -> let st' := net_poll st i in
  pol_ok st' /\ s_lan_up st' = eff_lan st /\ s_https_only st' = eff_https st /\ s_lan_req st' < 0 /\ s_https_req st' < 0 /\
  (forall id, conn_pcb (conn st' id) = true -> allowed (eff_lan st) (eff_https st) (conn st' id)).
Proof.
  intros Hok. cbv zeta. rewrite poll_parts. destruct (poll_policies_spec st i Hok) as (P1 & L1 & H1 & R1 & Q1).
  revert P1 L1 H1 R1 Q1. generalize (poll_policies st i). intros st1 P1 L1 H1 R1 Q1.
  pose proof (fewer_certs st1 i) as F2. pose proof (fewer_pol _ _ F2 P1) as P2. revert F2 P2. generalize (poll_certs st1 i). intros st2 F2 P2.
  pose proof (requests_allowed st2 P2) as A3. destruct (requests_spec st2) as [F3 _]. pose proof (fewer_pol _ _ F3 P2) as P3.
  revert A3 F3 P3. cbv zeta. generalize (net_apply_worker_requests st2). intros st3 A3 F3 P3.
  pose proof (fewer_rest st3 i) as F4. pose proof (fewer_allowed _ _ F4 A3) as A4. pose proof (fewer_pol _ _ F4 P3) as P4.
  assert (F : fewer st1 (poll_rest st3 i)) by (do 2 (etrans; [eassumption|]); done).
  destruct F as [(L & Hs & Rl & Rh & _) _]. rewrite L, Hs, L1, H1 in A4. rewrite L, Hs, Rl, Rh. by split_and!.
Qed.

(** ** Every step *)

Definition lan_setting (on : bool) (o : nop) : bool := match o with NLanPolicy off => negb off | _ => on end.
Definition https_setting (on : bool) (o : nop) : bool := match o with NHttpsPolicy on => on | _ => on end.
Definition settings (st : net_t) : bool * bool := (eff_lan st, eff_https st).
Definition set_setting (x : bool * bool) (o : nop) : bool * bool := (lan_setting (fst x) o, https_setting (snd x) o).
Definition quiet_step (st : net_t) (o : nop) : Prop := settings (nstep st o) = set_setting (settings st) o.

Lemma fewer_settings st st' : fewer st st' -> settings st' = settings st.
Proof. intros [(L & Hs & Rl & Rh & _) _]. unfold settings, eff_lan, eff_https. by rewrite L, Hs, Rl, Rh. Qed.

Lemma fewer_recv st id p err others : fewer st (fst (srv_recv st id p err others)).
Proof.
  unfold srv_recv. destruct p as [data|].
  - destruct (negb _); [reflexivity|]. destruct (negb _); [apply fewer_set; by destruct (conn st id)|].
    destruct (submit_segs _ _ _ _ _ _) as [w ok]. destruct ok; cbn [fst]; [same|].
    etrans; [|etrans; [apply fewer_detach|same]]. same.
  - cbn [fst]. etrans; [|etrans; [apply fewer_detach|same]]. same.
Qed.

Lemma fewer_err st id : fewer st (srv_err st id).
Proof. unfold srv_err. etrans; [|apply fewer_detach]. same. Qed.

Lemma pol_set st id s : pol_ok st ->
  (conn_pcb s = true -> close_req s = true \/ allowed (s_lan_up st) (s_https_only st) s) -> pol_ok (set_conn id s st).
Proof.
  intros [Hl P] Hs. split; [by rewrite conns_set|]. intros id' Hp.
  destruct (Nat.eq_dec id id') as [<-|Hne]; [|rewrite conn_set_ne in * by done; by apply P].
  assert (Hid : (id < length (conns st))%nat) by (rewrite Hl; apply (pcb_range (set_conn id s st)); [by rewrite conns_set|done]).
  rewrite conn_set_eq in * by done. by apply Hs.
Qed.

Lemma new_allowed lan https arg usb r n :
  negb usb && negb lan = false -> negb (match arg with Some _ => true | None => false end) && negb usb && https = false ->
  allowed lan https (Slot true arg r usb false n).
Proof. intros H1 H2. unfold allowed, is_plain. cbn. destruct usb; [by left|]. destruct lan; [|done]. right. split; [done|]. intros ->. by destruct arg. Qed.

Lemma accept_spec st arg good usb heap : pol_ok st ->
  pol_ok (fst (srv_accept st arg good usb heap)) /\ settings (fst (srv_accept st arg good usb heap)) = settings st.
Proof.
  intros Hok. unfold srv_accept. destruct (negb good); [done|]. destruct (free_id st) as [id|]; [|done]. cbv zeta.
  destruct (negb usb && negb (s_lan_up st)) eqn:E1; [done|]. destruct (_ && s_https_only st) eqn:E2; [done|]. destruct (_ && (_ || _)); [done|]. cbn [fst].
  match goal with |- context [set_conn id ?s ?x] => assert (G : pol_ok (set_conn id s x)) by
    (apply pol_set; [exact Hok|]; intros _; right; by apply new_allowed);
    assert (G2 : settings (set_conn id s x) = settings st) by reflexivity; revert G G2; generalize (set_conn id s x) end.
  intros st' G G2. by destruct arg.
Qed.

Lemma step_spec st o : pol_ok st -> pol_ok (nstep st o) /\ quiet_step st o.
Proof.
  intros Hok. unfold quiet_step.
  assert (Q : forall st', fewer st st' -> pol_ok st' /\ settings st' = (fst (settings st), snd (settings st)))
    by (intros st' F; split; [by apply (fewer_pol st)|by rewrite (fewer_settings _ _ F)]).
  destruct o as [i|on_tls good usb heap|id p err others|id|o|c buf|c|c on|off|on|j|what now|now]; cbn [NetServer.nstep]; unfold set_setting; cbn [lan_setting https_setting].
  - destruct (poll_spec st i Hok) as (P & L & Hs & R & Rh & _). split; [exact P|]. unfold settings at 1, eff_lan at 1, eff_https at 1.
    rewrite (proj2 (Z.ltb_lt _ _) R), (proj2 (Z.ltb_lt _ _) Rh), L, Hs. reflexivity.
  - destruct on_tls; [destruct (s_tls_listen st); [|apply Q; reflexivity]|]; destruct (accept_spec st (s_tls_listen_cfg st) good usb heap Hok), (accept_spec st None good usb heap Hok); done.
  - destruct (here st id); [apply Q, fewer_recv|apply Q; reflexivity].
  - destruct (here st id); [apply Q, fewer_err|apply Q; reflexivity].
  - apply Q. same.
  - unfold at_send_data. destruct (_ =? _); [apply Q; same|]. destruct (_ <=? _); [|apply Q; reflexivity].
    destruct (conn_tx_write _ _ _) as [rs n]. apply Q. same.
  - unfold at_close_connection. destruct (is_conn c); cbv zeta; cbn [fst]; [|apply Q; reflexivity]. apply Q, fewer_set. by destruct (conn st (Z.to_nat c)).
  - unfold at_set_tcp_nodelay. destruct (is_conn c); cbv zeta; cbn [fst]; [|apply Q; reflexivity]. apply Q, fewer_set. by destruct (conn st (Z.to_nat c)).
  - split; [exact Hok|]. by destruct off.
  - split; [exact Hok|]. by destruct on.
  - apply Q. same.
  - apply Q. same.
  - apply Q. same.
Qed.

Lemma run_spec ops : forall st, pol_ok st -> pol_ok (nrun st ops) /\ settings (nrun st ops) = fold_left set_setting ops (settings st).
Proof.
  induction ops as [|o ops IH]; intros st Hok; [done|]. destruct (step_spec st o Hok) as [Hok' Q].
  destruct (IH _ Hok') as [P E]. split; [exact P|]. cbn [fold_left]. by rewrite <- Q.
Qed.

Lemma start_spec t c lan_off https_only opened : pol_ok (net_start t c lan_off https_only opened) /\
  settings (net_start t c lan_off https_only opened) = (negb lan_off, https_only).
Proof.
  unfold net_start. set (st0 := Net _ _ _ _ _ _ _ _ _ _ _ _ _ _).
  assert (P0 : pol_ok st0) by (split; [done|]; intros id Hp; exfalso; do 5 (destruct id as [|id]; [done|]); destruct id; done).
  pose proof (fewer_sync st0 opened) as F. pose proof (fewer_pol _ _ F P0) as P1. pose proof (fewer_settings _ _ F) as S1.
  destruct F as [(L1 & H1 & R1 & Q1 & _) _]. cbv zeta. revert P1 S1 L1 H1 R1 Q1. generalize (tls_listener_sync st0 opened). intros st1 P1 S1 L1 H1 R1 Q1.
  destruct lan_off; [split; [done|by rewrite S1]|]. destruct (lan_access_spec st1 true P1) as (P2 & U2 & H2 & R2 & Q2).
  split; [done|]. unfold settings, eff_lan, eff_https. rewrite U2, H2, R2, Q2, R1, Q1, H1. reflexivity.
Qed.

(** C21: However accepts, received bytes, closes, settings changes and polls of all
    tasks interleave, after each poll of the net task every connection that is open
    came in on the USB adapter or is allowed by the settings asked for last: the LAN
    policy is on and, under HTTPS-only, the connection is TLS. *)
Theorem policy_enforced (t : tls_t D) (c : cl_t) (lan_off https_only opened : bool) (ops : list nop) (i : net_in) (id : nat) :
  let st := net_poll (nrun (net_start t c lan_off https_only opened) ops) i in
  conn_pcb (conn st id) = true ->
  allowed (fold_left lan_setting ops (negb lan_off)) (fold_left https_setting ops https_only) (conn st id).
Proof.
  intros st Hp. destruct (start_spec t c lan_off https_only opened) as [P0 S0]. destruct (run_spec ops _ P0) as [P1 S1].
  destruct (poll_spec _ i P1) as (_ & _ & _ & _ & _ & A). pose proof (A id Hp) as Ha. rewrite S0 in S1.
  assert (E : fold_left set_setting ops (negb lan_off, https_only) = (fold_left lan_setting ops (negb lan_off), fold_left https_setting ops https_only)).
  { clear. generalize (negb lan_off) as a, https_only as b. induction ops as [|o ops IH]; intros a b; [done|]. cbn [fold_left]. apply IH. }
  rewrite E in S1. unfold settings in S1. injection S1 as E1 E2. by rewrite E1, E2 in Ha.
Qed.
End net.

(** A pod with no cloud and no certificate. *)
Definition quiet_poll (now : Z) : net_in := NetIn (login_poll now) true (OtaView OTA_IDLE 0 0 [] 0) false false None.
Definition check_none (key cert : list Z) : option cstr := None.
Definition room (n : nat) : Z := 1000.
Definition writes (n : nat) : bool := true.
Definition quiet_start : net_t pod_flash := net_start (tls_boot pod_blank) (started None) false false true.

(** A client from the LAN, one from USB, and the LAN policy is turned off. *)
Definition lan_off_ops : list nop := [NAccept false true false 100000; NAccept false true true 100000; NPoll (quiet_poll 1); NLanPolicy true].

Lemma policy_enforced_witness :
  let before := nrun check_none net_ok rand_7 sig_1 room writes quiet_start lan_off_ops in
  let st := net_poll net_ok rand_7 sig_1 room writes before (quiet_poll 2) in
  map conn_pcb (conns before) = [true; true; false; false; false] /\ map conn_pcb (conns st) = [false; true; false; false; false] /\
  allowed false false (conn st 1).
Proof.
  cbv zeta. split; [by vm_compute|]. split; [by vm_compute|].
  apply (policy_enforced check_none net_ok rand_7 sig_1 room writes (tls_boot pod_blank) (started None) false false true lan_off_ops (quiet_poll 2) 1). by vm_compute.
Defined.
