(* ===== verification/NetCerts.v ===== *)
(** * When a TLS configuration is freed

    The reference counts of [lan_tls.c] against the connections and the listener
    of [net_server.c] that hold them. *)

From S2P Require Import Prelude Flash ConfigStore Json CmdTable CmdGate StoreTheorems Ota Worker ConnTx ReplyCap CloudClient CloudTheorems LanTls LanTlsTheorems NetUtil NetServer NetTheorems.

Section certs.
Context `{FlashDev D}.
Variable check_pair : list Z -> list Z -> option cstr.
Abbreviation tls_t := (tls_t D).
Implicit Types (t : tls_t).

(** ** Reference counts *)

Definition addr_of (s : cfg_slot_t) : option Z := tc_addr <$> cfg s.
Definition live (t : tls_t) : list cfg_slot_t := s_cur t :: s_retired t.
Definition addrs (l : list cfg_slot_t) : list Z := omap addr_of l.
Definition counted (h : list Z) (s : cfg_slot_t) : Prop :=
  match addr_of s with Some a => refs s = Z.of_nat (count_occ Z.eq_dec h a) | None => True end.

(** Each live configuration is in one place and counts its holders. *)
Definition refs_ok (t : tls_t) (h : list Z) : Prop := NoDup (addrs (live t)) /\ Forall (counted h) (live t).

Lemma is_cfg_addr s a : is_cfg s a = true <-> addr_of s = Some a.
Proof. unfold is_cfg, addr_of. destruct (cfg s); cbn; [|done]. rewrite Z.eqb_eq. split; [by intros ->|by intros [= ->]]. Qed.

Lemma addrs_in l a : a ∈ addrs l <-> exists s, s ∈ l /\ addr_of s = Some a.
Proof. apply list_elem_of_omap. Qed.

Definition bump (a : Z) (f : Z -> Z) (s : cfg_slot_t) : cfg_slot_t := if is_cfg s a then CfgSlot (cfg s) (f (refs s)) else s.

Lemma bump_none a f l : a ∉ addrs l -> map (bump a f) l = l.
Proof.
  intros Hn. rewrite <- (map_id l) at 2. apply map_ext_in. intros s Hs. unfold bump. destruct (is_cfg s a) eqn:E; [|done].
  apply is_cfg_addr in E. destruct Hn. apply addrs_in. exists s. split; [by apply list_elem_of_In|done].
Qed.

Lemma addrs_cons s l : addrs (s :: l) = match addr_of s with Some a => [a] | None => [] end ++ addrs l.
Proof. unfold addrs. cbn. by destruct (addr_of s). Qed.

Lemma on_retired_bump a f l : NoDup (addrs l) -> on_retired a f l = map (bump a f) l.
Proof.
  induction l as [|s l IH]; intros Hnd; [done|]. cbn [on_retired map]. unfold bump at 1. rewrite addrs_cons in Hnd. destruct (is_cfg s a) eqn:E.
  - f_equal. apply is_cfg_addr in E. rewrite E in Hnd. apply NoDup_cons in Hnd as [Hn _]. by rewrite bump_none.
  - f_equal. apply IH. by apply NoDup_app in Hnd as (_ & _ & ?).
Qed.

Lemma on_cfg_live t a f : NoDup (addrs (live t)) -> live (on_cfg t a f) = map (bump a f) (live t).
Proof.
  intros Hnd. unfold live, on_cfg in *. cbn [map]. unfold bump at 1. rewrite addrs_cons in Hnd. destruct (is_cfg (s_cur t) a) eqn:E; cbn [s_cur s_retired]; f_equal.
  - apply is_cfg_addr in E. rewrite E in Hnd. apply NoDup_cons in Hnd as [Hn _]. by rewrite bump_none.
  - apply on_retired_bump. by apply NoDup_app in Hnd as (_ & _ & ?).
Qed.

Lemma addrs_bump a f l : addrs (map (bump a f) l) = addrs l.
Proof. induction l as [|s l IH]; [done|]. cbn [map]. rewrite !addrs_cons, IH. f_equal. unfold bump. by destruct (is_cfg s a). Qed.

(** The holders change by the one address whose count changes. *)
Lemma on_cfg_ok t h h' a f : refs_ok t h ->
  (forall b, b <> a -> count_occ Z.eq_dec h' b = count_occ Z.eq_dec h b) ->
  f (Z.of_nat (count_occ Z.eq_dec h a)) = Z.of_nat (count_occ Z.eq_dec h' a) ->
  refs_ok (on_cfg t a f) h'.
Proof.
  intros [Hnd Hc] Hne Ha. unfold refs_ok. rewrite on_cfg_live, addrs_bump by done. split; [done|]. apply Forall_map. apply (Forall_impl _ _ _ Hc).
  intros s Hs. unfold counted, bump in *. destruct (is_cfg s a) eqn:E.
  - apply is_cfg_addr in E. change (addr_of (CfgSlot (cfg s) (f (refs s)))) with (addr_of s). rewrite E in *. cbn [refs]. by rewrite Hs.
  - destruct (addr_of s) as [b|] eqn:Eb; [|done]. rewrite Hs, Hne; [done|]. intros ->. apply is_cfg_addr in Eb. congruence.
Qed.

Lemma ref_ok t h a : refs_ok t h -> refs_ok (lan_tls_ref t a) (a :: h).
Proof.
  intros Hok. eapply on_cfg_ok; [exact Hok| |].
  - intros b Hb. by rewrite count_occ_cons_neq by congruence.
  - rewrite count_occ_cons_eq by done. lia.
Qed.

Lemma unref_ok t h a : refs_ok t (a :: h) -> refs_ok (lan_tls_unref t a) h.
Proof.
  intros Hok. eapply on_cfg_ok; [exact Hok| |].
  - intros b Hb. by rewrite count_occ_cons_neq by congruence.
  - rewrite count_occ_cons_eq by done. cbn beta. destruct (Z.ltb_spec 0 (Z.of_nat (S (count_occ Z.eq_dec h a)))); lia.
Qed.

Lemma refs_ok_perm t h h' : Permutation h h' -> refs_ok t h -> refs_ok t h'.
Proof.
  intros E [Hnd Hc]. split; [done|]. apply (Forall_impl _ _ _ Hc). intros s. unfold counted. destruct (addr_of s) as [a|]; [|done].
  by rewrite (proj1 (Permutation_count_occ Z.eq_dec h h') E a).
Qed.

(** ** The other changes of the slots *)

Definition new_freed (t t' : tls_t) (h : list Z) : Prop := exists new, freed t' = freed t ++ new /\ Forall (fun a => a ∉ h) new.

Lemma addrs_filter (keep : cfg_slot_t -> bool) l :
  addrs (map (fun s => if keep s then CfgSlot None (refs s) else s) l) `sublist_of` addrs l.
Proof.
  induction l as [|s l IH]; [done|]. cbn [map]. rewrite !addrs_cons. destruct (keep s).
  - cbn. destruct (addr_of s); [by apply sublist_cons|done].
  - by apply sublist_app.
Qed.

Lemma collect_ok t h : refs_ok t h -> refs_ok (lan_tls_collect t) h /\ new_freed t (lan_tls_collect t) h.
Proof.
  intros [Hnd Hc]. split; [split|].
  - unfold live, lan_tls_collect. cbn [s_cur s_retired]. eapply sublist_NoDup; [exact Hnd|]. unfold live. rewrite !addrs_cons.
    apply sublist_app; [done|]. by apply addrs_filter.
  - unfold live, lan_tls_collect in *. cbn [s_cur s_retired]. inversion Hc as [|? ? H1 H2]; subst. constructor; [done|].
    apply Forall_map. apply (Forall_impl _ _ _ H2). intros s Hs. by destruct (collectable s).
  - unfold new_freed, lan_tls_collect. cbn [freed]. eexists. split; [reflexivity|]. apply Forall_concat, Forall_map.
    inversion Hc as [|? ? _ H2]; subst. apply (Forall_impl _ _ _ H2). intros s Hs. unfold counted, addr_of, collectable in *.
    destruct (cfg s) as [c|]; [|constructor]. cbn in Hs. rewrite Hs. destruct (Z.eqb_spec (Z.of_nat (count_occ Z.eq_dec h (tc_addr c))) 0) as [E|]; [|constructor].
    constructor; [|constructor]. intros Hin%list_elem_of_In. apply (count_occ_In Z.eq_dec) in Hin. lia.
Qed.

Lemma addrs_insert l k s : addrs (<[k := s]> l) ⊆+ addrs (s :: l).
Proof.
  destruct (Nat.lt_ge_cases k (length l)) as [Hk|Hk].
  - apply lookup_lt_is_Some in Hk as [x Hx]. rewrite insert_take_drop by (by apply lookup_lt_is_Some; eauto).
    rewrite <- (take_drop_middle l k x Hx) at 3. unfold addrs. change (s :: take k l ++ x :: drop (S k) l) with ([s] ++ take k l ++ x :: drop (S k) l).
    rewrite !omap_app. cbn [omap list_omap]. set (A := omap addr_of (take k l)). set (B := omap addr_of (drop (S k) l)).
    destruct (addr_of s) as [a|], (addr_of x) as [b|]; cbn.
    + rewrite <- Permutation_middle. apply submseteq_skip, submseteq_app; [done|]. by apply submseteq_cons.
    + by rewrite <- Permutation_middle.
    + apply submseteq_app; [done|]. by apply submseteq_cons.
    + done.
  - rewrite list_insert_ge by lia. rewrite addrs_cons. apply submseteq_inserts_l. done.
Qed.

Lemma swap_ok t h c : refs_ok t h -> tc_addr c ∉ h -> tc_addr c ∉ addrs (live t) -> refs_ok (cfg_swap t c) h.
Proof.
  intros [Hnd Hc] Hh Ha. unfold refs_ok, live, cfg_swap in *. cbn [s_cur s_retired]. inversion Hc as [|? ? H1 H2]; subst.
  assert (E0 : counted h (CfgSlot (Some c) 0)).
  { unfold counted, addr_of. cbn. destruct (count_occ Z.eq_dec h (tc_addr c)) eqn:E; [done|]. destruct Hh. apply list_elem_of_In, (count_occ_In Z.eq_dec). lia. }
  destruct (cfg (s_cur t)) as [c0|] eqn:Ecur.
  - split.
    + rewrite addrs_cons. cbn. apply NoDup_cons. split.
      * intros Hin. apply Ha. eapply elem_of_submseteq; [exact Hin|apply addrs_insert].
      * destruct (submseteq_Permutation _ _ (addrs_insert (s_retired t) (default 0%nat (free_retired (s_retired t))) (s_cur t))) as [k Ek].
        rewrite Ek in Hnd. by apply NoDup_app in Hnd as [? _].
    + constructor; [done|]. apply Forall_insert; done.
  - split; [|by constructor]. rewrite addrs_cons in *. cbn. unfold addr_of in Hnd, Ha at 1. rewrite Ecur in Hnd, Ha. by apply NoDup_cons.
Qed.

(** ** The jobs *)

(** A job replaces the configuration by the one created for it, or none. *)
Definition job_result (t t' : tls_t) (a : option Z) : Prop :=
  freed t' = freed t /\
  (live t' = live t \/ exists c d, a = Some (tc_addr c) /\ live t' = live (cfg_swap (Tls d (s_cur t) (s_retired t) (s_gen t) (s_info t) (freed t)) c)).

Lemma job_same t d g i a : job_result t (Tls d (s_cur t) (s_retired t) g i (freed t)) a.
Proof. split; [done|]. by left. Qed.

Lemma apply_job t d rec a : job_result t (fst (apply_record check_pair (Tls d (s_cur t) (s_retired t) (s_gen t) (s_info t) (freed t)) rec a)) a.
Proof.
  unfold apply_record. destruct (rec_parse rec) as [[[o key] cert]|]; [|apply job_same]. destruct (check_pair key cert); [apply job_same|].
  destruct a as [a|]; [|apply job_same]. split; [done|]. right. by exists (TlsConfig a key cert), d.
Qed.

Lemma store_job t rec a : job_result t (fst (store_and_apply check_pair t rec a)) a.
Proof. unfold store_and_apply. destruct (ab_store_save _ _ _) as [d rc]. cbv zeta. destruct (negb (rc =? 0)); [apply job_same|apply apply_job]. Qed.

Lemma job_refl t a : job_result t t a.
Proof. split; [done|]. by left. Qed.

Definition job_cfg (j : cert_job) : option Z := match j with Regenerate e | Install _ e => e_cfg e end.

Lemma cert_job_result t j : job_result t (run_cert_job check_pair t j) (job_cfg j).
Proof.
  destruct j as [e|pem e]; cbn [run_cert_job job_cfg].
  - unfold regenerate_here. destruct (negb _); [apply job_refl|]. destruct (_ ≫= _); [apply store_job|apply job_refl].
  - unfold install_job. destruct (negb (e_mem e)); [apply job_refl|]. destruct (lan_tls_pem_split _ _ _) as [[key cert]|]; [|apply job_refl].
    destruct (check_pair key cert); [apply job_refl|]. cbn [negb]. destruct (rec_build _ _ _); [apply store_job|apply job_refl].
Qed.

Lemma job_ok t t' h a : refs_ok t h -> job_result t t' a -> (forall x, a = Some x -> (x ∉ h) /\ x ∉ addrs (live t)) ->
  refs_ok t' h /\ freed t' = freed t.
Proof.
  intros Hok [Ef [E|(c & d & -> & E)]] Hfresh; split; try done; unfold refs_ok; rewrite E; [done|].
  destruct (Hfresh _ eq_refl). by apply swap_ok.
Qed.

(** The configuration of a boot. *)
Lemma boot_refs_ok d e e2 : refs_ok (lan_tls_init check_pair (tls_boot d) e e2) [] /\ freed (lan_tls_init check_pair (tls_boot d) e e2) = [].
Proof.
  assert (Hb : forall d' g i, refs_ok (Tls d' no_cfg (replicate RETIRED_MAX no_cfg) g i []) []) by (split; [by vm_compute; constructor|by repeat constructor]).
  assert (Hf : forall (c : option Z) x, c = Some x -> (x ∉ ([] : list Z)) /\ x ∉ addrs (live (tls_boot d))) by (intros; split; set_solver).
  assert (HR : let t' := fst (regenerate_here check_pair (tls_boot d) e2) in refs_ok t' [] /\ freed t' = []).
  { cbv zeta. pose proof (cert_job_result (tls_boot d) (Regenerate e2)) as J. apply (job_ok _ _ [] _ (Hb _ _ _) J (Hf _)). }
  assert (HA : forall rec, let r := apply_record check_pair (tls_boot d) rec (e_cfg e) in
    match snd r with None => refs_ok (fst r) [] /\ freed (fst r) = [] | Some _ => fst r = tls_boot d end).
  { intros rec r. pose proof (apply_job (tls_boot d) d rec (e_cfg e)) as J. change (Tls d _ _ _ _ _) with (tls_boot d) in J.
    destruct (job_ok _ _ [] _ (Hb _ _ _) J (Hf _)) as [R F]. fold r in R, F. destruct (snd r) eqn:Es; [|by split]. revert Es. unfold r, apply_record.
    destruct (rec_parse rec) as [[[o key] cert]|]; [|done]. destruct (check_pair key cert); [done|]. by destruct (e_cfg e). }
  assert (HE : let '(st, why) := regenerate_here check_pair (tls_boot d) e2 in
    let t' := match why with None => st | Some w => publish_error st w end in refs_ok t' [] /\ freed t' = []).
  { cbv zeta in HR. destruct (regenerate_here check_pair (tls_boot d) e2) as [st [w|]]; exact HR. }
  unfold lan_tls_init. destruct (negb (e_mem e)); [by destruct (regenerate_here check_pair (tls_boot d) e2)|].
  destruct (ab_store_load_var _ _ _) as [rec|]; [|by destruct (regenerate_here check_pair (tls_boot d) e2)].
  specialize (HA rec). cbv zeta in HA. destruct (apply_record _ _ rec _) as [st [w|]]; cbn [fst snd] in HA; [|exact HA].
  rewrite HA. by destruct (regenerate_here check_pair (tls_boot d) e2).
Qed.
End certs.

(** ** Holders *)

Section holders.
Context `{FlashDev D}.
Variable check_pair : list Z -> list Z -> option cstr.
Variable altcp_write_err : nat -> Z.
Variable get_rand : nat -> list Z.
Variable sign_ctx : cstr -> list Z -> option (list Z).
Variable sndbuf : nat -> Z.
Variable tcp_write_ok : nat -> bool.
Abbreviation net_poll := (net_poll altcp_write_err get_rand sign_ctx sndbuf tcp_write_ok).
Abbreviation nstep := (nstep check_pair altcp_write_err get_rand sign_ctx sndbuf tcp_write_ok).
Abbreviation nrun := (nrun check_pair altcp_write_err get_rand sign_ctx sndbuf tcp_write_ok).
Abbreviation net_t := (net_t D).
Implicit Types (st : net_t) (s : slot_t).

(** The configurations the connections use, and with the listener's. *)
Definition conn_held (st : net_t) : list Z := omap id (map conn_tls (conns st)).
Definition held (st : net_t) : list Z := option_list (s_tls_listen_cfg st) ++ conn_held st.

Definition cert_ok (st : net_t) : Prop :=
  length (conns st) = 5%nat /\ (forall id, conn_pcb (conn st id) = false -> conn_tls (conn st id) = None) /\ refs_ok (tls st) (held st).

(** Nothing a certificate depends on changed. *)
Definition key (s : slot_t) : bool * option Z := (conn_pcb s, conn_tls s).
Definition same_certs (st st' : net_t) : Prop :=
  map key (conns st') = map key (conns st) /\ tls st' = tls st /\ s_tls_listen_cfg st' = s_tls_listen_cfg st.
#[local] Instance same_certs_refl : Reflexive same_certs.
Proof. by intros st. Qed.
#[local] Instance same_certs_trans : Transitive same_certs.
Proof. intros a b c (?&?&?) (?&?&?). unfold same_certs. split_and!; congruence. Qed.
#[local] Ltac keep := split; [reflexivity|split; reflexivity].

Lemma key_conn st st' id : map key (conns st') = map key (conns st) -> key (conn st' id) = key (conn st id).
Proof. intros E. unfold conn. by rewrite <- !(map_nth key), E. Qed.

Lemma same_conn_held st st' : map key (conns st') = map key (conns st) -> conn_held st' = conn_held st.
Proof.
  intros E. unfold conn_held. f_equal. transitivity (map snd (map key (conns st'))); [by rewrite map_map|]. rewrite E. by rewrite map_map.
Qed.

Lemma same_cert_ok st st' : same_certs st st' -> cert_ok st -> cert_ok st'.
Proof.
  intros (E & Et & El) (Hl & Hn & Hr). split_and!.
  - rewrite <- Hl, <- (length_map key (conns st)), <- E. by rewrite length_map.
  - intros i. pose proof (key_conn _ _ i E) as Ek. unfold key in Ek. injection Ek as -> ->. apply Hn.
  - unfold held. by rewrite Et, El, (same_conn_held _ _ E).
Qed.

Lemma same_set st id s : key s = key (conn st id) -> same_certs st (set_conn id s st).
Proof.
  intros E. split_and!; try done. unfold set_conn, set_conns. cbn [conns]. destruct (Nat.lt_ge_cases id (length (conns st))) as [Hl|Hg].
  - change (key <$> <[id:=s]> (conns st) = key <$> conns st). rewrite list_fmap_insert. apply list_insert_id. rewrite list_lookup_fmap.
    apply lookup_lt_is_Some in Hl as [x Hx]. rewrite Hx. cbn. f_equal. rewrite E. unfold conn. by erewrite nth_lookup_Some.
  - by rewrite list_insert_ge by lia.
Qed.

Lemma same_fold {A} (f : net_t -> A -> net_t) l : (forall st a, same_certs st (f st a)) -> forall st, same_certs st (fold_left f l st).
Proof. intros Hf. induction l as [|a l IH]; intros st; [reflexivity|]. cbn [fold_left]. etrans; [apply Hf|apply IH]. Qed.

Lemma held_insert (l : list (option Z)) k x y : l !! k = Some x ->
  Permutation (option_list x ++ omap id (<[k:=y]> l)) (option_list y ++ omap id l).
Proof.
  intros Hx. rewrite insert_take_drop by (by apply lookup_lt_is_Some; eauto). rewrite <- (take_drop_middle l k x Hx) at 3.
  rewrite !omap_app. cbn. destruct x as [a|], y as [b|]; cbn; rewrite <- ?Permutation_middle; try done. apply perm_swap.
Qed.

Lemma conn_held_set st id s : (id < length (conns st))%nat ->
  Permutation (option_list (conn_tls (conn st id)) ++ conn_held (set_conn id s st)) (option_list (conn_tls s) ++ conn_held st).
Proof.
  intros Hl. unfold conn_held, set_conn, set_conns. cbn [conns]. change (map conn_tls (<[id:=s]> (conns st))) with (conn_tls <$> <[id:=s]> (conns st)).
  rewrite list_fmap_insert. apply held_insert. rewrite list_lookup_fmap. apply lookup_lt_is_Some in Hl as [x Hx]. rewrite Hx. cbn.
  f_equal. f_equal. unfold conn. by erewrite nth_lookup_Some.
Qed.

(** ** The operations *)

(** After an operation that frees nothing itself: fewer holders, the same counts. *)
Definition released (st st' : net_t) : Prop :=
  cert_ok st' /\ freed (tls st') = freed (tls st) /\ (forall a, a ∈ held st' -> a ∈ held st).
Lemma released_trans st1 st2 st3 : released st1 st2 -> released st2 st3 -> released st1 st3.
Proof. intros (_ & F1 & S1) (O2 & F2 & S2). split_and!; [done|congruence|auto]. Qed.

Lemma same_released st st' : same_certs st st' -> cert_ok st -> released st st'.
Proof.
  intros E Hok. split_and!; [by apply (same_cert_ok st)|by destruct E as (_ & -> & _)|].
  destruct E as (E & _ & El). unfold held. by rewrite El, (same_conn_held _ _ E).
Qed.

Lemma freed_on_cfg (t : tls_t D) a f : freed (on_cfg t a f) = freed t.
Proof. unfold on_cfg. by destruct (is_cfg _ _). Qed.

Lemma overflow_conn st id : (length (conns st) <= id)%nat -> conn st id = slot0.
Proof. intros Hl. unfold conn. by rewrite nth_overflow. Qed.

Lemma detach_released st id : cert_ok st -> released st (conn_detach st id).
Proof.
  intros Hok. pose proof Hok as (Hl & Hn & Hr). unfold conn_detach. set (s := Slot _ _ _ _ _ _). cbv zeta.
  destruct (conn_tls (conn st id)) as [a|] eqn:Ea.
  - assert (Hid : (id < length (conns st))%nat).
    { destruct (Nat.lt_ge_cases id (length (conns st))) as [|Hg]; [done|]. by rewrite overflow_conn in Ea. }
    pose proof (conn_held_set st id s Hid) as P. rewrite Ea in P. cbn [option_list app] in P. change (conn_tls s) with (@None Z) in P. cbn [option_list app] in P.
    set (st1 := set_conn id s st) in *. assert (P2 : Permutation (held st) (a :: held st1)).
    { unfold held. change (s_tls_listen_cfg st1) with (s_tls_listen_cfg st). rewrite <- P. by rewrite Permutation_middle. }
    split_and!.
    + split_and!; [unfold st1; cbn; by rewrite length_insert| |].
      * intros id' Hp. change (conn (set_tls (lan_tls_unref (tls st1) a) st1) id') with (conn st1 id') in *.
        destruct (Nat.eq_dec id id') as [<-|Hne]; [unfold st1; by rewrite conn_set_eq|]. unfold st1 in *. rewrite conn_set_ne in * by done. by apply Hn.
      * change (held (set_tls (lan_tls_unref (tls st1) a) st1)) with (held st1). apply unref_ok. by apply (refs_ok_perm _ (held st)).
    + apply freed_on_cfg.
    + change (held (set_tls (lan_tls_unref (tls st1) a) st1)) with (held st1). intros b Hb. rewrite P2. apply elem_of_cons; by right.
  - destruct (Nat.lt_ge_cases id (length (conns st))) as [Hid|Hg].
    + pose proof (conn_held_set st id s Hid) as P. rewrite Ea in P. change (conn_tls s) with (@None Z) in P. cbn [option_list app] in P.
      assert (P2 : Permutation (held st) (held (set_conn id s st))) by (unfold held; by rewrite P).
      split_and!; [split_and!; [cbn; by rewrite length_insert| |by apply (refs_ok_perm _ (held st))]|done|intros b; by rewrite P2].
      intros id' Hp. destruct (Nat.eq_dec id id') as [<-|Hne]; [by rewrite conn_set_eq|]. rewrite conn_set_ne in * by done. by apply Hn.
    + assert (E : set_conn id s st = st); [|by rewrite E]. unfold set_conn. rewrite list_insert_ge by lia. by destruct st.
Qed.

Lemma released_fold {A} (f : net_t -> A -> net_t) l : (forall st a, cert_ok st -> released st (f st a)) ->
  forall st, cert_ok st -> released st (fold_left f l st).
Proof.
  intros Hf. induction l as [|a l IH]; intros st Hok; [by split_and!|]. cbn [fold_left]. eapply released_trans; [by apply Hf|]. by apply IH, Hf.
Qed.

Lemma apply_request_released st id : cert_ok st -> released st (apply_request st id).
Proof.
  intros Hok. unfold apply_request. cbv zeta.
  set (st1 := if 0 <=? nodelay_req (conn st id) then _ else st).
  assert (H1 : released st st1).
  { apply same_released; [|done]. unfold st1. destruct (0 <=? _); [|reflexivity].
    destruct (conn_pcb (conn st id)); [transitivity (nlog (NNagle id (nodelay_req (conn st id) =? 0)) st); [keep|]|]; by apply same_set. }
  clearbody st1. destruct (close_req (conn st1 id)); [|done]. eapply released_trans; [exact H1|]. destruct H1 as (Hok1 & _). clear Hok st.
  set (st2 := set_conn id (set_close_req false (conn st1 id)) st1).
  assert (H2 : released st1 st2) by (apply same_released, Hok1; by apply same_set).
  clearbody st2. eapply released_trans; [exact H2|]. destruct H2 as (Hok2 & _). clear Hok1 st1. destruct (conn_pcb (conn st2 id)).
  - eapply released_trans; [apply (detach_released st2 id Hok2)|]. apply same_released, detach_released, Hok2. keep.
  - apply same_released, Hok2. keep.
Qed.

Lemma free_id_some st id : free_id st = Some id -> (id < 5)%nat /\ conn_pcb (conn st id) = false.
Proof.
  unfold free_id. cbn [seq fold_right]. intros E.
  repeat match type of E with (if ?b then _ else _) = _ => let Eb := fresh "Eb" in destruct b eqn:Eb; [simplify_eq; apply andb_true_iff in Eb as [Eb _]; apply negb_true_iff in Eb; split; [lia|exact Eb]|] end.
  done.
Qed.

(** A new holder of what is already held. *)
Definition joined (st st' : net_t) : Prop := cert_ok st' /\ freed (tls st') = freed (tls st).

Lemma accept_joined st arg good usb heap : cert_ok st -> joined st (fst (srv_accept st arg good usb heap)).
Proof.
  intros Hok. pose proof Hok as (Hl & Hn & Hr). unfold srv_accept. destruct (negb good); [done|]. destruct (free_id st) as [id|] eqn:Ef; [|done]. cbv zeta.
  apply free_id_some in Ef as [Hid Hp]. destruct (_ && _); [done|]. destruct (_ && s_https_only st); [done|]. destruct (_ && (_ || _)); [done|]. cbn [fst].
  set (st0 := set_tx _ st). set (s := Slot true arg false usb false (-1)).
  assert (P : Permutation (conn_held (set_conn id s st0)) (option_list arg ++ conn_held st)).
  { pose proof (conn_held_set st0 id s) as P. change (conn st0 id) with (conn st id) in P. rewrite (Hn _ Hp) in P. apply P. cbn. lia. }
  assert (Hok1 : forall st', conns st' = conns (set_conn id s st0) -> refs_ok (tls st') (held st') -> cert_ok st').
  { intros st' Ec Hr'. split_and!; [rewrite Ec; cbn; by rewrite length_insert| |done]. intros id'. unfold conn. rewrite Ec. change (nth id' (conns (set_conn id s st0)) slot0) with (conn (set_conn id s st0) id').
    destruct (Nat.eq_dec id id') as [<-|Hne]; [rewrite conn_set_eq by (cbn; lia); done|]. rewrite conn_set_ne by done. apply Hn. }
  destruct arg as [a|].
  - split; [|apply freed_on_cfg]. apply Hok1; [done|]. apply (refs_ok_perm _ (a :: held st)); [|by apply ref_ok].
    unfold held. change (conn_held (set_tls _ ?x)) with (conn_held x). rewrite P. cbn [option_list app]. apply Permutation_middle.
  - split; [|done]. apply Hok1; [done|]. apply (refs_ok_perm _ (held st)); [|done]. unfold held. by rewrite P.
Qed.

Lemma unref_opt_ok st h x : refs_ok (tls st) (option_list x ++ h) -> refs_ok (tls (unref_opt st x)) h.
Proof. destruct x as [a|]; [|done]. apply unref_ok. Qed.

Lemma freed_unref st x : freed (tls (unref_opt st x)) = freed (tls st).
Proof. destruct x; [apply freed_on_cfg|done]. Qed.

Lemma conns_unref st x : conns (unref_opt st x) = conns st.
Proof. by destruct x. Qed.

Lemma sync_joined st opened : cert_ok st -> joined st (tls_listener_sync st opened) /\ conns (tls_listener_sync st opened) = conns st.
Proof.
  intros Hok. pose proof Hok as (Hl & Hn & Hr). unfold tls_listener_sync. cbv zeta.
  set (st1 := {| st with s_tls_listen_gen := _ |}).
  assert (K : forall st', conns st' = conns st -> freed (tls st') = freed (tls st) -> refs_ok (tls st') (option_list (s_tls_listen_cfg st') ++ conn_held st) ->
    joined st st' /\ conns st' = conns st).
  { intros st' Ec Ef Hr'. split; [|done]. split; [|done]. split_and!; [by rewrite Ec|intros id; unfold conn; rewrite Ec; apply Hn|].
    unfold held, conn_held in *. by rewrite Ec. }
  destruct (s_tls_listen st1 && _); [by apply K|].
  change (s_tls_listen st1) with (s_tls_listen st). change (s_tls_listen_cfg st1) with (s_tls_listen_cfg st).
  assert (Hu : let st2 := set_listen false None (unref_opt st1 (s_tls_listen_cfg st)) in
    conns st2 = conns st /\ freed (tls st2) = freed (tls st) /\ refs_ok (tls st2) (conn_held st)).
  { cbv zeta. split_and!; [apply (conns_unref st1)|apply (freed_unref st1)|]. exact (unref_opt_ok st1 (conn_held st) (s_tls_listen_cfg st) Hr). }
  assert (Hc : forall c, let st2 := set_listen false None (unref_opt st1 (s_tls_listen_cfg st)) in
    let st' := match c with Some a => if opened then set_tls (lan_tls_ref (tls st2) a) (set_listen true c st2) else st2 | None => st2 end in
    joined st st' /\ conns st' = conns st).
  { intros c. cbv zeta in *. revert Hu. generalize (set_listen false None (unref_opt st1 (s_tls_listen_cfg st))) (eq_refl : s_tls_listen_cfg (set_listen false None (unref_opt st1 (s_tls_listen_cfg st))) = None).
    intros st2 E2 (Ec & Ef & Hr2). destruct c as [a|]; [destruct opened|]; apply K; try done; try by rewrite E2.
    - exact (eq_trans (freed_on_cfg (tls st2) a _) Ef).
    - exact (ref_ok (tls st2) (conn_held st) a Hr2). }
  destruct (s_tls_listen st), (cfg_addr st) as [a|] eqn:Ea; try exact (Hc (Some a)); try exact (Hc None).
  set (st3 := set_tls (lan_tls_ref (tls st1) a) st1). apply K; [apply (conns_unref st3)|etrans; [apply (freed_unref st3)|apply freed_on_cfg]|].
  apply (unref_opt_ok st3 (a :: conn_held st)).
  apply (refs_ok_perm _ (a :: held st)); [|by apply ref_ok]. cbn [option_list]. unfold held. by rewrite Permutation_middle.
Qed.

(** ** The poll *)

Lemma drain_conn_certs fuel : forall st id w, same_certs st (fst (drain_conn sndbuf tcp_write_ok fuel st id w)).
Proof.
  induction fuel as [|fuel IH]; intros st id w; cbn [drain_conn]; [reflexivity|]. destruct (conn_tx_peek _ _) as [[pos n]|]; [|reflexivity].
  destruct (_ =? 0); [keep|]. cbv zeta. destruct (tcp_write_ok _); cbn [negb]; [|keep].
  match goal with |- context [drain_conn _ _ fuel ?s _ _] => transitivity s; [keep|apply IH] end.
Qed.

Lemma drain_certs st : same_certs st (net_tx_drain altcp_write_err get_rand sndbuf tcp_write_ok st).
Proof.
  unfold net_tx_drain. transitivity (fold_left (drain_slot sndbuf tcp_write_ok) (seq 0 NET_MAX_CONN) st); apply same_fold; clear st; intros st id.
  - unfold drain_slot. destruct (negb _); [reflexivity|]. destruct (hw_worker_conn_busy _ _); [reflexivity|].
    pose proof (drain_conn_certs 2048 st id false) as F. destruct (drain_conn _ _ _ _ _ _) as [st1 wrote]. cbn [fst] in *.
    transitivity (if wrote then nlog (NOutput id) st1 else st1); [transitivity st1; [exact F|by destruct wrote]|].
    generalize (if wrote then nlog (NOutput id) st1 else st1). intros st2. destruct (_ && _); [|reflexivity].
    transitivity (set_conn id (set_refused false (conn st2 id)) st2); [by apply same_set|keep].
  - unfold drain_tunnel. destruct (conn_tx_peek _ _) as [[pos n]|]; [|reflexivity]. destruct (hw_worker_conn_busy _ _); [keep|].
    cbv zeta. destruct (_ =? 0); [keep|]. destruct (cloud_client_tunnel_out _ _ _ _ _) as [c out]. keep.
Qed.

Lemma flag_certs p st id : same_certs st (flag_if p st id).
Proof. unfold flag_if. destruct (_ && _); [|reflexivity]. by apply same_set. Qed.

Lemma policies_certs st i : same_certs st (poll_policies altcp_write_err get_rand sign_ctx sndbuf tcp_write_ok st i).
Proof.
  unfold poll_policies. set (st1 := set_cloud _ st). transitivity st1; [keep|]. etrans; [apply drain_certs|].
  generalize (net_tx_drain altcp_write_err get_rand sndbuf tcp_write_ok st1). clear st st1. intros st. transitivity (apply_lan_req st).
  - unfold apply_lan_req. destruct (_ <? 0); [reflexivity|]. unfold lan_access. destruct (eqb _ _); [keep|]. destruct (_ =? 1); [keep|].
    match goal with |- same_certs _ (fold_left _ _ ?s) => transitivity s; [keep|] end. apply same_fold. intros. apply flag_certs.
  - generalize (apply_lan_req st). clear st. intros st. unfold apply_https_req. destruct (_ <? 0); [reflexivity|]. unfold https_only_apply.
    destruct (eqb _ _); [keep|]. destruct (_ =? 1); [|keep].
    match goal with |- same_certs _ (fold_left _ _ ?s) => transitivity s; [keep|] end. apply same_fold. intros. apply flag_certs.
Qed.

Lemma rest_certs st i : same_certs st (poll_rest altcp_write_err get_rand st i).
Proof.
  unfold poll_rest. transitivity (net_frame_cloud_reply altcp_write_err get_rand st (i_now (n_poll i))).
  - unfold net_frame_cloud_reply. destruct (hw_worker_take_cloud_reply _ _) as [w [[r rep]|]]; keep.
  - generalize (net_frame_cloud_reply altcp_write_err get_rand st (i_now (n_poll i))). clear st. intros st.
    unfold net_apply_reload. destruct (negb _); [reflexivity|]. destruct (net_reload_take _ _ _) as [r what]. cbv zeta.
    destruct (has_bit what NET_RELOAD_CLOUD), (has_bit what NET_RELOAD_WIFI); keep.
Qed.

(** What a step freed: none of it was in use. *)
Definition freed_unheld (st st' : net_t) : Prop :=
  exists new, freed (tls st') = freed (tls st) ++ new /\ forall a, a ∈ new -> (a ∉ conn_held st) /\ (a ∉ held st').

Lemma none_freed st st' : freed (tls st') = freed (tls st) -> freed_unheld st st'.
Proof. intros E. exists []. split; [by rewrite app_nil_r|]. intros a Ha. by apply elem_of_nil in Ha. Qed.

Lemma certs_step st i : cert_ok st -> cert_ok (poll_certs st i) /\ freed_unheld st (poll_certs st i).
Proof.
  intros Hok. unfold poll_certs. set (st1 := if _ =? _ then st else _).
  assert (H1 : joined st st1 /\ conns st1 = conns st) by (unfold st1; destruct (_ =? _); [done|by apply sync_joined]).
  clearbody st1. destruct H1 as [[(Hl & Hn & Hr) Hf] Ec]. cbv zeta. destruct (collect_ok _ _ Hr) as [Hr' (new & En & Hnew)]. split.
  - by split_and!.
  - exists new. split; [by rewrite <- Hf|]. intros a Ha. rewrite List.Forall_forall in Hnew. apply list_elem_of_In, Hnew in Ha. split; [|exact Ha].
    intros Hc. apply Ha. unfold held, conn_held in *. rewrite Ec. apply elem_of_app. by right.
Qed.

Lemma poll_certs_ok st i : cert_ok st -> cert_ok (net_poll st i) /\ freed_unheld st (net_poll st i).
Proof.
  intros Hok. rewrite poll_parts. pose proof (policies_certs st i) as S1. pose proof (same_cert_ok _ _ S1 Hok) as Hok1.
  revert S1 Hok1. generalize (poll_policies altcp_write_err get_rand sign_ctx sndbuf tcp_write_ok st i). intros st1 (Ek & Et & El) Hok1.
  destruct (certs_step st1 i Hok1) as [Hok2 (new & En & Hnew)]. revert Hok2 En Hnew. generalize (poll_certs st1 i). intros st2 Hok2 En Hnew.
  assert (H3 : released st2 (net_apply_worker_requests st2)) by (apply released_fold, Hok2; apply apply_request_released).
  revert H3. generalize (net_apply_worker_requests st2). intros st3 H3. pose proof H3 as (Hok3 & _).
  assert (H4 : released st2 (poll_rest altcp_write_err get_rand st3 i)) by (eapply released_trans; [exact H3|]; apply same_released; [apply rest_certs|done]).
  destruct H4 as (Hok4 & Ef & Hs). split; [done|]. exists new. split; [by rewrite Ef, En, Et|]. intros a Ha. destruct (Hnew a Ha) as [Hc Hh].
  split; [by rewrite <- (same_conn_held _ _ Ek)|]. intros Hin. by apply Hh, Hs.
Qed.

(** ** Every step *)

(** A configuration mbedTLS creates is in memory nothing uses. *)
Definition fresh_step (st : net_t) (o : nop) : Prop :=
  match o with NCert j => forall a, job_cfg j = Some a -> (a ∉ held st) /\ (a ∉ addrs (live (tls st))) | _ => True end.
Fixpoint fresh_run (st : net_t) (ops : list nop) : Prop :=
  match ops with [] => True | o :: ops' => fresh_step st o /\ fresh_run (nstep st o) ops' end.

Definition step_result (st st' : net_t) : Prop := cert_ok st' /\ freed_unheld st st'.

Lemma same_result st st' : same_certs st st' -> cert_ok st -> step_result st st'.
Proof. intros S Hok. split; [by apply (same_cert_ok st)|]. apply none_freed. by destruct S as (_ & -> & _). Qed.

Lemma released_result st st' : released st st' -> step_result st st'.
Proof. intros (Hok & Ef & _). split; [done|]. by apply none_freed. Qed.

Lemma recv_released st id p err others : cert_ok st -> released st (fst (srv_recv st id p err others)).
Proof.
  intros Hok. unfold srv_recv. destruct p as [data|].
  - destruct (negb _); [by apply same_released|]. destruct (negb _); [apply same_released; [by apply same_set|done]|].
    destruct (submit_segs _ _ _ _ _ _) as [w ok]. destruct ok; cbn [fst]; [apply same_released; [keep|done]|].
    set (st1 := submit_closed _ id). assert (H1 : released st st1) by (apply same_released; [keep|done]). clearbody st1.
    eapply released_trans; [exact H1|]. destruct H1 as (Hok1 & _). eapply released_trans; [by apply (detach_released st1 id)|].
    apply same_released; [keep|by apply detach_released].
  - cbn [fst]. set (st1 := submit_closed _ id). assert (H1 : released st st1) by (apply same_released; [keep|done]). clearbody st1.
    eapply released_trans; [exact H1|]. destruct H1 as (Hok1 & _). eapply released_trans; [by apply (detach_released st1 id)|].
    apply same_released; [keep|by apply detach_released].
Qed.

Lemma err_released st id : cert_ok st -> released st (srv_err st id).
Proof.
  intros Hok. unfold srv_err. set (st1 := submit_closed st id). assert (H1 : released st st1) by (apply same_released; [keep|done]). clearbody st1.
  eapply released_trans; [exact H1|]. destruct H1 as (Hok1 & _). by apply detach_released.
Qed.

Lemma joined_result st st' : joined st st' -> step_result st st'.
Proof. intros [Hok Ef]. split; [done|]. by apply none_freed. Qed.

Lemma cert_step st o : cert_ok st -> fresh_step st o -> step_result st (nstep st o).
Proof.
  intros Hok Hf. assert (Same : forall st', same_certs st st' -> step_result st st') by (intros; by apply same_result).
  destruct o as [i|on_tls good usb heap|id p err others|id|o|c buf|c|c on|off|on|j|what now|now]; cbn [NetServer.nstep].
  - by apply poll_certs_ok.
  - destruct on_tls; [destruct (s_tls_listen st); [|by apply Same]|]; by apply joined_result, accept_joined.
  - destruct (here st id); [by apply released_result, recv_released|by apply Same].
  - destruct (here st id); [by apply released_result, err_released|by apply Same].
  - apply Same. keep.
  - unfold at_send_data. destruct (_ =? _); [apply Same; keep|]. destruct (_ <=? _); [|by apply Same].
    destruct (conn_tx_write _ _ _) as [rs n]. apply Same. keep.
  - unfold at_close_connection. destruct (is_conn c); cbv zeta; cbn [fst]; [|by apply Same]. by apply Same, same_set.
  - unfold at_set_tcp_nodelay. destruct (is_conn c); cbv zeta; cbn [fst]; [|by apply Same]. by apply Same, same_set.
  - apply Same. keep.
  - apply Same. keep.
  - destruct Hok as (Hl & Hn & Hr). cbn [fresh_step] in Hf. destruct (job_ok _ _ _ _ Hr (cert_job_result check_pair (tls st) j) Hf) as [Hr' Ef].
    split; [by split_and!|by apply none_freed].
  - apply Same. keep.
  - apply Same. keep.
Qed.

Lemma cert_run ops : forall st, cert_ok st -> fresh_run st ops -> cert_ok (nrun st ops).
Proof.
  induction ops as [|o ops IH]; intros st Hok Hf; [done|]. destruct Hf as [Hf Hfs]. destruct (cert_step st o Hok Hf) as [Hok' _].
  by apply (IH (nstep st o)).
Qed.

Lemma fresh_app ops o : forall st, fresh_run st (ops ++ [o]) -> fresh_run st ops /\ fresh_step (nrun st ops) o.
Proof.
  induction ops as [|o' ops IH]; intros st; cbn [app fresh_run]; [by intros [? _]|]. intros [Hf Hfs]. destruct (IH _ Hfs) as [H1 H2]. by split_and!.
Qed.

Lemma start_certs d e e2 c lan_off https_only opened :
  cert_ok (net_start (lan_tls_init check_pair (tls_boot d) e e2) c lan_off https_only opened).
Proof.
  unfold net_start. set (st0 := Net _ _ _ _ _ _ _ _ _ _ _ _ _ _).
  assert (H0 : cert_ok st0).
  { split_and!; [done| |apply boot_refs_ok]. intros id _. by do 5 (destruct id as [|id]; [done|]); destruct id. }
  destruct (sync_joined st0 opened H0) as [[H1 _] _]. cbv zeta. destruct lan_off; [done|]. revert H1. generalize (tls_listener_sync st0 opened).
  intros st1 H1. apply (same_cert_ok st1); [|done]. unfold lan_access. destruct (eqb _ _); keep.
Qed.

(** However connections, certificate changes and polls interleave, each TLS
    configuration's reference count is the number of connections and listeners that
    use it, and what a step frees is used by none of them: by no connection as the
    step began, and by none of both after it. The hypothesis: mbedTLS creates a
    configuration in memory nothing uses. *)
Theorem config_freed_unheld (d : D) (e e2 : job_env) (c : cl_t) (lan_off https_only opened : bool) (ops : list nop) (o : nop) :
  let st0 := net_start (lan_tls_init check_pair (tls_boot d) e e2) c lan_off https_only opened in
  fresh_run st0 (ops ++ [o]) ->
  let st := nrun st0 ops in
  refs_ok (tls st) (held st) /\ freed_unheld st (nstep st o).
Proof.
  intros st0 Hf st. destruct (fresh_app ops o st0 Hf) as [Hr Ho]. pose proof (cert_run ops st0 (start_certs d e e2 c lan_off https_only opened) Hr) as Hok.
  split; [apply Hok|]. by apply cert_step.
Qed.
End holders.

(** A client connects over TLS, the certificate is replaced, the client leaves: the
    old configuration outlives the change and is freed by the poll after the close. *)
Definition cert_boot : job_env := JobEnv true (Some (replicate 20 65 ++ [0], [66; 0])) (Some 7).
Definition cert_start : net_t pod_flash := net_start (lan_tls_init check_len (tls_boot pod_blank) cert_boot cert_boot) (started None) false false true.
Definition cert_ops : list nop :=
  [NAccept true true false 100000; NCert (Install (bundle two_blocks) (JobEnv true None (Some 8))); NPoll (quiet_poll 1); NCloseReq 0; NPoll (quiet_poll 2)].

Lemma config_freed_unheld_witness :
  let st1 := nrun check_len net_ok rand_7 sig_1 room writes cert_start (take 3 cert_ops) in
  let st := nrun check_len net_ok rand_7 sig_1 room writes cert_start cert_ops in
  let st' := nstep check_len net_ok rand_7 sig_1 room writes st (NPoll (quiet_poll 3)) in
  (held st1 = [8; 7] /\ freed (tls st1) = []) /\ (held st' = [8] /\ freed (tls st') = [7]) /\
  refs_ok (tls st) (held st) /\ freed_unheld st st'.
Proof.
  cbv zeta. split; [by vm_compute|]. split; [by vm_compute|].
  apply (config_freed_unheld check_len net_ok rand_7 sig_1 room writes pod_blank cert_boot cert_boot (started None) false false true cert_ops (NPoll (quiet_poll 3))).
  split; [exact I|]. split; [|by repeat (split; [exact I|])]. intros a [= <-]. split; refine (bool_decide_unpack _ _); by vm_compute.
Defined.
