(* ===== verification/NetStreams.v ===== *)
(** * What the LAN server does to the bytes

    Inbound: a segment reaches the worker whole or not at all. Outbound: what goes
    to lwIP is what the ring held, in order. *)

From S2P Require Import Prelude Flash ConfigStore Json CmdTable CmdGate StoreTheorems Ota Worker WorkerTheorems ConnTx ReplyCap CloudClient CloudTheorems LanTls NetUtil NetServer NetTheorems.

Section inbound.
Context `{FlashDev D}.
Variable dispatch : list Z -> list Z.
Variable reply_cap : nat.
(** What the other tasks do while the net task waits; nothing of connection [id]. *)
Variable others : nat -> list wop.
Variable id : nat.
Definition not_for (o : wop) : Prop := match o with OpBytes c _ | OpClosed c | OpReset c => c <> zid id | _ => True end.
Hypothesis others_not : forall k, Forall not_for (others k).
Hypothesis id_ok : (id < 5)%nat.

Abbreviation meanwhile := (fun k w => wrun dispatch reply_cap w (others k)).

Lemma id_range : 0 <= zid id < 16.
Proof. unfold zid. lia. Qed.

Lemma not_for_history ops : forall w, Forall not_for ops -> history dispatch reply_cap (zid id) w ops = [].
Proof.
  induction ops as [|o ops IH]; intros w Hf; [done|]. inversion Hf as [|? ? Ho Hs]; subst. cbn [history]. rewrite IH by done. rewrite app_nil_r.
  destruct o as [c b|c|c| | | | | | | ]; cbn in *; try done; by rewrite (proj2 (Z.eqb_neq _ _) Ho).
Qed.

Lemma meanwhile_ok k w : WorkerTheorems.inv w -> WorkerTheorems.inv (meanwhile k w) /\ hist_ok (zid id) w (meanwhile k w) [].
Proof. intros Hi. destruct (run_ok dispatch reply_cap (zid id) (others k) w Hi id_range) as [Hi' Hh]. by rewrite not_for_history in Hh. Qed.

Lemma submit_ok w seg : WorkerTheorems.inv w -> (length seg <= HW_WORK_DATA_MAX)%nat ->
  WorkerTheorems.inv (fst (hw_worker_submit_bytes w (zid id) seg)) /\
  hist_ok (zid id) w (fst (hw_worker_submit_bytes w (zid id) seg)) (if snd (hw_worker_submit_bytes w (zid id) seg) then [CB seg] else []).
Proof.
  intros Hi Hl. destruct (step_ok dispatch reply_cap (zid id) w (OpBytes (zid id) seg) Hi id_range) as [Hi' Hh]. split; [exact Hi'|].
  cbn [wstep accepted] in Hh. rewrite Z.eqb_refl in Hh. cbn [andb] in Hh. unfold clamp_data in Hh. by rewrite firstn_all2 in Hh by exact Hl.
Qed.

Lemma tries_ok n : forall k w seg, WorkerTheorems.inv w -> (length seg <= HW_WORK_DATA_MAX)%nat ->
  let '(w', ok, _) := submit_tries meanwhile n k w id seg in WorkerTheorems.inv w' /\ hist_ok (zid id) w w' (if ok then [CB seg] else []).
Proof.
  induction n as [|n IH]; intros k w seg Hi Hl; cbn [submit_tries]; destruct (meanwhile_ok k w Hi) as [Hi0 Hh0]; cbv beta in *; [done|].
  destruct (submit_ok _ seg Hi0 Hl) as [Hi' Hh]. destruct (hw_worker_submit_bytes _ (zid id) seg) as [w1 ok]. cbn [fst snd] in *.
  destruct ok; [split; [done|]; exact (hist_trans _ _ _ _ [] _ Hh0 Hh)|].
  specialize (IH (S k) _ seg Hi' Hl). destruct (submit_tries _ n (S k) _ id seg) as [[w' ok'] k']. destruct IH as [Hi3 Hh3]. split; [done|].
  apply (hist_trans _ _ _ _ [] _ Hh0). exact (hist_trans _ _ _ _ [] _ Hh Hh3).
Qed.

(** The chunks of what was taken: all of it, or a beginning. *)
Lemma segs_ok fuel : forall k w rest, WorkerTheorems.inv w -> (length rest <= fuel)%nat ->
  let '(w', ok) := submit_segs meanwhile fuel k w id rest in
  WorkerTheorems.inv w' /\ exists chunks, hist_ok (zid id) w w' (map CB chunks) /\ Forall (fun c => (length c <= HW_WORK_DATA_MAX)%nat) chunks /\
    (if ok then concat chunks = rest else concat chunks `prefix_of` rest).
Proof.
  induction fuel as [|fuel IH]; intros k w rest Hi Hf; cbn [submit_segs].
  { destruct rest; [|cbn in Hf; lia]. split; [done|]. exists []. split_and!; [apply hist_refl|done|done]. }
  destruct rest as [|b rest]; [split; [done|]; exists []; split_and!; [apply hist_refl|done|done]|].
  set (data := b :: rest) in *. set (seg := take HW_WORK_DATA_MAX data). assert (Hl : (length seg <= HW_WORK_DATA_MAX)%nat) by (unfold seg; rewrite length_take; lia).
  pose proof (tries_ok 100 k w seg Hi Hl) as T. destruct (submit_tries _ 100 k w id seg) as [[w1 ok] k1]. destruct T as [Hi1 Hh1]. destruct ok.
  - assert (Hf' : (length (drop HW_WORK_DATA_MAX data) <= fuel)%nat) by (rewrite length_drop; unfold data in *; cbn in *; lia).
    specialize (IH k1 w1 _ Hi1 Hf'). destruct (submit_segs _ fuel k1 w1 id _) as [w2 ok]. destruct IH as (Hi2 & chunks & Hh2 & Hs & Hc).
    split; [done|]. exists (seg :: chunks). split_and!; [exact (hist_trans _ _ _ _ [CB seg] _ Hh1 Hh2)|by constructor|]. cbn [concat].
    destruct ok; [rewrite Hc|apply (prefix_app seg) in Hc]; unfold seg in *; by rewrite take_drop in *.
  - split; [done|]. exists []. split_and!; [exact Hh1|done|]. apply prefix_nil.
Qed.

(** With room for every segment and nobody in between, each is taken at once. *)
Lemma segs_room fuel : forall k w rest, (forall k, others k = []) -> pend (s_parked w) (zid id) = 0 -> (length rest <= fuel)%nat ->
  (length (q w) + (length rest + 1535) / 1536 <= 16)%nat -> snd (submit_segs meanwhile fuel k w id rest) = true.
Proof.
  intros k w rest Hno. revert k w rest. induction fuel as [|fuel IH]; intros k w rest Hp Hf Hq; [by destruct rest|]. destruct rest as [|b rest]; [done|].
  cbn [submit_segs submit_tries]. rewrite Hno. cbn [wrun fold_left]. set (data := b :: rest) in *.
  assert (Hd : ((length data + 1535) / 1536 = S ((length (drop 1536 data) + 1535) / 1536))%nat).
  { rewrite length_drop. destruct (Nat.le_gt_cases 1536 (length data)).
    - replace (length data + 1535)%nat with (length data - 1536 + 1535 + 1 * 1536)%nat by lia. rewrite Nat.div_add by lia. lia.
    - replace (length data - 1536)%nat with 0%nat by lia. replace (length data + 1535)%nat with (length data - 1 + 1 * 1536)%nat by (unfold data; cbn; lia).
      rewrite Nat.div_add, (Nat.div_small (length data - 1)) by lia. done. }
  unfold hw_worker_submit_bytes. rewrite Hp. cbn [Z.eqb negb]. rewrite andb_false_r. unfold submit.
  destruct (Nat.ltb_spec (length (q w)) HW_WORK_QUEUE_DEPTH) as [_|Hg]; [|lia]. apply IH.
  - by destruct w.
  - rewrite length_drop. unfold data in *. cbn in *. lia.
  - destruct w. cbn [Worker.q] in *. rewrite length_app. cbn [length]. lia.
Qed.

Lemma can_accept_room w len : hw_worker_can_accept w len = true -> (length (q w) <= 16)%nat -> (length (q w) + (len + 1535) / 1536 <= 16)%nat.
Proof.
  unfold hw_worker_can_accept. cbv zeta. change (len + (HW_WORK_DATA_MAX - 1))%nat with (len + 1535)%nat. generalize ((len + 1535) / 1536)%nat. intros n.
  destruct (Nat.eqb_spec n 0) as [->|]; intros Hle%Nat.leb_le; lia.
Qed.

(** A segment lwIP delivers is handed to the worker whole, in order and in pieces
    of at most 1536 bytes, or refused with nothing handed over (lwIP keeps it and
    delivers it again), or the connection is closed on both sides: whatever the other
    tasks do to the queue meanwhile, the upload is never cut silently. Without them it
    is never closed. *)
Theorem srv_recv_whole (st : net_t D) (data : list Z) :
  WorkerTheorems.inv (worker st) ->
  let '(st', r) := srv_recv st id (Some data) ERR_OK meanwhile in
  match r with
  | RvOk => exists chunks, hist_ok (zid id) (worker st) (worker st') (map CB chunks) /\ concat chunks = data /\ Forall (fun c => (length c <= 1536)%nat) chunks
  | RvMem => worker st' = worker st /\ conn_pcb (conn st' id) = conn_pcb (conn st id)
  | RvAbrt => exists chunks, hist_ok (zid id) (worker st) (worker st') (map CB chunks ++ [CT]) /\ concat chunks `prefix_of` data /\ conn_pcb (conn st' id) = false
  | _ => False
  end /\
  ((forall k, others k = []) -> pend (s_parked (worker st)) (zid id) = 0 -> r <> RvAbrt).
Proof.
  intros Hi. unfold srv_recv. change (negb (ERR_OK =? ERR_OK)) with false. cbv iota. destruct (hw_worker_can_accept (worker st) (length data)) eqn:Ea; cbn [negb].
  2:{ split; [|done]. split; [done|]. destruct (Nat.lt_ge_cases id (length (conns st))) as [Hl|Hg].
      - by rewrite conn_set_eq.
      - unfold set_conn. rewrite list_insert_ge by lia. done. }
  pose proof (segs_ok (length data) 0 (worker st) data Hi ltac:(lia)) as S.
  pose proof (fun E P => segs_room (length data) 0 (worker st) data E P ltac:(lia) (can_accept_room _ _ Ea (proj2 (proj2 Hi)))) as R.
  destruct (submit_segs meanwhile (length data) 0 (worker st) id data) as [w ok]. destruct S as (Hi' & chunks & Hh & Hs & Hc). cbn [snd] in R. destruct ok.
  - split; [|done]. by exists chunks.
  - split; [|intros E P; by specialize (R E P)]. exists chunks. split_and!; [|done|apply detach_gone].
    destruct (step_ok dispatch reply_cap (zid id) w (OpClosed (zid id)) Hi' id_range) as [_ Hh2]. cbn [wstep accepted] in Hh2. rewrite Z.eqb_refl in Hh2.
    assert (Ew : worker (nlog (NAbortConn id) (conn_detach (submit_closed (set_worker w st) id) id)) = hw_worker_submit_closed w (zid id))
      by (unfold conn_detach; by destruct (conn_tls _)).
    rewrite Ew. exact (hist_trans _ _ _ _ (map CB chunks) [CT] Hh Hh2).
Qed.
End inbound.

Section outbound.
Context `{FlashDev D}.
Variable sndbuf : nat -> Z.
Variable tcp_write_ok : nat -> bool.
(** [altcp_sndbuf] is a 16-bit count. *)
Hypothesis sndbuf_u16 : forall n, 0 <= sndbuf n < 65536.
Implicit Types (st : net_t D).

Abbreviation rings_at st := (rings (cloud st)).

(** What a trace hands to lwIP on one connection. *)
Definition sent1 (id : nat) (a : nact) : list Z := match a with NWrite id' bytes true => if (id' =? id)%nat then bytes else [] | _ => [] end.
Definition sent (id : nat) (acts : list nact) : list Z := concat (map (sent1 id) acts).

Lemma sent_app id l1 l2 : sent id (l1 ++ l2) = sent id l1 ++ sent id l2.
Proof. unfold sent. by rewrite map_app, concat_app. Qed.

(** lwIP's last answer was that it takes no more. *)
Definition refused (st' : net_t D) : Prop := (exists n, calls st' = S n /\ (sndbuf n = 0 \/ tcp_write_ok n = false)).

(** One connection's progress: the bytes left are those that were not written. *)
Definition progress (st st' : net_t D) (id : nat) : Prop :=
  rings_ok (rings_at st') /\ (forall c, c <> zid id -> ring_of (rings_at st') c = ring_of (rings_at st) c) /\
  exists acts, nacts st' = nacts st ++ acts /\ (forall id', id' <> id -> sent id' acts = []) /\
    forall r, ring_of (rings_at st) (zid id) = Some r ->
      exists r', ring_of (rings_at st') (zid id) = Some r' /\ fifo r = sent id acts ++ fifo r'.

Lemma progress_refl st id : rings_ok (rings_at st) -> progress st st id.
Proof. intros Hr. split_and!; [done|done|]. exists []. split_and!; [by rewrite app_nil_r|done|]. intros r E. by exists r. Qed.

Lemma progress_trans st1 st2 st3 id : progress st1 st2 id -> progress st2 st3 id -> progress st1 st3 id.
Proof.
  intros (_ & N1 & l1 & E1 & O1 & P1) (R2 & N2 & l2 & E2 & O2 & P2). split_and!; [done|intros c Hc; by rewrite N2, N1|].
  exists (l1 ++ l2). split_and!; [by rewrite E2, E1, app_assoc|intros id' Hne; by rewrite sent_app, O1, O2|].
  intros r Er. destruct (P1 r Er) as (r1 & Er1 & F1). destruct (P2 r1 Er1) as (r2 & Er2 & F2). exists r2. split; [done|]. by rewrite F1, F2, sent_app, app_assoc.
Qed.

(** A write that lwIP took, of the front [n] bytes of the ring. *)
Lemma write_progress st k id r pos len n : rings_ok (rings_at st) -> ring_of (rings_at st) (zid id) = Some r -> ring_peek r = Some (pos, len) ->
  0 <= n <= len ->
  let st1 := nlog (NWrite id (chunk_at st (zid id) pos n) true) (set_calls k st) in
  progress st (set_tx (conn_tx_advance (rings_at st) (zid id) n) st1) id.
Proof.
  intros Hok Er Ep Hn st1. destruct (ring_of_some _ _ _ Hok Er) as [Hr Hs]. destruct (peek_spec r Hr) as [Hp _]. rewrite Ep in Hp.
  pose proof (peeked_bytes r pos len n Hr Hp Hn) as Hb. destruct Hp as (_ & Hlen & _).
  destruct (advance_spec r n Hr ltac:(lia)) as (Hr' & _ & Hf). unfold conn_tx_advance. rewrite Er.
  change (rings_at (set_tx ?rs st1)) with rs. unfold progress. change (rings_at (set_tx ?rs st1)) with rs. split_and!.
  - destruct Hok as [Hl Hall]. split; [unfold set_ring; by rewrite length_insert|]. by apply Forall_insert.
  - intros c Hc. apply ring_of_set; [done|done|congruence].
  - exists [NWrite id (chunk_at st (zid id) pos n) true]. split_and!; [done| |].
    + intros id' Hne. unfold sent. cbn. by rewrite (proj2 (Nat.eqb_neq _ _)) by congruence.
    + intros r0 E0. rewrite Er in E0. simplify_eq. exists (ring_advance r0 n). split; [by apply ring_of_set_eq|].
      unfold sent, chunk_at. cbn. rewrite Nat.eqb_refl, Er, app_nil_r, Hb, Hf. by rewrite take_drop.
Qed.

Lemma log_progress st k a id : rings_ok (rings_at st) -> (forall i, sent1 i a = []) -> progress st (nlog a (set_calls k st)) id.
Proof.
  intros Hok Ha. split_and!; [done|done|]. exists [a]. split_and!; [done|intros; unfold sent; cbn; by rewrite Ha|].
  intros r Er. exists r. split; [done|]. unfold sent. cbn. by rewrite Ha.
Qed.

Lemma drain_conn_progress fuel : forall st id wrote, rings_ok (rings_at st) -> (id < 5)%nat ->
  let st' := fst (drain_conn sndbuf tcp_write_ok fuel st id wrote) in
  progress st st' id /\
  forall r, ring_of (rings_at st) (zid id) = Some r -> (length (fifo r) < fuel)%nat ->
    (exists r', ring_of (rings_at st') (zid id) = Some r' /\ fifo r' = []) \/ refused st'.
Proof.
  induction fuel as [|fuel IH]; intros st id wrote Hok Hid; cbv zeta; cbn [drain_conn]; [split; [by apply progress_refl|intros; lia]|].
  assert (Er : exists r, ring_of (rings_at st) (zid id) = Some r).
  { unfold ring_of, conn_tx_slot. unfold zid. destruct (Z.leb_spec 0 (Z.of_nat id)), (Z.ltb_spec (Z.of_nat id) CONN_TX_TCP_SLOTS); try lia. cbn [andb].
    destruct (Z.ltb_spec (Z.of_nat id) 0); [lia|]. apply lookup_lt_is_Some. destruct Hok as [-> _]. lia. }
  destruct Er as [r Er]. destruct (ring_of_some _ _ _ Hok Er) as [Hr Hs]. unfold conn_tx_peek. rewrite Er. destruct (peek_spec r Hr) as [Hp Hn].
  destruct (ring_peek r) as [[pos n]|] eqn:Ep.
  2:{ split; [by apply progress_refl|]. intros r0 E0 _. simplify_eq. left. exists r0. split; [done|]. by apply Hn. }
  pose proof Hp as (_ & Hlen & _). pose proof (sndbuf_u16 (calls st)) as Hsb. destruct (Z.eqb_spec (sndbuf (calls st)) 0) as [E0|E0].
  { cbn [fst]. split; [|intros; right; exists (calls st); split; [done|by left]].
    split_and!; [done|done|]. exists []. split_and!; [cbn; by rewrite app_nil_r|done|]. intros r0 Er0. by exists r0. }
  cbv zeta. set (m := if sndbuf (calls st) <? n then sndbuf (calls st) else n). assert (Hm : 0 < m <= n) by (unfold m; destruct (Z.ltb_spec (sndbuf (calls st)) n); lia).
  destruct (tcp_write_ok (calls st)) eqn:Ew; cbn [negb].
  - pose proof (write_progress st (S (calls st)) id r pos n m Hok Er Ep ltac:(lia)) as W. cbv zeta in W.
    match goal with |- context [drain_conn _ _ fuel ?s _ _] => change (progress st s id) in W; set (st1 := s) in * end.
    pose proof W as (Hok1 & _ & l & _ & _ & P1). destruct (IH st1 id true Hok1 Hid) as [P2 S2]. split; [by eapply progress_trans|].
    intros r0 E1 Hl. simplify_eq. destruct (advance_spec r0 m Hr ltac:(lia)) as (_ & Eu & Hf).
    apply (S2 (ring_advance r0 m)).
    + unfold st1. change (rings_at (set_tx ?rs _)) with rs. unfold conn_tx_advance. change (rings_at (nlog _ _)) with (rings_at st). rewrite Er. by apply ring_of_set_eq.
    + rewrite fifo_length in *. lia.
  - cbn [fst]. split; [|intros; right; exists (calls st); split; [done|by right]]. by apply log_progress.
Qed.

Lemma same_progress st1 st2 st3 id : progress st1 st2 id -> rings_at st3 = rings_at st2 -> 
  (exists l, nacts st3 = nacts st2 ++ l /\ forall i, sent i l = []) -> progress st1 st3 id.
Proof.
  intros P Er (l & El & Hl). eapply progress_trans; [exact P|]. destruct P as (Hok & _ & _). split_and!; [by rewrite Er|intros; by rewrite Er|].
  exists l. split_and!; [done|intros; apply Hl|]. intros r E. exists r. by rewrite Er, Hl.
Qed.

(** One turn of a connection: what was written to lwIP followed by what is still
    queued is what was queued before, the other connections' rings and streams do not
    change, and it stops only when the ring is empty or lwIP takes no more. A slot
    without a connection, or whose closing the worker has not handled, is left alone. *)
Theorem drain_slot_stream (st : net_t D) (id : nat) :
  rings_ok (rings (cloud st)) -> (id < 5)%nat ->
  let st' := drain_slot sndbuf tcp_write_ok st id in
  progress st st' id /\
  (if conn_pcb (conn st id) && negb (hw_worker_conn_busy (worker st) (zid id))
   then (exists r', ring_of (rings (cloud st')) (zid id) = Some r' /\ fifo r' = []) \/ refused st'
   else st' = st).
Proof.
  intros Hok Hid. cbv zeta. unfold drain_slot. destruct (conn_pcb (conn st id)); cbn [negb andb]; [|split; [by apply progress_refl|done]].
  destruct (hw_worker_conn_busy _ _); cbn [negb]; [split; [by apply progress_refl|done]|].
  destruct (drain_conn_progress 2048 st id false Hok Hid) as [P S].
  assert (Hr : exists r, ring_of (rings_at st) (zid id) = Some r /\ (length (fifo r) < 2048)%nat).
  { unfold ring_of, conn_tx_slot, zid. destruct (Z.leb_spec 0 (Z.of_nat id)), (Z.ltb_spec (Z.of_nat id) CONN_TX_TCP_SLOTS); try lia. cbn [andb].
    destruct (Z.ltb_spec (Z.of_nat id) 0); [lia|]. destruct Hok as [Hl Hall]. destruct (lookup_lt_is_Some_2 (rings_at st) (Z.to_nat (Z.of_nat id))) as [r E]; [lia|].
    exists r. split; [done|]. pose proof (Forall_lookup_1 _ _ _ _ Hall E) as (_ & _ & Hu & _). rewrite fifo_length. lia. }
  destruct Hr as (r & Er & Hlt). specialize (S r Er Hlt). destruct (drain_conn _ _ 2048 st id false) as [st1 wrote]. cbn [fst] in *.
  set (st2 := if wrote then nlog (NOutput id) st1 else st1).
  assert (H2 : rings_at st2 = rings_at st1 /\ calls st2 = calls st1 /\ exists l, nacts st2 = nacts st1 ++ l /\ forall i, sent i l = []).
  { unfold st2. destruct wrote; (split_and!; [done|done|]); [exists [NOutput id]|exists []; rewrite app_nil_r]; by split. }
  clearbody st2. destruct H2 as (R2 & C2 & l & L2 & N2). 
  assert (P2 : progress st st2 id) by (eapply same_progress; [exact P|done|by exists l]).
  assert (S2 : (exists r', ring_of (rings_at st2) (zid id) = Some r' /\ fifo r' = []) \/ refused st2) by (unfold refused; by rewrite R2, C2).
  destruct (_ && _); [|done]. split; [|exact S2]. eapply same_progress; [exact P2|done|]. by exists [NKick id].
Qed.
End outbound.

(** A console line and the worker come in between the segments of an upload. *)
Definition console_between (k : nat) : list wop := [OpConsole (str "help"); OpReceive].
Definition open_start : net_t pod_flash := nstep check_none net_ok rand_7 sig_1 room writes quiet_start (NAccept false true false 100000).
Lemma open_worker : worker open_start = worker_init.
Proof. by vm_compute. Qed.

Lemma srv_recv_whole_witness :
  let '(st', r) := srv_recv open_start 0 (Some (replicate 2000 9)) ERR_OK (fun k w => wrun (fun _ => []) 64 w (console_between k)) in
  r = RvOk /\
  exists chunks, hist_ok 0 (worker open_start) (worker st') (map CB chunks) /\ concat chunks = replicate 2000 9 /\ Forall (fun c => (length c <= 1536)%nat) chunks.
Proof.
  pose proof (srv_recv_whole (fun _ => []) 64 console_between 0 ltac:(intros; repeat constructor) ltac:(lia) open_start (replicate 2000 9)
    ltac:(rewrite open_worker; exact inv_init)) as T.
  assert (E : snd (srv_recv open_start 0 (Some (replicate 2000 9)) ERR_OK (fun k w => wrun (fun _ => []) 64 w (console_between k))) = RvOk) by (by vm_compute).
  destruct (srv_recv _ 0 _ _ _) as [st' r]. cbn [snd] in E. subst r. split; [done|]. exact (proj1 T).
Defined.

(** lwIP takes 1000 bytes at a time, and no fourth write. *)
Definition three_writes (n : nat) : bool := (n <? 2)%nat.
Definition queued_start : net_t pod_flash := fst (at_send_data open_start 0 (replicate 2040 5)).
Lemma queued_rings : rings (cloud queued_start) = fst (conn_tx_write s_rings 0 (replicate 2040 5)).
Proof. by vm_compute. Qed.

Lemma drain_slot_stream_witness :
  let st' := drain_slot room three_writes queued_start 0 in
  map fifo (take 1 (rings (cloud st'))) = [replicate 40 5] /\ sent 0 (nacts st') = replicate 2000 5 /\
  progress queued_start st' 0 /\ ((exists r', ring_of (rings (cloud st')) 0 = Some r' /\ fifo r' = []) \/ refused room three_writes st').
Proof.
  cbv zeta. split; [by vm_compute|]. split; [by vm_compute|].
  assert (Hok : rings_ok (rings (cloud queued_start))).
  { rewrite queued_rings. split; [by vm_compute|]. apply (Forall_insert ring_ok); [apply Forall_replicate; by vm_compute|]. by vm_compute. }
  pose proof (drain_slot_stream room three_writes ltac:(intros; unfold room; lia) queued_start 0 Hok ltac:(lia)) as T. exact T.
Defined.
