(* ===== verification/Dap.v ===== *)
(** * The CMSIS-DAP command processor ([dap.c])

    One request packet to one response packet. The SWD line below is a class (its
    implementation is SwdLl). [buf] is the whole reassembly buffer: what lies behind
    the packet's [req_len] bytes is what earlier packets left there. *)

From S2P Require Import Prelude.

Abbreviation DAP_PACKET_SIZE := 1024%nat.
Abbreviation DAP_PACKET_DEFAULT := 256.
Abbreviation DAP_PACKET_COUNT_MAX := 4.
Abbreviation DAP_OK := 0.
Abbreviation DAP_ERROR := 255.
Abbreviation ID_DAP_Invalid := 255.
Abbreviation SWD_ACK_OK := 1.
Abbreviation SWD_ACK_WAIT := 2.
Abbreviation SWD_ACK_FAULT := 4.
Abbreviation SWD_ACK_NO_ACK := 7.
Abbreviation SWD_ACK_PERR := 8.
Abbreviation DP_RDBUFF_READ := 14.
Abbreviation DP_ABORT_WRITE := 0.
Abbreviation DAP_RETRY_BUDGET := 2048%nat.
Abbreviation DAP_BATCH_WAIT_MAX := 64.
Abbreviation REC_MAX := 128%nat.

(** [SWD_REQ_APnDP], [SWD_REQ_RnW], [XFER_MATCH_VALUE] and [XFER_MATCH_MASK] of a request. *)
Definition is_ap (request : Z) : bool := Z.testbit request 0.
Definition is_read (request : Z) : bool := Z.testbit request 1.
Definition is_match (request : Z) : bool := Z.testbit request 4.
Definition is_mask (request : Z) : bool := Z.testbit request 5.

(** [swd_ll.h]: a transfer gives the ACK and, for a read, the value; a batch the
    number of operations done, the values read and the ACK that stopped it. *)
Class SwdPort (L : Type) := {
  swd_ll_transfer : L -> Z -> Z -> L * Z * Z;
  swd_ll_batch : L -> list (Z * Z) -> L * nat * list Z * Z;
  swd_ll_batch_supported : L -> bool;
  swd_ll_reset : L -> L;
  swd_ll_set_idle : L -> Z -> L;
  swd_ll_set_wait_retry : L -> Z -> L;
  swd_ll_set_clock : L -> Z -> L;
  swd_ll_configure : L -> Z -> bool -> L;
  swd_ll_nreset : L -> bool -> L;
  swd_ll_seq_out : L -> list Z -> Z -> L;
  swd_ll_seq_in : L -> Z -> L * list Z;
}.

(** A recorded transfer: the operation, where a read's value goes, the command's
    transfer count and response position when it was issued. *)
Record rec := Rec { op : Z * Z; s_dst : option nat; s_cnt_at : Z; s_rp_at : nat }.

Section dap.
Context `{SwdPort L}.

(** [oob] says that a value was stored outside the response buffer. *)
Record dap_t := Dap {
  line : L; s_wait_retry : nat; s_match_retry : nat; s_budget : nat; s_match_mask : Z; s_packet_size : Z; s_packet_count : Z;
  s_recording : bool; recs : list rec; s_cur_cnt : Z; s_cur_rp : nat; s_failed : option (Z * nat * Z);
  resp : list Z; oob : bool;
}.

Definition set_line (v : L) (st : dap_t) : dap_t := {| st with line := v |}.
Definition set_budget (v : nat) (st : dap_t) : dap_t := {| st with s_budget := v |}.
Definition set_mask (v : Z) (st : dap_t) : dap_t := {| st with s_match_mask := v |}.
Definition set_recs (v : list rec) (st : dap_t) : dap_t := {| st with recs := v |}.
Definition set_recording (v : bool) (st : dap_t) : dap_t := {| st with s_recording := v |}.
Definition set_failed (v : option (Z * nat * Z)) (st : dap_t) : dap_t := {| st with s_failed := v |}.
Definition set_resp (v : list Z) (st : dap_t) : dap_t := {| st with resp := v |}.
Definition set_cur (cnt : Z) (rp : nat) (st : dap_t) : dap_t := {| st with s_cur_cnt := cnt; s_cur_rp := rp |}.

Definition dap_configure (st : dap_t) (packet_size packet_count : Z) : dap_t :=
  let packet_size := if packet_size <? 64 then 64 else packet_size in
  let packet_size := if Z.of_nat DAP_PACKET_SIZE <? packet_size then Z.of_nat DAP_PACKET_SIZE else packet_size in
  let packet_count := if packet_count <? 1 then 1 else packet_count in
  let packet_count := if DAP_PACKET_COUNT_MAX <? packet_count then DAP_PACKET_COUNT_MAX else packet_count in
  {| st with s_packet_size := packet_size; s_packet_count := packet_count |}.

Definition dap_reset (st : dap_t) : dap_t :=
  Dap (swd_ll_set_wait_retry (swd_ll_set_idle (swd_ll_reset (line st)) 0) 100) 100 0 (s_budget st) 0 DAP_PACKET_DEFAULT 1
    false [] (s_cur_cnt st) (s_cur_rp st) None (resp st) (oob st).

(** Bytes into the response buffer, at a position. *)
Fixpoint write_at (l : list Z) (pos : nat) (bs : list Z) : list Z :=
  match bs with [] => l | b :: bs' => write_at (<[pos := b]> l) (S pos) bs' end.
Definition put (st : dap_t) (pos : nat) (bs : list Z) : dap_t :=
  {| st with resp := write_at (resp st) pos bs; oob := oob st || (DAP_PACKET_SIZE <? pos + length bs)%nat |}.
Definition put_le32 (st : dap_t) (pos : nat) (v : Z) : dap_t := put st pos (le 4 v).

(** ** Batching *)

(** The values of the operations done, each where it goes. *)
Fixpoint scatter (st : dap_t) (rs : list rec) (rdata : list Z) : dap_t :=
  match rs with
  | [] => st
  | r :: rs' =>
      if is_read (fst (op r))
      then scatter (match s_dst r with Some pos => put_le32 st pos (hd 0 rdata) | None => st end) rs' (tl rdata)
      else scatter st rs' rdata
  end.

Definition rec_flush (st : dap_t) : dap_t * Z :=
  match s_failed st with
  | Some (_, _, ack) => (st, ack)
  | None =>
      if (length (recs st) =? 0)%nat then (st, SWD_ACK_OK)
      else
        let rs := recs st in
        let '(l, done, rdata, ack) := swd_ll_batch (line st) (map op rs) in
        let st := scatter (set_line l st) (take done rs) rdata in
        let st := match rs !! done with Some r => set_failed (Some (s_cnt_at r, s_rp_at r, ack)) st | None => st end in
        let st := set_recs [] st in
        (st, match s_failed st with Some (_, _, a) => a | None => SWD_ACK_OK end)
  end.

Definition rec_begin (st : dap_t) : dap_t := set_failed None (set_recs [] (set_recording true st)).
Definition rec_end (st : dap_t) : dap_t := set_recording false (fst (rec_flush st)).

Definition set_dst (rp : nat) (rs : list rec) : list rec :=
  match rev rs with r :: rs' => rev rs' ++ [Rec (op r) (Some rp) (s_cnt_at r) (s_rp_at r)] | [] => [] end.

Definition store (st : dap_t) (rp : nat) (v : Z) : dap_t :=
  if s_recording st then set_cur (s_cur_cnt st) (rp + 4) (set_recs (set_dst rp (recs st)) st) else put_le32 st rp v.

(** ** Transfers *)

Fixpoint xfer_loop (retry : nat) (st : dap_t) (request data : Z) : dap_t * Z * Z :=
  let '(l, ack, v) := swd_ll_transfer (line st) request data in
  let st := set_line l st in
  if negb (ack =? SWD_ACK_WAIT) then (st, ack, v)
  else match retry, s_budget st with S retry', S b => xfer_loop retry' (set_budget b st) request data | _, _ => (st, ack, v) end.

(** [data] is the value of a write. The value of a recorded read is 0 for now. *)
Definition xfer (st : dap_t) (request data : Z) : dap_t * Z * Z :=
  if s_recording st then
    match s_failed st with
    | Some (_, _, ack) => (st, ack, 0)
    | None =>
        let '(st, ack) := if (length (recs st) =? REC_MAX)%nat then rec_flush st else (st, SWD_ACK_OK) in
        if negb (ack =? SWD_ACK_OK) then (st, match s_failed st with Some (_, _, a) => a | None => 0 end, 0)
        else
          let r := Rec (Z.land request 15, if is_read request then 0 else data) None (s_cur_cnt st) (s_cur_rp st) in
          (set_recs (recs st ++ [r]) st, SWD_ACK_OK, 0)
    end
  else xfer_loop (s_wait_retry st) st request data.

Section command.
Variable buf : list Z.
Variable req_len : nat.
Definition req (i : nat) : Z := nth i buf 0.
Definition get_le32 (p : nat) : Z := rd_le (sub p 4 buf).

Fixpoint match_scan (count p : nat) : bool :=
  match count with
  | O => false
  | S count' =>
      if (p <? req_len)%nat then
        let r := req p in
        if is_read r && is_match r then true
        else match_scan count' (if negb (is_read r) || is_match r then S p + 4 else S p)%nat
      else false
  end.
Definition req_count : nat := if (2 <? req_len)%nat then Z.to_nat (req 2) else 0%nat.
Definition has_match_read : bool := match_scan req_count 3.

(** A loop of [do_transfer]: where it reads, where it writes, the transfers done,
    the last ACK, and whether an AP read is posted. [inr] leaves the loop. *)
Record tr := Tr { t_st : dap_t; t_p : nat; t_rp : nat; t_count : Z; t_ack : Z; t_post : bool }.
Definition step := (tr + tr)%type.
Definition bind (m : step) (f : tr -> step) : step := match m with inl t => f t | inr t => inr t end.

(** A transfer whose ACK is not OK leaves the loop. *)
Definition run_xfer (t : tr) (request data : Z) (k : tr -> Z -> step) : step :=
  let '(st, ack, v) := xfer (t_st t) request data in
  let t := Tr st (t_p t) (t_rp t) (t_count t) ack (t_post t) in
  if negb (ack =? SWD_ACK_OK) then inr t else k t v.

Definition store_word (t : tr) (v : Z) : tr := Tr (store (t_st t) (t_rp t) v) (t_p t) (t_rp t + 4) (t_count t) (t_ack t) (t_post t).
Definition set_post (b : bool) (t : tr) : tr := Tr (t_st t) (t_p t) (t_rp t) (t_count t) (t_ack t) b.
Definition set_p (p : nat) (t : tr) : tr := Tr (t_st t) p (t_rp t) (t_count t) (t_ack t) (t_post t).
Definition set_ack (a : Z) (t : tr) : tr := Tr (t_st t) (t_p t) (t_rp t) (t_count t) a (t_post t).
Definition set_st (st : dap_t) (t : tr) : tr := Tr st (t_p t) (t_rp t) (t_count t) (t_ack t) (t_post t).

(** The posted AP read is finished, by the next AP read or by reading RDBUFF. *)
Definition finish_post (t : tr) (request : Z) : step :=
  if negb (t_post t) then inl t
  else if is_read request && is_ap request && negb (is_match request)
  then run_xfer t request 0 (fun t v => inl (store_word t v))
  else run_xfer t DP_RDBUFF_READ 0 (fun t v => inl (store_word (set_post false t) v)).

(** The reads of a match-value transfer, until the value matches or the retries end. *)
Fixpoint match_loop (retry : nat) (t : tr) (request match_value : Z) : step :=
  run_xfer t (if is_ap request then DP_RDBUFF_READ else request) 0 (fun t data =>
    let hit := Z.land data (s_match_mask (t_st t)) =? match_value in
    let out := inl (if hit then t else set_ack (Z.lor (t_ack t) 16) t) in
    if hit then out
    else match retry, s_budget (t_st t) with
         | S retry', S b => match_loop retry' (set_st (set_budget b (t_st t)) t) request match_value
         | _, _ => out
         end).

Definition read_step (t : tr) (request : Z) : step :=
  if is_match request then
    if (req_len <? t_p t + 4)%nat then inr t
    else
      let match_value := get_le32 (t_p t) in
      let t := set_p (t_p t + 4) t in
      bind (if is_ap request then run_xfer t request 0 (fun t _ => inl t) else inl t)
        (fun t => match_loop (s_match_retry (t_st t)) t request match_value)
  else if is_ap request then
    if t_post t then inl t else run_xfer t request 0 (fun t _ => inl (set_post true t))
  else run_xfer t request 0 (fun t v => inl (store_word t v)).

Definition write_step (t : tr) (request : Z) : step :=
  if (req_len <? t_p t + 4)%nat then inr t
  else
    let value := get_le32 (t_p t) in
    let t := set_p (t_p t + 4) t in
    if is_mask request then inl (set_st (set_mask value (t_st t)) t)
    else run_xfer t request value (fun t _ => inl t).

Definition count_one (t : tr) : step := inl (Tr (t_st t) (t_p t) (t_rp t) (u8 (t_count t + 1)) (t_ack t) (t_post t)).

Definition one_transfer (t : tr) : step :=
  if (req_len <=? t_p t)%nat then inr t
  else if (DAP_PACKET_SIZE <? t_rp t + 12)%nat then inr t
  else
    let t := set_st (set_cur (t_count t) (t_rp t) (t_st t)) t in
    let request := req (t_p t) in
    let t := set_p (S (t_p t)) t in
    bind (finish_post t request) (fun t =>
    bind (if is_read request then read_step t request else write_step t request) count_one).

Fixpoint transfers (count : nat) (t : tr) : tr :=
  match count with
  | O => t
  | S count' => match one_transfer t with inl t => transfers count' t | inr t => t end
  end.

(** The last posted read, and the header of the response. *)
Definition last_post (t : tr) : tr :=
  let t := set_st (set_cur (t_count t) (t_rp t) (t_st t)) t in
  if t_post t && (t_ack t =? SWD_ACK_OK)
  then match run_xfer t DP_RDBUFF_READ 0 (fun t v => inl (store_word t v)) with inl t => t | inr t => t end
  else t.

(** When a batch stopped early, its counts are the response's. *)
Definition finish (t : tr) : tr :=
  if s_recording (t_st t) then
    let st := rec_end (t_st t) in
    match s_failed st with Some (cnt, rp, ack) => Tr st (t_p t) rp cnt ack (t_post t) | None => set_st st t end
  else t.

Definition do_transfer (st : dap_t) : dap_t * nat :=
  let t := finish (last_post (transfers req_count (Tr st 3 3 0 DAP_OK false))) in
  (put (t_st t) 1 [u8 (t_count t); t_ack t], t_rp t).

(** ** [DAP_TransferBlock] *)

Fixpoint block_reads (count : nat) (request : Z) (t : tr) : tr :=
  match count with
  | O => t
  | S count' =>
      let rq := if is_ap request && (count' =? 0)%nat then DP_RDBUFF_READ else request in
      let t := set_st (set_cur (t_count t) (t_rp t) (t_st t)) t in
      match run_xfer t rq 0 (fun t v => inl (Tr (t_st (store_word t v)) (t_p t) (t_rp t + 4) (u16 (t_count t + 1)) (t_ack t) (t_post t))) with
      | inl t => block_reads count' request t
      | inr t => t
      end
  end.

Definition block_read (count : nat) (request : Z) (t : tr) : tr :=
  let count := Nat.min count ((DAP_PACKET_SIZE - 4) / 4) in
  let t := set_st (set_cur 0 (t_rp t) (t_st t)) t in
  if is_ap request
  then match run_xfer t request 0 (fun t _ => inl t) with inl t => block_reads count request t | inr t => t end
  else block_reads count request t.

Fixpoint block_writes (count : nat) (request : Z) (t : tr) : tr :=
  match count with
  | O => t
  | S count' =>
      if (req_len <? t_p t + 4)%nat then t
      else
        let value := get_le32 (t_p t) in
        let t := set_p (t_p t + 4) (set_st (set_cur (t_count t) (t_rp t) (t_st t)) t) in
        match run_xfer t request value (fun t _ => inl (Tr (t_st t) (t_p t) (t_rp t) (u16 (t_count t + 1)) (t_ack t) (t_post t))) with
        | inl t => block_writes count' request t
        | inr t => t
        end
  end.

Definition do_transfer_block (st : dap_t) : dap_t * nat :=
  if (req_len <? 5)%nat then (put st 1 [0; 0; 0], 4%nat)
  else
    let count := Z.to_nat (rd_le (sub 2 2 buf)) in
    let request := req 4 in
    if (count =? 0)%nat then (put st 1 [0; 0; SWD_ACK_OK], 4%nat)
    else
      let t := Tr st 5 4 0 SWD_ACK_OK false in
      let t := finish (if is_read request then block_read count request t else block_writes count request t) in
      (put (t_st t) 1 (le 2 (t_count t) ++ [t_ack t]), t_rp t).

(** ** The other commands *)

Definition FW_VER : list Z := str "1.2.0" ++ [0].
Definition do_info (st : dap_t) : dap_t * nat :=
  let id := if (1 <? req_len)%nat then req 1 else 0 in
  let answer bs := (put st 1 bs, S (length bs)) in
  if id =? 0xF0 then answer [1; 1]
  else if id =? 0xFE then answer [1; s_packet_count st]
  else if id =? 0xFF then answer (2 :: le 2 (s_packet_size st))
  else if id =? 4 then answer (Z.of_nat (length FW_VER) :: FW_VER)
  else answer [0].

Fixpoint sequences (n : nat) (st : dap_t) (p rp : nat) : dap_t * nat :=
  match n with
  | O => (st, rp)
  | S n' =>
      if (req_len <=? p)%nat then (st, rp)
      else
        let info := req p in
        let nbits := if Z.land info 63 =? 0 then 64 else Z.land info 63 in
        let nbytes := Z.to_nat ((nbits + 7) / 8) in
        if Z.testbit info 7 then
          if (DAP_PACKET_SIZE <? rp + nbytes)%nat then (put st 1 [DAP_ERROR], rp)
          else
            let '(l, bs) := swd_ll_seq_in (line st) nbits in
            sequences n' (put (set_line l st) rp (take nbytes bs)) (S p) (rp + nbytes)
        else if (req_len <? S p + nbytes)%nat then (st, rp)
        else sequences n' (set_line (swd_ll_seq_out (line st) (sub (S p) nbytes buf) nbits) st) (S p + nbytes) rp
  end.

Definition do_swd_sequence (st : dap_t) : dap_t * nat :=
  sequences (if (1 <? req_len)%nat then Z.to_nat (req 1) else 0) (put st 1 [DAP_OK]) 2 2.

Definition configure_transfers (st : dap_t) : dap_t :=
  if (req_len <? 6)%nat then st
  else
    let wait := rd_le (sub 2 2 buf) in
    let l := swd_ll_set_idle (swd_ll_set_wait_retry (line st) (if wait <? DAP_BATCH_WAIT_MAX then wait else DAP_BATCH_WAIT_MAX)) (req 1) in
    {| st with line := l; s_wait_retry := Z.to_nat wait; s_match_retry := Z.to_nat (rd_le (sub 4 2 buf)) |}.

Definition write_abort (st : dap_t) : dap_t * Z :=
  if (req_len <? 6)%nat then (st, SWD_ACK_OK) else let '(st, ack, _) := xfer st DP_ABORT_WRITE (get_le32 2) in (st, ack).

Definition byte_or (i : nat) (d : Z) : Z := if (i <? req_len)%nat then req i else d.

(** A command with [supported], what the line says of batches. *)
Definition dap_run (supported : bool) (st : dap_t) : dap_t * nat :=
  let cmd := req 0 in
  let st := set_budget DAP_RETRY_BUDGET (put st 0 [cmd]) in
  let answer st bs := (put st 1 bs, S (length bs)) in
  if cmd =? 0x00 then do_info st
  else if cmd =? 0x01 then answer st [DAP_OK]
  else if cmd =? 0x02 then answer st (if (1 <? req_len)%nat && (req 1 =? 2) then [0] else [1])
  else if cmd =? 0x03 then answer st [DAP_OK]
  else if cmd =? 0x04 then answer (configure_transfers st) [DAP_OK]
  else if cmd =? 0x05 then do_transfer (if supported && negb has_match_read then rec_begin st else st)
  else if cmd =? 0x06 then do_transfer_block (if supported then rec_begin st else st)
  else if cmd =? 0x08 then let '(st, ack) := write_abort st in answer st [if ack =? SWD_ACK_OK then DAP_OK else DAP_ERROR]
  else if cmd =? 0x09 then answer st [DAP_OK]
  else if cmd =? 0x0A then answer st [DAP_OK; 0]
  else if cmd =? 0x10 then
    let out := byte_or 1 0 in
    answer (if Z.testbit (byte_or 2 0) 7 then set_line (swd_ll_nreset (line st) (negb (Z.testbit out 7))) st else st) [out]
  else if cmd =? 0x11 then answer (if (req_len <? 5)%nat then st else set_line (swd_ll_set_clock (line st) (get_le32 1)) st) [DAP_OK]
  else if cmd =? 0x12 then
    let nbits := if byte_or 1 0 =? 0 then 256 else byte_or 1 0 in
    answer (if (req_len <? 2)%nat then st else set_line (swd_ll_seq_out (line st) (drop 2 buf) nbits) st) [DAP_OK]
  else if cmd =? 0x13 then
    let cfg := byte_or 1 0 in
    answer (set_line (swd_ll_configure (line st) (u8 (Z.land cfg 3 + 1)) (Z.testbit cfg 2)) st) [DAP_OK]
  else if cmd =? 0x1D then do_swd_sequence st
  else (put st 0 [ID_DAP_Invalid], 1%nat).

(** The new state and the response. *)
Definition answer_of (r : dap_t * nat) : dap_t * list Z := (fst r, take (snd r) (resp (fst r))).
Definition dap_process (st : dap_t) (resp_cap : nat) : dap_t * list Z :=
  answer_of (if (req_len =? 0)%nat || (resp_cap <? DAP_PACKET_SIZE)%nat then (put st 0 [ID_DAP_Invalid], 1%nat)
             else dap_run (swd_ll_batch_supported (line st)) st).
End command.
End dap.
Arguments dap_t : clear implicits.
Arguments tr : clear implicits.
