(* ===== verification/DapTheorems.v ===== *)
(** * What the CMSIS-DAP processor guarantees *)

From S2P Require Import Prelude Dap.

(** ** What every command keeps *)

(** A property of the state that the bus operations and the bookkeeping keep is
    kept by the transfer commands. *)
Section keeps.
Context `{SwdPort L}.
Variable buf : list Z.
Variable req_len : nat.
Variable P : dap_t L -> Prop.
(** Whether the room in the response matters. *)
Variable B : Prop.
Hypothesis P_xfer : forall st rq d, P st -> P (fst (fst (xfer st rq d))).
Hypothesis P_store : forall st rp v, P st -> (B -> (rp + 4 <= 1024)%nat) -> P (store st rp v).
Hypothesis P_cur : forall st c rp, P st -> (B -> (rp <= 1024)%nat) -> P (set_cur c rp st).
Hypothesis P_mask : forall st m, P st -> P (set_mask m st).
Hypothesis P_budget : forall st b, P st -> P (set_budget b st).

(** The state, with room for [n] more words in the response. *)
Definition kept (n : nat) (t : tr L) : Prop := P (t_st t) /\ (B -> (t_rp t + 4 * n <= 1024)%nat).
#[local] Ltac room := cbn; intros; repeat match goal with Hb : B, Hr : B -> _ |- _ => specialize (Hr Hb) end; lia.
Definition kept_step (n : nat) (m : step) : Prop := match m with inl t | inr t => kept n t end.

Lemma kept_less n k t : (k <= n)%nat -> kept n t -> kept k t.
Proof. intros Hk [Hp Hr]. split; [done|room]. Qed.

Lemma kept_bind n k m f : (n <= k)%nat -> kept_step k m -> (forall t, kept k t -> kept_step n (f t)) -> kept_step n (bind m f).
Proof. intros Hn Hm Hf. destruct m as [t|t]; cbn in *; [by apply Hf|by apply (kept_less k)]. Qed.

Lemma kept_xfer m n t rq d k : (m <= n)%nat -> kept n t -> (forall t' v, kept n t' -> kept_step m (k t' v)) -> kept_step m (run_xfer t rq d k).
Proof.
  intros Hm [Hp Hr] Hk. unfold run_xfer. pose proof (P_xfer (t_st t) rq d Hp) as Hx. destruct (xfer (t_st t) rq d) as [[st ack] v]. cbn [fst] in Hx.
  cbv zeta. destruct (negb _); [cbn; split; cbn; [done|room]|]. apply Hk. by split.
Qed.

Lemma kept_store n t v : kept (S n) t -> kept n (store_word t v).
Proof. intros [Hp Hr]. split; cbn; [apply P_store; [done|room]|room]. Qed.

Lemma kept_st n t st : P st -> kept n t -> kept n (set_st st t).
Proof. intros Hp [_ Hr]. by split. Qed.

Lemma finish_post_kept n t rq : kept (S n) t -> kept_step n (finish_post t rq).
Proof.
  intros Hk. unfold finish_post. destruct (negb _); [apply (kept_less (S n)); [lia|done]|].
  destruct (_ && _); (apply (kept_xfer _ (S n)); [lia|done|]); intros t' v Hk'; cbn; apply kept_store; exact Hk'.
Qed.

Lemma match_loop_kept n retry : forall t rq mv, kept n t -> kept_step n (match_loop retry t rq mv).
Proof.
  induction retry as [|retry IH]; intros t rq mv Hk; cbn [match_loop]; (apply (kept_xfer _ n); [lia|done|]); intros t' v Hk'; destruct (_ =? mv); try exact Hk'.
  destruct (s_budget (t_st t')) as [|b]; [exact Hk'|]. apply IH, kept_st; [|done]. by apply P_budget, Hk'.
Qed.

Lemma read_step_kept n t rq : kept (S n) t -> kept_step n (read_step buf req_len t rq).
Proof.
  intros Hk. assert (H0 : kept n t) by (apply (kept_less (S n)); [lia|done]). unfold read_step. destruct (is_match rq).
  - destruct (req_len <? t_p t + 4)%nat; [exact H0|]. cbv zeta. apply (kept_bind n n); [lia| |].
    + destruct (is_ap rq); [|exact H0]. apply (kept_xfer n n); [lia|exact H0|]. intros t' _ Hk'. exact Hk'.
    + intros t' Hk'. by apply match_loop_kept.
  - destruct (is_ap rq).
    + destruct (t_post t); [exact H0|]. apply (kept_xfer n n); [lia|exact H0|]. intros t' _ Hk'. exact Hk'.
    + apply (kept_xfer n (S n)); [lia|done|]. intros t' v Hk'. by apply kept_store.
Qed.

Lemma write_step_kept n t rq : kept n t -> kept_step n (write_step buf req_len t rq).
Proof.
  intros Hk. unfold write_step. destruct (req_len <? t_p t + 4)%nat; [exact Hk|]. cbv zeta. destruct (is_mask rq).
  - cbn. split; [by apply P_mask, Hk|apply Hk].
  - apply (kept_xfer n n); [lia|exact Hk|]. intros t' _ Hk'. exact Hk'.
Qed.

Lemma one_transfer_kept t : kept 1 t -> kept_step 1 (one_transfer buf req_len t).
Proof.
  intros Hk. unfold one_transfer. destruct (req_len <=? t_p t)%nat; [exact Hk|]. destruct (Nat.ltb_spec DAP_PACKET_SIZE (t_rp t + 12)); [exact Hk|]. cbv zeta.
  assert (H3 : kept 3 (set_p (S (t_p t)) (set_st (set_cur (t_count t) (t_rp t) (t_st t)) t))) by (split; cbn; [apply P_cur; [apply Hk|destruct Hk; room]|destruct Hk; room]).
  apply (kept_bind 1 2); [lia|by apply finish_post_kept|]. intros t' H2. apply (kept_bind 1 1); [lia| |by intros t'' H1].
  cbn [t_p set_st]. match goal with |- context [is_read ?r] => destruct (is_read r) end.
  - by apply read_step_kept.
  - apply write_step_kept. by apply (kept_less 2); [lia|].
Qed.

Lemma transfers_kept count : forall t, kept 1 t -> kept 1 (transfers buf req_len count t).
Proof.
  induction count as [|count IH]; intros t Hk; [done|]. cbn [transfers]. pose proof (one_transfer_kept t Hk) as H1.
  destruct (one_transfer buf req_len t) as [t'|t']; [by apply IH|done].
Qed.

Lemma last_post_kept t : kept 1 t -> kept 0 (last_post t).
Proof.
  intros Hk. unfold last_post. set (t1 := set_st _ t). assert (H1 : kept 1 t1) by (split; cbn; [apply P_cur; [apply Hk|destruct Hk; room]|apply Hk]). clearbody t1. cbv zeta.
  destruct (_ && _); [|apply (kept_less 1); [lia|done]].
  pose proof (kept_xfer 0 1 t1 DP_RDBUFF_READ 0 (fun t v => inl (store_word t v)) ltac:(lia) H1 (fun t' v Hk' => kept_store 0 t' v Hk')) as G.
  by destruct (run_xfer t1 DP_RDBUFF_READ 0 _).
Qed.

Lemma block_reads_kept count : forall rq t, kept count t -> kept 0 (block_reads count rq t).
Proof.
  induction count as [|count IH]; intros rq t Hk; [done|]. cbn [block_reads]. set (t1 := set_st _ t).
  assert (H1 : kept (S count) t1) by (split; cbn; [apply P_cur; [apply Hk|destruct Hk; room]|apply Hk]). clearbody t1. cbv zeta.
  set (r := if is_ap rq && (count =? 0)%nat then DP_RDBUFF_READ else rq). clearbody r.
  match goal with |- context [run_xfer t1 r 0 ?f] => pose proof (kept_xfer count (S count) t1 r 0 f ltac:(lia) H1) as G end.
  match type of G with (?A -> _) => assert (HA : A) by (intros t' v Hk'; exact (kept_store count t' v Hk')); specialize (G HA) end.
  destruct (run_xfer t1 r 0 _) as [t'|t']; [by apply IH|apply (kept_less count); [lia|done]].
Qed.

Lemma block_read_kept count rq t : P (t_st t) -> (B -> t_rp t = 4%nat) -> kept 0 (block_read count rq t).
Proof.
  intros Hp Hr. unfold block_read. set (n := Nat.min count ((DAP_PACKET_SIZE - 4) / 4)).
  assert (Hn : (n <= 255)%nat) by (unfold n; change ((DAP_PACKET_SIZE - 4) / 4)%nat with 255%nat; lia). clearbody n.
  set (t1 := set_st _ t). assert (H1 : kept n t1) by (split; cbn; [apply P_cur; [done|room]|room]). clearbody t1. cbv zeta. destruct (is_ap rq); [|by apply block_reads_kept].
  pose proof (kept_xfer n n t1 rq 0 (fun t _ => inl t) ltac:(lia) H1 (fun t' v Hk' => Hk')) as G.
  destruct (run_xfer t1 rq 0 _) as [t'|t']; [by apply block_reads_kept|apply (kept_less n); [lia|done]].
Qed.

Lemma block_writes_kept count : forall rq t, kept 0 t -> kept 0 (block_writes buf req_len count rq t).
Proof.
  induction count as [|count IH]; intros rq t Hk; [done|]. cbn [block_writes]. destruct (req_len <? t_p t + 4)%nat; [done|]. cbv zeta. set (t1 := set_p _ _).
  assert (H1 : kept 0 t1) by (split; cbn; [apply P_cur; [apply Hk|destruct Hk; room]|apply Hk]). clearbody t1.
  match goal with |- context [run_xfer t1 rq ?d ?f] => pose proof (kept_xfer 0 0 t1 rq d f ltac:(lia) H1 (fun t' v Hk' => Hk')) as G; destruct (run_xfer t1 rq d f) as [t'|t'] end;
    [by apply IH|done].
Qed.
End keeps.

(** ** The response stays in its buffer *)

Section inside.
Context `{SwdPort L}.
Variable buf : list Z.
Variable req_len : nat.

Definition dst_ok (r : rec) : Prop := match s_dst r with Some pos => (pos + 4 <= 1024)%nat | None => True end /\ (s_rp_at r <= 1024)%nat.
Record inside (st : dap_t L) : Prop := {
  in_oob : oob st = false;
  in_recs : Forall dst_ok (recs st);
  in_cur : (s_cur_rp st <= 1024)%nat;
  in_failed : forall c rp a, s_failed st = Some (c, rp, a) -> (rp <= 1024)%nat;
}.

Lemma put_inside st pos bs : inside st -> (pos + length bs <= 1024)%nat -> inside (put st pos bs).
Proof.
  intros [Ho Hr Hc Hf] Hl. split; [|done|done|done]. unfold put. cbn [oob]. rewrite Ho. cbn [orb]. by destruct (Nat.ltb_spec DAP_PACKET_SIZE (pos + length bs)); [lia|].
Qed.

Lemma set_line_inside st l : inside st -> inside (set_line l st).
Proof. by intros [Ho Hr Hc Hf]. Qed.

Lemma scatter_inside rs : forall st rdata, inside st -> Forall dst_ok rs -> inside (scatter st rs rdata).
Proof.
  induction rs as [|r rs IH]; intros st rdata Hi Hf; [done|]. inversion Hf as [|? ? [Hd _] Hf']; subst. cbn [scatter]. destruct (is_read (fst (op r))); [|by apply IH].
  apply IH; [|done]. destruct (s_dst r) as [pos|]; [|done]. apply put_inside; [done|]. by rewrite le_length.
Qed.

Lemma flush_inside st : inside st -> inside (fst (rec_flush st)).
Proof.
  intros Hi. unfold rec_flush. destruct (s_failed st) as [[[c rp] a]|]; [done|]. destruct (_ =? _)%nat; [done|]. destruct (swd_ll_batch _ _) as [[[l done] rdata] ack]. cbv zeta. cbn [fst].
  assert (H1 : inside (scatter (set_line l st) (take done (recs st)) rdata)) by (apply scatter_inside; [by apply set_line_inside|apply Forall_take, Hi]).
  destruct H1 as [H1 H2 H3 H4]. destruct (recs st !! done) as [r|] eqn:Er; (split; [exact H1|constructor|exact H3|]).
  - intros c rp a [= <- <- <-]. pose proof (Forall_lookup_1 _ _ _ _ (in_recs _ Hi) Er) as [_ Hr]. exact Hr.
  - exact H4.
Qed.

Lemma loop_inside retry : forall st rq d, inside st -> inside (fst (fst (xfer_loop retry st rq d))).
Proof.
  induction retry as [|retry IH]; intros st rq d Hi; cbn [xfer_loop]; destruct (swd_ll_transfer _ _ _) as [[l ack] v]; destruct (negb _); try by apply set_line_inside.
  cbn [s_budget set_line]. destruct (s_budget st); [by apply set_line_inside|]. apply IH. destruct Hi. by split.
Qed.

Lemma xfer_inside st rq d : inside st -> inside (fst (fst (xfer st rq d))).
Proof.
  intros Hi. unfold xfer. destruct (s_recording st); [|by apply loop_inside]. destruct (s_failed st) as [[[c rp] a]|]; [done|].
  assert (H1 : inside (fst (if (length (recs st) =? REC_MAX)%nat then rec_flush st else (st, SWD_ACK_OK)))) by (destruct (_ =? _)%nat; [by apply flush_inside|done]).
  destruct (if (length (recs st) =? REC_MAX)%nat then rec_flush st else (st, SWD_ACK_OK)) as [st1 ack]. cbn [fst] in H1.
  destruct (negb _); [done|]. destruct H1 as [H1 H2 H3 H4]. split; [done| |done|done]. cbn. apply Forall_app_2; [done|]. constructor; [by split|constructor].
Qed.

Lemma store_inside st rp v : inside st -> (rp + 4 <= 1024)%nat -> inside (store st rp v).
Proof.
  intros Hi Hr. unfold store. destruct (s_recording st); [|apply put_inside; [done|by rewrite le_length]]. destruct Hi as [Ho Hf Hc Hfl]. split; [done| |cbn; lia|done].
  cbn. unfold set_dst. destruct (rev (recs st)) as [|r rs] eqn:E; [constructor|]. apply Forall_rev in Hf. rewrite E in Hf. inversion Hf as [|? ? [_ Hrp] ?]; subst.
  apply Forall_app_2; [by apply Forall_rev|]. constructor; [by split|constructor].
Qed.

Lemma cur_inside st c rp : inside st -> (rp <= 1024)%nat -> inside (set_cur c rp st).
Proof. by intros [? ? ? ?] ?. Qed.
Lemma mask_inside st m : inside st -> inside (set_mask m st).
Proof. by intros [? ? ? ?]. Qed.
Lemma budget_inside st b : inside st -> inside (set_budget b st).
Proof. by intros [? ? ? ?]. Qed.

(** The end of a transfer command: the response fits. *)
Lemma finish_inside t : kept inside True 0 t -> inside (t_st (finish t)) /\ (t_rp (finish t) <= 1024)%nat.
Proof.
  intros [Hi Hr]. specialize (Hr I). unfold finish. destruct (s_recording (t_st t)); [|split; [done|lia]]. cbv zeta.
  assert (Hf : inside (rec_end (t_st t))) by (destruct (flush_inside _ Hi) as [? ? ? ?]; by split).
  destruct (s_failed (rec_end (t_st t))) as [[[c rp] a]|] eqn:E; [split; [done|]; by eapply in_failed|split; [done|cbn; lia]].
Qed.

Definition fits (r : dap_t L * nat) : Prop := inside (fst r) /\ (snd r <= 1024)%nat.

Lemma put_answer_fits st pos bs n : inside st -> (pos + length bs <= 1024)%nat -> (n <= 1024)%nat -> fits (put st pos bs, n).
Proof. intros Hi Hl Hn. split; [by apply put_inside|done]. Qed.

Lemma transfer_fits st : inside st -> fits (do_transfer buf req_len st).
Proof.
  intros Hi. unfold do_transfer. cbv zeta.
  assert (K : kept inside True 0 (last_post (transfers buf req_len (req_count buf req_len) (Tr st 3 3 0 DAP_OK false)))).
  { apply (last_post_kept inside True xfer_inside (fun st rp v Hi Hr => store_inside st rp v Hi (Hr I)) (fun st c rp Hi Hr => cur_inside st c rp Hi (Hr I))). apply (transfers_kept buf req_len inside True xfer_inside (fun st rp v Hi Hr => store_inside st rp v Hi (Hr I)) (fun st c rp Hi Hr => cur_inside st c rp Hi (Hr I)) mask_inside budget_inside).
    split; cbn; [done|lia]. }
  apply finish_inside in K as [K1 K2]. apply put_answer_fits; [done|cbn; lia|done].
Qed.

Lemma block_fits st : inside st -> fits (do_transfer_block buf req_len st).
Proof.
  intros Hi. unfold do_transfer_block. destruct (req_len <? 5)%nat; [apply put_answer_fits; [done|cbn; lia|lia]|]. destruct (_ =? 0)%nat; [apply put_answer_fits; [done|cbn; lia|lia]|]. cbv zeta.
  match goal with |- context [finish ?x] => assert (K : kept inside True 0 x) end.
  { destruct (is_read _); [by apply (block_read_kept inside True xfer_inside (fun st rp v Hi Hr => store_inside st rp v Hi (Hr I)) (fun st c rp Hi Hr => cur_inside st c rp Hi (Hr I)))|].
    apply (block_writes_kept buf req_len inside True xfer_inside (fun st c rp Hi Hr => cur_inside st c rp Hi (Hr I))). split; cbn; [done|lia]. }
  apply finish_inside in K as [K1 K2]. apply put_answer_fits; [done|rewrite length_app, le_length; cbn; lia|done].
Qed.

Lemma sequences_fits n : forall st p rp, inside st -> (rp <= 1024)%nat -> fits (sequences buf req_len n st p rp).
Proof.
  induction n as [|n IH]; intros st p rp Hi Hr; cbn [sequences]; [by split|]. destruct (req_len <=? p)%nat; [by split|]. cbv zeta. destruct (Z.testbit _ 7).
  - set (nb := Z.to_nat _). clearbody nb. destruct (Nat.ltb_spec DAP_PACKET_SIZE (rp + nb)); [apply put_answer_fits; [done|cbn; lia|done]|].
    destruct (swd_ll_seq_in _ _) as [l bs]. apply IH; [|lia]. apply put_inside; [by apply set_line_inside|]. rewrite length_take. lia.
  - destruct (_ <? _)%nat; [by split|]. apply IH; [by apply set_line_inside|done].
Qed.

Lemma info_fits st : inside st -> fits (do_info buf req_len st).
Proof.
  intros Hi. unfold do_info. repeat (destruct (_ =? _); [apply put_answer_fits; [done|rewrite ?length_cons, ?le_length; cbn; lia..]|]). apply put_answer_fits; [done|cbn; lia..].
Qed.

Lemma begin_inside st : inside st -> inside (rec_begin st).
Proof. intros [? ? ? ?]. by split. Qed.

Lemma configure_inside st : inside st -> inside (configure_transfers buf req_len st).
Proof. intros [? ? ? ?]. unfold configure_transfers. destruct (_ <? _)%nat; by split. Qed.

Lemma run_fits supported st : inside st -> fits (dap_run buf req_len supported st).
Proof.
  intros Hi. unfold dap_run. cbv zeta. set (st1 := set_budget _ _). assert (H1 : inside st1) by (apply budget_inside, put_inside; [done|cbn; lia]). clearbody st1. clear Hi st.
  assert (A : forall st bs, inside st -> (length bs <= 2)%nat -> fits (put st 1 bs, S (length bs))) by (intros; apply put_answer_fits; [done|lia|lia]).
  repeat match goal with |- fits (if req buf 0 =? ?c then _ else _) => destruct (req buf 0 =? c) end; try (apply A; [done|cbn; lia]).
  - by apply info_fits.
  - apply A; [done|]. destruct (_ && _); cbn; lia.
  - apply A; [by apply configure_inside|cbn; lia].
  - apply transfer_fits. destruct (_ && _); [by apply begin_inside|done].
  - apply block_fits. destruct supported; [by apply begin_inside|done].
  - unfold write_abort. destruct (_ <? _)%nat; [apply A; [done|cbn; lia]|]. pose proof (xfer_inside st1 DP_ABORT_WRITE (get_le32 buf 2) H1) as X.
    destruct (xfer _ _ _) as [[st2 ack] v]. apply A; [exact X|cbn; lia].
  - apply A; [destruct (Z.testbit _ 7); [by apply set_line_inside|done]|cbn; lia].
  - apply A; [destruct (_ <? _)%nat; [done|by apply set_line_inside]|cbn; lia].
  - apply A; [destruct (_ <? _)%nat; [done|by apply set_line_inside]|cbn; lia].
  - apply A; [by apply set_line_inside|cbn; lia].
  - unfold do_swd_sequence. apply sequences_fits; [|lia]. apply put_inside; [done|cbn; lia].
  - apply put_answer_fits; [done|cbn; lia..].
Qed.

(** C26: Whatever packet a client sends, of whatever length, and whatever the target
    answers, nothing is stored outside the 1024-byte response buffer, neither at once
    nor when a batch's values come back, and the response is at most 1024 bytes. *)
Theorem dap_inside (st : dap_t L) (resp_cap : nat) :
  inside st ->
  let '(st', response) := dap_process buf req_len st resp_cap in
  oob st' = false /\ inside st' /\ (length response <= 1024)%nat.
Proof.
  intros Hi. unfold dap_process, answer_of. match goal with |- context [if ?b then (put st 0 [ID_DAP_Invalid], 1%nat) else ?e] => set (r := if b then (put st 0 [ID_DAP_Invalid], 1%nat) else e) end.
  assert (F : fits r) by (unfold r; destruct (_ || _); [apply put_answer_fits; [done|cbn; lia..]|by apply run_fits]).
  destruct F as [F1 F2]. split_and!; [apply F1|done|]. rewrite length_take. lia.
Qed.
End inside.

(** ** A target to run commands on *)

(** A DP with one register, the values written on top; writing A2 and A3 with APnDP
    clear, and reading nothing, is answered FAULT. *)
Definition demo_transfer (l : list Z) (rq d : Z) : list Z * Z * Z :=
  let r := Z.land rq 15 in
  if r =? 12 then (l, SWD_ACK_FAULT, 0)
  else if is_read r then (l, SWD_ACK_OK, u32 (hd 0 l + r)) else (d :: l, SWD_ACK_OK, 0).

Fixpoint demo_batch (l : list Z) (ops : list (Z * Z)) : list Z * nat * list Z * Z :=
  match ops with
  | [] => (l, O, [], SWD_ACK_OK)
  | (rq, d) :: ops' =>
      let '(l, ack, v) := demo_transfer l rq d in
      if ack =? SWD_ACK_OK
      then let '(l, n, vs, a) := demo_batch l ops' in (l, S n, (if is_read rq then v :: vs else vs), a)
      else (l, O, [], ack)
  end.

#[export] Instance demo_port : SwdPort (list Z) := {
  swd_ll_transfer := demo_transfer; swd_ll_batch := demo_batch; swd_ll_batch_supported _ := true; swd_ll_reset l := l; swd_ll_set_idle l _ := l;
  swd_ll_set_wait_retry l _ := l; swd_ll_set_clock l _ := l; swd_ll_configure l _ _ := l; swd_ll_nreset l _ := l; swd_ll_seq_out l _ _ := l;
  swd_ll_seq_in l nbits := (l, repeat 1 (Z.to_nat ((nbits + 7) / 8)));
}.

Definition demo : dap_t (list Z) := dap_reset (Dap [7] 0 0 0 0 0 0 true [] 0 0 None (repeat 0 1024) false).

Lemma demo_inside : inside demo.
Proof. split; [done|constructor|vm_compute; lia|done]. Qed.

(** A posted AP read, a DP write, a DP read. *)
Definition demo_packet : list Z := [5; 0; 3; 3; 4; 1; 2; 3; 4; 2].

Example demo_answer : snd (dap_process demo_packet 10 demo 1024) = [5; 3; 1] ++ le 4 21 ++ le 4 (rd_le [1; 2; 3; 4] + 2).
Proof. vm_compute. reflexivity. Qed.

Lemma dap_inside_witness :
  inside demo /\ let '(st', response) := dap_process demo_packet 10 demo 1024 in oob st' = false /\ inside st' /\ (length response <= 1024)%nat.
Proof. pose proof (dap_inside demo_packet 10 demo 1024 demo_inside) as H. split; [apply demo_inside|exact H]. Defined.

(** ** A recording that an empty block transfer leaves on

    [do_transfer_block] starts the recording before it looks at the count, and returns
    for a count of 0 without ending it. [DAP_WriteABORT] behind it is then recorded:
    the host reads [DAP_OK] and nothing was sent to the target. The next transfer
    command drops the record. *)
Example abort_lost :
  let '(st1, _) := dap_process [6; 0; 0; 0; 2] 5 demo 1024 in
  let '(st2, response) := dap_process [8; 0; 30; 0; 0; 0] 6 st1 1024 in
  let '(st3, _) := dap_process [5; 0; 1; 2] 4 st2 1024 in
  response = [8; DAP_OK] /\ line st2 = [7] /\ line st3 = [7].
Proof. vm_compute. done. Qed.

(** Without it, the word reaches the target. *)
Example abort_sent :
  let '(st2, response) := dap_process [8; 0; 30; 0; 0; 0] 6 demo 1024 in response = [8; DAP_OK] /\ line st2 = [30; 7].
Proof. vm_compute. done. Qed.
