(* ===== verification/DapBatch.v ===== *)
(** * A batch answers what transfers one by one answer

    [dap.c] records the transfers of a command and runs them as batches in the
    gateware. The reference is the same command with the recording off. *)

From S2P Require Import Prelude Dap DapTheorems.

(** The operations in order, up to the first that is not answered OK: the line, how
    many were done, the values read and the last ACK. *)
Fixpoint run_ops `{SwdPort L} (l : L) (ops : list (Z * Z)) : L * nat * list Z * Z :=
  match ops with
  | [] => (l, O, [], SWD_ACK_OK)
  | (rq, d) :: ops' =>
      let '(l, ack, v) := swd_ll_transfer l rq d in
      if negb (ack =? SWD_ACK_OK) then (l, O, [], ack)
      else let '(l, n, vs, a) := run_ops l ops' in (l, S n, (if is_read rq then v :: vs else vs), a)
  end.

(** What the line promises: the target never answers WAIT; a request is its low four
    bits; a batch is its operations in order (behind the values of those done, a word
    may follow). *)
Class SwdLaws (L : Type) `{SwdPort L} := {
  never_waits : forall l rq d, snd (fst (swd_ll_transfer l rq d)) <> SWD_ACK_WAIT;
  low_bits : forall l rq d, swd_ll_transfer l (Z.land rq 15) d = swd_ll_transfer l rq d;
  batch_law : forall l ops, exists extra,
    swd_ll_batch l ops = let '(l', n, vs, a) := run_ops l ops in (l', n, vs ++ extra, a);
}.

Section batch.
Context `{SwdLaws L}.

Lemma xfer_once retry st rq d : xfer_loop retry st rq d = let '(l, ack, v) := swd_ll_transfer (line st) rq d in (set_line l st, ack, v).
Proof.
  pose proof (never_waits (line st) rq d) as Hn. destruct retry; cbn [xfer_loop]; destruct (swd_ll_transfer (line st) rq d) as [[l ack] v]; cbn [fst snd] in Hn;
    by rewrite (proj2 (Z.eqb_neq _ _) Hn).
Qed.

Lemma run_ops_app ops1 : forall l ops2, run_ops l (ops1 ++ ops2) =
  let '(l1, n1, vs1, a1) := run_ops l ops1 in
  if (n1 =? length ops1)%nat then let '(l2, n2, vs2, a2) := run_ops l1 ops2 in (l2, (n1 + n2)%nat, vs1 ++ vs2, a2) else (l1, n1, vs1, a1).
Proof.
  induction ops1 as [|[rq d] ops1 IH]; intros l ops2; cbn [app run_ops length].
  { by destruct (run_ops l ops2) as [[[? ?] ?] ?]. }
  destruct (swd_ll_transfer l rq d) as [[l1 ack] v]. destruct (negb _); [done|]. rewrite IH. destruct (run_ops l1 ops1) as [[[l2 n1] vs1] a1]. cbn [Nat.eqb].
  destruct (run_ops l2 ops2) as [[[l3 n2] vs2] a2]. by destruct (n1 =? length ops1)%nat, (is_read rq).
Qed.

Lemma run_ops_range ops : forall l, let '(_, n, vs, a) := run_ops l ops in
  (n <= length ops)%nat /\ (a = SWD_ACK_OK <-> n = length ops) /\ length vs = length (List.filter (fun o => is_read (fst o)) (take n ops)).
Proof.
  induction ops as [|[rq d] ops IH]; intros l; cbn [run_ops]; [done|]. destruct (swd_ll_transfer l rq d) as [[l1 ack] v].
  destruct (Z.eqb_spec ack SWD_ACK_OK) as [->|Hne]; cbn [negb].
  - specialize (IH l1). destruct (run_ops l1 ops) as [[[l2 n] vs] a]. destruct IH as (H1 & H2 & H3). cbn [length take List.filter fst]. split_and!; [lia|rewrite H2; lia|].
    destruct (is_read rq); cbn [length]; by rewrite H3.
  - cbn. split_and!; [lia|split; [done|lia]|done].
Qed.

(** ** What a batch puts in the response *)

Fixpoint scat (m : list Z) (rs : list rec) (vs : list Z) : list Z :=
  match rs with
  | [] => m
  | r :: rs' =>
      if is_read (fst (op r)) then scat (match s_dst r with Some pos => write_at m pos (le 4 (hd 0 vs)) | None => m end) rs' (tl vs)
      else scat m rs' vs
  end.
Definition reads (rs : list rec) : nat := length (List.filter (fun r => is_read (fst (op r))) rs).

Lemma scatter_scat rs : forall (st : dap_t L) vs, let st' := scatter st rs vs in
  resp st' = scat (resp st) rs vs /\ line st' = line st /\ s_failed st' = s_failed st /\ s_recording st' = s_recording st /\ s_match_mask st' = s_match_mask st /\
  s_cur_cnt st' = s_cur_cnt st /\ s_cur_rp st' = s_cur_rp st.
Proof.
  induction rs as [|r rs IH]; intros st vs; cbv zeta; [done|]. cbn [scatter scat]. destruct (is_read (fst (op r))); [|apply IH]. destruct (s_dst r) as [pos|]; [|apply IH].
  destruct (IH (put_le32 st pos (hd 0 vs)) (tl vs)) as (E1 & E2 & E3 & E4 & E5 & E6 & E7). by rewrite E1, E2, E3, E4, E5, E6, E7.
Qed.

Lemma scat_extra rs : forall m vs extra, length vs = reads rs -> scat m rs (vs ++ extra) = scat m rs vs.
Proof.
  unfold reads. induction rs as [|r rs IH]; intros m vs extra Hl; [done|]. cbn [scat List.filter] in *. destruct (is_read (fst (op r))); [|by apply IH].
  destruct vs as [|v vs]; [done|]. cbn in *. apply IH. lia.
Qed.

Lemma scat_app rs1 : forall m rs2 vs1 vs2, length vs1 = reads rs1 -> scat m (rs1 ++ rs2) (vs1 ++ vs2) = scat (scat m rs1 vs1) rs2 vs2.
Proof.
  unfold reads. induction rs1 as [|r rs1 IH]; intros m rs2 vs1 vs2 Hl; [by destruct vs1|]. cbn [app scat List.filter] in *. destruct (is_read (fst (op r))); [|by apply IH].
  destruct vs1 as [|v vs1]; [done|]. cbn in *. apply IH. lia.
Qed.

Lemma reads_ops rs n : reads (take n rs) = length (List.filter (fun o => is_read (fst o)) (take n (map op rs))).
Proof. unfold reads. revert n. induction rs as [|r rs IH]; intros [|n]; try done. cbn [take map List.filter]. destruct (is_read (fst (op r))); cbn [length]; by rewrite IH. Qed.

(** ** The recording against the reference *)

(** Running what is recorded brings it to the reference. *)
Definition sync (d r : dap_t L) : Prop :=
  s_recording d = false /\ s_recording r = true /\ s_failed r = None /\ (length (recs r) <= REC_MAX)%nat /\
  exists vs, run_ops (line r) (map op (recs r)) = (line d, length (recs r), vs, SWD_ACK_OK) /\ resp d = scat (resp r) (recs r) vs.

(** ... and the last operation read [v], which has no place yet. *)
Definition last_read (v : Z) (d r : dap_t L) : Prop :=
  exists rs r0 vs, recs r = rs ++ [r0] /\ is_read (fst (op r0)) = true /\ length vs = reads rs /\
    run_ops (line r) (map op (recs r)) = (line d, length (recs r), vs ++ [v], SWD_ACK_OK) /\ resp d = scat (resp r) rs vs.

(** The reference stopped at [d]; the batch will stop there, or has. *)
Definition dead (d : tr L) (r : dap_t L) : Prop :=
  t_ack d <> SWD_ACK_OK /\ s_recording (t_st d) = false /\ s_recording r = true /\
  (s_failed r = Some (t_count d, t_rp d, t_ack d) /\ line r = line (t_st d) /\ resp r = resp (t_st d) /\ recs r = [] \/
   s_failed r = None /\ (length (recs r) <= REC_MAX)%nat /\
   exists k r0 vs, run_ops (line r) (map op (recs r)) = (line (t_st d), k, vs, t_ack d) /\ recs r !! k = Some r0 /\
     s_cnt_at r0 = t_count d /\ s_rp_at r0 = t_rp d /\ resp (t_st d) = scat (resp r) (take k (recs r)) vs).

(** A flush runs what is recorded. *)
Lemma flush_eq r : s_failed r = None -> recs r <> [] -> 
  let '(l, n, vs, a) := run_ops (line r) (map op (recs r)) in
  let r' := fst (rec_flush r) in
  line r' = l /\ resp r' = scat (resp r) (take n (recs r)) vs /\ recs r' = [] /\ s_recording r' = s_recording r /\
  s_failed r' = match recs r !! n with Some r0 => Some (s_cnt_at r0, s_rp_at r0, a) | None => None end /\
  snd (rec_flush r) = match recs r !! n with Some _ => a | None => SWD_ACK_OK end.
Proof.
  intros Hf Hne. destruct (batch_law (line r) (map op (recs r))) as [extra E]. pose proof (run_ops_range (map op (recs r)) (line r)) as R.
  unfold rec_flush. rewrite Hf. destruct (Nat.eqb_spec (length (recs r)) 0) as [E0|_]; [by apply length_zero_iff_nil in E0|]. rewrite E.
  destruct (run_ops (line r) (map op (recs r))) as [[[l n] vs] a]. destruct R as (Hn & Ha & Hv). cbv zeta. cbn [fst snd].
  destruct (scatter_scat (take n (recs r)) (set_line l r) (vs ++ extra)) as (S1 & S2 & S3 & S4 & S5 & _).
  rewrite scat_extra in S1 by (rewrite reads_ops; done). change (resp (set_line l r)) with (resp r) in S1.
  destruct (recs r !! n) as [r0|]; cbn; split_and!; try done; rewrite S3; cbn [set_line s_failed]; by rewrite Hf.
Qed.

Lemma flush_sync d r : sync d r -> snd (rec_flush r) = SWD_ACK_OK /\ sync d (fst (rec_flush r)) /\ recs (fst (rec_flush r)) = [] /\
  s_cur_cnt (fst (rec_flush r)) = s_cur_cnt r /\ s_cur_rp (fst (rec_flush r)) = s_cur_rp r.
Proof.
  intros (D & R & F & Hl & vs & E & Er). destruct (decide (recs r = [])) as [E0|Hne].
  { assert (Ef : rec_flush r = (r, SWD_ACK_OK)) by (unfold rec_flush; by rewrite F, E0). rewrite Ef. cbn [fst snd]. split_and!; try done. unfold sync. split_and!; try done. by exists vs. }
  pose proof (flush_eq r F Hne) as G. rewrite E in G. cbv zeta in G. rewrite firstn_all, lookup_ge_None_2 in G by lia. destruct G as (G1 & G2 & G3 & G4 & G5 & G6).
  split_and!; [exact G6|unfold sync; rewrite G5, G4; split_and!; [done|done|done|rewrite G3; cbn; lia|]; exists []; rewrite G3, G1; cbn; by rewrite Er, G2|done| |].
  all: unfold rec_flush; rewrite F; destruct (_ =? _)%nat; [done|]; destruct (swd_ll_batch _ _) as [[[l n] rd] a]; cbv zeta;
    destruct (scatter_scat (take n (recs r)) (set_line l r) rd) as (_ & _ & _ & _ & _ & C1 & C2); destruct (recs r !! n); cbn; by rewrite ?C1, ?C2.
Qed.

Lemma is_read_low rq : is_read (Z.land rq 15) = is_read rq.
Proof. unfold is_read. rewrite Z.land_spec. by rewrite andb_true_r. Qed.

(** One more operation recorded. *)
Lemma record_sync d r rq x : sync d r -> (length (recs r) < REC_MAX)%nat -> (is_read rq = true -> x = 0) ->
  let r2 := set_recs (recs r ++ [Rec (Z.land rq 15, if is_read rq then 0 else x) None (s_cur_cnt r) (s_cur_rp r)]) r in
  let '(l, ack, v) := swd_ll_transfer (line d) rq x in
  if ack =? SWD_ACK_OK then sync (set_line l d) r2 /\ (is_read rq = true -> last_read v (set_line l d) r2)
  else forall t, t_st t = set_line l d -> t_ack t = ack -> t_count t = s_cur_cnt r -> t_rp t = s_cur_rp r -> dead t r2.
Proof.
  intros (D & R & F & Hl & vs & E & Er) Hlt Hx. set (r0 := Rec _ _ _ _). cbv zeta.
  pose proof (run_ops_range (map op (recs r)) (line r)) as Hr. rewrite E in Hr. destruct Hr as (_ & _ & Hv). rewrite firstn_all2 in Hv by (by rewrite length_map).
  assert (Hv' : length vs = reads (recs r)) by (pose proof (reads_ops (recs r) (length (recs r))) as G; rewrite firstn_all, firstn_all2 in G by (by rewrite length_map); congruence).
  assert (Eo : swd_ll_transfer (line d) (Z.land rq 15) (if is_read rq then 0 else x) = swd_ll_transfer (line d) rq x)
    by (rewrite low_bits; destruct (is_read rq); [by rewrite Hx|done]).
  assert (Erun : run_ops (line r) (map op (recs r ++ [r0])) =
    let '(l, ack, v) := swd_ll_transfer (line d) rq x in
    if ack =? SWD_ACK_OK then (l, S (length (recs r)), vs ++ (if is_read rq then [v] else []), SWD_ACK_OK) else (l, length (recs r), vs, ack)).
  { rewrite map_app, run_ops_app, E. rewrite length_map, Nat.eqb_refl. cbn [map run_ops r0 op fst]. rewrite Eo, is_read_low.
    destruct (swd_ll_transfer (line d) rq x) as [[l ack] v]. destruct (ack =? SWD_ACK_OK); cbn [negb]; [rewrite Nat.add_1_r|rewrite Nat.add_0_r, app_nil_r]; done. }
  destruct (swd_ll_transfer (line d) rq x) as [[l ack] v]. destruct (Z.eqb_spec ack SWD_ACK_OK) as [->|Hne].
  - split.
    + unfold sync. cbn [recs set_recs]. split_and!; [done|done|done|rewrite length_app; cbn; lia|]. exists (vs ++ (if is_read rq then [v] else [])).
      split; [rewrite length_app, Nat.add_1_r; exact Erun|]. change (resp (set_line l d)) with (resp d). rewrite Er. change (resp (set_recs _ r)) with (resp r).
      rewrite scat_app by done. cbn [scat]. change (fst (op r0)) with (Z.land rq 15). rewrite is_read_low. by destruct (is_read rq).
    + intros Hrd. rewrite Hrd in Erun. exists (recs r), r0, vs. cbn [recs set_recs]. split_and!; [done|change (fst (op r0)) with (Z.land rq 15); by rewrite is_read_low|done| |exact Er].
      rewrite length_app, Nat.add_1_r. exact Erun.
  - intros t E1 E2 E3 E4. split_and!; [congruence|by rewrite E1|done|]. right. cbn [recs set_recs]. split_and!; [done|rewrite length_app; cbn; lia|]. exists (length (recs r)), r0, vs.
    rewrite E1, E2, E3, E4. split_and!; [exact Erun|by apply list_lookup_middle|done|done|]. change (resp (set_line l d)) with (resp d). rewrite Er.
    by rewrite take_app_length.
Qed.

Lemma xfer_sync d r rq x : sync d r -> (is_read rq = true -> x = 0) ->
  let '(l, ack, v) := swd_ll_transfer (line d) rq x in
  xfer d rq x = (set_line l d, ack, v) /\
  exists r2, xfer r rq x = (r2, SWD_ACK_OK, 0) /\ s_cur_cnt r2 = s_cur_cnt r /\ s_cur_rp r2 = s_cur_rp r /\
    if ack =? SWD_ACK_OK then sync (set_line l d) r2 /\ (is_read rq = true -> last_read v (set_line l d) r2)
    else forall t, t_st t = set_line l d -> t_ack t = ack -> t_count t = s_cur_cnt r -> t_rp t = s_cur_rp r -> dead t r2.
Proof.
  intros Hs Hx. pose proof Hs as (D & R & F & Hl & _).
  assert (Ed : xfer d rq x = let '(l, ack, v) := swd_ll_transfer (line d) rq x in (set_line l d, ack, v)) by (unfold xfer; rewrite D; apply xfer_once).
  set (r1 := if (length (recs r) =? REC_MAX)%nat then fst (rec_flush r) else r).
  assert (Er : xfer r rq x = (set_recs (recs r1 ++ [Rec (Z.land rq 15, if is_read rq then 0 else x) None (s_cur_cnt r1) (s_cur_rp r1)]) r1, SWD_ACK_OK, 0)).
  { unfold xfer, r1. rewrite R, F. destruct (_ =? _)%nat; [|done]. destruct (flush_sync d r Hs) as [G _]. destruct (rec_flush r) as [r' a]. cbn in G. by subst a. }
  assert (H1 : sync d r1 /\ (length (recs r1) < REC_MAX)%nat /\ s_cur_cnt r1 = s_cur_cnt r /\ s_cur_rp r1 = s_cur_rp r).
  { unfold r1. destruct (Nat.eqb_spec (length (recs r)) REC_MAX); [|split_and!; [done|lia|done|done]]. destruct (flush_sync d r Hs) as (_ & G1 & G2 & G3 & G4).
    split_and!; [done|rewrite G2; cbn; lia|done|done]. }
  clearbody r1. destruct H1 as (H1 & H2 & C1 & C2). pose proof (record_sync d r1 rq x H1 H2 Hx) as G. cbv zeta in G. rewrite C1, C2 in G.
  destruct (swd_ll_transfer (line d) rq x) as [[l ack] v]. split; [done|]. eexists. split; [rewrite C1, C2 in Er; exact Er|]. split_and!; [done|done|]. exact G.
Qed.

(** A value has its place: where the reference puts it. *)
Lemma store_sync d r rp v w : sync d r -> last_read v d r -> sync (store d rp v) (store r rp w) /\
  s_cur_cnt (store r rp w) = s_cur_cnt r /\ s_cur_rp (store r rp w) = (rp + 4)%nat.
Proof.
  intros (D & R & F & Hl & _) (rs & r0 & vs & Ers & Hrd & Hv & Erun & Er). unfold store. rewrite D, R. split; [|done].
  assert (Es : set_dst rp (recs r) = rs ++ [Rec (op r0) (Some rp) (s_cnt_at r0) (s_rp_at r0)]) by (unfold set_dst; rewrite Ers, rev_app_distr; cbn; by rewrite rev_involutive).
  unfold sync. cbn [recs set_recs set_cur s_recording s_failed line resp]. rewrite Es. split_and!; [done|done|done|rewrite Ers in Hl; by rewrite !length_app in *|].
  exists (vs ++ [v]). split.
  - rewrite Ers in Erun. rewrite map_app in *. rewrite length_app in *. exact Erun.
  - rewrite scat_app by done. cbn [scat op fst s_dst]. rewrite Hrd. cbn. by rewrite Er.
Qed.

(** What a stopped reference needs is kept by whatever is recorded after it. *)
Lemma dead_xfer D st rq x : dead D st -> dead D (fst (fst (xfer st rq x))).
Proof.
  intros (Ha & Hd & R & Hf). unfold xfer. rewrite R. destruct Hf as [(F & Hl & Hm & Hr)|(F & Hl & k & r0 & vs & E & Hk & Hc & Hp & Hm)].
  { rewrite F. unfold dead. split_and!; try done. by left. }
  rewrite F. pose proof (lookup_lt_Some _ _ _ Hk) as Hlt. destruct (Nat.eqb_spec (length (recs st)) REC_MAX) as [Hfull|Hroom].
  - assert (Hne : recs st <> []) by (intros E0; rewrite E0 in Hlt; cbn in Hlt; lia). pose proof (flush_eq st F Hne) as G. rewrite E in G. cbv zeta in G.
    rewrite Hk in G. destruct G as (G1 & G2 & G3 & G4 & G5 & G6). destruct (rec_flush st) as [st1 a]. cbn [fst snd] in *. rewrite G6.
    destruct (Z.eqb_spec (t_ack D) SWD_ACK_OK) as [?|_]; [done|]. cbn [negb fst]. unfold dead. split_and!; [done|done|congruence|]. left. split_and!; [congruence|done|by rewrite G2, Hm|done].
  - rewrite Z.eqb_refl. cbn [negb fst]. unfold dead. split_and!; [done|done|done|]. right. cbn [recs set_recs].
    split_and!; [done|rewrite length_app; cbn; lia|]. exists k, r0, vs. split_and!; [|by apply lookup_app_l_Some|done|done|].
    + rewrite map_app, run_ops_app. change (line (set_recs _ st)) with (line st). rewrite E, length_map. by destruct (Nat.eqb_spec k (length (recs st))); [lia|].
    + change (resp (set_recs _ st)) with (resp st). by rewrite take_app_le by lia.
Qed.

Lemma dead_store D st rp v : dead D st -> dead D (store st rp v).
Proof.
  intros (Ha & Hd & R & Hf). unfold store. rewrite R. unfold dead. cbn [recs set_recs set_cur s_recording s_failed line resp]. split_and!; [done|done|done|].
  destruct Hf as [(F & Hl & Hm & Hr)|(F & Hl & k & r0 & vs & E & Hk & Hc & Hp & Hm)]; [left; split_and!; [done|done|done|by rewrite Hr]|right].
  destruct (exists_last (l := recs st)) as (rs & rl & Ers); [intros E0; by rewrite E0 in Hk|].
  assert (Es : set_dst rp (recs st) = rs ++ [Rec (op rl) (Some rp) (s_cnt_at rl) (s_rp_at rl)]) by (unfold set_dst; rewrite Ers, rev_app_distr; cbn; by rewrite rev_involutive).
  rewrite Es. rewrite Ers, length_app in Hl. rewrite Ers in Hk, E, Hm. pose proof (lookup_lt_Some _ _ _ Hk) as Hlt. rewrite length_app in Hlt. cbn in Hlt.
  split_and!; [done|by rewrite length_app|]. rewrite map_app in *. rewrite take_app_le in Hm by lia. destruct (decide (k < length rs)%nat) as [Hin|].
  - exists k, r0, vs. rewrite lookup_app_l in * by lia. rewrite take_app_le by lia. split_and!; done.
  - assert (k = length rs) as -> by lia. rewrite list_lookup_middle in Hk by done. injection Hk as <-. exists (length rs), (Rec (op rl) (Some rp) (s_cnt_at rl) (s_rp_at rl)), vs.
    rewrite take_app_le by lia. split_and!; try done. by apply list_lookup_middle.
Qed.

Lemma dead_cur D st c rp : dead D st -> dead D (set_cur c rp st).
Proof. done. Qed.
Lemma dead_mask D st m : dead D st -> dead D (set_mask m st).
Proof. done. Qed.
Lemma dead_budget D st b : dead D st -> dead D (set_budget b st).
Proof. done. Qed.
End batch.
