(* ===== verification/DapEquiv.v ===== *)
(** * A recorded command gives the answer of the command run transfer by transfer *)

From S2P Require Import Prelude Dap DapTheorems DapBatch.

Section equiv.
Context `{SwdLaws L}.

(** ** Loops side by side

    [t] is the reference's loop; the recording is at the same place with the state [r]. *)

(** The place of the next record is current. *)
Definition cur (t : tr L) (r : dap_t L) : Prop := sync (t_st t) r /\ s_cur_cnt r = t_count t /\ s_cur_rp r = t_rp t.
Definition behind (D : tr L) (m : step) : Prop := match m with inl t | inr t => dead D (t_st t) end.
Definition rel (S : tr L -> dap_t L -> Prop) (m m' : step) : Prop :=
  match m, m' with
  | inl t, inl t' => t' = set_st (t_st t') t /\ S t (t_st t')
  | inr t, inr t' => t' = set_st (t_st t') t /\ sync (t_st t) (t_st t') \/ dead t (t_st t')
  | inr t, inl t' => dead t (t_st t')
  | inl _, inr _ => False
  end.

(** The generic lemmas of the commands, for a stopped reference. *)
Lemma keep_dead D n t : dead D (t_st t) -> kept (dead D) False n t.
Proof. by intros Hd. Qed.
Lemma behind_kept D n m : kept_step (dead D) False n m -> behind D m.
Proof. destruct m; by intros [Hd _]. Qed.
Definition dead_xfer' D := dead_xfer D.
Definition dead_store' D st rp v (Hd : dead D st) (_ : False -> (rp + 4 <= 1024)%nat) : dead D (store st rp v) := dead_store D st rp v Hd.
Definition dead_cur' D (st : dap_t L) c rp (Hd : dead D st) (_ : False -> (rp <= 1024)%nat) : dead D (set_cur c rp st) := dead_cur D st c rp Hd.

Lemma rel_bind S S' m m' f f' : rel S m m' ->
  (forall t r, S t r -> rel S' (f t) (f' (set_st r t))) -> (forall D t', dead D (t_st t') -> behind D (f' t')) -> rel S' (bind m f) (bind m' f').
Proof.
  intros Hm Hf Hd. destruct m as [t|t], m' as [t'|t']; cbn in *; [|done| |done].
  - destruct Hm as [-> Hs]. by apply Hf.
  - specialize (Hd t t' Hm). destruct (f' t') as [u|u]; cbn in Hd; [done|by right].
Qed.

(** A transfer: the reference goes on, and then so does the recording. *)
Lemma rel_xfer S t r rq x k k' : cur t r -> (is_read rq = true -> x = 0) ->
  (forall st r' v, let u := Tr st (t_p t) (t_rp t) (t_count t) SWD_ACK_OK (t_post t) in
     cur u r' -> (is_read rq = true -> last_read v st r') -> rel S (k u v) (k' (set_st r' u) 0)) ->
  (forall D t', dead D (t_st t') -> behind D (k' t' 0)) ->
  rel S (run_xfer t rq x k) (run_xfer (set_st r t) rq x k').
Proof.
  intros (Hs & C1 & C2) Hx Hk Hd. pose proof (xfer_sync (t_st t) r rq x Hs Hx) as G. unfold run_xfer. destruct (swd_ll_transfer (line (t_st t)) rq x) as [[l ack] v].
  destruct G as (-> & r2 & E & E1 & E2 & G). cbn [t_st set_st]. rewrite E. cbv zeta. rewrite Z.eqb_refl. cbn [negb]. destruct (Z.eqb_spec ack SWD_ACK_OK) as [->|Hne]; cbn [negb].
  - destruct G as [G1 G2]. apply (Hk (set_line l (t_st t)) r2 v); [|done]. split_and!; [done|cbn; congruence|cbn; congruence].
  - match goal with |- rel S (inr ?u) (k' ?u' 0) => assert (D : dead u r2) by (apply G; [done|done|done|done]); specialize (Hd u u' D); destruct (k' u' 0) end; [exact Hd|by right].
Qed.

Lemma cur_store t r v w : cur t r -> last_read v (t_st t) r -> cur (store_word t v) (store r (t_rp t) w).
Proof. intros (Hs & C1 & C2) Hl. destruct (store_sync (t_st t) r (t_rp t) v w Hs Hl) as (G1 & G2 & G3). split_and!; [done|cbn; congruence|done]. Qed.

Lemma sync_cur t r : sync (t_st t) r -> cur (set_st (set_cur (t_count t) (t_rp t) (t_st t)) t) (set_cur (t_count t) (t_rp t) r).
Proof. by intros Hs. Qed.

(** ** [DAP_Transfer] *)

Section command.
Variable buf : list Z.
Variable req_len : nat.

Definition at_p (p : nat) (t : tr L) (r : dap_t L) : Prop := cur t r /\ t_p t = p.

Lemma finish_post_rel t r rq : cur t r -> rel (at_p (t_p t)) (finish_post t rq) (finish_post (set_st r t) rq).
Proof.
  intros Hc. unfold finish_post. change (t_post (set_st r t)) with (t_post t). destruct (negb (t_post t)); [by split|].
  destruct (is_read rq && is_ap rq && negb (is_match rq)) eqn:E.
  - apply rel_xfer; [done|done| |].
    + intros st r' v u Hu Hl. apply andb_prop in E as [E _]. apply andb_prop in E as [E _]. split; [done|]. split; [|done]. apply (cur_store u r' v 0 Hu). by apply Hl.
    + intros D t' Hd. by apply (dead_store D).
  - apply rel_xfer; [done|done| |].
    + intros st r' v u Hu Hl. split; [done|]. split; [|done]. apply (cur_store (set_post false u) r' v 0 Hu). by apply Hl.
    + intros D t' Hd. by apply (dead_store D).
Qed.

Lemma read_step_rel t r rq : cur t r -> is_match rq = false -> is_read rq = true -> rel (at_p (t_p t)) (read_step buf req_len t rq) (read_step buf req_len (set_st r t) rq).
Proof.
  intros Hc Hm Hr. unfold read_step. rewrite Hm. change (t_post (set_st r t)) with (t_post t). destruct (is_ap rq).
  - destruct (t_post t); [by split|]. apply rel_xfer; [done|done| |done]. by intros st r' v u Hu _.
  - apply rel_xfer; [done|done| |].
    + intros st r' v u Hu Hl. split; [done|]. split; [|done]. apply (cur_store u r' v 0 Hu). by apply Hl.
    + intros D t' Hd. by apply (dead_store D).
Qed.

Lemma write_step_rel t r rq : cur t r -> is_read rq = false -> rel (at_p (t_p t + 4)) (write_step buf req_len t rq) (write_step buf req_len (set_st r t) rq).
Proof.
  intros Hc Hr. unfold write_step. change (t_p (set_st r t)) with (t_p t). destruct (req_len <? t_p t + 4)%nat; [left; split; [done|apply Hc]|]. cbv zeta.
  destruct (is_mask rq).
  - split; [done|]. split; [|done]. exact Hc.
  - apply (rel_xfer _ (set_p (t_p t + 4) t) r); [exact Hc|congruence| |done]. by intros st r' v u Hu _.
Qed.

Lemma one_transfer_rel t r : sync (t_st t) r -> (let q := req buf (t_p t) in is_read q && is_match q = false) ->
  rel (fun t' r' => sync (t_st t') r' /\ t_p t' = (if negb (is_read (req buf (t_p t))) || is_match (req buf (t_p t)) then S (t_p t) + 4 else S (t_p t))%nat)
    (one_transfer buf req_len t) (one_transfer buf req_len (set_st r t)).
Proof.
  intros Hs Hm. cbv zeta in Hm. unfold one_transfer. change (t_p (set_st r t)) with (t_p t). change (t_rp (set_st r t)) with (t_rp t). change (t_count (set_st r t)) with (t_count t).
  change (t_st (set_st r t)) with r. destruct (req_len <=? t_p t)%nat; [by left|]. destruct (DAP_PACKET_SIZE <? t_rp t + 12)%nat; [by left|]. cbv zeta.
  cbn [t_p set_st]. set (rq := req buf (t_p t)) in *. clearbody rq.
  set (t1 := set_p _ (set_st _ t)). assert (H1 : cur t1 (set_cur (t_count t) (t_rp t) r)) by (by apply sync_cur). assert (Ep : t_p t1 = S (t_p t)) by done.
  change (set_p (S (t_p t)) (set_st (set_cur (t_count t) (t_rp t) r) (set_st r t))) with (set_st (set_cur (t_count t) (t_rp t) r) t1). clearbody t1. rewrite <- Ep. clear Ep.
  apply (rel_bind (at_p (t_p t1))); [by apply finish_post_rel| |].
  - intros t2 r2 [H2 E2].
    apply (rel_bind (at_p (if negb (is_read rq) || is_match rq then t_p t1 + 4 else t_p t1)%nat)).
    + rewrite <- E2. destruct (is_read rq) eqn:Er; cbn [negb orb andb] in *; [rewrite Hm; by apply read_step_rel|by apply write_step_rel].
    + intros t3 r3 [H3 E3]. split; [done|]. split; [apply H3|exact E3].
    + intros D t' Hd. exact Hd.
  - intros D t2 Hd. apply (behind_kept D 1). apply (kept_bind (dead D) False 1 1); [lia| |by intros t' Hk].
    destruct (is_read rq).
    + apply (read_step_kept buf req_len (dead D) False (dead_xfer D) (dead_store' D) (dead_budget D)). by apply keep_dead.
    + apply (write_step_kept buf req_len (dead D) False (dead_xfer D) (dead_mask D)). by apply keep_dead.
Qed.

Definition after (t t' : tr L) : Prop := t' = set_st (t_st t') t /\ sync (t_st t) (t_st t') \/ dead t (t_st t').

Lemma transfers_dead D count : forall t, dead D (t_st t) -> dead D (t_st (transfers buf req_len count t)).
Proof.
  intros t Hd. apply (transfers_kept buf req_len (dead D) False (dead_xfer D) (dead_store' D) (dead_cur' D) (dead_mask D) (dead_budget D)). by apply keep_dead.
Qed.

Lemma transfers_rel count : forall t r, sync (t_st t) r -> match_scan buf req_len count (t_p t) = false ->
  after (transfers buf req_len count t) (transfers buf req_len count (set_st r t)).
Proof.
  induction count as [|count IH]; intros t r Hs Hm; cbn [transfers match_scan] in *; [by left|]. destruct (Nat.ltb_spec (t_p t) req_len) as [Hp|Hp].
  - cbv zeta in Hm. destruct (is_read (req buf (t_p t)) && is_match (req buf (t_p t))) eqn:Em; [done|]. pose proof (one_transfer_rel t r Hs Em) as G.
    destruct (one_transfer buf req_len t) as [u|u], (one_transfer buf req_len (set_st r t)) as [u'|u']; cbn [rel] in G; [|done| |exact G].
    + destruct G as (-> & G1 & G2). apply IH; [done|]. by rewrite G2.
    + right. by apply transfers_dead.
  - unfold one_transfer. change (t_p (set_st r t)) with (t_p t). destruct (Nat.leb_spec req_len (t_p t)); [by left|lia].
Qed.
End command.

Lemma last_post_rel t t' : after t t' -> after (last_post t) (last_post t').
Proof.
  intros [[E Hs]|Hd].
  - rewrite E. set (r := t_st t') in *. clearbody r. clear E t'. unfold last_post.
    change (set_st (set_cur (t_count (set_st r t)) (t_rp (set_st r t)) (t_st (set_st r t))) (set_st r t)) with (set_st (set_cur (t_count t) (t_rp t) r) (set_st (set_cur (t_count t) (t_rp t) (t_st t)) t)).
    pose proof (sync_cur t r Hs) as H1. set (t1 := set_st (set_cur (t_count t) (t_rp t) (t_st t)) t) in *. set (r1 := set_cur _ _ r) in *. clearbody t1 r1. cbv zeta.
    change (t_post (set_st r1 t1)) with (t_post t1). change (t_ack (set_st r1 t1)) with (t_ack t1). destruct (t_post t1 && (t_ack t1 =? SWD_ACK_OK)); [|left; split; [done|apply H1]].
    match goal with |- context [run_xfer t1 ?rq 0 ?k] => assert (G : rel cur (run_xfer t1 rq 0 k) (run_xfer (set_st r1 t1) rq 0 k)) end.
    { apply rel_xfer; [done|done| |].
      - intros st r' v u Hu Hl. split; [done|]. apply (cur_store u r' v 0 Hu). by apply Hl.
      - intros D t' Hd. by apply (dead_store D). }
    destruct (run_xfer t1 _ 0 _) as [u|u], (run_xfer (set_st r1 t1) _ 0 _) as [u'|u']; cbn [rel] in G; [|done| |exact G].
    + destruct G as (E & G & _). by left.
    + by right.
  - right. destruct Hd as (Ha & Hr & Hd). assert (K : dead t (t_st (last_post t'))).
    { apply (last_post_kept (dead t) False (dead_xfer t) (dead_store' t) (dead_cur' t) t'). by apply keep_dead. }
    unfold last_post at 1. cbv zeta. cbn [t_post t_ack set_st]. rewrite (proj2 (Z.eqb_neq _ _) Ha), andb_false_r. exact K.
Qed.

(** The response. *)
Lemma finish_rel t t' : after t t' ->
  line (t_st (finish t)) = line (t_st (finish t')) /\ resp (t_st (finish t)) = resp (t_st (finish t')) /\ t_count (finish t) = t_count (finish t') /\
  t_ack (finish t) = t_ack (finish t') /\ t_rp (finish t) = t_rp (finish t').
Proof.
  intros [[E Hs]|Hd]; unfold finish.
  - rewrite E. set (r := t_st t') in *. clearbody r. clear E t'. destruct (flush_sync _ _ Hs) as (_ & (D1 & D2 & D3 & _ & vs & Erun & Er) & Hn & _).
    destruct Hs as (D & R & _). rewrite D. change (t_st (set_st r t)) with r. rewrite R. cbv zeta.
    change (s_failed (rec_end r)) with (s_failed (fst (rec_flush r))). rewrite D3. rewrite Hn in Erun, Er. cbn in Erun, Er. cbn.
    injection Erun as El _. by rewrite Er, El.
  - destruct Hd as (Ha & D & R & Hf). rewrite D, R. cbv zeta. change (s_failed (rec_end (t_st t'))) with (s_failed (fst (rec_flush (t_st t')))).
    destruct Hf as [(F & Hl & Hm & Hr)|(F & Hl & k & r0 & vs & E & Hk & Hc & Hp & Hm)].
    + assert (Ef : rec_flush (t_st t') = (t_st t', t_ack t)) by (unfold rec_flush; by rewrite F). rewrite Ef. cbn [fst]. rewrite F. cbn. unfold rec_end. rewrite Ef. done.
    + assert (Hne : recs (t_st t') <> []) by (intros E0; by rewrite E0 in Hk). pose proof (flush_eq _ F Hne) as G. rewrite E in G. cbv zeta in G. rewrite Hk in G.
      destruct G as (G1 & G2 & G3 & G4 & G5 & G6). rewrite G5. cbn. unfold rec_end. cbn. by rewrite G1, G2, Hm, Hc, Hp.
Qed.

(** ** [DAP_TransferBlock] *)

Section block.
Variable buf : list Z.
Variable req_len : nat.

Definition going (t : tr L) (r : dap_t L) : Prop := sync (t_st t) r.

Lemma block_reads_dead D count rq t : dead D (t_st t) -> dead D (t_st (block_reads count rq t)).
Proof.
  revert rq t. induction count as [|count IH]; intros rq t Hd; [done|]. cbn [block_reads]. set (t1 := set_st _ t). assert (H1 : dead D (t_st t1)) by (exact Hd). clearbody t1. cbv zeta.
  set (rq1 := if is_ap rq && _ then _ else rq). clearbody rq1.
  match goal with |- context [run_xfer t1 rq1 0 ?k] => pose proof (kept_xfer (dead D) False (dead_xfer D) 0 0 t1 rq1 0 k ltac:(lia) (keep_dead D 0 t1 H1)) as G end.
  match type of G with (?A -> _) => assert (HA : A) by (intros t' v [Hk _]; apply keep_dead; exact (dead_store D _ _ _ Hk)); specialize (G HA) end.
  destruct (run_xfer t1 rq1 0 _) as [u|u]; [apply IH|]; apply G.
Qed.

Lemma block_reads_rel count : forall rq t r, is_read rq = true -> sync (t_st t) r -> after (block_reads count rq t) (block_reads count rq (set_st r t)).
Proof.
  induction count as [|count IH]; intros rq t r Hr Hs; cbn [block_reads]; [by left|].
  change (set_st (set_cur (t_count (set_st r t)) (t_rp (set_st r t)) (t_st (set_st r t))) (set_st r t)) with (set_st (set_cur (t_count t) (t_rp t) r) (set_st (set_cur (t_count t) (t_rp t) (t_st t)) t)).
  pose proof (sync_cur t r Hs) as H1. set (t1 := set_st (set_cur (t_count t) (t_rp t) (t_st t)) t) in *. set (r1 := set_cur _ _ r) in *. clearbody t1 r1. cbv zeta.
  set (rq1 := if is_ap rq && (count =? 0)%nat then DP_RDBUFF_READ else rq). assert (Hr1 : is_read rq1 = true) by (unfold rq1; by destruct (_ && _)). clearbody rq1.
  match goal with |- context [run_xfer t1 rq1 0 ?k] => assert (G : rel going (run_xfer t1 rq1 0 k) (run_xfer (set_st r1 t1) rq1 0 k)) end.
  { apply rel_xfer; [done|done| |].
    - intros st r' v u Hu Hl. split; [done|]. exact (proj1 (cur_store u r' v 0 Hu (Hl Hr1))).
    - intros D t' Hd. by apply (dead_store D). }
  destruct (run_xfer t1 rq1 0 _) as [u|u], (run_xfer (set_st r1 t1) rq1 0 _) as [u'|u']; cbn [rel] in G; [|done| |exact G].
  - destruct G as (E & G). rewrite E. by apply IH.
  - right. by apply block_reads_dead.
Qed.

Lemma block_read_rel count rq t r : is_read rq = true -> sync (t_st t) r -> t_count t = 0 -> after (block_read count rq t) (block_read count rq (set_st r t)).
Proof.
  intros Hr Hs Hz. unfold block_read. set (n := Nat.min count _). clearbody n.
  change (set_st (set_cur 0 (t_rp (set_st r t)) (t_st (set_st r t))) (set_st r t)) with (set_st (set_cur 0 (t_rp t) r) (set_st (set_cur 0 (t_rp t) (t_st t)) t)).
  pose proof (sync_cur t r Hs) as H1. rewrite Hz in H1. set (t1 := set_st (set_cur 0 (t_rp t) (t_st t)) t) in *. set (r1 := set_cur _ _ r) in *. clearbody t1 r1. cbv zeta.
  destruct (is_ap rq); [|apply block_reads_rel; [done|apply H1]].
  assert (G : rel going (run_xfer t1 rq 0 (fun t _ => inl t)) (run_xfer (set_st r1 t1) rq 0 (fun t _ => inl t))).
  { apply rel_xfer; [done|done| |done]. intros st r' v u Hu _. split; [done|apply Hu]. }
  destruct (run_xfer t1 rq 0 _) as [u|u], (run_xfer (set_st r1 t1) rq 0 _) as [u'|u']; cbn [rel] in G; [|done| |exact G].
  - destruct G as (E & G). rewrite E. by apply block_reads_rel.
  - right. by apply block_reads_dead.
Qed.

Lemma block_writes_rel count : forall rq t r, sync (t_st t) r -> is_read rq = false -> after (block_writes buf req_len count rq t) (block_writes buf req_len count rq (set_st r t)).
Proof.
  induction count as [|count IH]; intros rq t r Hs Hr; cbn [block_writes]; [by left|]. change (t_p (set_st r t)) with (t_p t). destruct (req_len <? t_p t + 4)%nat; [by left|]. cbv zeta.
  change (set_st (set_cur (t_count (set_st r t)) (t_rp (set_st r t)) (t_st (set_st r t))) (set_st r t)) with (set_st (set_cur (t_count t) (t_rp t) r) (set_st (set_cur (t_count t) (t_rp t) (t_st t)) t)).
  pose proof (sync_cur t r Hs) as H1. set (t1 := set_st (set_cur (t_count t) (t_rp t) (t_st t)) t) in *. set (r1 := set_cur _ _ r) in *. clearbody t1 r1.
  match goal with |- context [run_xfer (set_p _ t1) rq ?d ?k] => assert (G : rel going (run_xfer (set_p (t_p t + 4) t1) rq d k) (run_xfer (set_st r1 (set_p (t_p t + 4) t1)) rq d k)) end.
  { apply rel_xfer; [exact H1|congruence| |done]. intros st r' v u Hu _. split; [done|apply Hu]. }
  change (set_p (t_p t + 4) (set_st r1 t1)) with (set_st r1 (set_p (t_p t + 4) t1)).
  destruct (run_xfer (set_p _ t1) rq _ _) as [u|u], (run_xfer (set_st r1 _) rq _ _) as [u'|u']; cbn [rel] in G; [|done| |exact G].
  - destruct G as (E & G). rewrite E. by apply IH.
  - right. apply (block_writes_kept buf req_len (dead u) False (dead_xfer u) (dead_cur' u)). by apply keep_dead.
Qed.
End block.

(** ** The commands *)

Variable buf : list Z.
Variable req_len : nat.

Lemma begin_sync st : s_recording st = false -> sync st (rec_begin st).
Proof. intros Hr. unfold sync. cbn. split_and!; [done|done|done|lia|]. by exists []. Qed.

(** The same response and the same line. *)
Definition agree (a b : dap_t L * nat) : Prop := line (fst a) = line (fst b) /\ answer_of a = (fst a, snd (answer_of b)).

Lemma agree_put (t t' : tr L) (f : tr L -> list Z) : after t t' -> (forall u u', t_count u = t_count u' -> t_ack u = t_ack u' -> f u = f u') ->
  agree (put (t_st (finish t)) 1 (f (finish t)), t_rp (finish t)) (put (t_st (finish t')) 1 (f (finish t')), t_rp (finish t')).
Proof.
  intros Ha Hf. destruct (finish_rel t t' Ha) as (E1 & E2 & E3 & E4 & E5). unfold agree, answer_of. cbn [fst snd put resp line]. by rewrite E1, E2, E5, (Hf _ _ E3 E4).
Qed.

Lemma transfer_batched st : s_recording st = false -> has_match_read buf req_len = false -> agree (do_transfer buf req_len st) (do_transfer buf req_len (rec_begin st)).
Proof.
  intros Hr Hm. unfold do_transfer. cbv zeta. apply (agree_put _ _ (fun t => [u8 (t_count t); t_ack t])); [|by intros u u' -> ->].
  apply last_post_rel. apply (transfers_rel buf req_len (req_count buf req_len) (Tr st 3 3 0 DAP_OK false) (rec_begin st)); [by apply begin_sync|exact Hm].
Qed.

Lemma block_batched st : s_recording st = false -> agree (do_transfer_block buf req_len st) (do_transfer_block buf req_len (rec_begin st)).
Proof.
  intros Hr. unfold do_transfer_block. destruct (req_len <? 5)%nat; [done|]. destruct (_ =? 0)%nat; [done|]. cbv zeta.
  apply (agree_put _ _ (fun t => le 2 (t_count t) ++ [t_ack t])); [|by intros u u' -> ->]. set (t := Tr st 5 4 0 SWD_ACK_OK false).
  change (Tr (rec_begin st) 5 4 0 SWD_ACK_OK false) with (set_st (rec_begin st) t). assert (Hs : sync (t_st t) (rec_begin st)) by (by apply begin_sync).
  destruct (is_read (req buf 4)) eqn:E; [by apply block_read_rel|by apply block_writes_rel].
Qed.

End equiv.

(** ** On the target *)

#[export] Instance demo_laws : SwdLaws (list Z).
Proof.
  assert (Hlow : forall rq, Z.land (Z.land rq 15) 15 = Z.land rq 15) by (intros rq; by rewrite <- Z.land_assoc).
  split.
  - intros l rq d. cbn. unfold demo_transfer. destruct (_ =? 12); [done|]. by destruct (is_read _).
  - intros l rq d. cbn. unfold demo_transfer. by rewrite Hlow.
  - intros l ops. exists []. assert (E : swd_ll_batch l ops = run_ops l ops).
    { cbn. revert l. induction ops as [|[rq d] ops IH]; intros l; [done|]. cbn [demo_batch run_ops]. change (swd_ll_transfer l rq d) with (demo_transfer l rq d).
      destruct (demo_transfer l rq d) as [[l' ack] v]. rewrite IH. by destruct (ack =? SWD_ACK_OK). }
    rewrite E. destruct (run_ops l ops) as [[[? ?] ?] ?]. by rewrite app_nil_r.
Qed.

(** A write that the target faults stops the command behind the posted read. *)
Definition fault_packet : list Z := [5; 0; 3; 3; 12; 1; 2; 3; 4; 2].
