(* ===== verification/SwdLl.v ===== *)
(** * SWD over the FPGA ([swd_ll.c], and the SWD probe of [signal_engine.c])

    The pod's iCE40 decodes a stream of remote_bitbang bytes into pin changes, and runs
    queues of whole transfers. What it does with them is a class: the SPI commands, the
    clock behind the deadlines, the reset pin. *)

From S2P Require Import Prelude Dap.

Abbreviation SWD_WIRE_MAX := 768%nat.
Abbreviation SWD_MIN_IDLE := 8.
Abbreviation FPGA_HFOSC_HZ := 24000000.
Abbreviation SWD_QUEUE_MIN_GW := 45.
Abbreviation SWDQ_BYTES_MAX := 512%nat.
Abbreviation SWDQ_READS_MAX := 128%nat.
(** The bytes of remote_bitbang. *)
Abbreviation C_d := 100.
Abbreviation C_e := 101.
Abbreviation C_f := 102.
Abbreviation C_g := 103.
Abbreviation C_c := 99.
Abbreviation C_O := 79.
Abbreviation C_o := 111.
Abbreviation C_Q := 81.
Abbreviation C_LBRACE := 123.
Abbreviation ASCII_0 := 48.

Class SwdLink (G : Type) := {
  link_armed : G -> bool;                  (* STATUS is read and has STATUS_SWD_ARMED *)
  link_check_due : G -> bool;              (* swd_next_check has passed *)
  link_checked : G -> G;                   (* ... and is set again *)
  link_feed : G -> list Z -> G;            (* CMD_SWD_FEED *)
  link_read : G -> nat -> list Z;          (* CMD_SWD_READ *)
  link_qconfig : G -> Z -> Z -> G;         (* CMD_SWD_QCONFIG *)
  link_qfeed : G -> list Z -> G;           (* CMD_SWD_QFEED *)
  link_qpolls : G -> nat;                  (* CMD_SWD_QSTATUS reads before the deadline passes *)
  link_qstatus : G -> G * Z * Z;           (* CMD_SWD_QSTATUS *)
  link_version : G -> Z;
  link_nrst : G -> bool -> G;
}.

Section swd.
Context `{SwdLink G}.

Record swd_t := Swd {
  gw : G; swd_armed_local : bool;
  s_turnaround : Z; s_wait_retry : Z; s_half : Z; s_qcfg_dirty : bool; s_data_phase : bool; s_idle : Z;
}.
Definition set_gw (g : G) (st : swd_t) : swd_t := {| st with gw := g |}.

(** ** The probe's link ([signal_engine.c]) *)

(** One SPI burst: the bytes for the wire, the samples among them, what is left of the
    input, and whether the stream stops here, at '{', at 'Q' or for want of room. *)
Inductive stop_t := GoOn | StopJson | StopQuit | StopFull.
Fixpoint chunk (room : nat) (inp : list Z) (have cap : nat) : list Z * nat * list Z * stop_t :=
  match room, inp with
  | O, _ | _, [] => ([], O, inp, GoOn)
  | S room', b :: inp' =>
      if b =? C_LBRACE then ([], O, inp, StopJson)
      else if b =? C_Q then ([], O, inp', StopQuit)
      else if (b =? C_c) && (cap <=? have)%nat then ([], O, inp, StopFull)
      else
        let '(wire, cc, rest, stop) := chunk room' inp' (if b =? C_c then S have else have) cap in
        (b :: wire, (if b =? C_c then S cc else cc), rest, stop)
  end.

(** Gives the link, the bytes consumed, the samples, [exit_to_json] and [quit]. *)
Fixpoint feed_loop (fuel : nat) (g : G) (inp reply : list Z) (cap : nat) : G * list Z * list Z * stop_t :=
  match fuel, inp with
  | O, _ | _, [] => (g, inp, reply, GoOn)
  | S fuel', _ =>
      let '(wire, cc, rest, stop) := chunk 256 inp (length reply) cap in
      let g := if (0 <? length wire)%nat then link_feed g wire else g in
      let reply := if (0 <? length wire)%nat && (0 <? cc)%nat then reply ++ link_read g cc else reply in
      match stop with GoOn => feed_loop fuel' g rest reply cap | _ => (g, rest, reply, stop) end
  end.

Definition fpga_swd_feed (st : swd_t) (inp : list Z) (cap : nat) : swd_t * nat * list Z * bool * bool :=
  if swd_armed_local st && link_check_due (gw st) && negb (link_armed (link_checked (gw st)))
  then ({| st with gw := link_checked (gw st); swd_armed_local := false |}, O, [], false, true)
  else
    let g := if swd_armed_local st && link_check_due (gw st) then link_checked (gw st) else gw st in
    let '(g, rest, reply, stop) := feed_loop (S (length inp)) g inp [] cap in
    (set_gw g st, (length inp - length rest)%nat, reply,
     match stop with StopJson => true | _ => false end, match stop with StopQuit => true | _ => false end).

Definition fpga_swdq_config (st : swd_t) (half idle_cycles : Z) : option swd_t :=
  if negb (swd_armed_local st) || (link_version (gw st) <? SWD_QUEUE_MIN_GW) then None
  else
    let half := if half <? 2 then 2 else half in
    let half := if 63 <? half then 63 else half in
    let idle := if 31 <? idle_cycles then 31 else idle_cycles in
    Some (set_gw (link_qconfig (gw st) half idle) st).

(** The polls of QSTATUS until the engine is idle. *)
Fixpoint qpoll (polls : nat) (g : G) : G * option (Z * Z) :=
  let '(g, st0, st1) := link_qstatus g in
  if Z.testbit st1 7 then (g, None)
  else if negb (Z.testbit st1 0) then (g, Some (Z.lor st0 (Z.shiftl (Z.land st1 64) 2), st1))
  else match polls with O => (g, None) | S polls' => qpoll polls' g end.

Definition fpga_swdq_run (st : swd_t) (q : list Z) : swd_t * option (Z * Z) :=
  if negb (swd_armed_local st) || (length q =? 0)%nat || (SWDQ_BYTES_MAX <? length q)%nat then (st, None)
  else
    let g := link_qfeed (gw st) q in
    let '(g, r) := qpoll (link_qpolls g) g in (set_gw g st, r).

Definition fpga_swdq_read (st : swd_t) (n : nat) : option (list Z) :=
  if (n =? 0)%nat || (4 * SWDQ_READS_MAX <? n)%nat then None else Some (drop 1 (link_read (gw st) (S n))).

(** ** The byte stream ([swd_ll.c]) *)

Definition w_byte (w : list Z) (b : Z) : list Z := if (length w <? SWD_WIRE_MAX)%nat then w ++ [b] else w.
Definition w_write_bit (w : list Z) (bit : bool) : list Z :=
  if bit then w_byte (w_byte w C_e) C_g else w_byte (w_byte w C_d) C_f.
Definition w_read_bit (w : list Z) : list Z := w_byte (w_byte (w_byte w C_d) C_f) C_c.
Definition w_clock (w : list Z) : list Z := w_byte (w_byte w C_d) C_f.
Definition w_drive (w : list Z) : list Z := w_byte w C_O.
Definition w_release (w : list Z) : list Z := w_byte w C_o.

(** The samples collected (those that are missing are not in the list). *)
Fixpoint swd_feed_loop (fuel : nat) (st : swd_t) (w samples : list Z) (cap : nat) : swd_t * list Z :=
  match fuel, w with
  | O, _ | _, [] => (st, samples)
  | S fuel', _ =>
      let '(st, consumed, reply, _, quit) := fpga_swd_feed st w (cap - length samples) in
      let samples := samples ++ reply in
      if (consumed =? 0)%nat || quit then (st, samples) else swd_feed_loop fuel' st (drop consumed w) samples cap
  end.
Definition swd_feed (st : swd_t) (w : list Z) (cap : nat) : swd_t * list Z := swd_feed_loop (S (length w)) st w [] cap.

Definition swd_ll_reset (st : swd_t) : swd_t :=
  {| st with s_qcfg_dirty := true; s_turnaround := 1; s_data_phase := false; s_idle := SWD_MIN_IDLE |}.
Definition swd_ll_configure (st : swd_t) (turnaround : Z) (data_phase : bool) : swd_t :=
  let turnaround := if turnaround <? 1 then 1 else turnaround in
  let turnaround := if 4 <? turnaround then 4 else turnaround in
  {| st with s_turnaround := turnaround; s_data_phase := data_phase |}.
Definition swd_ll_set_idle (st : swd_t) (idle_cycles : Z) : swd_t :=
  {| st with s_idle := if idle_cycles <? SWD_MIN_IDLE then SWD_MIN_IDLE else idle_cycles; s_qcfg_dirty := true |}.
Definition swd_ll_set_wait_retry (st : swd_t) (retries : Z) : swd_t := {| st with s_wait_retry := retries |}.
(** The C quotient by 0 (for 2^31 Hz, where [2u * hz] wraps) is the core's: 0. *)
Definition swd_ll_set_clock (st : swd_t) (hz : Z) : swd_t :=
  let half := if hz =? 0 then 63 else u32 (u32 (FPGA_HFOSC_HZ + u32 (2 * hz)) - 1) / u32 (2 * hz) in
  let half := if half <? 2 then 2 else half in
  let half := if 63 <? half then 63 else half in
  {| st with s_half := half; s_qcfg_dirty := true |}.
Definition swd_ll_batch_supported (st : swd_t) : bool :=
  (SWD_QUEUE_MIN_GW <=? link_version (gw st)) && (s_turnaround st =? 1) && negb (s_data_phase st).
Definition swd_ll_nreset (st : swd_t) (asserted : bool) : swd_t := set_gw (link_nrst (gw st) asserted) st.

(** ** One transfer *)

(** A request's bits 0 to 3, and the packet: start, the four bits, parity, stop, park. *)
Definition rq_bit (request : Z) (i : Z) : bool := Z.testbit request i.
Definition rq_parity (request : Z) : bool := xorb (xorb (xorb (rq_bit request 0) (rq_bit request 1)) (rq_bit request 2)) (rq_bit request 3).
Definition w_request (w : list Z) (request : Z) : list Z :=
  let w := w_drive w in
  let w := w_write_bit w true in
  let w := w_write_bit (w_write_bit (w_write_bit (w_write_bit w (rq_bit request 0)) (rq_bit request 1)) (rq_bit request 2)) (rq_bit request 3) in
  let w := w_write_bit w (rq_parity request) in
  w_write_bit (w_write_bit w false) true.

(** Sample [k] as a number, and the ACK of the three samples behind the turnaround. *)
Definition samp (samples : list Z) (k : nat) : Z := nth k samples 0 - ASCII_0.
Definition ack_of (samples : list Z) (lead : nat) : Z :=
  u8 (Z.lor (samp samples lead) (Z.lor (Z.shiftl (samp samples (lead + 1)) 1) (Z.shiftl (samp samples (lead + 2)) 2))).

(** The data window: the value and the sum of its bits. *)
Fixpoint data_loop (n : nat) (d : list Z) (i : Z) (val dp : Z) : Z * Z :=
  match n with
  | O => (val, dp)
  | S n' => let b := samp d 0 in data_loop n' (drop 1 d) (i + 1) (Z.lor val (u32 (Z.shiftl (u32 b) i))) (dp + b)
  end.

Fixpoint w_word (n : nat) (w : list Z) (val : Z) (parity : bool) : list Z * bool :=
  match n with
  | O => (w, parity)
  | S n' => let bit := Z.testbit val 0 in w_word n' (w_write_bit w bit) (Z.shiftr val 1) (xorb parity bit)
  end.

Definition transfer_read (st : swd_t) (w : list Z) : swd_t * Z * Z :=
  let lead := Z.to_nat (s_turnaround st) in
  let w := Nat.iter (lead + 3 + 33) w_read_bit w in
  let w := Nat.iter lead w_clock w in
  let w := Nat.iter (Z.to_nat (s_idle st)) w_clock (w_drive w) in
  let '(st, samples) := swd_feed st w 64 in
  let got := length samples in
  if (got <? lead + 3)%nat then (st, SWD_ACK_NO_ACK, 0)
  else
    let ack := ack_of samples lead in
    if ack =? SWD_ACK_OK then
      if (got <? lead + 3 + 33)%nat then (st, SWD_ACK_NO_ACK, 0)
      else
        let d := drop (lead + 3) samples in
        let '(val, dp) := data_loop 32 d 0 0 0 in
        (st, (if Z.land dp 1 =? samp d 32 then ack else Z.lor ack SWD_ACK_PERR), val)
    else (st, ack, 0).

Definition transfer_write (st : swd_t) (w : list Z) (data : Z) : swd_t * Z * Z :=
  let lead := Z.to_nat (s_turnaround st) in
  let '(st, samples) := swd_feed st (Nat.iter (lead + 3) w_read_bit w) 64 in
  if (length samples <? lead + 3)%nat then (st, SWD_ACK_NO_ACK, 0)
  else
    let ack := ack_of samples lead in
    let w :=
      if ack =? SWD_ACK_OK then
        let w := w_drive (Nat.iter lead w_clock []) in
        let '(w, parity) := w_word 32 w data false in
        Nat.iter (Z.to_nat (s_idle st)) w_clock (w_write_bit w parity)
      else if (ack =? SWD_ACK_WAIT) || (ack =? SWD_ACK_FAULT) then
        let w := w_drive (Nat.iter lead w_clock []) in
        if s_data_phase st then Nat.iter 33 w_clock w else w
      else w_drive (Nat.iter (lead + 33) w_clock []) in
    (fst (swd_feed st w 0), ack, 0).

Definition swd_ll_transfer (st : swd_t) (request data : Z) : swd_t * Z * Z :=
  let w := w_request [] request in
  let '(st, w) := if is_ap request && is_read request then (fst (swd_feed st w 0), []) else (st, w) in
  let w := w_release w in
  if is_read request then transfer_read st w else transfer_write st w data.

(** ** Sequences *)

Fixpoint w_bits (w : list Z) (data : list Z) (n k : nat) : list Z :=
  match n with
  | O => w
  | S n' => w_bits (w_write_bit w (Z.testbit (nth (k / 8) data 0) (Z.of_nat (k mod 8)))) data n' (S k)
  end.
Definition swd_ll_seq_out (st : swd_t) (data : list Z) (nbits : Z) : swd_t :=
  let nbits := if 256 <? nbits then 256 else nbits in
  fst (swd_feed st (w_bits (w_drive []) data (Z.to_nat nbits) 0) 0).

Fixpoint pack (data : list Z) (samples : list Z) (k : nat) : list Z :=
  match samples with
  | [] => data
  | s :: samples' =>
      pack (if s =? ASCII_0 then data else alter (fun b => Z.lor b (Z.shiftl 1 (Z.of_nat (k mod 8)))) (k / 8)%nat data) samples' (S k)
  end.
Definition swd_ll_seq_in (st : swd_t) (nbits : Z) : swd_t * list Z :=
  let nbits := if 256 <? nbits then 256 else nbits in
  let n := Z.to_nat nbits in
  let '(st, samples) := swd_feed st (Nat.iter n w_read_bit (w_release [])) 256 in
  (st, pack (repeat 0 (Z.to_nat ((nbits + 7) / 8))) (take n samples) 0).

(** ** Batches *)

Definition swd_packet (rq : Z) : Z :=
  let r := Z.land rq 15 in
  let par := Z.land (Z.lxor (Z.lxor (Z.lxor r (Z.shiftr r 1)) (Z.shiftr r 2)) (Z.shiftr r 3)) 1 in
  u8 (Z.lor (Z.lor 0x81 (Z.shiftl r 1)) (Z.shiftl par 5)).

Definition op_size (o : Z * Z) : nat := if is_read (fst o) then 1 else 5.
Definition op_bytes (o : Z * Z) : list Z := swd_packet (fst o) :: (if is_read (fst o) then [] else le 4 (snd o)).
(** The operations the next queue takes: how many. *)
Fixpoint fill (room : nat) (ops : list (Z * Z)) (qlen nrd : nat) : nat :=
  match room, ops with
  | O, _ | _, [] => O
  | S room', o :: ops' =>
      if (SWDQ_BYTES_MAX <? qlen + op_size o)%nat || (is_read (fst o) && (SWDQ_READS_MAX <=? nrd)%nat) then O
      else S (fill room' ops' (qlen + op_size o) (if is_read (fst o) then S nrd else nrd))
  end.
Definition queue_room : nat := 255.
Definition queue_len (ops : list (Z * Z)) : nat := fill queue_room ops 0 0.

(** Whole operations inside the consumed bytes. *)
Fixpoint ops_done (ops : list (Z * Z)) (off consumed : nat) : nat :=
  match ops with
  | [] => O
  | o :: ops' => if (consumed <=? off + 1)%nat then O else S (ops_done ops' (off + op_size o) consumed)
  end.
Definition reads_in (ops : list (Z * Z)) : nat := length (List.filter (fun o => is_read (fst o)) ops).
Fixpoint words (n : nat) (rb : list Z) : list Z :=
  match n with O => [] | S n' => rd_le (take 4 rb) :: words n' (drop 4 rb) end.

(** [None]: out of fuel. [ops] are those still to do, [i] those done, [rdata] the values. *)
Fixpoint batch_loop (fuel : nat) (st : swd_t) (ops : list (Z * Z)) (i : nat) (waits : Z) (rdata : list Z) : option (swd_t * nat * list Z * Z) :=
  match fuel, ops with
  | _, [] => Some (st, i, rdata, SWD_ACK_OK)
  | O, _ => None
  | S fuel', _ =>
      let nops := queue_len ops in
      match fpga_swdq_run st (concat (map op_bytes (take nops ops))) with
      | (st, None) => Some (st, i, rdata, SWD_ACK_NO_ACK)
      | (st, Some (consumed, flags)) =>
          let done := if negb (Z.testbit flags 1) then nops else ops_done (take nops ops) 0 (Z.to_nat consumed) in
          let rdone := reads_in (take done ops) in
          let perr := Z.testbit flags 5 && (done <? nops)%nat in
          let rget := (rdone + if perr then 1 else 0)%nat in
          match (if (rget =? 0)%nat then Some [] else fpga_swdq_read st (4 * rget)) with
          | None => Some (st, i, rdata, SWD_ACK_NO_ACK)
          | Some rb =>
              let vs := words rget rb in
              let i := (i + done)%nat in
              let waits := if (0 <? done)%nat then 0 else waits in
              let rest := drop done ops in
              if (done =? nops)%nat then batch_loop fuel' st rest i waits (rdata ++ vs)
              else if perr then Some (st, i, rdata ++ vs, Z.lor SWD_ACK_OK SWD_ACK_PERR)
              else
                let a := Z.land (Z.shiftr flags 2) 7 in
                if (a =? SWD_ACK_WAIT) && (waits <? s_wait_retry st)
                then batch_loop fuel' st rest i (u16 (waits + 1)) (rdata ++ vs)
                else Some (st, i, rdata ++ vs, a)
          end
      end
  end.

(** Every round does an operation or uses a retry. *)
Definition batch_fuel (st : swd_t) (ops : list (Z * Z)) : nat := (S (length ops) * S (Z.to_nat (s_wait_retry st)))%nat.

Definition swd_ll_batch (st : swd_t) (ops : list (Z * Z)) : swd_t * nat * list Z * Z :=
  let run st := match batch_loop (batch_fuel st ops) st ops 0 0 [] with Some r => r | None => (st, O, [], SWD_ACK_NO_ACK) end in
  if s_qcfg_dirty st then
    match fpga_swdq_config st (s_half st) (s_idle st) with
    | None => (st, O, [], SWD_ACK_NO_ACK)
    | Some st => run {| st with s_qcfg_dirty := false |}
    end
  else run st.
End swd.
Arguments swd_t : clear implicits.

(** The probe is what the CMSIS-DAP processor runs on. *)
#[export] Instance swd_port `{SwdLink G} : SwdPort (swd_t G) := {
  Dap.swd_ll_transfer := swd_ll_transfer; Dap.swd_ll_batch := swd_ll_batch; Dap.swd_ll_batch_supported := swd_ll_batch_supported;
  Dap.swd_ll_reset := swd_ll_reset; Dap.swd_ll_set_idle := swd_ll_set_idle; Dap.swd_ll_set_wait_retry := swd_ll_set_wait_retry;
  Dap.swd_ll_set_clock := swd_ll_set_clock; Dap.swd_ll_configure := swd_ll_configure; Dap.swd_ll_nreset := swd_ll_nreset;
  Dap.swd_ll_seq_out := swd_ll_seq_out; Dap.swd_ll_seq_in := swd_ll_seq_in;
}.
