(* ===== verification/SwdTheorems.v ===== *)
(** * What the SWD layer puts on the wire

    The gateware's remote_bitbang decoder is executed on any target; the clock cycles
    the target sees are those of the SWD protocol. *)

From S2P Require Import Prelude Dap SwdLl.

(** A target: what a rising clock edge does to it, SWDIO driven ([Some]) or released,
    and the level it then puts on a released SWDIO. *)
Class SwdTarget (T : Type) := { rise : T -> option bool -> T; level : T -> bool }.

(** [n] times the same bytes. *)
Definition times (n : nat) (bs : list Z) : list Z := concat (repeat bs n).

(** ** The decoder's pins *)

Section pins.
Context `{SwdTarget T}.

Record pins := Pins { clk : bool; dio : bool; drive : bool; tgt : T; stored : list Z }.
Definition set_clk (c b : bool) (p : pins) : pins :=
  Pins c b (drive p) (if c && negb (clk p) then rise (tgt p) (if drive p then Some b else None) else tgt p) (stored p).
Definition ascii (b : bool) : Z := if b then ASCII_0 + 1 else ASCII_0.
Definition bb_step (p : pins) (b : Z) : pins :=
  if b =? C_d then set_clk false false p
  else if b =? C_e then set_clk false true p
  else if b =? C_f then set_clk true false p
  else if b =? C_g then set_clk true true p
  else if b =? C_O then Pins (clk p) (dio p) true (tgt p) (stored p)
  else if b =? C_o then Pins (clk p) (dio p) false (tgt p) (stored p)
  else if b =? C_c then Pins (clk p) (dio p) (drive p) (tgt p) (stored p ++ [ascii (if drive p then dio p else level (tgt p))])
  else p.
Definition clear (p : pins) : pins := Pins (clk p) (dio p) (drive p) (tgt p) [].
Definition bb_run (p : pins) (bs : list Z) : pins := fold_left bb_step bs p.

(** Each feed begins an empty reply; no queue. *)
#[export] Instance bb_link : SwdLink pins := {
  link_armed _ := true; link_check_due _ := true; link_checked p := p; link_feed p bs := bb_run (clear p) bs; link_read p n := take n (stored p);
  link_qconfig p _ _ := p; link_qfeed p _ := p; link_qpolls _ := O; link_qstatus p := (p, 0, 0); link_version _ := 44; link_nrst p _ := p;
}.

Definition samples_of (bs : list Z) : nat := length (List.filter (Z.eqb C_c) bs).
Definition is_wire (b : Z) : bool := negb (b =? C_LBRACE) && negb (b =? C_Q).

Lemma bb_run_app p bs1 bs2 : bb_run p (bs1 ++ bs2) = bb_run (bb_run p bs1) bs2.
Proof. apply fold_left_app. Qed.

(** What is stored does not change what happens. *)
Definition with_stored (s : list Z) (p : pins) : pins := Pins (clk p) (dio p) (drive p) (tgt p) s.
Lemma bb_step_stored s p b : bb_step (with_stored (s ++ stored p) p) b = with_stored (s ++ stored (bb_step p b)) (bb_step p b).
Proof.
  unfold bb_step, set_clk, with_stored. cbn [clk dio drive tgt stored]. repeat (destruct (_ =? _); [try done|]); try done. cbn. by rewrite app_assoc.
Qed.
Lemma bb_run_stored bs : forall s p, bb_run (with_stored (s ++ stored p) p) bs = with_stored (s ++ stored (bb_run p bs)) (bb_run p bs).
Proof. induction bs as [|b bs IH]; intros s p; [done|]. cbn [bb_run fold_left]. rewrite bb_step_stored. apply IH. Qed.

Lemma bb_step_count p b : length (stored (bb_step p b)) = (length (stored p) + if Z.eqb C_c b then 1 else 0)%nat.
Proof.
  unfold bb_step, set_clk. destruct (Z.eqb_spec C_c b) as [<-|Hne]; [cbn; by rewrite length_app|].
  repeat (destruct (_ =? _); [cbn; lia|]). destruct (Z.eqb_spec b C_c); [congruence|lia].
Qed.
Lemma bb_run_count bs : forall p, length (stored (bb_run p bs)) = (length (stored p) + samples_of bs)%nat.
Proof.
  unfold samples_of. induction bs as [|b bs IH]; intros p; [cbn; lia|]. cbn [bb_run fold_left List.filter]. change (fold_left bb_step bs (bb_step p b)) with (bb_run (bb_step p b) bs). rewrite IH, bb_step_count.
  destruct (Z.eqb C_c b); cbn [length]; lia.
Qed.

(** ** The feeds *)

Lemma chunk_wire room : forall inp have cap, forallb is_wire inp = true -> (have + samples_of inp <= cap)%nat ->
  chunk room inp have cap = (take room inp, samples_of (take room inp), drop room inp, GoOn).
Proof.
  unfold samples_of. induction room as [|room IH]; intros inp have cap Hw Hc; [by destruct inp|]. destruct inp as [|b inp]; [done|]. cbn [chunk forallb take drop List.filter] in *.
  apply andb_prop in Hw as [Hb Hw]. unfold is_wire in Hb. apply andb_prop in Hb as [Hb1 Hb2]. apply negb_true_iff in Hb1, Hb2. rewrite Hb1, Hb2.
  rewrite (Z.eqb_sym b C_c). destruct (C_c =? b); cbn [andb length] in *.
  - destruct (Nat.leb_spec cap have); [lia|]. rewrite IH; [done|done|lia].
  - by rewrite IH.
Qed.

Lemma samples_app bs1 bs2 : samples_of (bs1 ++ bs2) = (samples_of bs1 + samples_of bs2)%nat.
Proof. unfold samples_of. by rewrite List.filter_app, length_app. Qed.

(** The chunks together: the pins and the samples of the whole stream. *)
Lemma feed_loop_wire fuel : forall p inp reply cap, (length inp < fuel)%nat -> forallb is_wire inp = true -> (length reply + samples_of inp <= cap)%nat ->
  exists s, feed_loop fuel p inp reply cap = (with_stored s (bb_run (clear p) inp), [], reply ++ stored (bb_run (clear p) inp), GoOn).
Proof.
  induction fuel as [|fuel IH]; intros p inp reply cap Hf Hw Hc; [lia|]. destruct inp as [|b inp'] eqn:Ei.
  { exists (stored p). cbn. rewrite app_nil_r. by destruct p. }
  cbn [feed_loop]. rewrite <- Ei in *. assert (Hne : (0 < length inp)%nat) by (rewrite Ei; cbn; lia). clear Ei b inp'.
  rewrite chunk_wire by done. set (w := take 256 inp). assert (Hsplit : w ++ drop 256 inp = inp) by apply take_drop.
  assert (Hlw : (0 < length w)%nat) by (unfold w; rewrite length_take; lia). destruct (Nat.ltb_spec 0 (length w)); [|lia]. cbn [andb].
  set (p1 := bb_run (clear p) w). assert (Hn : length (stored p1) = samples_of w) by (unfold p1; by rewrite bb_run_count).
  assert (Er : (if (0 <? samples_of w)%nat then reply ++ link_read (link_feed p w) (samples_of w) else reply) = reply ++ stored p1).
  { cbn [link_read link_feed bb_link]. fold p1. destruct (Nat.ltb_spec 0 (samples_of w)).
    - rewrite firstn_all2; [done|lia].
    - assert (E0 : stored p1 = []) by (apply length_zero_iff_nil; lia). by rewrite E0, app_nil_r. }
  rewrite Er. cbn [link_feed bb_link]. fold p1.
  rewrite <- Hsplit in Hw, Hc. rewrite forallb_app in Hw. apply andb_prop in Hw as [Hw1 Hw2]. rewrite samples_app in Hc.
  destruct (IH p1 (drop 256 inp) (reply ++ stored p1) cap) as [s E]; [rewrite length_drop; lia|done|rewrite length_app; lia|]. rewrite E.
  assert (Ejoin : bb_run (clear p) inp = with_stored (stored p1 ++ stored (bb_run (clear p1) (drop 256 inp))) (bb_run (clear p1) (drop 256 inp))).
  { rewrite <- Hsplit at 1. rewrite bb_run_app. fold p1. rewrite <- bb_run_stored. f_equal. unfold with_stored, clear. cbn. rewrite app_nil_r. by destruct p1. }
  exists s. rewrite Ejoin. cbn [stored with_stored]. by rewrite app_assoc.
Qed.

Lemma swd_feed_wire (st : swd_t pins) w cap : forallb is_wire w = true -> (samples_of w <= cap)%nat ->
  exists s, swd_feed st w cap = (set_gw (with_stored s (bb_run (clear (gw st)) w)) st, stored (bb_run (clear (gw st)) w)).
Proof.
  intros Hw Hc. unfold swd_feed. destruct w as [|b w'] eqn:Ew.
  { exists (stored (gw st)). cbn. destruct st as [p ? ? ? ? ? ? ?]. by destruct p. }
  cbn [swd_feed_loop]. rewrite <- Ew in *. assert (Hne : (0 < length w)%nat) by (rewrite Ew; cbn; lia). clear Ew b w'.
  unfold fpga_swd_feed. cbn [link_check_due link_checked bb_link length]. rewrite !andb_false_r. cbn [andb].
  assert (Eg : (if swd_armed_local st && true then gw st else gw st) = gw st) by (by destruct (_ && _)). rewrite Eg. clear Eg.
  destruct (feed_loop_wire (S (length w)) (gw st) w [] (cap - 0) ltac:(lia) Hw ltac:(cbn; lia)) as [s E]. cbn [length]. rewrite E. exists s.
  cbn [length app]. rewrite Nat.sub_0_r. destruct (Nat.eqb_spec (length w) 0); [lia|]. cbn [orb]. rewrite drop_all. by destruct (length w).
Qed.

(** ** Bits *)

Definition bit_bytes (b : bool) : list Z := if b then [C_e; C_g] else [C_d; C_f].
Definition read_bytes : list Z := [C_d; C_f; C_c].
Definition clock_bytes : list Z := [C_d; C_f].

(** What matters of the pins between two bits. *)
Definition at_ (dr : bool) (t : T) (s : list Z) (p : pins) : Prop := drive p = dr /\ tgt p = t /\ stored p = s.

Definition cycles (t : T) (l : list (option bool)) : T := fold_left rise l t.
Fixpoint sample_n (n : nat) (t : T) : T * list bool :=
  match n with O => (t, []) | S n' => let t := rise t None in let '(t', s) := sample_n n' t in (t', level t :: s) end.

Lemma run_bit t s p b : at_ true t s p -> at_ true (rise t (Some b)) s (bb_run p (bit_bytes b)).
Proof. destruct p as [c d dr t' s']. intros (E1 & E2 & E3). cbn in E1, E2, E3. subst. by destruct b, c. Qed.
Lemma run_clock dr t s p : at_ dr t s p -> at_ dr (rise t (if dr then Some false else None)) s (bb_run p clock_bytes).
Proof. destruct p as [c d dr' t' s']. intros (E1 & E2 & E3). cbn in E1, E2, E3. subst. by destruct c. Qed.
Lemma run_read t s p : at_ false t s p -> let t' := rise t None in at_ false t' (s ++ [ascii (level t')]) (bb_run p read_bytes).
Proof. destruct p as [c d dr' t' s']. intros (E1 & E2 & E3). cbn in E1, E2, E3. subst. by destruct c. Qed.
Lemma run_drive dr t s p : at_ dr t s p -> at_ true t s (bb_run p [C_O]).
Proof. by intros (E1 & E2 & E3). Qed.
Lemma run_release dr t s p : at_ dr t s p -> at_ false t s (bb_run p [C_o]).
Proof. by intros (E1 & E2 & E3). Qed.

Lemma run_bits bs : forall t s p, at_ true t s p -> at_ true (cycles t (map Some bs)) s (bb_run p (concat (map bit_bytes bs))).
Proof. induction bs as [|b bs IH]; intros t s p Hp; [done|]. cbn [map concat]. rewrite bb_run_app. apply IH. by apply run_bit. Qed.
Lemma run_clocks n dr : forall t s p, at_ dr t s p -> at_ dr (cycles t (repeat (if dr then Some false else None) n)) s (bb_run p (times n clock_bytes)).
Proof. induction n as [|n IH]; intros t s p Hp; [done|]. unfold times. cbn [repeat concat]. rewrite bb_run_app. apply IH. by apply run_clock. Qed.
Lemma run_reads n : forall t s p, at_ false t s p -> let '(t', bs) := sample_n n t in at_ false t' (s ++ map ascii bs) (bb_run p (times n read_bytes)).
Proof.
  induction n as [|n IH]; intros t s p Hp; unfold times; cbn [sample_n repeat concat]; [by rewrite app_nil_r|]. fold (times n read_bytes). rewrite bb_run_app. apply run_read in Hp. specialize (IH _ _ _ Hp).
  destruct (sample_n n (rise t None)) as [t' bs]. cbn [map]. by rewrite cons_middle, app_assoc.
Qed.
Lemma sample_n_length n : forall t, length (snd (sample_n n t)) = n.
Proof. induction n as [|n IH]; intros t; [done|]. cbn [sample_n]. specialize (IH (rise t None)). destruct (sample_n n (rise t None)). cbn in *. by rewrite IH. Qed.
End pins.
Arguments pins : clear implicits.

(** ** The stream builder *)

Definition emits (f : list Z -> list Z) (bs : list Z) : Prop := forall w, (length w + length bs <= SWD_WIRE_MAX)%nat -> f w = w ++ bs.

Lemma emits_byte b : emits (fun w => w_byte w b) [b].
Proof. intros w Hl. unfold w_byte. cbn in Hl. by destruct (Nat.ltb_spec (length w) SWD_WIRE_MAX); [|lia]. Qed.
Lemma emits_app f g bs1 bs2 : emits f bs1 -> emits g bs2 -> emits (fun w => g (f w)) (bs1 ++ bs2).
Proof. intros Hf Hg w Hl. rewrite length_app in Hl. rewrite Hf by lia. rewrite Hg by (rewrite length_app; lia). by rewrite app_assoc. Qed.
Lemma emits_nil : emits (fun w => w) [].
Proof. intros w _. by rewrite app_nil_r. Qed.
Lemma emits_iter n f bs : emits f bs -> emits (fun w => Nat.iter n f w) (times n bs).
Proof.
  unfold times. intros Hf. induction n as [|n IH]; [exact emits_nil|]. intros w Hl. cbn [Nat.iter nat_rect repeat concat]. cbn [repeat concat] in Hl.
  assert (E : bs ++ concat (repeat bs n) = concat (repeat bs n) ++ bs) by (clear; induction n as [|n IH]; cbn; [by rewrite app_nil_r|by rewrite IH at 1; rewrite app_assoc]).
  rewrite E in *. exact (emits_app _ _ _ _ IH Hf w Hl).
Qed.
Lemma emits_bit b : emits (fun w => w_write_bit w b) (bit_bytes b).
Proof. destruct b; exact (emits_app _ _ _ _ (emits_byte _) (emits_byte _)). Qed.
Lemma emits_read : emits w_read_bit read_bytes.
Proof. exact (emits_app _ _ _ _ (emits_app _ _ _ _ (emits_byte _) (emits_byte _)) (emits_byte _)). Qed.
Lemma emits_clock : emits w_clock clock_bytes.
Proof. exact (emits_app _ _ _ _ (emits_byte _) (emits_byte _)). Qed.

(** The request packet. *)
Definition packet (rq : Z) : list bool :=
  [true; Z.testbit rq 0; Z.testbit rq 1; Z.testbit rq 2; Z.testbit rq 3; rq_parity rq; false; true].
Lemma emits_request rq : emits (fun w => w_request w rq) (C_O :: concat (map bit_bytes (packet rq))).
Proof.
  unfold w_request, packet, w_drive. cbv zeta. change (C_O :: ?l) with ([C_O] ++ l). cbn [map concat]. rewrite app_nil_r, !app_assoc.
  repeat refine (emits_app _ _ _ _ _ (emits_bit _)). apply emits_byte.
Qed.

Definition parity (bs : list bool) : bool := fold_left xorb bs false.
Fixpoint low_bits (n : nat) (z : Z) : list bool := match n with O => [] | S n' => Z.testbit z 0 :: low_bits n' (Z.shiftr z 1) end.

Lemma word_parity n : forall w z par, snd (w_word n w z par) = fold_left xorb (low_bits n z) par.
Proof. induction n as [|n IH]; intros w z par; [done|]. cbn [w_word low_bits fold_left]. by rewrite IH. Qed.
Lemma emits_word n : forall z par, emits (fun w => fst (w_word n w z par)) (concat (map bit_bytes (low_bits n z))).
Proof.
  induction n as [|n IH]; intros z par; [exact emits_nil|]. cbn [low_bits map concat]. intros w Hl. cbn [w_word].
  exact (emits_app _ _ _ _ (emits_bit _) (IH _ _) w Hl).
Qed.

(** ** The samples as numbers *)

Fixpoint num (bs : list bool) : Z := match bs with [] => 0 | b :: bs' => Z.b2z b + 2 * num bs' end.

Lemma samp_ascii bs k b : bs !! k = Some b -> samp (map ascii bs) k = Z.b2z b.
Proof.
  intros Hk. unfold samp. assert (E : nth k (map ascii bs) 0 = ascii b) by (apply nth_lookup_Some; by rewrite list_lookup_fmap, Hk). rewrite E. by destruct b.
Qed.

Lemma num_range bs : 0 <= num bs < 2 ^ Z.of_nat (length bs).
Proof. induction bs as [|b bs IH]; [cbn; lia|]. cbn [num length]. rewrite Nat2Z.inj_succ, Z.pow_succ_r by lia. destruct b; cbn [Z.b2z]; lia. Qed.

Lemma ack_ascii bs lead : (lead + 3 <= length bs)%nat -> ack_of (map ascii bs) lead = num (sub lead 3 bs).
Proof.
  intros Hl. unfold ack_of, sub. destruct (lookup_lt_is_Some_2 bs lead) as [b0 H0]; [lia|]. destruct (lookup_lt_is_Some_2 bs (lead + 1)) as [b1 H1]; [lia|].
  destruct (lookup_lt_is_Some_2 bs (lead + 2)) as [b2 H2]; [lia|]. rewrite (samp_ascii _ _ _ H0), (samp_ascii _ _ _ H1), (samp_ascii _ _ _ H2).
  rewrite (drop_S _ _ _ H0). rewrite (drop_S bs b1 (S lead)) by (by rewrite <- H1, Nat.add_1_r). rewrite (drop_S bs b2 (S (S lead))) by (rewrite <- H2; f_equal; lia).
  cbn [take]. by destruct b0, b1, b2.
Qed.

Lemma data_ascii bs : forall rest i val dp, 0 <= i -> i + Z.of_nat (length bs) <= 32 -> 0 <= val < 2 ^ i ->
  data_loop (length bs) (map ascii bs ++ rest) i val dp = (val + 2 ^ i * num bs, dp + Z.of_nat (length (List.filter id bs))).
Proof.
  induction bs as [|b bs IH]; intros rest i val dp Hi Hl Hv; cbn [length data_loop].
  { cbn. f_equal; lia. }
  cbn [length] in Hl. cbn [map app drop num List.filter]. assert (Es : samp (ascii b :: map ascii bs ++ rest) 0 = Z.b2z b) by (by destruct b). rewrite Es.
  assert (Hp : 2 ^ i < 2 ^ 32) by (apply Z.pow_lt_mono_r; lia).
  assert (Ev : Z.lor val (u32 (Z.shiftl (u32 (Z.b2z b)) i)) = val + 2 ^ i * Z.b2z b).
  { rewrite (u32_id (Z.b2z b)) by (destruct b; cbn; lia). rewrite Z.shiftl_mul_pow2 by lia. rewrite u32_id by (destruct b; cbn [Z.b2z]; lia).
    rewrite Z.lor_comm, <- Z.shiftl_mul_pow2 by lia. rewrite lor_shiftl_add by lia. lia. }
  rewrite drop_0.  rewrite Ev, IH; [|lia|lia|rewrite Z.pow_add_r, Z.pow_1_r by lia; destruct b; cbn [Z.b2z]; lia].
  f_equal; [rewrite Z.pow_add_r, Z.pow_1_r by lia; ring|]. destruct b; cbn [id Z.b2z length]; lia.
Qed.

Lemma count_parity bs : forall par, Z.land (Z.b2z par + Z.of_nat (length (List.filter id bs))) 1 = Z.b2z (fold_left xorb bs par).
Proof.
  change 1 with (Z.ones 1). setoid_rewrite Z.land_ones; [|lia]. change (2 ^ 1) with 2.
  induction bs as [|b bs IH]; intros par; cbn [List.filter fold_left]; [by destruct par|]. rewrite <- IH.
  destruct b, par; cbn [length id xorb Z.b2z]; rewrite ?Nat2Z.inj_succ; try (f_equal; lia).
  replace (1 + Z.succ (Z.of_nat (length (List.filter id bs)))) with (0 + Z.of_nat (length (List.filter id bs)) + 1 * 2) by lia. apply Z_mod_plus_full.
Qed.

Lemma data_window bs lead : length bs = (lead + 36)%nat -> exists dp,
  data_loop 32 (drop (lead + 3) (map ascii bs)) 0 0 0 = (num (sub (lead + 3) 32 bs), dp) /\
  (Z.land dp 1 =? samp (drop (lead + 3) (map ascii bs)) 32) = Bool.eqb (parity (sub (lead + 3) 32 bs)) (nth (lead + 35) bs false).
Proof.
  intros Hl. rewrite (skipn_map ascii). set (ws := drop (lead + 3) bs). assert (Hw : length ws = 33%nat) by (unfold ws; rewrite length_drop; lia).
  unfold sub. fold ws. assert (E : map ascii ws = map ascii (take 32 ws) ++ map ascii (drop 32 ws)) by (by rewrite <- map_app, take_drop).
  assert (H32 : length (take 32 ws) = 32%nat) by (rewrite length_take; lia). rewrite E. exists (Z.of_nat (length (List.filter id (take 32 ws)))).
  pose proof (data_ascii (take 32 ws) (map ascii (drop 32 ws)) 0 0 0 ltac:(lia) ltac:(rewrite H32; lia) ltac:(lia)) as D. rewrite H32 in D. rewrite D. split; [f_equal; lia|].
  rewrite <- E. destruct (lookup_lt_is_Some_2 ws 32) as [b Hb]; [lia|]. rewrite (samp_ascii _ _ _ Hb).
  pose proof (count_parity (take 32 ws) false) as P. change (Z.b2z false) with 0 in P. rewrite Z.add_0_l in P. rewrite P.
  assert (En : nth (lead + 35) bs false = b) by (apply nth_lookup_Some; unfold ws in Hb; rewrite lookup_drop in Hb; rewrite <- Hb; f_equal; lia).
  rewrite En. unfold parity. by destruct (fold_left _ _ _), b.
Qed.

(** ** A transfer, in clock cycles *)

Section transfer.
Context `{SwdTarget T}.

(** The protocol: the packet driven; the turnaround; the ACK; for a read the word and
    its parity, the turnaround and the idle cycles; for a write what the ACK asks for. *)
Definition cycle_transfer (turnaround idle : nat) (data_phase : bool) (t : T) (rq data : Z) : T * Z * Z :=
  let t := cycles t (map Some (packet rq)) in
  if is_read rq then
    let '(t, s) := sample_n (turnaround + 36) t in
    let t := cycles t (repeat None turnaround ++ repeat (Some false) idle) in
    let ack := num (sub turnaround 3 s) in
    let word := sub (turnaround + 3) 32 s in
    if ack =? SWD_ACK_OK
    then (t, if Bool.eqb (parity word) (nth (turnaround + 35) s false) then SWD_ACK_OK else SWD_ACK_OK + SWD_ACK_PERR, num word)
    else (t, ack, 0)
  else
    let '(t, s) := sample_n (turnaround + 3) t in
    let ack := num (sub turnaround 3 s) in
    let word := low_bits 32 data in
    (cycles t (if ack =? SWD_ACK_OK then repeat None turnaround ++ map Some (word ++ [parity word]) ++ repeat (Some false) idle
               else if (ack =? SWD_ACK_WAIT) || (ack =? SWD_ACK_FAULT) then repeat None turnaround ++ repeat (Some false) (if data_phase then 33 else 0)
               else repeat None (turnaround + 33)), ack, 0).

Lemma cycles_app t l1 l2 : cycles t (l1 ++ l2) = cycles (cycles t l1) l2.
Proof. apply fold_left_app. Qed.

(** The bytes of the phases. *)
Definition request_bytes (rq : Z) : list Z := C_O :: concat (map bit_bytes (packet rq)).

Lemma times_length n bs : length (times n bs) = (n * length bs)%nat.
Proof. unfold times. induction n as [|n IH]; [done|]. cbn [repeat concat]. rewrite length_app, IH. lia. Qed.
Lemma bits_length bs : length (concat (map bit_bytes bs)) = (2 * length bs)%nat.
Proof. induction bs as [|b bs IH]; [done|]. cbn [map concat length]. rewrite length_app, IH. destruct b; cbn; lia. Qed.
Lemma wire_times n bs : forallb is_wire bs = true -> forallb is_wire (times n bs) = true.
Proof. intros Hb. unfold times. induction n as [|n IH]; [done|]. cbn [repeat concat]. by rewrite forallb_app, Hb. Qed.
Lemma wire_bits bs : forallb is_wire (concat (map bit_bytes bs)) = true.
Proof. induction bs as [|b bs IH]; [done|]. cbn [map concat]. rewrite forallb_app, IH. by destruct b. Qed.
Lemma samples_times n bs : samples_of (times n bs) = (n * samples_of bs)%nat.
Proof. unfold times. induction n as [|n IH]; [done|]. cbn [repeat concat]. rewrite samples_app, IH. lia. Qed.
Lemma samples_bits bs : samples_of (concat (map bit_bytes bs)) = 0%nat.
Proof. induction bs as [|b bs IH]; [done|]. cbn [map concat]. rewrite samples_app, IH. by destruct b. Qed.

(** A feed without samples, and with. *)
Lemma feed_at (st : swd_t (pins T)) w cap : forallb is_wire w = true -> (samples_of w <= cap)%nat -> 
  forall dr t s, at_ dr t s (bb_run (clear (gw st)) w) ->
  exists st', swd_feed st w cap = (st', s) /\ drive (gw st') = dr /\ tgt (gw st') = t /\ st' = set_gw (gw st') st.
Proof.
  intros Hw Hc dr t s (E1 & E2 & E3). destruct (swd_feed_wire st w cap Hw Hc) as [s' E]. rewrite E, E3. eexists. split; [done|]. by split_and!.
Qed.

Ltac wired := rewrite ?forallb_app, ?samples_app, ?length_app, ?wire_bits, ?wire_times, ?samples_times, ?samples_bits, ?times_length, ?bits_length by done; cbn.

(** The read window and what follows, behind what was built before. *)
Lemma read_cycles (st : swd_t (pins T)) pre dr t ta idle :
  s_turnaround st = Z.of_nat ta -> s_idle st = Z.of_nat idle -> (1 <= ta <= 4)%nat -> (idle <= 255)%nat ->
  forallb is_wire pre = true -> samples_of pre = O -> (length pre <= 17)%nat -> at_ dr t [] (bb_run (clear (gw st)) pre) ->
  exists st', transfer_read st (w_release pre) =
    (let '(t1, s) := sample_n (ta + 36) t in
     let ack := num (sub ta 3 s) in let word := sub (ta + 3) 32 s in
     if ack =? SWD_ACK_OK
     then (st', if Bool.eqb (parity word) (nth (ta + 35) s false) then SWD_ACK_OK else SWD_ACK_OK + SWD_ACK_PERR, num word)
     else (st', ack, 0)) /\
    tgt (gw st') = cycles (fst (sample_n (ta + 36) t)) (repeat None ta ++ repeat (Some false) idle) /\ st' = set_gw (gw st') st.
Proof.
  intros Eta Eid Hta Hid Hw Hs Hl Hp. unfold transfer_read. rewrite Eta, Eid, !Nat2Z.id. cbv zeta.
  set (w := Nat.iter idle w_clock _).
  assert (Ew : w = pre ++ [C_o] ++ times (ta + 36) read_bytes ++ times ta clock_bytes ++ [C_O] ++ times idle clock_bytes).
  { unfold w. replace (ta + 3 + 33)%nat with (ta + 36)%nat by lia.
    pose proof (emits_app _ _ _ _ (emits_app _ _ _ _ (emits_app _ _ _ _ (emits_app _ _ _ _ (emits_byte C_o) (emits_iter (ta + 36) _ _ emits_read)) (emits_iter ta _ _ emits_clock)) (emits_byte C_O)) (emits_iter idle _ _ emits_clock) pre) as E.
    rewrite !length_app, !times_length in E. rewrite <- !app_assoc in E. apply E. cbn. lia. }
  clearbody w. pose proof (sample_n_length (ta + 36) t) as Hn.
  assert (Hat : at_ true (cycles (fst (sample_n (ta + 36) t)) (repeat None ta ++ repeat (Some false) idle)) (map ascii (snd (sample_n (ta + 36) t))) (bb_run (clear (gw st)) w)).
  { rewrite Ew, !bb_run_app. apply run_release in Hp. pose proof (run_reads (ta + 36) _ _ _ Hp) as Hr.  destruct (sample_n (ta + 36) t) as [t1 s]. cbn [fst snd app] in *.
    apply (run_clocks ta) in Hr. apply run_drive in Hr. apply (run_clocks idle) in Hr. rewrite cycles_app. exact Hr. }
  destruct (feed_at st w 64 ltac:(rewrite Ew; wired; by rewrite Hw) ltac:(rewrite Ew; wired; lia) _ _ _ Hat) as (st' & E & Ed & Et & Es).
  rewrite E. exists st'. destruct (sample_n (ta + 36) t) as [t1 s]. cbn [fst snd] in *. split; [|by split]. rewrite !length_map, Hn.
  destruct (Nat.ltb_spec (ta + 36) (ta + 3)); [lia|]. rewrite ack_ascii by lia. destruct (num (sub ta 3 s) =? SWD_ACK_OK) eqn:Ea; [|done]. destruct (Nat.ltb_spec (ta + 36) (ta + 3 + 33)); [lia|].
  destruct (data_window s ta Hn) as (dp & -> & Ep). rewrite Ep. apply Z.eqb_eq in Ea. rewrite Ea. by destruct (Bool.eqb _ _).
Qed.

(** The data phase of a write. *)
Definition data_bytes (ta idle : nat) (data : Z) : list Z :=
  times ta clock_bytes ++ [C_O] ++ concat (map bit_bytes (low_bits 32 data)) ++ bit_bytes (parity (low_bits 32 data)) ++ times idle clock_bytes.
Lemma data_emitted ta idle data : (ta <= 4)%nat -> (idle <= 255)%nat ->
  (let w := w_drive (Nat.iter ta w_clock []) in let '(w, par) := w_word 32 w data false in Nat.iter idle w_clock (w_write_bit w par)) = data_bytes ta idle data.
Proof.
  intros Hta Hid. cbv zeta. pose proof (word_parity 32 (w_drive (Nat.iter ta w_clock [])) data false) as P.
  pose proof (emits_app _ _ _ _ (emits_app _ _ _ _ (emits_app _ _ _ _ (emits_app _ _ _ _ (emits_iter ta _ _ emits_clock) (emits_byte C_O)) (emits_word 32 data false)) (emits_bit (parity (low_bits 32 data)))) (emits_iter idle _ _ emits_clock) []) as E.
  destruct (w_word 32 (w_drive (Nat.iter ta w_clock [])) data false) as [w par] eqn:Ew. cbn [snd] in P. subst par. unfold data_bytes. rewrite !length_app, !times_length, bits_length, <- !app_assoc in E.
  change (w_byte ?a C_O) with (w_drive a) in E. rewrite Ew in E. cbn [fst app] in E. apply E.
  assert (E2 : forall b, length (bit_bytes b) = 2%nat) by (by intros []). rewrite E2. change (length (low_bits 32 data)) with 32%nat. cbn. lia.
Qed.

(** The write's two feeds. *)
Lemma write_cycles (st : swd_t (pins T)) pre dr t ta idle data :
  s_turnaround st = Z.of_nat ta -> s_idle st = Z.of_nat idle -> (1 <= ta <= 4)%nat -> (idle <= 255)%nat ->
  forallb is_wire pre = true -> samples_of pre = O -> (length pre <= 17)%nat -> at_ dr t [] (bb_run (clear (gw st)) pre) ->
  exists st', transfer_write st (w_release pre) data =
    (let '(t1, s) := sample_n (ta + 3) t in (st', num (sub ta 3 s), 0)) /\
    tgt (gw st') = (let '(t1, s) := sample_n (ta + 3) t in let ack := num (sub ta 3 s) in let word := low_bits 32 data in
      cycles t1 (if ack =? SWD_ACK_OK then repeat None ta ++ map Some (word ++ [parity word]) ++ repeat (Some false) idle
                 else if (ack =? SWD_ACK_WAIT) || (ack =? SWD_ACK_FAULT) then repeat None ta ++ repeat (Some false) (if s_data_phase st then 33 else 0)
                 else repeat None (ta + 33))) /\ st' = set_gw (gw st') st.
Proof.
  intros Eta Eid Hta Hid Hw Hs Hl Hp. unfold transfer_write. rewrite Eta, !Nat2Z.id. cbv zeta. set (w := Nat.iter _ w_read_bit _).
  assert (Ew : w = pre ++ [C_o] ++ times (ta + 3) read_bytes).
  { unfold w. pose proof (emits_app _ _ _ _ (emits_byte C_o) (emits_iter (ta + 3) _ _ emits_read) pre) as E. rewrite !length_app, !times_length in E. apply E. cbn. lia. }
  clearbody w. pose proof (sample_n_length (ta + 3) t) as Hn.
  assert (Hat : at_ false (fst (sample_n (ta + 3) t)) (map ascii (snd (sample_n (ta + 3) t))) (bb_run (clear (gw st)) w)).
  { rewrite Ew, !bb_run_app. apply run_release in Hp. pose proof (run_reads (ta + 3) _ _ _ Hp) as Hr. by destruct (sample_n (ta + 3) t) as [t1 s]. }
  destruct (feed_at st w 64 ltac:(rewrite Ew; wired; by rewrite Hw) ltac:(rewrite Ew; wired; lia) _ _ _ Hat) as (st1 & E & Ed & Et & Es).
  rewrite E. destruct (sample_n (ta + 3) t) as [t1 s]. cbn [fst snd] in *. rewrite !length_map, Hn.
  destruct (Nat.ltb_spec (ta + 3) (ta + 3)); [lia|]. rewrite ack_ascii by lia. set (ack := num (sub ta 3 s)). clearbody ack.
  match goal with |- context [swd_feed st1 ?x 0] => set (w2 := x) end.
  assert (Hdp : s_data_phase st1 = s_data_phase st) by (by rewrite Es). assert (Hid1 : Z.to_nat (s_idle st1) = idle) by (rewrite Es; cbn; by rewrite Eid, Nat2Z.id).
  assert (H2 : exists bs, w2 = bs /\ forallb is_wire bs = true /\ samples_of bs = O /\ at_ true (cycles t1 (if ack =? SWD_ACK_OK then repeat None ta ++ map Some (low_bits 32 data ++ [parity (low_bits 32 data)]) ++ repeat (Some false) idle
                 else if (ack =? SWD_ACK_WAIT) || (ack =? SWD_ACK_FAULT) then repeat None ta ++ repeat (Some false) (if s_data_phase st then 33 else 0)
                 else repeat None (ta + 33))) [] (bb_run (clear (gw st1)) bs)).
  { assert (Hz : at_ false t1 [] (clear (gw st1))) by (by split_and!). clear Hat E. unfold w2. rewrite Hdp, Hid1. destruct (ack =? SWD_ACK_OK); [|destruct (_ || _)].
    - exists (data_bytes ta idle data). split_and!; [apply data_emitted; lia|unfold data_bytes; destruct (parity _); by wired|unfold data_bytes; destruct (parity _); wired; lia|].
      unfold data_bytes. rewrite !bb_run_app, map_app, !cycles_app. apply (run_clocks ta) in Hz. apply run_drive in Hz. apply (run_bits (low_bits 32 data)) in Hz.
      apply (run_bits [parity (low_bits 32 data)]) in Hz. apply (run_clocks idle) in Hz. cbn [map concat] in Hz. rewrite app_nil_r in Hz. exact Hz.
    - exists (times ta clock_bytes ++ [C_O] ++ times (if s_data_phase st then 33 else 0) clock_bytes). split_and!; [|wired; done|wired; lia|].
      + destruct (s_data_phase st).
        * pose proof (emits_app _ _ _ _ (emits_app _ _ _ _ (emits_iter ta _ _ emits_clock) (emits_byte C_O)) (emits_iter 33 _ _ emits_clock) []) as E. rewrite !length_app, !times_length, <- !app_assoc in E. apply E. cbn. lia.
        * pose proof (emits_app _ _ _ _ (emits_iter ta _ _ emits_clock) (emits_byte C_O) []) as E. rewrite !length_app, !times_length in E. apply E. cbn. lia.
      + rewrite !bb_run_app, !cycles_app. apply (run_clocks ta) in Hz. apply run_drive in Hz. by apply (run_clocks (if s_data_phase st then 33 else 0)) in Hz.
    - exists (times (ta + 33) clock_bytes ++ [C_O]). split_and!; [|wired; done|wired; lia|].
      + pose proof (emits_app _ _ _ _ (emits_iter (ta + 33) _ _ emits_clock) (emits_byte C_O) []) as E. rewrite !length_app, !times_length in E. apply E. cbn. lia.
      + rewrite !bb_run_app. apply (run_clocks (ta + 33)) in Hz. by apply run_drive in Hz. }
  destruct H2 as (bs & -> & Hb1 & Hb2 & Hat2). destruct (feed_at st1 bs 0 Hb1 ltac:(lia) _ _ _ Hat2) as (st2 & E2 & _ & Et2 & Es2).
  exists st2. rewrite E2. cbn [fst]. split_and!; [done|done|]. rewrite Es2, Es. done.
Qed.

End transfer.

(** ** A target to read *)

(** A debug port that answers a read behind the turnaround with OK, its IDCODE and the
    parity, and keeps what it was sent. *)
Definition IDCODE : Z := 0x2BA01477.
Definition answer : list bool := [true; false; false] ++ low_bits 32 IDCODE ++ [parity (low_bits 32 IDCODE)].
#[export] Instance demo_target : SwdTarget (nat * list bool) := {
  rise t o := (S (fst t), match o with Some b => snd t ++ [b] | None => snd t end);
  level t := nth (fst t - 10) answer true;
}.
Definition demo_swd : swd_t (pins (nat * list bool)) := Swd (Pins false false false (O, []) []) true 1 100 6 true false 8.

Example idcode_read : let '(st', ack, v) := swd_ll_transfer demo_swd 2 0 in
  (ack, v) = (SWD_ACK_OK, IDCODE) /\ snd (tgt (gw st')) = [true; false; true; false; false; true; false; true] ++ repeat false 8.
Proof. vm_compute. done. Qed.


(** A queued request byte is the packet. *)
Lemma swd_packet_bits rq : low_bits 8 (swd_packet rq) = packet rq.
Proof.
  assert (E : packet rq = packet (Z.land rq 15)) by (unfold packet, rq_parity, rq_bit; rewrite !Z.land_spec; cbn; by rewrite !andb_true_r).
  assert (E2 : swd_packet rq = swd_packet (Z.land rq 15)) by (unfold swd_packet; by rewrite <- (Z.land_assoc rq 15 15)).
  rewrite E, E2. clear E E2. assert (Hr : 0 <= Z.land rq 15 < 16) by (change 15 with (Z.ones 4); rewrite Z.land_ones by lia; apply Z.mod_pos_bound; lia).
  set (r := Z.land rq 15) in *. clearbody r. assert (C : r ∈ seqZ 0 16) by (apply elem_of_seqZ; lia). revert C. clear Hr.
  apply (proj1 (Forall_forall (fun r => low_bits 8 (swd_packet r) = packet r) _)). repeat constructor.
Qed.

(** ** Sequences *)

Section sequences.
Context `{SwdTarget T}.

Definition bits_of (data : list Z) (n : nat) : list bool := map (fun k => Z.testbit (nth (k / 8) data 0) (Z.of_nat (k mod 8))) (seq 0 n).

Lemma emits_bits data n : forall k, emits (fun w => w_bits w data n k) (concat (map bit_bytes (map (fun k => Z.testbit (nth (k / 8) data 0) (Z.of_nat (k mod 8))) (seq k n)))).
Proof.
  induction n as [|n IH]; intros k; [exact emits_nil|]. cbn [seq map concat]. intros w Hl. cbn [w_bits]. exact (emits_app _ _ _ _ (emits_bit _) (IH (S k)) w Hl).
Qed.

(** A sequence clocks out its bits, least significant first. *)
Lemma seq_out_cycles (st : swd_t (pins T)) data n : (n <= 256)%nat -> tgt (gw (swd_ll_seq_out st data (Z.of_nat n))) = cycles (tgt (gw st)) (map Some (bits_of data n)).
Proof.
  intros Hn. unfold swd_ll_seq_out. destruct (Z.ltb_spec 256 (Z.of_nat n)); [lia|]. rewrite Nat2Z.id. set (w := w_bits _ _ _ _).
  assert (Ew : w = C_O :: concat (map bit_bytes (bits_of data n))).
  { unfold w. pose proof (emits_app _ _ _ _ (emits_byte C_O) (emits_bits data n 0) []) as E. apply E. cbn [length]. rewrite length_app, bits_length. cbn [length]. rewrite length_map, length_seq. lia. }
  clearbody w. assert (Hat : at_ true (cycles (tgt (gw st)) (map Some (bits_of data n))) [] (bb_run (clear (gw st)) w)).
  { rewrite Ew. change (C_O :: ?l) with ([C_O] ++ l). rewrite bb_run_app. apply run_bits. by eapply run_drive. }
  destruct (feed_at st w 0) with (dr := true) (s := @nil Z) (t := cycles (tgt (gw st)) (map Some (bits_of data n))) as (st' & E & _ & Et & _); [rewrite Ew; cbn; by rewrite wire_bits| |exact Hat|by rewrite E].
  rewrite Ew. change (C_O :: ?l) with ([C_O] ++ l). by rewrite samples_app, samples_bits.
Qed.
End sequences.

(** ** The clock *)

(** Below 2^31 Hz the rate is the highest that is not above the one asked for, within
    what the divider can do. *)
Lemma clock_never_faster (st : swd_t (pins (nat * list bool))) hz : 190477 <= hz < 2147483648 ->
  let half := s_half (swd_ll_set_clock st hz) in 2 <= half <= 63 /\ FPGA_HFOSC_HZ <= 2 * half * hz /\ (half = 2 \/ 2 * (half - 1) * hz < FPGA_HFOSC_HZ).
Proof.
  intros Hz. unfold swd_ll_set_clock. destruct (Z.eqb_spec hz 0); [lia|]. rewrite (u32_id (2 * hz)) by lia.
  destruct (Z.le_gt_cases (FPGA_HFOSC_HZ + 2 * hz) 4294967295).
  - rewrite (u32_id (FPGA_HFOSC_HZ + 2 * hz)), (u32_id (_ - 1)) by lia. set (q := (FPGA_HFOSC_HZ + 2 * hz - 1) / (2 * hz)).
    assert (Q : 2 * hz * q <= FPGA_HFOSC_HZ + 2 * hz - 1 < 2 * hz * (q + 1)) by (unfold q; pose proof (Z.div_mod (FPGA_HFOSC_HZ + 2 * hz - 1) (2 * hz) ltac:(lia)); pose proof (Z.mod_pos_bound (FPGA_HFOSC_HZ + 2 * hz - 1) (2 * hz) ltac:(lia)); nia).
    clearbody q. cbn [s_half]. destruct (Z.ltb_spec q 2).
    + cbn. split_and!; [lia|lia|nia|by left].
    + destruct (Z.ltb_spec 63 q); [exfalso; nia|]. split_and!; [lia|lia|nia|]. destruct (Z.eq_dec q 2); [by left|right; nia].
  - unfold u32. replace ((FPGA_HFOSC_HZ + 2 * hz) mod 4294967296) with (FPGA_HFOSC_HZ + 2 * hz - 4294967296) by (apply (Z.mod_unique _ _ 1); lia).
    assert (Hq : ((FPGA_HFOSC_HZ + 2 * hz - 4294967296 - 1) mod 4294967296) / (2 * hz) < 2).
    { destruct (Z.eq_dec (FPGA_HFOSC_HZ + 2 * hz - 4294967296) 0) as [E|E].
      - rewrite E. change ((0 - 1) mod 4294967296) with 4294967295. apply Z.div_lt_upper_bound; lia.
      - rewrite Z.mod_small by lia. apply Z.div_lt_upper_bound; lia. }
    destruct (Z.ltb_spec (((FPGA_HFOSC_HZ + 2 * hz - 4294967296 - 1) mod 4294967296) / (2 * hz)) 2); [|lia]. cbn. split_and!; [lia|lia|nia|by left].
Qed.

(** From 2^31 Hz on the doubled rate wraps: asked for 2^31 + 1 Hz the clock is the slowest. *)
Example clock_wraps : s_half (swd_ll_set_clock demo_swd 2147483649) = 63.
Proof. vm_compute. reflexivity. Qed.
(** ... and below 190 kHz the divider's end is faster than asked. *)
Example clock_too_fast : let half := s_half (swd_ll_set_clock demo_swd 100000) in half = 63 /\ 2 * half * 100000 < FPGA_HFOSC_HZ.
Proof. vm_compute. done. Qed.

(** An input sequence of 256 bits does not fit its wire buffer: the last sample is lost
    and reads 0, whatever the target drives. *)
Definition high_target : SwdTarget unit := {| rise t _ := t; level _ := true |}.
Example seq_in_256_loses_a_bit :
  let st := Swd (@Pins unit false false false tt []) true 1 100 6 true false 8 in
  snd (@swd_ll_seq_in _ (@bb_link _ high_target) st 256) = repeat 255 31 ++ [127] /\
  snd (@swd_ll_seq_in _ (@bb_link _ high_target) st 248) = repeat 255 31.
Proof. vm_compute. done. Qed.
