(* ===== verification/SwdBatch.v ===== *)
(** * A batch is its transfers

    What the gateware's queue promises is a class; [swd_ll_batch] over it runs the
    operations in order, each with its own WAIT retries. *)

From S2P Require Import Prelude Dap DapTheorems SwdLl SwdTheorems.

(** ** The queue *)

Definition op_list_bytes (ops : list (Z * Z)) : nat := fold_right (fun o n => (op_size o + n)%nat) O ops.

(** [q_transfer]: one transfer of the engine with the target, its ACK (9: a read whose parity does not
    fit) and its word. *)
Class QueueTransfer (T : Type) := { q_transfer : T -> Z -> Z -> T * Z * Z }.

(** A queue as the engine runs it: it stops at the first ACK that is not OK. The words
    stored are those of the reads done, and the word that failed its parity. *)
Fixpoint q_run `{QueueTransfer T} (g : T) (ops : list (Z * Z)) : T * nat * list Z * Z * list Z :=
  match ops with
  | [] => (g, O, [], SWD_ACK_OK, [])
  | (rq, d) :: ops' =>
      let '(g, ack, v) := q_transfer g rq d in
      if ack =? SWD_ACK_OK
      then let '(g, n, vs, a, bad) := q_run g ops' in (g, S n, (if is_read rq then v :: vs else vs), a, bad)
      else (g, O, [], ack, if ack =? SWD_ACK_OK + SWD_ACK_PERR then [v] else [])
  end.

(** [PROTOCOL.md], [SWD_QFEED] and [SWD_QSTATUS]: the status names the bytes consumed, in
    9 bits, a stopped transfer's request byte only; [SWD_READ] repeats its first byte. *)
Class SwdQueue (G T : Type) `{SwdLink G} `{QueueTransfer T} := {
  q_target : G -> T;
  q_ack : forall t rq d, let '(_, ack, v) := q_transfer t rq d in (0 <= ack < 8 \/ ack = 9 /\ is_read rq = true) /\ (is_read rq = true -> 0 <= v < 4294967296);
  q_law : forall g ops, (0 < length ops <= 255)%nat -> (op_list_bytes ops <= SWDQ_BYTES_MAX)%nat -> (reads_in ops <= SWDQ_READS_MAX)%nat ->
    let '(t', n, vs, a, bad) := q_run (q_target g) ops in
    let g1 := link_qfeed g (concat (map op_bytes ops)) in
    exists g' consumed flags, qpoll (link_qpolls g1) g1 = (g', Some (consumed, flags)) /\ q_target g' = t' /\
      (forall k, (0 < k <= length (vs ++ bad))%nat -> drop 1 (link_read g' (S (4 * k))) = concat (map (le 4) (take k (vs ++ bad)))) /\
      if (n =? length ops)%nat then Z.testbit flags 1 = false
      else Z.testbit flags 1 = true /\ consumed = Z.of_nat (op_list_bytes (take n ops) + 1) mod 512 /\
           Z.testbit flags 5 = (a =? 9) /\ (a <> 9 -> Z.land (Z.shiftr flags 2) 7 = a);
}.

Section batch.
Context `{SwdQueue G T}.

(** ** What the batch is to do *)

(** A transfer with [retry] more attempts while the target answers WAIT. *)
Fixpoint attempt (retry : nat) (g : T) (rq d : Z) : T * Z * Z :=
  let '(g, ack, v) := q_transfer g rq d in
  match retry with S retry' => if ack =? SWD_ACK_WAIT then attempt retry' g rq d else (g, ack, v) | O => (g, ack, v) end.

(** The operations in order: the first with [r] retries, the others with [w]. *)
Fixpoint run_from (w r : nat) (g : T) (ops : list (Z * Z)) : T * nat * list Z * Z * list Z :=
  match ops with
  | [] => (g, O, [], SWD_ACK_OK, [])
  | (rq, d) :: ops' =>
      let '(g, ack, v) := attempt r g rq d in
      if ack =? SWD_ACK_OK
      then let '(g, n, vs, a, bad) := run_from w w g ops' in (g, S n, (if is_read rq then v :: vs else vs), a, bad)
      else (g, O, [], ack, if ack =? SWD_ACK_OK + SWD_ACK_PERR then [v] else [])
  end.

(** The values and the count so far, in front of a later result. *)
Definition after_run (n0 : nat) (vs0 : list Z) (r : T * nat * list Z * Z * list Z) : T * nat * list Z * Z * list Z :=
  let '(g, n, vs, a, bad) := r in (g, (n0 + n)%nat, vs0 ++ vs, a, bad).

(** One queue of the operations: all were done, or the rest is another try of the one
    that answered WAIT, or the end. *)
Lemma run_from_chunk w chunk : forall r g rest, chunk <> [] ->
  let '(g', n, vs, a, bad) := q_run g chunk in
  run_from w r g (chunk ++ rest) =
    if (n =? length chunk)%nat then after_run n vs (run_from w w g' rest)
    else let r' := if (0 <? n)%nat then w else r in
      if a =? SWD_ACK_WAIT then match r' with S r'' => after_run n vs (run_from w r'' g' (drop n (chunk ++ rest))) | O => (g', n, vs, a, bad) end
      else (g', n, vs, a, bad).
Proof.
  induction chunk as [|[rq d] chunk IH]; intros r g rest Hne; [done|]. cbn [q_run app run_from].
  assert (Ea : attempt r g rq d = let '(g1, ack, v) := q_transfer g rq d in match r with S r' => if ack =? SWD_ACK_WAIT then attempt r' g1 rq d else (g1, ack, v) | O => (g1, ack, v) end) by (by destruct r).
  rewrite Ea. clear Ea. destruct (q_transfer g rq d) as [[g1 ack] v]. destruct (Z.eqb_spec ack SWD_ACK_OK) as [->|Hok].
  - replace (match r with S r' => _ | O => _ end) with (g1, SWD_ACK_OK, v) by (by destruct r). rewrite Z.eqb_refl.
    destruct chunk as [|o chunk].
    + cbn [q_run app length Nat.eqb]. destruct (run_from w w g1 rest) as [[[[g2 n] vs] a] bad]. cbn [after_run]. by destruct (is_read rq).
    + specialize (IH w g1 rest ltac:(done)). destruct (q_run g1 (o :: chunk)) as [[[[g2 n] vs] a] bad]. rewrite IH. change (length ((rq, d) :: o :: chunk)) with (S (length (o :: chunk))).
      change (S n =? S (length (o :: chunk)))%nat with (n =? length (o :: chunk))%nat. destruct (n =? length (o :: chunk))%nat.
      { destruct (run_from w w g2 rest) as [[[[g3 n3] vs3] a3] bad3]. cbn [after_run]. by destruct (is_read rq). }
      cbv zeta. replace (if (0 <? n)%nat then w else w) with w by (by destruct (0 <? n)%nat). change (0 <? S n)%nat with true. cbv iota. destruct (a =? SWD_ACK_WAIT); [|done].
      destruct w as [|w']; [done|]. change (drop (S n) ((rq, d) :: (o :: chunk) ++ rest)) with (drop n ((o :: chunk) ++ rest)).
      destruct (run_from (S w') w' g2 (drop n ((o :: chunk) ++ rest))) as [[[[g3 n3] vs3] a3] bad3]. cbn [after_run]. by destruct (is_read rq).
  - cbn [Nat.eqb length]. cbv zeta. change (0 <? 0)%nat with false. cbv iota. destruct r as [|r'].
    { rewrite (proj2 (Z.eqb_neq _ _) Hok). by destruct (ack =? SWD_ACK_WAIT). }
    destruct (ack =? SWD_ACK_WAIT) eqn:Ew; [|by rewrite (proj2 (Z.eqb_neq _ _) Hok)].
    cbn [drop app run_from]. unfold after_run. destruct (attempt r' g1 rq d) as [[g2 ack2] v2]. destruct (ack2 =? SWD_ACK_OK); [|done]. by destruct (run_from w w g2 (chunk ++ rest)) as [[[[? ?] ?] ?] ?].
Qed.

(** ** The queue's contents *)

Lemma fill_fits room : forall ops qlen nrd, (qlen <= SWDQ_BYTES_MAX)%nat -> (nrd <= SWDQ_READS_MAX)%nat ->
  let k := fill room ops qlen nrd in
  (k <= room)%nat /\ (k <= length ops)%nat /\ (qlen + op_list_bytes (take k ops) <= SWDQ_BYTES_MAX)%nat /\ (nrd + reads_in (take k ops) <= SWDQ_READS_MAX)%nat.
Proof.
  unfold reads_in. induction room as [|room IH]; intros ops qlen nrd Hq Hr; cbv zeta.
  { assert (E : fill 0 ops qlen nrd = O) by (by destruct ops). rewrite E, take_0. cbn [op_list_bytes fold_right List.filter length]. lia. }
  destruct ops as [|o ops]; [cbn [fill]; rewrite take_0; cbn [op_list_bytes fold_right List.filter length]; lia|]. cbn [fill].
  destruct ((_ <? _)%nat || _) eqn:E; [rewrite take_0; cbn [op_list_bytes fold_right List.filter length]; lia|]. apply orb_false_elim in E as [E1 E2]. apply Nat.ltb_ge in E1.
  destruct (IH ops (qlen + op_size o)%nat (if is_read (fst o) then S nrd else nrd)) as (H1' & H2' & H3' & H4'); [lia|destruct (is_read (fst o)); cbn [andb] in E2; [apply Nat.leb_gt in E2; lia|lia]|].
  cbn [take length op_list_bytes fold_right List.filter]. change (fold_right _ O ?l) with (op_list_bytes l). split_and!; [lia|lia|lia|]. destruct (is_read (fst o)); cbn [length] in *; lia.
Qed.

Lemma queue_len_fits ops : (queue_len ops <= 255)%nat /\ (queue_len ops <= length ops)%nat /\
  (op_list_bytes (take (queue_len ops) ops) <= SWDQ_BYTES_MAX)%nat /\ (reads_in (take (queue_len ops) ops) <= SWDQ_READS_MAX)%nat.
Proof.
  pose proof (fill_fits queue_room ops 0 0 ltac:(lia) ltac:(lia)) as F. cbv zeta in F. rewrite !Nat.add_0_l in F. destruct F as [F1 F]. split; [|exact F].
  assert (E : queue_room = 255%nat) by done. rewrite <- E. exact F1.
Qed.

Lemma queue_len_pos ops : ops <> [] -> (0 < queue_len ops)%nat.
Proof.
  destruct ops as [|o ops]; [done|]. intros _. unfold queue_len, queue_room. assert (E : forall room, (0 < fill (S room) (o :: ops) 0 0)%nat); [|apply (E 254%nat)].
  intros room. cbn [fill]. assert (Hs : (op_size o <= SWDQ_BYTES_MAX)%nat) by (unfold op_size; destruct (is_read (fst o)); lia).
  destruct (Nat.ltb_spec SWDQ_BYTES_MAX (0 + op_size o)); [lia|]. destruct (Nat.leb_spec SWDQ_READS_MAX 0); [lia|]. rewrite andb_false_r. cbn [orb]. lia.
Qed.

Lemma queue_bytes_length ops : length (concat (map op_bytes ops)) = op_list_bytes ops.
Proof.
  induction ops as [|o ops IH]; [done|]. cbn [map concat op_list_bytes fold_right]. rewrite length_app, IH. change (fold_right _ O ?l) with (op_list_bytes l). unfold op_bytes, op_size.
  destruct (is_read (fst o)); cbn [length]; [lia|rewrite le_length; lia].
Qed.

Lemma ops_done_at ops : forall n off, (n < length ops)%nat -> ops_done ops off (off + op_list_bytes (take n ops) + 1) = n.
Proof.
  induction ops as [|o ops IH]; intros n off Hn; [cbn in Hn; lia|]. cbn [ops_done]. destruct n as [|n].
  - cbn [take op_list_bytes fold_right]. destruct (Nat.leb_spec (off + 0 + 1) (off + 1)); [done|lia].
  - cbn [take op_list_bytes fold_right]. change (fold_right _ O ?l) with (op_list_bytes l). assert (Hs : (1 <= op_size o)%nat) by (unfold op_size; destruct (is_read _); lia).
    destruct (Nat.leb_spec (off + (op_size o + op_list_bytes (take n ops)) + 1) (off + 1)); [lia|]. cbn [length] in Hn.
    rewrite Nat.add_assoc. by rewrite IH by lia.
Qed.

Lemma bytes_le_whole ops : forall n, (n < length ops)%nat -> (op_list_bytes (take n ops) + 1 <= op_list_bytes ops)%nat.
Proof.
  induction ops as [|o ops IH]; intros n Hn; [cbn in Hn; lia|]. cbn [length] in Hn. assert (Hs : (1 <= op_size o)%nat) by (unfold op_size; destruct (is_read _); lia).
  destruct n as [|n]; cbn [take op_list_bytes fold_right]; [lia|]. change (fold_right _ O ?l) with (op_list_bytes l). specialize (IH n ltac:(lia)). lia.
Qed.

Lemma words_of vs : Forall (fun v => 0 <= v < 4294967296) vs -> words (length vs) (concat (map (le 4) vs)) = vs.
Proof.
  induction 1 as [|v vs Hv Hf IH]; [done|]. cbn [length words map concat]. rewrite take_app_length' by (by rewrite le_length). rewrite drop_app_length' by (by rewrite le_length).
  rewrite IH. by rewrite rd_le_le.
Qed.

Definition word_ok (v : Z) : Prop := 0 <= v < 4294967296.
Lemma q_run_range ops : forall g, let '(_, n, vs, a, bad) := q_run g ops in
  (n <= length ops)%nat /\ (a = SWD_ACK_OK <-> n = length ops) /\ length vs = reads_in (take n ops) /\ Forall word_ok vs /\
  Forall word_ok bad /\ length bad = (if (a =? 9)%Z then 1 else 0)%nat /\ (0 <= a < 8 \/ a = 9) /\ (length vs + length bad <= reads_in ops)%nat.
Proof.
  unfold reads_in. induction ops as [|[rq d] ops IH]; intros g; cbn [q_run].
  { split_and!; try done; lia. }
  pose proof (q_ack g rq d) as Ha. destruct (q_transfer g rq d) as [[g1 ack] v]. destruct Ha as [Ha Hv]. destruct (Z.eqb_spec ack SWD_ACK_OK) as [->|Hne].
  - specialize (IH g1). destruct (q_run g1 ops) as [[[[g2 n] vs] a] bad]. destruct IH as (I1 & I2 & I3 & I4 & I5 & I6 & I7 & I8). cbn [length take List.filter fst]. split_and!; try done; [lia|rewrite I2; lia| | |].
    + destruct (is_read rq); cbn [length]; by rewrite I3.
    + destruct (is_read rq) eqn:Er; [|done]. constructor; [by apply Hv|done].
    + destruct (is_read rq); cbn [length]; lia.
  - change (SWD_ACK_OK + SWD_ACK_PERR) with 9. split_and!; [cbn; lia|split; [done|cbn; lia]|done|constructor| | |lia|].
    + destruct (Z.eqb_spec ack 9) as [->|]; [|constructor]. destruct Ha as [?|[_ Hr]]; [lia|]. constructor; [by apply Hv|constructor].
    + by destruct (ack =? 9).
    + cbn [List.filter fst length]. destruct (Z.eqb_spec ack 9) as [->|]; [|cbn [length]; lia]. destruct Ha as [?|[_ ->]]; [lia|]. cbn [length]; lia.
Qed.

(** ** [swd_ll_batch] *)

(** No queue of the batch is exactly full. *)
Definition no_full_queue (ops : list (Z * Z)) : Prop := forall i, op_list_bytes (take (queue_len (drop i ops)) (drop i ops)) <> SWDQ_BYTES_MAX.

Lemma no_full_drop ops k : no_full_queue ops -> no_full_queue (drop k ops).
Proof. intros Hn i. rewrite drop_drop. apply Hn. Qed.

(** One queue's round, as the loop takes it. *)
Lemma round (st : swd_t G) ops : swd_armed_local st = true -> ops <> [] -> no_full_queue ops ->
  let nops := queue_len ops in
  let '(t', n, vs, a, bad) := q_run (q_target (gw st)) (take nops ops) in
  exists g' consumed flags, fpga_swdq_run st (concat (map op_bytes (take nops ops))) = (set_gw g' st, Some (consumed, flags)) /\ q_target g' = t' /\
    (if negb (Z.testbit flags 1) then nops else ops_done (take nops ops) 0 (Z.to_nat consumed)) = n /\
    (Z.testbit flags 5 && (n <? nops)%nat) = (a =? 9) /\ ((n < nops)%nat -> a <> 9 -> Z.land (Z.shiftr flags 2) 7 = a) /\
    let rget := (reads_in (take n ops) + (if (a =? 9)%Z then 1 else 0))%nat in
    exists rb, (if (rget =? 0)%nat then Some [] else fpga_swdq_read (set_gw g' st) (4 * rget)) = Some rb /\ words rget rb = vs ++ bad.
Proof.
  intros Harm Hne Hfull. cbv zeta. set (nops := queue_len ops). destruct (queue_len_fits ops) as (F1 & F2 & F3 & F4). fold nops in F1, F2, F3, F4.
  pose proof (queue_len_pos ops Hne) as Hpos. fold nops in Hpos. specialize (Hfull O). rewrite drop_0 in Hfull. fold nops in Hfull.
  set (chunk := take nops ops) in *. assert (Hlen : length chunk = nops) by (unfold chunk; rewrite length_take; lia).
  pose proof (q_law (gw st) chunk ltac:(lia) ltac:(lia) ltac:(lia)) as L. pose proof (q_run_range chunk (q_target (gw st))) as R.
  destruct (q_run (q_target (gw st)) chunk) as [[[[t' n] vs] a] bad]. destruct R as (R1 & R2 & R3 & R4 & R5 & R6 & R7 & R8). cbv zeta in L. destruct L as (g' & consumed & flags & Lq & Lt & Lr & Lf).
  exists g', consumed, flags. rewrite Hlen in *.
  assert (Et : reads_in (take n ops) = length vs) by (rewrite R3; unfold chunk; rewrite take_take; by replace (n `min` nops)%nat with n by lia).
  assert (E9 : n = nops -> (a =? 9) = false) by (intros En; apply R2 in En; by subst a).
  split_and!.
  - unfold fpga_swdq_run. rewrite Harm, queue_bytes_length. cbn [negb orb]. assert (Hb : (0 < op_list_bytes chunk)%nat) by (pose proof (bytes_le_whole chunk 0 ltac:(lia)); lia).
    destruct (Nat.eqb_spec (op_list_bytes chunk) 0); [lia|]. destruct (Nat.ltb_spec SWDQ_BYTES_MAX (op_list_bytes chunk)); [lia|]. cbn [orb]. cbv zeta. by rewrite Lq.
  - exact Lt.
  - destruct (Nat.eqb_spec n nops) as [->|Hn]; [by rewrite Lf|]. destruct Lf as (-> & -> & _). cbn [negb]. pose proof (bytes_le_whole chunk n ltac:(lia)) as Hb.
    rewrite Z.mod_small by lia. rewrite Nat2Z.id. apply (ops_done_at chunk n 0). lia.
  - destruct (Nat.eqb_spec n nops) as [->|Hn]; [rewrite Nat.ltb_irrefl, andb_false_r; by rewrite E9|]. destruct Lf as (_ & _ & -> & _). destruct (Nat.ltb_spec n nops); [by rewrite andb_true_r|lia].
  - intros Hn Ha. destruct (Nat.eqb_spec n nops); [lia|]. by apply Lf.
  - rewrite Et, <- R6, <- length_app. destruct (Nat.eqb_spec (length (vs ++ bad)) 0) as [E0|Hr].
    { exists []. split; [done|]. apply length_zero_iff_nil in E0. by rewrite E0. }
    exists (concat (map (le 4) (vs ++ bad))). split; [|apply words_of; by apply Forall_app].
    unfold fpga_swdq_read. assert (Hmax : (length (vs ++ bad) <= SWDQ_READS_MAX)%nat).
    { rewrite length_app. lia. }
    destruct (Nat.eqb_spec (4 * length (vs ++ bad)) 0); [lia|]. destruct (Nat.ltb_spec (4 * SWDQ_READS_MAX) (4 * length (vs ++ bad))); [lia|]. cbn [orb].
    change (gw (set_gw g' st)) with g'. rewrite (Lr (length (vs ++ bad))) by lia. by rewrite firstn_all.
Qed.

(** The result of the rest, behind what one queue did. *)
Lemma resume (X : option (swd_t G * nat * list Z * Z)) (st : swd_t G) g1 i n0 rdata vs0 (R : T * nat * list Z * Z * list Z) :
  (let '(t', n, vs, a, bad) := R in exists g', X = Some (set_gw g' (set_gw g1 st), (i + n0 + n)%nat, (rdata ++ vs0 ++ []) ++ vs ++ bad, a) /\ q_target g' = t') ->
  let '(t', n, vs, a, bad) := after_run n0 vs0 R in exists g', X = Some (set_gw g' st, (i + n)%nat, rdata ++ vs ++ bad, a) /\ q_target g' = t'.
Proof.
  destruct R as [[[[t n] vs] a] bad]. cbn [after_run]. intros (g' & -> & Et). exists g'. split; [|done]. by rewrite app_nil_r, Nat.add_assoc, <- !app_assoc.
Qed.

Lemma loop_runs w fuel : forall (st : swd_t G) ops i u rdata,
  swd_armed_local st = true -> s_wait_retry st = Z.of_nat w -> Z.of_nat w < 65536 -> (u <= w)%nat -> no_full_queue ops -> (length ops * S w + (w - u) < fuel)%nat ->
  let '(t', n, vs, a, bad) := run_from w (w - u) (q_target (gw st)) ops in
  exists g', batch_loop fuel st ops i (Z.of_nat u) rdata = Some (set_gw g' st, (i + n)%nat, rdata ++ vs ++ bad, a) /\ q_target g' = t'.
Proof.
  induction fuel as [|fuel IH]; intros st ops i u rdata Harm Hw Hmax Hu Hfull Hf; [lia|]. cbn [batch_loop]. destruct ops as [|o ops'] eqn:Eo.
  { cbn [run_from]. exists (gw st). rewrite Nat.add_0_r, !app_nil_r. by destruct st. }
  rewrite <- Eo in *. assert (Hne : ops <> []) by (by rewrite Eo). clear Eo o ops'. pose proof (round st ops Harm Hne Hfull) as R. pose proof (queue_len_fits ops) as (F1 & F2 & _). pose proof (queue_len_pos ops Hne) as F0.
  cbv zeta in R |- *. set (nops := queue_len ops) in *. clearbody nops. pose proof (run_from_chunk w (take nops ops) (w - u) (q_target (gw st)) (drop nops ops)) as C. pose proof (q_run_range (take nops ops) (q_target (gw st))) as Q.
  destruct (q_run (q_target (gw st)) (take nops ops)) as [[[[t' n] vs] a] bad]. rewrite take_drop in C. assert (Hl : length (take nops ops) = nops) by (rewrite length_take; lia). rewrite Hl in *.
  specialize (C ltac:(intros E0; rewrite E0 in Hl; cbn in Hl; lia)). destruct R as (g' & consumed & flags & Er & Et & Ed & Ep & Ea & rb & Erb & Ewords). destruct Q as (Q1 & Q2 & _ & _ & _ & Q6 & Q7 & _).
  rewrite Er, Ed, Ep, Erb, Ewords. assert (Hw' : s_wait_retry (set_gw g' st) = Z.of_nat w) by done.
  destruct (Nat.eqb_spec n nops) as [->|Hn].
  - assert (a = SWD_ACK_OK) as -> by (by apply Q2). assert (bad = []) as -> by (by apply length_zero_iff_nil). destruct (Nat.ltb_spec 0 nops); [|lia].
    pose proof (IH (set_gw g' st) (drop nops ops) (i + nops)%nat O (rdata ++ vs ++ []) Harm Hw' Hmax ltac:(lia) (no_full_drop _ _ Hfull) ltac:(rewrite length_drop; nia)) as E.
    rewrite C. apply (resume _ st g'). rewrite <- Et. rewrite Nat.sub_0_r in E. exact E.
  - cbv zeta in C. assert (Hend : forall t', q_target g' = t' -> exists g2, Some (set_gw g' st, (i + n)%nat, rdata ++ vs ++ bad, a) = Some (set_gw g2 st, (i + n)%nat, rdata ++ vs ++ bad, a) /\ q_target g2 = t') by (intros t'' <-; by exists g').
    destruct (Z.eqb_spec a 9) as [->|Ha9]; [rewrite C; by apply Hend|]. rewrite (Ea ltac:(lia) Ha9). assert (bad = []) as -> by (by apply length_zero_iff_nil).
    destruct (a =? SWD_ACK_WAIT) eqn:Ew; [|rewrite C; by apply Hend]. cbn [andb]. rewrite Hw'.
    assert (Hlen : length (drop n ops) = (length ops - n)%nat) by apply length_drop.
    destruct (Nat.ltb_spec 0 n) as [Hpos|Hz].
    + destruct w as [|w']; [rewrite C; destruct (Z.ltb_spec 0 (Z.of_nat 0)); [lia|by apply Hend]|]. destruct (Z.ltb_spec 0 (Z.of_nat (S w'))); [|lia]. rewrite u16_id by lia.
      pose proof (IH (set_gw g' st) (drop n ops) (i + n)%nat 1%nat (rdata ++ vs ++ []) Harm Hw' Hmax ltac:(lia) (no_full_drop _ _ Hfull) ltac:(rewrite Hlen; nia)) as E.
      rewrite C. apply (resume _ st g'). rewrite <- Et. replace (S w' - 1)%nat with w' in E by lia. exact E.
    + assert (n = 0)%nat as -> by lia. destruct (w - u)%nat as [|r] eqn:Er'; [rewrite C; destruct (Z.ltb_spec (Z.of_nat u) (Z.of_nat w)); [lia|by apply Hend]|].
      destruct (Z.ltb_spec (Z.of_nat u) (Z.of_nat w)); [|lia]. rewrite u16_id by lia. replace (Z.of_nat u + 1) with (Z.of_nat (S u)) by lia.
      pose proof (IH (set_gw g' st) (drop 0 ops) (i + 0)%nat (S u) (rdata ++ vs ++ []) Harm Hw' Hmax ltac:(lia) (no_full_drop _ _ Hfull) ltac:(rewrite Hlen; lia)) as E.
      rewrite C. apply (resume _ st g'). rewrite <- Et. replace (w - S u)%nat with r in E by lia. exact E.
Qed.

(** C25: With the SWD engine armed and its timing set, a batch of any length is its transfers in
    order, each tried again while the target answers WAIT, up to the retry count: the
    same effect on the target, the same values, and when one is not acknowledged the
    number done and its ACK. It always returns. The one exception is a queue of
    exactly 512 bytes. *)
Theorem batch_is_transfers (st : swd_t G) (ops : list (Z * Z)) (w : nat) :
  swd_armed_local st = true -> s_qcfg_dirty st = false -> s_wait_retry st = Z.of_nat w -> Z.of_nat w < 65536 -> no_full_queue ops ->
  let '(t', n, vs, a, bad) := run_from w w (q_target (gw st)) ops in
  exists g', q_target g' = t' /\ batch_loop (batch_fuel st ops) st ops 0 0 [] = Some (set_gw g' st, n, vs ++ bad, a) /\
    swd_ll_batch st ops = (set_gw g' st, n, vs ++ bad, a).
Proof.
  intros Harm Hd Hw Hmax Hfull. unfold swd_ll_batch. rewrite Hd. unfold batch_fuel. rewrite Hw, Nat2Z.id.
  pose proof (loop_runs w (S (length ops) * S w) st ops 0 0 [] Harm Hw Hmax ltac:(lia) Hfull ltac:(lia)) as E. rewrite Nat.sub_0_r in E.
  destruct (run_from w w (q_target (gw st)) ops) as [[[[t' n] vs] a] bad]. destruct E as (g' & E & Et). exists g'. change (Z.of_nat 0) with 0 in E. rewrite E. by split_and!.
Qed.
End batch.

(** ** A gateware *)

(** The target of the CMSIS-DAP examples, answering WAIT once when a
    count of transfers has run down. *)
Definition busy_transfer (t : nat * list Z) (rq d : Z) : nat * list Z * Z * Z :=
  match fst t with
  | O => (500%nat, snd t, SWD_ACK_WAIT, 0)
  | S b => let '(m, ack, v) := DapTheorems.demo_transfer (snd t) rq (rd_le (le 4 d)) in (b, m, ack, v)
  end.
#[export] Instance busy_queue : QueueTransfer (nat * list Z) := { q_transfer := busy_transfer }.

Fixpoint decode (fuel : nat) (q : list Z) : list (Z * Z) :=
  match fuel, q with
  | S fuel', b :: q' =>
      let rq := Z.land (Z.shiftr b 1) 15 in
      if is_read rq then (rq, 0) :: decode fuel' q' else (rq, rd_le (take 4 q')) :: decode fuel' (drop 4 q')
  | _, _ => []
  end.

Record demo_gw := DemoGw { dq : nat * list Z; dq_reply : list Z; dq_status : Z * Z }.
Definition demo_qfeed (g : demo_gw) (q : list Z) : demo_gw :=
  let ops := decode (length q) q in
  let '(t, n, vs, a, bad) := q_run (dq g) ops in
  let c := (Z.of_nat (op_list_bytes (take n ops) + 1)) mod 512 in
  DemoGw t (0 :: concat (map (le 4) (vs ++ bad))) (if (n =? length ops)%nat then (0, 0) else (c mod 256, Z.lor (Z.shiftl (c / 256) 6) (2 + 4 * a))).
#[export] Instance demo_link : SwdLink demo_gw := {
  link_armed _ := true; link_check_due _ := false; link_checked g := g; link_feed g _ := g; link_read g n := take n (dq_reply g);
  link_qconfig g _ _ := g; link_qfeed := demo_qfeed; link_qpolls _ := O; link_qstatus g := (g, fst (dq_status g), snd (dq_status g));
  link_version _ := SWD_QUEUE_MIN_GW; link_nrst g _ := g;
}.

(** An operation as the engine sees it. *)
Definition seen (o : Z * Z) : Z * Z := (Z.land (fst o) 15, if is_read (fst o) then 0 else rd_le (le 4 (snd o))).

Lemma swd_packet_request rq : Z.land (Z.shiftr (swd_packet rq) 1) 15 = Z.land rq 15.
Proof.
  assert (E : forall k, (k < 4)%nat -> Z.testbit (swd_packet rq) (Z.of_nat k + 1) = Z.testbit rq (Z.of_nat k)).
  { pose proof (swd_packet_bits rq) as E. assert (B : forall n z k, (k < n)%nat -> nth k (low_bits n z) false = Z.testbit z (Z.of_nat k)).
    { induction n as [|n IHn]; intros z k Hk; [lia|]. destruct k as [|k]; [done|]. cbn [low_bits nth]. rewrite IHn by lia. rewrite Z.shiftr_spec by lia. f_equal. lia. }
    intros k Hk. pose proof (B 8%nat (swd_packet rq) (S k) ltac:(lia)) as Bk. rewrite E in Bk. replace (Z.of_nat k + 1) with (Z.of_nat (S k)) by lia. rewrite <- Bk.
    destruct k as [|[|[|[|k]]]]; [done|done|done|done|lia]. }
  apply Z.bits_inj'. intros i Hi. rewrite !Z.land_spec. destruct (Z_lt_le_dec i 4) as [H4|H4].
  - rewrite Z.shiftr_spec by lia. rewrite <- (Z2Nat.id i) by lia. by rewrite E by lia.
  - assert (E15 : Z.testbit 15 i = false) by (apply (testbit_high 4); lia). by rewrite E15, !andb_false_r.
Qed.

Lemma is_read_seen o : is_read (fst (seen o)) = is_read (fst o).
Proof. unfold seen, is_read. cbn [fst]. rewrite Z.land_spec. by rewrite andb_true_r. Qed.

Lemma decode_bytes ops : forall fuel, (op_list_bytes ops <= fuel)%nat -> decode fuel (concat (map op_bytes ops)) = map seen ops.
Proof.
  induction ops as [|o ops IH]; intros fuel Hf; [by destruct fuel|]. cbn [op_list_bytes fold_right] in Hf. change (fold_right _ O ?l) with (op_list_bytes l) in Hf.
  assert (Hs : (1 <= op_size o)%nat) by (unfold op_size; destruct (is_read _); lia). destruct fuel as [|fuel]; [lia|]. cbn [map concat]. unfold op_bytes at 1. cbn [app decode]. rewrite swd_packet_request.
  pose proof (is_read_seen o) as Er. unfold seen in Er |- *. cbn [fst] in Er. rewrite Er. destruct (is_read (fst o)); cbn [app]; [by rewrite IH by lia|].
  rewrite take_app_length', drop_app_length' by (by rewrite le_length). by rewrite IH by (unfold op_size in *; lia).
Qed.

Lemma transfer_seen t rq d : busy_transfer t (fst (seen (rq, d))) (snd (seen (rq, d))) = busy_transfer t rq d.
Proof.
  unfold busy_transfer. cbn [seen fst snd]. destruct (fst t); [done|]. unfold DapTheorems.demo_transfer. rewrite <- (Z.land_assoc rq 15 15). change (Z.land 15 15) with 15.
  destruct (_ =? 12); [done|]. assert (Er : is_read (Z.land rq 15) = is_read rq) by (unfold is_read; rewrite Z.land_spec; by rewrite andb_true_r). rewrite Er. destruct (is_read rq); [done|].
  rewrite rd_le_le; [done|]. pose proof (rd_le_range (le 4 d) (le_bytes 4 d)) as R. by rewrite le_length in R.
Qed.

Lemma run_seen ops : forall t, q_run t (map seen ops) = q_run t ops.
Proof.
  induction ops as [|[rq d] ops IH]; intros t; [done|]. cbn [map]. rewrite (surjective_pairing (seen (rq, d))). cbn [q_run]. cbn [q_transfer busy_queue]. rewrite transfer_seen.
  rewrite is_read_seen. destruct (busy_transfer t rq d) as [[t1 ack] v]. cbn [fst]. by rewrite IH.
Qed.

Lemma bytes_seen ops : op_list_bytes (map seen ops) = op_list_bytes ops.
Proof. induction ops as [|o ops IH]; [done|]. cbn [map op_list_bytes fold_right]. change (fold_right _ O ?l) with (op_list_bytes l). rewrite IH. unfold op_size. by rewrite is_read_seen. Qed.

Lemma busy_ack t rq d : let '(_, ack, v) := busy_transfer t rq d in (ack = SWD_ACK_OK \/ ack = SWD_ACK_WAIT \/ ack = SWD_ACK_FAULT) /\ 0 <= v < 4294967296.
Proof.
  unfold busy_transfer, DapTheorems.demo_transfer. destruct (fst t); [split; [by right; left|lia]|]. destruct (_ =? 12); [split; [by right; right|lia]|]. destruct (is_read (Z.land rq 15)); (split; [by left|]); [apply u32_range|lia].
Qed.

Lemma demo_ack t rq d : let '(_, ack, v) := q_transfer t rq d in (0 <= ack < 8 \/ ack = 9 /\ is_read rq = true) /\ (is_read rq = true -> 0 <= v < 4294967296).
Proof. cbn [q_transfer busy_queue]. pose proof (busy_ack t rq d) as B. destruct (busy_transfer t rq d) as [[t1 ack] v]. destruct B as [B1 B2]. split; [|done]. lia. Qed.

Lemma run_stops ops : forall t, let '(_, n, _, a, _) := q_run t ops in a = SWD_ACK_OK -> n = length ops.
Proof.
  induction ops as [|[rq d] ops IH]; intros t; cbn [q_run]; [done|]. destruct (q_transfer t rq d) as [[t1 ack] v]. destruct (Z.eqb_spec ack SWD_ACK_OK); [|done].
  specialize (IH t1). destruct (q_run t1 ops) as [[[[? ?] ?] ?] ?]. intros Ha. cbn [length]. by rewrite IH.
Qed.

Lemma busy_run_ack ops : forall t, let '(_, n, _, a, bad) := q_run t ops in bad = [] /\ (a = SWD_ACK_OK \/ a = SWD_ACK_WAIT \/ a = SWD_ACK_FAULT).
Proof.
  induction ops as [|[rq d] ops IH]; intros t; cbn [q_run q_transfer busy_queue]; [split; [done|by left]|]. pose proof (busy_ack t rq d) as B. destruct (busy_transfer t rq d) as [[t1 ack] v]. destruct B as [B _].
  destruct (Z.eqb_spec ack SWD_ACK_OK); [specialize (IH t1); by destruct (q_run t1 ops) as [[[[? ?] ?] ?] ?]|]. split; [|done]. by destruct B as [->|[->| ->]].
Qed.

Lemma reads_seen ops : reads_in (map seen ops) = reads_in ops.
Proof. unfold reads_in. induction ops as [|o ops IH]; [done|]. cbn [map List.filter]. rewrite is_read_seen. destruct (is_read (fst o)); cbn [length]; by rewrite IH. Qed.

(** The two status bytes name the bytes consumed and the ACK. *)
Lemma status_bytes c a : 0 <= c < 512 -> a = SWD_ACK_WAIT \/ a = SWD_ACK_FAULT ->
  let lo := c mod 256 in let hi := Z.lor (Z.shiftl (c / 256) 6) (2 + 4 * a) in
  Z.testbit hi 7 = false /\ Z.testbit hi 0 = false /\ Z.lor lo (Z.shiftl (Z.land hi 64) 2) = c /\ Z.testbit hi 1 = true /\ Z.testbit hi 5 = false /\ Z.land (Z.shiftr hi 2) 7 = a.
Proof.
  intros Hc Ha. cbv zeta. assert (Hq : c / 256 = 0 \/ c / 256 = 1) by (assert (0 <= c / 256 < 2) by (split; [apply Z.div_pos; lia|apply Z.div_lt_upper_bound; lia]); lia).
  pose proof (Z.div_mod c 256 ltac:(lia)) as Hd. pose proof (Z.mod_pos_bound c 256 ltac:(lia)) as Hm.
  assert (Hlo : forall k, k = 0 \/ k = 1 -> c / 256 = k -> Z.lor (c mod 256) (Z.shiftl k 8) = c) by (intros k Hk Ek; rewrite Z.lor_comm, lor_shiftl_add by lia; lia).
  destruct Hq as [Eq|Eq]; [specialize (Hlo 0 (or_introl eq_refl) Eq)|specialize (Hlo 1 (or_intror eq_refl) Eq)]; rewrite Eq; destruct Ha as [->| ->]; split_and!; (reflexivity || exact Hlo).
Qed.

Lemma words_prefix vs : forall k, (k <= length vs)%nat -> take (4 * k) (concat (map (le 4) vs)) = concat (map (le 4) (take k vs)).
Proof.
  induction vs as [|v vs IH]; intros k Hk; [cbn in Hk; by replace k with O by lia|]. destruct k as [|k]; [by rewrite Nat.mul_0_r|]. cbn [length] in Hk. cbn [map concat firstn].
  replace (4 * S k)%nat with (length (le 4 v) + 4 * k)%nat by (rewrite le_length; lia). rewrite take_app_add. by rewrite IH by lia.
Qed.

Lemma demo_law (g : demo_gw) ops : (0 < length ops <= 255)%nat -> (op_list_bytes ops <= SWDQ_BYTES_MAX)%nat ->
  let '(t', n, vs, a, bad) := q_run (dq g) ops in
  let g1 := link_qfeed g (concat (map op_bytes ops)) in
  exists g' consumed flags, qpoll (link_qpolls g1) g1 = (g', Some (consumed, flags)) /\ dq g' = t' /\
    (forall k, (0 < k <= length (vs ++ bad))%nat -> drop 1 (link_read g' (S (4 * k))) = concat (map (le 4) (take k (vs ++ bad)))) /\
    if (n =? length ops)%nat then Z.testbit flags 1 = false
    else Z.testbit flags 1 = true /\ consumed = Z.of_nat (op_list_bytes (take n ops) + 1) mod 512 /\ Z.testbit flags 5 = (a =? 9) /\ (a <> 9 -> Z.land (Z.shiftr flags 2) 7 = a).
Proof.
  intros Hl Hb. pose proof (busy_run_ack ops (dq g)) as A. pose proof (run_seen ops (dq g)) as Es.
  cbn [link_qfeed link_qpolls demo_link qpoll]. unfold demo_qfeed. rewrite decode_bytes by (rewrite queue_bytes_length; lia). rewrite Es.
  pose proof (run_stops ops (dq g)) as Rs. destruct (q_run (dq g) ops) as [[[[t' n] vs] a] bad]. destruct A as [-> A]. rewrite app_nil_r, !length_map, firstn_map, bytes_seen. cbv zeta. cbn [link_qstatus demo_link dq_status fst snd].
  set (c := Z.of_nat (op_list_bytes (take n ops) + 1) mod 512). assert (Hc : 0 <= c < 512) by (apply Z.mod_pos_bound; lia). clearbody c.
  assert (Hrd : forall st k, (0 < k <= length vs)%nat -> drop 1 (take (S (4 * k)) (dq_reply (DemoGw t' (0 :: concat (map (le 4) vs)) st))) = concat (map (le 4) (take k vs))).
  { intros st k [_ Hk]. exact (words_prefix vs k Hk). }
  destruct (Nat.eqb_spec n (length ops)) as [E|E].
  - eexists _, _, _. cbn. split_and!; [done|done|exact (Hrd _)|done].
  - assert (Ha : a = SWD_ACK_WAIT \/ a = SWD_ACK_FAULT) by (destruct A as [A|A]; [by apply Rs in A|done]). pose proof (status_bytes c a Hc Ha) as (B1 & B2 & B3 & B4 & B5 & B6). cbv zeta in *.
    cbn [fst snd]. rewrite B1, B2. cbn [negb]. eexists _, _, _. split_and!; [done|done|exact (Hrd _)|exact B4|exact B3|rewrite B5; by destruct Ha as [->| ->]|by intros _].
Qed.

#[export] Instance demo_queue : SwdQueue demo_gw (nat * list Z) := {
  q_target := dq;
  q_ack t rq d := demo_ack t rq d;
  q_law g ops Hl Hb _ := demo_law g ops Hl Hb;
}.

(** Two writes and a read, a WAIT on the second. *)
Definition demo_ops : list (Z * Z) := [(0, 5); (2, 0); (0, 9); (2, 0)].
Definition demo_pod : swd_t demo_gw := Swd (DemoGw (1%nat, [7]) [] (0, 0)) true 1 3 6 false false 8.

Lemma demo_not_full : no_full_queue demo_ops.
Proof.
  intros i. destruct (Nat.lt_ge_cases i 4) as [Hi|Hi]; [|rewrite drop_ge by (cbn; lia); done].
  destruct i as [|[|[|[|i]]]]; [vm_compute; done..|lia].
Qed.

Lemma batch_is_transfers_witness :
  no_full_queue demo_ops /\ run_from 3 3 (1%nat, [7]) demo_ops = ((497%nat, [9; 5; 7]), 4%nat, [7; 11], SWD_ACK_OK, []) /\
  let '(t', n, vs, a, bad) := run_from 3 3 (q_target (gw demo_pod)) demo_ops in
  exists g', q_target g' = t' /\ batch_loop (batch_fuel demo_pod demo_ops) demo_pod demo_ops 0 0 [] = Some (set_gw g' demo_pod, n, vs ++ bad, a) /\
    swd_ll_batch demo_pod demo_ops = (set_gw g' demo_pod, n, vs ++ bad, a).
Proof. split; [exact demo_not_full|]. split; [vm_compute; reflexivity|]. apply (batch_is_transfers demo_pod demo_ops 3); [reflexivity|reflexivity|reflexivity|lia|exact demo_not_full]. Defined.

(** ** A full queue

    Ninety-six writes and thirty-two reads are 512 bytes: when the last read answers WAIT
    the engine has consumed all of them, which its 9-bit counter reports as 0. The
    firmware takes the first write for the one that stopped and queues everything again. *)
Definition full_ops : list (Z * Z) := repeat (0, 1) 96 ++ repeat (2, 0) 32.
Definition full_pod : swd_t demo_gw := Swd (DemoGw (127%nat, []) [] (0, 0)) true 1 3 6 false false 8.
Example full_queue_runs_twice :
  let '(g, n, vs, a, _) := run_from 3 3 (q_target (gw full_pod)) full_ops in
  let '(st', n', vs', a') := swd_ll_batch full_pod full_ops in
  (length (snd g), n, a) = (96%nat, 128%nat, SWD_ACK_OK) /\ (length (snd (q_target (gw st'))), n', a') = (192%nat, 128%nat, SWD_ACK_OK).
Proof. vm_compute. done. Qed.
