(* ===== verification/WifiBridge.v ===== *)
(** * The pod's side of the bridge's control channel ([wifi_bridge.c])

    Frames come in through [wb_rx], time through [wb_poll]; the frames sent are in
    [sent], as the Ethernet layer pads them. *)

From S2P Require Import Prelude HmacSha Bwp BridgeOta.

Abbreviation WB_HELLO_TIMEOUT_MS := 6000.
Abbreviation WB_STATUS_EVERY_MS := 10000.
Abbreviation WB_PAIR_RETRY_MS := 5000.
Abbreviation WB_TRIES := 3.
Abbreviation WB_MSG_MAX := 64%nat.
Abbreviation WB_SCAN_MAX := 20%nat.
Abbreviation WB_REQ_MAX := 128%nat.
Abbreviation WB_TRAILER_LEN := 26%nat.
Abbreviation WB_BODY_MAX := 1466%nat.   (* BWP_MAX_BODY - WB_TRAILER_LEN *)
Abbreviation BWP_AUTH_OTHER := 255.

Inductive wb_req_state_t := WB_REQ_IDLE | WB_REQ_PENDING | WB_REQ_DONE | WB_REQ_TIMEOUT.
#[export] Instance wb_req_state_eq : EqDecision wb_req_state_t.
Proof. solve_decision. Defined.

Record wb_reply_t := Reply { result : Z; message : cstr; r_offset : Z; aps : list bwp_ap_t }.
Definition no_reply : wb_reply_t := Reply 0 [] 0 [].

Record wb_info_t := Info {
  i_present : bool; i_mac : list Z; fw_version : cstr; hw_rev : cstr; hello_flags : Z; i_state : Z; flags : Z; i_paired : bool;
  problem : option cstr; have_status : bool; status_state : Z; i_ssid : cstr; i_channel : Z; i_rssi : Z; i_reason : Z; uptime_s : Z;
  status_age_ms : Z; i_counters : list Z;
}.
Definition no_info : wb_info_t := Info false (replicate 6 0) [] [] 0 0 0 false None false 0 [] 0 0 0 0 0 (replicate 7 0).

Definition wb_rssi_known (i : wb_info_t) : bool := have_status i && (i_state i =? BWP_ST_CONNECTED) && (status_state i =? BWP_ST_CONNECTED).

(** [req_body] is the body of the request, copied or borrowed; the caller of a borrowed
    one keeps it unchanged while the request is pending. *)
Record wb_t := Wb {
  pod_mac : list Z; link_up : bool;
  seen : bool; last_hello : Z; mac : list Z; nonce : list Z; have_nonce : bool; secret : list Z; pub : list Z; have_secret : bool;
  bridge_pub : list Z; key : list Z; have_key : bool; counter : Z; w_seq : Z; info : wb_info_t; status_at : Z; next_status : Z; next_pair : Z;
  req_state : wb_req_state_t; req_internal : bool; req_type : Z; req_seq : Z; req_counter : Z; req_signed : bool; req_body : list Z;
  req_timeout : Z; req_sent : Z; req_tries : Z; req_resynced : bool; w_reply : wb_reply_t;
  sent : list (list Z);
}.

Definition set_info (i : wb_info_t) (b : wb_t) : wb_t := {| b with info := i |}.
Definition set_flags (f : Z) (i : wb_info_t) : wb_info_t := {| i with flags := f |}.
Definition set_paired (p : bool) (why : option cstr) (i : wb_info_t) : wb_info_t := {| i with i_paired := p; problem := why |}.
Definition set_reply (r : wb_reply_t) (b : wb_t) : wb_t := {| b with w_reply := r |}.
Definition set_next_status (now : Z) (b : wb_t) : wb_t := {| b with next_status := now |}.

Definition elapsed (now since ms : Z) : bool := ms <=? u32 (now - since).
Definition set_msg (s : cstr) (r : wb_reply_t) : wb_reply_t := Reply (result r) (take (WB_MSG_MAX - 1) s) (r_offset r) (aps r).

Definition wb_init (m : list Z) : wb_t :=
  Wb m false false 0 (replicate 6 0) (replicate 8 0) false (replicate 32 0) (replicate 32 0) false (replicate 32 0) (replicate 32 0) false 0 0
    no_info 0 0 0 WB_REQ_IDLE false 0 0 0 false [] 0 0 0 false no_reply [].

Definition present (b : wb_t) (now : Z) : bool := seen b && link_up b && negb (elapsed now (last_hello b) WB_HELLO_TIMEOUT_MS).
Definition bridge_paired (b : wb_t) : bool := has_flag (flags (info b)) BWP_F_PAIRED.
Definition finish (st : wb_req_state_t) (b : wb_t) : wb_t := {| b with req_state := if req_internal b then WB_REQ_IDLE else st |}.

(** ** Requests *)

(** What [io_send] puts on the wire. *)
Definition padded (f : list Z) : list Z := f ++ replicate (BWP_MIN_FRAME - length f) 0.

Definition req_head (b : wb_t) : list Z :=
  patch 20 (put_be16 (u16 (Z.of_nat (length (req_body b)) + (if req_signed b then Z.of_nat WB_TRAILER_LEN else 0))))
    (w_buf (bwp_begin (BWP_ETH_HDR_LEN + BWP_HDR_LEN) (mac b) (pod_mac b) (req_type b) (req_seq b))).
Definition counter_tlv (c : Z) : list Z := [BWP_T_COUNTER; 0; 4] ++ put_be32 c.
Definition req_mac (b : wb_t) (head tail : list Z) : list Z :=
  hmac_sha256_final (hmac_sha256_update (hmac_sha256_update (hmac_sha256_update (hmac_sha256_update (hmac_sha256_init (key b)) (nonce b))
    (drop BWP_ETH_HDR_LEN head)) (req_body b)) tail).

Definition send_req (now : Z) (b : wb_t) : wb_t :=
  let head := req_head b in
  let c := if req_signed b then u32 (counter b + 1) else counter b in
  let tail := if req_signed b then counter_tlv c ++ [BWP_T_AUTH; 0; Z.of_nat BWP_AUTH_LEN] ++ take BWP_AUTH_LEN (req_mac b head (counter_tlv c)) else [] in
  {| b with counter := c; req_counter := if req_signed b then c else req_counter b; req_sent := now; req_tries := u8 (req_tries b + 1);
            sent := sent b ++ [padded (head ++ req_body b ++ tail)] |}.

Definition start_req (type : Z) (tlvs : list Z) (timeout_ms : Z) (internal : bool) (now : Z) (b : wb_t) : wb_t :=
  let s := if u16 (w_seq b + 1) =? 0 then 1 else u16 (w_seq b + 1) in
  send_req now {| b with req_state := WB_REQ_PENDING; req_internal := internal; req_type := type; w_seq := s; req_seq := s; req_body := tlvs;
    req_timeout := timeout_ms; req_tries := 0; req_resynced := false; req_signed := bridge_paired b; w_reply := no_reply |}.

Definition forget_bridge (b : wb_t) : wb_t :=
  let b := if bool_decide (req_state b = WB_REQ_PENDING) then finish WB_REQ_TIMEOUT (set_reply (set_msg (str "the bridge went away") (w_reply b)) b) else b in
  {| b with seen := false; have_nonce := false; have_key := false; have_secret := false; counter := 0; key := replicate 32 0; secret := replicate 32 0; info := no_info |}.

Definition wb_set_link (up : bool) (b : wb_t) : wb_t := {| b with have_nonce := have_nonce b && negb (link_up b && negb up); link_up := up |}.

Definition str_or_empty (m : bwp_msg_t) (tag : Z) (cap : nat) : cstr := default [] (bwp_get_str (m_body m) tag cap).

Section bridge.
Context `{MonocypherBox} (derive_secret : list Z -> option (list Z)).

Definition learn_bridge_pub (p : list Z) (b : wb_t) : wb_t :=
  if negb (have_secret b) || (have_key b && bool_decide (p = bridge_pub b)) then b
  else
    let k := bwp_pair_key (secret b) p (pub b) p in
    {| b with bridge_pub := p; key := default (replicate 32 0) k; have_key := match k with Some _ => true | None => false end |}.

Definition update_state (body : list Z) (now : Z) (b : wb_t) : wb_t :=
  match bwp_get_u8 body BWP_T_STATE with
  | Some st =>
      if negb (st =? i_state (info b)) then
        let i := info b in {| b with info := {| i with i_state := st |}; next_status := now |}
      else b
  | None => b
  end.

(** ** What comes in *)

Definition new_bridge (m : bwp_msg_t) (now : Z) (b : wb_t) : wb_t :=
  let b := forget_bridge b in
  let s := derive_secret (m_src m) in
  let i := set_paired (i_paired (info b)) (match s with Some _ => None | None => Some (str "no device identity on this pod: cannot pair") end) (info b) in
  {| b with mac := m_src m; have_secret := match s with Some _ => true | None => false end; secret := default (secret b) s;
            pub := match s with Some x => bwp_x25519_public x | None => pub b end; info := i; next_pair := now; next_status := now |}.

Definition hello_nonce (m : bwp_msg_t) (now : Z) (b : wb_t) : wb_t :=
  match bwp_find (m_body m) BWP_T_NONCE with
  | Some v =>
      if (length v =? BWP_NONCE_LEN)%nat then
        let b := if bool_decide (v = nonce b) then (if have_nonce b then b else set_next_status now b)
                 else {| b with nonce := v; counter := 0; next_status := now |} in
        {| b with have_nonce := true |}
      else b
  | None => b
  end.

Definition on_hello (m : bwp_msg_t) (now : Z) (b : wb_t) : wb_t :=
  let b := if negb (seen b) || negb (bool_decide (m_src m = mac b)) then new_bridge m now b else b in
  let b := hello_nonce m now {| b with seen := true; last_hello := now |} in
  let b := update_state (m_body m) now b in
  let f := default (flags (info b)) (bwp_get_u8 (m_body m) BWP_T_FLAGS) in
  let i := info b in
  let b := set_info {| i with flags := f; hello_flags := f; fw_version := str_or_empty m BWP_T_FW_VERSION 16; hw_rev := str_or_empty m BWP_T_HW_REV 8 |} b in
  if negb (bridge_paired b) then
    let i := info b in {| b with info := set_paired false (problem i) i; have_key := false |}
  else
    match bwp_find (m_body m) BWP_T_PUBKEY with
    | Some v => if (length v =? BWP_PUBKEY_LEN)%nat then learn_bridge_pub v b else b
    | None => b
    end.

Definition s8 (z : Z) : Z := if z <? 128 then z else z - 256.
Definition parse_counters (v : list Z) : list Z := map (fun k => get_be32 (drop (4 * k) v)) (seq 0 7).

Definition parse_status (m : bwp_msg_t) (now : Z) (b : wb_t) : wb_t :=
  let i := info b in
  let g tag := bwp_get_u8 (m_body m) tag in
  let st := default (i_state i) (g BWP_T_STATE) in
  let cs := match bwp_find (m_body m) BWP_T_COUNTERS with Some v => if (length v =? 28)%nat then parse_counters v else i_counters i | None => i_counters i end in
  {| b with status_at := now;
     info := {| i with i_state := st; status_state := st; flags := default (flags i) (g BWP_T_FLAGS); i_ssid := str_or_empty m BWP_T_SSID 33;
       i_channel := default 0 (g BWP_T_CHANNEL); i_rssi := s8 (default 0 (g BWP_T_RSSI)); i_reason := default 0 (g BWP_T_REASON);
       uptime_s := default 0 (bwp_get_u32 (m_body m) BWP_T_UPTIME); i_counters := cs; have_status := true |} |}.

(** The networks of a SCAN answer. *)
Fixpoint scan_loop (fuel : nat) (p : list Z) (l : list bwp_ap_t) : list bwp_ap_t :=
  match fuel with
  | O => l
  | S fuel' =>
      match bwp_iter_next p with
      | None => l
      | Some (tag, v, rest) =>
          if (WB_SCAN_MAX <=? length l)%nat then l
          else if negb (tag =? BWP_T_AP) || negb (bwp_tlv_valid v) then scan_loop fuel' rest l
          else
            match bwp_get_str v BWP_T_SSID 33 with
            | None => scan_loop fuel' rest l
            | Some ssid =>
                let g t d := default d (bwp_get_u8 v t) in
                let bs := match bwp_find v BWP_T_BSSID with Some x => if (length x =? 6)%nat then x else replicate 6 0 | None => replicate 6 0 end in
                scan_loop fuel' rest (l ++ [Ap ssid (s8 (g BWP_T_RSSI 0)) (g BWP_T_CHANNEL 0) (g BWP_T_AUTHMODE BWP_AUTH_OTHER) bs])
            end
      end
  end.
Definition parse_scan (m : bwp_msg_t) (b : wb_t) : wb_t :=
  let r := w_reply b in set_reply {| r with aps := scan_loop (length (m_body m)) (m_body m) (aps r) |} b.

Definition REJECTED : cstr := str "the bridge is paired with another pod: press PAIR on the bridge".

Definition reject (b : wb_t) : wb_t := set_info (set_paired false (Some REJECTED) (info b)) b.
Definition resend (resynced : bool) (now : Z) (b : wb_t) : wb_t := send_req now {| b with req_resynced := resynced |}.

(** A refusal with AUTH: [inl] was sent again. *)
Definition on_auth_refusal (m : bwp_msg_t) (now : Z) (b : wb_t) : wb_t + wb_t :=
  let other := match bwp_find (m_body m) BWP_T_NONCE with
               | Some v => if (length v =? BWP_NONCE_LEN)%nat && (negb (have_nonce b) || negb (bool_decide (v = nonce b))) then Some v else None
               | None => None end in
  match other with
  | Some v =>
      let b := {| b with nonce := v; have_nonce := true; counter := 0 |} in
      if (req_tries b <? WB_TRIES) || negb (req_resynced b) then inl (resend (WB_TRIES <=? req_tries b) now b) else inr b
  | None =>
      match bwp_get_u32 (m_body m) BWP_T_COUNTER with
      | Some c =>
          if negb (req_resynced b) then inl (resend true now {| b with counter := if counter b <=? c then c else counter b |}) else inr (reject b)
      | None => inr (reject b)
      end
  end.

Definition on_ok (m : bwp_msg_t) (now : Z) (b : wb_t) : wb_t :=
  if req_type b =? BWP_PAIR then
    match bwp_find (m_body m) BWP_T_PUBKEY with
    | Some v =>
        if (length v =? BWP_PUBKEY_LEN)%nat then
          let b := learn_bridge_pub v {| b with have_key := false |} in
          let i := set_flags (Z.lor (flags (info b)) BWP_F_PAIRED) (info b) in
          set_next_status now (set_info (set_paired (have_key b) (if have_key b then None else Some (str "the bridge sent a bad public key")) i) b)
        else b
    | None => b
    end
  else if req_type b =? BWP_STATUS then parse_status m now b
  else if req_type b =? BWP_SCAN then parse_scan m b
  else if req_type b =? BWP_SET_WIFI then
    let i := info b in
    set_next_status now (set_info {| i with have_status := false; i_state := BWP_ST_JOINING; status_state := BWP_ST_JOINING |} b)
  else b.

Definition not_paired (now : Z) (b : wb_t) : wb_t :=
  let i := set_flags (Z.land (flags (info b)) (255 - BWP_F_PAIRED)) (info b) in
  {| b with info := set_paired false (problem i) i; next_pair := now |}.

(** The end of [on_reply]: the caller's reply. *)
Definition answer (m : bwp_msg_t) (r : Z) (b : wb_t) : wb_t :=
  let rp := w_reply b in
  let off := if req_type b =? BWP_OTA_DATA then default (r_offset rp) (bwp_get_u32 (m_body m) BWP_T_OFFSET) else r_offset rp in
  let msg := default [] (bwp_get_str (m_body m) BWP_T_MESSAGE WB_MSG_MAX) in
  let rp := Reply r msg off (aps rp) in
  let rp := if (r =? BWP_E_AUTH) || (r =? BWP_E_ALREADY_PAIRED) then set_msg REJECTED rp
            else if r =? BWP_E_NOT_PAIRED then set_msg (str "the bridge is not paired yet; pairing now, try again") rp else rp in
  finish WB_REQ_DONE (set_reply rp b).

Definition is_refusal (r : Z) : bool := (r =? BWP_E_AUTH) || (r =? BWP_E_NOT_PAIRED) || (r =? BWP_E_ALREADY_PAIRED).
Definition reply_verified (m : bwp_msg_t) (frame : list Z) (b : wb_t) : bool :=
  match bwp_verify frame m (key b) (nonce b) with (BWP_VERIFY_OK, Some c) => c =? req_counter b | _ => false end.

Definition on_reply (m : bwp_msg_t) (frame : list Z) (now : Z) (b : wb_t) : wb_t :=
  let r := default BWP_E_INTERNAL (bwp_get_u8 (m_body m) BWP_T_RESULT) in
  let check := req_signed b && negb (is_refusal r) in
  if check && negb (reply_verified m frame b) then b
  else
    let b := if check then set_info (set_paired true None (info b)) b else b in
    if r =? BWP_E_AUTH then match on_auth_refusal m now b with inl b => b | inr b => answer m r b end
    else if r =? BWP_E_ALREADY_PAIRED then answer m r (reject b)
    else if r =? BWP_E_NOT_PAIRED then answer m r (not_paired now b)
    else if r =? BWP_OK then answer m r (on_ok m now b)
    else answer m r b.

Definition wb_rx (frame : list Z) (now : Z) (b : wb_t) : wb_t :=
  match bwp_parse frame with
  | (BWP_PARSE_OK, Some m) =>
      if negb (bool_decide (m_dst m = pod_mac b)) && negb (Z.testbit (nth 0 (m_dst m) 0) 0) then b
      else if m_type m =? BWP_HELLO then on_hello m now b
      else if negb (Z.testbit (m_type m) 7) || negb (seen b) || negb (bool_decide (m_src m = mac b)) then b
      else if m_seq m =? 0 then
        if m_type m =? Z.lor BWP_STATUS BWP_RESPONSE then
          let b := update_state (m_body m) now b in
          set_info (set_flags (default (flags (info b)) (bwp_get_u8 (m_body m) BWP_T_FLAGS)) (info b)) b
        else b
      else if bool_decide (req_state b = WB_REQ_PENDING) && (m_seq m =? req_seq b) && (m_type m =? Z.lor (req_type b) BWP_RESPONSE)
      then on_reply m frame now b
      else b
  | _ => b
  end.

(** ** Time *)

Definition wb_poll (now : Z) (b : wb_t) : wb_t :=
  let here := present b now in
  if bool_decide (req_state b = WB_REQ_PENDING) then
    if negb here then finish WB_REQ_TIMEOUT (set_reply (set_msg (str "no Wi-Fi bridge on the Ethernet port") (w_reply b)) b)
    else if elapsed now (req_sent b) (req_timeout b) then
      if req_tries b <? WB_TRIES then send_req now b
      else finish WB_REQ_TIMEOUT (set_reply (set_msg (str "no answer from the Wi-Fi bridge") (w_reply b)) b)
    else b
  else if negb (bool_decide (req_state b = WB_REQ_IDLE)) || negb here || negb (have_secret b) || negb (have_nonce b) then b
  else if negb (bridge_paired b) then
    if 0 <=? s32 (now - next_pair b)
    then start_req BWP_PAIR ([BWP_T_PUBKEY; 0; Z.of_nat BWP_PUBKEY_LEN] ++ pub b) 1000 true now {| b with next_pair := u32 (now + WB_PAIR_RETRY_MS) |}
    else b
  else if have_key b && (0 <=? s32 (now - next_status b))
  then start_req BWP_STATUS [] 1000 true now {| b with next_status := u32 (now + WB_STATUS_EVERY_MS) |}
  else b.

(** ** A caller's requests: the new state and 0, or the reason it was not started *)

Definition request (type : Z) (tlvs : list Z) (timeout_ms now : Z) (b : wb_t) : wb_t * Z :=
  if negb (present b now) then (b, -2)
  else if negb (have_secret b) || (bridge_paired b && negb (have_key b)) then (b, -3)
  else if negb (bool_decide (req_state b = WB_REQ_IDLE)) then (b, -1)
  else if negb (bridge_paired b) && negb (type =? BWP_STATUS) && negb (type =? BWP_SCAN) then (b, -1)
  else if bridge_paired b && negb (have_nonce b) then (b, -1)
  else (start_req type tlvs timeout_ms false now b, 0).

Definition wb_request (type : Z) (tlvs : list Z) (timeout_ms now : Z) (b : wb_t) : wb_t * Z :=
  if (WB_REQ_MAX <? length tlvs)%nat then (b, -3) else request type tlvs timeout_ms now b.
Definition wb_request_ext (type : Z) (tlvs : list Z) (timeout_ms now : Z) (b : wb_t) : wb_t * Z :=
  if (WB_BODY_MAX <? length tlvs)%nat then (b, -3) else request type tlvs timeout_ms now b.

Definition tlv (tag : Z) (v : list Z) : list Z := [tag; 0; Z.of_nat (length v)] ++ v.
Definition wb_request_set_wifi (ssid pass : cstr) (seal_nonce : list Z) (timeout_ms now : Z) (b : wb_t) : wb_t * Z :=
  if negb (bwp_ssid_valid ssid) || negb (bwp_passphrase_valid pass) then (b, -4)
  else if negb (present b now) then (b, -2)
  else if negb (bridge_paired b) || negb (have_key b) then (b, if have_secret b && negb (bridge_paired b) then -1 else -3)
  else
    let sealed := if (0 <? length pass)%nat then tlv BWP_T_ENC_PASSPHRASE (default [] (bwp_seal_passphrase (key b) seal_nonce pass)) else [] in
    wb_request BWP_SET_WIFI (tlv BWP_T_SSID ssid ++ sealed) timeout_ms now b.

Definition wb_request_state (b : wb_t) : wb_req_state_t := if req_internal b then WB_REQ_IDLE else req_state b.
Definition wb_request_release (b : wb_t) : wb_t :=
  if negb (req_internal b) && negb (bool_decide (req_state b = WB_REQ_PENDING)) then {| b with req_state := WB_REQ_IDLE |} else b.
Definition wb_get_info (now : Z) (b : wb_t) : wb_info_t :=
  let i := info b in
  {| i with i_present := present b now; i_mac := mac b; status_age_ms := if have_status i then u32 (now - status_at b) else 0 |}.
End bridge.

Definition wb_state_str (state : Z) : cstr :=
  nth (Z.to_nat state) (map str ["unconfigured"; "wait-pod"; "joining"; "connected"; "auth-failed"; "no-ap"]%string) (str "unknown").
Definition wb_result_str (r : Z) : cstr :=
  nth (Z.to_nat r) (map str ["ok"; "bad-request"; "unsupported"; "busy"; "storage"; "ota-not-started"; "ota-bad-offset"; "ota-verify"; "ota-too-large"; "internal";
    "ota-wrong-image"; "not-paired"; "auth"; "already-paired"]%string) (str "error").
