(* ===== verification/WifiBridgeTheorems.v ===== *)
(** * What the pod's bridge client guarantees *)

From S2P Require Import Prelude HmacSha Bwp BwpTheorems BridgeOta FwSign L2fwd Pairing BridgeControl BridgeTheorems WifiBridge.

(** ** The frame of a request *)

(** The counter of the next signed send. *)
Definition next_counter (b : wb_t) : Z := if req_signed b then u32 (counter b + 1) else counter b.

Lemma req_head_hdr b : length (mac b) = 6%nat -> length (pod_mac b) = 6%nat ->
  req_head b = hdr (mac b) (pod_mac b) (req_type b) (req_seq b) (u16 (Z.of_nat (length (req_body b)) + (if req_signed b then 26 else 0))).
Proof.
  intros Hm Hp. unfold req_head. pose proof (begin_spec 22 (mac b) (pod_mac b) (req_type b) (req_seq b) Hm Hp) as (_ & _ & Hb). cbn [Nat.min Nat.leb] in Hb. destruct Hb as [_ Hb].
  change (BWP_ETH_HDR_LEN + BWP_HDR_LEN)%nat with 22%nat. rewrite Hb. destruct (mac b) as [|? [|? [|? [|? [|? [|? [|]]]]]]]; try done. destruct (pod_mac b) as [|? [|? [|? [|? [|? [|? [|]]]]]]]; done.
Qed.

Definition request_fits (b : wb_t) (tlvs : list (Z * list Z)) : Prop :=
  length (mac b) = 6%nat /\ length (pod_mac b) = 6%nat /\ req_body b = enc tlvs /\ Forall tlv_ok tlvs /\ (length (req_body b) <= WB_BODY_MAX)%nat.

Lemma enc_auth t mc : length mc = 16%nat -> enc (t ++ [(BWP_T_AUTH, mc)]) = enc t ++ [BWP_T_AUTH; 0; 16] ++ mc.
Proof. intros L. rewrite enc_app, enc_one. unfold enc_tlv. cbn [fst snd]. by rewrite L. Qed.

Lemma padded_frame dst src type seq body rest trail (n : nat) : length dst = 6%nat -> length src = 6%nat ->
  body ++ trail = rest -> n = length rest ->
  padded (hdr dst src type seq (Z.of_nat n) ++ body ++ trail) = hdr dst src type seq (Z.of_nat (length rest)) ++ rest ++ replicate (38 - length rest) 0.
Proof.
  intros Hd Hs <- ->. unfold padded. rewrite <- !app_assoc. do 3 f_equal. rewrite !length_app, hdr_length by done. done.
Qed.

(** A signed request is the frame that [bwp_sign] makes. *)
Lemma send_is_sign b tlvs now : request_fits b tlvs -> req_signed b = true ->
  exists frame, sent (send_req now b) = sent b ++ [frame] /\
    bwp_finish (bwp_sign (puts (bwp_begin 1514 (mac b) (pod_mac b) (req_type b) (req_seq b)) tlvs) (key b) (nonce b) (next_counter b)) = Some frame.
Proof.
  intros (Hm & Hp & Hbody & Hok & Hlen) Hs. unfold next_counter. rewrite Hs. set (c := u32 (counter b + 1)).
  pose proof (puts_writing 1514 (mac b) (pod_mac b) (req_type b) (req_seq b) tlvs Hm Hp) as Hw. cbv zeta in Hw. rewrite bool_decide_eq_true_2 in Hw by (split; [done|rewrite <- Hbody; lia]).
  pose proof (sign_writing _ 1514 (mac b) (pod_mac b) (req_type b) (req_seq b) 0 tlvs (key b) (nonce b) c Hm Hp Hw) as Hg. cbv zeta in Hg.
  destruct (Nat.leb_spec (22 + length (enc tlvs) + 26) (Nat.min 1514 1514)) as [_|Hno]; [|rewrite <- Hbody in Hno; lia]. destruct Hg as [len' Hg].
  rewrite (finish_writing _ _ _ _ _ _ _ _ Hm Hp Hg). cbn [Nat.ltb Nat.leb]. eexists. split; [|reflexivity]. cbn [sent send_req]. f_equal. f_equal. rewrite Hs. fold c.
  set (t := tlvs ++ [(BWP_T_COUNTER, put_be32 c)]). assert (Et : enc t = enc tlvs ++ counter_tlv c) by (unfold t; by rewrite enc_app, enc_one).
  assert (Htot : u16 (Z.of_nat (length (req_body b)) + 26) = Z.of_nat (length (enc t) + 19)) by (rewrite u16_id by lia; rewrite Et, length_app, Hbody; change (length (counter_tlv c)) with 7%nat; lia).
  assert (Emac : take 16 (req_mac b (req_head b) (counter_tlv c)) = frame_mac (key b) (nonce b) (mac b) (pod_mac b) (req_type b) (req_seq b) t).
  { unfold frame_mac. rewrite auth_mac_spec. unfold req_mac. pose proof (hmac_of (key b) [nonce b; drop 14 (req_head b); req_body b; counter_tlv c]) as Hh. cbn [fold_left concat] in Hh.
    change BWP_ETH_HDR_LEN with 14%nat. rewrite Hh. f_equal. f_equal. f_equal. rewrite app_nil_r, req_head_hdr by done. rewrite Hs, Htot, Et, <- Hbody.
    rewrite drop_app_le by (rewrite hdr_length by done; lia). done. }
  assert (Lm : length (frame_mac (key b) (nonce b) (mac b) (pod_mac b) (req_type b) (req_seq b) t) = 16%nat) by apply auth_mac_length.
  change (Z.of_nat BWP_AUTH_LEN) with 16. change BWP_AUTH_LEN with 16%nat. rewrite Emac. unfold signed_tlvs. fold t.
  set (mc := frame_mac _ _ _ _ _ _ t) in *. clearbody mc. rewrite enc_auth by done. rewrite req_head_hdr by done. rewrite Hs, Htot.
  apply padded_frame; [done|done|rewrite Et, <- app_assoc, Hbody; done|]. rewrite !length_app, Lm. cbn [length]. lia.
Qed.

(** ... so a bridge with the same key and nonce takes it. *)
Lemma send_verifies b tlvs now : request_fits b tlvs -> req_signed b = true -> 0 <= req_seq b < 65536 -> no_tag BWP_T_AUTH tlvs -> no_tag BWP_T_COUNTER tlvs ->
  exists frame body, sent (send_req now b) = sent b ++ [frame] /\
    let m := Msg (mac b) (pod_mac b) BWP_VERSION (req_type b) (req_seq b) body in
    bwp_parse frame = (BWP_PARSE_OK, Some m) /\ bwp_verify frame m (key b) (nonce b) = (BWP_VERIFY_OK, Some (next_counter b)).
Proof.
  intros Hf Hs Hq Ha Hc. destruct (send_is_sign b tlvs now Hf Hs) as (frame & Es & E). destruct Hf as (Hm & Hp & _).
  assert (Hn : 0 <= next_counter b < 4294967296) by (unfold next_counter; rewrite Hs; apply u32_range).
  destruct (bwp_sign_verify 1514 _ _ _ _ tlvs _ _ _ frame Hm Hp Hq Hn Ha Hc E) as [P V]. by exists frame, (enc (signed_tlvs (key b) (nonce b) (mac b) (pod_mac b) (req_type b) (req_seq b) tlvs (next_counter b))).
Qed.

(** ** A pod that lost count *)

Lemma find_enc tlvs tag v rest : Forall tlv_ok tlvs -> no_tag tag tlvs -> tlv_ok (tag, v) -> bwp_find (enc (tlvs ++ (tag, v) :: rest)) tag = Some v.
Proof.
  intros Hok Hno Hv. unfold bwp_find. apply find_loop_enc; try done. rewrite enc_app, enc_cons, !length_app, enc_tlv_length. lia.
Qed.

(** The bridge's answer to an old counter. *)
Definition refusal_tlvs (p : bwp_pairing_t) : list (Z * list Z) :=
  [(BWP_T_RESULT, [BWP_E_AUTH]); (BWP_T_MESSAGE, why_text PAIR_REPLAY); (BWP_T_NONCE, p_nonce p); (BWP_T_COUNTER, put_be32 (last_counter p))].

Section resync.
Context {E : Type} `{EspOta E} `{Monocypher} `{MonocypherBox} (k_keys : list (list Z)) (derive_secret : list Z -> option (list Z)).

Lemma refuse_replay (st : ctl_t (E := E)) env m : s_sign st = false -> length (m_src m) = 6%nat -> length (c_mac env) = 6%nat -> 0 <= m_seq m < 65536 ->
  length (p_nonce (s_pair st)) = 8%nat ->
  exists r, refuse st env m PAIR_REPLAY = [r] /\
    bwp_parse r = (BWP_PARSE_OK, Some (Msg (m_src m) (c_mac env) BWP_VERSION (Z.lor (m_type m) BWP_RESPONSE) (m_seq m) (enc (refusal_tlvs (s_pair st))))).
Proof.
  intros Hs Hm Hc Hq Hn. unfold refuse, send. rewrite Hs. rewrite bool_decide_eq_true_2 by done.
  change (bwp_finish _) with (bwp_finish (puts (bwp_begin CAP (m_src m) (c_mac env) (Z.lor (m_type m) BWP_RESPONSE) (m_seq m)) (refusal_tlvs (s_pair st)))).
  pose proof (puts_writing CAP (m_src m) (c_mac env) (Z.lor (m_type m) BWP_RESPONSE) (m_seq m) (refusal_tlvs (s_pair st)) Hm Hc) as Hw. cbv zeta in Hw.
  assert (Hok : Forall tlv_ok (refusal_tlvs (s_pair st))) by (repeat constructor; unfold tlv_ok; cbn [snd]; try (rewrite Hn); done).
  assert (Hl : length (enc (refusal_tlvs (s_pair st))) = 47%nat).
  { unfold refusal_tlvs. rewrite !enc_cons, !length_app, !enc_tlv_length. cbn [snd]. rewrite Hn. done. }
  rewrite bool_decide_eq_true_2 in Hw by (split; [done|rewrite Hl; unfold CAP; lia]). rewrite (finish_writing _ _ _ _ _ _ _ _ Hm Hc Hw).
  replace (CAP <? 60)%nat with false by done. eexists. split; [done|]. apply parse_frame; try done. by rewrite Hl.
Qed.

Lemma rx_replay_refusal b r p now : req_state b = WB_REQ_PENDING -> seen b = true -> have_nonce b = true -> req_resynced b = false ->
  0 < req_seq b < 65536 -> 0 <= req_type b < 128 -> p_nonce p = nonce b -> length (nonce b) = 8%nat -> 0 <= last_counter p < 4294967296 ->
  bwp_parse r = (BWP_PARSE_OK, Some (Msg (pod_mac b) (mac b) BWP_VERSION (Z.lor (req_type b) BWP_RESPONSE) (req_seq b) (enc (refusal_tlvs p)))) ->
  wb_rx derive_secret r now b = resend true now {| b with counter := if counter b <=? last_counter p then last_counter p else counter b |}.
Proof.
  intros Hst Hs Hn Hr Hq Ht Hpn Hln Hlc Hp. unfold wb_rx. rewrite Hp. cbn [m_dst m_type m_seq m_src].
  assert (Hok : Forall tlv_ok (refusal_tlvs p)) by (repeat constructor; unfold tlv_ok; cbn [snd]; try (rewrite Hpn, Hln); done).
  assert (Hb7 : Z.testbit (Z.lor (req_type b) BWP_RESPONSE) 7 = true) by (rewrite Z.lor_spec; by apply orb_true_r).
  assert (Hne : (Z.lor (req_type b) BWP_RESPONSE =? BWP_HELLO) = false) by (apply Z.eqb_neq; intros E0; rewrite E0 in Hb7; done).
  rewrite Hne, Hb7, Hs, !bool_decide_eq_true_2, Hst by done. cbn [negb andb orb]. rewrite (proj2 (Z.eqb_neq (req_seq b) 0)) by lia.
  rewrite !Z.eqb_refl. cbn [andb]. unfold on_reply. cbn [m_body].
  assert (F : forall pre tag v rest, refusal_tlvs p = pre ++ (tag, v) :: rest -> no_tag tag pre -> bwp_find (enc (refusal_tlvs p)) tag = Some v).
  { intros pre tag v rest E0 Hno. rewrite E0. rewrite E0 in Hok. apply Forall_app in Hok as [? Hok]. inversion Hok. by apply find_enc. }
  assert (R : bwp_get_u8 (enc (refusal_tlvs p)) BWP_T_RESULT = Some BWP_E_AUTH) by (unfold bwp_get_u8; by rewrite (F [] BWP_T_RESULT [BWP_E_AUTH] _ eq_refl) by constructor).
  assert (N : bwp_find (enc (refusal_tlvs p)) BWP_T_NONCE = Some (nonce b)) by (rewrite (F (take 2 (refusal_tlvs p)) BWP_T_NONCE (p_nonce p) _ eq_refl) by (repeat constructor; done); by rewrite Hpn).
  assert (C : bwp_get_u32 (enc (refusal_tlvs p)) BWP_T_COUNTER = Some (last_counter p))
    by (unfold bwp_get_u32; rewrite (F (take 3 (refusal_tlvs p)) BWP_T_COUNTER _ [] eq_refl) by (repeat constructor; done); by rewrite get_put_be32).
  rewrite R. cbn [default]. change (is_refusal BWP_E_AUTH) with true. rewrite andb_false_r. cbn [andb]. rewrite Z.eqb_refl.
  unfold on_auth_refusal. cbn [m_body]. rewrite N, Hln, Hn, (bool_decide_eq_true_2 (nonce b = nonce b)) by reflexivity. cbn [Nat.eqb negb andb orb]. rewrite C, Hr. cbn [negb]. rewrite Hs, Hst. by generalize (resend true now).
Qed.

Lemma request_type t : 0 <= t < 128 -> negb (Z.land t BWP_RESPONSE =? 0) = false.
Proof.
  intros Ht. apply negb_false_iff, Z.eqb_eq, Z.bits_inj'. intros i Hi. rewrite Z.land_spec, Z.bits_0. destruct (Z.eqb_spec i 7) as [->|Hne].
  - rewrite (Z.bits_above_log2 t); [done|lia|]. destruct (Z.eqb_spec t 0) as [->|]; [done|]. apply Z.log2_lt_pow2; [lia|]. by destruct Ht.
  - replace (Z.testbit BWP_RESPONSE i) with (Z.testbit (2 ^ 7) i) by done. rewrite Z.pow2_bits_false by done. by rewrite andb_false_r.
Qed.

(** What the bridge does with a verified request, by its counter. *)
Lemma handle_verified (st : ctl_t (E := E)) env f m c :
  bwp_parse f = (BWP_PARSE_OK, Some m) -> bwp_verify f m (p_key (s_pair st)) (p_nonce (s_pair st)) = (BWP_VERIFY_OK, Some c) ->
  paired (s_pair st) = true -> 0 <= m_type m < 128 -> m_type m <> BWP_PAIR ->
  if c <=? last_counter (s_pair st) then handle k_keys st env f = ({| st with s_counter := c |}, refuse {| st with s_counter := c |} env m PAIR_REPLAY, [])
  else exists st2 out effs, handle k_keys st env f = (st2, out, EConfirm :: effs).
Proof.
  intros P V Hp Ht Hn. unfold handle. rewrite P, request_type by done. unfold pairing_check. rewrite Hp, V. cbn [default from_option id]. destruct (c <=? last_counter (s_pair st)) eqn:Ec; [by destruct st|].
  unfold pair_accept. rewrite (proj2 (Z.eqb_neq _ _) Hn). cbn [pc_verdict handled negb]. cbv zeta. destruct (carry_out _ _ _ _ _) as [[st2 out] effs]. by exists st2, out, effs.
Qed.

(** C28: a pod that lost count is heard again in one exchange. Take a pod whose
    pending signed request carries a counter the bridge has already seen (the pod
    rebooted and counts from 1 again) and a bridge with the same key and boot
    nonce. The bridge carries nothing out and answers one frame; on that frame the
    pod sends the request once more, still pending; and on that second frame the
    bridge carries the request out. *)
Theorem pod_resyncs b tlvs now now' (st : ctl_t (E := E)) env :
  request_fits b tlvs -> no_tag BWP_T_AUTH tlvs -> no_tag BWP_T_COUNTER tlvs ->
  req_state b = WB_REQ_PENDING -> req_signed b = true -> req_resynced b = false -> seen b = true -> have_nonce b = true ->
  0 < req_seq b < 65536 -> 0 <= req_type b < 128 -> req_type b <> BWP_PAIR -> length (nonce b) = 8%nat ->
  paired (s_pair st) = true -> p_key (s_pair st) = key b -> p_nonce (s_pair st) = nonce b -> s_sign st = false -> c_mac env = mac b ->
  next_counter b <= last_counter (s_pair st) < 4294967295 ->
  let b1 := send_req now b in
  exists f1 f2 r st1,
    sent b1 = sent b ++ [f1] /\ control_item k_keys st env (IT_FRAME f1) = (st1, [r], []) /\
    let b2 := wb_rx derive_secret r now' b1 in
    sent b2 = sent b1 ++ [f2] /\ req_state b2 = WB_REQ_PENDING /\
    exists st2 out effs, control_item k_keys st1 env (IT_FRAME f2) = (st2, out, EConfirm :: effs).
Proof.
  intros Hf Ha Hc Hst Hs Hr Hsn Hn Hq Ht Hnp Hln Hp Hk Hpn Hsg Hm Hlc b1. pose proof Hf as (Hlm & Hlp & _).
  destruct (send_verifies b tlvs now Hf Hs ltac:(lia) Ha Hc) as (f1 & body1 & E1 & P1 & V1).
  destruct (refuse_replay st env (Msg (mac b) (pod_mac b) BWP_VERSION (req_type b) (req_seq b) body1)) as (r & Er & Pr); try done; [by rewrite Hm|cbn; lia|by rewrite Hpn|].
  pose proof (handle_verified st env f1 _ _ P1 ltac:(rewrite Hk, Hpn; exact V1) Hp Ht Hnp) as H1v. rewrite (proj2 (Z.leb_le _ _)) in H1v by lia.
  set (b' := {| b1 with counter := if counter b1 <=? last_counter (s_pair st) then last_counter (s_pair st) else counter b1; req_resynced := true |}).
  assert (E2 : wb_rx derive_secret r now' b1 = send_req now' b').
  { rewrite (rx_replay_refusal b1 r (s_pair st) now'); try done. - unfold next_counter in Hlc. rewrite Hs in Hlc. pose proof (u32_range (counter b + 1)). lia. - rewrite Pr, Hm. done. }
  destruct (send_verifies b' tlvs now' Hf Hs ltac:(cbn; lia) Ha Hc) as (f2 & body2 & F2 & P2 & V2).
  assert (Hn2 : next_counter b' = last_counter (s_pair st) + 1).
  { unfold next_counter in *. rewrite Hs in Hlc. cbn [req_signed b' b1 send_req counter]. rewrite Hs. rewrite (proj2 (Z.leb_le _ _)) by lia. rewrite u32_id by (pose proof (u32_range (counter b + 1)); lia). done. }
  rewrite Hn2 in V2. set (st1 := {| st with s_counter := next_counter b |} : ctl_t (E := E)) in *.
  pose proof (handle_verified {| st1 with s_sign := false |} env f2 _ _ P2 ltac:(cbn [s_pair st1]; rewrite Hk, Hpn; exact V2) Hp Ht Hnp) as H2v.
  rewrite (proj2 (Z.leb_gt _ _)) in H2v by (cbn [s_pair st1]; lia). destruct H2v as (st2 & out & effs & H2v).
  exists f1, f2, r, {| st1 with s_sign := false |}. split; [done|]. split.
  { unfold control_item. rewrite H1v. unfold refuse, send in *. cbn [s_sign s_pair st1] in *. rewrite Hsg in *. by rewrite Er. }
  rewrite E2. split; [done|]. split; [done|]. exists {| st2 with s_sign := false |}, out, effs. unfold control_item. by rewrite H2v.
Qed.
End resync.

(** ** Runs of the client *)

Inductive wop := ORx (frame : list Z) (now : Z) | OPoll (now : Z) | OLink (up : bool) | ORequest (ext : bool) (type : Z) (tlvs : list Z) (timeout now : Z)
| OSetWifi (ssid pass nonce : list Z) (timeout now : Z) | ORelease.

(** What the requests depend on. *)
Definition rq (b : wb_t) := (sent b, req_state b, req_signed b, req_type b, req_tries b, req_resynced b, (pod_mac b, mac b)).
Definition pending (b : wb_t) : Prop := req_state b = WB_REQ_PENDING.
Definition unsigned_type (t : Z) : Prop := t = BWP_PAIR \/ t = BWP_STATUS \/ t = BWP_SCAN.

Section runs.
Context `{MonocypherBox} (derive_secret : list Z -> option (list Z)).

Definition wstep (b : wb_t) (o : wop) : wb_t :=
  match o with
  | ORx frame now => wb_rx derive_secret frame now b
  | OPoll now => wb_poll now b
  | OLink up => wb_set_link up b
  | ORequest false type tlvs t now => fst (wb_request type tlvs t now b)
  | ORequest true type tlvs t now => fst (wb_request_ext type tlvs t now b)
  | OSetWifi ssid pass n t now => fst (wb_request_set_wifi ssid pass n t now b)
  | ORelease => wb_request_release b
  end.
Definition wrun (b : wb_t) (ops : list wop) : wb_t := fold_left wstep ops b.

(** A step sends nothing, or sends the pending request again, or starts one. *)
Inductive shape (b : wb_t) : wb_t -> Prop :=
| shape_quiet b' : sent b' = sent b -> pod_mac b' = pod_mac b -> (mac b' = mac b \/ length (mac b') = 6%nat) -> (pending b' -> rq b' = rq b) -> shape b b'
| shape_again now b0 r : rq b0 = (sent b, WB_REQ_PENDING, req_signed b, req_type b, req_tries b, r, (pod_mac b, mac b)) -> pending b ->
    (req_tries b < WB_TRIES \/ req_resynced b = false /\ r = true) -> shape b (send_req now b0)
| shape_fresh now b0 t s : rq b0 = (sent b, WB_REQ_PENDING, s, t, 0, false, (pod_mac b, mac b)) -> ~ pending b -> (s = false -> unsigned_type t) -> shape b (send_req now b0).

Lemma quiet_rq b b' : rq b' = rq b -> shape b b'.
Proof. intros E. apply shape_quiet; [..|done]; unfold rq in E; [congruence|congruence|left; congruence]. Qed.

Lemma rq_learn p b : rq (learn_bridge_pub p b) = rq b.
Proof. unfold learn_bridge_pub. by destruct (_ || _). Qed.
Lemma rq_update body now b : rq (update_state body now b) = rq b.
Proof. unfold update_state. destruct (bwp_get_u8 _ _); [|done]. by destruct (negb _). Qed.
Lemma rq_nonce m now b : rq (hello_nonce m now b) = rq b.
Proof. unfold hello_nonce. destruct (bwp_find _ _); [|done]. destruct (_ =? _)%nat; [|done]. destruct (bool_decide _); [|done]. by destruct (have_nonce b). Qed.
Lemma rq_on_ok m now b : rq (on_ok m now b) = rq b.
Proof.
  unfold on_ok. destruct (_ =? BWP_PAIR).
  { destruct (bwp_find _ _) as [v|]; [|done]. destruct (_ =? _)%nat; [|done]. cbv zeta. exact (rq_learn v _). }
  by repeat (destruct (_ =? _); [done|]).
Qed.
Lemma rq_answer m r b b0 : rq b0 = rq b -> pending b -> shape b (answer m r b0).
Proof.
  intros E Hp. apply shape_quiet; [unfold rq in E; unfold answer; cbn..|]; [congruence|congruence|left; congruence|]. unfold answer, pending, finish. cbn [req_state req_internal set_reply]. by destruct (req_internal b0).
Qed.

Lemma parse_src frame m : bwp_parse frame = (BWP_PARSE_OK, Some m) -> length (m_src m) = 6%nat.
Proof.
  unfold bwp_parse. destruct (_ || _); [done|]. destruct (_ || _); [done|]. destruct (Nat.ltb_spec (length frame) (14 + 8)); [done|]. cbv zeta.
  destruct (negb (_ =? _)); [done|]. destruct (_ <? _); [done|]. destruct (bwp_tlv_valid _); [|done]. intros E. apply pair_equal_spec in E as [_ E]. simplify_eq. cbn [m_src].
  unfold sub. rewrite length_take, length_drop. lia.
Qed.

Lemma rq_hello m now b : rq (on_hello derive_secret m now b) = rq (if negb (seen b) || negb (bool_decide (m_src m = mac b)) then new_bridge derive_secret m now b else b).
Proof.
  unfold on_hello. match goal with |- context [if ?c then new_bridge ?d m now b else b] => set (b1 := if c then new_bridge d m now b else b) end. clearbody b1. set (b2 := update_state _ _ _). assert (E2 : rq b2 = rq b1) by (unfold b2; rewrite rq_update, rq_nonce; done).
  clearbody b2. cbv zeta. set (b3 := set_info _ b2). assert (E3 : rq b3 = rq b1) by (rewrite <- E2; done). clearbody b3.
  destruct (negb _); [by rewrite <- E3|]. destruct (bwp_find _ _) as [v|]; [|done]. destruct (_ =? _)%nat; [|done]. by rewrite rq_learn.
Qed.

Lemma new_bridge_quiet m now b : let b' := new_bridge derive_secret m now b in sent b' = sent b /\ pod_mac b' = pod_mac b /\ mac b' = m_src m /\ ~ pending b'.
Proof.
  unfold new_bridge, forget_bridge. cbv zeta. cbn [sent pod_mac mac]. unfold pending. cbn [req_state set_info set_reply finish].
  destruct (bool_decide (req_state b = WB_REQ_PENDING)) eqn:E; cbn [sent pod_mac mac req_state finish set_reply req_internal].
  - split_and!; try done. by destruct (req_internal b).
  - apply bool_decide_eq_false in E. done.
Qed.

Lemma hello_shape m now b : length (m_src m) = 6%nat -> shape b (on_hello derive_secret m now b).
Proof.
  intros Hl. pose proof (rq_hello m now b) as E. destruct (negb (seen b) || _); [|by apply quiet_rq].
  destruct (new_bridge_quiet m now b) as (H1 & H2 & H3 & H4). unfold rq in E. apply shape_quiet; [congruence..|right; congruence|].
  intros Hp. exfalso. apply H4. unfold pending in *. congruence.
Qed.

Lemma resend_shape r now b b1 : rq b1 = rq b -> pending b -> (req_tries b1 < WB_TRIES \/ req_resynced b1 = false /\ r = true) -> shape b (resend r now b1).
Proof.
  intros E Hp Hc. unfold resend. apply (shape_again _ _ _ r); [|done|].
  - unfold rq, pending in *. cbn [sent req_state req_signed req_type req_tries req_resynced pod_mac mac]. congruence.
  - unfold rq in E. replace (req_tries b) with (req_tries b1) by congruence. by replace (req_resynced b) with (req_resynced b1) by congruence.
Qed.

Lemma reply_shape m frame now b : pending b -> shape b (on_reply m frame now b).
Proof.
  intros Hp. unfold on_reply. set (r := default _ _). set (chk := req_signed b && _). destruct (chk && _); [by apply quiet_rq|].
  match goal with |- context [if chk then ?x else b] => set (b1 := if chk then x else b) end. assert (E1 : rq b1 = rq b) by (unfold b1; by destruct chk). clearbody b1.
  assert (A : forall b2, rq b2 = rq b1 -> shape b (answer m r b2)) by (intros b2 E2; apply rq_answer; [congruence|done]).
  destruct (r =? BWP_E_AUTH).
  { unfold on_auth_refusal. destruct (match bwp_find (m_body m) BWP_T_NONCE with Some _ => _ | None => _ end) as [v|].
    - cbn [req_tries req_resynced]. destruct ((req_tries b1 <? WB_TRIES) || negb (req_resynced b1)) eqn:Et; [|by apply A].
      apply resend_shape; [exact E1|done|]. apply orb_true_iff in Et. cbn [req_tries req_resynced].
      destruct (Z.ltb_spec (req_tries b1) WB_TRIES) as [|]; [by left|]. right. destruct Et as [|Et]; [done|]. split; [by apply negb_true_iff|by apply Z.leb_le].
    - destruct (bwp_get_u32 _ _) as [c|]; [|by apply A]. destruct (req_resynced b1) eqn:Er; cbn [negb]; [by apply A|].
      apply resend_shape; [rewrite <- E1; unfold rq; by rewrite Er|done|]. by right. }
  repeat (match goal with |- context [r =? ?x] => destruct (r =? x) end; [apply A; try done; apply rq_on_ok|]). by apply A.
Qed.

Lemma rx_shape frame now b : shape b (wb_rx derive_secret frame now b).
Proof.
  unfold wb_rx. destruct (bwp_parse frame) as [[] [m|]] eqn:P; try by apply quiet_rq. destruct (negb _ && _); [by apply quiet_rq|].
  destruct (_ =? BWP_HELLO); [apply hello_shape; by eapply parse_src|]. destruct (_ || _); [by apply quiet_rq|].
  destruct (m_seq m =? 0).
  - destruct (_ =? _); [|by apply quiet_rq]. apply quiet_rq. exact (rq_update _ now b).
  - destruct (bool_decide (req_state b = WB_REQ_PENDING)) eqn:Ep; cbn [andb]; [|by apply quiet_rq]. apply bool_decide_eq_true in Ep.
    destruct (_ && _); [by apply reply_shape|by apply quiet_rq].
Qed.

Lemma start_shape type tlvs t i now b b0 : rq b0 = rq b -> ~ pending b -> (bridge_paired b0 = false -> unsigned_type type) -> shape b (start_req type tlvs t i now b0).
Proof.
  intros E Hp Hu. unfold start_req. apply (shape_fresh _ _ _ type (bridge_paired b0)); [|done|done]. unfold rq in *. cbn. congruence.
Qed.

Lemma not_idle b : req_state b = WB_REQ_IDLE -> ~ pending b.
Proof. unfold pending. congruence. Qed.

Lemma finish_shape b r : shape b (finish WB_REQ_TIMEOUT (set_reply r b)).
Proof. apply shape_quiet; [done|done|by left|]. unfold pending, finish. cbn [req_state req_internal set_reply]. by destruct (req_internal b). Qed.

Lemma poll_shape now b : shape b (wb_poll now b).
Proof.
  unfold wb_poll. destruct (bool_decide (req_state b = WB_REQ_PENDING)) eqn:Ep.
  { apply bool_decide_eq_true in Ep. destruct (negb _); [apply finish_shape|]. destruct (elapsed _ _ _); [|by apply quiet_rq].
    destruct (Z.ltb_spec (req_tries b) WB_TRIES); [|apply finish_shape]. apply (shape_again _ _ _ (req_resynced b)); [unfold rq; by rewrite Ep|done|by left]. }
  destruct (bool_decide (req_state b = WB_REQ_IDLE)) eqn:Ei; cbn [negb orb]; [|by apply quiet_rq]. apply bool_decide_eq_true, not_idle in Ei.
  destruct (_ || _); [by apply quiet_rq|]. destruct (bridge_paired b) eqn:Eb; cbn [negb].
  - destruct (_ && _); [|by apply quiet_rq]. apply start_shape; [done|done|]. unfold bridge_paired in *. cbn [info]. congruence.
  - destruct (_ <=? _); [|by apply quiet_rq]. apply start_shape; [done|done|]. intros _. by left.
Qed.

Lemma request_shape type tlvs t now b : shape b (fst (request type tlvs t now b)).
Proof.
  unfold request. destruct (negb (present b now)); [by apply quiet_rq|]. destruct (_ || _); [by apply quiet_rq|].
  destruct (bool_decide (req_state b = WB_REQ_IDLE)) eqn:Ei; cbn [negb]; [|by apply quiet_rq]. apply bool_decide_eq_true, not_idle in Ei.
  destruct (negb (bridge_paired b) && _ && _) eqn:Eu; [by apply quiet_rq|]. destruct (bridge_paired b && _); [by apply quiet_rq|]. apply start_shape; [done|done|].
  intros Eb. rewrite Eb in Eu. cbn [negb andb] in Eu.
  unfold unsigned_type. destruct (Z.eqb_spec type BWP_STATUS), (Z.eqb_spec type BWP_SCAN); [by auto..|done].
Qed.

Lemma step_shape b o : shape b (wstep b o).
Proof.
  destruct o as [f now|now|up|[] type tlvs t now|ssid pass n t now|]; cbn [wstep].
  - apply rx_shape.
  - apply poll_shape.
  - by apply quiet_rq.
  - unfold wb_request_ext. destruct (_ <? _)%nat; [by apply quiet_rq|apply request_shape].
  - unfold wb_request. destruct (_ <? _)%nat; [by apply quiet_rq|apply request_shape].
  - unfold wb_request_set_wifi. destruct (_ || _); [by apply quiet_rq|]. destruct (negb _); [by apply quiet_rq|]. destruct (_ || _); [by apply quiet_rq|].
    unfold wb_request. destruct (_ <? _)%nat; [by apply quiet_rq|apply request_shape].
  - unfold wb_request_release. destruct (negb (req_internal b) && _) eqn:Ep; [|by apply quiet_rq]. apply andb_true_iff in Ep as [_ Ep].
    apply negb_true_iff, bool_decide_eq_false in Ep. apply shape_quiet; [done|done|by left|done].
Qed.

(** ** Every command is signed *)

(** A frame with the AUTH of a key, a nonce and a counter. *)
Definition signed_frame (k n : list Z) (c : Z) (f : list Z) : Prop :=
  exists head body, length head = 22%nat /\
    f = padded (head ++ body ++ counter_tlv c ++ [BWP_T_AUTH; 0; 16] ++ take 16 (hmac_spec k (n ++ drop 14 head ++ body ++ counter_tlv c))).

Definition frame_ok (b : wb_t) (f : list Z) : Prop := unsigned_type (nth 17 f 0) \/ signed_frame (key b) (nonce b) (counter b) f.

(** The addresses are six bytes, and a pending request is signed or needs no signature. *)
Definition client_ok (b : wb_t) : Prop :=
  length (mac b) = 6%nat /\ length (pod_mac b) = 6%nat /\ (pending b -> req_signed b = false -> unsigned_type (req_type b)).

Lemma send_frame_ok b now : client_ok b -> pending b -> exists f, sent (send_req now b) = sent b ++ [f] /\ frame_ok (send_req now b) f.
Proof.
  intros (Hm & Hp & Hu) Hpd. eexists. split; [reflexivity|]. unfold frame_ok. cbn [send_req key nonce counter]. pose proof (req_head_hdr b Hm Hp) as Eh. destruct (req_signed b) eqn:Es.
  - right. exists (req_head b), (req_body b). split; [rewrite Eh; by apply hdr_length|]. f_equal. f_equal. f_equal. f_equal. f_equal. unfold req_mac.
    pose proof (hmac_of (key b) [nonce b; drop 14 (req_head b); req_body b; counter_tlv (u32 (counter b + 1))]) as Hh. cbn [fold_left concat] in Hh. rewrite app_nil_r in Hh.
    change BWP_ETH_HDR_LEN with 14%nat. by rewrite Hh.
  - left. rewrite Eh. replace (nth 17 _ 0) with (req_type b); [by apply Hu|]. unfold padded. rewrite <- app_assoc. by (six (mac b); six (pod_mac b)).
Qed.

Lemma shape_ok b b' : client_ok b -> shape b b' -> client_ok b' /\ (sent b' = sent b \/ exists f, sent b' = sent b ++ [f] /\ frame_ok b' f).
Proof.
  intros Hok Hs. pose proof Hok as (Hm & Hp & Hu). destruct Hs as [b' E1 E2 E3 E4|now b0 r E Hpd _|now b0 t s E Hpd Ht].
  - split; [|by left]. split_and!; [by destruct E3 as [->|]|by rewrite E2|]. intros Hp'. pose proof (E4 Hp') as E. unfold rq, pending in *.
    intros Hn. replace (req_type b') with (req_type b) by congruence. apply Hu; congruence.
  - assert (Hok0 : client_ok b0 /\ pending b0 /\ sent b0 = sent b).
    { unfold rq, client_ok, pending in *. split; [|split; congruence]. split_and!; [congruence..|]. intros _ Hn. replace (req_type b0) with (req_type b) by congruence. apply Hu; congruence. }
    destruct Hok0 as (Hok0 & Hp0 & <-). split; [|right; by apply send_frame_ok]. exact Hok0.
  - assert (Hok0 : client_ok b0 /\ pending b0 /\ sent b0 = sent b).
    { unfold rq, client_ok, pending in *. split; [|split; congruence]. split_and!; [congruence..|]. intros _ Hn. replace (req_type b0) with t by congruence. apply Ht; congruence. }
    destruct Hok0 as (Hok0 & Hp0 & <-). split; [|right; by apply send_frame_ok]. exact Hok0.
Qed.

Lemma client_run_ok b ops : client_ok b -> client_ok (wrun b ops).
Proof. revert b. induction ops as [|o ops IH]; intros b Hb; [done|]. apply IH. by apply (shape_ok b _ Hb (step_shape b o)). Qed.

(** C29: the pod never sends an unsigned command. Start from [wb_init] and let any
    frames arrive, time pass, the link go up and down and the rest of the firmware
    make any requests. Each step sends at most one frame, and a frame that is not
    a PAIR, STATUS or SCAN request ends with the COUNTER the pod has just counted
    up to and an AUTH that is the truncated HMAC, under the pod's key and the
    bridge's current nonce, of everything before it from the protocol header on. *)
Theorem commands_signed m ops o : length m = 6%nat ->
  let b := wrun (wb_init m) ops in let b' := wstep b o in
  sent b' = sent b \/ exists f, sent b' = sent b ++ [f] /\ frame_ok b' f.
Proof.
  intros Hm b b'. assert (Hi : client_ok (wb_init m)) by (split_and!; [done|done|by unfold pending]).
  apply (shape_ok b b' (client_run_ok _ ops Hi) (step_shape b o)).
Qed.

(** ** Every request ends *)

(** At most four frames per request: the fourth answers a refusal. *)
Definition tries_ok (b : wb_t) : Prop := 0 < req_tries b <= 3 \/ req_tries b = 4 /\ req_resynced b = true.

(** A poll that finds the time up or the bridge gone. *)
Definition late (b : wb_t) (o : wop) : bool :=
  match o with OPoll now => negb (present b now) || elapsed now (req_sent b) (req_timeout b) | _ => false end.

(** The late polls of a run through which the request stays pending. *)
Fixpoint lates (b : wb_t) (ops : list wop) : nat :=
  match ops with [] => 0 | o :: ops => (if late b o then 1 else 0) + lates (wstep b o) ops end%nat.
Fixpoint stays_pending (b : wb_t) (ops : list wop) : Prop :=
  pending b /\ match ops with [] => True | o :: ops => stays_pending (wstep b o) ops end.

Lemma late_sends b o : pending b -> late b o = true -> pending (wstep b o) -> exists now, wstep b o = send_req now b.
Proof.
  intros Hp. destruct o as [|now| | | |]; try done. cbn [late wstep]. unfold wb_poll. rewrite bool_decide_eq_true_2 by done. intros Hl.
  assert (Hf : forall r, ~ pending (finish WB_REQ_TIMEOUT (set_reply r b))) by (intros r; unfold pending, finish; cbn; by destruct (req_internal b)).
  destruct (negb _); [intros Hx; by apply Hf in Hx|]. cbn [orb] in Hl. rewrite Hl. destruct (_ <? _); [by exists now|]. intros Hx; by apply Hf in Hx.
Qed.

Lemma pending_step b o : pending b -> tries_ok b -> pending (wstep b o) ->
  tries_ok (wstep b o) /\ (length (sent (wstep b o)) + Z.to_nat (4 - req_tries (wstep b o)) = length (sent b) + Z.to_nat (4 - req_tries b))%nat /\
  ((if late b o then 1 else 0) + length (sent b) <= length (sent (wstep b o)))%nat.
Proof.
  intros Hp Ht Hp'. pose proof (late_sends b o Hp) as Hl. pose proof (step_shape b o) as Hs. revert Hp' Hl. destruct Hs as [b' E1 _ _ E4|now b0 r E _ Hc|now b0 t s _ Hn _]; intros Hp' Hl; [| |done].
  - pose proof (E4 Hp') as E. unfold rq in E. unfold tries_ok. replace (req_tries b') with (req_tries b) by congruence. replace (req_resynced b') with (req_resynced b) by congruence.
    rewrite E1. split_and!; try done. destruct (late b o); [|lia]. destruct (Hl eq_refl Hp') as [now ->]. exfalso. apply (f_equal length) in E1. revert E1. cbn [send_req sent]. rewrite length_app. cbn. lia.
  - unfold rq in E. assert (Es : sent b0 = sent b) by congruence. assert (Et : req_tries b0 = req_tries b) by congruence. assert (Er : req_resynced b0 = r) by congruence.
    cbn [send_req sent]. unfold tries_ok. cbn [req_tries send_req req_resynced]. rewrite Es, Et, Er, length_app. cbn [length].
    assert (H3 : 0 < req_tries b <= 3) by (destruct Ht as [|[Ht Hr]]; [done|]; destruct Hc as [|[Hc _]]; [lia|congruence]).
    rewrite u8_id by lia. split_and!; [|lia|destruct (late b o); lia]. destruct Hc as [|[_ ->]]; [left; lia|]. destruct (Z.eqb_spec (req_tries b) 3); [right; split; [lia|done]|left; lia].
Qed.

Lemma run_tries m ops : let b := wrun (wb_init m) ops in pending b -> tries_ok b.
Proof.
  cbv zeta. assert (G : forall b, (pending b -> tries_ok b) -> pending (wrun b ops) -> tries_ok (wrun b ops)); [|by apply G].
  induction ops as [|o ops IH]; intros b Hb; [done|]. apply IH. intros Hp'. destruct (decide (pending b)) as [Hp|Hn].
  - by apply (pending_step b o Hp (Hb Hp) Hp').
  - revert Hp'. destruct (step_shape b o) as [b' _ _ _ E|now b0 r _ Hp _|now b0 t s E _ _]; [|done|].
    + intros Hp'. exfalso. apply Hn. specialize (E Hp'). unfold rq, pending in *. congruence.
    + intros _. left. cbn [send_req req_tries]. unfold rq in E. replace (req_tries b0) with 0 by congruence. done.
Qed.

(** Every request ends. From any state the client reaches in which a request
    is pending, and for as long as it stays pending, whatever arrives and whatever
    else is tried, at most three more frames are sent for it (four in all with the
    first), and no more than three polls that find its time up or the bridge gone
    can pass without ending it. *)
Theorem request_bounded m ops0 ops : let b := wrun (wb_init m) ops0 in stays_pending b ops ->
  (length (sent (wrun b ops)) <= length (sent b) + 3)%nat /\ (lates b ops <= 3)%nat.
Proof.
  intros b Hs. assert (Ht : tries_ok b) by (apply run_tries; destruct ops; apply Hs). clearbody b.
  assert (K : (length (sent (wrun b ops)) + Z.to_nat (4 - req_tries (wrun b ops)) = length (sent b) + Z.to_nat (4 - req_tries b))%nat /\
    (lates b ops + length (sent b) <= length (sent (wrun b ops)))%nat).
  { revert b Ht Hs. induction ops as [|o ops IH]; intros b Ht [Hp Hs]; [cbn; lia|]. assert (Hp' : pending (wstep b o)) by (destruct ops; apply Hs).
    destruct (pending_step b o Hp Ht Hp') as (H1 & H2 & H3). destruct (IH _ H1 Hs) as [I1 I2]. cbn [lates wrun fold_left] in *. unfold wrun in *. lia. }
  assert (0 < req_tries b) by (destruct Ht as [|[]]; lia). lia.
Qed.

(** ** Whose answers count *)

(** The frame answers the request of the state, signed with its key and counter. *)
Definition answers (b : wb_t) (frame : list Z) : Prop :=
  exists m, bwp_parse frame = (BWP_PARSE_OK, Some m) /\ m_src m = mac b /\ m_seq m = req_seq b /\ m_type m = Z.lor (req_type b) BWP_RESPONSE /\
    bwp_verify frame m (key b) (nonce b) = (BWP_VERIFY_OK, Some (req_counter b)).

Lemma learn_info p b : info (learn_bridge_pub p b) = info b.
Proof. unfold learn_bridge_pub. by destruct (_ || _). Qed.

Lemma on_reply_answers m frame now b : req_signed b = true -> bwp_parse frame = (BWP_PARSE_OK, Some m) -> m_src m = mac b -> m_seq m = req_seq b ->
  m_type m = Z.lor (req_type b) BWP_RESPONSE -> pending b ->
  answers b frame \/ on_reply m frame now b = b \/
  is_refusal (default BWP_E_INTERNAL (bwp_get_u8 (m_body m) BWP_T_RESULT)) = true.
Proof.
  intros Hs P H1 H2 H3 Hp. unfold on_reply. rewrite Hs. cbn [andb]. destruct (is_refusal _) eqn:Er; [by right; right|]. cbn [negb andb].
  destruct (reply_verified m frame b) eqn:Ev; [|by right; left]. left. exists m. split_and!; try done.
  unfold reply_verified in Ev. destruct (bwp_verify frame m (key b) (nonce b)) as [[] [c|]]; try done. apply Z.eqb_eq in Ev as ->. done.
Qed.

(** What the pod tells its user it knows from the bridge. *)
Definition knows (b : wb_t) : bool * bool := (i_paired (info b), have_status (info b)).
Definition no_more (b b' : wb_t) : Prop :=
  (i_paired (info b') = true -> i_paired (info b) = true) /\ (have_status (info b') = true -> have_status (info b) = true).

Lemma knows_eq b b' : knows b' = knows b -> no_more b b'.
Proof. unfold knows. intros E. apply pair_equal_spec in E as [E1 E2]. unfold no_more. by rewrite E1, E2. Qed.
#[local] Instance no_more_preorder : PreOrder no_more.
Proof. split; [by intros b|]. intros b1 b2 b3 [] []. split; auto. Qed.

Lemma knows_update body now b : knows (update_state body now b) = knows b.
Proof. unfold update_state. destruct (bwp_get_u8 _ _); [|done]. by destruct (negb _). Qed.
Lemma knows_nonce m now b : knows (hello_nonce m now b) = knows b.
Proof. unfold hello_nonce. destruct (bwp_find _ _); [|done]. destruct (_ =? _)%nat; [|done]. destruct (bool_decide _); [|done]. by destruct (have_nonce b). Qed.

Lemma hello_no_more m now b : no_more b (on_hello derive_secret m now b).
Proof.
  unfold on_hello. match goal with |- context [if ?c then new_bridge ?d m now b else b] => set (b1 := if c then new_bridge d m now b else b); assert (N1 : no_more b b1) by (unfold b1; by destruct c) end.
  clearbody b1. set (b2 := update_state _ _ _). assert (N2 : no_more b b2) by (rewrite N1; apply knows_eq; unfold b2; by rewrite knows_update, knows_nonce).
  clearbody b2. cbv zeta. set (b3 := set_info _ b2). assert (N3 : no_more b b3) by (rewrite N2; by apply knows_eq). clearbody b3.
  destruct (negb _); [rewrite N3; by split|]. destruct (bwp_find _ _) as [v|]; [|done]. destruct (_ =? _)%nat; [|done]. rewrite N3. apply knows_eq. unfold knows. by rewrite learn_info.
Qed.

Lemma hello_not_done m now b : pending b -> req_state (on_hello derive_secret m now b) <> WB_REQ_DONE.
Proof.
  intros Hp. pose proof (rq_hello m now b) as E. unfold rq in E. assert (Es : req_state (on_hello derive_secret m now b) = _) by (injection E; intros; eassumption). rewrite Es. clear E Es.
  destruct (_ || _); [|by rewrite Hp]. unfold new_bridge, forget_bridge. cbv zeta. rewrite bool_decide_eq_true_2 by done. cbn. by destruct (req_internal b).
Qed.

Lemma refusal_reply m frame now b : is_refusal (default BWP_E_INTERNAL (bwp_get_u8 (m_body m) BWP_T_RESULT)) = true -> pending b ->
  let b' := on_reply m frame now b in no_more b b' /\ (req_state b' = WB_REQ_DONE -> is_refusal (result (w_reply b')) = true).
Proof.
  intros Hr Hp. unfold on_reply. set (r := default _ _) in *. rewrite Hr, andb_false_r. cbn [negb andb].
  assert (A : forall b0, no_more b b0 -> let b' := answer m r b0 in no_more b b' /\ (req_state b' = WB_REQ_DONE -> is_refusal (result (w_reply b')) = true)).
  { intros b0 H0. cbv zeta. split; [by rewrite H0|]. intros _. unfold answer. cbv zeta. cbn [finish set_reply w_reply]. repeat (destruct (_ || _)); try done. destruct (_ =? _); done. }
  assert (R : forall z b0, no_more b b0 -> req_state b0 <> WB_REQ_DONE -> let b' := resend z now b0 in no_more b b' /\ (req_state b' = WB_REQ_DONE -> is_refusal (result (w_reply b')) = true)) by (intros; by split).
  assert (Hn : forall why, no_more b (set_info (set_paired false why (info b)) b)) by (by split).
  assert (Hd : req_state b <> WB_REQ_DONE) by (by rewrite Hp).
  destruct (r =? BWP_E_AUTH) eqn:E1.
  { unfold on_auth_refusal. destruct (match bwp_find (m_body m) BWP_T_NONCE with Some _ => _ | None => _ end) as [v|].
    - cbv zeta. destruct (_ || _); [by apply R|by apply A].
    - destruct (bwp_get_u32 _ _) as [c|]; [|by apply A]. destruct (negb _); [by apply R|by apply A]. }
  destruct (r =? BWP_E_ALREADY_PAIRED) eqn:E2; [by apply A|]. destruct (r =? BWP_E_NOT_PAIRED) eqn:E3; [by apply A|].
  exfalso. unfold is_refusal in Hr. by rewrite E1, E2, E3 in Hr.
Qed.

(** C27: only the paired bridge can answer a signed request. While a signed request
    is pending, one frame from the network completes it with a result that is not
    a refusal, or makes the pod report the bridge as paired or its Wi-Fi status as
    known, only if it comes from the bridge's address with the request's number and
    type and an AUTH that [bwp_verify] accepts under the pairing key and the boot
    nonce, with the COUNTER of that very request. *)
Theorem answer_authentic b frame now : pending b -> req_signed b = true ->
  let b' := wb_rx derive_secret frame now b in
  ~ answers b frame -> no_more b b' /\ (req_state b' = WB_REQ_DONE -> is_refusal (result (w_reply b')) = true).
Proof.
  intros Hp Hs b' Ha. assert (Same : forall b0, knows b0 = knows b -> req_state b0 = req_state b -> no_more b b0 /\ (req_state b0 = WB_REQ_DONE -> is_refusal (result (w_reply b0)) = true)).
  { intros b0 K E. split; [by apply knows_eq|]. rewrite E, Hp. done. }
  unfold b', wb_rx. destruct (bwp_parse frame) as [[] [m|]] eqn:P; try by apply Same. destruct (negb _ && _); [by apply Same|].
  destruct (_ =? BWP_HELLO). { split; [apply hello_no_more|]. intros Hd. exfalso. revert Hd. by apply hello_not_done. }
  destruct (negb _ || _ || negb (bool_decide (m_src m = mac b))) eqn:Ec; [by apply Same|]. apply orb_false_iff in Ec as [_ Ec]. apply negb_false_iff, bool_decide_eq_true in Ec.
  destruct (m_seq m =? 0).
  - destruct (_ =? _); [|by apply Same]. apply Same; [exact (knows_update (m_body m) now b)|]. pose proof (rq_update (m_body m) now b) as E. unfold rq in E. cbn [set_info req_state]. congruence.
  - destruct (bool_decide (req_state b = WB_REQ_PENDING) && (m_seq m =? req_seq b) && (m_type m =? _)) eqn:Eq; [|by apply Same].
    apply andb_true_iff in Eq as [Eq Et]. apply andb_true_iff in Eq as [_ Eq]. apply Z.eqb_eq in Eq, Et.
    destruct (on_reply_answers m frame now b Hs P Ec Eq Et Hp) as [Hx|[->|Hr]]; [done|by apply Same|by apply refusal_reply].
Qed.
End runs.

(** ** A pod and a bridge that pair *)

Module ToyPod.
#[local] Existing Instances ToyBridge.flash ToyBridge.sigs.
(** A toy key agreement that is symmetric: public keys are the secrets. *)
#[export] Instance box : MonocypherBox := {|
  crypto_x25519_public_key := fun s => s;
  crypto_x25519 := fun s p => zip_with Z.lxor s p;
  crypto_blake2b_keyed := fun k m => k;
  crypto_chacha20_x := fun t _ _ => t;
|}.
Definition derive_secret (_ : list Z) : option (list Z) := Some (replicate 32 9).
Definition bmac : list Z := replicate 6 2.
Definition env (flags : Z) : ctl_env :=
  CtlEnv 1000 bmac (Status 3 flags (str "lab") 6 200 (replicate 6 1) 0 60 bmac (replicate 7 0))
    (Hello (str "1.0") (str "A") 3 flags bmac (replicate 6 4) [] []) false true (replicate 32 3) true (0, []) true true true true.
Definition bridge0 : ctl_t (E := list Z) := control_start (replicate 8 5) None (l2fwd_init bmac) (bota_init []).
Definition pod0 : wb_t := wb_set_link true (wb_init (replicate 6 4)).

(** The pod's last frame through the bridge's task, and its answer back. *)
Definition exchange (now flags : Z) (s : wb_t * ctl_t (E := list Z)) : wb_t * ctl_t :=
  let '(b, st) := s in
  let '(st, out, _) := control_item ToyBridge.keys st (env flags) (IT_FRAME (default [] (last (sent b)))) in
  (fold_left (fun b f => wb_rx derive_secret f now b) out b, st).
Definition hello (now flags : Z) (s : wb_t * ctl_t (E := list Z)) : wb_t * ctl_t :=
  let '(b, st) := s in (fold_left (fun b f => wb_rx derive_secret f now b) (send_hello st (env flags)) b, st).
Definition poll (now : Z) (s : wb_t * ctl_t (E := list Z)) : wb_t * ctl_t := (wb_poll now (fst s), snd s).

Definition paired_at : wb_t * ctl_t := exchange 1003 0 (poll 1002 (hello 1001 0 (pod0, bridge0))).
Definition asked : wb_t * ctl_t := poll 1004 paired_at.
Definition known : wb_t * ctl_t := exchange 1005 0x20 asked.

Example story :
  length (sent (fst known)) = 2%nat /\ have_key (fst paired_at) = true /\ key (fst paired_at) = p_key (s_pair (snd paired_at)) /\
  req_signed (fst asked) = true /\ knows (fst asked) = (true, false) /\ knows (fst known) = (true, true) /\ i_ssid (info (fst known)) = str "lab".
Proof. vm_compute. done. Qed.

(** The same pod, and a bridge that has already seen seven requests. *)
Definition ahead : ctl_t (E := list Z) :=
  let st := snd known in {| st with s_pair := Pairing true (p_key (s_pair st)) (p_nonce (s_pair st)) 7 |}.

Lemma asked_fits : request_fits (fst asked) [] /\ pending (fst asked).
Proof. split; [|by vm_compute]. split_and!; [by vm_compute|by vm_compute|by vm_compute|constructor|vm_compute; lia]. Qed.

Lemma ahead_facts : let b := fst asked in let p := s_pair ahead in
  req_signed b = true /\ req_resynced b = false /\ seen b = true /\ have_nonce b = true /\ 0 < req_seq b < 65536 /\ 0 <= req_type b < 128 /\ req_type b <> BWP_PAIR /\
  length (nonce b) = 8%nat /\ paired p = true /\ p_key p = key b /\ p_nonce p = nonce b /\ s_sign ahead = false /\ c_mac (env 0x20) = mac b /\
  next_counter b <= last_counter p < 4294967295.
Proof. vm_compute. split_and!; done. Qed.

Lemma pod_resyncs_witness :
  let b1 := send_req 1010 (fst asked) in
  exists f1 f2 r st1, sent b1 = sent (fst asked) ++ [f1] /\ control_item ToyBridge.keys ahead (env 0x20) (IT_FRAME f1) = (st1, [r], []) /\
    let b2 := wb_rx derive_secret r 1011 b1 in
    sent b2 = sent b1 ++ [f2] /\ req_state b2 = WB_REQ_PENDING /\
    exists st2 out effs, control_item ToyBridge.keys st1 (env 0x20) (IT_FRAME f2) = (st2, out, EConfirm :: effs).
Proof. destruct asked_fits as [Hf Hp]. destruct ahead_facts as (?&?&?&?&?&?&?&?&?&?&?&?&?&?). apply (pod_resyncs ToyBridge.keys derive_secret (fst asked) [] 1010 1011 ahead (env 0x20)); first [exact Hf|exact Hp|eassumption|constructor]. Defined.

Lemma commands_signed_witness :
  let b := wrun derive_secret (wb_init (replicate 6 4)) [OLink true] in let b' := wstep derive_secret b (OPoll 5) in
  sent b' = sent b \/ exists f, sent b' = sent b ++ [f] /\ frame_ok b' f.
Proof. apply (commands_signed derive_secret (replicate 6 4) [OLink true] (OPoll 5)). reflexivity. Defined.

(** A request that gets no answers: three more polls and nothing else is sent. *)
Definition hello_frame : list Z := Eval vm_compute in default [] (head (send_hello bridge0 (env 0))).
Definition story_ops : list wop := [OLink true; ORx hello_frame 1001; OPoll 1002].
Definition silence : list wop := [OPoll 2500; ORx hello_frame 3000; OPoll 4000].

Lemma silence_pending : stays_pending derive_secret (wrun derive_secret (wb_init (replicate 6 4)) story_ops) silence.
Proof. vm_compute. done. Qed.

Lemma request_bounded_witness : let b := wrun derive_secret (wb_init (replicate 6 4)) story_ops in
  (length (sent (wrun derive_secret b silence)) <= length (sent b) + 3)%nat /\ (lates derive_secret b silence <= 3)%nat.
Proof. apply (request_bounded derive_secret (replicate 6 4) story_ops silence silence_pending). Defined.

Example silence_ends : lates derive_secret (wrun derive_secret (wb_init (replicate 6 4)) story_ops) silence = 2%nat /\
  req_state (wrun derive_secret (wb_init (replicate 6 4)) (story_ops ++ silence ++ [OPoll 6000])) = WB_REQ_IDLE.
Proof. vm_compute. done. Qed.

(** A forged answer: the bridge's own frame with another counter's MAC. *)
Definition forged : list Z := Eval vm_compute in
  default [] (bwp_finish (bwp_sign (puts (bwp_begin 200 (replicate 6 4) bmac 0x82 (req_seq (fst asked))) [(BWP_T_RESULT, [0])]) (key (fst asked)) (nonce (fst asked)) 9)).

Lemma forged_no_answer : ~ answers (fst asked) forged.
Proof. intros (m & P & _ & _ & _ & V). vm_compute in P. injection P as <-. vm_compute in V. discriminate. Qed.

Lemma answer_authentic_witness :
  let b' := wb_rx derive_secret forged 1006 (fst asked) in
  no_more (fst asked) b' /\ (req_state b' = WB_REQ_DONE -> is_refusal (result (w_reply b')) = true).
Proof. apply (answer_authentic derive_secret (fst asked) forged 1006); [apply asked_fits|vm_compute; reflexivity|exact forged_no_answer]. Defined.
End ToyPod.
