(* ===== verification/TlsLayer.v ===== *)
(** * The TLS layer over TCP ([altcp_tls_mbedtls_bp.c]), from the handshake on

    mbedTLS is the class [Ssl]: a call of it is a tree of the transport calls it makes
    before it returns. What lwIP and the application answer is the record [world], by
    the length of the trace so far. *)

From S2P Require Import Prelude.

Abbreviation ERR_OK := 0.
Abbreviation ERR_MEM := (-1).
Abbreviation ERR_VAL := (-6).
Abbreviation ERR_ABRT := (-13).
Abbreviation ERR_CLSD := (-15).
Abbreviation ERR_ARG := (-16).
Abbreviation WANT_READ := (-0x6900).
Abbreviation WANT_WRITE := (-0x6880).
Abbreviation CLIENT_RECONNECT := (-0x6780).
Abbreviation SEND_FAILED := (-0x4E).
Abbreviation PBUF_POOL_BUFSIZE := 1536%nat.

(** ** mbedTLS *)

Inductive ssl_call (C : Type) :=
| Recv (len : nat) (k : Z -> list Z -> ssl_call C)
| Send (data : list Z) (k : Z -> ssl_call C)
| Ret (s : C) (ret : Z) (out : list Z).
Arguments Recv {C}. Arguments Send {C}. Arguments Ret {C}.

Class Ssl (C : Type) := {
  mbedtls_ssl_handshake : C -> ssl_call C;
  mbedtls_ssl_read : C -> nat -> ssl_call C;
  mbedtls_ssl_write : C -> list Z -> ssl_call C;
  mbedtls_ssl_flush_output : C -> ssl_call C;
  mbedtls_ssl_get_bytes_avail : C -> Z;
  mbedtls_ssl_get_record_expansion : C -> Z;
  mbedtls_ssl_get_max_frag_len : C -> Z;
  out_left : C -> Z;
}.

(** ** What the layer did *)

Inductive tev :=
| TRaw (n : Z)                          (* bytes mbedTLS took from the pbufs *)
| TRead (ret : Z) (out : list Z)        (* what [mbedtls_ssl_read] returned *)
| TRecved (n : Z)                       (* [altcp_recved] below: the window given back *)
| TWrite (data : list Z) (err : Z)      (* [altcp_write] below *)
| TOutput
| TAcked (n : Z)                        (* the [sent] callback from below *)
| TApp (data : option (list Z)) (took : bool)   (* the application's [recv] callback *)
| TSent (n : Z) | TPolled | TConnected (err : Z) | TErr (err : Z)
| TAppWrote (n : Z)                     (* application data accepted for sending *)
| TClose (err : Z) | TAbort.

(** What the application does in its [recv] callback. *)
Inductive app_act := ARecved (len : Z) | AWrite (data : list Z).
Inductive app_answer :=
| Took (acts : list app_act) | Refused (acts : list app_act) (err : Z)
| Closed (acts : list app_act)          (* [altcp_close], then ERR_OK *)
| Aborted (acts : list app_act).        (* [altcp_abort], then ERR_ABRT *)

Record world := World {
  w_pbuf : nat -> bool; w_write : nat -> list Z -> Z; w_close : nat -> Z; w_app : nat -> option (list Z) -> app_answer;
  w_connected : nat -> Z; w_sndbuf : nat -> Z;
}.

(** The most [altcp_write] takes at once. *)
Definition CHUNK : nat := Z.to_nat 0xFFFF.

Section layer.
Context {C : Type} `{Ssl C} (w : world) (fuel : nat).

(** [altcp_mbedtls_state_t] and the connection; [alive] until it is freed. *)
Record tls_t := Tls {
  ssl : C; rx : list (list Z); rx_app : option (list Z);
  handshake_done : bool; upper_called : bool; rx_close_queued : bool; rx_closed : bool;
  rx_passed_unrecved : Z; bio_bytes_read : Z; bio_bytes_appl : Z; overhead_bytes_adjust : Z; bp_loaned : Z; bp_debt : Z;
  alive : bool; tr : list tev;
}.

Definition altcp_mbedtls_setup (s : C) : tls_t := Tls s [] None false false false false 0 0 0 0 0 0 true [].

Definition log (e : tev) (t : tls_t) : tls_t := {| t with tr := tr t ++ [e] |}.
Definition now (t : tls_t) : nat := length (tr t).

(** [altcp_recved] takes a 16-bit count. *)
Fixpoint recved_loop (fuel : nat) (n : Z) (t : tls_t) : tls_t :=
  match fuel with
  | O => t
  | S fuel' => if 0 <? n then recved_loop fuel' (n - Z.min n 0xFFFF) (log (TRecved (Z.min n 0xFFFF)) t) else t
  end.
Definition altcp_mbedtls_lower_recved (n : Z) (t : tls_t) : tls_t := recved_loop (S (Z.to_nat (n / 0xFFFF))) n t.

(** ** The transport functions mbedTLS calls *)

Definition altcp_mbedtls_bio_recv (len : nat) (t : tls_t) : tls_t * Z * list Z :=
  match rx t with
  | [] | [[]] => ({| t with rx := [] |}, if rx_close_queued t && negb (rx_closed t) then 0 else WANT_READ, [])
  | p :: rest =>
      let d := take len p in
      let n := Z.of_nat (length d) in
      (log (TRaw n) {| t with rx := match drop len p with [] => rest | p' => p' :: rest end; bio_bytes_read := bio_bytes_read t + n |}, n, d)
  end.

Fixpoint send_loop (fuel : nat) (data : list Z) (written : Z) (t : tls_t) : tls_t * Z :=
  match fuel with
  | O => (t, written)
  | S fuel' =>
      match data with
      | [] => (t, written)
      | _ =>
          let part := take CHUNK data in
          let n := Z.of_nat (length part) in
          let err := w_write w (now t) part in
          let t := log (TWrite part err) t in
          if err =? ERR_OK then send_loop fuel' (drop CHUNK data) (written + n) {| t with overhead_bytes_adjust := overhead_bytes_adjust t + n |}
          else if err =? ERR_MEM then (t, written)
          else (t, SEND_FAILED)
      end
  end.
Definition altcp_mbedtls_bio_send (data : list Z) (t : tls_t) : tls_t * Z := send_loop (S (length data)) data 0 t.

(** A call of mbedTLS: the return value and the bytes it gave. *)
Fixpoint exec (c : ssl_call C) (t : tls_t) : tls_t * Z * list Z :=
  match c with
  | Recv len k => let '(t, r, d) := altcp_mbedtls_bio_recv len t in exec (k r d) t
  | Send data k => let '(t, r) := altcp_mbedtls_bio_send data t in exec (k r) t
  | Ret s r out => ({| t with ssl := s |}, r, out)
  end.

Definition altcp_mbedtls_flush_output (t : tls_t) : tls_t := let '(t, _, _) := exec (mbedtls_ssl_flush_output (ssl t)) t in t.

(** ** What the application calls *)

Definition altcp_mbedtls_recved (len : Z) (t : tls_t) : tls_t :=
  let len := u16 len in
  if negb (handshake_done t) then t
  else
    let n := if rx_passed_unrecved t <? len then u16 (rx_passed_unrecved t) else len in
    let t := {| t with rx_passed_unrecved := rx_passed_unrecved t - n |} in
    let paid := if 0 <? bp_debt t then Z.min n (bp_debt t) else 0 in
    let t := {| t with bp_debt := bp_debt t - paid |} in
    if 0 <? n - paid then log (TRecved (n - paid)) t else t.

Definition altcp_mbedtls_write (data : list Z) (t : tls_t) : tls_t * Z :=
  if negb (handshake_done t) then (t, ERR_VAL)
  else
    let t := if negb (out_left (ssl t) =? 0) then altcp_mbedtls_flush_output t else t in
    if negb (out_left (ssl t) =? 0) then (t, ERR_MEM)
    else
      let '(t, ret, _) := exec (mbedtls_ssl_write (ssl t) data) t in
      let t := log TOutput t in
      if 0 <=? ret then
        if ret =? Z.of_nat (length data)
        then (log (TAppWrote ret) {| t with overhead_bytes_adjust := overhead_bytes_adjust t - ret |}, ERR_OK)
        else (t, ERR_MEM)
      else if ret =? WANT_WRITE then (t, ERR_MEM)
      else (t, ERR_VAL).

Definition altcp_mbedtls_sndbuf (t : tls_t) : Z :=
  let sndbuf := w_sndbuf w (now t) in
  if negb (handshake_done t) then 0
  else
    let expan := mbedtls_ssl_get_record_expansion (ssl t) in
    if (0 <? expan) && (Z.min expan 0xFFFF <? sndbuf)
    then Z.min (sndbuf - Z.min expan 0xFFFF) (Z.min (mbedtls_ssl_get_max_frag_len (ssl t)) 0xFFFF)
    else sndbuf.

(** What [altcp_free] does to the state: the raw pbufs go, [rx_app] does not. *)
Definition altcp_mbedtls_dealloc (t : tls_t) : tls_t := {| t with rx := []; alive := false |}.

(** Closing frees the connection unless TCP cannot close now; aborting always does, and tells the application. *)
Definition altcp_mbedtls_close (t : tls_t) : tls_t * Z :=
  let err := w_close w (now t) in
  let t := log (TClose err) t in
  if err =? ERR_OK then (altcp_mbedtls_dealloc t, ERR_OK) else (t, err).
Definition altcp_mbedtls_lower_err (err : Z) (t : tls_t) : tls_t := altcp_mbedtls_dealloc (log (TErr err) t).
Definition altcp_mbedtls_abort (t : tls_t) : tls_t := altcp_mbedtls_lower_err ERR_ABRT (log TAbort t).

Definition act (t : tls_t) (a : app_act) : tls_t :=
  match a with ARecved len => altcp_mbedtls_recved len t | AWrite data => fst (altcp_mbedtls_write data t) end.

(** ** Received data *)

(** [conn->recv] *)
Definition app_recv (data : option (list Z)) (t : tls_t) : tls_t * app_answer :=
  let a := w_app w (now t) data in
  let t := log (TApp data (match a with Refused _ _ => false | _ => true end)) t in
  match a with
  | Took acts | Refused acts _ => (fold_left act acts t, a)
  | Closed acts => (altcp_mbedtls_dealloc (fold_left act acts t), a)
  | Aborted acts => (altcp_mbedtls_abort (fold_left act acts t), a)
  end.

Definition err_of (a : app_answer) : Z :=
  match a with Took _ | Closed _ => ERR_OK | Refused _ e => e | Aborted _ => ERR_ABRT end.

Definition altcp_mbedtls_pass_rx_data (t : tls_t) : tls_t * Z :=
  match rx_app t with
  | Some buf =>
      let n := Z.of_nat (length buf) in
      let '(t, a) := app_recv (Some buf) {| t with rx_app := None; rx_passed_unrecved := rx_passed_unrecved t + n; upper_called := true |} in
      match a with
      | Took _ => (t, ERR_OK)
      | Closed _ => (t, ERR_ARG)
      | Aborted _ => (t, ERR_ABRT)
      | Refused _ e => ({| t with rx_app := Some buf; rx_passed_unrecved := Z.max 0 (rx_passed_unrecved t - n) |}, e)
      end
  | None =>
      if rx_close_queued t && negb (rx_closed t) then
        let '(t, a) := app_recv None {| t with rx_closed := true |} in (t, err_of a)
      else (t, ERR_OK)
  end.

(** The first plaintext of a record settles its window. *)
Definition settle (ret : Z) (t : tls_t) : tls_t :=
  if bio_bytes_appl t =? 0 then
    let appl := ret + mbedtls_ssl_get_bytes_avail (ssl t) in
    let overhead := Z.max 0 (bio_bytes_read t - appl) in
    let t' := if bp_loaned t <=? overhead then altcp_mbedtls_lower_recved (overhead - bp_loaned t) t
              else {| t with bp_debt := bp_debt t + (bp_loaned t - overhead) |} in
    {| t' with bp_loaned := 0 |}
  else t.
Definition record_done (t : tls_t) : tls_t :=
  if mbedtls_ssl_get_bytes_avail (ssl t) =? 0 then {| t with bio_bytes_read := 0; bio_bytes_appl := 0 |} else t.
Definition took_plain (ret : Z) (out : list Z) (t : tls_t) : tls_t :=
  let t := settle ret t in
  let t := record_done {| t with bio_bytes_appl := bio_bytes_appl t + ret |} in
  {| t with rx_app := Some (default [] (rx_app t) ++ take (Z.to_nat ret) out) |}.

(** Lend the window what an incomplete record holds. *)
Definition lend (ret : Z) (t : tls_t) : tls_t :=
  if (ret =? WANT_READ) && (bp_loaned t <? bio_bytes_read t)
  then let t := altcp_mbedtls_lower_recved (bio_bytes_read t - bp_loaned t) t in {| t with bp_loaned := bio_bytes_read t |}
  else t.

(** [None] when the fuel is gone. *)
Fixpoint rx_loop (fuel : nat) (t : tls_t) : option (tls_t * Z) :=
  match fuel with
  | O => None
  | S fuel' =>
      if negb (w_pbuf w (now t)) then Some (t, ERR_OK)
      else
        let '(t, ret, out) := exec (mbedtls_ssl_read (ssl t) PBUF_POOL_BUFSIZE) t in
        let t := log (TRead ret out) t in
        if ret <? 0 then
          if ret =? CLIENT_RECONNECT then Some (altcp_mbedtls_abort t, ERR_ABRT)
          else Some (lend ret t, ERR_OK)
        else
          let t := if 0 <? ret then took_plain ret out t else t in
          let '(t, err) := altcp_mbedtls_pass_rx_data t in
          if err =? ERR_ABRT then Some (t, ERR_ABRT)
          else if negb (err =? ERR_OK) then Some (t, ERR_OK)
          else if 0 <? ret then rx_loop fuel' t else Some (t, ERR_OK)
  end.

Definition altcp_mbedtls_handle_rx_appldata (t : tls_t) : option (tls_t * Z) :=
  if negb (handshake_done t) then Some (t, ERR_VAL)
  else
    match rx_app t with
    | Some _ =>
        let '(t, err) := altcp_mbedtls_pass_rx_data t in
        if err =? ERR_ABRT then Some (t, ERR_ABRT)
        else if negb (err =? ERR_OK) || match rx_app t with Some _ => true | None => false end then Some (t, ERR_OK)
        else rx_loop fuel t
    | None => rx_loop fuel t
    end.

(** The handshake's bytes are acknowledged at once. *)
Definition ack_handshake (t : tls_t) : tls_t :=
  if negb (bio_bytes_read t =? 0) then let t := altcp_mbedtls_lower_recved (bio_bytes_read t) t in {| t with bio_bytes_read := 0 |} else t.

Definition altcp_mbedtls_lower_recv_process (t : tls_t) : option (tls_t * Z) :=
  if handshake_done t then altcp_mbedtls_handle_rx_appldata t
  else
    let '(t, ret, _) := exec (mbedtls_ssl_handshake (ssl t)) t in
    let t := ack_handshake (log TOutput t) in
    if (ret =? WANT_READ) || (ret =? WANT_WRITE) then Some (t, ERR_OK)
    else if negb (ret =? 0) then
      let '(t, err) := altcp_mbedtls_close (log (TErr ERR_CLSD) t) in
      Some (if err =? ERR_OK then t else altcp_mbedtls_abort t, ERR_OK)
    else
      let t := {| t with handshake_done := true |} in
      let err := w_connected w (now t) in
      let t := log (TConnected err) t in
      if negb (err =? ERR_OK) then Some (t, err)
      else match rx t with [] => Some (t, ERR_OK) | _ => altcp_mbedtls_handle_rx_appldata t end.

(** ** What comes from below; [None] for [p] is the FIN *)

Definition altcp_mbedtls_lower_recv (p : option (list (list Z))) (t : tls_t) : option (tls_t * Z) :=
  match p with
  | Some p => altcp_mbedtls_lower_recv_process {| t with rx := rx t ++ p |}
  | None =>
      if handshake_done t && upper_called t then
        if (0 <? length (rx t))%nat || match rx_app t with Some _ => true | None => false end then
          match altcp_mbedtls_handle_rx_appldata {| t with rx_close_queued := true |} with Some (t, _) => Some (t, ERR_OK) | None => None end
        else let '(t, a) := app_recv None {| t with rx_closed := true |} in Some (t, err_of a)
      else let '(t, _) := altcp_mbedtls_close (log (TErr ERR_ABRT) t) in Some (t, ERR_OK)
  end.

Definition altcp_mbedtls_lower_connected (err : Z) (t : tls_t) : option (tls_t * Z) :=
  if negb (err =? ERR_OK) then Some (log (TConnected err) t, w_connected w (now t))
  else altcp_mbedtls_lower_recv_process {| t with overhead_bytes_adjust := 0 |}.

Definition altcp_mbedtls_lower_sent (len : Z) (t : tls_t) : tls_t :=
  let len := u16 len in
  let overhead := overhead_bytes_adjust t + out_left (ssl t) in
  let overhead := if (overhead <? 0) || (len <? overhead) then len else overhead in
  let t := log (TAcked len) {| t with overhead_bytes_adjust := overhead_bytes_adjust t - len |} in
  let t := altcp_mbedtls_flush_output t in
  let app_len := len - overhead in
  if negb (app_len =? 0) then log (TSent app_len) {| t with overhead_bytes_adjust := overhead_bytes_adjust t + app_len |} else t.

Definition altcp_mbedtls_lower_poll (t : tls_t) : option (tls_t * Z) :=
  match altcp_mbedtls_handle_rx_appldata (altcp_mbedtls_flush_output t) with
  | Some (t, err) => Some (if err =? ERR_ABRT then t else log TPolled t, if err =? ERR_ABRT then ERR_ABRT else ERR_OK)
  | None => None
  end.

Definition altcp_tls_bp_kick (t : tls_t) : option (tls_t * Z) := altcp_mbedtls_handle_rx_appldata t.

(** ** Steps *)

Inductive top :=
| ORecv (p : option (list (list Z))) | OSent (len : Z) | OPoll | OConnected (err : Z) | OErr (err : Z)
| ORecved (len : Z) | OWrite (data : list Z) | OKick | OClose | OAbort.

Definition tstep (t : tls_t) (o : top) : option tls_t :=
  if negb (alive t) then Some t
  else
    match o with
    | ORecv p => option_map fst (altcp_mbedtls_lower_recv p t)
    | OSent len => Some (altcp_mbedtls_lower_sent len t)
    | OPoll => option_map fst (altcp_mbedtls_lower_poll t)
    | OConnected err => option_map fst (altcp_mbedtls_lower_connected err t)
    | OErr err => Some (altcp_mbedtls_lower_err err t)
    | ORecved len => Some (altcp_mbedtls_recved len t)
    | OWrite data => Some (fst (altcp_mbedtls_write data t))
    | OKick => option_map fst (altcp_tls_bp_kick t)
    | OClose => Some (fst (altcp_mbedtls_close t))
    | OAbort => Some (altcp_mbedtls_abort t)
    end.
Fixpoint trun (t : tls_t) (ops : list top) : option tls_t :=
  match ops with [] => Some t | o :: ops => match tstep t o with Some t => trun t ops | None => None end end.
End layer.
