(* ===== verification/TlsTheorems.v ===== *)
(** * The TLS layer's window, stream and sent counts *)

From S2P Require Import Prelude TlsLayer.

(** ** What the trace adds up to *)

Definition sum_of (f : tev -> Z) (l : list tev) : Z := foldr (fun e n => f e + n) 0 l.
Definition raw : list tev -> Z := sum_of (fun e => match e with TRaw n => n | _ => 0 end).
Definition given : list tev -> Z := sum_of (fun e => match e with TRecved n => n | _ => 0 end).
Definition last_read (l : list tev) : option Z := foldl (fun r e => match e with TRead ret _ => Some ret | _ => r end) None l.

(** The plaintext mbedTLS gave and the plaintext the application took. *)
Definition plain (l : list tev) : list Z := concat (map (fun e => match e with TRead ret out => take (Z.to_nat ret) out | _ => [] end) l).
Definition taken (l : list tev) : list Z := concat (map (fun e => match e with TApp (Some d) true => d | _ => [] end) l).

#[local] Arguments raw _ : simpl never.
#[local] Arguments given _ : simpl never.
#[local] Arguments last_read _ : simpl never.
#[local] Arguments plain _ : simpl never.
#[local] Arguments taken _ : simpl never.

Lemma sum_snoc f l e : sum_of f (l ++ [e]) = sum_of f l + f e.
Proof. unfold sum_of. rewrite foldr_app. cbn [foldr]. induction l as [|x l IH]; cbn [foldr]; lia. Qed.
Lemma last_snoc l e : last_read (l ++ [e]) = match e with TRead ret _ => Some ret | _ => last_read l end.
Proof. unfold last_read. by rewrite foldl_app. Qed.
Lemma plain_snoc l e : plain (l ++ [e]) = plain l ++ match e with TRead ret out => take (Z.to_nat ret) out | _ => [] end.
Proof. unfold plain. rewrite map_app, concat_app. cbn. by rewrite app_nil_r. Qed.
Lemma taken_snoc l e : taken (l ++ [e]) = taken l ++ match e with TApp (Some d) true => d | _ => [] end.
Proof. unfold taken. rewrite map_app, concat_app. cbn. by rewrite app_nil_r. Qed.

(** ** What mbedTLS promises *)

(** Whatever the transport answers, a call returns with [P]: the bytes taken, the
    state, the value and the data. *)
Fixpoint call_ok {C} (P : Z -> C -> Z -> list Z -> Prop) (c : ssl_call C) (n : Z) : Prop :=
  match c with
  | Recv len k => forall r d, (r <= 0 /\ d = [] \/ 0 < r /\ r = Z.of_nat (length d) /\ (length d <= len)%nat) -> call_ok P (k r d) (n + Z.of_nat (length d))
  | Send data k => forall r, call_ok P (k r) n
  | Ret s r out => P n s r out
  end.

(** [raw_held]: the bytes of records that are not complete. *)
Class SslLaws (C : Type) `{Ssl C} := {
  raw_held : C -> Z;
  raw_held_nonneg s : 0 <= raw_held s;
  avail_nonneg s : 0 <= mbedtls_ssl_get_bytes_avail s;
  out_left_nonneg s : 0 <= out_left s;
  handshake_law s : mbedtls_ssl_get_bytes_avail s = 0 ->
    call_ok (fun n s' r _ => mbedtls_ssl_get_bytes_avail s' = 0 /\ raw_held s' <= raw_held s + n /\ (r = 0 -> raw_held s' = 0)) (mbedtls_ssl_handshake s) 0;
  (** a record is handed out only when it is complete, and is not larger than what arrived for it *)
  read_record s cap : (0 < cap)%nat -> mbedtls_ssl_get_bytes_avail s = 0 ->
    call_ok (fun n s' r out =>
      (0 < r -> Z.of_nat (length out) = r /\ r + mbedtls_ssl_get_bytes_avail s' <= raw_held s + n /\ raw_held s' = 0) /\
      (r <= 0 -> mbedtls_ssl_get_bytes_avail s' = 0 /\ raw_held s' <= raw_held s + n)) (mbedtls_ssl_read s cap) 0;
  (** the rest of a record needs no more bytes *)
  read_rest s cap : (0 < cap)%nat -> 0 < mbedtls_ssl_get_bytes_avail s -> exists s' r out, mbedtls_ssl_read s cap = Ret s' r out /\
    0 < r <= mbedtls_ssl_get_bytes_avail s /\ Z.of_nat (length out) = r /\
    mbedtls_ssl_get_bytes_avail s' = mbedtls_ssl_get_bytes_avail s - r /\ raw_held s' = raw_held s;
  write_law s d : call_ok (fun n s' _ _ => n = 0 /\ mbedtls_ssl_get_bytes_avail s' = mbedtls_ssl_get_bytes_avail s /\ raw_held s' = raw_held s) (mbedtls_ssl_write s d) 0;
  flush_law s : call_ok (fun n s' _ _ => n = 0 /\ mbedtls_ssl_get_bytes_avail s' = mbedtls_ssl_get_bytes_avail s /\ raw_held s' = raw_held s) (mbedtls_ssl_flush_output s) 0;
}.

(** The application does not acknowledge in the callback in which it refuses. *)
Definition refuses_cleanly (w : world) : Prop :=
  forall n d acts e, w_app w n d = Refused acts e -> Forall (fun a => match a with AWrite _ => True | ARecved _ => False end) acts.

Section theorems.
Context {C : Type} `{SslLaws C} (w : world) (fuel : nat).
Abbreviation avail t := (mbedtls_ssl_get_bytes_avail (ssl t)).
Abbreviation rx_left t := (length (concat (rx t))).

(** ** A call of mbedTLS and the fields it leaves alone *)

Definition fields (t : tls_t (C := C)) :=
  (rx_app t, handshake_done t, upper_called t, rx_close_queued t, rx_closed t, rx_passed_unrecved t, bio_bytes_appl t, (bp_loaned t, bp_debt t, alive t),
   (given (tr t), last_read (tr t), plain (tr t), taken (tr t))).

Lemma bio_recv_spec len t t' r d : altcp_mbedtls_bio_recv len t = (t', r, d) ->
  (r <= 0 /\ d = [] \/ 0 < r /\ r = Z.of_nat (length d) /\ (length d <= len)%nat) /\
  fields t' = fields t /\ ssl t' = ssl t /\ bio_bytes_read t' = bio_bytes_read t + Z.of_nat (length d) /\ raw (tr t') = raw (tr t) + Z.of_nat (length d) /\
  (rx_left t' + length d = rx_left t)%nat.
Proof.
  unfold altcp_mbedtls_bio_recv. intros E. assert (E0 : forall p rest, rx t = p :: rest ->
    (log (TRaw (Z.of_nat (length (take len p)))) {| t with rx := match drop len p with [] => rest | p' => p' :: rest end; bio_bytes_read := bio_bytes_read t + Z.of_nat (length (take len p)) |},
     Z.of_nat (length (take len p)), take len p) = (t', r, d) ->
  (r <= 0 /\ d = [] \/ 0 < r /\ r = Z.of_nat (length d) /\ (length d <= len)%nat) /\
  fields t' = fields t /\ ssl t' = ssl t /\ bio_bytes_read t' = bio_bytes_read t + Z.of_nat (length d) /\ raw (tr t') = raw (tr t) + Z.of_nat (length d) /\
  (rx_left t' + length d = rx_left t)%nat).
  { clear E. intros p rest Ep E. injection E as <- <- <-. cbn [log ssl bio_bytes_read tr rx]. split.
    { pose proof (length_take p len) as Hl. destruct (take len p) as [|x l]; [by left|]. right. cbn [length] in *. lia. }
    unfold fields. cbn [rx_app handshake_done upper_called rx_close_queued rx_closed rx_passed_unrecved bio_bytes_appl bp_loaned bp_debt alive tr log].
    unfold given, raw. rewrite !sum_snoc, last_snoc, plain_snoc, taken_snoc, !app_nil_r. split_and!; try done; [by rewrite Z.add_0_r|].
    rewrite Ep. cbn [concat]. rewrite length_app, length_take. assert (length (drop len p) = (length p - len)%nat) by apply length_drop.
    destruct (drop len p) as [|y l]; cbn [concat length] in *; rewrite ?length_app; cbn [length] in *; lia. }
  destruct (rx t) as [|[|x p] rest] eqn:Er.
  - injection E as <- <- <-. split; [left; split; [|done]; by destruct (_ && _)|]. cbn [ssl bio_bytes_read tr rx length concat]. split_and!; try done; lia.
  - destruct rest as [|q rest].
    + injection E as <- <- <-. split; [left; split; [|done]; by destruct (_ && _)|]. cbn [ssl bio_bytes_read tr rx length concat]. split_and!; try done; lia.
    + by apply (E0 [] (q :: rest)).
  - by apply (E0 (x :: p) rest).
Qed.

(** The events that count for nothing here. *)
Definition silent (e : tev) : bool :=
  match e with TRaw _ | TRead _ _ | TRecved _ | TApp (Some _) true => false | _ => true end.
Lemma fields_log e t : silent e = true -> fields (log e t) = fields t /\ raw (tr (log e t)) = raw (tr t).
Proof.
  intros He. unfold fields, raw, given. cbn [log rx_app handshake_done upper_called rx_close_queued rx_closed rx_passed_unrecved bio_bytes_appl bp_loaned bp_debt alive tr].
  rewrite !sum_snoc, last_snoc, plain_snoc, taken_snoc. destruct e as [| | | | | |[]  []| | | | | | |]; try discriminate; by rewrite !Z.add_0_r, !app_nil_r.
Qed.

Definition rest_eq (t t' : tls_t (C := C)) : Prop :=
  fields t' = fields t /\ ssl t' = ssl t /\ bio_bytes_read t' = bio_bytes_read t /\ raw (tr t') = raw (tr t) /\ rx t' = rx t.

Lemma rest_log e t : silent e = true -> rest_eq t (log e t).
Proof. intros He. destruct (fields_log e t He). by split_and!. Qed.
#[local] Instance rest_preorder : PreOrder rest_eq.
Proof. split; [by intros t|]. unfold rest_eq. intros t1 t2 t3 H1 (-> & -> & -> & -> & ->). exact H1. Qed.

Lemma send_spec k data n t : rest_eq t (fst (send_loop w k data n t)).
Proof.
  revert data n t. induction k as [|k IH]; intros data n t; [done|]. cbn [send_loop]. destruct data as [|x data]; [done|]. cbv zeta.
  destruct (_ =? ERR_OK); [|destruct (_ =? ERR_MEM); by apply rest_log]. etransitivity; [|apply IH]. by apply (rest_log (TWrite _ _) t).
Qed.

Lemma exec_spec P c n t t' r out : call_ok P c n -> exec w c t = (t', r, out) ->
  exists m, 0 <= m /\ P (n + m) (ssl t') r out /\ fields t' = fields t /\ bio_bytes_read t' = bio_bytes_read t + m /\ raw (tr t') = raw (tr t) + m /\
    Z.of_nat (rx_left t') + m = Z.of_nat (rx_left t).
Proof.
  revert n t. induction c as [len k IH|data k IH|s r0 o]; intros n t Hc; cbn [exec call_ok] in *.
  - destruct (altcp_mbedtls_bio_recv len t) as [[t1 r1] d] eqn:E1. apply bio_recv_spec in E1 as (Hr & F1 & _ & R1 & W1 & X1). intros E.
    destruct (IH _ _ _ _ (Hc r1 d Hr) E) as (m & Hm & HP & F & R & W & X). exists (Z.of_nat (length d) + m). rewrite F, R, W, F1. rewrite Z.add_assoc. split_and!; try done; lia.
  - pose proof (send_spec (S (length data)) data 0 t) as Hs. unfold altcp_mbedtls_bio_send. destruct (send_loop _ _ _ _ _) as [t1 r1]. cbn [fst] in Hs. destruct Hs as (F1 & _ & R1 & W1 & X1).
    intros E. destruct (IH _ _ _ (Hc r1) E) as (m & Hm & HP & F & R & W & X). exists m. rewrite F, R, W, F1, R1, W1, X, X1. done.
  - intros E. injection E as <- <- <-. exists 0. rewrite !Z.add_0_r. done.
Qed.

(** A call that takes no bytes and keeps the record. *)
Definition keeps (t t' : tls_t (C := C)) : Prop :=
  fields t' = fields t /\ bio_bytes_read t' = bio_bytes_read t /\ raw (tr t') = raw (tr t) /\ avail t' = avail t /\ raw_held (ssl t') = raw_held (ssl t) /\ rx_left t' = rx_left t.
#[local] Instance keeps_preorder : PreOrder keeps.
Proof. split; [by intros t|]. unfold keeps. intros t1 t2 t3 H1 (-> & -> & -> & -> & -> & ->). exact H1. Qed.
Lemma keeps_rest t t' : rest_eq t t' -> keeps t t'.
Proof. unfold keeps. intros (-> & E & -> & -> & Er). by rewrite E, Er. Qed.
Lemma keeps_log e t : silent e = true -> keeps t (log e t).
Proof. intros He. by apply keeps_rest, rest_log. Qed.

Lemma keeps_exec c t : call_ok (fun n s' _ _ => n = 0 /\ mbedtls_ssl_get_bytes_avail s' = avail t /\ raw_held s' = raw_held (ssl t)) c 0 -> keeps t (fst (fst (exec w c t))).
Proof.
  intros Hc. destruct (exec w c t) as [[t' r] out] eqn:E. destruct (exec_spec _ _ _ _ _ _ _ Hc E) as (m & _ & (Hm & Ha & Hh) & F & R & W & X).
  cbn [fst]. unfold keeps. rewrite F, R, W, Ha, Hh. rewrite Z.add_0_l in Hm. subst m. rewrite !Z.add_0_r in *. split_and!; try done. lia.
Qed.

Lemma flush_keeps t : keeps t (altcp_mbedtls_flush_output w t).
Proof. unfold altcp_mbedtls_flush_output. pose proof (keeps_exec _ t (flush_law (ssl t))) as Hk. by destruct (exec _ _ _) as [[t' r] out]. Qed.

Lemma write_keeps data t : keeps t (fst (altcp_mbedtls_write w data t)).
Proof.
  unfold altcp_mbedtls_write. destruct (negb (handshake_done t)); [done|]. match goal with |- context [if ?c then ?x else t] => set (t1 := if c then x else t) end.
  assert (K1 : keeps t t1) by (unfold t1; destruct (negb _); [apply flush_keeps|done]). clearbody t1. destruct (negb (out_left (ssl t1) =? 0)); [exact K1|].
  pose proof (keeps_exec _ t1 (write_law (ssl t1) data)) as Hk. destruct (exec _ _ _) as [[t2 r] out]. cbn [fst] in Hk.
  assert (K2 : keeps t (log TOutput t2)) by (rewrite K1, Hk; by apply keeps_log). destruct (0 <=? r); [|destruct (_ =? WANT_WRITE); exact K2].
  destruct (_ =? Z.of_nat _); [|exact K2]. cbn [fst]. rewrite K2. set (t3 := log TOutput t2). transitivity {| t3 with overhead_bytes_adjust := overhead_bytes_adjust t3 - r |}; [done|by apply keeps_log].
Qed.

(** Window given back: only the trace grows. *)
Lemma recved_loop_spec k n (t : tls_t (C := C)) : 0 <= n < Z.of_nat k * 65535 \/ n = 0 -> exists l, recved_loop k n t = {| t with tr := tr t ++ l |} /\
  given (tr t ++ l) = given (tr t) + n /\ raw (tr t ++ l) = raw (tr t) /\ last_read (tr t ++ l) = last_read (tr t) /\ plain (tr t ++ l) = plain (tr t) /\ taken (tr t ++ l) = taken (tr t).
Proof.
  revert n t. induction k as [|k IH]; intros n t Hn; cbn [recved_loop].
  { exists []. rewrite app_nil_r. destruct t. split_and!; try done. lia. }
  destruct (Z.ltb_spec 0 n) as [Hp|Hz]; [|exists []; rewrite app_nil_r; destruct t; split_and!; try done; lia].
  destruct (IH (n - Z.min n 65535) (log (TRecved (Z.min n 65535)) t)) as (l & E & G & R & L & P & T); [lia|].
  exists (TRecved (Z.min n 65535) :: l). rewrite E. cbn [log tr] in *. rewrite <- app_assoc in *. cbn [app] in *. rewrite G, R, L, P, T.
  unfold given, raw. rewrite !sum_snoc, last_snoc, plain_snoc, taken_snoc, !app_nil_r. split_and!; try done; lia.
Qed.

Lemma lower_recved_spec n (t : tls_t (C := C)) : 0 <= n -> exists l, altcp_mbedtls_lower_recved n t = {| t with tr := tr t ++ l |} /\
  given (tr t ++ l) = given (tr t) + n /\ raw (tr t ++ l) = raw (tr t) /\ last_read (tr t ++ l) = last_read (tr t) /\ plain (tr t ++ l) = plain (tr t) /\ taken (tr t ++ l) = taken (tr t).
Proof. intros Hn. apply recved_loop_spec. left. rewrite Nat2Z.inj_succ, Z2Nat.id by (apply Z.div_pos; lia). pose proof (Z.mod_pos_bound n 65535). pose proof (Z.div_mod n 65535). lia. Qed.

(** ** The window equation *)

(** The bytes of an incomplete record that were not lent, and the plaintext whose window the application still holds. *)
Definition pend (t : tls_t (C := C)) : Z := if bio_bytes_appl t =? 0 then bio_bytes_read t - bp_loaned t else 0.
Definition held (t : tls_t (C := C)) : Z := rx_passed_unrecved t + Z.of_nat (length (default [] (rx_app t))) + avail t.

Record inv (t : tls_t (C := C)) : Prop := {
  inv_eq : raw (tr t) = given (tr t) + pend t + held t - bp_debt t;
  inv_record : if bio_bytes_appl t =? 0 then avail t = 0 /\ raw_held (ssl t) <= bio_bytes_read t
               else 0 < bio_bytes_appl t /\ 0 < avail t /\ bp_loaned t = 0 /\ raw_held (ssl t) = 0;
  inv_loan : 0 <= bp_loaned t <= bio_bytes_read t;
  inv_debt : 0 <= bp_debt t <= held t;
  inv_passed : 0 <= rx_passed_unrecved t;
  inv_want : last_read (tr t) = Some WANT_READ -> bio_bytes_appl t = 0 /\ bp_loaned t = bio_bytes_read t;
}.

Lemma inv_keeps t t' : keeps t t' -> inv t -> inv t' /\ handshake_done t' = handshake_done t /\ alive t' = alive t /\ rx_passed_unrecved t' = rx_passed_unrecved t /\ rx_app t' = rx_app t.
Proof.
  intros (F & R & W & A & Hh & X) [I1 I2 I3 I4 I5 I6]. unfold fields in F. injection F as E1 E2 E3 E4 E5 E6 E7 E8 E9 E10 E11 E12 E13 E14.
  split; [|by split_and!]. unfold pend, held in *. split; unfold pend, held; rewrite ?R, ?W, ?A, ?Hh, ?E1, ?E6, ?E7, ?E8, ?E9, ?E11, ?E12; assumption.
Qed.

Lemma recved_inv len t : inv t -> let t' := altcp_mbedtls_recved len t in inv t' /\ handshake_done t' = handshake_done t /\ alive t' = alive t /\ rx_app t' = rx_app t.
Proof.
  intros [I1 I2 I3 I4 I5 I6]. unfold altcp_mbedtls_recved. destruct (handshake_done t) eqn:Hd; cbn [negb]; [|by split].
  pose proof (avail_nonneg (ssl t)). pose proof (u16_range len). set (n := if rx_passed_unrecved t <? u16 len then u16 (rx_passed_unrecved t) else u16 len).
  assert (Hn : 0 <= n <= rx_passed_unrecved t).
  { unfold n. destruct (Z.ltb_spec (rx_passed_unrecved t) (u16 len)); [|lia]. rewrite u16_id by lia. lia. }
  clearbody n. cbn [bp_debt]. set (paid := if 0 <? bp_debt t then Z.min n (bp_debt t) else 0). assert (Hp : 0 <= paid <= n /\ paid <= bp_debt t /\ (paid = n \/ paid = bp_debt t)) by (unfold paid; destruct (Z.ltb_spec 0 (bp_debt t)); lia).
  clearbody paid. cbn [rx_passed_unrecved]. unfold pend, held in *.
  destruct (Z.ltb_spec 0 (n - paid)); (split; [split; unfold pend, held; cbn [rx_passed_unrecved bio_bytes_read bio_bytes_appl bp_loaned bp_debt ssl rx_app tr log]|by split_and!]); try assumption; try lia;
    unfold raw, given in *; rewrite ?sum_snoc, ?last_snoc; try lia; assumption.
Qed.

Lemma act_inv t a : inv t -> let t' := act w t a in inv t' /\ handshake_done t' = handshake_done t /\ alive t' = alive t /\ rx_app t' = rx_app t.
Proof.
  destruct a as [len|data]; [apply recved_inv|]. intros I. destruct (inv_keeps _ _ (write_keeps data t) I) as (? & ? & ? & ? & ?). by split_and!.
Qed.

Lemma acts_inv acts t : inv t -> let t' := fold_left (act w) acts t in inv t' /\ handshake_done t' = handshake_done t /\ alive t' = alive t /\ rx_app t' = rx_app t.
Proof.
  revert t. induction acts as [|a acts IH]; intros t I; [by split|]. destruct (act_inv t a I) as (I1 & E1 & E2 & E3). cbn [fold_left].
  destruct (IH _ I1) as (I2 & F1 & F2 & F3). split; [done|]. by rewrite F1, F2, F3.
Qed.

Lemma writes_keep acts t : Forall (fun a => match a with AWrite _ => True | ARecved _ => False end) acts -> keeps t (fold_left (act w) acts t).
Proof.
  intros Hf. revert t. induction Hf as [|a acts Ha _ IH]; intros t; [done|]. cbn [fold_left]. rewrite <- IH. destruct a; [done|]. apply write_keeps.
Qed.

(** The invariant reads no other field. *)
Definition view (t : tls_t (C := C)) :=
  (raw (tr t), given (tr t), last_read (tr t), rx_app t, rx_passed_unrecved t, bio_bytes_read t, bio_bytes_appl t, (bp_loaned t, bp_debt t, ssl t)).
Lemma inv_view t t' : view t' = view t -> inv t -> inv t'.
Proof.
  unfold view. intros E [I1 I2 I3 I4 I5 I6]. injection E as E1 E2 E3 E4 E5 E6 E7 E8 E9 E10. unfold pend, held in *.
  split; unfold pend, held; rewrite ?E1, ?E2, ?E3, ?E4, ?E5, ?E6, ?E7, ?E8, ?E9, ?E10; assumption.
Qed.

(** ** Passing data up *)

Context (Hclean : refuses_cleanly w).

(** What every outcome of a callback satisfies. *)
Definition okt (t : tls_t (C := C)) : Prop := handshake_done t = true /\ (alive t = true -> inv t).

Lemma inv_log e t : raw (tr (log e t)) = raw (tr t) -> given (tr (log e t)) = given (tr t) -> last_read (tr (log e t)) = last_read (tr t) -> inv t -> inv (log e t).
Proof. intros R G L [I1 I2 I3 I4 I5 I6]. split; cbn [log tr] in *; rewrite ?R, ?G, ?L; assumption. Qed.
Lemma inv_app d b t : inv t -> inv (log (TApp d b) t).
Proof. apply inv_log; cbn [log tr]; unfold raw, given; rewrite ?sum_snoc, ?last_snoc; done || apply Z.add_0_r. Qed.

Lemma app_recv_spec d t t' a : inv t -> handshake_done t = true -> app_recv w d t = (t', a) ->
  handshake_done t' = true /\
  match a with
  | Took _ => inv t' /\ rx_app t' = rx_app t
  | Refused _ _ => inv t' /\ rx_app t' = rx_app t /\ rx_passed_unrecved t' = rx_passed_unrecved t
  | _ => alive t' = false
  end.
Proof.
  intros I Hd. unfold app_recv. destruct (w_app w (now t) d) as [acts|acts e|acts|acts] eqn:Ea; intros E; injection E as <- <-.
  - destruct (acts_inv acts _ (inv_app d true t I)) as (I' & H1 & _ & H3). split; [by rewrite H1|]. by split.
  - destruct (inv_keeps _ _ (writes_keep acts (log (TApp d false) t) (Hclean _ _ _ _ Ea)) (inv_app d false t I)) as (I' & H1 & _ & H3 & H4). split; [by rewrite H1|]. by split_and!.
  - destruct (acts_inv acts _ (inv_app d true t I)) as (I' & H1 & _ & H3). split; [by cbn; rewrite H1|done].
  - destruct (acts_inv acts _ (inv_app d true t I)) as (I' & H1 & _ & H3). split; [by cbn; rewrite H1|done].
Qed.

Lemma pass_inv t t' e : inv t -> handshake_done t = true -> altcp_mbedtls_pass_rx_data w t = (t', e) ->
  okt t' /\ (rx_app t <> None -> e = ERR_OK -> inv t').
Proof.
  intros I Hd. unfold altcp_mbedtls_pass_rx_data. destruct (rx_app t) as [buf|] eqn:Er.
  - cbv zeta. match goal with |- context [app_recv w _ ?x] => set (t1 := x) end. assert (I1 : inv t1).
    { destruct I as [J1 J2 J3 J4 J5 J6]. unfold pend, held in *. rewrite Er in *. cbn [default] in *. split; unfold pend, held; cbn; try assumption; cbn in *; lia. }
    destruct (app_recv w (Some buf) t1) as [t2 a] eqn:E2. destruct (app_recv_spec _ _ _ _ I1 Hd E2) as [Hd2 Ha]. intros E.
    destruct a as [acts|acts er|acts|acts]; injection E as <- <-.
    + destruct Ha as [I2 _]. split; [by split|done].
    + destruct Ha as (I2 & Hx & Hn). assert (I3 : inv {| t2 with rx_app := Some buf; rx_passed_unrecved := Z.max 0 (rx_passed_unrecved t2 - Z.of_nat (length buf)) |}).
      { pose proof (inv_passed _ I) as Hp. rewrite Hn. unfold t1. cbn [rx_passed_unrecved]. replace (Z.max 0 _) with (rx_passed_unrecved t) by lia.
        destruct I2 as [J1 J2 J3 J4 J5 J6]. unfold pend, held in *. rewrite Hx, Hn in *. unfold t1 in *. cbn [rx_app rx_passed_unrecved default from_option length id] in *. split; unfold pend, held; cbn; try assumption; lia. }
      split; [by split|done].
    + split; [split; [done|congruence]|done].
    + split; [split; [done|congruence]|done].
  - destruct (rx_close_queued t && _).
    + match goal with |- context [app_recv w _ ?x] => set (t1 := x) end. assert (I1 : inv t1) by (apply (inv_view t); [unfold view, t1; cbn; by rewrite Er|done]). destruct (app_recv w None t1) as [t2 a] eqn:E2.
      destruct (app_recv_spec _ _ _ _ I1 Hd E2) as [Hd2 Ha]. intros E. injection E as <- _. split; [split; [done|]|done]. destruct a; [by destruct Ha|by destruct Ha|congruence|congruence].
    + intros E. injection E as <- _. split; [by split|done].
Qed.

(** ** Reading a record *)

Lemma cap_pos : (0 < PBUF_POOL_BUFSIZE)%nat.
Proof. by apply Nat.ltb_lt. Qed.

(** What a read leaves: the bytes taken [m], the new state of mbedTLS and the data. *)
Lemma read_spec t t1 ret out : inv t -> exec w (mbedtls_ssl_read (ssl t) PBUF_POOL_BUFSIZE) t = (t1, ret, out) ->
  exists m, 0 <= m /\ fields t1 = fields t /\ bio_bytes_read t1 = bio_bytes_read t + m /\ raw (tr t1) = raw (tr t) + m /\ Z.of_nat (rx_left t1) + m = Z.of_nat (rx_left t) /\
  if bio_bytes_appl t =? 0 then
    (0 < ret -> Z.of_nat (length out) = ret /\ ret + avail t1 <= raw_held (ssl t) + m /\ raw_held (ssl t1) = 0) /\
    (ret <= 0 -> avail t1 = 0 /\ raw_held (ssl t1) <= raw_held (ssl t) + m)
  else m = 0 /\ 0 < ret /\ Z.of_nat (length out) = ret /\ avail t1 = avail t - ret /\ raw_held (ssl t1) = raw_held (ssl t) /\ 0 <= avail t1.
Proof.
  intros I E. pose proof (inv_record t I) as Hr. destruct (bio_bytes_appl t =? 0).
  - destruct Hr as [Ha Hh]. destruct (exec_spec _ _ _ _ _ _ _ (read_record (ssl t) PBUF_POOL_BUFSIZE cap_pos Ha) E) as (m & Hm & HP & F & R & W & X). rewrite Z.add_0_l in HP. exists m. split_and!; done || apply HP.
  - destruct Hr as (_ & Ha & _). destruct (read_rest (ssl t) PBUF_POOL_BUFSIZE cap_pos Ha) as (s' & r & o & Er & Hr & Ho & Ha' & Hh). rewrite Er in E. cbn [exec] in E. injection E as <- <- <-.
    exists 0. rewrite !Z.add_0_r. cbn [ssl]. split_and!; try done; lia.
Qed.

Definition same_but_window (t t' : tls_t (C := C)) : Prop :=
  raw (tr t') = raw (tr t) /\ last_read (tr t') = last_read (tr t) /\ rx_app t' = rx_app t /\ rx_passed_unrecved t' = rx_passed_unrecved t /\
  bio_bytes_read t' = bio_bytes_read t /\ bio_bytes_appl t' = bio_bytes_appl t /\ ssl t' = ssl t /\ handshake_done t' = handshake_done t.

(** What was lent and not covered by the overhead becomes debt. *)
Lemma settle_spec ret t : 0 <= bp_loaned t <= bio_bytes_read t -> (bio_bytes_appl t = 0 -> ret + avail t <= bio_bytes_read t) -> let t' := settle ret t in
  same_but_window t t' /\
  if bio_bytes_appl t =? 0 then
    bp_loaned t' = 0 /\ given (tr t') - bp_debt t' = given (tr t) - bp_debt t + (bio_bytes_read t - (ret + avail t)) - bp_loaned t /\ bp_debt t <= bp_debt t' <= bp_debt t + (ret + avail t) `max` 0
  else t' = t.
Proof.
  intros Hl Hr. unfold settle. destruct (Z.eqb_spec (bio_bytes_appl t) 0) as [Ha|]; [|done]. specialize (Hr Ha). rewrite Z.max_r by lia. set (ov := bio_bytes_read t - _). destruct (Z.leb_spec (bp_loaned t) ov) as [Hle|Hgt].
  - assert (H1 : 0 <= ov - bp_loaned t) by lia. destruct (lower_recved_spec (ov - bp_loaned t) t H1) as (l & -> & G & R & L & _). cbn [tr bp_debt bp_loaned]. rewrite G. split; [by split_and!|]. split_and!; lia.
  - cbn [tr bp_debt bp_loaned]. split; [by split_and!|]. split_and!; lia.
Qed.

(** The state after the record's data is queued. *)
Lemma record_done_inv t app : handshake_done t = true -> bp_loaned t = 0 -> 0 < bio_bytes_appl t -> 0 <= bio_bytes_read t -> raw_held (ssl t) = 0 ->
  raw (tr t) = given (tr t) + (rx_passed_unrecved t + Z.of_nat (length app) + avail t) - bp_debt t ->
  0 <= bp_debt t <= rx_passed_unrecved t + Z.of_nat (length app) + avail t -> 0 <= rx_passed_unrecved t -> last_read (tr t) <> Some WANT_READ ->
  let t' := record_done t in inv {| t' with rx_app := Some app |}.
Proof.
  intros Hd Hl Ha Hr Hh He Hb Hp Hw. cbv zeta. pose proof (avail_nonneg (ssl t)). unfold record_done. destruct (Z.eqb_spec (avail t) 0) as [Ev|Ev].
  - split; unfold pend, held; cbn [ssl bio_bytes_appl tr rx_app rx_passed_unrecved bio_bytes_read bp_loaned bp_debt default from_option id]; rewrite ?Z.eqb_refl; try done; try lia; split; lia.
  - split; unfold pend, held; cbn [ssl bio_bytes_appl tr rx_app rx_passed_unrecved bio_bytes_read bp_loaned bp_debt default from_option id]; rewrite ?(proj2 (Z.eqb_neq (bio_bytes_appl t) 0)) by lia; try done; try lia; split_and!; lia.
Qed.

Lemma took_inv t t1 ret out : inv t -> handshake_done t = true -> exec w (mbedtls_ssl_read (ssl t) PBUF_POOL_BUFSIZE) t = (t1, ret, out) -> 0 < ret ->
  inv (took_plain ret out (log (TRead ret out) t1)).
Proof.
  intros I Hd E Hp. destruct (read_spec t t1 ret out I E) as (m & Hm & F & R & W & _ & HP). unfold fields in F. injection F as E1 E2 E3 E4 E5 E6 E7 E8 E9 E10 E11 E12 E13 E14.
  destruct I as [I1 I2 I3 I4 I5 _]. unfold pend, held in *. set (t2 := log (TRead ret out) t1).
  assert (V : raw (tr t2) = raw (tr t) + m /\ given (tr t2) = given (tr t) /\ last_read (tr t2) = Some ret).
  { unfold t2. cbn [log tr]. unfold raw, given in *. rewrite !sum_snoc, last_snoc. split_and!; [lia|lia|done]. } destruct V as (V1 & V2 & V3).
  assert (Hw : Some ret <> Some WANT_READ) by (intros [= ->]; lia). pose proof (avail_nonneg (ssl t1)) as Hav.
  assert (P : bio_bytes_appl t2 = bio_bytes_appl t /\ ssl t2 = ssl t1 /\ bio_bytes_read t2 = bio_bytes_read t1 /\ bp_loaned t2 = bp_loaned t /\ bp_debt t2 = bp_debt t /\
    rx_app t2 = rx_app t /\ rx_passed_unrecved t2 = rx_passed_unrecved t /\ handshake_done t2 = true) by (split_and!; try done; unfold t2; cbn [log handshake_done]; congruence). destruct P as (P1 & P2 & P3 & P4 & P5 & P6 & P7 & P8). clearbody t2.
  assert (L : Z.of_nat (length (take (Z.to_nat ret) out)) = ret) by (rewrite length_take; destruct (bio_bytes_appl t =? 0); [destruct HP as [HP _]; destruct (HP Hp) as [HP' _]; lia|lia]).
  assert (La : Z.of_nat (length (default [] (rx_app t) ++ take (Z.to_nat ret) out)) = Z.of_nat (length (default [] (rx_app t))) + ret) by (rewrite length_app; lia).
  destruct (settle_spec ret t2) as [(S1 & S2 & S3 & S4 & S5 & S6 & S7 & S8) HS]; [lia|rewrite P1, P2, P3; intros Ea; rewrite Ea, Z.eqb_refl in *; destruct HP as [HP _]; specialize (HP Hp); lia|].
  unfold took_plain. set (t3 := settle ret t2) in *. clearbody t3. cbv zeta. set (t4 := {| t3 with bio_bytes_appl := bio_bytes_appl t3 + ret |}). rewrite P1 in HS.
  assert (Hx : rx_app (record_done t4) = rx_app t) by (unfold record_done; destruct (mbedtls_ssl_get_bytes_avail (ssl t4) =? 0); cbn [rx_app t4]; congruence). rewrite Hx.
  destruct (Z.eqb_spec (bio_bytes_appl t) 0) as [Ea|Ea].
  - destruct HP as [HP _]. destruct (HP Hp) as (Ho & Hb & Hh). destruct I2 as [A0 A1]. destruct HS as (HS1 & HS2 & HS3). rewrite P2, P3, P4, P5, V2 in *.
    apply record_done_inv; unfold t4; cbn [handshake_done bp_loaned bio_bytes_appl bio_bytes_read ssl tr rx_passed_unrecved bp_debt]; rewrite ?S1, ?S2, ?S4, ?S5, ?S6, ?S7, ?S8, ?P2, ?P3, ?P7, ?P8, ?P1, ?V1, ?V3; try done; try lia.
  - subst t3. destruct HP as (Hm0 & _ & Ho & Hav' & Hh & _). destruct I2 as (A0 & A1 & A2 & A3).
    apply record_done_inv; unfold t4; cbn [handshake_done bp_loaned bio_bytes_appl bio_bytes_read ssl tr rx_passed_unrecved bp_debt]; rewrite ?P1, ?P2, ?P3, ?P4, ?P5, ?P7, ?P8, ?V1, ?V2, ?V3; try done; try lia.
Qed.

Lemma stalled_inv t t1 ret out : inv t -> handshake_done t = true -> exec w (mbedtls_ssl_read (ssl t) PBUF_POOL_BUFSIZE) t = (t1, ret, out) -> ret <= 0 ->
  let t2 := lend ret (log (TRead ret out) t1) in inv t2 /\ handshake_done t2 = true.
Proof.
  intros I Hd E Hr. destruct (read_spec t t1 ret out I E) as (m & Hm & F & R & W & _ & HP). unfold fields in F. injection F as E1 E2 E3 E4 E5 E6 E7 E8 E9 E10 E11 E12 E13 E14.
  destruct I as [I1 I2 I3 I4 I5 _]. unfold pend, held in *. set (t2 := log (TRead ret out) t1). cbv zeta.
  assert (V : raw (tr t2) = raw (tr t) + m /\ given (tr t2) = given (tr t) /\ last_read (tr t2) = Some ret).
  { unfold t2. cbn [log tr]. unfold raw, given in *. rewrite !sum_snoc, last_snoc. split_and!; [lia|lia|done]. } destruct V as (V1 & V2 & V3).
  assert (P : bio_bytes_appl t2 = bio_bytes_appl t /\ ssl t2 = ssl t1 /\ bio_bytes_read t2 = bio_bytes_read t + m /\ bp_loaned t2 = bp_loaned t /\ bp_debt t2 = bp_debt t /\
    rx_app t2 = rx_app t /\ rx_passed_unrecved t2 = rx_passed_unrecved t /\ handshake_done t2 = true) by (split_and!; try done; unfold t2; cbn [log handshake_done]; congruence). destruct P as (P1 & P2 & P3 & P4 & P5 & P6 & P7 & P8). clearbody t2.
  destruct (Z.eqb_spec (bio_bytes_appl t) 0) as [Ea|Ea]; [|lia]. destruct HP as [_ HP]. destruct (HP Hr) as [Ha Hh]. destruct I2 as [A0 A1]. rewrite <- P2 in Ha, Hh.
  unfold lend. destruct (Z.eqb_spec ret WANT_READ) as [->|Hne]; cbn [andb].
  - destruct (Z.ltb_spec (bp_loaned t2) (bio_bytes_read t2)) as [Hlt|Hge].
    + assert (H1 : 0 <= bio_bytes_read t2 - bp_loaned t2) by lia. destruct (lower_recved_spec (bio_bytes_read t2 - bp_loaned t2) t2 H1) as (l & -> & G & Rr & Ll & _). cbn [bio_bytes_read handshake_done]. split; [|done].
      split; unfold pend, held; cbn [ssl bio_bytes_appl tr rx_app rx_passed_unrecved bio_bytes_read bp_loaned bp_debt]; rewrite ?Rr, ?G, ?Ll, ?V1, ?V2, ?P1, ?P3, ?P4, ?P5, ?P6, ?P7, ?Ha, ?Ea; cbn [Z.eqb]; try done; try lia; split; lia.
    + split; [|done]. split; unfold pend, held; rewrite ?V1, ?V2, ?V3, ?P1, ?P3, ?P4, ?P5, ?P6, ?P7, ?Ha, ?Ea; cbn [Z.eqb]; try done; try lia; split; lia.
  - split; [|done]. split; unfold pend, held; rewrite ?V1, ?V2, ?V3, ?P1, ?P3, ?P4, ?P5, ?P6, ?P7, ?Ha, ?Ea; cbn [Z.eqb]; try done; try lia; try (split; lia). intros [= ->]. done.
Qed.

Lemma took_fields ret out t : handshake_done (took_plain ret out t) = handshake_done t /\ rx_app (took_plain ret out t) <> None.
Proof.
  split; [|done]. unfold took_plain, record_done. cbv zeta. cbn [handshake_done]. assert (Hs : handshake_done (settle ret t) = handshake_done t).
  { unfold settle. destruct (_ =? 0); [|done]. cbv zeta. cbn [handshake_done]. destruct (_ <=? _) eqn:Ele; [|done].
    set (ov := Z.max 0 _) in *. assert (H1 : 0 <= ov - bp_loaned t) by lia. by destruct (lower_recved_spec (ov - bp_loaned t) t H1) as (l & -> & _). }
  destruct (mbedtls_ssl_get_bytes_avail _ =? 0); exact Hs.
Qed.

Lemma rx_loop_inv k t t' e : inv t -> handshake_done t = true -> rx_loop w k t = Some (t', e) -> okt t'.
Proof.
  revert t. induction k as [|k IH]; intros t I Hd; [done|]. cbn [rx_loop]. destruct (negb _); [intros E; injection E as <- _; by split|].
  destruct (exec w _ t) as [[t1 ret] out] eqn:Ex. destruct (Z.ltb_spec ret 0) as [Hn|Hn].
  - destruct (stalled_inv t t1 ret out I Hd Ex ltac:(lia)) as [I2 H2]. destruct (ret =? CLIENT_RECONNECT) eqn:Ec; intros E; injection E as <- _; [|by split].
    apply Z.eqb_eq in Ec as ->. split; [|done]. exact H2.
  - destruct (Z.ltb_spec 0 ret) as [Hp|Hz].
    + pose proof (took_inv t t1 ret out I Hd Ex Hp) as I2. destruct (took_fields ret out (log (TRead ret out) t1)) as [F1 F2].
      set (t2 := took_plain _ _ _) in *. assert (Hd2 : handshake_done t2 = true).
      { rewrite F1. destruct (read_spec t t1 ret out I Ex) as (m & _ & F & _). unfold fields in F. cbn. congruence. } clearbody t2.
      destruct (altcp_mbedtls_pass_rx_data w t2) as [t3 e3] eqn:Ep. destruct (pass_inv t2 t3 e3 I2 Hd2 Ep) as [O3 I3].
      destruct (e3 =? ERR_ABRT); [intros E; by injection E as <- _|]. destruct (Z.eqb_spec e3 ERR_OK) as [->|]; cbn [negb]; [|intros E; by injection E as <- _].
      apply IH; [by apply I3|apply O3].
    + assert (ret = 0) as -> by lia. destruct (stalled_inv t t1 0 out I Hd Ex ltac:(lia)) as [I2 H2]. change (lend 0 _) with (log (TRead 0 out) t1) in *.
      destruct (altcp_mbedtls_pass_rx_data w (log (TRead 0 out) t1)) as [t3 e3] eqn:Ep. destruct (pass_inv _ t3 e3 I2 H2 Ep) as [O3 _].
      destruct (e3 =? ERR_ABRT); [intros E; by injection E as <- _|]. destruct (negb _); intros E; by injection E as <- _.
Qed.

Lemma handle_inv t t' e : inv t -> handshake_done t = true -> altcp_mbedtls_handle_rx_appldata w fuel t = Some (t', e) -> okt t'.
Proof.
  intros I Hd. unfold altcp_mbedtls_handle_rx_appldata. rewrite Hd. cbn [negb]. destruct (rx_app t) eqn:Er; [|by apply rx_loop_inv].
  destruct (altcp_mbedtls_pass_rx_data w t) as [t1 e1] eqn:Ep. destruct (pass_inv t t1 e1 I Hd Ep) as [O1 I1]. rewrite Er in I1.
  destruct (e1 =? ERR_ABRT); [intros E; by injection E as <- _|]. destruct (Z.eqb_spec e1 ERR_OK) as [->|]; cbn [negb orb]; [|intros E; by injection E as <- _].
  destruct (rx_app t1); [intros E; by injection E as <- _|]. apply rx_loop_inv; [by apply I1|apply O1].
Qed.

(** ** Before and after the handshake *)

Record pre (t : tls_t (C := C)) : Prop := {
  pre_view : (handshake_done t, rx_app t, rx_passed_unrecved t, bio_bytes_read t, bio_bytes_appl t, bp_loaned t, bp_debt t) = (false, None, 0, 0, 0, 0, 0);
  pre_avail : avail t = 0; pre_window : raw (tr t) = given (tr t); pre_reads : last_read (tr t) = None;
}.
Definition tok (t : tls_t (C := C)) : Prop := alive t = true -> handshake_done t = true /\ inv t \/ pre t.

Lemma okt_tok t : okt t -> tok t.
Proof. intros [Hd I] Ha. left. auto. Qed.
Lemma dead_tok t : alive t = false -> tok t.
Proof. unfold tok. congruence. Qed.

Lemma close_tok t : tok t -> tok (fst (altcp_mbedtls_close w t)).
Proof.
  intros Ht. unfold altcp_mbedtls_close. cbv zeta. destruct (_ =? ERR_OK); [by apply dead_tok|]. cbn [fst]. intros Ha. destruct (Ht Ha) as [[Hd I]|[P1 P2 P3 P4]].
  - left. split; [done|]. apply (inv_view t); [|done]. unfold view. cbn [log tr]. unfold raw, given. rewrite !sum_snoc, last_snoc, !Z.add_0_r. done.
  - right. split; [done|done| |]; cbn [log tr]; [unfold raw, given in *; rewrite !sum_snoc; lia|by rewrite last_snoc].
Qed.

Lemma tok_keeps t t' : keeps t t' -> tok t -> tok t'.
Proof.
  intros K Ht Ha. assert (Ha' : alive t = true) by (destruct K as (F & _); unfold fields in F; congruence). destruct (Ht Ha') as [[Hd I]|[P1 P2 P3 P4]].
  - left. destruct (inv_keeps _ _ K I) as (I' & E & _). rewrite E. by split.
  - right. destruct K as (F & R & W & A & _). unfold fields in F. injection F as E1 E2 E3 E4 E5 E6 E7 E8 E9 E10 E11 E12 E13 E14. split; [|by rewrite A|by rewrite W, E11|by rewrite E12].
    rewrite E1, E2, E6, R, E7, E8, E9. exact P1.
Qed.

Lemma ack_spec (t : tls_t (C := C)) : 0 <= bio_bytes_read t -> let t' := ack_handshake t in
  (rx_app t', rx_passed_unrecved t', bio_bytes_appl t', bp_loaned t', bp_debt t') = (rx_app t, rx_passed_unrecved t, bio_bytes_appl t, bp_loaned t, bp_debt t) /\
  (handshake_done t', ssl t', rx t', alive t') = (handshake_done t, ssl t, rx t, alive t) /\ bio_bytes_read t' = 0 /\
  raw (tr t') = raw (tr t) /\ given (tr t') = given (tr t) + bio_bytes_read t /\ last_read (tr t') = last_read (tr t).
Proof.
  intros Hr. unfold ack_handshake. destruct (Z.eqb_spec (bio_bytes_read t) 0) as [Hz|Hn]; cbn [negb]; [split_and!; try done; lia|].
  destruct (lower_recved_spec (bio_bytes_read t) t Hr) as (l & -> & G & R & L & _). cbv zeta. cbn [tr]. by rewrite G, R, L.
Qed.

(** The handshake takes bytes, acknowledges them all and leaves no record begun. *)
Lemma handshake_pre t t1 ret out : pre t -> exec w (mbedtls_ssl_handshake (ssl t)) t = (t1, ret, out) -> let t2 := ack_handshake (log TOutput t1) in
  pre t2 /\ (ret = 0 -> raw_held (ssl t2) = 0) /\ Z.of_nat (rx_left t2) + raw_held (ssl t2) <= Z.of_nat (rx_left t) + raw_held (ssl t).
Proof.
  intros [P1 P2 P3 P4] Ex. injection P1 as Q1 Q2 Q3 Q4 Q5 Q6 Q7. destruct (exec_spec _ _ _ _ _ _ _ (handshake_law (ssl t) P2) Ex) as (m & Hm & (La & Lr & Lh) & F & R & W & X).
  unfold fields in F. injection F as E1 E2 E3 E4 E5 E6 E7 E8 E9 E10 E11 E12 E13 E14. cbv zeta.
  destruct (ack_spec (log TOutput t1)) as (A1 & A2 & A3 & A4 & A5 & A6); [cbn [log bio_bytes_read]; lia|]. set (t2 := ack_handshake _) in *. clearbody t2.
  cbn [log rx_app rx_passed_unrecved bio_bytes_appl bp_loaned bp_debt handshake_done ssl rx alive tr bio_bytes_read] in *. injection A1 as B1 B2 B3 B4 B5. injection A2 as B6 B7 B8 B9. rewrite B7, B8.
  split; [|split; [done|lia]]. split; [by rewrite B6, B1, B2, A3, B3, B4, B5, E1, E2, E6, E7, E8, E9, Q1, Q2, Q3, Q5, Q6, Q7|by rewrite B7| |by rewrite A6, last_snoc, E12].
  rewrite A4, A5. unfold raw, given in *. rewrite !sum_snoc. lia.
Qed.

Lemma greeted_inv (t : tls_t (C := C)) e : pre t -> raw_held (ssl t) = 0 -> let t1 := {| t with handshake_done := true |} in inv (log (TConnected e) t1).
Proof.
  intros [U1 U2 U3 U4] Hh. cbv zeta. injection U1 as V1 V2 V3 V4 V5 V6 V7. set (t3 := log _ _). assert (G : raw (tr t3) = given (tr t3) /\ last_read (tr t3) = None) by (unfold t3; cbn [log tr]; unfold raw, given in *; rewrite !sum_snoc, last_snoc; split; [lia|done]).
  destruct G as [G1 G2]. split; unfold pend, held; rewrite ?G1, ?G2; cbn [t3 log rx_app rx_passed_unrecved bio_bytes_read bio_bytes_appl bp_loaned bp_debt ssl]; rewrite ?V2, ?V3, ?V4, ?V5, ?V6, ?V7, ?U2; cbn; rewrite ?Hh; try done; lia.
Qed.

Lemma close_dead (t : tls_t (C := C)) : snd (altcp_mbedtls_close w t) = ERR_OK -> alive (fst (altcp_mbedtls_close w t)) = false.
Proof. unfold altcp_mbedtls_close. cbv zeta. destruct (Z.eqb_spec (w_close w (now t)) ERR_OK); cbn [fst snd]; [done|congruence]. Qed.

Lemma process_tok t t' e : tok t -> alive t = true -> altcp_mbedtls_lower_recv_process w fuel t = Some (t', e) -> tok t'.
Proof.
  intros Ht Ha. unfold altcp_mbedtls_lower_recv_process. destruct (Ht Ha) as [[Hd I]|P]; [rewrite Hd; intros E; by eapply okt_tok, handle_inv|].
  pose proof P as [P1 _ _ _]. injection P1 as -> _ _ _ _ _ _. destruct (exec w _ t) as [[t1 ret] out] eqn:Ex. destruct (handshake_pre t t1 ret out P Ex) as (T2 & L2 & _).
  set (t2 := ack_handshake _) in *. clearbody t2. cbv zeta. destruct (_ || _); [intros E; injection E as <- _; by right|]. destruct (Z.eqb_spec ret 0) as [->|]; cbn [negb].
  - pose proof (greeted_inv t2 (w_connected w (now {| t2 with handshake_done := true |})) T2 (L2 eq_refl)) as I3. cbv zeta in I3. set (t3 := log (TConnected _) _) in *.
    destruct (negb _); [intros E; injection E as <- _; by left|]. destruct (rx t3); [intros E; injection E as <- _; by left|]. intros E. by eapply okt_tok, handle_inv.
  - pose proof (close_dead (log (TErr ERR_CLSD) t2)) as Hc. destruct (altcp_mbedtls_close w (log (TErr ERR_CLSD) t2)) as [t3 e3]. intros E. injection E as <- _.
    destruct (Z.eqb_spec e3 ERR_OK) as [->|]; [by apply dead_tok, Hc|by apply dead_tok].
Qed.

(** Steps keep it. *)
Lemma step_tok t o t' : tok t -> tstep w fuel t o = Some t' -> tok t'.
Proof.
  intros Ht. unfold tstep. destruct (alive t) eqn:Ha; cbn [negb]; [|by intros [= <-]]. assert (Hs : forall e, silent e = true -> tok (log e t)) by (intros e He; by apply (tok_keeps t), Ht; apply keeps_log).
  destruct o as [[p|]|len| |err|err|len|data| | |].
  - cbn [altcp_mbedtls_lower_recv]. destruct (altcp_mbedtls_lower_recv_process w fuel _) as [[t1 e]|] eqn:E; intros [= <-].
    eapply process_tok, E; [|done]. intros _. destruct (Ht Ha) as [[Hd I]|P]; [left; split; [done|by apply (inv_view t)]|right; by destruct P].
  - cbn [altcp_mbedtls_lower_recv]. destruct (handshake_done t && upper_called t) eqn:Hd.
    + apply andb_true_iff in Hd as [Hd _]. destruct (Ht Ha) as [[_ I]|[P _ _ _]]; [|injection P; congruence]. destruct (_ || _).
      * destruct (altcp_mbedtls_handle_rx_appldata w fuel _) as [[t1 e]|] eqn:E; intros [= <-]. eapply okt_tok, handle_inv, E; [by apply (inv_view t)|done].
      * destruct (app_recv w None _) as [t1 a] eqn:E. intros [= <-]. destruct (app_recv_spec None {| t with rx_closed := true |} t1 a) as [Hd1 Hx]; [by apply (inv_view t)|done|done|].
        destruct a; [apply okt_tok; by split; [|intros; apply Hx]|apply okt_tok; by split; [|intros; apply Hx]|by apply dead_tok|by apply dead_tok].
    + destruct (altcp_mbedtls_close w _) as [t1 e] eqn:E. intros [= <-]. pose proof (close_tok (log (TErr ERR_ABRT) t) (Hs (TErr ERR_ABRT) eq_refl)) as Hc. by rewrite E in Hc.
  - intros [= <-]. unfold altcp_mbedtls_lower_sent. cbv zeta. set (t1 := {| t with overhead_bytes_adjust := _ |}).
    assert (K : keeps t (altcp_mbedtls_flush_output w (log (TAcked (u16 len)) t1))) by (etransitivity; [|apply flush_keeps]; by apply (keeps_log (TAcked (u16 len)) t1)).
    destruct (negb _); [|by apply (tok_keeps t)]. apply (tok_keeps t); [|done]. etransitivity; [exact K|]. set (t2 := altcp_mbedtls_flush_output _ _). by apply (keeps_log (TSent _) {| t2 with overhead_bytes_adjust := _ |}).
  - unfold altcp_mbedtls_lower_poll. pose proof (tok_keeps _ _ (flush_keeps t) Ht) as Hf. set (t1 := altcp_mbedtls_flush_output w t) in *.
    assert (Ha1 : alive t1 = true) by (destruct (flush_keeps t) as (F & _); unfold fields in F; unfold t1; congruence). clearbody t1.
    destruct (altcp_mbedtls_handle_rx_appldata w fuel t1) as [[t2 e]|] eqn:E; intros [= <-]. assert (T2 : tok t2).
    { destruct (Hf Ha1) as [[Hd I]|P]; [by eapply okt_tok, handle_inv|]. revert E. unfold altcp_mbedtls_handle_rx_appldata. destruct P as [P ? ? ?]. injection P as -> _ _ _ _ _ _. by intros [= <- _]. }
    cbn [fst]. destruct (_ =? ERR_ABRT); [done|]. by apply (tok_keeps t2), T2; apply keeps_log.
  - unfold altcp_mbedtls_lower_connected. destruct (negb _); [intros [= <-]; by apply Hs|]. destruct (altcp_mbedtls_lower_recv_process w fuel _) as [[t1 e]|] eqn:E; intros [= <-].
    eapply process_tok, E; [|done]. intros _. destruct (Ht Ha) as [[Hd I]|P]; [left; split; [done|by apply (inv_view t)]|right; by destruct P].
  - intros [= <-]. by apply dead_tok.
  - intros [= <-] Ha'. destruct (Ht Ha) as [[Hd I]|P].
    + left. destruct (recved_inv len t I) as (I' & E & _). rewrite E. by split.
    + right. unfold altcp_mbedtls_recved. destruct P as [P1 ? ? ?]. injection P1 as Q1 Q2 Q3 Q4 Q5 Q6 Q7. rewrite Q1. cbn [negb]. split; try done. congruence.
  - intros [= <-]. by apply (tok_keeps t), Ht; apply write_keeps.
  - unfold altcp_tls_bp_kick. destruct (altcp_mbedtls_handle_rx_appldata w fuel t) as [[t2 e]|] eqn:E; intros [= <-].
    destruct (Ht Ha) as [[Hd I]|P]; [by eapply okt_tok, handle_inv|]. revert E. unfold altcp_mbedtls_handle_rx_appldata. pose proof P as [P1 ? ? ?]. injection P1 as -> _ _ _ _ _ _. intros [= <- _] _. by right.
  - intros [= <-]. by apply close_tok.
  - intros [= <-]. by apply dead_tok.
Qed.

Lemma setup_tok s : mbedtls_ssl_get_bytes_avail s = 0 -> tok (altcp_mbedtls_setup s).
Proof. intros Ha _. by right. Qed.

Lemma run_tok t ops t' : tok t -> trun w fuel t ops = Some t' -> tok t'.
Proof.
  revert t. induction ops as [|o ops IH]; intros t Ht; cbn [trun]; [by intros [= <-]|]. destruct (tstep w fuel t o) as [t1|] eqn:E; [|done].
  apply IH. by eapply step_tok.
Qed.


(** ** The plaintext reaches the application once and in order *)

Definition stream_ok (t : tls_t (C := C)) : Prop := plain (tr t) = taken (tr t) ++ default [] (rx_app t).
Definition stream (t : tls_t (C := C)) := (plain (tr t), taken (tr t), rx_app t).
Lemma stream_eq t t' : stream t' = stream t -> stream_ok t -> stream_ok t'.
Proof. unfold stream, stream_ok. intros E. injection E as -> -> ->. done. Qed.

Lemma call_any (c : ssl_call C) n : call_ok (fun _ _ _ _ => True) c n.
Proof. revert n. induction c as [len k IH|d k IH|s r o]; intros n; cbn; [intros; apply IH|intros; apply IH|done]. Qed.
Lemma exec_fields c t : fields (fst (fst (exec w c t))) = fields t.
Proof. destruct (exec w c t) as [[t' r] o] eqn:E. by destruct (exec_spec _ _ 0 _ _ _ _ (call_any c 0) E) as (m & _ & _ & F & _). Qed.
Lemma fields_stream t t' : fields t' = fields t -> stream t' = stream t.
Proof. unfold fields, stream. intros E. injection E. congruence. Qed.

Lemma stream_log e t : match e with TRead _ _ | TApp (Some _) true => False | _ => True end -> stream (log e t) = stream t.
Proof. unfold stream. cbn [log tr rx_app]. rewrite plain_snoc, taken_snoc. by destruct e as [| | | | | |[] []| | | | | | |]; try done; rewrite !app_nil_r. Qed.

Lemma stream_lower_recved n t : stream (altcp_mbedtls_lower_recved n t) = stream t.
Proof.
  unfold altcp_mbedtls_lower_recved. generalize (S (Z.to_nat (n / 65535))). intros k. revert n t. induction k as [|k IH]; intros n t; [done|]. cbn [recved_loop].
  destruct (0 <? n); [|done]. rewrite IH. by apply stream_log.
Qed.

Lemma stream_act t a : stream (act w t a) = stream t.
Proof.
  destruct a as [len|data].
  - cbn [act]. unfold altcp_mbedtls_recved. destruct (negb _); [done|]. cbv zeta. set (n := if _ <? _ then _ else u16 len). set (t1 := {| t with rx_passed_unrecved := _ |}).
    match goal with |- context [if ?c then log ?e ?x else ?x] => destruct c; [by rewrite (stream_log e x)|done] end.
  - apply fields_stream. by destruct (write_keeps data t).
Qed.
Lemma stream_acts acts t : stream (fold_left (act w) acts t) = stream t.
Proof. revert t. induction acts as [|a acts IH]; intros t; [done|]. cbn [fold_left]. by rewrite IH, stream_act. Qed.

Lemma abort_stream t : stream (altcp_mbedtls_abort t) = stream t.
Proof. unfold altcp_mbedtls_abort, altcp_mbedtls_lower_err. change (stream (altcp_mbedtls_dealloc ?x)) with (stream x). by rewrite (stream_log (TErr ERR_ABRT)), (stream_log TAbort). Qed.

Lemma app_recv_stream d t : let '(t', a) := app_recv w d t in
  stream t' = (plain (tr t), taken (tr t) ++ match d, a with Some x, Took _ | Some x, Closed _ | Some x, Aborted _ => x | _, _ => [] end, rx_app t).
Proof.
  unfold app_recv. destruct (w_app w (now t) d) as [acts|acts e|acts|acts].
  all: assert (L : forall b, stream (log (TApp d b) t) = (plain (tr t), taken (tr t) ++ match d, b with Some x, true => x | _, _ => [] end, rx_app t)) by
    (intros b; unfold stream; cbn [log tr rx_app]; rewrite plain_snoc, taken_snoc, app_nil_r; by destruct d, b).
  - rewrite stream_acts, L. by destruct d.
  - rewrite stream_acts, L. by destruct d.
  - change (stream (altcp_mbedtls_dealloc ?x)) with (stream x). rewrite stream_acts, L. by destruct d.
  - rewrite abort_stream, stream_acts, L. by destruct d.
Qed.

Lemma pass_stream t : stream_ok t -> stream_ok (fst (altcp_mbedtls_pass_rx_data w t)).
Proof.
  unfold stream_ok, altcp_mbedtls_pass_rx_data. intros Ht. destruct (rx_app t) as [buf|] eqn:Er.
  - cbv zeta. match goal with |- context [app_recv w _ ?x] => pose proof (app_recv_stream (Some buf) x) as A; destruct (app_recv w _ x) as [t1 a] end.
    unfold stream in A. cbn [tr rx_app] in A. injection A as A1 A2 A3. destruct a; cbn [fst tr rx_app]; rewrite A1, A2, ?A3, Ht; cbn [default from_option id]; by rewrite ?app_nil_r.
  - destruct (_ && _); [|cbn [fst]; rewrite ?Er in *; exact Ht]. match goal with |- context [app_recv w _ ?x] => pose proof (app_recv_stream None x) as A; destruct (app_recv w _ x) as [t1 a] end.
    unfold stream in A. cbn [tr rx_app] in A. injection A as A1 A2 A3. cbn [fst]. rewrite A1, A2, A3, app_nil_r. rewrite ?Er in *. exact Ht.
Qed.

Lemma lend_stream ret t : stream (lend ret t) = stream t.
Proof. unfold lend. destruct (_ && _); [|done]. cbv zeta. exact (stream_lower_recved _ t). Qed.

Lemma took_stream ret out t : 0 < ret -> stream_ok t -> stream_ok (took_plain ret out (log (TRead ret out) t)).
Proof.
  intros Hp Ht. unfold took_plain. set (t1 := log (TRead ret out) t). assert (E : stream (settle ret t1) = stream t1).
  { unfold settle. destruct (_ =? 0); [|done]. cbv zeta. destruct (_ <=? _); [|done]. exact (stream_lower_recved _ t1). }
  set (t2 := settle ret t1) in *. cbv zeta. set (t3 := {| t2 with bio_bytes_appl := _ |}). assert (E3 : stream (record_done t3) = stream t1) by (rewrite <- E; unfold record_done; by destruct (_ =? 0)).
  set (t4 := record_done t3) in *. clearbody t4. unfold stream_ok, stream in *. cbn [tr rx_app default from_option id]. injection E3 as -> -> ->. unfold t1. cbn [log tr rx_app].
  rewrite plain_snoc, taken_snoc, app_nil_r, Ht. by rewrite <- app_assoc.
Qed.

Lemma rx_loop_stream k t t' e : stream_ok t -> rx_loop w k t = Some (t', e) -> stream_ok t'.
Proof.
  revert t. induction k as [|k IH]; intros t Ht; [done|]. cbn [rx_loop]. destruct (negb _); [by intros [= <- _]|].
  pose proof (exec_fields (mbedtls_ssl_read (ssl t) PBUF_POOL_BUFSIZE) t) as F. destruct (exec w _ t) as [[t1 ret] out]. cbn [fst] in F.
  assert (H1 : stream_ok t1) by (eapply stream_eq, Ht; by apply fields_stream).
  assert (H2 : ret <= 0 -> stream_ok (log (TRead ret out) t1)).
  { intros Hr. unfold stream_ok in *. cbn [log tr rx_app]. rewrite plain_snoc, taken_snoc. replace (Z.to_nat ret) with 0%nat by lia. by rewrite take_0, !app_nil_r. }
  destruct (Z.ltb_spec ret 0).
  - destruct (ret =? CLIENT_RECONNECT); intros [= <- _].
    + eapply stream_eq, H2; [apply abort_stream|lia].
    + eapply stream_eq, H2; [apply lend_stream|lia].
  - destruct (Z.ltb_spec 0 ret) as [Hp|Hz].
    + pose proof (pass_stream _ (took_stream ret out t1 Hp H1)) as T3. destruct (altcp_mbedtls_pass_rx_data w _) as [t3 e3]. cbn [fst] in T3.
      destruct (_ =? ERR_ABRT); [by intros [= <- _]|]. destruct (negb _); [by intros [= <- _]|]. by apply IH.
    + pose proof (pass_stream _ (H2 ltac:(lia))) as T3. destruct (altcp_mbedtls_pass_rx_data w _) as [t3 e3]. cbn [fst] in T3.
      destruct (_ =? ERR_ABRT); [by intros [= <- _]|]. destruct (negb _); by intros [= <- _].
Qed.

Lemma handle_stream t t' e : stream_ok t -> altcp_mbedtls_handle_rx_appldata w fuel t = Some (t', e) -> stream_ok t'.
Proof.
  intros Ht. unfold altcp_mbedtls_handle_rx_appldata. destruct (negb _); [by intros [= <- _]|]. destruct (rx_app t); [|by apply rx_loop_stream].
  pose proof (pass_stream t Ht) as H1. destruct (altcp_mbedtls_pass_rx_data w t) as [t1 e1]. cbn [fst] in H1. destruct (_ =? ERR_ABRT); [by intros [= <- _]|].
  destruct (_ || _); [by intros [= <- _]|]. by apply rx_loop_stream.
Qed.

Lemma process_stream t t' e : stream_ok t -> altcp_mbedtls_lower_recv_process w fuel t = Some (t', e) -> stream_ok t'.
Proof.
  intros Ht. unfold altcp_mbedtls_lower_recv_process. destruct (handshake_done t); [by apply handle_stream|].
  pose proof (exec_fields (mbedtls_ssl_handshake (ssl t)) t) as F. destruct (exec w _ t) as [[t1 ret] out]. cbn [fst] in F. apply fields_stream in F. cbv zeta.
  set (t2 := ack_handshake _). assert (S2 : stream t2 = stream t).
  { unfold t2, ack_handshake. destruct (negb _); [|by rewrite stream_log]. transitivity (stream (altcp_mbedtls_lower_recved (bio_bytes_read (log TOutput t1)) (log TOutput t1))); [done|]. by rewrite stream_lower_recved, stream_log. }
  clearbody t2. destruct (_ || _); [intros [= <- _]; by eapply stream_eq|]. destruct (negb (ret =? 0)).
  - unfold altcp_mbedtls_close. cbv zeta. set (t3 := log (TClose _) _). assert (S3 : stream t3 = stream t) by (unfold t3; by rewrite !stream_log).
    destruct (w_close w _ =? ERR_OK).
    + cbn [Z.eqb]. intros [= <- _]. by apply (stream_eq t).
    + destruct (_ =? ERR_OK); intros [= <- _]; [by apply (stream_eq t)|]. apply (stream_eq t); [|done]. by rewrite abort_stream.
  - set (t3 := log (TConnected _) _). assert (S3 : stream t3 = stream t).
    { unfold t3. rewrite stream_log by done. rewrite <- S2. done. }
    destruct (negb _); [intros [= <- _]; by apply (stream_eq t)|]. destruct (rx t3); [intros [= <- _]; by apply (stream_eq t)|]. apply handle_stream. by apply (stream_eq t).
Qed.

Lemma keeps_stream t t' : keeps t t' -> stream t' = stream t.
Proof. intros (F & _). by apply fields_stream. Qed.
Lemma close_stream t : stream (fst (altcp_mbedtls_close w t)) = stream t.
Proof. unfold altcp_mbedtls_close. cbv zeta. destruct (_ =? ERR_OK); cbn [fst]; [|by rewrite stream_log]. change (stream (altcp_mbedtls_dealloc ?x)) with (stream x). by rewrite stream_log. Qed.

Lemma step_stream t o t' : stream_ok t -> tstep w fuel t o = Some t' -> stream_ok t'.
Proof.
  intros Ht. unfold tstep. destruct (negb (alive t)); [by intros [= <-]|]. destruct o as [[p|]|len| |err|err|len|data| | |].
  - cbn [altcp_mbedtls_lower_recv]. destruct (altcp_mbedtls_lower_recv_process w fuel _) as [[t1 e]|] eqn:E; intros [= <-]. by eapply process_stream, E.
  - cbn [altcp_mbedtls_lower_recv]. destruct (_ && _).
    + destruct (_ || _).
      * destruct (altcp_mbedtls_handle_rx_appldata w fuel _) as [[t1 e]|] eqn:E; intros [= <-]. by eapply handle_stream, E.
      * pose proof (app_recv_stream None {| t with rx_closed := true |}) as A. destruct (app_recv w None _) as [t1 a]. intros [= <-]. eapply stream_eq, Ht. rewrite A. unfold stream. cbn [tr rx_app]. by rewrite app_nil_r.
    + pose proof (close_stream (log (TErr ERR_ABRT) t)) as Hc. destruct (altcp_mbedtls_close w _) as [t1 e]. intros [= <-]. eapply stream_eq, Ht. cbn [fst] in Hc. rewrite Hc. by rewrite stream_log.
  - intros [= <-]. eapply stream_eq, Ht. unfold altcp_mbedtls_lower_sent. cbv zeta. set (t1 := {| t with overhead_bytes_adjust := _ |}).
    assert (K : stream (altcp_mbedtls_flush_output w (log (TAcked (u16 len)) t1)) = stream t) by (rewrite (keeps_stream _ _ (flush_keeps _)); by rewrite stream_log).
    set (t2 := altcp_mbedtls_flush_output _ _) in *. destruct (negb _); [|done]. by rewrite stream_log.
  - unfold altcp_mbedtls_lower_poll. destruct (altcp_mbedtls_handle_rx_appldata w fuel _) as [[t2 e]|] eqn:E; intros [= <-].
    assert (T2 : stream_ok t2) by (eapply handle_stream, E; eapply stream_eq, Ht; apply keeps_stream, flush_keeps). cbn [fst]. destruct (_ =? ERR_ABRT); [done|]. eapply stream_eq, T2. by apply stream_log.
  - unfold altcp_mbedtls_lower_connected. destruct (negb _); [intros [= <-]; eapply stream_eq, Ht; by apply stream_log|].
    destruct (altcp_mbedtls_lower_recv_process w fuel _) as [[t1 e]|] eqn:E; intros [= <-]. by eapply process_stream, E.
  - intros [= <-]. eapply stream_eq, Ht. unfold altcp_mbedtls_lower_err. change (stream (altcp_mbedtls_dealloc ?x)) with (stream x). by apply stream_log.
  - intros [= <-]. eapply stream_eq, Ht. exact (stream_act t (ARecved len)).
  - intros [= <-]. eapply stream_eq, Ht. exact (stream_act t (AWrite data)).
  - unfold altcp_tls_bp_kick. destruct (altcp_mbedtls_handle_rx_appldata w fuel t) as [[t2 e]|] eqn:E; intros [= <-]. by eapply handle_stream, E.
  - intros [= <-]. eapply stream_eq, Ht. apply close_stream.
  - intros [= <-]. eapply stream_eq, Ht. apply abort_stream.
Qed.

(** C31: the application gets the plaintext once and in order. In any run, however
    often it refuses, what mbedTLS decrypted is what the application took so far,
    in order, followed by the refused bytes that will be offered to it first. *)
Theorem plaintext_in_order s ops t : trun w fuel (altcp_mbedtls_setup s) ops = Some t -> plain (tr t) = taken (tr t) ++ default [] (rx_app t).
Proof.
  assert (H0' : stream_ok (altcp_mbedtls_setup s)) by done. revert H0'. generalize (altcp_mbedtls_setup s). induction ops as [|o ops IH]; intros t0 Ht0; cbn [trun]; [by intros [= <-]|].
  destruct (tstep w fuel t0 o) as [t1|] eqn:E; [|done]. apply IH. by eapply step_stream.
Qed.

(** ** The [sent] counts *)

Definition sent_sum : list tev -> Z := sum_of (fun e => match e with TSent n => n | _ => 0 end).
Definition wrote_sum : list tev -> Z := sum_of (fun e => match e with TAppWrote n => n | _ => 0 end).
Definition written_sum : list tev -> Z := sum_of (fun e => match e with TWrite d 0 => Z.of_nat (length d) | _ => 0 end).
Definition acked_sum : list tev -> Z := sum_of (fun e => match e with TAcked n => n | _ => 0 end).

(** [overhead_bytes_adjust] is what is written but not acknowledged, below less above. *)
Definition balance (t : tls_t (C := C)) : Z := overhead_bytes_adjust t - (written_sum (tr t) - acked_sum (tr t) - wrote_sum (tr t) + sent_sum (tr t)).
Definition counts (t t' : tls_t (C := C)) : Prop :=
  balance t' = balance t /\ sent_sum (tr t') = sent_sum (tr t) /\ wrote_sum (tr t) <= wrote_sum (tr t').
#[local] Instance counts_preorder : PreOrder counts.
Proof. split; [intros t; unfold counts; lia|]. unfold counts. intros t1 t2 t3 (? & ? & ?) (? & ? & ?). split_and!; lia. Qed.
#[local] Arguments sent_sum _ : simpl never.
#[local] Arguments wrote_sum _ : simpl never.
#[local] Arguments written_sum _ : simpl never.
#[local] Arguments acked_sum _ : simpl never.

Lemma counts_same t t' : tr t' = tr t -> overhead_bytes_adjust t' = overhead_bytes_adjust t -> counts t t'.
Proof. unfold counts, balance. intros -> ->. split_and!; lia. Qed.
Lemma counts_log e t : match e with TWrite _ _ | TAcked _ | TSent _ | TAppWrote _ => False | _ => True end -> counts t (log e t).
Proof. intros He. unfold counts, balance. cbn [log tr overhead_bytes_adjust]. unfold sent_sum, wrote_sum, written_sum, acked_sum. rewrite !sum_snoc. destruct e; try done; lia. Qed.
Lemma counts_write d e t n : (e = 0 -> n = Z.of_nat (length d)) -> (e <> 0 -> n = 0) -> let t1 := log (TWrite d e) t in counts t {| t1 with overhead_bytes_adjust := overhead_bytes_adjust t + n |}.
Proof.
  intros H1 H2. unfold counts, balance. cbn [log tr overhead_bytes_adjust]. unfold sent_sum, wrote_sum, written_sum, acked_sum. rewrite !sum_snoc. destruct (Z.eq_dec e 0) as [->|Hne].
  - rewrite H1 by done. lia.
  - rewrite H2 by done. destruct e; [done|lia|lia].
Qed.

Lemma counts_send k data n t : counts t (fst (send_loop w k data n t)).
Proof.
  revert data n t. induction k as [|k IH]; intros data n t; [done|]. cbn [send_loop]. destruct data as [|x data]; [done|]. cbv zeta. set (part := take CHUNK (x :: data)). set (e := w_write w (now t) part).
  destruct (Z.eqb_spec e ERR_OK) as [->|Hne].
  - etransitivity; [|apply IH]. exact (counts_write part 0 t (Z.of_nat (length part)) (fun _ => eq_refl) ltac:(done)).
  - assert (Hc : counts t (log (TWrite part e) t)).
    { pose proof (counts_write part e t 0 ltac:(done) ltac:(done)) as Hc. cbv zeta in Hc. etransitivity; [exact Hc|]. apply counts_same; [done|]. cbn [overhead_bytes_adjust log]. lia. }
    destruct (_ =? ERR_MEM); exact Hc.
Qed.

Lemma counts_exec c t : counts t (fst (fst (exec w c t))).
Proof.
  revert t. induction c as [len k IH|d k IH|s r o]; intros t; cbn [exec].
  - assert (Hc : counts t (fst (fst (altcp_mbedtls_bio_recv len t)))).
    { unfold altcp_mbedtls_bio_recv. assert (H0' : forall n rx' rd, counts t (log (TRaw n) {| t with rx := rx'; bio_bytes_read := rd |})) by (intros n rx' rd; set (t1 := {| t with rx := rx'; bio_bytes_read := rd |}); transitivity t1; [by apply counts_same|by apply counts_log]).
      destruct (rx t) as [|[|x p] [|q rest]]; cbn [fst]; first [by apply counts_same|apply H0']. }
    destruct (altcp_mbedtls_bio_recv len t) as [[t1 r] d]. etransitivity; [exact Hc|apply IH].
  - pose proof (counts_send (S (length d)) d 0 t) as Hc. unfold altcp_mbedtls_bio_send. destruct (send_loop _ _ _ _ _) as [t1 r]. etransitivity; [exact Hc|apply IH].
  - by apply counts_same.
Qed.

Lemma counts_flush t : counts t (altcp_mbedtls_flush_output w t).
Proof. unfold altcp_mbedtls_flush_output. pose proof (counts_exec (mbedtls_ssl_flush_output (ssl t)) t) as Hc. by destruct (exec _ _ _) as [[t1 r] o]. Qed.

Lemma counts_lower_recved n t : counts t (altcp_mbedtls_lower_recved n t).
Proof.
  unfold altcp_mbedtls_lower_recved. generalize (S (Z.to_nat (n / 65535))). intros k. revert n t. induction k as [|k IH]; intros n t; [done|]. cbn [recved_loop].
  destruct (0 <? n); [|done]. etransitivity; [|apply IH]. by apply counts_log.
Qed.

Lemma counts_app_write t n : 0 <= n -> let t1 := {| t with overhead_bytes_adjust := overhead_bytes_adjust t - n |} in counts t (log (TAppWrote n) t1).
Proof.
  intros Hn. unfold counts, balance. cbn [log tr overhead_bytes_adjust]. unfold sent_sum, wrote_sum, written_sum, acked_sum. rewrite !sum_snoc. lia.
Qed.

Lemma counts_act_write data t : counts t (fst (altcp_mbedtls_write w data t)).
Proof.
  unfold altcp_mbedtls_write. destruct (negb (handshake_done t)); [done|]. match goal with |- context [if ?c then ?x else t] => set (t1 := if c then x else t) end.
  assert (K1 : counts t t1) by (unfold t1; destruct (negb _); [apply counts_flush|done]). clearbody t1. destruct (negb (out_left (ssl t1) =? 0)); [exact K1|].
  pose proof (counts_exec (mbedtls_ssl_write (ssl t1) data) t1) as Hk. destruct (exec _ _ _) as [[t2 r] out]. cbn [fst] in Hk.
  assert (K2 : counts t (log TOutput t2)) by (etransitivity; [exact K1|]; etransitivity; [exact Hk|]; by apply counts_log). set (t3 := log TOutput t2) in *. clearbody t3.
  destruct (Z.leb_spec 0 r) as [Hr|Hr]; [|destruct (_ =? WANT_WRITE); exact K2]. destruct (_ =? Z.of_nat _); [|exact K2]. cbn [fst]. etransitivity; [exact K2|]. by apply counts_app_write.
Qed.

Lemma counts_act t a : counts t (act w t a).
Proof.
  destruct a as [len|data]; [|apply counts_act_write]. cbn [act]. unfold altcp_mbedtls_recved. destruct (negb _); [done|]. cbv zeta. set (n := if _ <? _ then _ else u16 len). set (t1 := {| t with rx_passed_unrecved := _ |}).
  match goal with |- context [if ?c then log ?e ?x else ?x] => assert (Hx : counts t x) by (by apply counts_same); destruct c; [|exact Hx]; etransitivity; [exact Hx|by apply counts_log] end.
Qed.
Lemma counts_acts acts t : counts t (fold_left (act w) acts t).
Proof. revert t. induction acts as [|a acts IH]; intros t; [done|]. cbn [fold_left]. etransitivity; [apply counts_act|apply IH]. Qed.

Lemma counts_dealloc t : counts t (altcp_mbedtls_dealloc t).
Proof. by apply counts_same. Qed.
Lemma counts_abort t : counts t (altcp_mbedtls_abort t).
Proof. unfold altcp_mbedtls_abort, altcp_mbedtls_lower_err. etransitivity; [|apply counts_dealloc]. etransitivity; [by apply (counts_log TAbort)|by apply counts_log]. Qed.
Lemma counts_close t : counts t (fst (altcp_mbedtls_close w t)).
Proof. unfold altcp_mbedtls_close. cbv zeta. destruct (_ =? ERR_OK); cbn [fst]; [etransitivity; [|apply counts_dealloc]|]; by apply counts_log. Qed.

Lemma counts_app_recv d t : counts t (fst (app_recv w d t)).
Proof.
  unfold app_recv. assert (L : forall b acts, counts t (fold_left (act w) acts (log (TApp d b) t))) by (intros b acts; etransitivity; [|apply counts_acts]; by apply counts_log).
  destruct (w_app w (now t) d); cbn [fst]; [apply L|apply L|etransitivity; [apply L|apply counts_dealloc]|etransitivity; [apply L|apply counts_abort]].
Qed.

Lemma counts_pass t : counts t (fst (altcp_mbedtls_pass_rx_data w t)).
Proof.
  unfold altcp_mbedtls_pass_rx_data. destruct (rx_app t) as [buf|].
  - cbv zeta. match goal with |- context [app_recv w ?d ?x] => pose proof (counts_app_recv d x) as Hc; destruct (app_recv w d x) as [t1 a] end. cbn [fst] in Hc.
    assert (H1 : counts t t1) by (etransitivity; [|exact Hc]; by apply counts_same). destruct a; cbn [fst]; exact H1.
  - destruct (_ && _); [|done]. match goal with |- context [app_recv w ?d ?x] => pose proof (counts_app_recv d x) as Hc; destruct (app_recv w d x) as [t1 a] end. cbn [fst] in *. etransitivity; [|exact Hc]. by apply counts_same.
Qed.

Lemma counts_took ret out t : counts t (took_plain ret out t).
Proof.
  unfold took_plain. assert (Hs : counts t (settle ret t)).
  { unfold settle. destruct (_ =? 0); [|done]. cbv zeta. destruct (_ <=? _); [|by apply counts_same].
    match goal with |- context [altcp_mbedtls_lower_recved ?n ?x] => pose proof (counts_lower_recved n x) as Hc; set (t1 := altcp_mbedtls_lower_recved n x) in * end. etransitivity; [exact Hc|by apply counts_same]. }
  set (t2 := settle ret t) in *. cbv zeta. set (t3 := {| t2 with bio_bytes_appl := _ |}). assert (H3 : counts t (record_done t3)) by (etransitivity; [exact Hs|]; unfold record_done; destruct (_ =? 0); by apply counts_same).
  set (t4 := record_done t3) in *. etransitivity; [exact H3|by apply counts_same].
Qed.
Lemma counts_lend ret t : counts t (lend ret t).
Proof.
  unfold lend. destruct (_ && _); [|done]. cbv zeta. match goal with |- context [altcp_mbedtls_lower_recved ?n ?x] => pose proof (counts_lower_recved n x) as Hc; set (t1 := altcp_mbedtls_lower_recved n x) in * end.
  etransitivity; [exact Hc|by apply counts_same].
Qed.

Lemma counts_loop k t t' e : rx_loop w k t = Some (t', e) -> counts t t'.
Proof.
  revert t. induction k as [|k IH]; intros t; [done|]. cbn [rx_loop]. destruct (negb _); [by intros [= <- _]|].
  pose proof (counts_exec (mbedtls_ssl_read (ssl t) PBUF_POOL_BUFSIZE) t) as F. destruct (exec w _ t) as [[t1 ret] out]. cbn [fst] in F.
  assert (H1 : counts t (log (TRead ret out) t1)) by (etransitivity; [exact F|by apply counts_log]). set (t2 := log (TRead ret out) t1) in *. clearbody t2.
  destruct (ret <? 0); [destruct (ret =? CLIENT_RECONNECT); intros [= <- _]; (etransitivity; [exact H1|]); [apply counts_abort|apply counts_lend]|].
  set (t3 := if 0 <? ret then took_plain ret out t2 else t2). assert (H3 : counts t t3) by (unfold t3; destruct (0 <? ret); [etransitivity; [exact H1|apply counts_took]|exact H1]). clearbody t3.
  pose proof (counts_pass t3) as Hp. destruct (altcp_mbedtls_pass_rx_data w t3) as [t4 e4]. cbn [fst] in Hp. assert (H4 : counts t t4) by (etransitivity; [exact H3|exact Hp]).
  destruct (_ =? ERR_ABRT); [by intros [= <- _]|]. destruct (negb _); [by intros [= <- _]|]. destruct (0 <? ret); [|by intros [= <- _]].
  intros E. etransitivity; [exact H4|by eapply IH].
Qed.

Lemma counts_handle t t' e : altcp_mbedtls_handle_rx_appldata w fuel t = Some (t', e) -> counts t t'.
Proof.
  unfold altcp_mbedtls_handle_rx_appldata. destruct (negb _); [by intros [= <- _]|]. destruct (rx_app t); [|by apply counts_loop].
  pose proof (counts_pass t) as Hp. destruct (altcp_mbedtls_pass_rx_data w t) as [t1 e1]. cbn [fst] in Hp. destruct (_ =? ERR_ABRT); [by intros [= <- _]|].
  destruct (_ || _); [by intros [= <- _]|]. intros E. etransitivity; [exact Hp|by eapply counts_loop].
Qed.

Lemma counts_process t t' e : altcp_mbedtls_lower_recv_process w fuel t = Some (t', e) -> counts t t'.
Proof.
  unfold altcp_mbedtls_lower_recv_process. destruct (handshake_done t); [by apply counts_handle|].
  pose proof (counts_exec (mbedtls_ssl_handshake (ssl t)) t) as F. destruct (exec w _ t) as [[t1 ret] out]. cbn [fst] in F. cbv zeta.
  set (t2 := ack_handshake _). assert (S1 : counts t (log TOutput t1)) by (etransitivity; [exact F|by apply counts_log]).
  assert (S2 : counts t t2).
  { unfold t2, ack_handshake. destruct (negb _); [|exact S1]. etransitivity; [exact S1|]. etransitivity; [apply (counts_lower_recved (bio_bytes_read (log TOutput t1)) (log TOutput t1))|]. by apply counts_same. }
  clearbody t2. destruct (_ || _); [by intros [= <- _]|]. destruct (negb (ret =? 0)).
  - pose proof (counts_close (log (TErr ERR_CLSD) t2)) as Hc. destruct (altcp_mbedtls_close w _) as [t3 e3]. cbn [fst] in Hc.
    assert (S3 : counts t t3) by (etransitivity; [exact S2|]; etransitivity; [|exact Hc]; by apply counts_log). destruct (_ =? ERR_OK); intros [= <- _]; [exact S3|]. etransitivity; [exact S3|apply counts_abort].
  - set (t3 := log (TConnected _) _). assert (S3 : counts t t3) by (etransitivity; [exact S2|]; unfold t3; etransitivity; [|by apply counts_log]; by apply counts_same).
    destruct (negb _); [by intros [= <- _]|]. destruct (rx t3); [by intros [= <- _]|]. intros E. etransitivity; [exact S3|by eapply counts_handle].
Qed.

Lemma counts_step t o t' : match o with OSent _ => False | OConnected _ => tr t = [] /\ overhead_bytes_adjust t = 0 | _ => True end ->
  tstep w fuel t o = Some t' -> counts t t'.
Proof.
  intros Ho. unfold tstep. destruct (negb (alive t)); [by intros [= <-]|]. destruct o as [[p|]|len| |err|err|len|data| | |]; [| |done|..].
  - cbn [altcp_mbedtls_lower_recv]. destruct (altcp_mbedtls_lower_recv_process w fuel _) as [[t1 e]|] eqn:E; intros [= <-]. etransitivity; [|by eapply counts_process]. by apply counts_same.
  - cbn [altcp_mbedtls_lower_recv]. destruct (_ && _).
    + destruct (_ || _).
      * destruct (altcp_mbedtls_handle_rx_appldata w fuel _) as [[t1 e]|] eqn:E; intros [= <-]. etransitivity; [|by eapply counts_handle]. by apply counts_same.
      * pose proof (counts_app_recv None {| t with rx_closed := true |}) as A. destruct (app_recv w None _) as [t1 a]. intros [= <-]. etransitivity; [|exact A]. by apply counts_same.
    + pose proof (counts_close (log (TErr ERR_ABRT) t)) as Hc. destruct (altcp_mbedtls_close w _) as [t1 e]. intros [= <-]. etransitivity; [|exact Hc]. by apply counts_log.
  - unfold altcp_mbedtls_lower_poll. destruct (altcp_mbedtls_handle_rx_appldata w fuel _) as [[t2 e]|] eqn:E; intros [= <-].
    assert (T2 : counts t t2) by (etransitivity; [apply counts_flush|by eapply counts_handle]). cbn [fst]. destruct (_ =? ERR_ABRT); [done|]. etransitivity; [exact T2|by apply counts_log].
  - unfold altcp_mbedtls_lower_connected. destruct (negb _); [intros [= <-]; by apply counts_log|].
    destruct (altcp_mbedtls_lower_recv_process w fuel _) as [[t1 e]|] eqn:E; intros [= <-]. etransitivity; [|by eapply counts_process]. apply counts_same; [done|]. by destruct Ho as [_ ->].
  - intros [= <-]. unfold altcp_mbedtls_lower_err. etransitivity; [|apply counts_dealloc]. by apply counts_log.
  - intros [= <-]. exact (counts_act t (ARecved len)).
  - intros [= <-]. exact (counts_act t (AWrite data)).
  - unfold altcp_tls_bp_kick. destruct (altcp_mbedtls_handle_rx_appldata w fuel t) as [[t2 e]|] eqn:E; intros [= <-]. by eapply counts_handle.
  - intros [= <-]. apply counts_close.
  - intros [= <-]. apply counts_abort.
Qed.

Lemma sent_step t len t' : balance t = 0 -> sent_sum (tr t) <= wrote_sum (tr t) -> acked_sum (tr t) + u16 len <= written_sum (tr t) ->
  tstep w fuel t (OSent len) = Some t' -> balance t' = 0 /\ sent_sum (tr t') <= wrote_sum (tr t').
Proof.
  intros Hb Hs Ha. unfold tstep. destruct (negb (alive t)); intros [= <-]; [done|]. unfold altcp_mbedtls_lower_sent. cbv zeta. pose proof (u16_range len). set (n := u16 len) in *.
  pose proof (out_left_nonneg (ssl t)) as Ho. set (t1 := {| t with overhead_bytes_adjust := overhead_bytes_adjust t - n |}). set (t2 := log (TAcked n) t1).
  assert (H2 : balance t2 = 0 /\ sent_sum (tr t2) = sent_sum (tr t) /\ wrote_sum (tr t2) = wrote_sum (tr t)).
  { unfold balance in *. unfold t2, t1. cbn [log tr overhead_bytes_adjust]. unfold sent_sum, wrote_sum, written_sum, acked_sum in *. rewrite !sum_snoc. lia. }
  destruct H2 as (B2 & S2 & W2). destruct (counts_flush t2) as (B3 & S3 & W3). set (t3 := altcp_mbedtls_flush_output w t2) in *. clearbody t3. clearbody t2.
  set (ov := if _ || _ then n else _). destruct (negb (n - ov =? 0)) eqn:En; [|lia].
  assert (Hov : ov = overhead_bytes_adjust t + out_left (ssl t)).
  { unfold ov in *. destruct (_ || _); [|done]. rewrite Z.sub_diag in En. done. }
  unfold balance in *. cbn [log tr overhead_bytes_adjust]. unfold sent_sum, wrote_sum, written_sum, acked_sum in *. rewrite !sum_snoc. lia.
Qed.

(** TCP acknowledges no more than was written, and says it is connected first. *)
Fixpoint tcp_ok (t : tls_t (C := C)) (ops : list top) : Prop :=
  match ops with
  | [] => True
  | o :: ops =>
      match o with OSent len => acked_sum (tr t) + u16 len <= written_sum (tr t) | OConnected _ => tr t = [] | _ => True end /\
      match tstep w fuel t o with Some t' => tcp_ok t' ops | None => True end
  end.

(** The application is never told that more was sent than it wrote. The counts
    of the [sent] callback, from which TLS overhead is taken off, never add up to
    more than the data accepted by [altcp_write], in any run in which TCP
    acknowledges only what was written to it. *)
Theorem sent_never_early s ops t : tcp_ok (altcp_mbedtls_setup s) ops -> trun w fuel (altcp_mbedtls_setup s) ops = Some t ->
  sent_sum (tr t) <= wrote_sum (tr t).
Proof.
  assert (G : balance (altcp_mbedtls_setup s) = 0 /\ sent_sum (tr (altcp_mbedtls_setup s)) <= wrote_sum (tr (altcp_mbedtls_setup s))) by done.
  revert G. generalize (altcp_mbedtls_setup s). induction ops as [|o ops IH]; intros t0 [B0 S0]; cbn [trun tcp_ok]; [by intros _ [= <-]|].
  intros [Ho Hr]. destruct (tstep w fuel t0 o) as [t1|] eqn:E; [|done]. apply IH; [|done]. destruct o as [p|len| |err|err|len|data| | |]; try (pose proof (fun X => counts_step t0 _ t1 X E) as K; destruct (K I) as (B1 & S1 & W1); split; [congruence|lia]).
  - by apply (sent_step t0 len t1).
  - assert (A0 : overhead_bytes_adjust t0 = 0) by (unfold balance in B0; rewrite Ho in B0; unfold written_sum, acked_sum, wrote_sum, sent_sum in B0; cbn in B0; lia). destruct (counts_step t0 (OConnected err) t1 (conj Ho A0) E) as (B1 & S1 & W1); lia.
Qed.

(** ** The loops end *)

(** What is left to decrypt. *)
Definition left_to_read (t : tls_t (C := C)) : Z := Z.of_nat (rx_left t) + raw_held (ssl t) + avail t.

Lemma left_same t t' : rx t' = rx t -> ssl t' = ssl t -> left_to_read t' = left_to_read t.
Proof. unfold left_to_read. by intros -> ->. Qed.
Lemma left_keeps t t' : keeps t t' -> left_to_read t' = left_to_read t.
Proof. unfold left_to_read. by intros (_ & _ & _ & -> & -> & ->). Qed.
Lemma left_dealloc (t : tls_t (C := C)) : left_to_read (altcp_mbedtls_dealloc t) <= left_to_read t.
Proof. unfold left_to_read. cbn [altcp_mbedtls_dealloc rx ssl concat length]. lia. Qed.
Lemma left_abort (t : tls_t (C := C)) : left_to_read (altcp_mbedtls_abort t) <= left_to_read t.
Proof. unfold altcp_mbedtls_abort, altcp_mbedtls_lower_err. etransitivity; [apply left_dealloc|]. by rewrite (left_same t). Qed.
Lemma left_close (t : tls_t (C := C)) : left_to_read (fst (altcp_mbedtls_close w t)) <= left_to_read t.
Proof. unfold altcp_mbedtls_close. cbv zeta. destruct (_ =? ERR_OK); cbn [fst]; [etransitivity; [apply left_dealloc|]|]; by rewrite (left_same t). Qed.

Lemma left_act t a : left_to_read (act w t a) = left_to_read t.
Proof.
  destruct a as [len|data]; [|apply left_keeps, write_keeps]. cbn [act]. unfold altcp_mbedtls_recved. destruct (negb _); [done|]. cbv zeta.
  match goal with |- context [if ?c then log ?e ?x else ?x] => by destruct c end.
Qed.
Lemma left_acts acts t : left_to_read (fold_left (act w) acts t) = left_to_read t.
Proof. revert t. induction acts as [|a acts IH]; intros t; [done|]. cbn [fold_left]. by rewrite IH, left_act. Qed.

Lemma left_app_recv d t : left_to_read (fst (app_recv w d t)) <= left_to_read t.
Proof.
  unfold app_recv. assert (L : forall b acts, left_to_read (fold_left (act w) acts (log (TApp d b) t)) = left_to_read t) by (intros b acts; by rewrite left_acts, (left_same t)).
  destruct (w_app w (now t) d); cbn [fst]; [by rewrite L|by rewrite L|etransitivity; [apply left_dealloc|by rewrite L]|etransitivity; [apply left_abort|by rewrite L]].
Qed.
Lemma left_pass (t : tls_t (C := C)) : left_to_read (fst (altcp_mbedtls_pass_rx_data w t)) <= left_to_read t.
Proof.
  unfold altcp_mbedtls_pass_rx_data. destruct (rx_app t) as [buf|]; [cbv zeta|destruct (_ && _); [|done]];
    match goal with |- context [app_recv w ?d ?x] => pose proof (left_app_recv d x) as Hc; destruct (app_recv w d x) as [t1 a] end; cbn [fst] in *; [|exact Hc].
  destruct a; cbn [fst]; exact Hc.
Qed.

Lemma left_recved n t : left_to_read (altcp_mbedtls_lower_recved n t) = left_to_read t.
Proof.
  unfold altcp_mbedtls_lower_recved. generalize (S (Z.to_nat (n / 65535))). intros k. revert n t. induction k as [|k IH]; intros n t; [done|]. cbn [recved_loop].
  destruct (0 <? n); [|done]. rewrite IH. by apply left_same.
Qed.
Lemma left_took ret out t : left_to_read (took_plain ret out t) = left_to_read t.
Proof.
  unfold took_plain. assert (Hs : left_to_read (settle ret t) = left_to_read t).
  { unfold settle. destruct (_ =? 0); [|done]. cbv zeta. destruct (_ <=? _); [|done].
    match goal with |- context [altcp_mbedtls_lower_recved ?n ?x] => pose proof (left_recved n x) as Hc; set (t1 := altcp_mbedtls_lower_recved n x) in * end. exact Hc. }
  set (t2 := settle ret t) in *. cbv zeta. set (t3 := {| t2 with bio_bytes_appl := _ |}). rewrite <- Hs. transitivity (left_to_read (record_done t3)); [done|]. unfold record_done. by destruct (_ =? 0).
Qed.
Lemma left_lend ret t : left_to_read (lend ret t) = left_to_read t.
Proof. unfold lend. destruct (_ && _); [|done]. cbv zeta. exact (left_recved _ t). Qed.

Lemma read_left t t1 ret out : inv t -> exec w (mbedtls_ssl_read (ssl t) PBUF_POOL_BUFSIZE) t = (t1, ret, out) -> left_to_read t1 <= left_to_read t - Z.max 0 ret.
Proof.
  intros I E. destruct (read_spec t t1 ret out I E) as (m & Hm & _ & _ & _ & X & HP). pose proof (inv_record t I) as Hr. unfold left_to_read. pose proof (raw_held_nonneg (ssl t1)). pose proof (avail_nonneg (ssl t)).
  destruct (bio_bytes_appl t =? 0); [|lia]. destruct HP as [HP1 HP2]. destruct (Z.ltb_spec 0 ret); [destruct (HP1 ltac:(done))|destruct (HP2 ltac:(done))]; lia.
Qed.

Lemma loop_total k t : inv t -> handshake_done t = true -> left_to_read t < Z.of_nat k -> exists t' e, rx_loop w k t = Some (t', e) /\ left_to_read t' <= left_to_read t.
Proof.
  revert t. induction k as [|k IH]; intros t I Hd Hl.
  { exfalso. unfold left_to_read in Hl. pose proof (raw_held_nonneg (ssl t)). pose proof (avail_nonneg (ssl t)). lia. }
  cbn [rx_loop]. destruct (negb _); [by exists t, ERR_OK|]. destruct (exec w _ t) as [[t1 ret] out] eqn:Ex. pose proof (read_left t t1 ret out I Ex) as L1.
  assert (L2 : left_to_read (log (TRead ret out) t1) = left_to_read t1) by (by apply left_same). destruct (Z.ltb_spec ret 0) as [Hn|Hn].
  - destruct (ret =? CLIENT_RECONNECT); do 2 eexists; (split; [reflexivity|]); [etransitivity; [apply left_abort|lia]|rewrite left_lend; lia].
  - destruct (Z.ltb_spec 0 ret) as [Hp|Hz].
    + pose proof (took_inv t t1 ret out I Hd Ex Hp) as I2. destruct (took_fields ret out (log (TRead ret out) t1)) as [F1 F2]. pose proof (left_took ret out (log (TRead ret out) t1)) as L3.
      set (t2 := took_plain _ _ _) in *. assert (Hd2 : handshake_done t2 = true).
      { rewrite F1. destruct (read_spec t t1 ret out I Ex) as (m & _ & F & _). unfold fields in F. cbn. congruence. } clearbody t2.
      pose proof (left_pass t2) as L4. destruct (altcp_mbedtls_pass_rx_data w t2) as [t3 e3] eqn:Ep. cbn [fst] in L4. destruct (pass_inv t2 t3 e3 I2 Hd2 Ep) as [O3 I3].
      destruct (e3 =? ERR_ABRT); [do 2 eexists; split; [reflexivity|lia]|]. destruct (Z.eqb_spec e3 ERR_OK) as [->|]; cbn [negb]; [|do 2 eexists; split; [reflexivity|lia]].
      destruct (IH t3) as (t' & e & E & L5); [by apply I3|apply O3|lia|]. exists t', e. split; [done|lia].
    + pose proof (left_pass (log (TRead ret out) t1)) as L4. destruct (altcp_mbedtls_pass_rx_data w (log (TRead ret out) t1)) as [t3 e3]. cbn [fst] in L4.
      destruct (e3 =? ERR_ABRT); [do 2 eexists; split; [reflexivity|lia]|]. destruct (negb _); do 2 eexists; (split; [reflexivity|lia]).
Qed.

Lemma handle_total t : inv t -> handshake_done t = true -> left_to_read t < Z.of_nat fuel -> exists t' e, altcp_mbedtls_handle_rx_appldata w fuel t = Some (t', e) /\ left_to_read t' <= left_to_read t.
Proof.
  intros I Hd Hl. unfold altcp_mbedtls_handle_rx_appldata. rewrite Hd. cbn [negb]. destruct (rx_app t) eqn:Er; [|by apply loop_total].
  pose proof (left_pass t) as L1. destruct (altcp_mbedtls_pass_rx_data w t) as [t1 e1] eqn:Ep. cbn [fst] in L1. destruct (pass_inv t t1 e1 I Hd Ep) as [O1 I1]. rewrite Er in I1.
  destruct (e1 =? ERR_ABRT); [by do 2 eexists|]. destruct (Z.eqb_spec e1 ERR_OK) as [->|]; cbn [negb orb]; [|by do 2 eexists]. destruct (rx_app t1); [by do 2 eexists|].
  destruct (loop_total fuel t1) as (t' & e & E & L2); [by apply I1|apply O1|lia|]. exists t', e. split; [done|lia].
Qed.

Lemma process_total t : tok t -> alive t = true -> left_to_read t < Z.of_nat fuel ->
  exists t' e, altcp_mbedtls_lower_recv_process w fuel t = Some (t', e) /\ left_to_read t' <= left_to_read t.
Proof.
  intros Ht Ha Hl. unfold altcp_mbedtls_lower_recv_process. destruct (Ht Ha) as [[Hd I]|P]; [rewrite Hd; by apply handle_total|].
  pose proof P as [P1 P2 _ _]. injection P1 as -> _ _ _ _ _ _. destruct (exec w _ t) as [[t1 ret] out] eqn:Ex. destruct (handshake_pre t t1 ret out P Ex) as (T2 & L2 & X2).
  set (t2 := ack_handshake _) in *. clearbody t2. assert (L : left_to_read t2 <= left_to_read t) by (unfold left_to_read; destruct T2; lia). cbv zeta.
  destruct (_ || _); [do 2 eexists; split; [reflexivity|lia]|]. destruct (Z.eqb_spec ret 0) as [->|]; cbn [negb].
  - pose proof (greeted_inv t2 (w_connected w (now {| t2 with handshake_done := true |})) T2 (L2 eq_refl)) as I3. cbv zeta in I3. set (t3 := log (TConnected _) _) in *.
    assert (L3 : left_to_read t3 = left_to_read t2) by done. destruct (negb _); [do 2 eexists; split; [reflexivity|lia]|]. destruct (rx t3); [do 2 eexists; split; [reflexivity|lia]|].
    destruct (handle_total t3 I3 eq_refl ltac:(lia)) as (t' & e & E & L4). exists t', e. split; [done|lia].
  - pose proof (left_close (log (TErr ERR_CLSD) t2)) as L3. destruct (altcp_mbedtls_close w _) as [t3 e3]. cbn [fst] in L3. change (left_to_read (log (TErr ERR_CLSD) t2)) with (left_to_read t2) in L3.
    do 2 eexists. split; [reflexivity|]. destruct (_ =? ERR_OK); [lia|]. pose proof (left_abort t3). lia.
Qed.

Definition bytes_of (o : top) : Z := match o with ORecv (Some p) => Z.of_nat (length (concat p)) | _ => 0 end.

Lemma step_total t o : tok t -> left_to_read t + bytes_of o < Z.of_nat fuel -> exists t', tstep w fuel t o = Some t' /\ left_to_read t' <= left_to_read t + bytes_of o.
Proof.
  intros Ht Hl. unfold tstep. destruct (alive t) eqn:Ha; cbn [negb]; [|exists t; split; [done|destruct o as [[p|]| | | | | | | | |]; cbn [bytes_of]; lia]].
  destruct o as [[p|]|len| |err|err|len|data| | |]; cbn [bytes_of] in *; rewrite ?Z.add_0_r in *.
  - cbn [altcp_mbedtls_lower_recv]. set (t1 := {| t with rx := rx t ++ p |}). assert (L1 : left_to_read t1 = left_to_read t + Z.of_nat (length (concat p))) by (unfold left_to_read; cbn [t1 rx ssl]; rewrite concat_app, length_app; lia).
    destruct (process_total t1) as (t' & e & E & L2); [|done|lia|].
    { intros _. destruct (Ht Ha) as [[Hd I]|P]; [left; split; [done|by apply (inv_view t)]|right; by destruct P]. }
    exists t'. rewrite E. split; [done|lia].
  - cbn [altcp_mbedtls_lower_recv]. destruct (handshake_done t && upper_called t) eqn:Hd.
    + apply andb_true_iff in Hd as [Hd _]. destruct (Ht Ha) as [[_ I]|[P _ _ _]]; [|injection P; congruence]. destruct (_ || _).
      * destruct (handle_total {| t with rx_close_queued := true |}) as (t' & e & E & L2); [by apply (inv_view t)|done|done|]. rewrite E. by exists t'.
      * pose proof (left_app_recv None {| t with rx_closed := true |}) as L2. destruct (app_recv w None _) as [t1 a]. by exists t1.
    + pose proof (left_close (log (TErr ERR_ABRT) t)) as L2. destruct (altcp_mbedtls_close w _) as [t1 e]. by exists t1.
  - eexists. split; [reflexivity|]. unfold altcp_mbedtls_lower_sent. cbv zeta. set (t1 := {| t with overhead_bytes_adjust := _ |}). pose proof (left_keeps _ _ (flush_keeps (log (TAcked (u16 len)) t1))) as L2.
    set (t2 := altcp_mbedtls_flush_output w _) in *. assert (L3 : left_to_read t2 = left_to_read t) by (rewrite L2; by apply left_same). destruct (negb _); [|lia]. rewrite <- L3. apply Z.eq_le_incl. by apply left_same.
  - unfold altcp_mbedtls_lower_poll. pose proof (tok_keeps _ _ (flush_keeps t) Ht) as Hf. pose proof (left_keeps _ _ (flush_keeps t)) as L2. set (t1 := altcp_mbedtls_flush_output w t) in *.
    assert (Ha1 : alive t1 = true) by (destruct (flush_keeps t) as (F & _); unfold fields in F; unfold t1; congruence). clearbody t1.
    assert (Hx : exists t2 e, altcp_mbedtls_handle_rx_appldata w fuel t1 = Some (t2, e) /\ left_to_read t2 <= left_to_read t1).
    { destruct (Hf Ha1) as [[Hd I]|P]; [apply handle_total; [done|done|lia]|]. unfold altcp_mbedtls_handle_rx_appldata. destruct P as [P ? ? ?]. injection P as -> _ _ _ _ _ _. by exists t1, ERR_VAL. }
    destruct Hx as (t2 & e & E & L3). rewrite E. eexists. split; [reflexivity|]. cbn [fst]. destruct (_ =? ERR_ABRT); [lia|]. change (left_to_read (log TPolled t2)) with (left_to_read t2). lia.
  - unfold altcp_mbedtls_lower_connected. destruct (negb _); [eexists; split; [reflexivity|]; by apply Z.eq_le_incl, left_same|]. set (t1 := {| t with overhead_bytes_adjust := 0 |}).
    destruct (process_total t1) as (t' & e & E & L2); [|done|done|by exists t'; rewrite E].
    intros _. destruct (Ht Ha) as [[Hd I]|P]; [left; split; [done|by apply (inv_view t)]|right; by destruct P].
  - eexists. split; [reflexivity|]. unfold altcp_mbedtls_lower_err. etransitivity; [apply left_dealloc|]. by rewrite (left_same t).
  - eexists. split; [reflexivity|]. by rewrite (left_act t (ARecved len) : left_to_read (altcp_mbedtls_recved len t) = _).
  - eexists. split; [reflexivity|]. by rewrite (left_act t (AWrite data) : left_to_read (fst (altcp_mbedtls_write w data t)) = _).
  - unfold altcp_tls_bp_kick. assert (Hx : exists t2 e, altcp_mbedtls_handle_rx_appldata w fuel t = Some (t2, e) /\ left_to_read t2 <= left_to_read t).
    { destruct (Ht Ha) as [[Hd I]|P]; [by apply handle_total|]. unfold altcp_mbedtls_handle_rx_appldata. destruct P as [P ? ? ?]. injection P as -> _ _ _ _ _ _. by exists t, ERR_VAL. }
    destruct Hx as (t2 & e & E & L3). rewrite E. by exists t2.
  - eexists. split; [reflexivity|apply left_close].
  - eexists. split; [reflexivity|apply left_abort].
Qed.

(** The receive loops end. In a run in which fewer bytes arrive than the fuel,
    every step returns: each turn of the loop decrypts at least one byte of what
    has arrived. *)
Theorem layer_returns s ops : mbedtls_ssl_get_bytes_avail s = 0 -> raw_held s = 0 -> foldr (fun o n => bytes_of o + n) 0 ops < Z.of_nat fuel ->
  exists t, trun w fuel (altcp_mbedtls_setup s) ops = Some t.
Proof.
  intros Hs Hh. pose proof (setup_tok s Hs) as Ht. assert (Hl : left_to_read (altcp_mbedtls_setup s) <= 0) by (unfold left_to_read; cbn [altcp_mbedtls_setup ssl rx concat length]; lia).
  revert Ht Hl. generalize (altcp_mbedtls_setup s). intros t0 Ht Hl Hf. assert (G : left_to_read t0 + foldr (fun o n => bytes_of o + n) 0 ops < Z.of_nat fuel) by lia. clear Hl Hf.
  revert t0 Ht G. induction ops as [|o ops IH]; intros t0 Ht G; cbn [trun foldr] in *; [by exists t0|].
  assert (Hn : 0 <= foldr (fun o n => bytes_of o + n) 0 ops) by (clear; induction ops as [|[[p|]| | | | | | | | |] ops IH]; cbn [foldr bytes_of]; lia).
  destruct (step_total t0 o Ht ltac:(lia)) as (t1 & E & L). rewrite E. apply IH; [by eapply step_tok|lia].
Qed.
End theorems.

(** ** A toy mbedTLS: a record is a byte with its length and the plaintext *)

Module ToyTls.
Record toy := Toy { got : list Z; pt : list Z }.
Definition whole (l : list Z) : bool := match l with [] => false | k :: l => (Z.to_nat k <=? length l)%nat end.
Definition give (g l : list Z) (cap : nat) : ssl_call toy :=
  Ret (Toy g (drop cap l)) (Z.of_nat (length (take cap l))) (take cap l).
Fixpoint fetch (fuel cap : nat) (l : list Z) : ssl_call toy :=
  if whole l then give [] (drop 1 l) cap
  else
    match fuel with
    | O => Ret (Toy l []) WANT_READ []
    | S fuel => Recv 1 (fun r d => if 0 <? r then fetch fuel cap (l ++ d) else Ret (Toy l []) (if r =? 0 then 0 else WANT_READ) [])
    end.

#[export] Instance ops : Ssl toy := {|
  mbedtls_ssl_handshake := fun s => Send [22] (fun _ => Ret (Toy [] []) 0 []);
  mbedtls_ssl_read := fun s cap => match pt s with [] => fetch 300 cap (got s) | l => give (got s) l cap end;
  mbedtls_ssl_write := fun s d => Send (Z.of_nat (length d) :: d) (fun _ => Ret s (Z.of_nat (length d)) []);
  mbedtls_ssl_flush_output := fun s => Ret s 0 [];
  mbedtls_ssl_get_bytes_avail := fun s => Z.of_nat (length (pt s));
  mbedtls_ssl_get_record_expansion := fun _ => 1;
  mbedtls_ssl_get_max_frag_len := fun _ => 16384;
  out_left := fun _ => 0;
|}.

Lemma fetch_ok fuel cap l : (0 < cap)%nat -> forall n h, Z.of_nat (length l) = h + n -> 0 <= h -> 0 <= n ->
  call_ok (fun n s' r out => (0 < r -> Z.of_nat (length out) = r /\ r + Z.of_nat (length (pt s')) <= h + n /\ Z.of_nat (length (got s')) = 0) /\
    (r <= 0 -> Z.of_nat (length (pt s')) = 0 /\ Z.of_nat (length (got s')) <= h + n)) (fetch fuel cap l) n.
Proof.
  intros Hc. revert l. induction fuel as [|fuel IH]; intros l n h Hl Hh Hn; cbn [fetch]; destruct (whole l) eqn:Ew.
  - cbn [give call_ok pt got length]. rewrite length_take, !length_drop. split; [lia|]. intros Hr. lia.
  - cbn [call_ok pt got length]. lia.
  - cbn [give call_ok pt got length]. rewrite length_take, !length_drop. split; [lia|]. intros Hr. lia.
  - cbn [call_ok]. intros r d [[Hr ->]|(Hr & -> & _)].
    + destruct (Z.ltb_spec 0 r); [lia|]. cbn [call_ok pt got length]. destruct (r =? 0); lia.
    + destruct (Z.ltb_spec 0 (Z.of_nat (length d))); [|lia]. apply IH; [rewrite length_app; lia|lia|lia].
Qed.

#[export, refine] Instance laws : SslLaws toy := {| raw_held := fun s => Z.of_nat (length (got s)) |}.
Proof.
  - intros. lia.
  - intros. cbn. lia.
  - intros. cbn. lia.
  - intros s Hs. cbn. intros _. lia.
  - intros s cap Hc Hs. cbn [mbedtls_ssl_read ops mbedtls_ssl_get_bytes_avail] in *. destruct (pt s) as [|x l] eqn:Ep; [|cbn in Hs; lia]. apply fetch_ok; lia.
  - intros s cap Hc Hs. cbn [mbedtls_ssl_read ops mbedtls_ssl_get_bytes_avail] in *. destruct (pt s) as [|x l] eqn:Ep; [cbn in Hs; lia|]. do 3 eexists. split; [reflexivity|].
    cbn [pt got length]. rewrite length_take, length_drop. cbn [length]. split_and!; try done; lia.
  - intros s d. cbn. done.
  - intros s. cbn. done.
Defined.

(** The application refuses what it is offered at the start, then takes and acknowledges. *)
Definition picky : world :=
  World (fun _ => true) (fun _ _ => ERR_OK) (fun _ => ERR_OK)
    (fun n d => match d with Some d => if (n <? 17)%nat then Refused [] ERR_MEM else Took [ARecved (Z.of_nat (length d))] | None => Took [] end)
    (fun _ => ERR_OK) (fun _ => 4096).

Lemma picky_clean : refuses_cleanly picky.
Proof. intros n [d|] acts e; cbn [w_app picky]; [destruct (_ <? _)%nat; [by intros [= <- _]|done]|done]. Qed.

(** A record of five bytes in three segments; refused, offered again; an answer. *)
Definition ops1 : list top := [OConnected 0; ORecv (Some [[5]]); ORecv (Some [[10; 11]]); ORecv (Some [[12; 13; 14]])].
Definition ops2 : list top := ops1 ++ [OPoll; OPoll; OWrite [1; 2]; OSent 3; ORecv (Some [[2; 7]])].
Definition final (ops : list top) : tls_t (C := toy) := default (altcp_mbedtls_setup (Toy [] [])) (trun picky 100 (altcp_mbedtls_setup (Toy [] [])) ops).

Example refused_and_lent : rx_app (final ops1) = Some [10; 11; 12; 13; 14] /\ raw (tr (final ops1)) = 6 /\ given (tr (final ops1)) = 3 /\ bp_debt (final ops1) = 2.
Proof. vm_compute. done. Qed.
Example taken_and_open : taken (tr (final ops2)) = [10; 11; 12; 13; 14] /\ raw (tr (final ops2)) = 8 /\ given (tr (final ops2)) = 8 /\ sent_sum (tr (final ops2)) = 1.
Proof. vm_compute. done. Qed.

(** A connection closed while it holds refused plaintext keeps that pbuf. *)
Example close_leaks_refused : alive (final (ops1 ++ [OClose])) = false /\ rx_app (final (ops1 ++ [OClose])) = Some [10; 11; 12; 13; 14].
Proof. vm_compute. done. Qed.

Lemma final_run : trun picky 100 (altcp_mbedtls_setup (Toy [] [])) ops2 = Some (final ops2).
Proof. vm_compute. reflexivity. Qed.
Lemma final_facts : alive (final ops2) = true /\ handshake_done (final ops2) = true /\ tcp_ok picky 100 (altcp_mbedtls_setup (Toy [] [])) ops2.
Proof. vm_compute. split_and!; done. Qed.

#[local] Opaque final.


Lemma plaintext_in_order_witness : plain (tr (final ops2)) = taken (tr (final ops2)) ++ default [] (rx_app (final ops2)).
Proof. exact (plaintext_in_order picky 100 (Toy [] []) ops2 (final ops2) final_run). Defined.

Lemma sent_never_early_witness : sent_sum (tr (final ops2)) <= wrote_sum (tr (final ops2)).
Proof. exact (sent_never_early picky 100 (Toy [] []) ops2 (final ops2) (proj2 (proj2 final_facts)) final_run). Defined.

Lemma layer_returns_witness : exists t, trun picky 100 (altcp_mbedtls_setup (Toy [] [])) ops2 = Some t.
Proof. apply (layer_returns picky 100 picky_clean (Toy [] []) ops2); [reflexivity|reflexivity|vm_compute; reflexivity]. Defined.
End ToyTls.
