(* ===== verification/EspRom.v ===== *)
(** * Writing the ESP32-C3 through its ROM loader ([esp_rom_job.c])

    The job as a machine of steps over the UART: the bytes that arrived are a queue, the
    frames sent and the answers taken a trace. MD5 is mbedTLS's, the class [Md5]. *)

From S2P Require Import Prelude.

Abbreviation OP_FLASH_BEGIN := 0x02.
Abbreviation OP_FLASH_DATA := 0x03.
Abbreviation OP_FLASH_END := 0x04.
Abbreviation OP_SYNC := 0x08.
Abbreviation OP_READ_REG := 0x0A.
Abbreviation OP_SPI_ATTACH := 0x0D.
Abbreviation OP_SPI_FLASH_MD5 := 0x13.
Abbreviation CHECKSUM_MAGIC := 0xEF.
Abbreviation CHIP_DETECT_MAGIC_REG := 0x40001000.
Abbreviation SLIP_END := 0xC0.
Abbreviation SLIP_ESC := 0xDB.
Abbreviation SLIP_ESC_END := 0xDC.
Abbreviation SLIP_ESC_ESC := 0xDD.
Abbreviation REPLY_PENDING := 1.
Abbreviation ESP_ROM_BLOCK := 0x400.
Abbreviation ESP_ROM_DATA_ATTEMPTS := 3.
Abbreviation ESP_ROM_MD5_ATTEMPTS := 3.
Abbreviation ESP_ROM_SYNC_ATTEMPTS := 10.
Abbreviation ESP_ROM_SYNC_TIMEOUT_MS := 120.
Abbreviation ESP_ROM_DATA_TIMEOUT_MS := 3000.
Abbreviation ESP_ROM_BEGIN_TIMEOUT_MS := 40000.
Abbreviation ESP_ROM_OK := 0.
Abbreviation ESP_ROM_UNVERIFIED := 1.
Abbreviation ESP_ROM_ERR_SYNC := (-1).
Abbreviation ESP_ROM_ERR_BEGIN := (-2).
Abbreviation ESP_ROM_ERR_READ := (-3).
Abbreviation ESP_ROM_ERR_DATA := (-4).
Abbreviation ESP_ROM_ERR_MD5 := (-5).
Abbreviation ESP_ROM_ERR_ARGS := (-6).

(** The size of the buffer of a decoded reply. *)
Definition RESP : nat := 256.

Inductive esp_rom_phase_t :=
| ESP_ROM_IDLE | ESP_ROM_SYNC | ESP_ROM_MAGIC | ESP_ROM_ATTACH | ESP_ROM_BEGIN | ESP_ROM_DATA | ESP_ROM_MD5 | ESP_ROM_END | ESP_ROM_DONE.
#[export] Instance esp_rom_phase_eq_dec : EqDecision esp_rom_phase_t.
Proof. solve_decision. Defined.

(** [mbedtls_md5_*]. *)
Class Md5 (M : Type) := { md5_starts : M; md5_update : M -> list Z -> M; md5_finish : M -> list Z }.

(** ** SLIP *)

Definition slip_byte (b : Z) : list Z :=
  if b =? SLIP_END then [SLIP_ESC; SLIP_ESC_END] else if b =? SLIP_ESC then [SLIP_ESC; SLIP_ESC_ESC] else [b].
Definition slip (frame : list Z) : list Z := SLIP_END :: concat (map slip_byte frame) ++ [SLIP_END].
Definition unesc (c : Z) : Z := if c =? SLIP_ESC_END then SLIP_END else if c =? SLIP_ESC_ESC then SLIP_ESC else c.

(** [s_frame]: the header of a command and its data. *)
Definition frame_of (op : Z) (data : list Z) (checksum : Z) : list Z :=
  [0; op; u8 (Z.of_nat (length data)); u8 (Z.of_nat (length data) / 256)] ++ le 4 checksum ++ data.

Definition reached (now deadline : Z) : bool := 0 <=? s32 (now - deadline).

(** The frames sent, as they go to the UART, and the answers taken: the command they
    answer, 0 or the error, the payload. *)
Inductive rom_ev := Sent (frame : list Z) | Answer (op r : Z) (payload : list Z).

Section job.
Context {M : Type} `{Md5 M}.

(** [read] and [send] of [esp_rom_io_t]: the image, and how long a frame takes. *)
Context (io_read : option (Z -> nat -> option (list Z))) (wire : Z -> Z).

(** [esp_rom_job_t] and the static buffers of the file. *)
Record esp_rom_job_t := Job {
  len : Z; offset : Z; blocks : Z; seq : Z; phase : esp_rom_phase_t; result : Z; attempt : Z; status_len : Z; chip_magic : Z;
  sync_only : bool; resends : Z; md5_retries : Z; want_md5 : list Z; got_md5 : list Z; op : Z; deadline : Z;
  in_frame : bool; esc : bool; rn : nat;
  s_pkt : list Z; s_pkt_chk : Z; s_resp : list Z; s_value : Z; s_payload : list Z; s_md5 : M; s_pending_result : Z;
  rxq : list Z; tr : list rom_ev;
}.

Definition note (e : rom_ev) (j : esp_rom_job_t) : esp_rom_job_t := {| j with tr := tr j ++ [e] |}.

(** ** A command out, at the time [now] when the frame has been handed over *)

Definition send_cmd (now : Z) (o : Z) (data : list Z) (checksum timeout_ms : Z) (j : esp_rom_job_t) : esp_rom_job_t :=
  let f := slip (frame_of o data checksum) in
  note (Sent f) {| j with op := o; in_frame := false; esc := false; rn := 0%nat; rxq := [];
                          deadline := u32 (now + wire (Z.of_nat (length f)) + timeout_ms) |}.

(** ** A reply in *)

Definition eval_frame (j : esp_rom_job_t) : esp_rom_job_t * Z :=
  let n := Z.of_nat (rn j) in
  let b i := nth (Z.to_nat i) (s_resp j) 0 in
  if (n <? 10) || negb (b 0 =? 1) || negb (b 1 =? op j) then (j, REPLY_PENDING)
  else
    let size := b 2 + 256 * b 3 in
    if n <? 8 + size then (j, REPLY_PENDING)
    else
      let j := {| j with status_len := if status_len j =? 0 then (if size =? 4 then 4 else 2) else status_len j |} in
      if size <? status_len j then (j, REPLY_PENDING)
      else if negb (b (8 + size - status_len j) =? 0) then (j, - (100 + b (8 + size - status_len j + 1)))
      else ({| j with s_value := rd_le (sub 4 4 (s_resp j)); s_payload := sub 8 (Z.to_nat (size - status_len j)) (s_resp j) |}, 0).

Definition put_resp (c : Z) (j : esp_rom_job_t) : esp_rom_job_t :=
  if (rn j <? RESP)%nat then {| j with s_resp := <[rn j := c]> (s_resp j); rn := S (rn j) |} else j.

(** Drains what arrived up to the end of the first frame that answers. *)
Fixpoint drain (q : list Z) (j : esp_rom_job_t) : esp_rom_job_t * Z :=
  match q with
  | [] => ({| j with rxq := [] |}, REPLY_PENDING)
  | c :: q =>
      if c =? SLIP_END then
        let '(j, r) := if in_frame j && (0 <? rn j)%nat then let '(j, r) := eval_frame j in ({| j with rn := 0%nat; esc := false |}, r)
                       else (j, REPLY_PENDING) in
        if r =? REPLY_PENDING then drain q {| j with in_frame := true |} else ({| j with rxq := q |}, r)
      else if negb (in_frame j) then drain q j
      else if esc j then drain q (put_resp (unesc c) {| j with esc := false |})
      else if c =? SLIP_ESC then drain q {| j with esc := true |}
      else drain q (put_resp c j)
  end.

Definition poll_reply (now : Z) (j : esp_rom_job_t) : esp_rom_job_t * Z :=
  let '(j, r) := drain (rxq j) j in
  if negb (r =? REPLY_PENDING) then (note (Answer (op j) r (if r =? 0 then s_payload j else [])) j, r)
  else (j, if reached now (deadline j) then -1 else REPLY_PENDING).

(** ** Steps *)

Definition finish (res : Z) (j : esp_rom_job_t) : esp_rom_job_t := {| j with result := res; phase := ESP_ROM_DONE |}.

Definition send_sync (now : Z) (j : esp_rom_job_t) : esp_rom_job_t :=
  send_cmd now OP_SYNC ([0x07; 0x07; 0x12; 0x20] ++ replicate 32 0x55) 0 ESP_ROM_SYNC_TIMEOUT_MS j.

Definition send_pkt (now : Z) (j : esp_rom_job_t) : esp_rom_job_t :=
  send_cmd now OP_FLASH_DATA (s_pkt j) (s_pkt_chk j) ESP_ROM_DATA_TIMEOUT_MS j.

(** The data of block [k]: its length, its number, its bytes padded with 0xFF; and its checksum. *)
Definition pad_block (d : list Z) : list Z := d ++ replicate (Z.to_nat ESP_ROM_BLOCK - length d) 0xFF.
Definition pkt_of (k : Z) (d : list Z) : list Z := le 4 ESP_ROM_BLOCK ++ le 4 k ++ le 4 0 ++ le 4 0 ++ pad_block d.
Definition chk_of (d : list Z) : Z := foldl Z.lxor CHECKSUM_MAGIC (pad_block d).

Definition block_len (j : esp_rom_job_t) : Z :=
  let left := u32 (len j - u32 (seq j * ESP_ROM_BLOCK)) in if left <? ESP_ROM_BLOCK then left else ESP_ROM_BLOCK.
Definition read_block (off : Z) (n : nat) : option (list Z) :=
  match io_read with None => Some (replicate n 0xFF) | Some read => read off n end.

Definition send_block (now : Z) (j : esp_rom_job_t) : esp_rom_job_t * bool :=
  match read_block (u32 (seq j * ESP_ROM_BLOCK)) (Z.to_nat (block_len j)) with
  | None => (j, false)
  | Some d => (send_pkt now {| j with s_md5 := md5_update (s_md5 j) d; s_pkt := pkt_of (seq j) d; s_pkt_chk := chk_of d; attempt := 1 |}, true)
  end.
Definition next_block (now : Z) (j : esp_rom_job_t) : esp_rom_job_t :=
  let '(j, ok) := send_block now j in if ok then j else finish ESP_ROM_ERR_READ j.

Definition send_md5 (now : Z) (j : esp_rom_job_t) : esp_rom_job_t :=
  send_cmd now OP_SPI_FLASH_MD5 (le 4 (offset j) ++ le 4 (len j) ++ le 4 0 ++ le 4 0) 0 (u32 (5000 + len j / 1024 * 16)) j.

Definition send_end (now : Z) (res : Z) (j : esp_rom_job_t) : esp_rom_job_t :=
  send_cmd now OP_FLASH_END (le 4 1) 0 1000 {| j with s_pending_result := res; phase := ESP_ROM_END |}.

(** The job as [memset] leaves it; the static buffers keep what they had, the trace starts. *)
Definition fresh (j : esp_rom_job_t) (l off : Z) (sync : bool) : esp_rom_job_t :=
  {| j with len := l; offset := off; blocks := 0; seq := 0; phase := ESP_ROM_IDLE; result := 0; attempt := 0; status_len := 0; chip_magic := 0;
     sync_only := sync; resends := 0; md5_retries := 0; want_md5 := []; got_md5 := []; op := 0; deadline := 0;
     in_frame := false; esc := false; rn := 0%nat; s_md5 := md5_starts; tr := [] |}.

Definition esp_rom_job_start (now : Z) (l off : Z) (j : esp_rom_job_t) : esp_rom_job_t :=
  let j := fresh j l off false in
  let j := {| j with blocks := u32 (l + ESP_ROM_BLOCK - 1) / ESP_ROM_BLOCK |} in
  if l =? 0 then finish ESP_ROM_ERR_ARGS j
  else send_sync now {| j with phase := ESP_ROM_SYNC; attempt := 1 |}.

Definition esp_rom_job_start_sync (now : Z) (j : esp_rom_job_t) : esp_rom_job_t :=
  let j := fresh j 0 0 true in send_sync now {| j with phase := ESP_ROM_SYNC; attempt := 1 |}.

(** [snprintf "%02x"] of the 16 bytes. *)
Definition hexdigit (v : Z) : Z := if v <? 10 then 48 + v else 87 + v.
Definition hex_of (l : list Z) : list Z := concat (map (fun b => [hexdigit (b / 16); hexdigit (b mod 16)]) l).

Definition on_sync (now r : Z) (j : esp_rom_job_t) : esp_rom_job_t :=
  if r =? 0 then send_cmd now OP_READ_REG (le 4 CHIP_DETECT_MAGIC_REG) 0 200 {| j with phase := ESP_ROM_MAGIC |}
  else if attempt j <? ESP_ROM_SYNC_ATTEMPTS then send_sync now {| j with attempt := u8 (attempt j + 1) |}
  else finish ESP_ROM_ERR_SYNC j.

Definition on_magic (now r : Z) (j : esp_rom_job_t) : esp_rom_job_t :=
  let j := {| j with chip_magic := if r =? 0 then s_value j else chip_magic j |} in
  if sync_only j then finish ESP_ROM_OK j
  else send_cmd now OP_SPI_ATTACH (replicate 8 0) 0 1000 {| j with phase := ESP_ROM_ATTACH |}.

Definition begin_data (j : esp_rom_job_t) : list Z := le 4 (len j) ++ le 4 (blocks j) ++ le 4 ESP_ROM_BLOCK ++ le 4 (offset j) ++ le 4 0.
Definition on_attach (now : Z) (j : esp_rom_job_t) : esp_rom_job_t :=
  send_cmd now OP_FLASH_BEGIN (begin_data j) 0 ESP_ROM_BEGIN_TIMEOUT_MS {| j with phase := ESP_ROM_BEGIN |}.

Definition on_begin (now r : Z) (j : esp_rom_job_t) : esp_rom_job_t :=
  if negb (r =? 0) then finish ESP_ROM_ERR_BEGIN j
  else next_block now {| j with phase := ESP_ROM_DATA; seq := 0 |}.

Definition on_data (now r : Z) (j : esp_rom_job_t) : esp_rom_job_t :=
  if negb (r =? 0) then
    if ESP_ROM_DATA_ATTEMPTS <=? attempt j then finish ESP_ROM_ERR_DATA j
    else send_pkt now {| j with resends := if attempt j =? 1 then u32 (resends j + 1) else resends j; attempt := u8 (attempt j + 1) |}
  else
    let j := {| j with seq := u32 (seq j + 1) |} in
    if seq j <? blocks j then next_block now j
    else send_md5 now {| j with want_md5 := hex_of (md5_finish (s_md5 j)); phase := ESP_ROM_MD5; attempt := 1 |}.

Definition on_md5 (now r : Z) (j : esp_rom_job_t) : esp_rom_job_t :=
  if (r =? 0) && (32 <=? length (s_payload j))%nat then
    let j := {| j with got_md5 := take 32 (s_payload j) |} in
    if negb (bool_decide (got_md5 j = want_md5 j)) then finish ESP_ROM_ERR_MD5 j
    else send_end now ESP_ROM_OK j
  else if attempt j <? ESP_ROM_MD5_ATTEMPTS then send_md5 now {| j with attempt := u8 (attempt j + 1); md5_retries := u32 (md5_retries j + 1) |}
  else send_end now ESP_ROM_UNVERIFIED j.

Definition advance (now r : Z) (j : esp_rom_job_t) : esp_rom_job_t :=
  match phase j with
  | ESP_ROM_SYNC => on_sync now r j
  | ESP_ROM_MAGIC => on_magic now r j
  | ESP_ROM_ATTACH => on_attach now j
  | ESP_ROM_BEGIN => on_begin now r j
  | ESP_ROM_DATA => on_data now r j
  | ESP_ROM_MD5 => on_md5 now r j
  | ESP_ROM_END => finish (s_pending_result j) j
  | _ => finish ESP_ROM_ERR_ARGS j
  end.

Definition running (j : esp_rom_job_t) : bool := negb (bool_decide (phase j = ESP_ROM_IDLE)) && negb (bool_decide (phase j = ESP_ROM_DONE)).

(** One step: the clock when it looks at the bytes, and after the frame it sends. *)
Definition esp_rom_job_step (now sent : Z) (j : esp_rom_job_t) : esp_rom_job_t * bool :=
  if negb (running j) then (j, false)
  else
    let '(j, r) := poll_reply now j in
    if r =? REPLY_PENDING then (j, true)
    else let j := advance sent r j in (j, negb (bool_decide (phase j = ESP_ROM_DONE))).

Definition phase_num (p : esp_rom_phase_t) : Z :=
  match p with
  | ESP_ROM_IDLE => 0 | ESP_ROM_SYNC => 1 | ESP_ROM_MAGIC => 2 | ESP_ROM_ATTACH => 3 | ESP_ROM_BEGIN => 4
  | ESP_ROM_DATA => 5 | ESP_ROM_MD5 => 6 | ESP_ROM_END => 7 | ESP_ROM_DONE => 8
  end.
Definition esp_rom_job_blocks_done (j : esp_rom_job_t) : Z :=
  if bool_decide (phase j = ESP_ROM_DATA) then seq j else if 5 <? phase_num (phase j) then blocks j else 0.

(** ** A run: bytes arrive, then the worker takes a step *)

Record turn := Turn { t_bytes : list Z; t_now : Z; t_sent : Z }.
Definition turn_step (t : turn) (j : esp_rom_job_t) : esp_rom_job_t :=
  fst (esp_rom_job_step (t_now t) (t_sent t) {| j with rxq := rxq j ++ t_bytes t |}).
Definition run (ts : list turn) (j : esp_rom_job_t) : esp_rom_job_t := fold_left (fun j t => turn_step t j) ts j.
End job.
Arguments esp_rom_job_t M : clear implicits.
