(* ===== verification/EspRomTheorems.v ===== *)
(** * The ROM-loader write: what a verified write is, its end, its frames

    [flash_verified]: when the job says the write is verified, every block of the image was
    sent and acknowledged in order, and the MD5 the ROM reported is the image's.
    [job_bounded]: it ends. [reply_roundtrip]: what the ROM encodes the job decodes. *)

From S2P Require Import Prelude EspRom.

(** [mbedtls_md5_update] takes the message in pieces. *)
Class Md5Laws (M : Type) `{Md5 M} := {
  md5 : list Z -> list Z;
  md5_pieces : forall l, md5_finish (foldl md5_update md5_starts l) = md5 (concat l);
}.

(** The last frame sent and the frames that were acknowledged. *)
Definition ack_step (s : list Z * list (list Z)) (e : rom_ev) : list Z * list (list Z) :=
  match e with Sent f => (f, s.2) | Answer _ r _ => (s.1, if r =? 0 then s.2 ++ [s.1] else s.2) end.
Definition acks (l : list rom_ev) : list Z * list (list Z) := foldl ack_step ([], []) l.
Definition acked (l : list rom_ev) : list (list Z) := (acks l).2.
Definition last_sent (l : list rom_ev) : list Z := (acks l).1.

Lemma acks_snoc l e : acks (l ++ [e]) = ack_step (acks l) e.
Proof. unfold acks. by rewrite foldl_app. Qed.

(** Blocks and frames of a write of [image] at [off]. *)
Definition block (image : list Z) (k : nat) : list Z := sub (k * 1024) 1024 image.
Definition n_blocks (l : Z) : nat := Z.to_nat ((l + 1023) / 1024).
Definition data_frame (image : list Z) (k : nat) : list Z :=
  slip (frame_of OP_FLASH_DATA (pkt_of (Z.of_nat k) (block image k)) (chk_of (block image k))).
Definition begin_frame (l off : Z) : list Z :=
  slip (frame_of OP_FLASH_BEGIN (le 4 l ++ le 4 ((l + 1023) / 1024) ++ le 4 1024 ++ le 4 off ++ le 4 0) 0).
Definition md5_frame (l off : Z) : list Z := slip (frame_of OP_SPI_FLASH_MD5 (le 4 off ++ le 4 l ++ le 4 0 ++ le 4 0) 0).

Section theorems.
Context {M : Type} `{Md5Laws M} (io_read : option (Z -> nat -> option (list Z))) (wire : Z -> Z).
Abbreviation job := (esp_rom_job_t M).
Implicit Types j : job.

(** ** Taking replies changes none of the write's own fields *)

Definition core (j : job) :=
  (len j, offset j, blocks j, seq j, phase j, result j, attempt j, sync_only j, want_md5 j, op j, s_pkt j, s_pkt_chk j, s_md5 j, s_pending_result j, tr j, deadline j).

Lemma eval_core j : core (fst (eval_frame j)) = core j.
Proof. unfold eval_frame. cbv zeta. destruct (_ || _); [done|]. destruct (_ <? _); [done|]. destruct (_ <? _); [done|]. by destruct (negb _). Qed.

Lemma put_core c j : core (put_resp c j) = core j.
Proof. unfold put_resp. by destruct (_ <? _)%nat. Qed.

Lemma drain_core q j : core (fst (drain q j)) = core j.
Proof.
  revert j. induction q as [|c q IH]; intros j; cbn [drain]; [done|]. destruct (c =? SLIP_END).
  - destruct (in_frame j && _).
    + pose proof (eval_core j) as Ec. destruct (eval_frame j) as [j1 r]. cbn [fst] in Ec. destruct (r =? REPLY_PENDING); [rewrite IH|]; exact Ec.
    + cbn [Z.eqb Pos.eqb]. by rewrite IH.
  - destruct (negb _); [apply IH|]. destruct (esc j); [rewrite IH, put_core; done|]. destruct (c =? SLIP_ESC); [by rewrite IH|]. rewrite IH. apply put_core.
Qed.

(** An answer or a timeout: the event, and what stays. *)
Definition wcore (j : job) :=
  (len j, offset j, blocks j, seq j, phase j, result j, attempt j, sync_only j, want_md5 j, op j, s_pkt j, s_pkt_chk j, s_md5 j, s_pending_result j).

Lemma reply_spec now j j' r : poll_reply now j = (j', r) -> r <> REPLY_PENDING ->
  wcore j' = wcore j /\ ((r = -1 /\ tr j' = tr j /\ reached now (deadline j) = true) \/ tr j' = tr j ++ [Answer (op j) r (if r =? 0 then s_payload j' else [])]).
Proof.
  unfold poll_reply. pose proof (drain_core (rxq j) j) as Ec. destruct (drain (rxq j) j) as [j1 r1]. cbn [fst] in Ec. unfold core in Ec. injection Ec as ????????????????.
  destruct (Z.eqb_spec r1 REPLY_PENDING) as [->|Hr]; cbn [negb]; intros [= <- <-] Hp.
  - destruct (reached now (deadline j1)) eqn:Er; [|done]. split; [unfold wcore; congruence|]. left. split_and!; [done..|congruence].
  - split; [unfold wcore; cbn; congruence|]. right. cbn. congruence.
Qed.

Lemma pend_spec now j j' : poll_reply now j = (j', REPLY_PENDING) -> wcore j' = wcore j /\ tr j' = tr j /\ reached now (deadline j) = false.
Proof.
  unfold poll_reply. pose proof (drain_core (rxq j) j) as Ec. destruct (drain (rxq j) j) as [j1 r1]. cbn [fst] in Ec. unfold core in Ec. injection Ec as ????????????????.
  destruct (Z.eqb_spec r1 REPLY_PENDING) as [->|Hr]; cbn [negb]; intros [= <- E]; [|done].
  destruct (reached now (deadline j1)) eqn:Er; [done|]. split_and!; [unfold wcore; congruence|congruence|congruence].
Qed.

(** ** The invariant of a write *)

Section write.
Context (l off : Z) (image : list Z).
Context (Hl : 0 < l <= 0xFFFFFC00) (Himg : Z.of_nat (length image) = l).
Context (Hread : forall o n d, 0 <= o -> o + Z.of_nat n <= l -> read_block io_read o n = Some d -> d = sub (Z.to_nat o) n image).

Definition upto (k : nat) : list (list Z) := map (block image) (List.seq 0 k).
Definition data_acked (k : nat) (j : job) : Prop :=
  exists pre, acked (tr j) = pre ++ begin_frame l off :: map (data_frame image) (List.seq 0 k).
Definition verified (j : job) : Prop :=
  exists pre m post payload,
    acked (tr j) = pre ++ begin_frame l off :: map (data_frame image) (List.seq 0 (n_blocks l)) ++ replicate (S m) (md5_frame l off) ++ post /\
    In (Answer OP_SPI_FLASH_MD5 0 payload) (tr j) /\ take 32 payload = hex_of (md5 image).
Definition written (j : job) : Prop := exists pre post, acked (tr j) = pre ++ begin_frame l off :: map (data_frame image) (List.seq 0 (n_blocks l)) ++ post.
Definition outcome (res : Z) (j : job) : Prop := (res = ESP_ROM_OK -> verified j) /\ (res = ESP_ROM_UNVERIFIED -> written j).

Definition in_phase (j : job) : Prop :=
  match phase j with
  | ESP_ROM_IDLE => False
  | ESP_ROM_SYNC | ESP_ROM_MAGIC | ESP_ROM_ATTACH => s_md5 j = md5_starts
  | ESP_ROM_BEGIN => s_md5 j = md5_starts /\ last_sent (tr j) = begin_frame l off
  | ESP_ROM_DATA => exists k, EspRom.seq j = Z.of_nat k /\ (k < n_blocks l)%nat /\ data_acked k j /\ last_sent (tr j) = data_frame image k /\
      s_md5 j = foldl md5_update md5_starts (upto (S k)) /\ s_pkt j = pkt_of (Z.of_nat k) (block image k) /\ s_pkt_chk j = chk_of (block image k)
  | ESP_ROM_MD5 => (exists pre m, acked (tr j) = pre ++ begin_frame l off :: map (data_frame image) (List.seq 0 (n_blocks l)) ++ replicate m (md5_frame l off)) /\ last_sent (tr j) = md5_frame l off /\ want_md5 j = hex_of (md5 image) /\ op j = OP_SPI_FLASH_MD5
  | ESP_ROM_END => outcome (s_pending_result j) j
  | ESP_ROM_DONE => outcome (result j) j
  end.
Record write_ok (j : job) : Prop := {
  wo_len : len j = l; wo_off : offset j = off; wo_blocks : blocks j = (l + 1023) / 1024; wo_sync : sync_only j = false; wo_phase : in_phase j }.

Lemma n_blocks_pos : (0 < n_blocks l)%nat.
Proof. unfold n_blocks. assert (1 <= (l + 1023) / 1024) by (apply Z.div_le_lower_bound; lia). lia. Qed.
Lemma n_blocks_Z : Z.of_nat (n_blocks l) = (l + 1023) / 1024.
Proof. unfold n_blocks. rewrite Z2Nat.id; [done|]. apply Z.div_pos; lia. Qed.

Lemma block_inside k : (k < n_blocks l)%nat -> Z.of_nat k * 1024 < l.
Proof. intros Hk. pose proof n_blocks_Z. pose proof (Z.mul_div_le (l + 1023) 1024). lia. Qed.

Lemma blocks_image : concat (upto (n_blocks l)) = image.
Proof.
  assert (G : forall n, concat (map (block image) (List.seq 0 n)) = take (n * 1024) image).
  { induction n as [|n IH]; [done|]. rewrite seq_S, map_app, concat_app, IH. cbn [map concat plus]. rewrite app_nil_r. unfold block, sub.
    rewrite take_take_drop. f_equal. lia. }
  unfold upto. rewrite G. apply take_ge. pose proof n_blocks_Z. pose proof (Z.mod_pos_bound (l + 1023) 1024). pose proof (Z.div_mod (l + 1023) 1024). lia.
Qed.

(** ** Each operation keeps it *)

Lemma send_trace now o data chk tmo j : tr (send_cmd wire now o data chk tmo j) = tr j ++ [Sent (slip (frame_of o data chk))].
Proof. done. Qed.

Lemma acked_sent f L : acked (L ++ [Sent f]) = acked L.
Proof. unfold acked. by rewrite acks_snoc. Qed.
Lemma last_sent_sent f L : last_sent (L ++ [Sent f]) = f.
Proof. unfold last_sent. by rewrite acks_snoc. Qed.
Lemma acked_answer o r p L : acked (L ++ [Answer o r p]) = acked L ++ if r =? 0 then [last_sent L] else [].
Proof. unfold acked, last_sent. rewrite acks_snoc. cbn. destruct (r =? 0); [done|by rewrite app_nil_r]. Qed.
Lemma last_sent_answer o r p L : last_sent (L ++ [Answer o r p]) = last_sent L.
Proof. unfold last_sent. by rewrite acks_snoc. Qed.

(** Sending block [k]: the job is in the data phase of block [k], or the source failed. *)
Lemma next_block_ok now j k : len j = l -> offset j = off -> blocks j = (l + 1023) / 1024 -> sync_only j = false ->
  phase j = ESP_ROM_DATA -> EspRom.seq j = Z.of_nat k -> (k < n_blocks l)%nat -> data_acked k j -> s_md5 j = foldl md5_update md5_starts (upto k) ->
  write_ok (next_block io_read wire now j).
Proof.
  intros E1 E2 E3 E4 Ep Es Hk Ha Hm. pose proof (block_inside k Hk) as Hin. unfold next_block, send_block.
  assert (Eo : u32 (EspRom.seq j * ESP_ROM_BLOCK) = Z.of_nat k * 1024) by (rewrite Es, u32_id; lia).
  destruct (read_block io_read _ _) as [d|] eqn:Er.
  - assert (Ed : d = block image k).
    { assert (Hb : 0 <= block_len j <= l - Z.of_nat k * 1024) by (unfold block_len; rewrite Eo, E1, u32_id by lia; destruct (Z.ltb_spec (l - Z.of_nat k * 1024) ESP_ROM_BLOCK); lia).
      apply Hread in Er; [|lia|lia]. rewrite Er, Eo. unfold block. replace (Z.to_nat (Z.of_nat k * 1024)) with (k * 1024)%nat by lia.
      unfold block_len. rewrite Eo, E1, u32_id by lia. destruct (Z.ltb_spec (l - Z.of_nat k * 1024) ESP_ROM_BLOCK); [|done].
      unfold sub. rewrite (take_ge _ 1024%nat) by (rewrite length_drop; lia). rewrite take_ge; [done|]. rewrite length_drop. lia. }
    subst d. split; [done..|]. unfold in_phase. cbn [send_pkt send_cmd note phase]. rewrite Ep. exists k.
    cbn [send_pkt send_cmd note EspRom.seq s_md5 s_pkt s_pkt_chk tr]. rewrite Es.
    split_and!; [done|done| | | |done|done].
    + destruct Ha as [pre Ha]. exists pre. cbn [send_pkt send_cmd note tr]. by rewrite acked_sent.
    + by rewrite last_sent_sent.
    + rewrite Hm. unfold upto. by rewrite seq_S, map_app, foldl_app.
  - split; [done..|]. split; cbn [finish result]; done.
Qed.

(** What an answer leaves: the same job with the answer noted. *)
Definition took (j : job) (r : Z) (j' : job) : Prop :=
  wcore j' = wcore j /\ ((r = -1 /\ tr j' = tr j) \/ tr j' = tr j ++ [Answer (op j) r (if r =? 0 then s_payload j' else [])]).

Lemma took_acked j r j' : took j r j' -> acked (tr j') = acked (tr j) ++ (if r =? 0 then [last_sent (tr j)] else []) /\ last_sent (tr j') = last_sent (tr j).
Proof.
  intros [_ [[-> ->]| ->]]; [by rewrite app_nil_r|]. by rewrite acked_answer, last_sent_answer.
Qed.

Lemma data_acked_failed k j r j' : took j r j' -> r <> 0 -> data_acked k j -> data_acked k j'.
Proof. intros Ht Hr [pre Ha]. exists pre. destruct (took_acked _ _ _ Ht) as [-> _]. apply Z.eqb_neq in Hr as ->. by rewrite app_nil_r. Qed.

Ltac fields_of Ht := let E := fresh "E" in pose proof (proj1 Ht) as E; unfold wcore in E; injection E as ??????????????.
Ltac sending := unfold data_acked; cbn [send_cmd send_pkt send_sync send_md5 send_end note tr]; rewrite ?acked_sent, ?last_sent_sent.

Lemma early_ok j j' r now : write_ok j -> took j r j' -> In (phase j) [ESP_ROM_SYNC; ESP_ROM_MAGIC; ESP_ROM_ATTACH] -> write_ok (advance io_read wire now r j').
Proof.
  intros [E1 E2 E3 E4 Hp] Ht Hin. fields_of Ht. unfold in_phase in Hp. unfold advance. replace (phase j') with (phase j) by congruence.
  destruct Hin as [Ep|[Ep|[Ep|[]]]]; rewrite <- Ep in Hp |- *.
  - unfold on_sync. destruct (r =? 0); [split; cbn; congruence|]. destruct (_ <? _); split; cbn; try congruence; unfold in_phase; cbn; [|done]. replace (phase j') with ESP_ROM_SYNC by congruence. congruence.
  - unfold on_magic. cbv zeta. cbn [sync_only]. replace (sync_only j') with false by congruence. split; cbn; congruence.
  - unfold on_attach. split; try (cbn; congruence). unfold in_phase. cbn [send_cmd note phase s_md5 tr]. split; [congruence|]. rewrite last_sent_sent. unfold begin_frame, begin_data. do 2 f_equal. cbn [len blocks offset]. congruence.
Qed.

Lemma rom_begin_ok j j' r now : write_ok j -> took j r j' -> phase j = ESP_ROM_BEGIN -> write_ok (advance io_read wire now r j').
Proof.
  intros [E1 E2 E3 E4 Hp] Ht Ep. fields_of Ht. destruct (took_acked _ _ _ Ht) as [Ta Tl]. unfold in_phase in Hp. rewrite Ep in Hp. destruct Hp as [Hm Hs]. unfold advance. replace (phase j') with ESP_ROM_BEGIN by congruence. unfold on_begin.
  destruct (Z.eqb_spec r 0) as [->|Hr]; cbn [negb]; [|split; cbn; try congruence; by split].
  apply (next_block_ok now _ 0); cbn [len offset blocks sync_only phase EspRom.seq s_md5]; try congruence; [done|apply n_blocks_pos| |cbn; congruence].
  exists (acked (tr j)). cbn [tr List.seq map]. rewrite Ta, Hs. done.
Qed.

Lemma data_ok j j' r now : write_ok j -> took j r j' -> phase j = ESP_ROM_DATA -> write_ok (advance io_read wire now r j').
Proof.
  intros [E1 E2 E3 E4 Hp] Ht Ep. fields_of Ht. destruct (took_acked _ _ _ Ht) as [Ta Tl]. unfold in_phase in Hp. rewrite Ep in Hp. destruct Hp as (k & Hs & Hk & Ha & Hf & Hm & Hpk & Hc).
  unfold advance. replace (phase j') with ESP_ROM_DATA by congruence. unfold on_data. pose proof (block_inside k Hk). pose proof n_blocks_Z as HN.
  destruct (Z.eqb_spec r 0) as [->|Hr]; cbn [negb].
  - assert (Ha' : data_acked (S k) j').
    { destruct Ha as [pre Ha]. exists pre. rewrite Ta, Ha, Hf. cbn [Z.eqb]. rewrite seq_S, map_app. by rewrite <- app_assoc, app_comm_cons. }
    cbv zeta. cbn [EspRom.seq blocks]. assert (Es : u32 (EspRom.seq j' + 1) = Z.of_nat (S k)) by (rewrite u32_id; lia).
    destruct (Z.ltb_spec (u32 (EspRom.seq j' + 1)) (blocks j')).
    + apply (next_block_ok now _ (S k)); cbn [len offset blocks sync_only phase EspRom.seq s_md5]; try congruence; [lia|].
      replace (s_md5 j') with (s_md5 j) by congruence. done.
    + assert (k = n_blocks l - 1)%nat as -> by lia. replace (S (n_blocks l - 1)) with (n_blocks l) in * by lia. split; try (cbn; congruence). unfold in_phase. cbn [send_md5 send_cmd note phase want_md5 op].
      split_and!; [|cbn [send_md5 send_cmd note tr]; rewrite last_sent_sent; unfold md5_frame; do 2 f_equal; cbn [offset len]; congruence| |done].
      * destruct Ha' as [pre Ha']. exists pre, 0%nat. cbn [tr replicate]. rewrite app_nil_r. sending. done.
      * f_equal. cbn [s_md5]. replace (s_md5 j') with (s_md5 j) by congruence. rewrite Hm, md5_pieces, blocks_image. done.
  - destruct (_ <=? _); [split; cbn; try congruence; by split|]. split; cbn; try congruence. unfold in_phase. cbn [send_pkt send_cmd note phase]. replace (phase j') with ESP_ROM_DATA by congruence. exists k. unfold data_acked. cbn [send_pkt send_cmd note EspRom.seq s_md5 s_pkt s_pkt_chk tr].
    split_and!; try (congruence || lia).
    + destruct (data_acked_failed k _ _ _ Ht Hr Ha) as [pre Ha']. exists pre. cbn [tr]. by rewrite acked_sent.
    + cbn [tr]. rewrite last_sent_sent. unfold data_frame. by replace (s_pkt j') with (s_pkt j) by congruence; replace (s_pkt_chk j') with (s_pkt_chk j) by congruence; rewrite Hpk, Hc.
Qed.

Lemma md5_ok j j' r now : write_ok j -> took j r j' -> phase j = ESP_ROM_MD5 -> write_ok (advance io_read wire now r j').
Proof.
  intros [E1 E2 E3 E4 Hp] Ht Ep. fields_of Ht. destruct (took_acked _ _ _ Ht) as [Ta Tl]. unfold in_phase in Hp. rewrite Ep in Hp. destruct Hp as ((pre & m & Ha) & Hf & Hw & Ho).
  unfold advance. replace (phase j') with ESP_ROM_MD5 by congruence. unfold on_md5. cbv zeta.
  assert (Ta' : exists m', acked (tr j') = pre ++ begin_frame l off :: map (data_frame image) (List.seq 0 (n_blocks l)) ++ replicate m' (md5_frame l off) /\ (r = 0 -> m' = S m)).
  { rewrite Ta, Ha, Hf. destruct (Z.eqb_spec r 0) as [->|Hr]; [|exists m; split; [by rewrite app_nil_r|done]]. exists (S m). split; [|done].
    rewrite <- app_assoc. cbn [app]. rewrite <- app_assoc. by rewrite <- replicate_cons_app. }
  destruct Ta' as (m' & Ta' & Hm').
  destruct ((r =? 0) && _) eqn:Er.
  - apply andb_true_iff in Er as [->%Z.eqb_eq _]. cbn [got_md5 want_md5]. case_bool_decide as Em; cbn [negb]; [|split; cbn; try congruence; by split].
    split; try (cbn; congruence). unfold in_phase. cbn [send_end send_cmd note phase s_pending_result]. split; [intros _|done].
    exists pre, m, [], (s_payload j'). cbn [send_end send_cmd note tr]. rewrite acked_sent. split_and!.
    + rewrite Ta', app_nil_r. by rewrite Hm'.
    + destruct (proj2 Ht) as [[? _]| ->]; [done|]. cbn [Z.eqb]. rewrite Ho. apply in_or_app. left. apply in_or_app. right. by left.
    + rewrite Em. congruence.
  - destruct (attempt j' <? _).
    + split; try (cbn; congruence). unfold in_phase. cbn [send_md5 send_cmd note phase]. replace (phase j') with ESP_ROM_MD5 by congruence. cbn [want_md5 op].
      unfold data_acked. cbn [send_md5 send_cmd note tr want_md5 op].
      split_and!; [|cbn [send_md5 send_cmd note tr]; rewrite last_sent_sent; unfold md5_frame; do 2 f_equal; cbn [offset len]; congruence|cbn [want_md5]; congruence|done].
      exists pre, m'. cbn [tr]. by rewrite acked_sent.
    + split; try (cbn; congruence). unfold in_phase. cbn [send_end send_cmd note phase s_pending_result]. split; [done|intros _].
      unfold written. cbn [send_end send_cmd note tr]. rewrite acked_sent. by exists pre, (replicate m' (md5_frame l off)).
Qed.

Lemma outcome_later res j j' r : took j r j' -> outcome res j -> outcome res j'.
Proof.
  intros Ht [Hv Hw]. destruct (took_acked _ _ _ Ht) as [Ta _]. split.
  - intros E. destruct (Hv E) as (pre & m & post & pl & Ha & Hi & Hm). exists pre, m, (post ++ if r =? 0 then [last_sent (tr j)] else []), pl. split_and!; [|destruct (proj2 Ht) as [[_ ->]| ->]; [done|apply in_or_app; by left]|done].
    rewrite Ta, Ha. by rewrite <- !app_assoc, <- app_comm_cons, <- !app_assoc.
  - intros E. destruct (Hw E) as (pre & post & Ha). exists pre, (post ++ if r =? 0 then [last_sent (tr j)] else []). rewrite Ta, Ha. by rewrite <- !app_assoc, <- app_comm_cons, <- !app_assoc.
Qed.

Lemma end_ok j j' r now : write_ok j -> took j r j' -> phase j = ESP_ROM_END -> write_ok (advance io_read wire now r j').
Proof.
  intros [E1 E2 E3 E4 Hp] Ht Ep. fields_of Ht. unfold in_phase in Hp. rewrite Ep in Hp. unfold advance. replace (phase j') with ESP_ROM_END by congruence. split; try (cbn; congruence).
  unfold in_phase. cbn [finish phase result]. replace (s_pending_result j') with (s_pending_result j) by congruence. exact (outcome_later _ _ _ _ Ht Hp).
Qed.

Lemma write_ok_core j j' : wcore j' = wcore j -> tr j' = tr j -> write_ok j -> write_ok j'.
Proof.
  intros E Et [E1 E2 E3 E4 Hp]. unfold wcore in E. injection E as E5 E6 E7 E8 E9 E10 E11 E12 E13 E14 E15 E16 E17 E18. split; [congruence..|]. unfold in_phase, outcome, verified, written, data_acked in *. rewrite E9, E8, E10, E13, E14, E15, E16, E17, E18, Et. exact Hp.
Qed.

Lemma rom_step_ok now sent j : write_ok j -> write_ok (fst (esp_rom_job_step io_read wire now sent j)).
Proof.
  intros Hj. unfold esp_rom_job_step. destruct (negb (running j)) eqn:Er; [done|]. destruct (poll_reply now j) as [j1 r] eqn:Ep. destruct (Z.eqb_spec r REPLY_PENDING) as [->|Hr]; cbn [fst].
  - destruct (pend_spec now j j1 Ep) as (E1 & E2 & _). by apply (write_ok_core j).
  - destruct (reply_spec now j j1 r Ep Hr) as [E T]. assert (Ht : took j r j1) by (split; [done|]; destruct T as [(? & ? & _)|]; auto).
    apply negb_false_iff, andb_true_iff in Er as [R1%negb_true_iff%bool_decide_eq_false R2%negb_true_iff%bool_decide_eq_false].
    destruct (phase j) eqn:Eph; try done; try (eapply early_ok; [exact Hj|exact Ht|rewrite Eph; cbn; tauto]).
    + by eapply rom_begin_ok. + by eapply data_ok. + by eapply md5_ok. + by eapply end_ok.
Qed.

Lemma rom_run_ok ts j : write_ok j -> write_ok (run io_read wire ts j).
Proof.
  revert j. induction ts as [|t ts IH]; intros j Hj; [done|]. cbn [run fold_left]. apply IH. unfold turn_step. apply rom_step_ok. by apply (write_ok_core j).
Qed.

Lemma start_ok now j : write_ok (esp_rom_job_start wire now l off j).
Proof.
  unfold esp_rom_job_start. destruct (Z.eqb_spec l 0); [lia|]. split; try done. cbn [send_sync send_cmd note blocks]. rewrite u32_id by lia. f_equal. lia.
Qed.

(** A write reported verified is one. When the job of an image ends with
    ESP_ROM_OK, FLASH_BEGIN for its length and offset was acknowledged, then every
    block of the image in order, each padded and checksummed, then a request for the
    MD5 of that region; and the MD5 the ROM answered is the image's. A write reported
    unverified had every block acknowledged. *)
Theorem flash_verified now ts j : let j' := run io_read wire ts (esp_rom_job_start wire now l off j) in
  phase j' = ESP_ROM_DONE -> (result j' = ESP_ROM_OK -> verified j') /\ (result j' = ESP_ROM_UNVERIFIED -> written j').
Proof.
  intros j' Hd. destruct (rom_run_ok ts _ (start_ok now j)) as [_ _ _ _ Hp]. fold j' in Hp. unfold in_phase in Hp. rewrite Hd in Hp. exact Hp.
Qed.
End write.

(** ** The job ends

    What is left: one for every answer or timeout the job can still take. *)

Definition left_phase (p : esp_rom_phase_t) (n at_ sq : Z) : Z :=
  match p with
  | ESP_ROM_IDLE | ESP_ROM_DONE => 0
  | ESP_ROM_SYNC => (10 - at_) + 3 * n + 8
  | ESP_ROM_MAGIC => 3 * n + 7
  | ESP_ROM_ATTACH => 3 * n + 6
  | ESP_ROM_BEGIN => 3 * n + 5
  | ESP_ROM_DATA => 3 * (n - sq - 1) + (3 - at_) + 5
  | ESP_ROM_MD5 => (3 - at_) + 2
  | ESP_ROM_END => 1
  end.
Definition left (j : job) : Z := left_phase (phase j) (blocks j) (attempt j) (EspRom.seq j).
Record live (j : job) : Prop := {
  lv_blocks : 1 <= blocks j < 2 ^ 31;
  lv_attempt : match phase j with ESP_ROM_SYNC => 1 <= attempt j <= 10 | ESP_ROM_DATA | ESP_ROM_MD5 => 1 <= attempt j <= 3 | _ => True end;
  lv_seq : phase j = ESP_ROM_DATA -> 0 <= EspRom.seq j < blocks j;
  lv_idle : phase j <> ESP_ROM_IDLE;
}.

Definition sent_count (L : list rom_ev) : Z := foldr (fun e n => match e with Sent _ => 1 | _ => 0 end + n) 0 L.
Lemma sent_count_app L1 L2 : sent_count (L1 ++ L2) = sent_count L1 + sent_count L2.
Proof. induction L1 as [|e L1 IH]; cbn [app sent_count foldr] in *; [done|]. fold (sent_count (L1 ++ L2)) (sent_count L1). lia. Qed.
Lemma sent_count_snoc L e : sent_count (L ++ [e]) = sent_count L + match e with Sent _ => 1 | _ => 0 end.
Proof. rewrite sent_count_app. destruct e; cbn; lia. Qed.

(** A step with an answer or a timeout uses one and sends at most one frame. *)
Definition uses (j j' : job) : Prop := live j' /\ left j' + (sent_count (tr j') - sent_count (tr j)) <= left j /\ left j' < left j.

Lemma left_nonneg j : live j -> phase j <> ESP_ROM_DONE -> 1 <= left j.
Proof. intros [Hb Ha Hs Hi] Hd. unfold left, left_phase. destruct (phase j); try done; try lia. specialize (Hs eq_refl). lia. Qed.

Ltac used Ep := unfold left, left_phase; cbn [finish send_cmd send_sync send_pkt send_md5 send_end note phase blocks attempt EspRom.seq tr] in *; rewrite ?sent_count_snoc, ?Ep; cbn beta iota.

Lemma next_block_uses now L n j0 j k : blocks j = blocks j0 -> 1 <= blocks j0 < 2 ^ 31 -> tr j = tr j0 -> phase j = ESP_ROM_DATA -> EspRom.seq j = k -> 0 <= k < blocks j ->
  3 * (blocks j - k - 1) + 8 <= L -> n = sent_count (tr j0) -> let j' := next_block io_read wire now j in
  live j' /\ left j' + (sent_count (tr j') - n) <= L /\ left j' < L.
Proof.
  intros Eb Hb Et Ep Es Hk Hl -> j'. unfold j', next_block, send_block. destruct (read_block _ _ _) as [d|].
  - split; [split; cbn; rewrite ?Ep; cbn; intros; first [lia|done]|]. used Ep. rewrite Et, Es. lia.
  - split; [split; cbn; try done; lia|]. used Ep. rewrite Et. lia.
Qed.

Lemma advance_uses now r j : live j -> running j = true ->
  let j' := advance io_read wire now r j in live j' /\ left j' + (sent_count (tr j') - sent_count (tr j)) <= left j /\ left j' < left j.
Proof.
  intros [Hb Ha Hs Hi] Hr. cbv zeta. unfold running in Hr. unfold advance. destruct (phase j) eqn:Ep; try done; clear Hr.
  - unfold on_sync. destruct (r =? 0); [|destruct (Z.ltb_spec (attempt j) 10)].
    + split; [split; cbn; first [done|lia]|]. used Ep. lia.
    + split; [split; cbn; rewrite ?Ep; first [done|rewrite u8_id; lia]|]. used Ep. rewrite u8_id; lia.
    + split; [split; cbn; first [done|lia]|]. used Ep. lia.
  - unfold on_magic. cbv zeta. destruct (sync_only _); (split; [split; cbn; first [done|lia]|]); used Ep; lia.
  - unfold on_attach. split; [split; cbn; first [done|lia]|]. used Ep. lia.
  - unfold on_begin. destruct (Z.eqb_spec r 0); cbn [negb]; [|split; [split; cbn; first [done|lia]|]; used Ep; lia].
    apply (next_block_uses now (left j) _ j _ 0); try done; cbn; try lia. unfold left, left_phase. rewrite Ep. lia.
  - specialize (Hs eq_refl). unfold on_data. destruct (Z.eqb_spec r 0) as [Er|Er]; cbn [negb].
    + cbv zeta. cbn [EspRom.seq blocks]. rewrite u32_id by lia. destruct (Z.ltb_spec (EspRom.seq j + 1) (blocks j)).
      * apply (next_block_uses now (left j) _ j _ (EspRom.seq j + 1)); try done; cbn; try lia. unfold left, left_phase. rewrite Ep. lia.
      * split; [split; cbn; first [done|lia]|]. used Ep. lia.
    + destruct (Z.leb_spec 3 (attempt j)); [split; [split; cbn; first [done|lia]|]; used Ep; lia|].
      split; [split; cbn; rewrite ?Ep; first [done|lia|intros; lia|rewrite u8_id; lia]|]. used Ep. rewrite u8_id; lia.
  - unfold on_md5. cbv zeta. destruct ((r =? 0) && _).
    + match goal with |- context [bool_decide ?P] => destruct (bool_decide P) end; cbn [negb]; (split; [split; cbn; first [done|lia]|]); used Ep; lia.
    + destruct (Z.ltb_spec (attempt j) 3); [|split; [split; cbn; first [done|lia]|]; used Ep; lia].
      split; [split; cbn; rewrite ?Ep; first [done|lia|intros; lia|rewrite u8_id; lia]|]. used Ep. rewrite u8_id; lia.
  - split; [split; cbn; first [done|lia]|]. used Ep. lia.
Qed.

(** A turn taken past the deadline of the command in flight. *)
Definition late (t : turn) (j : job) : Prop := reached (t_now t) (deadline j) = true.

Lemma live_core j j' : wcore j' = wcore j -> sent_count (tr j') = sent_count (tr j) -> live j -> live j' /\ left j' = left j /\ running j' = running j.
Proof.
  intros E _ [Hb Ha Hs Hi]. unfold wcore in E. injection E as E5 E6 E7 E8 E9 E10 E11 E12 E13 E14 E15 E16 E17 E18. split; [split; rewrite ?E7, ?E9, ?E11, ?E8; done|]. unfold left, running. by rewrite E7, E9, E11, E8.
Qed.

Lemma turn_uses t j : live j -> let j' := turn_step io_read wire t j in
  live j' /\ left j' + (sent_count (tr j') - sent_count (tr j)) <= left j /\ left j' <= left j /\ (late t j -> running j = true -> left j' < left j).
Proof.
  intros Hj. unfold turn_step, esp_rom_job_step. set (j0 := {| EspRom.len := _ |}).
  destruct (live_core j j0) as (L0 & E0 & R0); [done..|]. change (sent_count (tr j)) with (sent_count (tr j0)). destruct (running j0) eqn:Hr; cbn [negb].
  - destruct (poll_reply (t_now t) j0) as [j1 r] eqn:Ep. destruct (Z.eqb_spec r REPLY_PENDING) as [->|Hp]; cbn [fst].
    + destruct (pend_spec _ _ _ Ep) as (E1 & E2 & E3). destruct (live_core j0 j1) as (L1 & E4 & R1); [done|by rewrite E2|done|]. split_and!; [done|rewrite E2; lia|lia|].
      intros Hl. unfold late in Hl. change (deadline j) with (deadline j0) in Hl. congruence.
    + destruct (reply_spec _ _ _ _ Ep Hp) as [E1 T]. assert (E2 : sent_count (tr j1) = sent_count (tr j0)) by (destruct T as [(_ & -> & _)| ->]; [done|rewrite sent_count_snoc; lia]).
      destruct (live_core j0 j1) as (L1 & E4 & R1); [done..|]. destruct (advance_uses (t_sent t) r j1 L1 ltac:(congruence)) as (A1 & A2 & A3). split_and!; [done|lia|lia|intros; lia].
  - cbn [fst]. split_and!; [done|lia|lia|]. intros _ R. congruence.
Qed.

(** Every turn is taken past the deadline the job had then. *)
Fixpoint all_late (ts : list turn) (j : job) : Prop :=
  match ts with [] => True | t :: ts => late t j /\ all_late ts (turn_step io_read wire t j) end.

Lemma run_uses ts j : live j -> let j' := run io_read wire ts j in
  live j' /\ left j' + (sent_count (tr j') - sent_count (tr j)) <= left j /\ (all_late ts j -> left j' <= Z.max 0 (left j - Z.of_nat (length ts))).
Proof.
  revert j. induction ts as [|t ts IH]; intros j Hj; cbn [run fold_left all_late length].
  - split_and!; [done|lia|]. lia.
  - destruct (turn_uses t j Hj) as (L1 & A1 & M1 & B1). destruct (IH _ L1) as (L2 & A2 & B2). unfold run in *. split_and!; [done|lia|]. intros [Ht Hts]. specialize (B2 Hts).
    destruct (running j) eqn:Hr; [specialize (B1 Ht eq_refl); lia|].
    assert (left j = 0) by (unfold running in Hr; unfold left, left_phase; destruct (phase j); done). lia.
Qed.


(** ** What the ROM encodes, the job decodes *)

(** A reply of the ROM: [sl] status bytes after the payload. *)
Definition reply_frame (o value : Z) (payload : list Z) (status err : Z) (sl : nat) : list Z :=
  [1; o] ++ le 2 (Z.of_nat (length payload + sl)) ++ le 4 value ++ payload ++ [status; err] ++ replicate (sl - 2) 0.

Definition store (f : list Z) (j : job) : job := foldl (fun j c => put_resp c j) j f.

Lemma put_flags c j : in_frame (put_resp c j) = in_frame j /\ esc (put_resp c j) = esc j /\ rxq (put_resp c j) = rxq j /\ status_len (put_resp c j) = status_len j.
Proof. unfold put_resp. by destruct (_ <? _)%nat. Qed.

Lemma drain_byte b q j : in_frame j = true -> esc j = false -> drain (slip_byte b ++ q) j = drain q (put_resp b j).
Proof.
  intros Hi He. unfold slip_byte. destruct (Z.eqb_spec b SLIP_END) as [->|H1]; [|destruct (Z.eqb_spec b SLIP_ESC) as [->|H2]]; cbn [app drain Z.eqb Pos.eqb]; rewrite ?Hi; cbn [negb].
  - rewrite He. destruct j. cbn in Hi, He. by subst.
  - rewrite He. destruct j. cbn in Hi, He. by subst.
  - apply Z.eqb_neq in H1 as ->. apply Z.eqb_neq in H2 as ->. by rewrite He.
Qed.

Lemma drain_frame f q j : in_frame j = true -> esc j = false -> drain (concat (map slip_byte f) ++ q) j = drain q (store f j).
Proof.
  revert j. induction f as [|b f IH]; intros j Hi He; [done|]. cbn [map concat]. rewrite <- app_assoc, drain_byte by done. destruct (put_flags b j) as (E1 & E2 & _). rewrite IH by congruence. done.
Qed.

Lemma store_spec f j : (rn j + length f <= RESP)%nat -> length (s_resp j) = RESP ->
  s_resp (store f j) = take (rn j) (s_resp j) ++ f ++ drop (rn j + length f) (s_resp j) /\ rn (store f j) = (rn j + length f)%nat /\
  core (store f j) = core j /\ in_frame (store f j) = in_frame j /\ esc (store f j) = esc j /\ status_len (store f j) = status_len j.
Proof.
  revert j. induction f as [|b f IH]; intros j Hr Hs; cbn [store foldl length] in *.
  - rewrite Nat.add_0_r. cbn [app]. by rewrite take_drop.
  - fold (store f (put_resp b j)). pose proof (put_core b j) as Ec. destruct (put_flags b j) as (E1 & E2 & _ & E3).
    assert (Ep : put_resp b j = {| j with s_resp := <[rn j := b]> (s_resp j); rn := S (rn j) |}) by (unfold put_resp; destruct (Nat.ltb_spec (rn j) RESP); [done|lia]).
    destruct (IH (put_resp b j)) as (I1 & I2 & I3 & I4 & I5 & I6); [rewrite Ep; cbn [rn]; lia|rewrite Ep; cbn [s_resp]; by rewrite length_insert|].
    split_and!; try congruence; [|rewrite I2, Ep; cbn [rn]; lia]. rewrite I1, Ep. cbn [s_resp rn].
    rewrite (take_S_r _ _ b) by (rewrite list_lookup_insert_eq; [done|lia]). rewrite take_insert_ge by lia. rewrite drop_insert_lt by lia. rewrite <- app_assoc. cbn [app]. by replace (rn j + S (length f))%nat with (S (rn j) + length f)%nat by lia.
Qed.

Lemma drain_noise noise q j : in_frame j = false -> Forall (fun b => b <> SLIP_END) noise -> drain (noise ++ q) j = drain q j.
Proof. intros Hi. induction 1 as [|b noise Hb _ IH]; [done|]. cbn [app drain]. apply Z.eqb_neq in Hb as ->. by rewrite Hi. Qed.

Lemma drain_slip noise f q j : in_frame j = false -> esc j = false -> rn j = 0%nat -> (0 < length f <= RESP)%nat -> length (s_resp j) = RESP -> Forall (fun b => b <> SLIP_END) noise ->
  exists jf, core jf = core j /\ status_len jf = status_len j /\ rn jf = length f /\ take (length f) (s_resp jf) = f /\
    (forall r j', eval_frame jf = (j', r) -> r <> REPLY_PENDING -> drain (noise ++ slip f ++ q) j = ({| {| j' with rn := 0%nat; esc := false |} with rxq := q |}, r)).
Proof.
  intros Hi He Hr Hf Hs Hn. exists (store f {| j with in_frame := true |}). destruct (store_spec f {| j with in_frame := true |}) as (S1 & S2 & S3 & S4 & S5 & S6); [cbn [rn]; lia|done|].
  cbn [s_resp rn in_frame esc status_len] in *. rewrite Hr in *. split_and!; [exact S3|done|done|rewrite S1, take_0; cbn [app]; by rewrite take_app_length|].
  intros r j' Ee Hp. rewrite drain_noise by done. unfold slip. rewrite <- app_comm_cons. cbn [drain Z.eqb Pos.eqb]. rewrite Hi. cbn [andb Z.eqb Pos.eqb].
  rewrite <- app_assoc, drain_frame by done. cbn [app drain Z.eqb Pos.eqb]. rewrite Hr, S4, S2. destruct (Nat.ltb_spec 0 (0 + length f)); [|lia]. cbn [andb]. rewrite Ee. apply Z.eqb_neq in Hp as ->. done.
Qed.

Lemma nth_take (l : list Z) n i : (i < n)%nat -> nth i (take n l) 0 = nth i l 0.
Proof. intros Hi. rewrite !nth_lookup, lookup_take_lt by done. done. Qed.

Lemma sub_take (l : list Z) n a b : (a + b <= n)%nat -> sub a b (take n l) = sub a b l.
Proof. intros Hn. unfold sub. rewrite !take_drop_commute, take_take. do 2 f_equal. lia. Qed.

(** A buffer that starts with a reply evaluates to it. *)
Lemma reply_evaluated value payload status err sl j : let f := reply_frame (op j) value payload status err sl in
  rn j = length f -> take (length f) (s_resp j) = f -> 0 <= value < 2 ^ 32 -> sl = 2%nat \/ sl = 4%nat ->
  status_len j = Z.of_nat sl \/ status_len j = 0 /\ payload = [] -> (length payload + sl + 8 <= RESP)%nat ->
  exists jr, eval_frame j = (jr, if status =? 0 then 0 else - (100 + err)) /\ op jr = op j /\ (status = 0 -> s_value jr = value /\ s_payload jr = payload).
Proof.
  intros f Hr Ht Hv Hsl Hst Hlen.
  assert (Lf : length f = (8 + length payload + sl)%nat) by (unfold f, reply_frame; rewrite !length_app, !le_length, length_replicate; cbn [length]; lia).
  assert (B : forall i, (i < length f)%nat -> nth i (s_resp j) 0 = nth i f 0) by (intros i Hil; rewrite <- (nth_take _ (length f)) by done; by rewrite Ht).
  set (size := Z.of_nat (length payload + sl)). assert (Hs : 0 <= size < 65536) by (unfold RESP in Hlen; lia).
  assert (Esz : nth 2 (s_resp j) 0 + 256 * nth 3 (s_resp j) 0 = size).
  { rewrite !B by lia. unfold f, reply_frame. cbn [app nth le]. fold size. rewrite (Z.mod_small (size / 256)) by (split; [apply Z.div_pos; lia|apply Z.div_lt_upper_bound; lia]). pose proof (Z.div_mod size 256). lia. }
  assert (Ef : f = ([1; op j] ++ le 2 size ++ le 4 value) ++ payload ++ [status; err] ++ replicate (sl - 2) 0) by (unfold f, reply_frame; fold size; by rewrite <- !app_assoc).
  assert (Est : forall k, (k < 2)%nat -> nth (8 + length payload + k) (s_resp j) 0 = nth k [status; err] 0).
  { intros k Hk. rewrite B by lia. rewrite Ef, app_nth2 by (rewrite !length_app, !le_length; cbn [length]; lia). rewrite !length_app, !le_length. cbn [length].
    rewrite app_nth2 by lia. rewrite app_nth1 by (cbn [length]; lia). f_equal. lia. }
  unfold eval_frame. cbv zeta. rewrite Hr, Lf. change (Z.to_nat 0) with 0%nat. change (Z.to_nat 1) with 1%nat. change (Z.to_nat 2) with 2%nat. change (Z.to_nat 3) with 3%nat.
  rewrite Esz, (B 0%nat), (B 1%nat) by lia. cbn [nth f reply_frame app]. rewrite !Z.eqb_refl. destruct (Z.ltb_spec (Z.of_nat (8 + length payload + sl)) 10); [lia|]. cbn [orb negb].
  destruct (Z.ltb_spec (Z.of_nat (8 + length payload + sl)) (8 + size)); [lia|]. cbn [status_len s_resp].
  assert (Esl : (if status_len j =? 0 then if size =? 4 then 4 else 2 else status_len j) = Z.of_nat sl).
  { destruct Hst as [E|[E ->]]; rewrite E.
    - destruct (Z.eqb_spec (Z.of_nat sl) 0); lia.
    - cbn [Z.eqb]. destruct Hsl as [-> | ->]; done. }
  rewrite Esl. destruct (Z.ltb_spec size (Z.of_nat sl)); [lia|].
  replace (Z.to_nat (8 + size - Z.of_nat sl)) with (8 + length payload + 0)%nat by lia. replace (Z.to_nat (8 + size - Z.of_nat sl + 1)) with (8 + length payload + 1)%nat by lia.
  rewrite !Est by lia. cbn [nth]. destruct (Z.eqb_spec status 0) as [E|E]; cbn [negb]; eexists; (split; [reflexivity|]); (split; [done|]); [|done]. intros _. cbn [s_value s_payload].
  rewrite <- !(sub_take (s_resp j) (length f)) by lia. rewrite Ht. split.
  - rewrite Ef, <- !app_assoc. cbn [app]. change (sub 4 4 _) with (take 4 (le 4 value ++ payload ++ status :: err :: replicate (sl - 2) 0)). rewrite take_app_length' by (by rewrite le_length). apply rd_le_le. lia.
  - rewrite Ef. unfold sub. rewrite drop_app_length' by (by rewrite !length_app, !le_length). apply take_app_length'. lia.
Qed.

(** The reply round trip. A reply as the ROM sends it, SLIP-framed, behind noise and
    before whatever follows, is taken as the answer to the command in flight: its status
    or its value and payload come out, and the bytes behind it stay queued. *)
Theorem reply_roundtrip now noise value payload status err sl q j :
  in_frame j = false -> esc j = false -> rn j = 0%nat -> length (s_resp j) = RESP ->
  Forall (fun b => b <> SLIP_END) noise -> 0 <= value < 2 ^ 32 -> 0 <= err -> sl = 2%nat \/ sl = 4%nat ->
  status_len j = Z.of_nat sl \/ status_len j = 0 /\ payload = [] -> (length payload + sl + 8 <= RESP)%nat ->
  rxq j = noise ++ slip (reply_frame (op j) value payload status err sl) ++ q ->
  exists j', poll_reply now j = (j', if status =? 0 then 0 else - (100 + err)) /\ rxq j' = q /\
    (status = 0 -> s_value j' = value /\ s_payload j' = payload).
Proof.
  intros Hi He Hr Hs Hn Hv Herr Hsl Hst Hlen Hq. set (f := reply_frame _ _ _ _ _ _) in *.
  assert (Lf : length f = (8 + length payload + sl)%nat) by (unfold f, reply_frame; rewrite !length_app, !le_length, length_replicate; cbn [length]; lia).
  destruct (drain_slip noise f q j Hi He Hr ltac:(lia) Hs Hn) as (jf & Ec & Es & En & Et & Ed).
  assert (Eop : op jf = op j) by (unfold core in Ec; congruence).
  assert (Efr : exists jr, eval_frame jf = (jr, if status =? 0 then 0 else - (100 + err)) /\ op jr = op jf /\ (status = 0 -> s_value jr = value /\ s_payload jr = payload)).
  { unfold f in En, Et. rewrite <- Eop in En, Et. apply (reply_evaluated value payload status err sl); try done. by rewrite Es. }
  destruct Efr as (jr & Ee & Eo & Hpay). unfold poll_reply. rewrite Hq, (Ed _ jr Ee) by (destruct (status =? 0); lia).
  destruct (Z.eqb_spec (if status =? 0 then 0 else - (100 + err)) REPLY_PENDING) as [E|_]; [destruct (status =? 0); lia|]. cbn [negb].
  eexists. split; [reflexivity|]. split; [done|exact Hpay].
Qed.
End theorems.

(** ** A toy MD5 and a ROM that answers *)

Module ToyRom.
#[export] Instance toy_md5 : Md5 (list Z) := {| md5_starts := []; md5_update := app; md5_finish := fun l => take 16 (l ++ replicate 16 0) |}.
Lemma foldl_app_concat (l : list (list Z)) acc : foldl app acc l = acc ++ concat l.
Proof. revert acc. induction l as [|x l IH]; intros acc; cbn [foldl concat]; [by rewrite app_nil_r|]. by rewrite IH, <- app_assoc. Qed.
#[export, refine] Instance toy_laws : Md5Laws (list Z) := {| md5 := fun l => take 16 (l ++ replicate 16 0) |}.
Proof. intros l. cbn [md5_finish toy_md5 md5_update md5_starts]. by rewrite foldl_app_concat. Defined.

Definition image : list Z := [10; 0xC0; 12; 0xDB; 14].
Definition source (o : Z) (n : nat) : option (list Z) := Some (sub (Z.to_nat o) n image).
Definition wire (n : Z) : Z := n / 11.
Definition idle : esp_rom_job_t (list Z) :=
  Job 0 0 0 0 ESP_ROM_IDLE 0 0 0 0 false 0 0 [] [] 0 0 false false 0 [] 0 (replicate RESP 0) 0 [] [] 0 [1; 2] [].
Abbreviation start := (esp_rom_job_start wire 0 5 0x9000 idle).

(** The answers, four status bytes each; the second turn of the data phase answers nothing in time. *)
Definition ok (o value : Z) (payload : list Z) : turn := Turn (55 :: slip (reply_frame o value payload 0 0 4)) 100 100.
Definition answers : list turn :=
  [ok OP_SYNC 0 []; ok OP_READ_REG 0x1bC0DB6f []; ok OP_SPI_ATTACH 0 []; ok OP_FLASH_BEGIN 0 []; Turn [] 100000 100000; ok OP_FLASH_DATA 0 [];
   ok OP_SPI_FLASH_MD5 0 (hex_of (md5 image)); ok OP_FLASH_END 0 []].
Abbreviation done_job := (run (Some source) wire answers start).
Definition silent : list turn := replicate 20 (Turn [] 1000000 0).

Lemma done_facts : phase done_job = ESP_ROM_DONE /\ result done_job = ESP_ROM_OK /\ resends done_job = 1 /\ chip_magic done_job = 0x1bC0DB6f.
Proof. vm_compute. done. Qed.
Example silent_rom : result (run (Some source) wire silent start) = ESP_ROM_ERR_SYNC.
Proof. vm_compute. done. Qed.
Lemma source_reads : forall o n d, 0 <= o -> o + Z.of_nat n <= 5 -> read_block (Some source) o n = Some d -> d = sub (Z.to_nat o) n image.
Proof. intros o n d _ _. by intros [= <-]. Qed.
Lemma silent_late : all_late (Some source) wire silent start.
Proof. vm_compute. done. Qed.

Lemma len_range : 0 < 5 <= 0xFFFFFC00.
Proof. lia. Qed.
Lemma flash_verified_witness : verified 5 0x9000 image done_job.
Proof. exact (proj1 (flash_verified (Some source) wire 5 0x9000 image len_range eq_refl source_reads 0 answers idle (proj1 done_facts)) (proj1 (proj2 done_facts))). Defined.


Lemma reply_roundtrip_witness : exists j', poll_reply 0 {| idle with rxq := [7] ++ slip (reply_frame 0 0xC0DB [1; 0xC0] 0 0 4) ++ [9]; status_len := 4 |} = (j', 0) /\ rxq j' = [9] /\ (0 = 0 -> s_value j' = 0xC0DB /\ s_payload j' = [1; 0xC0]).
Proof.
  apply (reply_roundtrip 0 [7] 0xC0DB [1; 0xC0] 0 0 4 [9]); [done|done|done|done|by repeat constructor|lia|lia|by right|by left|cbn; unfold RESP; lia|done].
Defined.
End ToyRom.
