(* ===== verification/EspFlash.v ===== *)
(** * Flashing the ESP32-C3 ([esp_rom_flash.c]) and its partition table ([esp_part_table.c])

    The straps, the UART and the W25Q session are the events of the trace; the image is
    the slot [BLOB_ESP] of the blob store; the job is that of [EspRom]. *)

From S2P Require Import Prelude BlobStore EspRom.

Abbreviation ESP_FLASH_START_BUSY := (-1).
Abbreviation ESP_FLASH_START_NO_IMAGE := (-2).
Abbreviation ESP_FLASH_START_BAD_SLOT := (-3).
Abbreviation ESP_FLASH_START_NO_MODULE := (-4).
Abbreviation ESP_UART_FLASH_BAUD := 115200.
Abbreviation ESP_PART_TABLE_OFFSET := 0x8000.
Abbreviation ESP_FLASH_SECTOR_SIZE := 0x1000.
Abbreviation PART_ENTRY_SIZE := 32.
Abbreviation PART_MAGIC := 0x50AA.
Abbreviation PART_TABLE_SIZE := 0x1000.
Abbreviation ESP_FLASH_SIZE_MAX := 0x400000.

(** ** The partition table *)

(** "nvs" with its NUL. *)
Definition nvs_label : list Z := [110; 118; 115; 0].

Fixpoint find_nvs_loop (fuel : nat) (rd : Z -> nat -> option (list Z)) (i : Z) : option (Z * Z) :=
  match fuel with
  | O => None
  | S fuel =>
      match rd (ESP_PART_TABLE_OFFSET + i * PART_ENTRY_SIZE) 32%nat with
      | None => None
      | Some e =>
          let b k := nth k e 0 in
          if negb (b 0%nat + 256 * b 1%nat =? PART_MAGIC) then None
          else if negb (b 2%nat =? 1) || negb (b 3%nat =? 2) then find_nvs_loop fuel rd (i + 1)
          else if negb (bool_decide (sub 12 4 e = nvs_label)) then find_nvs_loop fuel rd (i + 1)
          else
            let off := rd_le (sub 4 4 e) in
            let sz := rd_le (sub 8 4 e) in
            if (sz =? 0) || negb (off mod ESP_FLASH_SECTOR_SIZE =? 0) || negb (sz mod ESP_FLASH_SECTOR_SIZE =? 0) then None
            else if off <? ESP_PART_TABLE_OFFSET + PART_TABLE_SIZE then None
            else if (ESP_FLASH_SIZE_MAX <? off) || (ESP_FLASH_SIZE_MAX - off <? sz) then None
            else Some (off, sz)
      end
  end.
Definition esp_part_find_nvs_rd (rd : Z -> nat -> option (list Z)) : option (Z * Z) := find_nvs_loop 95 rd 0.

Definition mem_read (img : list Z) (off : Z) (n : nat) : option (list Z) :=
  let len := Z.of_nat (length img) in
  if (len <? off) || (len - off <? Z.of_nat n) then None else Some (sub (Z.to_nat off) n img).
Definition esp_part_find_nvs (img : option (list Z)) : option (Z * Z) :=
  match img with None => None | Some img => esp_part_find_nvs_rd (mem_read img) end.

(** ** The UART's receive ring: the interrupt puts, the job takes *)

Definition RX_RING : Z := 1024.
Record ring_t := Ring { s_rx : list Z; s_rx_head : Z; s_rx_tail : Z; s_rx_overruns : Z }.
Definition rx_isr (b : Z) (r : ring_t) : ring_t :=
  if u32 (s_rx_head r - s_rx_tail r) <? RX_RING
  then {| r with s_rx := <[Z.to_nat (Z.land (s_rx_head r) (RX_RING - 1)) := b]> (s_rx r); s_rx_head := u32 (s_rx_head r + 1) |}
  else {| r with s_rx_overruns := u32 (s_rx_overruns r + 1) |}.
Definition uart_rx_byte (r : ring_t) : ring_t * Z :=
  if s_rx_tail r =? s_rx_head r then (r, -1)
  else ({| r with s_rx_tail := u32 (s_rx_tail r + 1) |}, nth (Z.to_nat (Z.land (s_rx_tail r) (RX_RING - 1))) (s_rx r) 0).
Definition uart_flush_rx (r : ring_t) : ring_t := {| r with s_rx_tail := s_rx_head r |}.

(** How long [uart_send] says a frame takes. *)
Definition uart_send_ms (n : Z) : Z := u32 (u32 (n * 10 * 1000) / ESP_UART_FLASH_BAUD + 2).

(** ** Straps *)

Inductive pin := EN | BOOT.
Inductive hw_ev :=
| Gpio (p : pin) (high : bool) | Wait (ms : Z) | UartOn (baud : Z) | UartOff | Flush
| SessionOpen | SessionClose      (* the W25Q, the PSRAM masters stopped *)
| Done (rc : Z).                  (* the caller's callback *)

Definition strap_gpio_init : list hw_ev := [].
Definition strap_enter_download : list hw_ev := [Gpio BOOT false; Gpio EN false; Wait 50; Gpio EN true; Wait 200; Flush].
Definition strap_boot_app : list hw_ev := [Gpio BOOT true; Gpio EN false; Wait 50; Gpio EN true].
Definition strap_hold_reset : list hw_ev := strap_gpio_init ++ [Gpio EN false].
Definition rom_enter : list hw_ev := strap_gpio_init ++ [UartOn ESP_UART_FLASH_BAUD] ++ strap_enter_download.

(** The C3 samples BOOT when EN rises: true is the application, false the ROM loader. *)
Record straps := Straps { en : bool; boot : bool; boots : list bool }.
Definition strap_ev (s : straps) (e : hw_ev) : straps :=
  match e with
  | Gpio EN true => if en s then s else Straps true (boot s) (boots s ++ [boot s])
  | Gpio EN false => {| s with en := false |}
  | Gpio BOOT b => {| s with boot := b |}
  | _ => s
  end.
Definition straps_of (s : straps) (l : list hw_ev) : straps := foldl strap_ev s l.

Section flash.
Context {M : Type} `{Md5 M} {W : Type} `{W25q W} `{Sha256} (module_present : bool) (st : blob_t W).

(** The file's static state; the blob store is only read. *)
Record flash_t := FlashJob { s_job : esp_rom_job_t M; s_active : bool; evs : list hw_ev }.
Definition emit (l : list hw_ev) (f : flash_t) : flash_t := {| f with evs := evs f ++ l |}.

Definition slot_read (off : Z) (n : nat) : option (list Z) := blob_store_read st BLOB_ESP off n.

(** [run_blocking]: a turn per iteration; [None] when the turns given do not reach the end. *)
Fixpoint run_blocking (io_read : option (Z -> nat -> option (list Z))) (ts : list turn) (j : esp_rom_job_t M) : option (esp_rom_job_t M) :=
  match ts with
  | [] => None
  | t :: ts =>
      let '(j, more) := esp_rom_job_step io_read uart_send_ms (t_now t) (t_sent t) {| j with rxq := rxq j ++ t_bytes t |} in
      if more then run_blocking io_read ts j else Some j
  end.

Definition esp_rom_flash_busy (f : flash_t) : bool := s_active f.
Definition esp_rom_flash_progress (f : flash_t) : option (Z * Z) :=
  if negb (s_active f) then None else Some (esp_rom_job_blocks_done (s_job f), blocks (s_job f)).

(** The wiring test: the magic, or [None] for -1. The job is the function's own. *)
Definition esp_rom_flash_sync (now : Z) (ts : list turn) (j : esp_rom_job_t M) (f : flash_t) : option (flash_t * option Z) :=
  if esp_rom_flash_busy f || negb module_present then Some (f, None)
  else
    match run_blocking None ts (esp_rom_job_start_sync uart_send_ms now j) with
    | None => None
    | Some j =>
        let f := emit (rom_enter ++ [UartOff]) f in
        if negb (result j =? ESP_ROM_OK) then Some (emit strap_hold_reset f, None) else Some (f, Some (chip_magic j))
    end.

Definition esp_rom_flash_start (now : Z) (f : flash_t) : flash_t * Z :=
  if s_active f then (f, ESP_FLASH_START_BUSY)
  else if negb module_present then (f, ESP_FLASH_START_NO_MODULE)
  else if negb (blob_store_present st BLOB_ESP) then (f, ESP_FLASH_START_NO_IMAGE)
  else
    let f := emit [SessionOpen; SessionClose] f in
    if negb (blob_store_verify st BLOB_ESP =? 0) then (f, ESP_FLASH_START_BAD_SLOT)
    else
      let l := match blob_store_info st BLOB_ESP with Some i => bi_len i | None => 0 end in
      let f := emit rom_enter f in
      ({| f with s_active := true; s_job := esp_rom_job_start uart_send_ms now l 0 (s_job f) |}, 0).

(** One call of the worker's loop. *)
Definition esp_rom_flash_poll (t : turn) (f : flash_t) : flash_t :=
  if negb (s_active f) then f
  else
    let j := s_job f in
    let '(j, more) := esp_rom_job_step (Some slot_read) uart_send_ms (t_now t) (t_sent t) {| j with rxq := rxq j ++ t_bytes t |} in
    let f := {| f with s_job := j |} in
    if more then f
    else
      let f := emit (UartOff :: (if 0 <=? result j then strap_boot_app else strap_hold_reset)) f in
      emit [Done (result j)] {| f with s_active := false |}.

(** 0 when the partition is blank, -1 otherwise. *)
Definition esp_rom_flash_erase_nvs (now : Z) (ts : list turn) (j : esp_rom_job_t M) (f : flash_t) : option (flash_t * esp_rom_job_t M * Z) :=
  if esp_rom_flash_busy f then Some (f, j, -1)
  else if negb module_present then Some (f, j, -1)
  else if negb (blob_store_present st BLOB_ESP) then Some (emit strap_hold_reset f, j, -1)
  else
    let f := emit [SessionOpen; SessionClose] f in
    match (if blob_store_verify st BLOB_ESP =? 0 then esp_part_find_nvs_rd slot_read else None) with
    | None => Some (emit strap_hold_reset f, j, -1)
    | Some (off, size) =>
        match run_blocking None ts (esp_rom_job_start uart_send_ms now size off j) with
        | None => None
        | Some j => Some (emit (rom_enter ++ [UartOff] ++ strap_hold_reset) f, j, if result j =? ESP_ROM_OK then 0 else -1)
        end
    end.
End flash.
