(* ===== verification/EspFlashTheorems.v ===== *)
(** * Flashing the C3: what it boots, what is erased

    [c3_boots_written]: the application is started only on a flash whose every block was
    acknowledged, from a slot that matched its SHA-256. [nvs_erased_blank]: an erase that
    reports success erased the NVS partition, which lies behind the table and inside the
    flash. [rx_ring_fifo]: the receive ring is a bounded queue. *)

From S2P Require Import Prelude BlobStore BlobTheorems EspRom EspRomTheorems EspFlash.

(** ** The partition table *)

Definition nvs_region (off size : Z) : Prop :=
  0x9000 <= off /\ 0 < size /\ off + size <= 0x400000 /\ off mod 0x1000 = 0 /\ size mod 0x1000 = 0.

Lemma rd_le_nonneg l : bytes_ok l -> 0 <= rd_le l.
Proof. intros Hl. pose proof (rd_le_range l Hl). lia. Qed.

Lemma find_nvs_loop_inside fuel rd i off size : (forall o n e, rd o n = Some e -> bytes_ok e) -> find_nvs_loop fuel rd i = Some (off, size) -> nvs_region off size.
Proof.
  intros Hb. revert i. induction fuel as [|fuel IH]; intros i; cbn [find_nvs_loop]; [done|]. destruct (rd _ _) as [e|] eqn:Er; [|done]. cbv zeta.
  destruct (negb (_ =? PART_MAGIC)); [done|]. destruct (_ || _); [apply IH|]. destruct (negb (bool_decide _)); [apply IH|].
  destruct ((_ || _) || _) eqn:E1; [done|]. apply orb_false_iff in E1 as [E1 E3%negb_false_iff%Z.eqb_eq]. apply orb_false_iff in E1 as [E1%Z.eqb_neq E2%negb_false_iff%Z.eqb_eq].
  destruct (Z.ltb_spec (rd_le (sub 4 4 e)) (ESP_PART_TABLE_OFFSET + PART_TABLE_SIZE)); [done|]. destruct (_ || _) eqn:E4; [done|]. apply orb_false_iff in E4 as [E4%Z.ltb_ge E5%Z.ltb_ge].
  intros [= <- <-]. assert (0 <= rd_le (sub 8 4 e)) by (apply rd_le_nonneg; unfold sub; apply Forall_take, Forall_drop; by eapply Hb). unfold nvs_region. split_and!; try lia; done.
Qed.

Lemma find_nvs_inside rd off size : (forall o n e, rd o n = Some e -> bytes_ok e) -> esp_part_find_nvs_rd rd = Some (off, size) -> nvs_region off size.
Proof. intros Hb. unfold esp_part_find_nvs_rd. by apply find_nvs_loop_inside. Qed.
#[local] Opaque esp_part_find_nvs_rd.

(** ** The ring *)

Definition ring_ok (r : ring_t) : Prop :=
  length (s_rx r) = 1024%nat /\ 0 <= s_rx_head r < 2 ^ 32 /\ 0 <= s_rx_tail r < 2 ^ 32 /\ u32 (s_rx_head r - s_rx_tail r) <= RX_RING.
(** What waits, oldest first. *)
Definition waiting (r : ring_t) : list Z :=
  map (fun i => nth (Z.to_nat ((s_rx_tail r + Z.of_nat i) mod 1024)) (s_rx r) 0) (List.seq 0 (Z.to_nat (u32 (s_rx_head r - s_rx_tail r)))).

Lemma slot_mod a : Z.land a (RX_RING - 1) = a mod 1024.
Proof. unfold RX_RING. change (1024 - 1) with (Z.ones 10). apply Z.land_ones. lia. Qed.

Lemma u32_mod a : u32 a mod 1024 = a mod 1024.
Proof. unfold u32. rewrite <- (Z.mod_mod a 1024) by lia. unfold u32. wrap_lia. Qed.

(** Two places of the ring, less than a ring apart, are different slots. *)
Lemma slots_apart t h d i : 0 <= i < d -> d < 1024 -> h - t = d + 4294967296 * ((h - t) / 4294967296) -> (t + i) mod 1024 <> h mod 1024.
Proof.
  intros Hi Hd Eh Em. pose proof (Z.div_mod (t + i) 1024). pose proof (Z.div_mod h 1024). set (k := (h - t) / 4294967296) in *. clearbody k. lia.
Qed.

Lemma nth_insert (l : list Z) i k b : nth k (<[i := b]> l) 0 = if decide (k = i /\ (i < length l)%nat) then b else nth k l 0.
Proof.
  rewrite !nth_lookup. case_decide as E.
  - destruct E as [-> Hi]. by rewrite list_lookup_insert_eq.
  - destruct (decide (k = i)) as [->|Hk]; [|by rewrite list_lookup_insert_ne]. rewrite list_insert_ge by lia. done.
Qed.

(** The receive ring is a queue of at most 1024 bytes. A byte that arrives is put
    behind those that wait, or counted as an overrun when they fill the ring; a read
    takes the oldest, or -1; a flush leaves none: whatever the counters have wrapped to. *)
Theorem rx_ring_fifo r b : ring_ok r ->
  (ring_ok (rx_isr b r) /\ waiting (rx_isr b r) = if (length (waiting r) <? 1024)%nat then waiting r ++ [b] else waiting r) /\
  (let '(r', c) := uart_rx_byte r in ring_ok r' /\ match waiting r with [] => c = -1 /\ r' = r | x :: l => c = x /\ waiting r' = l end) /\
  (ring_ok (uart_flush_rx r) /\ waiting (uart_flush_rx r) = []).
Proof.
  intros (Hl & Hh & Ht & Hn). assert (Hlen : length (waiting r) = Z.to_nat (u32 (s_rx_head r - s_rx_tail r))) by (unfold waiting; by rewrite length_map, length_seq).
  pose proof (u32_range (s_rx_head r - s_rx_tail r)) as Hr. unfold RX_RING in Hn. split_and!.
  - unfold rx_isr, RX_RING. destruct (Z.ltb_spec (u32 (s_rx_head r - s_rx_tail r)) 1024) as [Hlt|Hge].
    + unfold ring_ok. cbn [s_rx s_rx_head s_rx_tail]. rewrite length_insert. pose proof (u32_range (s_rx_head r + 1)). split_and!; [done|lia..|]. unfold RX_RING. wrap_lia.
    + unfold ring_ok. cbn [s_rx s_rx_head s_rx_tail]. unfold RX_RING. split_and!; done || lia.
  - unfold rx_isr, RX_RING. rewrite Hlen. destruct (Z.ltb_spec (u32 (s_rx_head r - s_rx_tail r)) 1024) as [Hlt|Hge].
    + destruct (Nat.ltb_spec (Z.to_nat (u32 (s_rx_head r - s_rx_tail r))) 1024); [|lia]. unfold waiting at 1. cbn [s_rx s_rx_head s_rx_tail].
      assert (E : u32 (u32 (s_rx_head r + 1) - s_rx_tail r) = u32 (s_rx_head r - s_rx_tail r) + 1) by wrap_lia. rewrite E, Z2Nat.inj_add by lia. change (Z.to_nat 1) with 1%nat. rewrite seq_app, map_app. cbn [List.seq map]. fold RX_RING. rewrite slot_mod. unfold RX_RING. f_equal.
      * apply map_ext_in. intros i Hi%in_seq. rewrite nth_insert. case_decide as Ed; [|done]. exfalso. destruct Ed as [Ed _]. apply Z2Nat.inj in Ed; [|apply Z.mod_pos_bound; lia..]. revert Ed. apply (slots_apart _ _ (u32 (s_rx_head r - s_rx_tail r))); [lia|lia|]. unfold u32. pose proof (Z.div_mod (s_rx_head r - s_rx_tail r) 4294967296). lia.
      * f_equal. rewrite nth_insert. case_decide as Ed; [done|]. exfalso. apply Ed. rewrite Hl. split; [|pose proof (Z.mod_pos_bound (s_rx_head r) 1024); lia]. f_equal. rewrite Nat.add_0_l, Z2Nat.id by lia. clear - Hh Ht. wrap_lia.
    + destruct (Nat.ltb_spec (Z.to_nat (u32 (s_rx_head r - s_rx_tail r))) 1024); [lia|]. done.
  - unfold uart_rx_byte. destruct (Z.eqb_spec (s_rx_tail r) (s_rx_head r)) as [E|E].
    + split; [done|]. unfold waiting. rewrite E, Z.sub_diag. done.
    + assert (En : u32 (s_rx_head r - s_rx_tail r) = u32 (s_rx_head r - u32 (s_rx_tail r + 1)) + 1) by wrap_lia. pose proof (u32_range (s_rx_head r - u32 (s_rx_tail r + 1))). split.
      * unfold ring_ok. cbn [s_rx s_rx_head s_rx_tail]. pose proof (u32_range (s_rx_tail r + 1)). unfold RX_RING. split_and!; lia.
      * unfold waiting. rewrite En, Z2Nat.inj_add by lia. change (Z.to_nat 1) with 1%nat. rewrite Nat.add_comm. cbn [plus List.seq map]. split; [by rewrite slot_mod, Z.add_0_r|]. cbn [s_rx s_rx_head s_rx_tail].
        rewrite <- seq_shift, map_map. apply map_ext. intros i. do 2 f_equal. clear - Ht. wrap_lia.
  - unfold ring_ok, uart_flush_rx. cbn [s_rx s_rx_head s_rx_tail]. rewrite Z.sub_diag. split_and!; try done; lia.
  - unfold waiting, uart_flush_rx. cbn [s_rx s_rx_head s_rx_tail]. by rewrite Z.sub_diag.
Qed.

(** ** What the C3 is started on *)

Section flash.
Context {M : Type} `{Md5Laws M} {W : Type} `{W25qLaws W} `{Sha256} (module_present : bool) (st : blob_t W).
Abbreviation flash := (flash_t (M := M)).
Implicit Types f : flash.

(** The slot's info and image. *)
Context (i : blob_info_t) (Hinfo : s_info st !! BLOB_ESP = Some i) (Hlen : 0 < bi_len i <= 0xFFFFFC00).
Definition slot_image : list Z := content (b_flash st) (sl_base (slot BLOB_ESP) + BLOB_HDR_SIZE) (Z.to_nat (bi_len i)).

Lemma image_len : Z.of_nat (length slot_image) = bi_len i.
Proof. unfold slot_image, content. rewrite bytes_at_length. lia. Qed.

Lemma slot_reads o n d : 0 <= o -> o + Z.of_nat n <= bi_len i -> read_block (Some (slot_read st)) o n = Some d -> d = sub (Z.to_nat o) n slot_image.
Proof.
  intros Ho _ Hr. cbn [read_block] in Hr. destruct (blob_read_inside st BLOB_ESP o n d Ho Hr) as (i' & Ei & _ & _ & ->). assert (i' = i) as -> by congruence. done.
Qed.

Abbreviation wr := (write_ok (M := M) (bi_len i) 0 slot_image).

(** While the job runs nothing but the entry into the loader has happened; at its end
    the UART goes, the straps follow the result, the callback is called. *)
Definition entered : list hw_ev := [SessionOpen; SessionClose] ++ rom_enter.
Definition left_ev (res : Z) : list hw_ev := UartOff :: (if 0 <=? res then strap_boot_app else strap_hold_reset) ++ [Done res].
Definition flash_ok f : Prop :=
  wr (s_job f) /\ if s_active f then evs f = entered else phase (s_job f) = ESP_ROM_DONE /\ evs f = entered ++ left_ev (result (s_job f)).

Lemma step_done io_read now sent (j j' : esp_rom_job_t M) l off img : write_ok l off img j -> write_ok l off img j' -> esp_rom_job_step io_read uart_send_ms now sent j = (j', false) -> phase j' = ESP_ROM_DONE.
Proof.
  intros Hj Hj'. unfold esp_rom_job_step. destruct (running j) eqn:Er; cbn [negb].
  - destruct (poll_reply now j) as [j1 r]. destruct (r =? REPLY_PENDING); intros [= <- E]. by apply negb_false_iff, bool_decide_eq_true in E.
  - intros [= <-]. apply andb_false_iff in Er as [Er%negb_false_iff%bool_decide_eq_true|Er%negb_false_iff%bool_decide_eq_true]; [|done]. destruct Hj as [_ _ _ _ Hp]. unfold in_phase in Hp. by rewrite Er in Hp.
Qed.

Lemma poll_ok t f : flash_ok f -> flash_ok (esp_rom_flash_poll st t f).
Proof.
  intros [Hj Hf]. unfold esp_rom_flash_poll. destruct (s_active f) eqn:Ea; cbn [negb]; [|by split; rewrite ?Ea]. cbv zeta. set (j0 := {| EspRom.len := _ |}).
  assert (H0j : wr j0) by (by apply (write_ok_core _ _ _ (s_job f))).
  pose proof (rom_step_ok (Some (slot_read st)) uart_send_ms _ 0 slot_image Hlen image_len slot_reads (t_now t) (t_sent t) j0 H0j) as Hs.
  destruct (esp_rom_job_step _ _ _ _ j0) as [j1 more] eqn:Es. cbn [fst] in Hs. destruct more; [by split; cbn; rewrite ?Ea|].
  split; [done|]. cbn [emit s_active s_job evs]. split; [exact (step_done _ _ _ _ _ _ _ _ H0j Hs Es)|]. rewrite Hf. unfold left_ev. by rewrite <- !app_assoc.
Qed.

Definition polls (ts : list turn) f : flash := fold_left (fun f t => esp_rom_flash_poll st t f) ts f.

Lemma polls_ok ts f : flash_ok f -> flash_ok (polls ts f).
Proof. revert f. induction ts as [|t ts IH]; intros f Hf; [done|]. by apply IH, poll_ok. Qed.

Lemma start_flash_ok now f f' : evs f = [] -> esp_rom_flash_start module_present st now f = (f', 0) -> flash_ok f' /\ blob_store_verify st BLOB_ESP = 0.
Proof.
  intros He. unfold esp_rom_flash_start. destruct (s_active f); [done|]. destruct (negb module_present); [done|]. destruct (negb (blob_store_present _ _)); [done|]. cbv zeta.
  destruct (Z.eqb_spec (blob_store_verify st BLOB_ESP) 0); cbn [negb]; [|done]. intros [= <-]. split; [|done]. unfold blob_store_info. rewrite Hinfo. split; cbn [s_job s_active evs emit].
  - apply start_ok. exact Hlen.
  - by rewrite He.
Qed.

End flash.

(** ** Erasing the NVS partition *)

Section nvs.
Context {M : Type} `{Md5Laws M} {W : Type} `{W25qLaws W} `{Sha256} (module_present : bool) (st : blob_t W).

Lemma run_blocking_done io_read ts (j j' : esp_rom_job_t M) l off image : 0 < l <= 0xFFFFFC00 -> Z.of_nat (length image) = l ->
  (forall o n d, 0 <= o -> o + Z.of_nat n <= l -> read_block io_read o n = Some d -> d = sub (Z.to_nat o) n image) ->
  write_ok l off image j -> run_blocking io_read ts j = Some j' -> write_ok l off image j' /\ phase j' = ESP_ROM_DONE.
Proof.
  intros Hl Hi Hr. revert j. induction ts as [|t ts IH]; intros j Hj; cbn [run_blocking]; [done|]. set (j0 := {| EspRom.len := _ |}).
  assert (Hj0 : write_ok l off image j0) by (by apply (write_ok_core _ _ _ j)). pose proof (rom_step_ok io_read uart_send_ms l off image Hl Hi Hr (t_now t) (t_sent t) j0 Hj0) as Hs.
  destruct (esp_rom_job_step _ _ _ _ j0) as [j1 more] eqn:Es. cbn [fst] in Hs. destruct more; [by apply IH|]. intros [= <-]. split; [done|]. exact (step_done _ _ _ _ _ _ _ _ Hj0 Hs Es).
Qed.

Lemma erase_reads (l : Z) o n d : 0 <= o -> o + Z.of_nat n <= l -> read_block None o n = Some d -> d = sub (Z.to_nat o) n (replicate (Z.to_nat l) 0xFF).
Proof. intros Ho Hn [= <-]. unfold sub. rewrite drop_replicate, take_replicate. f_equal. lia. Qed.

(** An erase that reports success erased the NVS partition and nothing else. The
    region comes from the partition table of a slot that matches its SHA-256; it lies
    behind the table, inside the flash, on sector boundaries; every block of it was
    written with 0xFF and its MD5 read back; and the C3 is left in reset. *)
Theorem nvs_erased_blank now ts j f f' j' : (forall o n d, slot_read st o n = Some d -> bytes_ok d) ->
  esp_rom_flash_erase_nvs (M := M) module_present st now ts j f = Some (f', j', 0) ->
  blob_store_verify st BLOB_ESP = 0 /\
  exists off size, esp_part_find_nvs_rd (slot_read st) = Some (off, size) /\ nvs_region off size /\
    verified size off (replicate (Z.to_nat size) 0xFF) j' /\
    (forall s, en (straps_of s (evs f')) = false).
Proof.
  intros Hb. unfold esp_rom_flash_erase_nvs. destruct (esp_rom_flash_busy f); [done|]. destruct (negb module_present); [done|]. destruct (negb (blob_store_present _ _)); [done|]. cbv zeta.
  destruct (Z.eqb_spec (blob_store_verify st BLOB_ESP) 0) as [Hv|]; [|done]. destruct (esp_part_find_nvs_rd _) as [[off size]|] eqn:En; [|done]. destruct (run_blocking _ _ _) as [j1|] eqn:Er; [|done].
  destruct (Z.eqb_spec (result j1) ESP_ROM_OK) as [Hok|]; [|done]. intros [= <- <-]. split; [done|]. exists off, size.
  pose proof (find_nvs_inside (slot_read st) off size Hb En) as Hreg. pose proof Hreg as (R1 & R2 & R3 & R4 & R5).
  assert (Hl : 0 < size <= 0xFFFFFC00) by lia. assert (Hi : Z.of_nat (length (replicate (Z.to_nat size) 255)) = size) by (rewrite length_replicate; lia).
  destruct (run_blocking_done None ts _ j1 size off (replicate (Z.to_nat size) 0xFF) Hl Hi (erase_reads size) (start_ok uart_send_ms size off _ Hl now j) Er) as [Hw Hd].
  split_and!; [done|done| |].
  - destruct Hw as [_ _ _ _ Hph]. unfold in_phase in Hph. rewrite Hd in Hph. by apply Hph.
  - intros s. unfold straps_of, emit. cbn [evs]. rewrite !foldl_app. done.
Qed.
End nvs.

(** ** Concrete runs, on the toy chip and the toy ROM *)

Module ToyFlash.
Import BlobTheorems.Toy EspRomTheorems.ToyRom.

(** The slot [BLOB_ESP] holding three bytes. *)
Definition slotted : blob_t chip := fst (blob_store_write blank BLOB_ESP 3 1 (sha256 data) data_src).
Definition info : blob_info_t := default no_info (s_info slotted !! BLOB_ESP).
Definition still : flash_t (M := list Z) := FlashJob idle false [].
Abbreviation started := (fst (esp_rom_flash_start true slotted 0 still)).
Definition replies (img : list Z) : list turn :=
  [ok OP_SYNC 0 []; ok OP_READ_REG 5 []; ok OP_SPI_ATTACH 0 []; ok OP_FLASH_BEGIN 0 []; ok OP_FLASH_DATA 0 [];
   ok OP_SPI_FLASH_MD5 0 (hex_of (md5 img)); ok OP_FLASH_END 0 []].

Lemma slotted_info : s_info slotted !! BLOB_ESP = Some info.
Proof. vm_compute. reflexivity. Qed.
Lemma info_len : 0 < bi_len info <= 0xFFFFFC00.
Proof. vm_compute. split; [reflexivity|discriminate]. Qed.
Lemma started_ok : esp_rom_flash_start true slotted 0 still = (started, 0).
Proof. vm_compute. reflexivity. Qed.
Example flash_runs : s_active (polls slotted (replies data) started) = false /\ result (s_job (polls slotted (replies data) started)) = ESP_ROM_OK /\
  boots (straps_of (Straps true true []) (evs (polls slotted (replies data) started))) = [false; true].
Proof. vm_compute. done. Qed.


Lemma rx_ring_fifo_witness : let r := Ring (replicate 1024 7) 2 4294967295 0 in ring_ok (rx_isr 9 r) /\ waiting (rx_isr 9 r) = [7; 7; 7; 9].
Proof.
  intros r. assert (Hr : ring_ok r) by (vm_compute; split_and!; done). destruct (rx_ring_fifo r 9 Hr) as ((A & B) & _). split; [exact A|]. rewrite B. vm_compute. reflexivity.
Defined.

(** A slot whose image holds a partition table with one entry. *)
Definition entry : list Z := [0xAA; 0x50; 1; 2] ++ le 4 0x9000 ++ le 4 0x1000 ++ nvs_label ++ replicate 16 0.
Definition table_mem (x : Z) : Z := let o := x - 0x209000 in if (0 <=? o) && (o <? 32) then nth (Z.to_nat o) entry 0 else 255.
Definition table_len : Z := 0x8020.
Definition table_slot : blob_t chip :=
  Blob (Chip table_mem 100) (<[BLOB_ESP := BlobInfo true table_len 1 (sha256 (default [] (read_pages (n_pages table_len) (Chip table_mem 100) 0x201000 table_len 0)))]> (replicate BLOB_SLOT_COUNT no_info)) 0x800000.
Definition blanks : list Z := replicate 0x1000 255.
Definition nvs_turns : list turn :=
  [ok OP_SYNC 0 []; ok OP_READ_REG 5 []; ok OP_SPI_ATTACH 0 []; ok OP_FLASH_BEGIN 0 []; ok OP_FLASH_DATA 0 []; ok OP_FLASH_DATA 0 []; ok OP_FLASH_DATA 0 []; ok OP_FLASH_DATA 0 [];
   ok OP_SPI_FLASH_MD5 0 (hex_of (md5 blanks)); ok OP_FLASH_END 0 []].
Definition nvs_erase : option (flash_t (M := list Z) * esp_rom_job_t (list Z) * Z) := esp_rom_flash_erase_nvs true table_slot 0 nvs_turns idle still.
Definition nvs_flash : flash_t (M := list Z) := fst (fst (default (still, idle, -1) nvs_erase)).
Definition nvs_job : esp_rom_job_t (list Z) := snd (fst (default (still, idle, -1) nvs_erase)).

Lemma table_mem_byte x : byte_ok (table_mem x).
Proof.
  unfold table_mem. destruct (_ && _); [|done]. assert (E : bytes_ok entry) by (vm_compute; repeat constructor; done).
  destruct (nth_in_or_default (Z.to_nat (x - 0x209000)) entry 0) as [Hin| ->]; [|done]. exact (proj1 (List.Forall_forall _ _) E _ Hin).
Qed.
Lemma table_bytes o n d : slot_read table_slot o n = Some d -> bytes_ok d.
Proof.
  unfold slot_read, blob_store_read. destruct (s_info table_slot !! BLOB_ESP) as [bi|]; [|done]. destruct (_ || _); [done|]. intros [= <-]. apply Forall_forall. intros x (k & -> & _)%list_elem_of_fmap. apply table_mem_byte.
Qed.
Lemma nvs_run : esp_rom_flash_erase_nvs true table_slot 0 nvs_turns idle still = Some (nvs_flash, nvs_job, 0).
Proof. vm_compute. reflexivity. Qed.
#[local] Opaque nvs_flash nvs_job.

Lemma nvs_erased_blank_witness : exists off size, esp_part_find_nvs_rd (slot_read table_slot) = Some (off, size) /\ nvs_region off size /\
  verified size off (replicate (Z.to_nat size) 0xFF) nvs_job /\ (forall s, en (straps_of s (evs nvs_flash)) = false).
Proof. exact (proj2 (nvs_erased_blank true table_slot 0 nvs_turns idle still nvs_flash nvs_job table_bytes nvs_run)). Defined.
End ToyFlash.
