(* ===== verification/LaPins.v ===== *)
(** * The LA pins: who owns each, the pulls, the `gpio` command ([la_pins.c]), the step trains
    ([command_handler_pins.c])

    The table is a list indexed by the pin, 1 to 14 (entry 0 is unused). A check answers
    [None] when it allows, or the message for the client. *)

From S2P Require Import Prelude Json.

Abbreviation LA_PINS_COUNT := 14.
Abbreviation LA_PINS_ERR_MAX := 320%nat.
Abbreviation LA_TRIGGER_TIMEOUT_DEFAULT_MS := 10000.
Abbreviation LA_TRIGGER_TIMEOUT_MAX_MS := 600000.
Abbreviation LA_STEP_MIN_DELAY_US := 4.
Abbreviation LA_STEP_MAX_DELAY_US := 65535.
Abbreviation LA_STEP_MAX_STEPS := 65535.

Inductive la_fn_t :=
| LA_FN_NONE | LA_FN_GPIO | LA_FN_UART_RX | LA_FN_UART_TX | LA_FN_SWD_CLK | LA_FN_SWD_DIO | LA_FN_I2C_SDA | LA_FN_I2C_SCL
| LA_FN_STEP | LA_FN_STEP_DIR | LA_FN_SPI_SCK | LA_FN_SPI_MOSI | LA_FN_SPI_MISO | LA_FN_SPI_CS | LA_FN_GPS_TX.
#[export] Instance la_fn_eq_dec : EqDecision la_fn_t.
Proof. solve_decision. Defined.
Inductive la_gpio_mode_t := LA_GPIO_NONE | LA_GPIO_INPUT | LA_GPIO_OUTPUT | LA_GPIO_OPEN_DRAIN.
#[export] Instance la_gpio_mode_eq_dec : EqDecision la_gpio_mode_t.
Proof. solve_decision. Defined.
Inductive la_pull_dir_t := LA_PULL_NONE | LA_PULL_UP | LA_PULL_DOWN.
#[export] Instance la_pull_dir_eq_dec : EqDecision la_pull_dir_t.
Proof. solve_decision. Defined.

(** [LA_FN_BIT]: the functions of a set of bits are a list of functions here. *)
Definition in_fns (fn : la_fn_t) (fns : list la_fn_t) : bool := bool_decide (fn ∈ fns).

Record la_pin_t := Pin { fn : la_fn_t; gpio : la_gpio_mode_t; level : Z }.
Definition pin0 : la_pin_t := Pin LA_FN_NONE LA_GPIO_NONE 0.
Definition la_pins_t := list la_pin_t.
Definition la_pins_reset : la_pins_t := replicate 15 pin0.
Definition pin (s : la_pins_t) (la : Z) : la_pin_t := nth (Z.to_nat la) s pin0.
Definition set_pin (la : Z) (p : la_pin_t) (s : la_pins_t) : la_pins_t := <[Z.to_nat la := p]> s.

Definition la_ok (la : Z) : bool := (1 <=? la) && (la <=? LA_PINS_COUNT).
Definition pins_1_14 : list Z := map Z.of_nat (seq 1 14).

Definition la_fn_name (f : la_fn_t) : cstr :=
  str match f with
      | LA_FN_NONE => "none" | LA_FN_GPIO => "gpio" | LA_FN_UART_RX => "uart_rx" | LA_FN_UART_TX => "uart_tx" | LA_FN_SWD_CLK => "swd_clk"
      | LA_FN_SWD_DIO => "swd_dio" | LA_FN_I2C_SDA => "i2c_sda" | LA_FN_I2C_SCL => "i2c_scl" | LA_FN_STEP => "step" | LA_FN_STEP_DIR => "step_dir"
      | LA_FN_SPI_SCK => "spi_sck" | LA_FN_SPI_MOSI => "spi_mosi" | LA_FN_SPI_MISO => "spi_miso" | LA_FN_SPI_CS => "spi_cs" | LA_FN_GPS_TX => "gps_tx"
      end%string.
Definition la_gpio_mode_name (m : la_gpio_mode_t) : cstr :=
  str match m with LA_GPIO_INPUT => "input" | LA_GPIO_OUTPUT => "output" | LA_GPIO_OPEN_DRAIN => "open_drain" | LA_GPIO_NONE => "" end%string.
Definition la_gpio_mode_parse (s : cstr) : option la_gpio_mode_t :=
  if streq s (str "input") then Some LA_GPIO_INPUT else if streq s (str "output") then Some LA_GPIO_OUTPUT
  else if streq s (str "open_drain") then Some LA_GPIO_OPEN_DRAIN else if streq s (str "off") then Some LA_GPIO_NONE else None.

Definition la_pins_fn (s : la_pins_t) (la : Z) : la_fn_t := if la_ok la then fn (pin s la) else LA_FN_NONE.
Definition la_pins_gpio (s : la_pins_t) (la : Z) : la_gpio_mode_t :=
  if negb (la_ok la) || negb (bool_decide (fn (pin s la) = LA_FN_GPIO)) then LA_GPIO_NONE else gpio (pin s la).
Definition la_pins_level (s : la_pins_t) (la : Z) : Z :=
  match la_pins_gpio s la with
  | LA_GPIO_OUTPUT | LA_GPIO_OPEN_DRAIN => if level (pin s la) =? 0 then 0 else 1
  | _ => -1
  end.
(** A mask is the list of its pins, ascending. *)
Definition la_pins_mask_fn (s : la_pins_t) (f : la_fn_t) : list Z := filter (fun la => fn (pin s la) = f) pins_1_14.
Definition la_pins_owned_mask (s : la_pins_t) : list Z := filter (fun la => fn (pin s la) <> LA_FN_NONE) pins_1_14.

Definition la_pull_dir (la : Z) : la_pull_dir_t :=
  if (1 <=? la) && (la <=? 6) then LA_PULL_UP else if (la =? 7) || (la =? 8) then LA_PULL_DOWN else LA_PULL_NONE.
Definition la_pull_ohms (la : Z) : option cstr :=
  if (1 <=? la) && (la <=? 2) then Some (str "4.7k") else if (3 <=? la) && (la <=? 4) then Some (str "2.2k")
  else if (5 <=? la) && (la <=? 8) then Some (str "10k") else None.

Definition la_pins_drive (s : la_pins_t) (la : Z) : Z :=
  match la_pins_gpio s la with
  | LA_GPIO_OUTPUT => if level (pin s la) =? 0 then 0 else 1
  | LA_GPIO_OPEN_DRAIN => if level (pin s la) =? 0 then 0 else 2
  | _ => 2
  end.

(** ** Messages *)

Definition release_hint (f : la_fn_t) (la : Z) : cstr :=
  match f with
  | LA_FN_GPIO => snprintf_cut 64 (str "release it with {" ++ [34] ++ str "cmd" ++ [34; 58; 34] ++ str "gpio" ++ [34; 44; 34] ++ str "la" ++ [34; 58] ++ dec la ++ [44; 34] ++ str "mode" ++ [34; 58; 34] ++ str "off" ++ [34; 125])
  | LA_FN_UART_RX | LA_FN_UART_TX => str "stop the uart proxy first"
  | LA_FN_SWD_CLK | LA_FN_SWD_DIO => str "end the SWD session first"
  | LA_FN_I2C_SDA | LA_FN_I2C_SCL => str "stop the sensor emulation first ({" ++ [34] ++ str "cmd" ++ [34; 58; 34] ++ str "sensor_stop" ++ [34] ++ str "})"
  | LA_FN_STEP | LA_FN_STEP_DIR => str "wait for the step train to finish"
  | LA_FN_SPI_SCK | LA_FN_SPI_MOSI | LA_FN_SPI_MISO | LA_FN_SPI_CS => str "stop the SPI session first ({" ++ [34] ++ str "cmd" ++ [34; 58; 34] ++ str "spi_stop" ++ [34] ++ str "})"
  | LA_FN_GPS_TX => str "stop the GPS receiver first ({" ++ [34] ++ str "cmd" ++ [34; 58; 34] ++ str "gps_stop" ++ [34] ++ str "})"
  | LA_FN_NONE => []
  end.
Definition conflict_msg (s : la_pins_t) (la : Z) (cap : nat) : cstr :=
  snprintf_cut cap (str "pin conflict: LA" ++ dec la ++ str " is in use by " ++ la_fn_name (fn (pin s la)) ++ str "; " ++ release_hint (fn (pin s la)) la).

(** Why a function cannot share its line with an engaged pull-down. *)
Definition pull_down_reason (f : la_fn_t) (m : la_gpio_mode_t) : option cstr :=
  match f with
  | LA_FN_GPIO => if bool_decide (m = LA_GPIO_OPEN_DRAIN) then Some (str "a released line would read low") else None
  | LA_FN_UART_RX | LA_FN_UART_TX | LA_FN_GPS_TX => Some (str "the line idles high")
  | LA_FN_I2C_SDA | LA_FN_I2C_SCL => Some (str "an open-drain bus needs pull-ups")
  | LA_FN_SWD_DIO => Some (str "SWDIO is pulled up when released")
  | _ => None
  end.
Definition fn_display (f : la_fn_t) (m : la_gpio_mode_t) : cstr :=
  if negb (bool_decide (f = LA_FN_GPIO)) then la_fn_name f else snprintf_cut 24 (str "gpio " ++ la_gpio_mode_name m).

Definition not_a_pin (la : Z) (cap : nat) : cstr := snprintf_cut cap (str "LA" ++ dec la ++ str " is not a pin (use 1..14)").

(** ** Checks *)

Fixpoint claim_conflict (s : la_pins_t) (las : list Z) (free_fns : list la_fn_t) (cap : nat) : option cstr :=
  match las with
  | [] => None
  | la :: las =>
      if negb (la_ok la) then Some (not_a_pin la cap)
      else
        let owner := fn (pin s la) in
        if negb (bool_decide (owner = LA_FN_NONE)) && negb (in_fns owner free_fns) then Some (conflict_msg s la cap)
        else claim_conflict s las free_fns cap
  end.
Definition pull_conflict_msg (la : Z) (f : la_fn_t) (m : la_gpio_mode_t) (reason : cstr) (cap : nat) : cstr :=
  snprintf_cut cap (str "pull conflict: LA" ++ dec la ++ str " has its " ++ default (str "(null)") (la_pull_ohms la) ++ str " pull-down engaged, which " ++ fn_display f m ++
    str " can't work with (" ++ reason ++ str "); disable it with {" ++ [34] ++ str "cmd" ++ [34; 58; 34] ++ str "la" ++ [34; 44; 34] ++ str "la" ++ [34; 58] ++ dec la ++ [44; 34] ++
    str "pullup" ++ [34; 58; 34] ++ str "off" ++ [34] ++ str "} or use another channel").
Fixpoint pull_conflict (las : list Z) (f : la_fn_t) (m : la_gpio_mode_t) (reason : cstr) (pull_mask : list Z) (cap : nat) : option cstr :=
  match las with
  | [] => None
  | la :: las =>
      if negb (bool_decide (la_pull_dir la = LA_PULL_DOWN)) || negb (bool_decide (la ∈ pull_mask)) then pull_conflict las f m reason pull_mask cap
      else Some (pull_conflict_msg la f m reason cap)
  end.
Definition la_pins_check_claim (s : la_pins_t) (f : la_fn_t) (m : la_gpio_mode_t) (las : list Z) (free_fns : list la_fn_t) (pull_mask : list Z) (cap : nat) : option cstr :=
  match claim_conflict s las free_fns cap with
  | Some e => Some e
  | None => match pull_down_reason f m with None => None | Some reason => pull_conflict las f m reason pull_mask cap end
  end.

Definition la_pins_check_pull_enable (s : la_pins_t) (la : Z) (cap : nat) : option cstr :=
  if negb (la_ok la) || negb (bool_decide (la_pull_dir la = LA_PULL_DOWN)) then None
  else
    let f := fn (pin s la) in let m := la_pins_gpio s la in
    match pull_down_reason f m with
    | None => None
    | Some reason => Some (snprintf_cut cap (str "pull conflict: LA" ++ dec la ++ str " is used by " ++ fn_display f m ++ str ", which can't work with the " ++
                             default (str "(null)") (la_pull_ohms la) ++ str " pull-down (" ++ reason ++ str ")"))
    end.

Definition not_output_msg (s : la_pins_t) (la : Z) (cap : nat) : cstr :=
  snprintf_cut cap (str "LA" ++ dec la ++ str " is not a gpio output (function " ++
    (if bool_decide (fn (pin s la) = LA_FN_GPIO) then str "gpio, gpio " ++ la_gpio_mode_name (la_pins_gpio s la) else la_fn_name (fn (pin s la))) ++
    str "); configure it with {" ++ [34] ++ str "cmd" ++ [34; 58; 34] ++ str "gpio" ++ [34; 44; 34] ++ str "la" ++ [34; 58] ++ dec la ++ [44; 34] ++ str "mode" ++ [34; 58; 34] ++ str "output" ++ [34; 125]).
Fixpoint la_pins_check_level (s : la_pins_t) (las : list Z) (cap : nat) : option cstr :=
  match las with
  | [] => None
  | la :: las =>
      if negb (la_ok la) then Some (not_a_pin la cap)
      else match la_pins_gpio s la with
           | LA_GPIO_OUTPUT | LA_GPIO_OPEN_DRAIN => la_pins_check_level s las cap
           | _ => Some (not_output_msg s la cap)
           end
  end.

Fixpoint owned_names (s : la_pins_t) (first : bool) (las : list Z) : cstr :=
  match las with
  | [] => []
  | la :: las => (if first then [] else str ", ") ++ str "LA" ++ dec la ++ str " (" ++ la_fn_name (fn (pin s la)) ++ str ")" ++ owned_names s false las
  end.
Definition la_pins_check_voltage_change (s : la_pins_t) (cur_mv new_mv : Z) (cap : nat) : option cstr :=
  if new_mv =? cur_mv then None
  else if negb (new_mv =? 1800) && negb (new_mv =? 3300) then None
  else
    match la_pins_owned_mask s with
    | [] => None
    | owned => Some (snprintf_cut cap (str "la voltage can't change while pins are in use: " ++ owned_names s true owned ++ str "; stop them first"))
    end.

(** ** Commits *)

Definition claim_one (f : la_fn_t) (m : la_gpio_mode_t) (lv : Z) (s : la_pins_t) (la : Z) : la_pins_t :=
  if la_ok la then set_pin la (Pin f (if bool_decide (f = LA_FN_GPIO) then m else LA_GPIO_NONE) (if lv =? 0 then 0 else 1)) s else s.
Definition la_pins_claim (f : la_fn_t) (m : la_gpio_mode_t) (lv : Z) (las : list Z) (s : la_pins_t) : la_pins_t := fold_left (claim_one f m lv) las s.
Definition la_pins_set_level (la lv : Z) (s : la_pins_t) : la_pins_t :=
  if la_ok la then set_pin la {| fn := fn (pin s la); gpio := gpio (pin s la); level := if lv =? 0 then 0 else 1 |} s else s.
Definition la_pins_release (la : Z) (s : la_pins_t) : la_pins_t := if la_ok la then set_pin la pin0 s else s.
Definition la_pins_release_fn (f : la_fn_t) (s : la_pins_t) : la_pins_t * list Z :=
  match f with
  | LA_FN_NONE => (s, [])
  | _ => let mask := la_pins_mask_fn s f in (fold_left (fun s la => la_pins_release la s) mask s, mask)
  end.

(** ** The `gpio` command *)

(** A string literal whose bars are double quotes. *)
Definition q (s : string) : cstr := map (fun c => if c =? 124 then 34 else c) (str s).

Definition is_blank (c : Z) : bool := (c =? 32) || (c =? 9).
Fixpoint skip_blank (p : cstr) : cstr := match p with c :: p' => if is_blank c then skip_blank p' else p | [] => [] end.
Fixpoint skip_blank_comma (p : cstr) : cstr := match p with c :: p' => if is_blank c || (c =? COMMA) then skip_blank_comma p' else p | [] => [] end.

Fixpoint find_value_loop (needle p : cstr) (fuel : nat) : option cstr :=
  match fuel with
  | O => None
  | S fuel =>
      if has_prefix needle p then
        let r := skip_blank (drop (length needle) p) in
        if deref r =? COLON then Some (skip_blank (tail r)) else find_value_loop needle r fuel
      else match p with [] => None | _ :: p' => find_value_loop needle p' fuel end
  end.
Definition find_value (json key : cstr) : option cstr := find_value_loop (snprintf_cut 24 (QUOTE :: key ++ [QUOTE])) json (S (length json)).

(** [strtol(p, &end, 10)]: the value and [end]; [None] when [end == p]. *)
Fixpoint skip_digits (p : cstr) : cstr := match p with c :: p' => if digit_val c <? 10 then skip_digits p' else p | [] => [] end.
Definition strtol10 (p : cstr) : option (Z * cstr) :=
  let s := skip_space p in
  let '(neg, d) := if deref s =? 45 then (true, tail s) else if deref s =? 43 then (false, tail s) else (false, s) in
  if digit_val (deref d) <? 10 then
    let v := strtoul_digits 10 0 d in
    Some (if neg then Z.max (- v) (-2147483648) else Z.min v 2147483647, skip_digits d)
  else None.

Record la_gpio_req_t := GpioReq { las : list Z; all : bool; has_mode : bool; mode : la_gpio_mode_t; has_level : bool; rlevel : Z }.
Definition req0 : la_gpio_req_t := GpioReq [] false false LA_GPIO_NONE false 0.

Definition add_pin (req : la_gpio_req_t) (v : Z) (cap : nat) : la_gpio_req_t + cstr :=
  if (v <? 1) || (LA_PINS_COUNT <? v) then inr (snprintf_cut cap (q "la must be 1..14 (or |all| with |mode|:|off|)"))
  else if bool_decide (v ∈ las req) then inl req
  else inl {| las := las req ++ [v]; all := all req; has_mode := has_mode req; mode := mode req; has_level := has_level req; rlevel := rlevel req |}.

Definition bad_la (cap : nat) : cstr := snprintf_cut cap (q "la must be a pin number, a list of pin numbers, or |all|").
Fixpoint parse_list (fuel : nat) (p : cstr) (req : la_gpio_req_t) (cap : nat) : la_gpio_req_t + cstr :=
  match fuel with
  | O => inr []
  | S fuel =>
      let p := skip_blank_comma p in
      if deref p =? RBRACK then (if (length (las req) =? 0)%nat then inr (snprintf_cut cap (str "la list is empty")) else inl req)
      else
        match strtol10 p with
        | None => inr (bad_la cap)
        | Some (n, p) => match add_pin req n cap with inr e => inr e | inl req => parse_list fuel p req cap end
        end
  end.

Definition got_value (g : got) : option cstr := if found g && negb (streq (out g) (str "null")) then Some (out g) else None.

Definition parse_la (json : cstr) (req : la_gpio_req_t) (cap : nat) : la_gpio_req_t + cstr :=
  let absent := if has_mode req || has_level req then inr (snprintf_cut cap (str "missing la")) else inl req in
  match find_value json (str "la") with
  | None => absent
  | Some v =>
      if has_prefix (str "null") v then absent
      else if deref v =? LBRACK then parse_list (S (length v)) (tail v) req cap
      else if deref v =? QUOTE then
        (if has_prefix (q "|all|") v then inl {| las := las req; all := true; has_mode := has_mode req; mode := mode req; has_level := has_level req; rlevel := rlevel req |} else inr (bad_la cap))
      else match strtol10 v with None => inr (bad_la cap) | Some (n, _) => add_pin req n cap end
  end.
Definition parse_level (json : cstr) (req : la_gpio_req_t) (cap : nat) : la_gpio_req_t + cstr :=
  match got_value (bp_json_get json (str "level") 16) with
  | None => parse_la json req cap
  | Some s =>
      if negb (streq s (str "0")) && negb (streq s (str "1")) then inr (snprintf_cut cap (str "level must be 0 or 1"))
      else parse_la json {| las := las req; all := all req; has_mode := has_mode req; mode := mode req; has_level := true; rlevel := deref s - 48 |} cap
  end.
Definition la_gpio_req_parse (json : cstr) (cap : nat) : la_gpio_req_t + cstr :=
  match got_value (bp_json_get json (str "mode") 16) with
  | None => parse_level json req0 cap
  | Some s =>
      match la_gpio_mode_parse s with
      | None => inr (snprintf_cut cap (str "mode must be input, output, open_drain or off"))
      | Some m => parse_level json {| las := []; all := false; has_mode := true; mode := m; has_level := false; rlevel := 0 |} cap
      end
  end.

Definition mask_of (l : list Z) : list Z := filter (fun la => la ∈ l) pins_1_14.
Fixpoint off_conflict (s : la_pins_t) (l : list Z) (cap : nat) : option cstr :=
  match l with
  | [] => None
  | la :: l => match la_pins_fn s la with LA_FN_NONE | LA_FN_GPIO => off_conflict s l cap | _ => Some (conflict_msg s la cap) end
  end.
Definition off_one (sc : la_pins_t * list Z) (la : Z) : la_pins_t * list Z :=
  let '(s, changed) := sc in
  if bool_decide (la_pins_fn s la = LA_FN_GPIO) then (la_pins_release la s, changed ++ [la]) else (s, changed).
Definition all_only_off (cap : nat) : cstr := snprintf_cut cap (q "|la|:|all| is only allowed with |mode|:|off|").

(** The new table, the pins to drive again and the pins to report; or the message. *)
Definition la_pins_gpio_apply (req : la_gpio_req_t) (pull_mask : list Z) (cap : nat) (s : la_pins_t) : (la_pins_t * list Z * list Z) + cstr :=
  if negb (has_mode req) then
    if negb (has_level req) then inr (snprintf_cut cap (str "gpio needs a mode or a level"))
    else if all req then inr (all_only_off cap)
    else match la_pins_check_level s (las req) cap with
         | Some e => inr e
         | None => inl (fold_left (fun s la => la_pins_set_level la (rlevel req) s) (las req) s, mask_of (las req), mask_of (las req))
         end
  else if bool_decide (mode req = LA_GPIO_NONE) then
    if all req then let '(s, m) := la_pins_release_fn LA_FN_GPIO s in inl (s, m, m)
    else match off_conflict s (las req) cap with
         | Some e => inr e
         | None => let '(s, changed) := fold_left off_one (las req) (s, []) in inl (s, changed, mask_of (las req))
         end
  else if all req then inr (all_only_off cap)
  else if bool_decide (mode req = LA_GPIO_INPUT) && has_level req then inr (snprintf_cut cap (str "level applies to output and open_drain pins, not input"))
  else
    match la_pins_check_claim s LA_FN_GPIO (mode req) (las req) [LA_FN_GPIO] pull_mask cap with
    | Some e => inr e
    | None =>
        let lv := if has_level req then rlevel req else if bool_decide (mode req = LA_GPIO_OPEN_DRAIN) then 1 else 0 in
        inl (la_pins_claim LA_FN_GPIO (mode req) lv (las req) s, mask_of (las req), mask_of (las req))
    end.

(** ** Step trains *)

Record la_step_plan_t := StepPlan { claim_step : bool; claim_dir : bool }.
Definition plan_pin (s : la_pins_t) (la : Z) (cap : nat) : bool + cstr :=
  match la_pins_fn s la with
  | LA_FN_NONE => inl true
  | _ => if bool_decide (la_pins_fn s la = LA_FN_GPIO) && bool_decide (la_pins_gpio s la = LA_GPIO_OUTPUT) then inl false else inr (conflict_msg s la cap)
  end.
Definition la_pins_plan_step (s : la_pins_t) (la dir_la : Z) (cap : nat) : la_step_plan_t + cstr :=
  if negb (la_ok la) then inr (snprintf_cut cap (str "invalid args"))
  else if negb (dir_la =? 0) && negb (la_ok dir_la) then inr (snprintf_cut cap (str "invalid dir_la"))
  else if dir_la =? la then inr (snprintf_cut cap (str "dir_la must be a different pin than la"))
  else
    match plan_pin s la cap with
    | inr e => inr e
    | inl cs => if negb (dir_la =? 0) then match plan_pin s dir_la cap with inr e => inr e | inl cd => inl (StepPlan cs cd) end else inl (StepPlan cs false)
    end.

Fixpoint parse_u32_loop (s : cstr) (v : Z) : option Z :=
  match s with
  | [] => Some v
  | c :: s => if (c <? 48) || (57 <? c) then None else let v := v * 10 + (c - 48) in if 0xFFFFFFFF <? v then None else parse_u32_loop s v
  end.
Definition la_step_parse_u32 (s : cstr) : option Z := match s with [] => None | _ => parse_u32_loop s 0 end.
Definition la_step_args_ok (steps delay_us : Z) (cap : nat) : option cstr :=
  if (steps =? 0) || (LA_STEP_MAX_STEPS <? steps) then
    Some (snprintf_cut cap (str "steps must be 1.." ++ dec LA_STEP_MAX_STEPS ++ str " (the step counter is 16-bit): split a longer move into several trains"))
  else if (delay_us <? LA_STEP_MIN_DELAY_US) || (LA_STEP_MAX_DELAY_US <? delay_us) then
    Some (snprintf_cut cap (str "delay_us must be " ++ dec LA_STEP_MIN_DELAY_US ++ str ".." ++ dec LA_STEP_MAX_DELAY_US ++ str " (microseconds per half-phase: a step takes 2 x delay_us)"))
  else None.

(** ** Replies *)

Definition la_pins_emit_entry (e : bp_emit_t) (s : la_pins_t) (la : Z) (pull_mask : list Z) : bp_emit_t :=
  let m := la_pins_gpio s la in
  let lv := la_pins_level s la in
  let e := emit_bytes e (q "{|la|:" ++ dec la ++ q ",|function|:|" ++ la_fn_name (la_pins_fn s la) ++ q "|,|gpio|:") in
  let e := if bool_decide (m = LA_GPIO_NONE) then bp_emit_raw e (str "null") else emit_bytes e ([34] ++ la_gpio_mode_name m ++ [34]) in
  let e := if 0 <=? lv then emit_bytes e (q ",|level|:" ++ dec lv ++ q ",|pull|:") else bp_emit_raw e (q ",|level|:null,|pull|:") in
  match la_pull_ohms la with
  | Some ohms => emit_bytes e (q "{|dir|:|" ++ (if bool_decide (la_pull_dir la = LA_PULL_DOWN) then str "down" else str "up") ++ q "|,|ohms|:|" ++ ohms ++ q "|,|on|:" ++
                               (if bool_decide (la ∈ pull_mask) then str "true" else str "false") ++ str "}}")
  | None => bp_emit_raw e (str "null}")
  end.
Fixpoint emit_entries (e : bp_emit_t) (s : la_pins_t) (first : bool) (l pull_mask : list Z) : bp_emit_t :=
  match l with
  | [] => e
  | la :: l => emit_entries (la_pins_emit_entry (if first then e else bp_emit_raw e (str ",")) s la pull_mask) s false l pull_mask
  end.
Definition la_pins_emit_list (e : bp_emit_t) (s : la_pins_t) (mask pull_mask : list Z) : bp_emit_t :=
  bp_emit_raw (emit_entries (bp_emit_raw e (str "[")) s true (mask_of mask) pull_mask) (str "]").

(** ** The capture trigger *)

Inductive la_edge_t := LA_EDGE_RISING | LA_EDGE_FALLING | LA_EDGE_HIGH | LA_EDGE_LOW.
Definition la_edge_num (e : la_edge_t) : Z := match e with LA_EDGE_RISING => 1 | LA_EDGE_FALLING => 2 | LA_EDGE_HIGH => 3 | LA_EDGE_LOW => 4 end.
Record la_trigger_t := Trigger { tr_present : bool; tr_la : Z; tr_edge : la_edge_t; tr_timeout_ms : Z; tr_pre_samples : Z }.
Definition no_trigger : la_trigger_t := Trigger false 0 LA_EDGE_RISING LA_TRIGGER_TIMEOUT_DEFAULT_MS 0.
Definition la_edge_name (e : la_edge_t) : cstr :=
  str match e with LA_EDGE_RISING => "rising" | LA_EDGE_FALLING => "falling" | LA_EDGE_HIGH => "high" | LA_EDGE_LOW => "low" end%string.

(** A whole decimal number in [lo, hi]. *)
Definition whole_number (s : cstr) (lo hi : Z) : option Z :=
  match strtol10 s with Some (n, []) => if (n <? lo) || (hi <? n) then None else Some n | _ => None end.
Definition edge_of (g : got) : option la_edge_t :=
  if negb (found g) then Some LA_EDGE_RISING
  else if streq (out g) (str "rising") then Some LA_EDGE_RISING else if streq (out g) (str "falling") then Some LA_EDGE_FALLING
  else if streq (out g) (str "high") then Some LA_EDGE_HIGH else if streq (out g) (str "low") then Some LA_EDGE_LOW else None.
Definition la_trigger_parse (json : cstr) (cap : nat) : la_trigger_t + cstr :=
  match got_value (bp_json_get json (str "trigger") 8) with
  | None => inl no_trigger
  | Some _ =>
      match bp_json_object json (str "trigger") 128 with
      | None => inr (snprintf_cut cap (q "trigger must be an object like {|la|:1,|edge|:|rising|}"))
      | Some obj =>
          let gla := bp_json_get obj (str "la") 16 in
          match (if found gla then whole_number (out gla) 1 LA_PINS_COUNT else None) with
          | None => inr (snprintf_cut cap (str "trigger la must be 1..14"))
          | Some la =>
              match edge_of (bp_json_get obj (str "edge") 16) with
              | None => inr (snprintf_cut cap (str "trigger edge must be rising, falling, high or low"))
              | Some edge =>
                  match (match got_value (bp_json_get json (str "trigger_timeout_ms") 16) with None => Some LA_TRIGGER_TIMEOUT_DEFAULT_MS | Some s => whole_number s 1 LA_TRIGGER_TIMEOUT_MAX_MS end) with
                  | None => inr (snprintf_cut cap (str "trigger_timeout_ms must be 1..600000"))
                  | Some ms =>
                      match (match got_value (bp_json_get obj (str "pre_samples") 16) with None => Some 0 | Some s => whole_number s 0 16777215 end) with
                      | None => inr (snprintf_cut cap (str "trigger pre_samples must be 0..16777215"))
                      | Some pre => inl (Trigger true la edge ms pre)
                      end
                  end
              end
          end
      end
  end.
Definition la_trigger_timeout_msg (t : la_trigger_t) (cap : nat) : cstr :=
  snprintf_cut cap (str "trigger timeout: no " ++ la_edge_name (tr_edge t) ++ str " edge on LA" ++ dec (tr_la t) ++ str " within " ++ dec (tr_timeout_ms t) ++ str " ms").
Definition la_trigger_emit (e : bp_emit_t) (t : la_trigger_t) (fired : bool) : bp_emit_t :=
  emit_bytes e (q "|trigger|:{|la|:" ++ dec (tr_la t) ++ q ",|edge|:|" ++ la_edge_name (tr_edge t) ++ q "|,|fired|:" ++ (if fired then str "true" else str "false") ++ str "}").

(** ** The commands' glue ([command_handler_pins.c]): pulls, GPIO_SET, step trains

    Times are microseconds; what the fabric answers to a step is an argument. [pulls] is
    [la_pull_mask_now()]; [wire] the GPIO_SET commands sent. *)

Abbreviation STEP_BUSY_SETTLE_US := 5000.
Abbreviation STEP_POLL_PERIOD_US := 10000.

Record step_t := StepT { st_active : bool; st_la : Z; st_dir_la : Z; claimed_step : bool; claimed_dir : bool; next_check : Z }.
Definition step0 : step_t := StepT false 0 0 false false 0.
Record pins_t := PinsT { s_pin : la_pins_t; s_step : step_t; pulls : list Z; wire : list (Z * Z) }.
Definition pins_boot : pins_t := PinsT la_pins_reset step0 [] [].

Definition upd (f : la_pins_t -> la_pins_t) (p : pins_t) : pins_t := {| p with s_pin := f (s_pin p) |}.
Definition fpga_la_set (la m : Z) (p : pins_t) : pins_t := {| p with wire := wire p ++ [(la, m)] |}.
Definition la_pins_drive_mask (mask : list Z) (p : pins_t) : pins_t := fold_left (fun p la => fpga_la_set la (la_pins_drive (s_pin p) la) p) (mask_of mask) p.

Definition step_finish (p : pins_t) : pins_t :=
  let t := s_step p in
  let p := if claimed_step t && bool_decide (la_pins_fn (s_pin p) (st_la t) = LA_FN_STEP) then upd (la_pins_release (st_la t)) p else p in
  let p := if claimed_dir t && bool_decide (la_pins_fn (s_pin p) (st_dir_la t) = LA_FN_STEP_DIR) then fpga_la_set (st_dir_la t) 2 (upd (la_pins_release (st_dir_la t)) p) else p in
  {| p with s_step := {| t with st_active := false |} |}.

Definition la_step_poll (now : Z) (busy : bool) (p : pins_t) : pins_t :=
  let t := s_step p in
  if negb (st_active t) || (now <? next_check t) then p
  else if busy then {| p with s_step := {| t with next_check := now + STEP_POLL_PERIOD_US |} |}
  else step_finish p.

(** [busy], [busy']: the two reads of STEP_BUSY; [rc]: what [fpga_la_step] answers. The result is
    the code and the message. *)
Definition la_step_begin (now : Z) (busy busy' : bool) (rc la steps delay_us dir_la : Z) (dir : bool) (cap : nat) (p : pins_t) : pins_t * Z * cstr :=
  let p := if st_active (s_step p) && (next_check (s_step p) <=? now) && negb busy then step_finish p else p in
  match la_pins_plan_step (s_pin p) la dir_la cap with
  | inr e => (p, if has_prefix (str "pin conflict:") e then -3 else -1, e)
  | inl plan =>
      match la_step_args_ok steps delay_us cap with
      | Some e => (p, -1, e)
      | None =>
          if st_active (s_step p) || busy' then (p, -2, snprintf_cut cap (str "busy"))
          else
            let prev := la_pins_level (s_pin p) dir_la in
            let has_dir := negb (dir_la =? 0) in
            let keep := has_dir && negb (claim_dir plan) in
            let p := if keep then upd (la_pins_set_level dir_la (if dir then 1 else 0)) p else p in
            let p := if has_dir then fpga_la_set dir_la (if dir then 1 else 0) p else p in
            if negb (rc =? 0) then
              let p := if keep then upd (la_pins_set_level dir_la (if 0 <? prev then 1 else 0)) p else p in
              let p := if has_dir then fpga_la_set dir_la (if claim_dir plan then 2 else la_pins_drive (s_pin p) dir_la) p else p in
              (p, if rc =? -2 then -2 else -1, snprintf_cut cap (if rc =? -2 then str "busy" else str "invalid args"))
            else
              let p := if claim_step plan then upd (la_pins_claim LA_FN_STEP LA_GPIO_NONE 0 [la]) p else p in
              let p := if claim_dir plan then upd (la_pins_claim LA_FN_STEP_DIR LA_GPIO_NONE 0 [dir_la]) p else p in
              ({| p with s_step := StepT true la dir_la (claim_step plan) (claim_dir plan) (now + STEP_BUSY_SETTLE_US) |}, 0, [])
      end
  end.

Definition la_pins_on_gateware_reconfigured (p : pins_t) : pins_t :=
  let t := s_step p in
  let p := {| p with s_step := {| t with st_active := false |} |} in
  let p := upd (fun s => fst (la_pins_release_fn LA_FN_STEP_DIR (fst (la_pins_release_fn LA_FN_STEP s)))) p in
  la_pins_drive_mask (la_pins_mask_fn (s_pin p) LA_FN_GPIO) p.

(** The write half of [handle_gpio]: an error changes nothing. *)
Definition gpio_write (req : la_gpio_req_t) (p : pins_t) : pins_t + cstr :=
  match la_pins_gpio_apply req (pulls p) LA_PINS_ERR_MAX (s_pin p) with
  | inr e => inr e
  | inl (s, changed, _) => inl (la_pins_drive_mask changed (upd (fun _ => s) p))
  end.

Definition command_handler_dig_output (voltage_set : bool) (la lv : Z) (p : pins_t) : pins_t * Z :=
  if negb voltage_set then (p, -2)
  else if (la <? 1) || (LA_PINS_COUNT <? la) then (p, -1)
  else
    match la_pins_check_claim (s_pin p) LA_FN_GPIO LA_GPIO_OUTPUT [la] [LA_FN_GPIO] (pulls p) LA_PINS_ERR_MAX with
    | Some _ => (p, -2)
    | None => let p := upd (la_pins_claim LA_FN_GPIO LA_GPIO_OUTPUT lv [la]) p in (fpga_la_set la (la_pins_drive (s_pin p) la) p, 0)
    end.

(** The pull part of [handle_la]; [ok]: the expander took it. *)
Definition pull_set (la : Z) (on ok : bool) (p : pins_t) : pins_t + cstr :=
  match (if on then la_pins_check_pull_enable (s_pin p) la LA_PINS_ERR_MAX else None) with
  | Some e => inr e
  | None => inl (if ok then {| p with pulls := if on then la :: pulls p else filter (fun x => x <> la) (pulls p) |} else p)
  end.

(** [la_claim_or_error], and the [la_pins_claim] an engine makes once it has started. *)
Definition la_claim_or_error (f : la_fn_t) (las : list Z) (free_fns : list la_fn_t) (p : pins_t) : option cstr :=
  la_pins_check_claim (s_pin p) f LA_GPIO_NONE las free_fns (pulls p) LA_PINS_ERR_MAX.
Definition i2c_release (p : pins_t) : pins_t := upd (fun s => fst (la_pins_release_fn LA_FN_I2C_SCL (fst (la_pins_release_fn LA_FN_I2C_SDA s)))) p.

(** The pins of [handle_sensor_start]; [started]: [sensor_sim_start] took them. *)
Definition sensor_start (sda scl : Z) (started : bool) (p : pins_t) : pins_t + cstr :=
  let i2c_fns := [LA_FN_I2C_SDA; LA_FN_I2C_SCL] in
  let sda_pin := sda mod 256 in let scl_pin := scl mod 256 in
  match la_claim_or_error LA_FN_I2C_SDA [sda_pin] i2c_fns p with
  | Some e => inr e
  | None =>
      match la_claim_or_error LA_FN_I2C_SCL [scl_pin] i2c_fns p with
      | Some e => inr e
      | None =>
          if negb started then inr (str "sensor start failed (bad channel?)")
          else inl (upd (la_pins_claim LA_FN_I2C_SCL LA_GPIO_NONE 0 [scl_pin]) (upd (la_pins_claim LA_FN_I2C_SDA LA_GPIO_NONE 0 [sda_pin]) (i2c_release p)))
      end
  end.
(** [sensor_poll]'s and [handle_sensor_stop]'s effect on the pins. *)
Definition sensor_poll (rearm_failed : bool) (p : pins_t) : pins_t := if rearm_failed then i2c_release p else p.

(** ** The commands, as one step

    A reconfiguration resets every latch of the fabric, so what was sent before it is gone. *)

Inductive pins_op :=
| OGpio (req : la_gpio_req_t) | ODig (la lv : Z) | OPull (la : Z) (on ok : bool)
| OStep (now : Z) (busy busy' : bool) (rc la steps delay_us dir_la : Z) (dir : bool) | OStepPoll (now : Z) (busy : bool)
| OReconfigured | OSensor (sda scl : Z) (started : bool) | OSensorPoll (rearm_failed : bool)
| OClaim (f : la_fn_t) (las : list Z) (free_fns : list la_fn_t) | ORelease (f : la_fn_t).
Definition pins_do (op : pins_op) (p : pins_t) : pins_t :=
  let keep (r : pins_t + cstr) := match r with inl p' => p' | inr _ => p end in
  match op with
  | OGpio req => keep (gpio_write req p)
  | ODig la lv => fst (command_handler_dig_output true la lv p)
  | OPull la on ok => keep (pull_set la on ok p)
  | OStep now busy busy' rc la steps delay_us dir_la dir => fst (fst (la_step_begin now busy busy' rc la steps delay_us dir_la dir LA_PINS_ERR_MAX p))
  | OStepPoll now busy => la_step_poll now busy p
  | OReconfigured => la_pins_on_gateware_reconfigured {| p with wire := [] |}
  | OSensor sda scl started => keep (sensor_start sda scl started p)
  | OSensorPoll b => sensor_poll b p
  | OClaim f las free_fns => match la_claim_or_error f las free_fns p with Some _ => p | None => upd (la_pins_claim f LA_GPIO_NONE 0 las) p end
  | ORelease f => upd (fun s => fst (la_pins_release_fn f s)) p
  end.
