(* ===== verification/LaPinsTheorems.v ===== *)
(** * The LA pins: the table is typed, the pulls are compatible, the wire follows the table

    The invariants are kept by every command, in any order: [pins_do] is one command, an
    engine's claim and release among them. *)

From S2P Require Import Prelude Json LaPins.

(** ** Lookups *)

Definition table_ok (s : la_pins_t) : Prop := length s = 15%nat.

Lemma set_pin_length la x s : table_ok s -> table_ok (set_pin la x s).
Proof. unfold table_ok, set_pin, la_pins_t in *. by rewrite length_insert. Qed.

Lemma la_ok_range la : la_ok la = true <-> 1 <= la <= 14.
Proof. unfold la_ok. lia. Qed.

Lemma pin_set la la' x s : table_ok s -> la_ok la = true -> la_ok la' = true -> pin (set_pin la x s) la' = if la' =? la then x else pin s la'.
Proof.
  rewrite !la_ok_range. unfold table_ok, pin, set_pin, la_pins_t in *. intros Hl H1 H2. rewrite !nth_lookup.
  destruct (Z.eqb_spec la' la) as [->|Hne].
  - by rewrite list_lookup_insert_eq by lia.
  - rewrite list_lookup_insert_ne by lia. done.
Qed.

(** ** One pin's change: a claim, a level, a release *)

Lemma claim_one_pin f m lv s la la' :
  table_ok s -> la_ok la' = true ->
  pin (claim_one f m lv s la) la' = if la' =? la then Pin f (if bool_decide (f = LA_FN_GPIO) then m else LA_GPIO_NONE) (if lv =? 0 then 0 else 1) else pin s la'.
Proof.
  intros Hs Hl. unfold claim_one. destruct (la_ok la) eqn:E; [by apply pin_set|].
  destruct (Z.eqb_spec la' la) as [->|]; [congruence|done].
Qed.
Lemma claim_one_ok f m lv s la : table_ok s -> table_ok (claim_one f m lv s la).
Proof. unfold claim_one. case_match; [apply set_pin_length|done]. Qed.

Lemma claim_ok f m lv las s : table_ok s -> table_ok (la_pins_claim f m lv las s).
Proof. unfold la_pins_claim. revert s. induction las as [|a l IH]; cbn; [done|]. intros s Hs. apply IH, claim_one_ok, Hs. Qed.
Lemma claim_pin f m lv las s la :
  table_ok s -> la_ok la = true ->
  pin (la_pins_claim f m lv las s) la = if bool_decide (la ∈ las) then Pin f (if bool_decide (f = LA_FN_GPIO) then m else LA_GPIO_NONE) (if lv =? 0 then 0 else 1) else pin s la.
Proof.
  unfold la_pins_claim. revert s. induction las as [|a l IH]; intros s Hs Hl; cbn [fold_left]; [by rewrite bool_decide_eq_false_2 by (apply not_elem_of_nil)|].
  rewrite IH by (try apply claim_one_ok; done). rewrite claim_one_pin by done.
  destruct (Z.eqb_spec la a) as [->|]; repeat case_bool_decide; set_solver.
Qed.

Lemma set_level_ok la lv s : table_ok s -> table_ok (la_pins_set_level la lv s).
Proof. unfold la_pins_set_level. case_match; [apply set_pin_length|done]. Qed.
Lemma set_level_pin la lv s la' :
  table_ok s -> la_ok la' = true ->
  pin (la_pins_set_level la lv s) la' = if la' =? la then {| fn := fn (pin s la); gpio := gpio (pin s la); level := if lv =? 0 then 0 else 1 |} else pin s la'.
Proof.
  intros Hs Hl. unfold la_pins_set_level. destruct (la_ok la) eqn:E; [by apply pin_set|].
  destruct (Z.eqb_spec la' la) as [->|]; [congruence|done].
Qed.
Lemma set_levels_ok las lv s : table_ok s -> table_ok (fold_left (fun s la => la_pins_set_level la lv s) las s).
Proof. revert s. induction las as [|a l IH]; cbn; [done|]. intros s Hs. apply IH, set_level_ok, Hs. Qed.
Lemma set_levels_pin las lv s la :
  table_ok s -> la_ok la = true ->
  pin (fold_left (fun s la => la_pins_set_level la lv s) las s) la =
    if bool_decide (la ∈ las) then {| fn := fn (pin s la); gpio := gpio (pin s la); level := if lv =? 0 then 0 else 1 |} else pin s la.
Proof.
  revert s. induction las as [|a l IH]; intros s Hs Hl; cbn [fold_left]; [by rewrite bool_decide_eq_false_2 by (apply not_elem_of_nil)|].
  rewrite IH by (try apply set_level_ok; done). rewrite set_level_pin by done.
  destruct (Z.eqb_spec la a) as [->|]; repeat case_bool_decide; set_solver.
Qed.

Lemma release_ok la s : table_ok s -> table_ok (la_pins_release la s).
Proof. unfold la_pins_release. case_match; [apply set_pin_length|done]. Qed.
Lemma release_pin la s la' : table_ok s -> la_ok la' = true -> pin (la_pins_release la s) la' = if la' =? la then pin0 else pin s la'.
Proof.
  intros Hs Hl. unfold la_pins_release. destruct (la_ok la) eqn:E; [by apply pin_set|].
  destruct (Z.eqb_spec la' la) as [->|]; [congruence|done].
Qed.
Lemma releases_ok mask s : table_ok s -> table_ok (fold_left (fun s la => la_pins_release la s) mask s).
Proof. revert s. induction mask as [|a l IH]; cbn; [done|]. intros s Hs. apply IH, release_ok, Hs. Qed.
Lemma releases_pin mask s la :
  table_ok s -> la_ok la = true -> pin (fold_left (fun s la => la_pins_release la s) mask s) la = if bool_decide (la ∈ mask) then pin0 else pin s la.
Proof.
  revert s. induction mask as [|a l IH]; intros s Hs Hl; cbn [fold_left]; [by rewrite bool_decide_eq_false_2 by (apply not_elem_of_nil)|].
  rewrite IH by (try apply release_ok; done). rewrite release_pin by done.
  destruct (Z.eqb_spec la a) as [->|]; repeat case_bool_decide; set_solver.
Qed.

Lemma in_pins la : la ∈ pins_1_14 <-> la_ok la = true.
Proof.
  rewrite la_ok_range. split.
  - intros H. apply (proj1 (Forall_forall (fun x => 1 <= x <= 14) pins_1_14)); [|done]. repeat constructor; lia.
  - intros H. assert (la = 1 \/ la = 2 \/ la = 3 \/ la = 4 \/ la = 5 \/ la = 6 \/ la = 7 \/ la = 8 \/ la = 9 \/ la = 10 \/ la = 11 \/ la = 12 \/ la = 13 \/ la = 14) as D by lia.
    vm_compute (pins_1_14). repeat (destruct D as [->|D]; [set_solver|]). subst. set_solver.
Qed.
Lemma in_mask_fn s f la : la ∈ la_pins_mask_fn s f <-> la_ok la = true /\ fn (pin s la) = f.
Proof. unfold la_pins_mask_fn. rewrite list_elem_of_filter, in_pins. tauto. Qed.
Lemma in_mask_of l la : la ∈ mask_of l <-> la_ok la = true /\ la ∈ l.
Proof. unfold mask_of. rewrite list_elem_of_filter, in_pins. tauto. Qed.

Lemma release_fn_ok f s : table_ok s -> table_ok (fst (la_pins_release_fn f s)).
Proof. intros Hs. destruct f; try done; apply releases_ok, Hs. Qed.
Lemma release_fn_pin f s la :
  table_ok s -> la_ok la = true -> pin (fst (la_pins_release_fn f s)) la = if bool_decide (fn (pin s la) = f) && negb (bool_decide (f = LA_FN_NONE)) then pin0 else pin s la.
Proof.
  intros Hs Hl. assert (f = LA_FN_NONE \/ fst (la_pins_release_fn f s) = fold_left (fun s la => la_pins_release la s) (la_pins_mask_fn s f) s) as [->|E] by (destruct f; tauto).
  - cbn. by rewrite andb_false_r.
  - destruct (decide (f = LA_FN_NONE)) as [->|Hf]; [cbn; by rewrite andb_false_r|].
    rewrite E, releases_pin by done. rewrite (bool_decide_eq_false_2 _ Hf), andb_true_r.
    apply (f_equal (fun b : bool => if b then _ else _)). apply bool_decide_ext. rewrite in_mask_fn. tauto.
Qed.

Lemma release_fn_fn f s la :
  table_ok s -> la_ok la = true -> fn (pin (fst (la_pins_release_fn f s)) la) = if bool_decide (fn (pin s la) = f) then LA_FN_NONE else fn (pin s la).
Proof. intros Hs Hl. rewrite release_fn_pin by done. repeat case_bool_decide; subst; cbn; congruence. Qed.

(** ** The invariant, pin by pin *)

(** What the fabric drives on a pin: the last GPIO_SET sent for it, high-Z after a reset. *)
Definition latch (w : list (Z * Z)) (la : Z) : Z := fold_left (fun l e => if fst e =? la then snd e else l) w 2.
Definition drive_of (x : la_pin_t) : Z :=
  match gpio x with LA_GPIO_OUTPUT => if level x =? 0 then 0 else 1 | LA_GPIO_OPEN_DRAIN => if level x =? 0 then 0 else 2 | _ => 2 end.
Definition pin_typed (x : la_pin_t) : Prop := (level x = 0 \/ level x = 1) /\ (gpio x = LA_GPIO_NONE <-> fn x <> LA_FN_GPIO).
Definition pulled_down (p : pins_t) (la : Z) : Prop := la_pull_dir la = LA_PULL_DOWN /\ la ∈ pulls p.
Definition step_pin (t : step_t) (la : Z) : Prop := st_active t = true /\ claimed_step t = true /\ la = st_la t.
Definition dir_pin (t : step_t) (la : Z) : Prop := st_active t = true /\ claimed_dir t = true /\ la = st_dir_la t.

Record pin_inv (p : pins_t) (la : Z) : Prop := {
  pi_typed : pin_typed (pin (s_pin p) la);
  pi_pull : pulled_down p la -> pull_down_reason (fn (pin (s_pin p) la)) (gpio (pin (s_pin p) la)) = None;
  pi_gpio : fn (pin (s_pin p) la) = LA_FN_GPIO -> latch (wire p) la = drive_of (pin (s_pin p) la);
  pi_rest : fn (pin (s_pin p) la) <> LA_FN_GPIO -> fn (pin (s_pin p) la) <> LA_FN_STEP_DIR -> latch (wire p) la = 2;
  pi_step : fn (pin (s_pin p) la) = LA_FN_STEP <-> step_pin (s_step p) la;
  pi_dir : fn (pin (s_pin p) la) = LA_FN_STEP_DIR <-> dir_pin (s_step p) la }.
Definition pins_inv (p : pins_t) : Prop := table_ok (s_pin p) /\ forall la, la_ok la = true -> pin_inv p la.

(** The engines that claim pins through [la_claim_or_error]. *)
Definition engine_fn (f : la_fn_t) : bool := match f with LA_FN_NONE | LA_FN_GPIO | LA_FN_STEP | LA_FN_STEP_DIR => false | _ => true end.
Definition op_ok (op : pins_op) : Prop :=
  match op with
  | OClaim f las free_fns => engine_fn f = true /\ forallb engine_fn free_fns = true
  | ORelease f => engine_fn f = true
  | _ => True
  end.

Lemma latch_app w a m la : latch (w ++ [(a, m)]) la = if a =? la then m else latch w la.
Proof. unfold latch. by rewrite fold_left_app. Qed.
Lemma gpio_at s la : la_ok la = true -> pin_typed (pin s la) -> la_pins_gpio s la = gpio (pin s la).
Proof. intros Hl [_ T]. unfold la_pins_gpio. rewrite Hl. cbn. case_bool_decide as E; cbn; [done|]. by symmetry; apply T. Qed.
Lemma fn_at s la : la_ok la = true -> la_pins_fn s la = fn (pin s la).
Proof. unfold la_pins_fn. by intros ->. Qed.
Lemma drive_at s la : la_ok la = true -> pin_typed (pin s la) -> la_pins_drive s la = drive_of (pin s la).
Proof. intros Hl T. unfold la_pins_drive. by rewrite gpio_at. Qed.

Definition driven (l : list Z) (p : pins_t) : pins_t := fold_left (fun p la => fpga_la_set la (la_pins_drive (s_pin p) la) p) l p.
Lemma driven_spec l p : s_pin (driven l p) = s_pin p /\ s_step (driven l p) = s_step p /\ pulls (driven l p) = pulls p /\
  forall la, latch (wire (driven l p)) la = if bool_decide (la ∈ l) then la_pins_drive (s_pin p) la else latch (wire p) la.
Proof.
  revert p. unfold driven. induction l as [|a l IH]; intros p; cbn [fold_left].
  - by split_and!.
  - destruct (IH (fpga_la_set a (la_pins_drive (s_pin p) a) p)) as (E1 & E2 & E3 & E4). rewrite E1, E2, E3. split_and!; try done.
    intros la. rewrite E4. cbn [fpga_la_set s_pin wire]. rewrite latch_app. destruct (Z.eqb_spec a la) as [->|]; repeat case_bool_decide; set_solver.
Qed.
Lemma drive_mask_spec mask p : s_pin (la_pins_drive_mask mask p) = s_pin p /\ s_step (la_pins_drive_mask mask p) = s_step p /\ pulls (la_pins_drive_mask mask p) = pulls p /\
  forall la, la_ok la = true -> latch (wire (la_pins_drive_mask mask p)) la = if bool_decide (la ∈ mask) then la_pins_drive (s_pin p) la else latch (wire p) la.
Proof.
  destruct (driven_spec (mask_of mask) p) as (E1 & E2 & E3 & E4). repeat split; try done. intros la Hl. unfold la_pins_drive_mask. fold (driven (mask_of mask) p). rewrite E4.
  apply (f_equal (fun b : bool => if b then _ else _)). apply bool_decide_ext. rewrite in_mask_of. tauto.
Qed.

(** ** What an allowed claim means *)

Lemma claim_conflict_none s las free_fns cap :
  claim_conflict s las free_fns cap = None -> forall la, la ∈ las -> la_ok la = true /\ (fn (pin s la) = LA_FN_NONE \/ fn (pin s la) ∈ free_fns).
Proof.
  induction las as [|a l IH]; cbn; [set_solver|]. destruct (la_ok a) eqn:Ea; cbn; [|done].
  destruct (negb _ && negb _) eqn:E; [done|]. intros H la [->|Hin]%elem_of_cons; [|by apply IH].
  split; [done|]. unfold in_fns in E. apply andb_false_iff in E as [E|E]; apply negb_false_iff, bool_decide_eq_true in E; auto.
Qed.
Lemma pull_conflict_none las f m reason pl cap :
  pull_conflict las f m reason pl cap = None -> forall la, la ∈ las -> ~ (la_pull_dir la = LA_PULL_DOWN /\ la ∈ pl).
Proof.
  induction las as [|a l IH]; cbn; [set_solver|]. destruct (negb _ || negb _) eqn:E; [|done].
  intros H la [->|Hin]%elem_of_cons; [|by apply IH]. apply orb_true_iff in E. rewrite !negb_true_iff, !bool_decide_eq_false in E. tauto.
Qed.
Lemma check_claim_none s f m las free_fns pl cap :
  la_pins_check_claim s f m las free_fns pl cap = None ->
  forall la, la ∈ las -> la_ok la = true /\ (fn (pin s la) = LA_FN_NONE \/ fn (pin s la) ∈ free_fns) /\
    (la_pull_dir la = LA_PULL_DOWN /\ la ∈ pl -> pull_down_reason f m = None).
Proof.
  unfold la_pins_check_claim. destruct (claim_conflict s las free_fns cap) eqn:E; [done|]. intros H la Hin.
  destruct (claim_conflict_none _ _ _ _ E la Hin) as [H1 H2]. repeat split; try done. intros Hd.
  destruct (pull_down_reason f m); [|done]. exfalso. by eapply pull_conflict_none.
Qed.

(** ** Every command keeps the invariant *)

Lemma pin_inv_same p p' la :
  pin (s_pin p') la = pin (s_pin p) la -> latch (wire p') la = latch (wire p) la -> (pulled_down p' la -> pulled_down p la) ->
  (step_pin (s_step p') la <-> step_pin (s_step p) la) -> (dir_pin (s_step p') la <-> dir_pin (s_step p) la) -> pin_inv p la -> pin_inv p' la.
Proof. intros E1 E2 E3 E4 E5 [H1 H2 H3 H4 H5 H6]. split; rewrite ?E1, ?E2, ?E4, ?E5; auto. Qed.

(** A free pin. *)
Lemma pin_inv_free p' la : pin (s_pin p') la = pin0 -> latch (wire p') la = 2 -> ~ step_pin (s_step p') la -> ~ dir_pin (s_step p') la -> pin_inv p' la.
Proof. intros E E2 N1 N2. split; rewrite ?E, ?E2; cbn; try done; try (split; auto; done). Qed.

(** A pin of an engine. *)
Lemma pin_inv_engine p' la f :
  pin (s_pin p') la = Pin f LA_GPIO_NONE 0 -> engine_fn f = true -> latch (wire p') la = 2 -> (pulled_down p' la -> pull_down_reason f LA_GPIO_NONE = None) ->
  ~ step_pin (s_step p') la -> ~ dir_pin (s_step p') la -> pin_inv p' la.
Proof. intros E Hf E2 Hp N1 N2. split; rewrite ?E, ?E2; cbn; try done; try (split; [auto|]); destruct f; try done. Qed.

(** A GPIO pin whose latch follows it. *)
Lemma pin_inv_gpio p' la m lv :
  pin (s_pin p') la = Pin LA_FN_GPIO m lv -> m <> LA_GPIO_NONE -> lv = 0 \/ lv = 1 -> latch (wire p') la = drive_of (Pin LA_FN_GPIO m lv) ->
  (pulled_down p' la -> pull_down_reason LA_FN_GPIO m = None) -> ~ step_pin (s_step p') la -> ~ dir_pin (s_step p') la -> pin_inv p' la.
Proof. intros E Hm Hl E2 Hp N1 N2. split; rewrite ?E, ?E2; cbn -[pull_down_reason]; try done; split; auto; try done. Qed.

(** Neither role of a step train. *)
Lemma pin_not_step p la : pin_inv p la -> fn (pin (s_pin p) la) <> LA_FN_STEP -> fn (pin (s_pin p) la) <> LA_FN_STEP_DIR ->
  ~ step_pin (s_step p) la /\ ~ dir_pin (s_step p) la.
Proof. intros [_ _ _ _ H5 H6] N1 N2. by rewrite <- H5, <- H6. Qed.
Lemma pin_engine_latch p la f : pin_inv p la -> fn (pin (s_pin p) la) = f -> engine_fn f = true \/ f = LA_FN_NONE ->
  latch (wire p) la = 2 /\ ~ step_pin (s_step p) la /\ ~ dir_pin (s_step p) la.
Proof.
  intros I E Hf. destruct (pin_not_step p la I) as [N1 N2]; [rewrite E; destruct Hf, f; cbn in *; congruence..|].
  split; [|done]. apply (pi_rest _ _ I); rewrite E; destruct Hf, f; cbn in *; congruence.
Qed.

Lemma inv_engine_release f p : engine_fn f = true -> pins_inv p -> pins_inv (upd (fun s => fst (la_pins_release_fn f s)) p).
Proof.
  intros Hf [Ht Hp]. split; [by apply release_fn_ok|]. intros la Hl. pose proof (Hp la Hl) as I.
  assert (E := release_fn_pin f (s_pin p) la Ht Hl). destruct (decide (fn (pin (s_pin p) la) = f)) as [Ef|Ef].
  - destruct (pin_engine_latch p la f I Ef (or_introl Hf)) as (E2 & N1 & N2). rewrite bool_decide_eq_true_2 in E by done. apply pin_inv_free; try done. cbn [upd s_pin]. rewrite E. by destruct f.
  - rewrite bool_decide_eq_false_2 in E by done. by apply (pin_inv_same p).
Qed.
Lemma inv_i2c_release p : pins_inv p -> pins_inv (i2c_release p).
Proof.
  intros I. apply (inv_engine_release LA_FN_I2C_SDA) in I; [|done]. by apply (inv_engine_release LA_FN_I2C_SCL) in I.
Qed.

(** An engine claims pins that are free or its own, and that its pull-down rule allows. *)
Lemma inv_engine_claim f las p :
  engine_fn f = true -> pins_inv p ->
  (forall la, la_ok la = true -> la ∈ las -> (fn (pin (s_pin p) la) = LA_FN_NONE \/ engine_fn (fn (pin (s_pin p) la)) = true) /\ (pulled_down p la -> pull_down_reason f LA_GPIO_NONE = None)) ->
  pins_inv (upd (la_pins_claim f LA_GPIO_NONE 0 las) p).
Proof.
  intros Hf [Ht Hp] Hc. split; [by apply claim_ok|]. intros la Hl. pose proof (Hp la Hl) as I.
  assert (E := claim_pin f LA_GPIO_NONE 0 las (s_pin p) la Ht Hl). case_bool_decide as Hin.
  - destruct (Hc la Hl Hin) as [Ho Hd]. destruct (pin_engine_latch p la _ I eq_refl) as (E2 & N1 & N2); [tauto|].
    apply (pin_inv_engine _ _ f); try done. cbn [upd s_pin]. rewrite E. by case_bool_decide; subst.
  - by apply (pin_inv_same p).
Qed.
Lemma inv_claim f las free_fns p :
  engine_fn f = true -> forallb engine_fn free_fns = true -> la_claim_or_error f las free_fns p = None -> pins_inv p ->
  pins_inv (upd (la_pins_claim f LA_GPIO_NONE 0 las) p).
Proof.
  intros Hf Hff Hc I. apply inv_engine_claim; try done. intros la Hl Hin. destruct (check_claim_none _ _ _ _ _ _ _ Hc la Hin) as (_ & Ho & Hd).
  split; [|exact Hd]. destruct Ho as [|Hfr]; [auto|]. right. rewrite forallb_forall in Hff. by apply Hff, list_elem_of_In.
Qed.

Lemma inv_sensor_start sda scl started p p' : sensor_start sda scl started p = inl p' -> pins_inv p -> pins_inv p'.
Proof.
  unfold sensor_start. destruct (la_claim_or_error LA_FN_I2C_SDA _ _ p) eqn:C1; [done|]. destruct (la_claim_or_error LA_FN_I2C_SCL _ _ p) eqn:C2; [done|].
  destruct started; cbn; [|done]. intros [= <-] I.
  assert (forall f x, la_claim_or_error f [x] [LA_FN_I2C_SDA; LA_FN_I2C_SCL] p = None -> engine_fn f = true -> forall q, s_pin q = s_pin (i2c_release p) \/ (exists g y, engine_fn g = true /\ s_pin q = la_pins_claim g LA_GPIO_NONE 0 [y] (s_pin (i2c_release p))) ->
    pulls q = pulls p -> forall la, la_ok la = true -> la ∈ [x] ->
    (fn (pin (s_pin q) la) = LA_FN_NONE \/ engine_fn (fn (pin (s_pin q) la)) = true) /\ (pulled_down q la -> pull_down_reason f LA_GPIO_NONE = None)) as K.
  { intros f x Hc Hf q Hq Hpl la Hl Hin. destruct (check_claim_none _ _ _ _ _ _ _ Hc la Hin) as (_ & Ho & Hd).
    split; [|unfold pulled_down; rewrite Hpl; exact Hd].
    destruct I as [Ht _]. assert (fn (pin (s_pin (i2c_release p)) la) = LA_FN_NONE) as Hfree.
    { cbn [i2c_release upd s_pin]. rewrite !release_fn_fn by (try apply release_fn_ok; done).
      destruct (fn (pin (s_pin p) la)); try reflexivity; exfalso; clear -Ho; rewrite !elem_of_cons, elem_of_nil in Ho; intuition congruence. }
    destruct Hq as [->|(g & y & Hg & ->)]; [auto|].
    rewrite claim_pin by (try apply (release_fn_ok LA_FN_I2C_SCL), release_fn_ok; done). case_bool_decide; auto. }
  apply inv_engine_claim; [done| |].
  - apply inv_engine_claim; [done|by apply inv_i2c_release|]. apply (K _ _ C1); [done| |done]. by left.
  - apply (K _ _ C2); [done| |done]. right. exists LA_FN_I2C_SDA. eauto.
Qed.

(** [la_pins_drive_mask] after a change of the table: the pins it names follow it. *)
Lemma inv_driven changed s p :
  table_ok s ->
  (forall la, la_ok la = true -> la ∈ changed ->
     pin s la = pin0 /\ ~ step_pin (s_step p) la /\ ~ dir_pin (s_step p) la \/
     exists m lv, pin s la = Pin LA_FN_GPIO m lv /\ m <> LA_GPIO_NONE /\ (lv = 0 \/ lv = 1) /\ (pulled_down p la -> pull_down_reason LA_FN_GPIO m = None) /\
       ~ step_pin (s_step p) la /\ ~ dir_pin (s_step p) la) ->
  (forall la, la_ok la = true -> la ∉ changed -> pin_inv (upd (fun _ => s) p) la) ->
  pins_inv (la_pins_drive_mask changed (upd (fun _ => s) p)).
Proof.
  intros Ht Hc Hn. destruct (drive_mask_spec changed (upd (fun _ => s) p)) as (E1 & E2 & E3 & E4).
  split; [by rewrite E1|]. intros la Hl. specialize (E4 la Hl). case_bool_decide as Hin.
  - assert (forall x, pin s la = x -> pin_typed x -> latch (wire (la_pins_drive_mask changed (upd (fun _ => s) p))) la = drive_of x) as D.
    { intros x Ex T. rewrite E4. rewrite drive_at by (cbn [upd s_pin]; by rewrite ?Ex). cbn [upd s_pin]. by rewrite Ex. }
    destruct (Hc la Hl Hin) as [(E & N1 & N2)|(m & lv & E & Hm & Hlv & Hd & N1 & N2)].
    + apply pin_inv_free; rewrite ?E1, ?E2; try done. apply (D pin0); [done|]. repeat split; auto; done.
    + eapply pin_inv_gpio; rewrite ?E1, ?E2; try done; [by apply D; [|repeat split; auto; done]|]. unfold pulled_down. rewrite E3. exact Hd.
  - apply (pin_inv_same (upd (fun _ => s) p)); rewrite ?E1, ?E2; try done; [|by apply Hn]. unfold pulled_down. by rewrite E3.
Qed.

Lemma not_step_of p la : pin_inv p la -> fn (pin (s_pin p) la) = LA_FN_NONE \/ fn (pin (s_pin p) la) = LA_FN_GPIO -> ~ step_pin (s_step p) la /\ ~ dir_pin (s_step p) la.
Proof. intros I H. apply (pin_not_step p la I); destruct H; congruence. Qed.

(** Pins set to a GPIO mode. *)
Lemma inv_gpio_claim m lv las changed p :
  m <> LA_GPIO_NONE -> la_pins_check_claim (s_pin p) LA_FN_GPIO m las [LA_FN_GPIO] (pulls p) LA_PINS_ERR_MAX = None -> pins_inv p ->
  (forall la, la ∈ changed <-> la_ok la = true /\ la ∈ las) ->
  pins_inv (la_pins_drive_mask changed (upd (fun _ => la_pins_claim LA_FN_GPIO m lv las (s_pin p)) p)).
Proof.
  intros Hm Hc [Ht Hp] Hch. apply inv_driven; [by apply claim_ok| |].
  - intros la Hl [_ Hin]%Hch. right. destruct (check_claim_none _ _ _ _ _ _ _ Hc la Hin) as (_ & Ho & Hd).
    rewrite claim_pin by done. rewrite bool_decide_eq_true_2 by done. exists m, (if lv =? 0 then 0 else 1).
    assert (fn (pin (s_pin p) la) = LA_FN_NONE \/ fn (pin (s_pin p) la) = LA_FN_GPIO) as Ho' by (rewrite elem_of_cons, elem_of_nil in Ho; tauto).
    destruct (not_step_of p la (Hp la Hl) Ho'). split_and!; try done. case_match; auto.
  - intros la Hl Hn. apply (pin_inv_same p); try done; [|by apply Hp]. cbn [upd s_pin]. rewrite claim_pin by done.
    rewrite bool_decide_eq_false_2; [done|]. intros Hin. by apply Hn, Hch.
Qed.

Lemma check_level_none s las cap : la_pins_check_level s las cap = None -> forall la, la ∈ las -> la_ok la = true /\ (la_pins_gpio s la = LA_GPIO_OUTPUT \/ la_pins_gpio s la = LA_GPIO_OPEN_DRAIN).
Proof.
  induction las as [|a l IH]; cbn; [set_solver|]. destruct (la_ok a) eqn:Ea; cbn; [|done].
  intros H la [->|Hin]%elem_of_cons; destruct (la_pins_gpio s a) eqn:E; try done; try (by apply IH); auto.
Qed.
Lemma gpio_fn s la : la_pins_gpio s la <> LA_GPIO_NONE -> la_ok la = true /\ fn (pin s la) = LA_FN_GPIO /\ la_pins_gpio s la = gpio (pin s la).
Proof.
  unfold la_pins_gpio. destruct (la_ok la); cbn; [|done]. case_bool_decide; cbn; [|done]. auto.
Qed.

Lemma inv_set_levels las lv changed p :
  la_pins_check_level (s_pin p) las LA_PINS_ERR_MAX = None -> pins_inv p -> (forall la, la ∈ changed <-> la_ok la = true /\ la ∈ las) ->
  pins_inv (la_pins_drive_mask changed (upd (fun _ => fold_left (fun s la => la_pins_set_level la lv s) las (s_pin p)) p)).
Proof.
  intros Hc [Ht Hp] Hch. apply inv_driven; [by apply set_levels_ok| |].
  - intros la Hl [_ Hin]%Hch. right. destruct (check_level_none _ _ _ Hc la Hin) as [_ Hg].
    destruct (gpio_fn (s_pin p) la) as (_ & Hf & Eg); [destruct Hg; congruence|].
    rewrite set_levels_pin by done. rewrite bool_decide_eq_true_2 by done. rewrite Hf. exists (gpio (pin (s_pin p) la)), (if lv =? 0 then 0 else 1).
    destruct (not_step_of p la (Hp la Hl) (or_intror Hf)). split_and!; try done; [rewrite <- Eg; destruct Hg; congruence|case_match; auto|].
    intros Hd. rewrite <- Hf. by apply (pi_pull _ _ (Hp la Hl)).
  - intros la Hl Hn. apply (pin_inv_same p); try done; [|by apply Hp]. cbn [upd s_pin]. rewrite set_levels_pin by done.
    rewrite bool_decide_eq_false_2; [done|]. intros Hin. by apply Hn, Hch.
Qed.

Lemma off_fold s0 las s changed :
  table_ok s -> (forall la, la_ok la = true -> pin s la = if bool_decide (la ∈ changed) then pin0 else pin s0 la) ->
  (forall la, la ∈ changed -> la_ok la = true /\ fn (pin s0 la) = LA_FN_GPIO) ->
  let sc := fold_left off_one las (s, changed) in
  table_ok (fst sc) /\ (forall la, la_ok la = true -> pin (fst sc) la = if bool_decide (la ∈ snd sc) then pin0 else pin s0 la) /\
  (forall la, la ∈ snd sc -> la_ok la = true /\ fn (pin s0 la) = LA_FN_GPIO) /\
  (forall la, la ∈ changed -> la ∈ snd sc) /\ (forall la, la ∈ las -> la_ok la = true -> fn (pin s0 la) = LA_FN_GPIO -> la ∈ snd sc).
Proof.
  revert s changed. induction las as [|a l IH]; intros s changed Hs He Hc; cbn [fold_left]; [split_and!; try done; set_solver|].
  cbn [off_one]. case_bool_decide as Hf.
  - assert (la_ok a = true) as Ha by (unfold la_pins_fn in Hf; by destruct (la_ok a)). rewrite fn_at in Hf by done.
    assert (a ∉ changed) as Hna by (intros Hin; rewrite He in Hf by done; by rewrite bool_decide_eq_true_2 in Hf).
    assert (fn (pin s0 a) = LA_FN_GPIO) as Hf0 by (rewrite He in Hf by done; by rewrite bool_decide_eq_false_2 in Hf).
    destruct (IH (la_pins_release a s) (changed ++ [a])) as (K1 & K2 & K3 & K4 & K5).
    + by apply release_ok.
    + intros la Hl. rewrite release_pin, He by done. destruct (Z.eqb_spec la a) as [->|]; repeat case_bool_decide; set_solver.
    + intros la. rewrite elem_of_app, elem_of_cons, elem_of_nil. intros [|[->|[]]]; auto.
    + split_and!; try done; [set_solver|]. intros la [->|Hin]%elem_of_cons ? ?; [apply K4; set_solver|by apply K5].
  - destruct (IH s changed Hs He Hc) as (K1 & K2 & K3 & K4 & K5). split_and!; try done.
    intros la [->|Hin]%elem_of_cons Hl Hg; [|by apply K5]. rewrite fn_at, He in Hf by done. case_bool_decide; [by apply K4|done].
Qed.

Lemma inv_gpio_off changed s p :
  pins_inv p -> table_ok s -> (forall la, la_ok la = true -> pin s la = if bool_decide (la ∈ changed) then pin0 else pin (s_pin p) la) ->
  (forall la, la ∈ changed -> la_ok la = true /\ fn (pin (s_pin p) la) = LA_FN_GPIO) -> pins_inv (la_pins_drive_mask changed (upd (fun _ => s) p)).
Proof.
  intros [_ Hp] Hs He Hc. apply inv_driven; [done| |].
  - intros la Hl Hin. left. rewrite He by done. rewrite bool_decide_eq_true_2 by done. split; [done|]. apply not_step_of; [by apply Hp|]. right. by apply Hc.
  - intros la Hl Hn. apply (pin_inv_same p); try done; [|by apply Hp]. cbn [upd s_pin]. rewrite He by done. by rewrite bool_decide_eq_false_2.
Qed.

Lemma release_gpio_mask s : snd (la_pins_release_fn LA_FN_GPIO s) = la_pins_mask_fn s LA_FN_GPIO.
Proof. reflexivity. Qed.
Lemma inv_gpio_write req p p' : gpio_write req p = inl p' -> pins_inv p -> pins_inv p'.
Proof.
  unfold gpio_write, la_pins_gpio_apply. intros H I.
  destruct (has_mode req); cbn [negb] in H.
  - destruct (bool_decide_reflect (mode req = LA_GPIO_NONE)) as [Hm|Hm].
    + destruct (all req).
      * destruct (la_pins_release_fn LA_FN_GPIO (s_pin p)) as [s m] eqn:E. injection H as <-. pose proof I as [Ht _].
        pose proof (f_equal fst E) as E1. pose proof (f_equal snd E) as E2. rewrite release_gpio_mask in E2. cbn [fst snd] in E1, E2. subst s m. clear E.
        apply inv_gpio_off; [done|by apply release_fn_ok| |].
        -- intros la Hl. rewrite release_fn_pin by done. rewrite andb_true_r. apply (f_equal (fun b : bool => if b then _ else _)), bool_decide_ext. rewrite in_mask_fn. tauto.
        -- intros la. by rewrite in_mask_fn.
      * destruct (off_conflict _ _ _); [done|]. destruct (fold_left off_one (las req) (s_pin p, [])) as [s changed] eqn:E. injection H as <-. pose proof I as [Ht _].
        destruct (off_fold (s_pin p) (las req) (s_pin p) [] Ht) as (K1 & K2 & K3 & _); [|set_solver|].
        { intros la Hl. by rewrite bool_decide_eq_false_2 by apply not_elem_of_nil. }
        rewrite E in K1, K2, K3. by apply inv_gpio_off.
    + destruct (all req); [done|]. destruct (_ && _); [done|]. destruct (la_pins_check_claim _ _ _ _ _ _ _) eqn:Ec; [done|]. injection H as <-.
      apply inv_gpio_claim; try done. intros la. by rewrite in_mask_of.
  - destruct (has_level req); cbn [negb] in H; [|done]. destruct (all req); [done|]. destruct (la_pins_check_level _ _ _) eqn:Ec; [done|]. injection H as <-.
    apply inv_set_levels; try done. intros la. by rewrite in_mask_of.
Qed.

Lemma mask_of_one la : la_ok la = true -> mask_of [la] = [la].
Proof.
  rewrite la_ok_range. intros H.
  assert (la = 1 \/ la = 2 \/ la = 3 \/ la = 4 \/ la = 5 \/ la = 6 \/ la = 7 \/ la = 8 \/ la = 9 \/ la = 10 \/ la = 11 \/ la = 12 \/ la = 13 \/ la = 14) as D by lia.
  repeat (destruct D as [->|D]; [reflexivity|]). by subst.
Qed.
Lemma inv_dig v la lv p : pins_inv p -> pins_inv (fst (command_handler_dig_output v la lv p)).
Proof.
  intros I. unfold command_handler_dig_output. destruct v; cbn [negb]; [|done]. destruct (_ || _) eqn:E; [done|].
  assert (la_ok la = true) as Hl by (apply la_ok_range; lia). destruct (la_pins_check_claim _ _ _ _ _ _ _) eqn:Ec; [done|]. cbn [fst].
  pose proof (inv_gpio_claim LA_GPIO_OUTPUT lv [la] [la] p ltac:(done) Ec I) as K. unfold la_pins_drive_mask in K. rewrite mask_of_one in K by done.
  apply K. intros x. rewrite elem_of_cons, elem_of_nil. naive_solver.
Qed.

Lemma inv_pull la on ok p p' : pull_set la on ok p = inl p' -> pins_inv p -> pins_inv p'.
Proof.
  unfold pull_set. intros H I. destruct (if on then _ else None) eqn:Ec; [done|]. injection H as <-. destruct ok; [|done]. destruct I as [Ht Hp].
  split; [done|]. intros x Hx. pose proof (Hp x Hx) as I. destruct on; cycle 1.
  { apply (pin_inv_same p); try done. intros [Hd Hin]. cbn [pulls] in Hin. apply list_elem_of_filter in Hin as [_ Hin]. by split. }
  destruct (decide (x = la)) as [->|Hne].
  - destruct I as [H1 H2 H3 H4 H5 H6]. split; try done. intros [Hd _]. cbn [s_pin]. unfold la_pins_check_pull_enable in Ec. rewrite Hx, bool_decide_eq_true_2 in Ec by done. cbn in Ec.
    rewrite gpio_at in Ec by done. by destruct (pull_down_reason _ _).
  - apply (pin_inv_same p); try done. intros [Hd Hin]. cbn [pulls] in Hin. split; [done|]. set_solver.
Qed.

(** The end of a train gives back what it claimed. *)
Definition finish_step (p : pins_t) : la_pins_t := if claimed_step (s_step p) && bool_decide (la_pins_fn (s_pin p) (st_la (s_step p)) = LA_FN_STEP) then la_pins_release (st_la (s_step p)) (s_pin p) else s_pin p.
Lemma finish_step_ok p : table_ok (s_pin p) -> table_ok (finish_step p).
Proof. unfold finish_step. case_match; [apply release_ok|done]. Qed.
Lemma finish_step_pin p la : table_ok (s_pin p) -> la_ok la = true -> pin_inv p la -> pin (finish_step p) la = if bool_decide (fn (pin (s_pin p) la) = LA_FN_STEP) then pin0 else pin (s_pin p) la.
Proof.
  intros Ht Hl I. unfold finish_step. destruct (_ && _) eqn:E.
  - apply andb_true_iff in E as [E1 E2%bool_decide_eq_true]. rewrite release_pin by done. destruct (Z.eqb_spec la (st_la (s_step p))) as [->|Hne].
    + rewrite fn_at in E2 by done. by rewrite bool_decide_eq_true_2.
    + rewrite bool_decide_eq_false_2; [done|]. intros (_ & _ & ?)%(pi_step _ _ I). done.
  - destruct (bool_decide_reflect (fn (pin (s_pin p) la) = LA_FN_STEP)) as [Hf|]; [|done]. exfalso. destruct (proj1 (pi_step _ _ I) Hf) as (_ & E1 & ->). rewrite E1, fn_at, bool_decide_eq_true_2 in E by done. done.
Qed.
Lemma step_finish_eq p : step_finish p =
  let q := upd (fun _ => finish_step p) p in let t := s_step p in
  {| (if claimed_dir t && bool_decide (la_pins_fn (finish_step p) (st_dir_la t) = LA_FN_STEP_DIR) then fpga_la_set (st_dir_la t) 2 (upd (la_pins_release (st_dir_la t)) q) else q) with s_step := {| t with st_active := false |} |}.
Proof. unfold step_finish, finish_step. destruct (claimed_step _ && _); destruct p; reflexivity. Qed.
Lemma inv_step_finish p : pins_inv p -> pins_inv (step_finish p).
Proof.
  intros [Ht Hp]. rewrite step_finish_eq. cbn zeta. pose proof (finish_step_ok p Ht) as Hf.
  assert (forall la, la_ok la = true -> la <> st_dir_la (s_step p) \/ fn (pin (s_pin p) la) <> LA_FN_STEP_DIR ->
    forall q, pin (s_pin q) la = pin (finish_step p) la -> latch (wire q) la = latch (wire p) la -> pulls q = pulls p -> st_active (s_step q) = false -> pin_inv q la) as K.
  { intros la Hl Hn q E1 E2 E3 E4. pose proof (Hp la Hl) as I. rewrite finish_step_pin in E1 by done.
    assert (~ step_pin (s_step q) la) as N1 by (intros (? & _); congruence). assert (~ dir_pin (s_step q) la) as N2 by (intros (? & _); congruence).
    assert (fn (pin (s_pin p) la) <> LA_FN_STEP_DIR) as Hd by (intros Hd; destruct (proj1 (pi_dir _ _ I) Hd) as (_ & _ & ->); tauto).
    case_bool_decide as Es.
    - apply pin_inv_free; try done. rewrite E2. apply (pi_rest _ _ I); congruence.
    - apply (pin_inv_same p); try done; [unfold pulled_down; by rewrite E3|split; [done|]..]; [intros ?%(pi_step _ _ I)|intros ?%(pi_dir _ _ I)]; done. }
  destruct (_ && _) eqn:E.
  - apply andb_true_iff in E as [E1 E2%bool_decide_eq_true]. assert (la_ok (st_dir_la (s_step p)) = true) as Hd by (unfold la_pins_fn in E2; by destruct (la_ok _)).
    split; [by apply release_ok|]. intros la Hl. destruct (decide (la = st_dir_la (s_step p))) as [->|Hne].
    + apply pin_inv_free; cbn [s_pin upd wire fpga_la_set s_step]; [|by rewrite latch_app, Z.eqb_refl|by intros (? & _)..]. rewrite release_pin by done. by rewrite Z.eqb_refl.
    + apply K; try done; [by left| |]; cbn [s_pin upd wire fpga_la_set]; [rewrite release_pin by done|rewrite latch_app]; case_match; [lia|done|lia|done].
  - split; [done|]. intros la Hl. apply K; try done. destruct (decide (la = st_dir_la (s_step p))) as [->|]; [|by left]. right. intros Hf'.
    pose proof (Hp _ Hl) as I. destruct (proj1 (pi_dir _ _ I) Hf') as (_ & Ec & _). rewrite Ec, fn_at, finish_step_pin in E by done.
    rewrite (bool_decide_eq_false_2 (fn _ = LA_FN_STEP)) in E by congruence. by rewrite bool_decide_eq_true_2 in E.
Qed.
Lemma inv_step_poll now busy p : pins_inv p -> pins_inv (la_step_poll now busy p).
Proof.
  intros I. unfold la_step_poll. destruct (_ || _) eqn:E; [done|]. destruct busy; [|by apply inv_step_finish].
  destruct I as [Ht Hp]. split; [done|]. intros la Hl. by apply (pin_inv_same p); [..|apply Hp].
Qed.

Lemma plan_pin_ok s la cap c : plan_pin s la cap = inl c -> la_ok la = true ->
  (c = true /\ fn (pin s la) = LA_FN_NONE) \/ (c = false /\ fn (pin s la) = LA_FN_GPIO /\ gpio (pin s la) = LA_GPIO_OUTPUT).
Proof.
  unfold plan_pin. intros H Hl. rewrite fn_at in H by done. destruct (decide (fn (pin s la) = LA_FN_NONE)) as [E|E].
  { rewrite E in H. injection H as <-. auto. }
  destruct (bool_decide_reflect (fn (pin s la) = LA_FN_GPIO)) as [Ef|Ef]; cycle 1.
  { destruct (fn (pin s la)); cbn in H; congruence. }
  rewrite Ef in H. cbn in H. destruct (bool_decide_reflect (la_pins_gpio s la = LA_GPIO_OUTPUT)) as [Eg|Eg]; [|done]. injection H as <-. right.
  destruct (gpio_fn s la) as (_ & _ & Eq); [by rewrite Eg|]. by rewrite <- Eq.
Qed.

(** The direction pin of a train that is already a GPIO output. *)
Lemma inv_dir_keep d lv p :
  la_ok d = true -> fn (pin (s_pin p) d) = LA_FN_GPIO -> gpio (pin (s_pin p) d) = LA_GPIO_OUTPUT -> pins_inv p ->
  forall m, m = la_pins_drive (la_pins_set_level d lv (s_pin p)) d -> pins_inv (fpga_la_set d m (upd (la_pins_set_level d lv) p)).
Proof.
  intros Hd Hf Hg [Ht Hp] m ->. pose proof (Hp d Hd) as I. split; [by apply set_level_ok|]. intros la Hl.
  assert (E := set_level_pin d lv (s_pin p) la Ht Hl). rewrite Hf, Hg in E. destruct (Z.eqb_spec la d) as [->|Hne].
  - destruct (not_step_of p d I (or_intror Hf)) as [N1 N2].
    apply (pin_inv_gpio _ _ LA_GPIO_OUTPUT (if lv =? 0 then 0 else 1)); try done; [case_match; auto|].
    cbn [fpga_la_set wire upd s_pin]. rewrite latch_app, Z.eqb_refl. rewrite drive_at by (try done; rewrite E; repeat split; try done; case_match; auto). by rewrite E.
  - apply (pin_inv_same p); try done; [|by apply Hp]. cbn [fpga_la_set wire upd]. rewrite latch_app. case_match; [lia|done].
Qed.

(** The pins of a train that started. *)
Definition train_claim (la d : Z) (cs cd : bool) (q : pins_t) : pins_t :=
  let q := if cs then upd (la_pins_claim LA_FN_STEP LA_GPIO_NONE 0 [la]) q else q in
  if cd then upd (la_pins_claim LA_FN_STEP_DIR LA_GPIO_NONE 0 [d]) q else q.
Lemma train_claim_rest la d cs cd q : wire (train_claim la d cs cd q) = wire q /\ pulls (train_claim la d cs cd q) = pulls q /\ s_step (train_claim la d cs cd q) = s_step q.
Proof. unfold train_claim. by destruct cs, cd. Qed.
Lemma train_claim_ok la d cs cd q : table_ok (s_pin q) -> table_ok (s_pin (train_claim la d cs cd q)).
Proof. unfold train_claim. intros H. destruct cs, cd; cbn [upd s_pin]; try done; repeat apply claim_ok; done. Qed.
Lemma train_claim_pin la d cs cd q x : table_ok (s_pin q) -> la_ok x = true -> la <> d ->
  pin (s_pin (train_claim la d cs cd q)) x =
    if cs && (x =? la) then Pin LA_FN_STEP LA_GPIO_NONE 0 else if cd && (x =? d) then Pin LA_FN_STEP_DIR LA_GPIO_NONE 0 else pin (s_pin q) x.
Proof.
  intros Ht Hx Hne. unfold train_claim.
  assert (forall y : Z, bool_decide (x ∈ [y]) = (x =? y)) as B by (intros y; destruct (Z.eqb_spec x y) as [->|]; [apply bool_decide_eq_true_2; set_solver|apply bool_decide_eq_false_2; set_solver]).
  destruct cs, cd; cbn [upd s_pin andb]; rewrite ?claim_pin by (try apply claim_ok; done); rewrite ?B; try done.
  destruct (Z.eqb_spec x d), (Z.eqb_spec x la); try done. lia.
Qed.

Lemma inv_train la d cs cd now q :
  table_ok (s_pin q) -> st_active (s_step q) = false -> la_ok la = true -> la <> d -> (cs = true -> fn (pin (s_pin q) la) = LA_FN_NONE) ->
  (cd = true -> la_ok d = true) -> (forall x, la_ok x = true -> cd = true /\ x = d \/ pin_inv q x) ->
  pins_inv {| (train_claim la d cs cd q) with s_step := StepT true la d cs cd now |}.
Proof.
  intros Ht Ha Hl Hne Hcs Hcd Hp. destruct (train_claim_rest la d cs cd q) as (W & P & _).
  split; [by apply train_claim_ok|]. intros x Hx. pose proof (train_claim_pin la d cs cd q x Ht Hx Hne) as E.
  destruct (cs && (x =? la)) eqn:E1; [|destruct (cd && (x =? d)) eqn:E2].
  - apply andb_true_iff in E1 as [-> ->%Z.eqb_eq]. destruct (Hp la Hl) as [[_ ?]|I]; [done|].
    split; cbn [s_pin s_step wire]; rewrite ?E, ?W; cbn; try done; try (split; auto; done).
    + intros _ _. destruct (pin_engine_latch q la LA_FN_NONE I) as [? _]; auto.
    + unfold dir_pin. cbn. naive_solver.
  - apply andb_true_iff in E2 as [-> ->%Z.eqb_eq].
    split; cbn [s_pin s_step wire]; rewrite ?E, ?W; cbn; try done; try (split; auto; done).
    + unfold step_pin. cbn. naive_solver.
  - destruct (Hp x Hx) as [[-> ->]|I]; [rewrite Z.eqb_refl in E2; done|].
    apply (pin_inv_same q); cbn [s_pin s_step wire]; try done; [by rewrite W|unfold pulled_down; cbn [pulls]; by rewrite P|..].
    + unfold step_pin. cbn. rewrite Ha. split; [intros (_ & -> & ->); rewrite Z.eqb_refl in E1; done|by intros [? _]].
    + unfold dir_pin. cbn. rewrite Ha. split; [intros (_ & -> & ->); rewrite Z.eqb_refl in E2; done|by intros [? _]].
Qed.

Lemma la_pins_drive_output s d lv : table_ok s -> la_ok d = true -> fn (pin s d) = LA_FN_GPIO -> gpio (pin s d) = LA_GPIO_OUTPUT ->
  la_pins_drive (la_pins_set_level d lv s) d = if lv =? 0 then 0 else 1.
Proof.
  intros Ht Hd Hf Hg. assert (E := set_level_pin d lv s d Ht Hd). rewrite Z.eqb_refl, Hf, Hg in E.
  rewrite drive_at by (try done; rewrite E; repeat split; try done; case_match; auto). rewrite E. cbn. by destruct (lv =? 0).
Qed.

Lemma inv_step_begin now busy busy' rc la steps delay_us d dir cap p :
  pins_inv p -> pins_inv (fst (fst (la_step_begin now busy busy' rc la steps delay_us d dir cap p))).
Proof.
  intros I. unfold la_step_begin. set (p1 := if _ : bool then step_finish p else p).
  assert (pins_inv p1) as I1 by (unfold p1; case_match; [by apply inv_step_finish|done]). clearbody p1. clear I p.
  unfold la_pins_plan_step. destruct (la_ok la) eqn:Hl; cbn [negb]; [|done]. destruct (negb (d =? 0) && negb (la_ok d)) eqn:Hd; [done|].
  destruct (Z.eqb_spec d la) as [|Hne]; [done|]. destruct (plan_pin (s_pin p1) la cap) as [cs|] eqn:Ec; [|done].
  apply plan_pin_ok in Ec; [|done].
  assert (cs = true -> fn (pin (s_pin p1) la) = LA_FN_NONE) as Hcs by (destruct Ec as [[_ ?]|[-> _]]; done).
  assert (d = 0 \/ la_ok d = true) as [->|Hdok] by (destruct (Z.eqb_spec d 0); cbn in Hd; [auto|right; by destruct (la_ok d)]).
  - change (0 =? 0) with true. cbn [negb andb claim_dir claim_step]. destruct (la_step_args_ok _ _ _); [done|]. destruct (st_active (s_step p1) || busy') eqn:Ha; [done|]. apply orb_false_iff in Ha as [Ha _].
    destruct (negb (rc =? 0)); [done|]. cbn [fst]. apply (inv_train la 0 cs false (now + STEP_BUSY_SETTLE_US) p1); try done; [by apply I1|]. intros x Hx. right. by apply I1.
  - assert (d <> 0) as Hd0 by (apply la_ok_range in Hdok; lia). rewrite (proj2 (Z.eqb_neq d 0) Hd0). cbn [negb andb].
    destruct (plan_pin (s_pin p1) d cap) as [cd|] eqn:Ed; [|done]. apply plan_pin_ok in Ed; [|done]. cbn [claim_dir claim_step].
    destruct (la_step_args_ok _ _ _); [done|]. destruct (st_active (s_step p1) || busy') eqn:Ha; [done|]. apply orb_false_iff in Ha as [Ha _].
    pose proof I1 as [Ht Hp]. destruct Ed as [[-> Hfree]|(-> & Hf & Hg)]; cbn [negb].
    + destruct (negb (rc =? 0)); cbn [fst].
      * split; [done|]. intros x Hx. cbn [fpga_la_set upd]. apply (pin_inv_same p1); try done; [|by apply Hp]. unfold fpga_la_set. cbn [wire]. rewrite !latch_app.
        destruct (Z.eqb_spec d x) as [<-|]; [|done]. symmetry. by apply (pin_engine_latch p1 d LA_FN_NONE); [apply Hp| |right].
      * apply (inv_train la d cs true (now + STEP_BUSY_SETTLE_US) (fpga_la_set d _ p1)); try done. intros x Hx. destruct (decide (x = d)); [by left|right].
        apply (pin_inv_same p1); try done; [|by apply Hp]. cbn [fpga_la_set wire]. rewrite latch_app. case_match; [lia|done].
    + set (v := if dir then 1 else 0).
      assert (v = la_pins_drive (la_pins_set_level d v (s_pin p1)) d) as Ev by (rewrite la_pins_drive_output by done; unfold v; by destruct dir).
      pose proof (inv_dir_keep d v p1 Hdok Hf Hg I1 v Ev) as Ik. assert (E := set_level_pin d v (s_pin p1) d Ht Hdok). rewrite Z.eqb_refl in E.
      destruct (negb (rc =? 0)); cbn [fst].
      * eapply (inv_dir_keep d _ (fpga_la_set d v (upd (la_pins_set_level d v) p1))); try done; cbn [fpga_la_set upd s_pin]; by rewrite E.
      * apply (inv_train la d cs false (now + STEP_BUSY_SETTLE_US) (fpga_la_set d v (upd (la_pins_set_level d v) p1))); try done; [by apply Ik| |].
        -- intros Hc. cbn [fpga_la_set upd s_pin]. rewrite set_level_pin by done. destruct (Z.eqb_spec la d); [congruence|by apply Hcs].
        -- intros x Hx. right. by apply Ik.
Qed.

Lemma inv_reconfigured p : pins_inv p -> pins_inv (la_pins_on_gateware_reconfigured {| p with wire := [] |}).
Proof.
  intros [Ht Hp]. set (s := fst (la_pins_release_fn LA_FN_STEP_DIR (fst (la_pins_release_fn LA_FN_STEP (s_pin p))))).
  assert (table_ok s) as Hs by (unfold s; by do 2 apply release_fn_ok).
  set (q := PinsT (s_pin p) (let t := s_step p in {| t with st_active := false |}) (pulls p) []).
  change (pins_inv (la_pins_drive_mask (la_pins_mask_fn s LA_FN_GPIO) (upd (fun _ => s) q))).
  assert (forall la, la_ok la = true -> pin s la = if bool_decide (fn (pin (s_pin p) la) = LA_FN_STEP \/ fn (pin (s_pin p) la) = LA_FN_STEP_DIR) then pin0 else pin (s_pin p) la) as E.
  { intros la Hl. unfold s. rewrite release_fn_pin by (try apply release_fn_ok; done). rewrite release_fn_fn, release_fn_pin by done.
    rewrite !andb_true_r. repeat case_bool_decide; try done; try tauto; try congruence. }
  apply inv_driven; [done| |].
  - intros la Hl [_ Hin]%in_mask_fn. right. cbn [upd s_pin] in Hin. pose proof (Hp la Hl) as [[T1 T2] H2 _ _ _ _]. rewrite E in Hin |- * by done.
    destruct (bool_decide _) eqn:B; [done|]. exists (gpio (pin (s_pin p) la)), (level (pin (s_pin p) la)). split_and!; try done.
    + rewrite <- Hin. by destruct (pin (s_pin p) la).
    + intros ?%T2. done.
    + rewrite <- Hin. exact H2.
    + by intros (? & _).
    + by intros (? & _).
  - intros la Hl Hn. pose proof (Hp la Hl) as [[T1 T2] H2 _ _ _ _].
    assert (fn (pin s la) <> LA_FN_GPIO) as Hg by (intros Hg; apply Hn; apply in_mask_fn; by split). rewrite E in Hg by done.
    specialize (E la Hl). destruct (bool_decide_reflect (fn (pin (s_pin p) la) = LA_FN_STEP \/ fn (pin (s_pin p) la) = LA_FN_STEP_DIR)) as [B|B].
    + apply pin_inv_free; [done|done|by intros (? & _)..].
    + split; cbn [upd s_pin s_step wire q]; rewrite ?E; [done|exact H2|done|done|..]; split; try (by intros (? & _)); intros ?; exfalso; auto.
Qed.

Lemma inv_do op p : op_ok op -> pins_inv p -> pins_inv (pins_do op p).
Proof.
  intros Ho I. destruct op; cbn [pins_do op_ok] in *.
  - destruct (gpio_write req p) eqn:E; [by eapply inv_gpio_write|done].
  - by apply inv_dig.
  - destruct (pull_set la on ok p) eqn:E; [by eapply inv_pull|done].
  - by apply inv_step_begin.
  - by apply inv_step_poll.
  - by apply inv_reconfigured.
  - destruct (sensor_start sda scl started p) eqn:E; [by eapply inv_sensor_start|done].
  - unfold sensor_poll. case_match; [by apply inv_i2c_release|done].
  - destruct (la_claim_or_error f las free_fns p) eqn:E; [done|]. destruct Ho. by eapply inv_claim.
  - by apply inv_engine_release.
Qed.

(** ** From the reset, whatever the commands *)

Definition pins_run (ops : list pins_op) : pins_t := fold_left (fun p op => pins_do op p) ops pins_boot.

Lemma inv_boot : pins_inv pins_boot.
Proof.
  split; [reflexivity|]. intros la Hl. apply pin_inv_free; try done; try (by intros (? & _)). unfold pin. cbn [pins_boot s_pin].
  rewrite nth_lookup. unfold la_pins_reset. destruct (replicate 15 pin0 !! Z.to_nat la) eqn:E; [|done]. by apply lookup_replicate in E as [-> _].
Qed.
Lemma inv_run ops : Forall op_ok ops -> pins_inv (pins_run ops).
Proof.
  intros H. unfold pins_run. generalize inv_boot. generalize pins_boot. induction H as [|op ops Ho _ IH]; cbn [fold_left]; [done|]. intros p I. apply IH. by apply inv_do.
Qed.


(** C35: no pin is ever left with an engaged pull-down under a function that cannot live with it,
    whichever of the two came first and whatever released or replaced the function between. *)
Theorem pull_down_compatible ops la :
  Forall op_ok ops -> 1 <= la <= 14 ->
  let p := pins_run ops in
  la_pull_dir la = LA_PULL_DOWN -> la ∈ pulls p -> pull_down_reason (la_pins_fn (s_pin p) la) (la_pins_gpio (s_pin p) la) = None.
Proof.
  cbn zeta. intros H Hl%la_ok_range Hd Hin. destruct (inv_run ops H) as [_ Hp]. pose proof (Hp la Hl) as I.
  rewrite fn_at, gpio_at by (try done; apply I). by apply (pi_pull _ _ I).
Qed.

(** C36: the table stays well-typed: fourteen pins, a GPIO mode exactly on the pins whose function
    is gpio, a level of 0 or 1; and the step functions are on exactly the pins the running
    train claimed, so a train that ends, fails or is wiped out leaves none behind. *)
Theorem pins_typed ops :
  Forall op_ok ops ->
  let p := pins_run ops in
  length (s_pin p) = 15%nat /\
  forall la, 1 <= la <= 14 ->
    (la_pins_gpio (s_pin p) la = LA_GPIO_NONE <-> la_pins_fn (s_pin p) la <> LA_FN_GPIO) /\
    (level (pin (s_pin p) la) = 0 \/ level (pin (s_pin p) la) = 1) /\
    (la_pins_fn (s_pin p) la = LA_FN_STEP <-> step_pin (s_step p) la) /\
    (la_pins_fn (s_pin p) la = LA_FN_STEP_DIR <-> dir_pin (s_step p) la).
Proof.
  cbn zeta. intros H. destruct (inv_run ops H) as [Ht Hp]. split; [exact Ht|]. intros la Hl%la_ok_range. pose proof (Hp la Hl) as [[T1 T2] _ _ _ H5 H6].
  rewrite fn_at, gpio_at by (try done; by split). by split_and!.
Qed.

(** A sensor on LA1/LA2, an open-drain output on LA3, LA7 as an output under its pull-down, a train
    on LA4 with its direction on LA5, and a UART that is refused on LA7. *)
Module Bench.
Definition gpio_req (l : list Z) (m : la_gpio_mode_t) (lv : Z) : la_gpio_req_t := GpioReq l false true m true lv.
Definition ops : list pins_op :=
  [OSensor 1 2 true; OGpio (gpio_req [3] LA_GPIO_OPEN_DRAIN 0); OPull 7 true true; OGpio (gpio_req [7] LA_GPIO_OUTPUT 1);
   OStep 0 false false 0 4 100 50 5 true; OClaim LA_FN_UART_RX [7] []].
Lemma ops_ok : Forall op_ok ops.
Proof. repeat constructor. Qed.
Lemma pull_witness : 7 ∈ pulls (pins_run ops) /\ pull_down_reason (la_pins_fn (s_pin (pins_run ops)) 7) (la_pins_gpio (s_pin (pins_run ops)) 7) = None.
Proof.
  assert (7 ∈ pulls (pins_run ops)) as H by (vm_compute; left).
  split; [exact H|exact (pull_down_compatible ops 7 ops_ok ltac:(lia) eq_refl H)].
Defined.
Lemma typed_witness : la_pins_mask_fn (s_pin (pins_run ops)) LA_FN_STEP = [4] /\ length (s_pin (pins_run ops)) = 15%nat.
Proof. split; [reflexivity|exact (proj1 (pins_typed ops ops_ok))]. Defined.
End Bench.
