(* ===== verification/Capture.v ===== *)
(** * The paced read-back of a capture ([command_handler_capture.c], the bulk sender)

    A reply is a sequence of frames, each one line of JSON, sent as the connection takes them.
    [bulk_step] is one round of [bulk_pump]'s loop against one answer of the world: the tick,
    the free space of the connection, the room when the frame is queued and what the PSRAM
    reads give. A pass of the pump is a list of answers; what is sent, and every effect on the
    fabric and the gate, is the trace [s_tx]. *)

From S2P Require Import Prelude Json B64 CmdGate LaPins PsramRegions.

Abbreviation CHUNK_SAMPLES := 256.
Abbreviation CHUNK_BUF := 1840.
Abbreviation BULK_STALL_MS := 30000.
Abbreviation BULK_B64_HEADER_MAX := 96.
Abbreviation EDGE_MAX := 24.

(** ** Frames *)

(** What the first frame of a reply says before its body; 0 omits a number. *)
Record meta_t := Meta { m_bits16 : bool; m_adc_hz : Z; m_la_hz : Z; m_pre : Z; m_trunc : Z }.
Inductive body_t := BData (l : list Z) | BB64 (t : cstr) | BEdges (es : list (Z * Z)) (upto : Z).
Record frame := Frame { f_meta : option meta_t; f_body : body_t; f_trig : option (la_trigger_t * bool); f_more : bool }.

Definition field_z (key : string) (v : Z) : cstr := if v =? 0 then [] else q key ++ dec v ++ [COMMA].
Definition render_meta (m : meta_t) : cstr :=
  (if m_bits16 m then q "|bits|:16," else []) ++ field_z "|adc_rate_hz|:" (m_adc_hz m) ++ field_z "|la_rate_hz|:" (m_la_hz m) ++
  field_z "|pre_samples|:" (m_pre m) ++
  (if m_trunc m =? 0 then [] else q "|truncated|:|" ++ (if m_trunc m =? 1 then str "busy" else str "memory") ++ q "|,").
Definition render_head (m : option meta_t) : cstr :=
  match m with Some m => q "{|status|:|ok|," ++ render_meta m | None => q "{|status|:|chunk|," end.
Definition render_open (b : body_t) : cstr :=
  match b with BData _ => q "|data|:[" | BB64 _ => q "|b64|:|" | BEdges _ _ => q "|la|:true,|la_edges|:[" end.
Fixpoint render_list (l : list Z) : cstr := match l with [] => [] | [v] => dec v | v :: l => dec v ++ COMMA :: render_list l end.
Definition render_edge (first : bool) (e : Z * Z) : cstr := (if first then [] else [COMMA]) ++ LBRACK :: dec (fst e) ++ COMMA :: dec (snd e) ++ [RBRACK].
Fixpoint render_edges (first : bool) (es : list (Z * Z)) : cstr := match es with [] => [] | e :: es => render_edge first e ++ render_edges false es end.
Definition render_body (b : body_t) : cstr :=
  match b with BData l => render_list l ++ [RBRACK] | BB64 t => t ++ [QUOTE] | BEdges es upto => render_edges true es ++ q "],|la_upto|:" ++ dec upto end.
Definition bulk_emit_trigger (t : option (la_trigger_t * bool)) : cstr :=
  match t with
  | None => []
  | Some (t, fired) => q ",|trigger|:{|la|:" ++ dec (tr_la t) ++ q ",|edge|:|" ++ la_edge_name (tr_edge t) ++ q "|,|fired|:" ++ (if fired then str "true" else str "false") ++ [RBRACE]
  end.
Definition render (f : frame) : cstr :=
  render_head (f_meta f) ++ render_open (f_body f) ++ render_body (f_body f) ++ bulk_emit_trigger (f_trig f) ++ q ",|more|:" ++ (if f_more f then str "true" else str "false") ++ q "}" ++ [10].

(** ** State *)

Record bulk_t := Bulk {
  active : bool; conn_id : Z; total : Z; sent : Z; is16 : bool; from_psram : bool; adc_samples : Z; adc_rate_hz : Z; la_rate_hz : Z; la_last : Z;
  trig_present : bool; trig : la_trigger_t; trig_fired : bool; b64 : bool; progress_ms : Z;
  chg : bool; chg_hdr : bool; chg_first : bool; chg_done : bool; chg_k : Z; chg_off : Z; chg_end : Z; chg_buf : list Z; chg_t : Z; chg_base : Z; chg_pre : Z; chg_trunc : Z;
  chg_pend_i : Z; chg_pend_w : Z }.
Definition bulk0 : bulk_t :=
  Bulk false 0 0 0 false false 0 0 0 0 false no_trigger false false 0 false false false false 0 0 0 [] 0 0 0 0 0 0.

Record v2cap_t := V2cap { v2_active : bool; v2_conn : Z; v2_samples : Z; v2_stop_dac : bool; v2_b64 : bool }.
Record lacap_t := Lacap { lc_active : bool; lc_conn : Z; lc_bytes : Z; lc_stop_dac : bool; lc_rate_hz : Z; lc_chg_k : Z; lc_pre : Z }.
Record chgscan_t := Chgscan {
  sc_active : bool; sc_conn : Z; sc_samples : Z; sc_k : Z; sc_pre : Z; sc_la_hz : Z; sc_off : Z; sc_region : Z; sc_t : Z; sc_first : bool; sc_ended : bool; sc_cause : Z;
  sc_adc_n : Z; sc_adc_hz : Z; sc_b64 : bool }.
(** The rates are the achieved ones, rounded to whole Hz as [capture_poll] reports them. *)
Record dualcap_t := Dualcap {
  dc_active : bool; dc_conn : Z; dc_adc_samples : Z; dc_la_samples : Z; dc_adc_rate_hz : Z; dc_la_rate_hz : Z; dc_stop_dac : bool; dc_b64 : bool; dc_chg_k : Z }.
Record last_cap_t := LastCap { lp_valid : bool; lp_adc_samples : Z; lp_la_samples : Z; lp_adc_rate_hz : Z; lp_la_rate_hz : Z }.
Record trigwait_t := Trigwait { tw_active : bool; tw_conn : Z; tw_t : la_trigger_t; tw_deadline : Z; tw_next_check : Z; tw_fired : bool }.
Record trig_reply_t := TrigReply { rp_present : bool; rp_t : la_trigger_t; rp_fired : bool }.

Inductive effect :=
| EFrame (conn : Z) (f : frame) | EText (conn : Z) (t : cstr) | EError (conn : Z) (msg : cstr) | EClose (conn : Z)
| EAbort | EDacStop | ESetTrigger (la edge : Z) (pre : bool) | EExtend (ms : Z) | EDacStopAfter (us : Z) | EWedge.

(** [heavy_owner] is the gate of [command_handler.c]; [bus] counts the holds this file has open on
    the shared bus; [s_pool], [s_scratch] are [adc_buf16] and [adc_cmd_buf]. *)
Record cap_t := Cap {
  s_v2 : v2cap_t; s_lac : lacap_t; s_scan : chgscan_t; s_dual : dualcap_t; s_last : last_cap_t; s_bulk : bulk_t; s_wait : trigwait_t; s_trig : trig_reply_t;
  heavy_owner : Z; bus : Z; s_pool : list Z; s_scratch : list Z; s_regions : regions_t; s_la_cap_base : Z; s_adc_cap_base : Z; s_tx : list effect }.

Definition put (e : effect) (c : cap_t) : cap_t := {| c with s_tx := s_tx c ++ [e] |}.
Definition release (conn : Z) (c : cap_t) : cap_t := {| c with heavy_owner := heavy_release (heavy_owner c) conn |}.
Definition set_bulk (b : bulk_t) (c : cap_t) : cap_t := {| c with s_bulk := b |}.
Definition set_bulk_active (v : bool) (c : cap_t) : cap_t := let b := s_bulk c in {| c with s_bulk := {| b with active := v |} |}.
Definition set_trig_present (v : bool) (c : cap_t) : cap_t := let t := s_trig c in {| c with s_trig := {| t with rp_present := v |} |}.
Definition psram_bus_acquire (c : cap_t) : cap_t := {| c with bus := bus c + 1 |}.
Definition fpga_capture_psram_release (c : cap_t) : cap_t := {| c with bus := bus c - 1 |}.
Definition fpga_la_psram_release (c : cap_t) : cap_t := fpga_capture_psram_release c.
Definition send_error (conn : Z) (msg : cstr) (c : cap_t) : cap_t := put (EError conn msg) c.

(** ** Reads *)

(** [psram_read]: the bytes at an address, [None] when the transfer fails. *)
Abbreviation read_t := (Z -> nat -> option (list Z)).
Definition fpga_la_psram_read (rd : read_t) (c : cap_t) (off : Z) (n : nat) : option (list Z) := rd (u32 (s_la_cap_base c + off)) n.
Fixpoint words (bs : list Z) : list Z := match bs with lo :: hi :: bs => lo + 256 * hi :: words bs | _ => [] end.
Definition fpga_capture_psram_read16 (rd : read_t) (c : cap_t) (sample_index : Z) (n : nat) (adc_n : Z) : option (list Z) :=
  let addr := if sample_index <? adc_n then u32 (s_adc_cap_base c + sample_index * 2) else u32 (s_la_cap_base c + (sample_index - adc_n) * 2) in
  option_map words (rd addr (2 * n)%nat).

(** ** Starting a read-back *)

Definition bulk_take_trigger (c : cap_t) : cap_t :=
  let b := s_bulk c in let t := s_trig c in
  set_trig_present false (set_bulk {| b with trig_present := rp_present t; trig := rp_t t; trig_fired := rp_fired t |} c).

Definition bulk_begin (now conn : Z) (n : Z) (w16 : bool) (c : cap_t) : cap_t :=
  let b := s_bulk c in
  bulk_take_trigger (set_bulk {| b with active := true; progress_ms := now; conn_id := conn; total := n; sent := 0; is16 := w16; from_psram := false;
    adc_samples := 0; adc_rate_hz := 0; la_rate_hz := 0; b64 := false; chg := false |} c).
Definition bulk_begin_capture16 (now conn : Z) (adc_n la_n : Z) (c : cap_t) : cap_t :=
  let b := s_bulk c in
  bulk_take_trigger (set_bulk {| b with active := true; progress_ms := now; conn_id := conn; total := adc_n + la_n; sent := 0; is16 := true; from_psram := true;
    adc_samples := adc_n; adc_rate_hz := 0; la_rate_hz := 0; la_last := -1; b64 := false; chg := false |} c).
Definition bulk_begin_capture16_resume (now conn : Z) (offset : Z) (c : cap_t) : cap_t :=
  let b := s_bulk c in let l := s_last c in
  set_bulk {| b with active := true; progress_ms := now; conn_id := conn; total := lp_adc_samples l + lp_la_samples l; sent := offset; is16 := true; from_psram := true;
    adc_samples := lp_adc_samples l; adc_rate_hz := lp_adc_rate_hz l; la_rate_hz := lp_la_rate_hz l; la_last := -1; trig_present := false; b64 := false; chg := false |} c.
Definition bulk_begin_la_changes (now conn : Z) (adc_n samples k region base pre trunc : Z) (c : cap_t) : cap_t :=
  let c := bulk_begin_capture16 now conn adc_n samples c in
  let b := s_bulk c in
  set_bulk {| b with chg := true; chg_hdr := 0 <? adc_n; chg_first := true; chg_done := false; chg_k := k; chg_off := 0; chg_end := region; chg_buf := []; chg_t := 0;
    chg_base := base; chg_pre := pre; chg_trunc := trunc; chg_pend_i := -1 |} c.

Definition bulk_footer_reserve (b : bulk_t) : Z := if trig_present b then 112 else 64.
Definition reply_trig (b : bulk_t) (last : bool) : option (la_trigger_t * bool) := if last && trig_present b then Some (trig b, trig_fired b) else None.

(** ** One round of the pump *)

Record ans_t := Ans { a_tick : Z; a_avail : Z; a_room : Z; a_read : read_t }.

(** The ends: everything sent, a read that failed, a connection that died or stalled. *)
Definition bulk_done (c : cap_t) : cap_t :=
  let b := s_bulk c in
  let c := set_bulk_active false c in
  let c := if from_psram b then fpga_capture_psram_release c else c in
  release (conn_id b) c.
Definition bulk_read_failed (msg : cstr) (c : cap_t) : cap_t :=
  let b := s_bulk c in
  release (conn_id b) (send_error (conn_id b) msg (fpga_capture_psram_release (set_bulk_active false c))).
Definition bulk_drop (c : cap_t) : cap_t := put (EClose (conn_id (s_bulk c))) (bulk_done c).

(** [at_send_data]: the frame is queued whole or not at all. *)
Definition queue_frame (a : ans_t) (f : frame) (c : cap_t) : option cap_t :=
  if Z.of_nat (length (render f)) <=? a_room a then Some (put (EFrame (conn_id (s_bulk c)) f) c) else None.

(** *** Change events *)

Definition le24 (b : list Z) : Z := nth 0 b 0 + 256 * nth 1 b 0 + 65536 * nth 2 b 0.
(** [snprintf] of one edge: the list, its length and the carry. *)
Definition chg_emit (i w : Z) (b : bulk_t) (es : list (Z * Z)) (pos : Z) : bulk_t * list (Z * Z) * Z :=
  let edge := render_edge (match es with [] => true | _ => false end) (i, w) in
  ({| b with la_last := w |}, es ++ [(i, w)], pos + Z.of_nat (length edge)).
Definition chg_flush (b : bulk_t) (es : list (Z * Z)) (pos : Z) : bulk_t * list (Z * Z) * Z :=
  if negb (la_last b =? chg_pend_w b) || (la_last b <? 0) then chg_emit (chg_pend_i b) (chg_pend_w b) b es pos else (b, es, pos).

(** The event at the head of the buffer; [true] leaves the loop. *)
Definition chg_event (la_total : Z) (b : bulk_t) (es : list (Z * Z)) (pos : Z) : bulk_t * list (Z * Z) * Z * bool :=
  let e := le24 (chg_buf b) in
  let d := Z.shiftr e 14 in let w := Z.land e 0x3FFF in
  let b := {| b with chg_buf := drop 3 (chg_buf b); chg_off := chg_off b + 3 |} in
  if negb (chg_first b) && (d =? 0) then ({| b with chg_done := true |}, es, pos, true)
  else
    let b := {| b with chg_first := false; chg_t := if chg_first b then chg_t b else chg_t b + d |} in
    let idx := if chg_t b <=? chg_base b then 0 else (chg_t b - chg_base b + chg_k b - 1) / chg_k b in
    if la_total <=? idx then ({| b with chg_done := true |}, es, pos, true)
    else
      let '(b, es, pos) :=
        if (0 <=? chg_pend_i b) && negb (chg_pend_i b =? idx) then
          let '(b, es, pos) := chg_flush b es pos in ({| b with sent := adc_samples b + idx |}, es, pos)
        else (b, es, pos) in
      ({| b with chg_pend_i := idx; chg_pend_w := w |}, es, pos, false).

(** The loop of [bulk_pump_changes]: [reads] are left (8 a frame); [None] is a read that failed. *)
Fixpoint chg_loop (fuel : nat) (rd : Z -> nat -> option (list Z)) (limit la_total : Z) (b : bulk_t) (es : list (Z * Z)) (pos : Z) (reads : nat)
  : option (bulk_t * list (Z * Z) * Z) :=
  match fuel with
  | O => Some (b, es, pos)
  | S fuel =>
      if chg_done b || (limit <? pos + EDGE_MAX) then Some (b, es, pos)
      else
        let go (b : bulk_t) (reads : nat) :=
          let '(b, es, pos, stop) := chg_event la_total b es pos in
          if stop then Some (b, es, pos) else chg_loop fuel rd limit la_total b es pos reads in
        match chg_buf b with
        | _ :: _ => go b reads
        | [] =>
            match reads with
            | O => Some (b, es, pos)
            | S reads =>
                let left := chg_end b - chg_off b in
                if left <? 3 then Some ({| b with chg_done := true |}, es, pos)
                else
                  let n := Z.min left 255 - Z.min left 255 mod 3 in
                  match rd (chg_off b) (Z.to_nat n) with
                  | None => None
                  | Some bs => go {| b with chg_buf := bs |} reads
                  end
            end
        end
  end.
Abbreviation CHG_FUEL := 800%nat.

Definition chg_meta (b : bulk_t) : option meta_t := if chg_hdr b then None else Some (Meta true 0 (la_rate_hz b) (chg_pre b) (chg_trunc b)).
Definition edge_limit (b : bulk_t) (avail : Z) : Z := Z.min avail CHUNK_BUF - (56 + (if trig_present b then 48 else 0)).

(** [true] when the pump goes on. *)
Definition bulk_pump_changes (a : ans_t) (c : cap_t) : cap_t * bool :=
  let b := s_bulk c in
  let la_total := total b - adc_samples b in
  let pos := Z.of_nat (length (render_head (chg_meta b) ++ render_open (BEdges [] 0))) in
  let limit := edge_limit b (a_avail a) - 24 in
  match chg_loop CHG_FUEL (fpga_la_psram_read (a_read a) c) limit la_total b [] pos 8 with
  | None => (bulk_read_failed (str "capture read-back failed") c, false)
  | Some (b', es, pos) =>
      let '(b', es) :=
        if chg_done b' then
          let '(b', es, _) := if 0 <=? chg_pend_i b' then chg_flush b' es pos else (b', es, pos) in
          ({| b' with chg_pend_i := -1; sent := total b' |}, es)
        else (b', es) in
      let last := chg_done b' in
      let f := Frame (chg_meta b) (BEdges es (sent b' - adc_samples b')) (reply_trig b' last) (negb last) in
      let c := set_bulk b' c in
      match queue_frame a f c with
      | None => (bulk_drop c, false)
      | Some c => (set_bulk {| b' with chg_hdr := true |} c, true)
      end
  end.

(** *** Raw LA words, as transitions *)

(** The samples of a chunk that fit: the edges, the carry and how many are covered. *)
Fixpoint la_edges_loop (limit pos : Z) (first : bool) (i last : Z) (ws : list Z) : list (Z * Z) * Z * Z :=
  match ws with
  | [] => ([], last, 0)
  | w :: ws =>
      if (last <? 0) || negb (last =? w) then
        if limit <? pos + EDGE_MAX then ([], last, 0)
        else
          let '(es, last, n) := la_edges_loop limit (pos + Z.of_nat (length (render_edge first (i, w)))) false (i + 1) w ws in
          ((i, w) :: es, last, n + 1)
      else let '(es, last, n) := la_edges_loop limit pos first (i + 1) last ws in (es, last, n + 1)
  end.
Definition first_meta (b : bulk_t) : option meta_t := if sent b =? 0 then Some (Meta (is16 b) (adc_rate_hz b) (la_rate_hz b) 0 0) else None.
Definition bulk_pump_la (a : ans_t) (c : cap_t) : cap_t * bool :=
  let b := s_bulk c in
  let to_read := Z.min (total b - sent b) CHUNK_SAMPLES in
  match fpga_capture_psram_read16 (a_read a) c (sent b) (Z.to_nat to_read) (adc_samples b) with
  | None => (bulk_read_failed (str "capture read-back failed") c, false)
  | Some ws =>
      let la_base := sent b - adc_samples b in
      let pos := Z.of_nat (length (render_head (first_meta b) ++ render_open (BEdges [] 0))) in
      let '(es, last_w, covered) := la_edges_loop (edge_limit b (a_avail a)) pos true la_base (la_last b) ws in
      let last := total b <=? sent b + covered in
      let f := Frame (first_meta b) (BEdges es (la_base + covered)) (reply_trig b last) (negb last) in
      let c := set_bulk {| b with la_last := last_w |} c in
      match queue_frame a f c with
      | None => (bulk_drop c, false)
      | Some c => (set_bulk {| b with la_last := last_w; sent := sent b + covered |} c, true)
      end
  end.

(** *** Dense samples *)

Definition dense_b64 (b : bulk_t) : bool := b64 b && is16 b.
(** The samples that fit, or [None] to wait for the next poll. *)
Definition dense_room (b : bulk_t) (avail : Z) : option Z :=
  let reserve := bulk_footer_reserve b in
  let room := if dense_b64 b then (if avail <=? reserve + BULK_B64_HEADER_MAX + 8 then 0 else (avail - reserve - BULK_B64_HEADER_MAX) * 3 / 8)
              else (if avail <=? reserve + 7 then 0 else (avail - reserve) / 7) in
  if room =? 0 then None else Some room.
Definition this_chunk (b : bulk_t) (room : Z) : Z :=
  let n := Z.min (Z.min (total b - sent b) CHUNK_SAMPLES) room in
  if from_psram b && is16 b && (sent b <? adc_samples b) && (adc_samples b <? sent b + n) then adc_samples b - sent b else n.
Definition dense_read (a : ans_t) (c : cap_t) (n : Z) : option (list Z) :=
  let b := s_bulk c in
  if from_psram b then
    if is16 b then fpga_capture_psram_read16 (a_read a) c (sent b) (Z.to_nat n) (adc_samples b) else fpga_la_psram_read (a_read a) c (sent b) (Z.to_nat n)
  else Some (sub (Z.to_nat (sent b)) (Z.to_nat n) (if is16 b then s_pool c else s_scratch c)).
Definition dense_body (b : bulk_t) (l : list Z) : body_t := if dense_b64 b then BB64 (encode_loop (flat_map (le 2) l)) else BData l.
Definition bulk_pump_dense (a : ans_t) (c : cap_t) : cap_t * bool :=
  let b := s_bulk c in
  match dense_room b (a_avail a) with
  | None => (c, false)
  | Some room =>
      let n := this_chunk b room in
      let last := total b <=? sent b + n in
      match dense_read a c n with
      | None => (bulk_read_failed (if is16 b then str "capture read-back failed" else str "la read-back failed") c, false)
      | Some l =>
          let f := Frame (first_meta b) (dense_body b l) (reply_trig b last) (negb last) in
          match queue_frame a f c with
          | None => (bulk_drop c, false)
          | Some c => (set_bulk {| b with sent := sent b + n |} c, true)
          end
      end
  end.

Definition set_progress (now : Z) (c : cap_t) : cap_t := let b := s_bulk c in set_bulk {| b with progress_ms := now |} c.
Definition bulk_step (a : ans_t) (c : cap_t) : cap_t * bool :=
  let b := s_bulk c in
  if a_avail a <? 96 then (if BULK_STALL_MS <? u32 (a_tick a - progress_ms b) then (bulk_drop c, false) else (c, false))
  else
    let c := set_progress (a_tick a) c in
    if chg b && (adc_samples b <=? sent b) then (if a_avail a <? 200 then (c, false) else bulk_pump_changes a c)
    else if is16 b && from_psram b && (adc_samples b <=? sent b) then (if a_avail a <? 200 then (c, false) else bulk_pump_la a c)
    else bulk_pump_dense a c.

Fixpoint bulk_pump_loop (l : list ans_t) (c : cap_t) : cap_t :=
  if total (s_bulk c) <=? sent (s_bulk c) then bulk_done c
  else match l with
       | [] => c
       | a :: l => let '(c, go) := bulk_step a c in if go then bulk_pump_loop l c else c
       end.
Definition bulk_pump (l : list ans_t) (c : cap_t) : cap_t := if active (s_bulk c) then bulk_pump_loop l c else c.
