(* ===== verification/CaptureRun.v ===== *)
(** * Captures: triggers, the change-stream scan, the poll and the commands
    ([command_handler_capture.c])

    What the fabric, the signal engine and the clock answer comes with each step: [poll_t] for
    one pass of [capture_poll], [arm_t] for one command. Times are microseconds but for
    [p_tick], the millisecond tick. *)

From S2P Require Import Prelude Json CmdGate LaPins PsramRegions Psram Capture.

Abbreviation TRIGWAIT_POLL_US := 5000.
Abbreviation ADC_MONO_BUF_SAMPLES := 32768.
Abbreviation SIGNAL_BUF_SIZE := 4096.
Abbreviation SIGNAL_MAX_SAMPLES := 2048.
Abbreviation CAPTURE_TRIGGER_MIN_GW := 35.
Abbreviation LA_CHANGE_MIN_GW := 50.
Abbreviation CAPTURE_BASES_MIN_GW := 22.
Abbreviation DAC_CAPTURE_STOP_MIN_GW := 21.
Abbreviation DAC_MAX_RATE_HZ := 889000.
Abbreviation LA_CHANGE_UNIT_TICKS := 256.
Abbreviation FPGA_PSRAM_TOTAL := 0x800000.
Abbreviation FPGA_PSRAM_ADC_BASE := 0x400000.

(** ** The trigger *)

(** One command's answers. [am_other]: an update or a C3 flash is in flight; [am_start]: the
    start function's code; [am_dirty]: the PSRAM ranges it declared dirty before it ran;
    [am_trig_ok]: SET_TRIGGER went through; [am_la_hz], [am_adc_hz]: the achieved rates and
    [am_req_la_hz], [am_req_adc_hz] the requested ones, rounded. *)
Record arm_t := Arm {
  am_us : Z; am_tick : Z; am_ver : Z; am_la_voltage : bool; am_other : bool; am_trig_ok : bool; am_start : Z; am_dirty : list (Z * Z); am_chg_k : Z; am_chg_k_pre : Z;
  am_la_hz : Z; am_adc_hz : Z; am_req_la_hz : Z; am_req_adc_hz : Z; am_dac_bytes : Z; am_la_max : Z; am_la_max_dual : Z; am_adc_max : Z;
  am_bases_ok : bool; am_sensor : option (list Z); am_sine : Z -> Z }.

(** [fpga_set_trigger(0, 0)]. *)
Definition trigger_off (c : cap_t) : cap_t := put (ESetTrigger 0 0 false) c.

Definition needs_gw (what : string) (min ver : Z) : cstr :=
  snprintf_cut 320 (str what ++ str " gateware v" ++ dec min ++ str " or newer (this pod runs v" ++ dec ver ++ str ")").

(** [None]: the error was sent. *)
Definition capture_trigger_begin (m : arm_t) (conn : Z) (json : cstr) (allow_pre : bool) (c : cap_t) : cap_t * option la_trigger_t :=
  let c := set_trig_present false c in
  match la_trigger_parse json 320 with
  | inr e => (send_error conn e c, None)
  | inl t =>
      if negb (tr_present t) then (c, Some t)
      else if am_ver m <? CAPTURE_TRIGGER_MIN_GW then (send_error conn (needs_gw "capture triggers need" CAPTURE_TRIGGER_MIN_GW (am_ver m)) c, None)
      else if (0 <? tr_pre_samples t) && negb allow_pre then (send_error conn (str "trigger pre_samples is only for la_capture") c, None)
      else if (0 <? tr_pre_samples t) && (am_ver m <? LA_CHANGE_MIN_GW) then (send_error conn (needs_gw "trigger pre_samples needs" LA_CHANGE_MIN_GW (am_ver m)) c, None)
      else if negb (am_trig_ok m) then (send_error conn (str "could not arm the capture trigger (SPI)") c, None)
      else (put (ESetTrigger (tr_la t) (la_edge_num (tr_edge t)) (0 <? tr_pre_samples t)) c, Some t)
  end.
Definition capture_trigger_armed (m : arm_t) (conn : Z) (t : la_trigger_t) (c : cap_t) : cap_t :=
  if negb (tr_present t) then c
  else put (EExtend (tr_timeout_ms t)) {| c with s_wait := Trigwait true conn t (am_us m + tr_timeout_ms t * 1000) (am_us m + TRIGWAIT_POLL_US) false |}.
Definition capture_trigger_cancel (t : la_trigger_t) (c : cap_t) : cap_t := if tr_present t then trigger_off c else c.
(** [fired]: what TRIGGER_STATUS says now. *)
Definition capture_trigger_done (fired : bool) (c : cap_t) : cap_t :=
  let w := s_wait c in
  if negb (tw_active w) then c
  else
    let f := tw_fired w || fired in
    trigger_off {| c with s_wait := {| w with tw_active := false; tw_fired := f |}; s_trig := TrigReply true (tw_t w) f |}.

Definition capture_busy (c : cap_t) : bool :=
  v2_active (s_v2 c) || lc_active (s_lac c) || sc_active (s_scan c) || dc_active (s_dual c) || active (s_bulk c).

(** ** The change-stream scan *)

Definition chgscan_fail (why : cstr) (c : cap_t) : cap_t :=
  let s := s_scan c in
  let c := {| c with s_scan := {| s with sc_active := false |} |} in
  release (sc_conn s) (send_error (sc_conn s) (snprintf_cut 240 (str "la capture failed: " ++ why)) (set_trig_present false (fpga_capture_psram_release c))).

(** The events of one read. *)
Fixpoint scan_events (bs : list Z) (s : chgscan_t) : chgscan_t :=
  match bs with
  | x :: y :: z :: bs =>
      let e := le24 [x; y; z] in
      let d := Z.shiftr e 14 in
      let s := {| s with sc_off := sc_off s + 3 |} in
      if sc_first s then scan_events bs {| s with sc_first := false |}
      else if d =? 0 then {| s with sc_ended := true; sc_cause := Z.land e 0x3FFF |}
      else scan_events bs {| s with sc_t := sc_t s + d |}
  | _ => s
  end.
(** Up to 16 reads a pass; [None] is a read that failed. *)
Fixpoint scan_reads (reads : nat) (rd : Z -> nat -> option (list Z)) (s : chgscan_t) : option chgscan_t :=
  match reads with
  | O => Some s
  | S reads =>
      if sc_ended s then Some s
      else
        let left := sc_region s - sc_off s in
        if left <? 3 then Some s
        else
          let n := Z.min left 255 - Z.min left 255 mod 3 in
          match rd (sc_off s) (Z.to_nat n) with None => None | Some bs => scan_reads reads rd (scan_events bs s) end
  end.

Record poll_t := Poll {
  p_us : Z; p_tick : Z; p_fired : bool; p_fired' : bool; p_adc : Z * list Z; p_la_wait : Z; p_dual_wait : Z; p_sentinel : bool; p_overflowed : bool; p_units : Z;
  p_la_max : Z; p_read : read_t; p_answers : list ans_t }.

Definition chg_too_busy (la_hz : Z) : cstr :=
  str "the signals changed faster than the pod can store at " ++ dec (la_hz / 100000 / 10) ++ str "." ++ dec (la_hz / 100000 mod 10) ++
  str " MS/s (about 6 million changes per second, all channels together); capture at 12 MS/s or lower".
Definition chg_memory (la_hz : Z) : cstr :=
  str "the changes filled the free capture memory at " ++ dec (la_hz / 100000 / 10) ++ str "." ++ dec (la_hz / 100000 mod 10) ++
  str " MS/s; capture fewer samples or at a lower rate".

Definition scan_start (p : poll_t) (s : chgscan_t) (base pre trunc n : Z) (c : cap_t) : cap_t :=
  let c := {| c with s_scan := {| s with sc_active := false |} |} in
  let c := bulk_begin_la_changes (p_tick p) (sc_conn s) (sc_adc_n s) n (sc_k s) (sc_off s) base pre trunc c in
  let b := s_bulk c in
  set_bulk {| b with la_rate_hz := sc_la_hz s; adc_rate_hz := if sc_adc_n s =? 0 then 0 else sc_adc_hz s; b64 := sc_b64 s |} c.

(** The stream is scanned to its end: start the read-back or say why not. *)
Definition scan_ended (p : poll_t) (s : chgscan_t) (c : cap_t) : cap_t :=
  let post := p_units p * LA_CHANGE_UNIT_TICKS in
  if negb (sc_ended s) then chgscan_fail (str "the change stream has no end (PSRAM data damaged or cut)") c
  else if (sc_cause s =? 0) && p_overflowed p then chgscan_fail (str "the PSRAM bus was taken during the capture") c
  else if sc_cause s =? 0 then
    if (sc_t s + 1 <? post) || ((sc_pre s =? 0) && negb (sc_t s + 1 =? post)) then chgscan_fail (str "the change stream is incomplete") c
    else
      let trig := sc_t s + 1 - post in
      let pre := if sc_pre s =? 0 then 0 else Z.min (trig / sc_k s) (sc_pre s) in
      scan_start p s (trig - pre * sc_k s) pre 0 (sc_samples s + pre) c
  else if negb (sc_pre s =? 0) then chgscan_fail (if sc_cause s =? 1 then chg_too_busy (sc_la_hz s) else chg_memory (sc_la_hz s)) c
  else scan_start p s 0 0 (if sc_cause s =? 1 then 1 else 2) (Z.min (sc_t s / sc_k s + 1) (sc_samples s)) c.

Definition chgscan_step (p : poll_t) (c : cap_t) : cap_t :=
  match scan_reads 16 (fpga_la_psram_read (p_read p) c) (s_scan c) with
  | None => chgscan_fail (str "PSRAM read-back failed") c
  | Some s =>
      let c := {| c with s_scan := s |} in
      if negb (sc_ended s) && (3 <=? sc_region s - sc_off s) then c else scan_ended p s c
  end.

(** ** The poll *)

Definition v2_off (c : cap_t) : cap_t := let v := s_v2 c in {| c with s_v2 := {| v with v2_active := false |} |}.
Definition la_off (c : cap_t) : cap_t := let l := s_lac c in {| c with s_lac := {| l with lc_active := false |} |}.
Definition dual_off (c : cap_t) : cap_t := let d := s_dual c in {| c with s_dual := {| d with dc_active := false |} |}.
Definition scan_off (c : cap_t) : cap_t := let s := s_scan c in {| c with s_scan := {| s with sc_active := false |} |}.
Definition wait_off (c : cap_t) : cap_t := let w := s_wait c in {| c with s_wait := {| w with tw_active := false |} |}.
Definition if_ (b : bool) (f : cap_t -> cap_t) (c : cap_t) : cap_t := if b then f c else c.
Definition dac_stop (c : cap_t) : cap_t := put EDacStop c.
Definition fpga_capture_abort (c : cap_t) : cap_t := put EAbort c.
(** What a capture that failed leaves behind. *)
Definition capture_failed (conn : Z) (msg : cstr) (c : cap_t) : cap_t := release conn (send_error conn msg (set_trig_present false (fpga_capture_abort c))).

Definition poll_trigger (p : poll_t) (c : cap_t) : cap_t :=
  let w := s_wait c in
  if negb (tw_active w && (tw_next_check w <=? p_us p)) then c
  else
    let w := {| w with tw_next_check := p_us p + TRIGWAIT_POLL_US; tw_fired := tw_fired w || p_fired p |} in
    let c := {| c with s_wait := w |} in
    if tw_fired w || (p_us p <? tw_deadline w) then c
    else
      let conn := tw_conn w in
      let c := wait_off (fpga_capture_abort c) in
      let c := if_ (v2_active (s_v2 c) && (v2_conn (s_v2 c) =? conn)) v2_off c in
      let c := if_ (lc_active (s_lac c) && (lc_conn (s_lac c) =? conn)) la_off c in
      let c := if_ (dc_active (s_dual c) && (dc_conn (s_dual c) =? conn)) dual_off c in
      release conn (send_error conn (la_trigger_timeout_msg (tw_t w) 320) c).

Definition poll_v2 (p : poll_t) (c : cap_t) : cap_t :=
  let v := s_v2 c in
  if negb (v2_active v) then c
  else
    let '(r, buf) := p_adc p in
    let c := {| c with s_pool := buf |} in
    if r =? 0 then c
    else
      let c := if_ (v2_stop_dac v) dac_stop (v2_off (capture_trigger_done (p_fired' p) c)) in
      if 0 <? r then
        let c := bulk_begin (p_tick p) (v2_conn v) (v2_samples v) true c in
        let b := s_bulk c in set_bulk {| b with b64 := v2_b64 v |} c
      else capture_failed (v2_conn v) (str "capture failed") c.

Definition last_off (c : cap_t) : cap_t := let l := s_last c in {| c with s_last := {| l with lp_valid := false |} |}.
Definition scan_begin (conn n k pre la_hz region adc_n adc_hz : Z) (w64 : bool) (c : cap_t) : cap_t :=
  {| (last_off c) with s_scan := Chgscan true conn n k pre la_hz 0 region 0 true false 0 adc_n adc_hz w64 |}.

Definition poll_la (p : poll_t) (c : cap_t) : cap_t :=
  let l := s_lac c in
  if negb (lc_active l) then c
  else
    let r := p_la_wait p in
    let c := if_ (0 <? r) psram_bus_acquire c in
    if r =? 0 then c
    else
      let n := lc_bytes l / 2 in
      let c := if_ (lc_stop_dac l) dac_stop (la_off (capture_trigger_done (p_fired' p) c)) in
      if (0 <? r) && negb (lc_chg_k l =? 0) then scan_begin (lc_conn l) n (lc_chg_k l) (lc_pre l) (lc_rate_hz l) (p_la_max p * 2) 0 0 false c
      else if 0 <? r then
        let c := {| c with s_last := LastCap true 0 n 0 (lc_rate_hz l); s_regions := psram_regions_track (s_la_cap_base c) (u32 (n * 2)) 0 0 |} in
        let c := bulk_begin_capture16 (p_tick p) (lc_conn l) 0 n c in
        let b := s_bulk c in set_bulk {| b with la_rate_hz := lc_rate_hz l |} c
      else capture_failed (lc_conn l) (str "la capture failed") c.

Definition poll_dual (p : poll_t) (c : cap_t) : cap_t :=
  let d := s_dual c in
  if negb (dc_active d) then c
  else
    let r := p_dual_wait p in
    let c := if_ (0 <? r) psram_bus_acquire c in
    if r =? 0 then c
    else
      let conn := dc_conn d in
      let adc_n := dc_adc_samples d in let la_n := dc_la_samples d in
      let c := if_ (dc_stop_dac d) dac_stop (dual_off (capture_trigger_done (p_fired' p) c)) in
      if (0 <? r) && (4 <=? adc_n) && p_sentinel p then
        release conn (send_error conn (str "capture failed (ADC region not written; run cap-selftest)") (set_trig_present false (put EWedge (fpga_capture_psram_release c))))
      else if (0 <? r) && negb (dc_chg_k d =? 0) && negb (la_n =? 0) then
        scan_begin conn la_n (dc_chg_k d) 0 (dc_la_rate_hz d) (u32 (s_adc_cap_base c - s_la_cap_base c)) adc_n (dc_adc_rate_hz d) (dc_b64 d) c
      else if 0 <? r then
        let adc_hz := if adc_n =? 0 then 0 else dc_adc_rate_hz d in
        let la_hz := if la_n =? 0 then 0 else dc_la_rate_hz d in
        let c := {| c with s_last := LastCap true adc_n la_n adc_hz la_hz;
                           s_regions := psram_regions_track (s_adc_cap_base c) (u32 (adc_n * 2)) (s_la_cap_base c) (u32 (la_n * 2)) |} in
        let c := bulk_begin_capture16 (p_tick p) conn adc_n la_n c in
        let b := s_bulk c in set_bulk {| b with b64 := dc_b64 d; adc_rate_hz := adc_hz; la_rate_hz := la_hz |} c
      else capture_failed conn (str "capture failed") c.

Definition capture_poll (p : poll_t) (c : cap_t) : cap_t :=
  let c := poll_la p (poll_v2 p (poll_trigger p c)) in
  let c := if_ (sc_active (s_scan c)) (chgscan_step p) c in
  bulk_pump (p_answers p) (poll_dual p c).

(** ** A connection closes, the gateware is reloaded *)

(** The captures of the connection, whether there was one and whether it leaves the DAC on. *)
Definition close_captures (conn : Z) (c : cap_t) : cap_t * bool * bool :=
  let v := s_v2 c in let l := s_lac c in let d := s_dual c in
  let ov := v2_active v && (v2_conn v =? conn) in
  let ol := lc_active l && (lc_conn l =? conn) in
  let od := dc_active d && (dc_conn d =? conn) in
  (if_ od dual_off (if_ ol la_off (if_ ov v2_off c)), ov || ol || od, (ov && v2_stop_dac v) || (ol && lc_stop_dac l) || (od && dc_stop_dac d)).
Definition close_scan (conn : Z) (c : cap_t) : cap_t :=
  if sc_active (s_scan c) && (sc_conn (s_scan c) =? conn) then fpga_capture_psram_release (scan_off c) else c.
Definition waits_on (conn : Z) (c : cap_t) : bool := tw_active (s_wait c) && (tw_conn (s_wait c) =? conn).
Definition close_fabric (conn : Z) (stopdac : bool) (c : cap_t) : cap_t :=
  let c := fpga_capture_abort c in
  if_ stopdac dac_stop (if_ (waits_on conn c) wait_off c).
Definition close_bulk (conn : Z) (c : cap_t) : cap_t :=
  if active (s_bulk c) && (conn_id (s_bulk c) =? conn) then set_bulk_active false (if_ (from_psram (s_bulk c)) fpga_la_psram_release c) else c.
Definition close_wait (conn : Z) (c : cap_t) : cap_t := if waits_on conn c then wait_off (fpga_capture_abort c) else c.
Definition capture_conn_closed (conn : Z) (c : cap_t) : cap_t :=
  let '(c, owned, stopdac) := close_captures conn c in
  close_wait conn (close_bulk conn (if_ owned (close_fabric conn stopdac) (close_scan conn c))).
Definition capture_on_gateware_reconfigured (c : cap_t) : cap_t := set_trig_present false (wait_off c).

(** ** The commands *)

(** [heavy_begin]: the busy error is sent. *)
Definition begin_heavy (m : arm_t) (conn : Z) (c : cap_t) : cap_t * bool :=
  let '(ok, o) := heavy_begin (capture_busy c || am_other m) (heavy_owner c) conn in
  let c := {| c with heavy_owner := o |} in
  if ok then (c, true) else (send_error conn (str "busy") c, false).

Definition wants_b64 (json : cstr) : bool := let g := bp_json_get json (str "enc") 8 in found g && streq (out g) (str "b64").
Definition samples_or (dflt : Z) (json key : cstr) (cap : nat) : Z := match out (bp_json_get json key cap) with [] => dflt | s => u32 (atoi s) end.
(** [strtoul(s, NULL, 10)]. *)
Definition strtoul10 (s : cstr) : Z :=
  let p := skip_space s in
  let '(neg, p) := if deref p =? 45 then (true, tail p) else if deref p =? 43 then (false, tail p) else (false, p) in
  let v := strtoul_digits 10 0 p in
  if 4294967295 <? v then 4294967295 else if neg then u32 (- v) else v.
Definition dirty_all (l : list (Z * Z)) (c : cap_t) : cap_t :=
  {| c with s_regions := fold_left (fun r e => psram_regions_dirty r (fst e) (snd e) (Some (str "another capture"))) l (s_regions c) |}.

Definition too_deep : cstr := str "samples out of range (use capture_dual for deep captures)".
Definition handle_capture (m : arm_t) (conn : Z) (json : cstr) (c : cap_t) : cap_t :=
  let n := samples_or 256 json (str "samples") 16 in
  if (n =? 0) || (ADC_MONO_BUF_SAMPLES <? n) then send_error conn too_deep c
  else
    match capture_trigger_begin m conn json false c with
    | (c, None) => c
    | (c, Some t) =>
        match begin_heavy m conn c with
        | (c, false) => capture_trigger_cancel t c
        | (c, true) =>
            let c := dirty_all (am_dirty m) c in
            if negb (am_start m =? 0) then send_error conn (str "capture failed") (capture_trigger_cancel t (release conn c))
            else {| (last_off (capture_trigger_armed m conn t c)) with s_v2 := V2cap true conn n false (wants_b64 json) |}
        end
    end.

Definition handle_stream (m : arm_t) (conn : Z) (json : cstr) (c : cap_t) : cap_t :=
  let n := samples_or 256 json (str "samples") 16 in
  if (n =? 0) || (ADC_MONO_BUF_SAMPLES <? n) then send_error conn too_deep c
  else
    match begin_heavy m conn c with
    | (c, false) => c
    | (c, true) =>
        let c := dirty_all (am_dirty m) c in
        if negb (am_start m =? 0) then send_error conn (str "capture failed") (release conn c)
        else {| (last_off c) with s_v2 := V2cap true conn n false (wants_b64 json) |}
    end.

Definition handle_measure (m : arm_t) (conn : Z) (json : cstr) (c : cap_t) : cap_t :=
  let waveform := out (bp_json_get json (str "waveform") 16) in
  if streq waveform [] then send_error conn (str "missing waveform") c
  else if negb (streq waveform (str "sine")) && negb (streq waveform (str "square")) && negb (streq waveform (str "sawtooth")) then
    send_error conn (str "unknown waveform (use sine, square or sawtooth)") c
  else
    let n := samples_or 256 json (str "samples") 16 in
    if (n =? 0) || (SIGNAL_MAX_SAMPLES <? n) then send_error conn (str "samples out of range") c
    else
      match begin_heavy m conn c with
      | (c, false) => c
      | (c, true) =>
          let c := dirty_all (am_dirty m) c in
          if negb (am_start m =? 0) then send_error conn (str "measure start failed") (release conn c)
          else {| (last_off c) with s_v2 := V2cap true conn n true (wants_b64 json) |}
      end.

(** [fpga_set_capture_bases]; a failed SPI write leaves the mirrors. *)
Definition fpga_set_capture_bases (m : arm_t) (la_b adc_b : Z) (c : cap_t) : cap_t :=
  if (CAPTURE_BASES_MIN_GW <=? am_ver m) && negb (am_bases_ok m) then c else {| c with s_la_cap_base := la_b; s_adc_cap_base := adc_b |}.

(** The regions of a `capture_dual`: the ADC base, or the message. *)
Definition dual_layout (m : arm_t) (adc_n la_n k : Z) : Z + cstr :=
  if CAPTURE_BASES_MIN_GW <=? am_ver m then
    let lo := psram_plan (PsramRequest la_n adc_n (am_dac_bytes m) (if k =? 0 then am_req_la_hz m else 0) (am_req_adc_hz m) (if am_dac_bytes m =? 0 then 0 else DAC_MAX_RATE_HZ)) in
    match status lo with
    | PSRAM_ALLOC_ERR_CAPACITY => inr (str "capture too deep: LA+ADC+DAC exceed 8 MB PSRAM")
    | PSRAM_ALLOC_ERR_BANDWIDTH => inr (str "combined sample rate exceeds PSRAM bus bandwidth")
    | PSRAM_ALLOC_OK =>
        if k =? 0 then inl (adc_base lo)
        else
          let ceil := u32 (FPGA_PSRAM_TOTAL - am_dac_bytes m) in
          let top := Z.land (u32 (ceil - u32 (adc_n * 2))) (not32 0x3F) in
          inl (if adc_base lo <? top then top else adc_base lo)
    end
  else if (am_adc_max m <? adc_n) || (am_la_max_dual m <? la_n) then inr (str "samples out of range (per-stream PSRAM region limit)")
  else inl FPGA_PSRAM_ADC_BASE.

Definition stop_us (json : cstr) : Z := let g := bp_json_get json (str "stop_dac_after_us") 16 in if found g && negb (streq (out g) []) then strtoul10 (out g) else 0.
Definition stop_dac_armed (m : arm_t) (json : cstr) : bool := (0 <? stop_us json) && (DAC_CAPTURE_STOP_MIN_GW <=? am_ver m).

Definition count_field (json key : cstr) : Z := let g := bp_json_get json key 16 in if found g && negb (streq (out g) []) then u32 (atoi (out g)) else 0.
Definition handle_capture_dual (m : arm_t) (conn : Z) (json : cstr) (c : cap_t) : cap_t :=
  let adc_n := count_field json (str "adc_samples") in
  let la_n := count_field json (str "la_samples") in
  if (adc_n =? 0) && (la_n =? 0) then send_error conn (str "adc_samples and la_samples are both 0") c
  else
    let k := if la_n =? 0 then 0 else am_chg_k m in
    match dual_layout m adc_n la_n k with
    | inr e => send_error conn e c
    | inl adc_b =>
        match capture_trigger_begin m conn json false c with
        | (c, None) => c
        | (c, Some t) =>
            match begin_heavy m conn c with
            | (c, false) => capture_trigger_cancel t c
            | (c, true) =>
                let c := dirty_all (am_dirty m) (put (EDacStopAfter (stop_us json)) (fpga_set_capture_bases m 0 adc_b c)) in
                let k := if CAPTURE_BASES_MIN_GW <=? am_ver m then k else 0 in
                if negb (am_start m =? 0) then send_error conn (str "capture failed") (capture_trigger_cancel t (release conn c))
                else {| (last_off (capture_trigger_armed m conn t c)) with
                        s_dual := Dualcap true conn adc_n la_n (am_adc_hz m) (am_la_hz m) (stop_dac_armed m json) (wants_b64 json) k |}
            end
        end
    end.

Definition handle_la_capture (m : arm_t) (conn : Z) (json : cstr) (c : cap_t) : cap_t :=
  if negb (am_la_voltage m) then send_error conn (str "la voltage not set; set it with la_voltage (mv 1800 or 3300) first") c
  else
    let n := samples_or 256 json (str "samples") 16 in
    if (n =? 0) || (am_la_max m <? n) then send_error conn (str "samples out of range") c
    else
      match capture_trigger_begin m conn json true c with
      | (c, None) => c
      | (c, Some t) =>
          match begin_heavy m conn c with
          | (c, false) => capture_trigger_cancel t c
          | (c, true) =>
              let c := dirty_all (am_dirty m) (put (EDacStopAfter (stop_us json)) c) in
              let pre := if tr_present t then tr_pre_samples t else 0 in
              let k := if pre =? 0 then am_chg_k m else am_chg_k_pre m in
              if negb (am_start m =? 0) then send_error conn (str "la capture failed") (capture_trigger_cancel t (release conn c))
              else {| (last_off (capture_trigger_armed m conn t c)) with s_lac := Lacap true conn (n * 2) (stop_dac_armed m json) (am_la_hz m) k pre |}
          end
      end.

Definition handle_capture_read (m : arm_t) (conn : Z) (json : cstr) (c : cap_t) : cap_t :=
  if negb (lp_valid (s_last c)) then send_error conn (str "no capture to resume (run capture_dual first)") c
  else
    match psram_regions_stale (s_regions c) with
    | Some stale => send_error conn (snprintf_cut 128 (str "capture data was overwritten by " ++ stale ++ str "; run the capture again")) c
    | None =>
        let offset := count_field json (str "offset") in
        let n := lp_adc_samples (s_last c) + lp_la_samples (s_last c) in
        if n <? offset then send_error conn (str "offset out of range") c
        else
          match begin_heavy m conn c with
          | (c, false) => c
          | (c, true) =>
              if offset =? n then release conn (put (EText conn (q "{|status|:|ok|,|data|:[],|more|:false}" ++ [10])) c)
              else
                let c := bulk_begin_capture16_resume (am_tick m) conn offset (psram_bus_acquire c) in
                let b := s_bulk c in set_bulk {| b with b64 := wants_b64 json |} c
          end
    end.

Definition test_pattern (m : arm_t) (pattern value : cstr) (n i : Z) : option Z :=
  if streq pattern (str "const") then Some (match value with [] => 65535 | s => u16 (atoi s) end)
  else if streq pattern (str "counter") then Some (Z.land i 0xFFFF)
  else if streq pattern (str "ramp") then Some (u16 (u32 (i * 65535) / (n - 1)))
  else if streq pattern (str "sine") then Some (am_sine m i)
  else None.
Definition fill_pool (f : Z -> Z) (n : Z) (pool : list Z) : list Z := map (fun i => f (Z.of_nat i)) (seq 0 (Z.to_nat n)) ++ drop (Z.to_nat n) pool.
Definition handle_test (m : arm_t) (conn : Z) (json : cstr) (c : cap_t) : cap_t :=
  let value := out (bp_json_get json (str "value") 8) in
  let n := samples_or 256 json (str "samples") 16 in
  if (n =? 0) || (SIGNAL_BUF_SIZE <? n) then send_error conn (str "samples out of range") c
  else
    let pattern := match out (bp_json_get json (str "pattern") 16) with [] => (match value with [] => str "sine" | _ => str "const" end) | s => s end in
    match begin_heavy m conn c with
    | (c, false) => c
    | (c, true) =>
        match test_pattern m pattern value n 0 with
        | None => send_error conn (str "unknown pattern (use sine|counter|ramp|const)") (release conn c)
        | Some _ =>
            let c := {| c with s_pool := fill_pool (fun i => default 0 (test_pattern m pattern value n i)) n (s_pool c) |} in
            let c := bulk_begin (am_tick m) conn n true c in
            let b := s_bulk c in set_bulk {| b with b64 := wants_b64 json |} c
        end
    end.

(** [sensor_regs] and [sensor_la]: the bytes the sensor gives, or [None]. [msg]: the error. *)
Definition sensor_bytes (m : arm_t) (conn n : Z) (msg : cstr) (c : cap_t) : cap_t :=
  match begin_heavy m conn c with
  | (c, false) => c
  | (c, true) =>
      match am_sensor m with
      | None => send_error conn msg (release conn c)
      | Some bs => bulk_begin (am_tick m) conn n false {| c with s_scratch := bs ++ drop (length bs) (s_scratch c) |}
      end
  end.
(** The check of [handle_sensor_regs] and, again, of [fpga_i2c_read_regs]: [size_t] is 32 bits. *)
Definition read_regs_ok (start len : Z) : bool := negb (len =? 0) && (u32 (start + len) <=? 256).
Definition handle_sensor_regs (m : arm_t) (sensor_active : bool) (conn : Z) (json : cstr) (c : cap_t) : cap_t :=
  let start := match out (bp_json_get json (str "start") 8) with [] => 0 | s => u8 (strtoul0 s) end in
  let len := samples_or 256 json (str "len") 8 in
  if negb sensor_active then send_error conn (str "no sensor active") c
  else if negb (read_regs_ok start len) then send_error conn (str "start/len out of range") c
  else sensor_bytes m conn len (str "read regs failed") c.
Definition handle_sensor_la (m : arm_t) (conn : Z) (json : cstr) (c : cap_t) : cap_t :=
  let n := samples_or 256 json (str "samples") 16 in
  if (n =? 0) || (SIGNAL_BUF_SIZE <? n) then send_error conn (str "samples out of range") c
  else sensor_bytes m conn n (str "la capture failed") c.
