(* ===== verification/CaptureTheorems.v ===== *)
(** * Captures: one at a time, the gate and the bus given back

    The invariant [cap_inv] over every command, poll, close and reconfiguration. *)

From S2P Require Import Prelude Json B64 CmdGate LaPins PsramRegions Psram Capture CaptureRun.

(** ** The invariant *)

(** The connections of the operations under way. *)
Definition ops (c : cap_t) : list Z :=
  (if v2_active (s_v2 c) then [v2_conn (s_v2 c)] else []) ++ (if lc_active (s_lac c) then [lc_conn (s_lac c)] else []) ++
  (if sc_active (s_scan c) then [sc_conn (s_scan c)] else []) ++ (if dc_active (s_dual c) then [dc_conn (s_dual c)] else []) ++
  (if active (s_bulk c) then [conn_id (s_bulk c)] else []).
(** Who may still be waiting on a trigger. *)
Definition arming (c : cap_t) : list Z :=
  (if v2_active (s_v2 c) then [v2_conn (s_v2 c)] else []) ++ (if lc_active (s_lac c) then [lc_conn (s_lac c)] else []) ++
  (if dc_active (s_dual c) then [dc_conn (s_dual c)] else []).
Definition holds (c : cap_t) : Z := if sc_active (s_scan c) || (active (s_bulk c) && from_psram (s_bulk c)) then 1 else 0.
Record cap_inv (c : cap_t) : Prop := {
  ci_ops : ops c = [] \/ ops c = [heavy_owner c];
  ci_bus : bus c = holds c;
  ci_chg : active (s_bulk c) = true -> chg (s_bulk c) = true -> from_psram (s_bulk c) = true;
  ci_wait : tw_active (s_wait c) = true -> arming c = [tw_conn (s_wait c)] }.

(** What the pump leaves: the operation goes on, or it is over and gave everything back. *)
Definition same_but_bulk (c c' : cap_t) : Prop :=
  s_v2 c' = s_v2 c /\ s_lac c' = s_lac c /\ s_scan c' = s_scan c /\ s_dual c' = s_dual c /\ s_wait c' = s_wait c.
Definition pump_on (c c' : cap_t) : Prop :=
  same_but_bulk c c' /\ heavy_owner c' = heavy_owner c /\ bus c' = bus c /\ active (s_bulk c') = active (s_bulk c) /\ conn_id (s_bulk c') = conn_id (s_bulk c) /\
  from_psram (s_bulk c') = from_psram (s_bulk c) /\ chg (s_bulk c') = chg (s_bulk c).
Definition pump_over (c c' : cap_t) : Prop :=
  same_but_bulk c c' /\ heavy_owner c' = heavy_release (heavy_owner c) (conn_id (s_bulk c)) /\ bus c' = bus c - (if from_psram (s_bulk c) then 1 else 0) /\
  active (s_bulk c') = false.

Lemma pump_on_refl c : pump_on c c.
Proof. by split_and!. Qed.
Lemma pump_on_trans a b c : pump_on a b -> pump_on b c -> pump_on a c.
Proof.
  intros ((A1 & A2 & A3 & A4 & A5) & A6 & A7 & A8 & A9 & A10 & A11) ((B1 & B2 & B3 & B4 & B5) & B6 & B7 & B8 & B9 & B10 & B11).
  repeat split; congruence.
Qed.
Lemma pump_on_over a b c : pump_on a b -> pump_over b c -> pump_over a c.
Proof.
  intros ((A1 & A2 & A3 & A4 & A5) & A6 & A7 & A8 & A9 & A10 & A11) ((B1 & B2 & B3 & B4 & B5) & B6 & B7 & B8).
  repeat split; try congruence. by rewrite B7, A7, A10.
Qed.

Lemma done_over c : pump_over c (bulk_done c).
Proof. unfold bulk_done. destruct (from_psram (s_bulk c)) eqn:E; repeat split; cbn; rewrite ?E; try done; lia. Qed.
Lemma drop_over c : pump_over c (bulk_drop c).
Proof. exact (done_over c). Qed.
Lemma read_failed_over msg c : from_psram (s_bulk c) = true -> pump_over c (bulk_read_failed msg c).
Proof. intros E. repeat split; cbn; rewrite ?E; done. Qed.
Lemma set_bulk_on b c : active b = active (s_bulk c) -> conn_id b = conn_id (s_bulk c) -> from_psram b = from_psram (s_bulk c) -> chg b = chg (s_bulk c) -> pump_on c (set_bulk b c).
Proof. by repeat split. Qed.
Lemma queue_on a f c c' : queue_frame a f c = Some c' -> pump_on c c' /\ s_bulk c' = s_bulk c.
Proof. unfold queue_frame. case_match; [|done]. intros [= <-]. split; [by repeat split|done]. Qed.

(** The change loop touches only its own fields. *)
Definition chg_keeps (b b' : bulk_t) : Prop :=
  active b' = active b /\ conn_id b' = conn_id b /\ from_psram b' = from_psram b /\ chg b' = chg b /\ total b' = total b /\ adc_samples b' = adc_samples b /\ trig_present b' = trig_present b /\
  trig b' = trig b /\ trig_fired b' = trig_fired b /\ chg_hdr b' = chg_hdr b /\ chg_end b' = chg_end b /\ chg_k b' = chg_k b /\ chg_base b' = chg_base b.
Lemma chg_keeps_refl b : chg_keeps b b.
Proof. by split_and!. Qed.
Lemma chg_keeps_trans b1 b2 b3 : chg_keeps b1 b2 -> chg_keeps b2 b3 -> chg_keeps b1 b3.
Proof. unfold chg_keeps. intros A B. decompose [and] A. decompose [and] B. split_and!; congruence. Qed.
Lemma chg_flush_keeps b es pos b' es' pos' : chg_flush b es pos = (b', es', pos') -> chg_keeps b b'.
Proof. unfold chg_flush, chg_emit. destruct (_ || _); intros [= <- <- <-]; by split_and!. Qed.
Lemma chg_event_keeps lt b es pos b' es' pos' stop : chg_event lt b es pos = (b', es', pos', stop) -> chg_keeps b b'.
Proof.
  unfold chg_event. cbn zeta. destruct (negb _ && _); [intros [= <- <- <- <-]; by split_and!|].
  cbn [chg_first chg_t chg_base chg_k chg_pend_i adc_samples].
  match goal with |- context [lt <=? ?x] => generalize x; intros idx end. destruct (lt <=? idx); [intros [= <- <- <- <-]; by split_and!|].
  destruct (_ && _).
  - destruct (chg_flush _ es pos) as [[b1 es1] pos1] eqn:E. apply chg_flush_keeps in E. intros [= <- <- <- <-]. exact E.
  - intros [= <- <- <- <-]. by split_and!.
Qed.
Lemma chg_loop_keeps fuel rd limit lt b es pos reads b' es' pos' : chg_loop fuel rd limit lt b es pos reads = Some (b', es', pos') -> chg_keeps b b'.
Proof.
  revert b es pos reads. induction fuel as [|fuel IH]; intros b es pos reads; cbn [chg_loop]; [intros [= <- <- <-]; apply chg_keeps_refl|].
  destruct (_ || _); [intros [= <- <- <-]; apply chg_keeps_refl|].
  assert (forall b0 reads0, chg_keeps b b0 ->
    (let '(b1, es1, pos1, stop) := chg_event lt b0 es pos in if stop then Some (b1, es1, pos1) else chg_loop fuel rd limit lt b1 es1 pos1 reads0) = Some (b', es', pos') -> chg_keeps b b') as K.
  { intros b0 reads0 H0. destruct (chg_event lt b0 es pos) as [[[b1 es1] pos1] stop] eqn:E. apply chg_event_keeps in E.
    destruct stop; [intros [= <- <- <-]; by eapply chg_keeps_trans|]. intros H. apply IH in H. eapply chg_keeps_trans; [|exact H]. by eapply chg_keeps_trans. }
  destruct (chg_buf b); [|apply K, chg_keeps_refl]. destruct reads as [|reads]; [intros [= <- <- <-]; apply chg_keeps_refl|].
  destruct (_ <? 3); [intros [= <- <- <-]; by split_and!|]. destruct (rd _ _); [|done]. apply K. by split_and!.
Qed.

Definition step_ok (c : cap_t) (r : cap_t * bool) : Prop := if snd r then pump_on c (fst r) else pump_on c (fst r) \/ pump_over c (fst r).
Lemma keeps_on b c : chg_keeps (s_bulk c) b -> pump_on c (set_bulk b c).
Proof. intros K. unfold chg_keeps in K. decompose [and] K. by apply set_bulk_on. Qed.

Lemma changes_ok a c : from_psram (s_bulk c) = true -> step_ok c (bulk_pump_changes a c).
Proof.
  intros Hp. unfold bulk_pump_changes. cbn zeta. destruct (chg_loop _ _ _ _ _ _ _ _) as [[[b' es] pos]|] eqn:E; [|right; by apply read_failed_over].
  apply chg_loop_keeps in E. match goal with |- context [let '(b', es) := ?x in _] => set (r := x) end.
  assert (chg_keeps (s_bulk c) (fst r)) as K.
  { subst r. destruct (chg_done b'); [|exact E]. destruct (0 <=? chg_pend_i b').
    - destruct (chg_flush b' es pos) as [[b2 es2] pos2] eqn:F. apply chg_flush_keeps in F. cbn [fst]. eapply chg_keeps_trans; [exact E|]. exact F.
    - exact E. }
  destruct r as [b2 es2]. cbn [fst] in K. destruct (queue_frame _ _ _) as [c'|] eqn:Q.
  - apply queue_on in Q as [Q Qb]. unfold step_ok. cbn [snd fst]. eapply pump_on_trans; [by apply (keeps_on b2)|]. eapply pump_on_trans; [exact Q|].
    apply set_bulk_on; by rewrite Qb.
  - right. cbn [fst]. eapply pump_on_over; [by apply (keeps_on b2)|apply drop_over].
Qed.
Lemma la_ok a c : from_psram (s_bulk c) = true -> step_ok c (bulk_pump_la a c).
Proof.
  intros Hp. unfold bulk_pump_la. cbn zeta. destruct (fpga_capture_psram_read16 _ _ _ _ _) as [ws|]; [|right; by apply read_failed_over].
  destruct (la_edges_loop _ _ _ _ _ _) as [[es lw] n]. destruct (queue_frame _ _ _) as [c'|] eqn:Q.
  - apply queue_on in Q as [Q Qb]. unfold step_ok. cbn [snd fst]. eapply pump_on_trans; [apply (set_bulk_on {| (s_bulk c) with la_last := lw |}); done|].
    eapply pump_on_trans; [exact Q|]. apply set_bulk_on; by rewrite Qb.
  - right. cbn [fst]. eapply pump_on_over; [|apply drop_over]. by apply set_bulk_on.
Qed.
Lemma dense_ok a c : step_ok c (bulk_pump_dense a c).
Proof.
  unfold bulk_pump_dense. destruct (dense_room _ _) as [room|]; [|left; apply pump_on_refl]. cbn zeta.
  destruct (dense_read a c _) as [l|] eqn:R.
  - destruct (queue_frame _ _ _) as [c'|] eqn:Q.
    + apply queue_on in Q as [Q Qb]. unfold step_ok. cbn [snd fst]. eapply pump_on_trans; [exact Q|]. apply set_bulk_on; by rewrite Qb.
    + right. apply drop_over.
  - right. apply read_failed_over. unfold dense_read in R. by destruct (from_psram (s_bulk c)).
Qed.
Lemma bulk_step_ok a c : (chg (s_bulk c) = true -> from_psram (s_bulk c) = true) -> step_ok c (bulk_step a c).
Proof.
  intros Hc. unfold bulk_step. destruct (a_avail a <? 96).
  { case_match; [right; apply drop_over|left; apply pump_on_refl]. }
  set (c1 := set_progress (a_tick a) c). assert (pump_on c c1) as H1 by (by apply set_bulk_on).
  assert (forall r, step_ok c1 r -> step_ok c r) as K.
  { intros [c2 []]; unfold step_ok; cbn; [by apply pump_on_trans|]. intros [H|H]; [left; by eapply pump_on_trans|right; by eapply pump_on_over]. }
  apply K. destruct (chg (s_bulk c) && _) eqn:E1; [|destruct (is16 (s_bulk c) && _ && _) eqn:E2].
  - apply andb_true_iff in E1 as [E1 _]. case_match; [left; apply pump_on_refl|]. apply changes_ok. cbn. by apply Hc.
  - case_match; [left; apply pump_on_refl|]. apply la_ok. apply andb_true_iff in E2 as [E2 _]. by apply andb_true_iff in E2 as [_ E2].
  - apply dense_ok.
Qed.
Lemma pump_loop_ok l c : (chg (s_bulk c) = true -> from_psram (s_bulk c) = true) -> pump_on c (bulk_pump_loop l c) \/ pump_over c (bulk_pump_loop l c).
Proof.
  revert c. induction l as [|a l IH]; intros c Hc; cbn [bulk_pump_loop]; (case_match; [right; apply done_over|]); [left; apply pump_on_refl|].
  pose proof (bulk_step_ok a c Hc) as H1. destruct (bulk_step a c) as [c' []]; unfold step_ok in H1; cbn in H1; [|exact H1].
  destruct (IH c') as [H2|H2].
  - destruct H1 as (_ & _ & _ & _ & _ & -> & ->). exact Hc.
  - left. by eapply pump_on_trans.
  - right. by eapply pump_on_over.
Qed.

(** ** What the invariant looks at *)

Definition core (c : cap_t) := (s_v2 c, s_lac c, s_scan c, s_dual c, s_bulk c, s_wait c, heavy_owner c, bus c).
Lemma inv_core c c' : core c' = core c -> cap_inv c -> cap_inv c'.
Proof.
  unfold core. intros [= E1 E2 E3 E4 E5 E6 E7 E8] [H1 H2 H3 H4].
  split; unfold ops, holds, arming in *; rewrite ?E1, ?E2, ?E3, ?E4, ?E5, ?E6, ?E7, ?E8; done.
Qed.
Lemma inv_on c c' : pump_on c c' -> cap_inv c -> cap_inv c'.
Proof.
  intros ((E1 & E2 & E3 & E4 & E5) & E6 & E7 & E8 & E9 & E10 & E11) [H1 H2 H3 H4].
  split; unfold ops, holds, arming in *; rewrite ?E1, ?E2, ?E3, ?E4, ?E5, ?E6, ?E7, ?E8, ?E9, ?E10, ?E11; done.
Qed.

(** Nothing under way. *)
Definition idle (c : cap_t) : Prop := ops c = [] /\ bus c = 0 /\ tw_active (s_wait c) = false.
Lemma ops_arming c : ops c = [] -> arming c = [].
Proof. unfold ops, arming. destruct (v2_active _), (lc_active _), (sc_active _), (dc_active _), (active _); done. Qed.
Lemma ops_flags c : ops c = [] -> v2_active (s_v2 c) = false /\ lc_active (s_lac c) = false /\ sc_active (s_scan c) = false /\ dc_active (s_dual c) = false /\ active (s_bulk c) = false.
Proof. unfold ops. destruct (v2_active _), (lc_active _), (sc_active _), (dc_active _), (active _); done. Qed.
Lemma busy_ops c : capture_busy c = false <-> ops c = [].
Proof. unfold capture_busy, ops. destruct (v2_active _), (lc_active _), (sc_active _), (dc_active _), (active _); done. Qed.
Lemma idle_inv c : idle c -> cap_inv c.
Proof.
  intros (H1 & H2 & H3). destruct (ops_flags c H1) as (_ & _ & F3 & _ & F5). split; [by left| | |congruence].
  - unfold holds. by rewrite F3, F5.
  - congruence.
Qed.
Lemma inv_idle c : cap_inv c -> ops c = [] -> idle c.
Proof.
  intros [H1 H2 H3 H4] H. destruct (ops_flags c H) as (_ & _ & F3 & _ & F5). split_and!; [done| |].
  - rewrite H2. unfold holds. by rewrite F3, F5.
  - destruct (tw_active (s_wait c)) eqn:E; [|done]. pose proof (H4 eq_refl) as A. by rewrite ops_arming in A.
Qed.
(** All of it but the gate. *)
Definition engines (c : cap_t) := (s_v2 c, s_lac c, s_scan c, s_dual c, s_bulk c, tw_active (s_wait c), bus c).
Lemma idle_core c c' : engines c' = engines c -> idle c -> idle c'.
Proof. unfold engines, idle, ops. intros [= E1 E2 E3 E4 E5 E6 E7]. by rewrite E1, E2, E3, E4, E5, E6, E7. Qed.

(** An operation that starts from idle, under the gate. *)
Lemma inv_start c : 
  ops c = [heavy_owner c] -> bus c = holds c -> (active (s_bulk c) = true -> chg (s_bulk c) = true -> from_psram (s_bulk c) = true) ->
  (tw_active (s_wait c) = true -> arming c = [tw_conn (s_wait c)]) -> cap_inv c.
Proof. intros. split; auto. Qed.

(** The one operation under way has ended. *)
Ltac flags := unfold ops in *; repeat match goal with H : context [if ?b then _ else _] |- _ => destruct b eqn:?; cbn in H end; simplify_eq; try done.

Lemma over_idle c c' : pump_over c c' -> cap_inv c -> active (s_bulk c) = true -> idle c'.
Proof.
  intros ((E1 & E2 & E3 & E4 & E5) & E6 & E7 & E8) [H1 H2 H3 H4] Ha.
  assert (v2_active (s_v2 c) = false /\ lc_active (s_lac c) = false /\ sc_active (s_scan c) = false /\ dc_active (s_dual c) = false) as (F1 & F2 & F3 & F4).
  { unfold ops in H1. rewrite Ha in H1. destruct (v2_active _), (lc_active _), (sc_active _), (dc_active _), H1; done. }
  split_and!.
  - unfold ops. by rewrite E1, E2, E3, E4, E8, F1, F2, F3, F4.
  - rewrite E7, H2. unfold holds. rewrite F3, Ha. cbn. by destruct (from_psram (s_bulk c)).
  - rewrite E5. destruct (tw_active (s_wait c)); [|done]. pose proof (H4 eq_refl) as A. unfold arming in A. by rewrite F1, F2, F4 in A.
Qed.
Lemma inv_pump l c : cap_inv c -> cap_inv (bulk_pump l c).
Proof.
  intros I. unfold bulk_pump. destruct (active (s_bulk c)) eqn:Ha; [|done].
  destruct (pump_loop_ok l c (ci_chg _ I Ha)) as [H|H]; [by eapply inv_on|]. by eapply idle_inv, over_idle.
Qed.

(** ** The scan *)

Definition only_scan (c : cap_t) : Prop := v2_active (s_v2 c) = false /\ lc_active (s_lac c) = false /\ dc_active (s_dual c) = false /\ active (s_bulk c) = false.
Lemma scan_alone c : cap_inv c -> sc_active (s_scan c) = true -> only_scan c /\ sc_conn (s_scan c) = heavy_owner c /\ bus c = 1 /\ tw_active (s_wait c) = false.
Proof.
  intros [H1 H2 H3 H4] Ha. unfold ops in H1. rewrite Ha in H1.
  assert (only_scan c /\ sc_conn (s_scan c) = heavy_owner c) as [H5 H6].
  { unfold only_scan. destruct (v2_active _), (lc_active _), (dc_active _), (active _), H1 as [H1|H1]; cbn in H1; try done; simplify_eq; auto. }
  split_and!; try done; [rewrite H2; unfold holds; by rewrite Ha|].
  destruct (tw_active (s_wait c)); [|done]. pose proof (H4 eq_refl) as A. destruct H5 as (F1 & F2 & F3 & _). unfold arming in A. by rewrite F1, F2, F3 in A.
Qed.
Lemma scan_off_idle c c' conn : only_scan c -> bus c = 1 -> tw_active (s_wait c) = false ->
  s_v2 c' = s_v2 c -> s_lac c' = s_lac c -> s_dual c' = s_dual c -> s_bulk c' = s_bulk c -> s_wait c' = s_wait c -> sc_active (s_scan c') = false -> bus c' = bus c - 1 -> idle (release conn c').
Proof.
  intros (F1 & F2 & F3 & F4) Hb Hw E1 E2 E3 E4 E5 E6 E7.
  split_and!; [|change (bus c' = 0); lia|change (tw_active (s_wait c') = false); by rewrite E5].
  unfold ops. cbn. by rewrite E1, E2, E3, E4, E6, F1, F2, F3, F4.
Qed.
Lemma scan_events_keeps bs s : sc_active (scan_events bs s) = sc_active s /\ sc_conn (scan_events bs s) = sc_conn s.
Proof.
  revert s. induction bs as [| | |x y z bs IH] using list3_ind; intros s; try done. cbn [scan_events]. cbn zeta.
  repeat case_match; try done; match goal with |- sc_active (scan_events bs ?t) = _ /\ _ => by destruct (IH t) as [-> ->] end.
Qed.
Lemma scan_reads_keeps n rd s s' : scan_reads n rd s = Some s' -> sc_active s' = sc_active s /\ sc_conn s' = sc_conn s.
Proof.
  revert s. induction n as [|n IH]; intros s; cbn [scan_reads]; [by intros [= <-]|]. destruct (sc_ended s); [by intros [= <-]|].
  cbn zeta. destruct (_ <? 3); [by intros [= <-]|]. destruct (rd _ _) as [bs|]; [|done]. intros [H1 H2]%IH.
  destruct (scan_events_keeps bs s) as [K1 K2]. by rewrite H1, H2.
Qed.

(** A read-back that starts where another operation held the bus and the gate. *)
Lemma inv_bulk c conn : 
  v2_active (s_v2 c) = false -> lc_active (s_lac c) = false -> sc_active (s_scan c) = false -> dc_active (s_dual c) = false ->
  active (s_bulk c) = true -> conn_id (s_bulk c) = conn -> heavy_owner c = conn -> bus c = (if from_psram (s_bulk c) then 1 else 0) ->
  (chg (s_bulk c) = true -> from_psram (s_bulk c) = true) -> tw_active (s_wait c) = false -> cap_inv c.
Proof.
  intros F1 F2 F3 F4 Ha Hc Ho Hb Hg Hw. split; [right|..|done|congruence].
  - unfold ops. rewrite F1, F2, F3, F4, Ha. cbn. congruence.
  - unfold holds. rewrite F3, Ha, Hb. done.
Qed.

Lemma inv_chgscan p c : cap_inv c -> sc_active (s_scan c) = true -> cap_inv (chgscan_step p c).
Proof.
  intros I Ha. destruct (scan_alone c I Ha) as (Ho & Hc & Hb & Hw).
  assert (forall why c1, s_v2 c1 = s_v2 c -> s_lac c1 = s_lac c -> s_dual c1 = s_dual c -> s_bulk c1 = s_bulk c -> s_wait c1 = s_wait c -> bus c1 = bus c -> cap_inv (chgscan_fail why c1)) as Fail.
  { intros why c1 E1 E2 E3 E4 E5 E6. apply idle_inv. eapply (scan_off_idle c); try done. cbn. by rewrite E6. }
  unfold chgscan_step. destruct (scan_reads _ _ _) as [s|] eqn:Es; [|by apply Fail].
  apply scan_reads_keeps in Es as [As Cs]. rewrite Ha in As.
  assert (forall base pre trunc n, cap_inv (scan_start p s base pre trunc n {| c with s_scan := s |})) as Start.
  { intros. destruct Ho as (F1 & F2 & F3 & F4). by eapply inv_bulk. }
  destruct (_ && _).
  - destruct I as [H1 H2 H3 H4]. split; unfold ops, holds, arming in *; cbn; rewrite ?As, ?Cs; rewrite ?Ha in *; done.
  - unfold scan_ended. cbn zeta. repeat case_match; try (by apply Fail); apply Start.
Qed.

(** ** The poll's parts *)

Lemma inv_conns c : cap_inv c -> forall x, x ∈ ops c -> x = heavy_owner c /\ ops c = [x].
Proof. intros [[H|H] _ _ _] x; rewrite H; [by intros ?%not_elem_of_nil|]. by intros ->%list_elem_of_singleton. Qed.

Lemma trigger_done_core f c : tw_active (s_wait (capture_trigger_done f c)) = false /\
  s_v2 (capture_trigger_done f c) = s_v2 c /\ s_lac (capture_trigger_done f c) = s_lac c /\ s_scan (capture_trigger_done f c) = s_scan c /\ s_dual (capture_trigger_done f c) = s_dual c /\
  s_bulk (capture_trigger_done f c) = s_bulk c /\ heavy_owner (capture_trigger_done f c) = heavy_owner c /\ bus (capture_trigger_done f c) = bus c /\
  s_la_cap_base (capture_trigger_done f c) = s_la_cap_base c.
Proof. unfold capture_trigger_done. destruct (tw_active (s_wait c)) eqn:E; cbn; by split_and!. Qed.

Lemma only_v2 c : cap_inv c -> v2_active (s_v2 c) = true ->
  lc_active (s_lac c) = false /\ sc_active (s_scan c) = false /\ dc_active (s_dual c) = false /\ active (s_bulk c) = false /\ v2_conn (s_v2 c) = heavy_owner c /\ bus c = 0.
Proof.
  intros [H1 H2 _ _] Ha. unfold holds in H2. unfold ops in H1. rewrite Ha in H1.
  destruct (lc_active _), (sc_active _), (dc_active _), (active _), H1 as [H1|H1]; cbn in H1, H2; try done; simplify_eq; by split_and!.
Qed.
Lemma only_la c : cap_inv c -> lc_active (s_lac c) = true ->
  v2_active (s_v2 c) = false /\ sc_active (s_scan c) = false /\ dc_active (s_dual c) = false /\ active (s_bulk c) = false /\ lc_conn (s_lac c) = heavy_owner c /\ bus c = 0.
Proof.
  intros [H1 H2 _ _] Ha. unfold holds in H2. unfold ops in H1. rewrite Ha in H1.
  destruct (v2_active _), (sc_active _), (dc_active _), (active _), H1 as [H1|H1]; cbn in H1, H2; try done; simplify_eq; by split_and!.
Qed.
Lemma only_dual c : cap_inv c -> dc_active (s_dual c) = true ->
  v2_active (s_v2 c) = false /\ lc_active (s_lac c) = false /\ sc_active (s_scan c) = false /\ active (s_bulk c) = false /\ dc_conn (s_dual c) = heavy_owner c /\ bus c = 0.
Proof.
  intros [H1 H2 _ _] Ha. unfold holds in H2. unfold ops in H1. rewrite Ha in H1.
  destruct (v2_active _), (lc_active _), (sc_active _), (active _), H1 as [H1|H1]; cbn in H1, H2; try done; simplify_eq; by split_and!.
Qed.
Lemma only_bulk c : cap_inv c -> active (s_bulk c) = true ->
  v2_active (s_v2 c) = false /\ lc_active (s_lac c) = false /\ sc_active (s_scan c) = false /\ dc_active (s_dual c) = false /\ conn_id (s_bulk c) = heavy_owner c /\
  bus c = (if from_psram (s_bulk c) then 1 else 0) /\ tw_active (s_wait c) = false.
Proof.
  intros [H1 H2 _ H4] Ha. unfold holds in H2. unfold arming in H4. unfold ops in H1. rewrite Ha in H1, H2.
  destruct (v2_active _), (lc_active _), (sc_active _), (dc_active _), H1 as [H1|H1]; cbn in H1; try done; simplify_eq.
  split_and!; try done. by destruct (tw_active _); [specialize (H4 eq_refl)|].
Qed.

Lemma idle_off c : v2_active (s_v2 c) = false -> lc_active (s_lac c) = false -> sc_active (s_scan c) = false -> dc_active (s_dual c) = false -> active (s_bulk c) = false ->
  bus c = 0 -> tw_active (s_wait c) = false -> idle c.
Proof. intros F1 F2 F3 F4 F5 Hb Hw. split_and!; try done. unfold ops. by rewrite F1, F2, F3, F4, F5. Qed.

Lemma if_dac b c : core (if_ b dac_stop c) = core c.
Proof. by destruct b. Qed.
Lemma core_eqs c c' : core c' = core c -> s_v2 c' = s_v2 c /\ s_lac c' = s_lac c /\ s_scan c' = s_scan c /\ s_dual c' = s_dual c /\ s_bulk c' = s_bulk c /\ s_wait c' = s_wait c /\
  heavy_owner c' = heavy_owner c /\ bus c' = bus c.
Proof. unfold core. by intros [= -> -> -> -> -> -> -> ->]. Qed.

Lemma inv_trigger p c : cap_inv c -> cap_inv (poll_trigger p c).
Proof.
  intros I. unfold poll_trigger. destruct (negb _) eqn:E1; [done|]. cbn zeta. apply negb_false_iff, andb_true_iff in E1 as [Hw _].
  set (w := {| tw_active := _ |}). destruct (_ || (p_us p <? _)).
  { destruct I as [H1 H2 H3 H4]. by split. }
  pose proof (ci_wait _ I Hw) as Ar. unfold arming in Ar. apply idle_inv.
  destruct (v2_active (s_v2 c)) eqn:F1; [|destruct (lc_active (s_lac c)) eqn:F2; [|destruct (dc_active (s_dual c)) eqn:F4; [|done]]].
  - destruct (only_v2 c I F1) as (G1 & G2 & G3 & G4 & _ & Gb). rewrite G1, G3 in Ar. injection Ar as Ar.
    apply (idle_core (v2_off (wait_off c))); [|apply idle_off; done].
    cbn -[str la_trigger_timeout_msg release send_error]. rewrite F1, Ar, Z.eqb_refl. cbn -[str la_trigger_timeout_msg release send_error]. rewrite G1. cbn -[str la_trigger_timeout_msg release send_error]. by rewrite G3.
  - destruct (only_la c I F2) as (G1 & G2 & G3 & G4 & _ & Gb). rewrite G3 in Ar. injection Ar as Ar.
    apply (idle_core (la_off (wait_off c))); [|apply idle_off; done].
    cbn -[str la_trigger_timeout_msg release send_error]. rewrite F1. cbn -[str la_trigger_timeout_msg release send_error]. rewrite F2, Ar, Z.eqb_refl. cbn -[str la_trigger_timeout_msg release send_error]. by rewrite G3.
  - destruct (only_dual c I F4) as (G1 & G2 & G3 & G4 & _ & Gb). injection Ar as Ar.
    apply (idle_core (dual_off (wait_off c))); [|apply idle_off; done].
    cbn -[str la_trigger_timeout_msg release send_error]. rewrite F1. cbn -[str la_trigger_timeout_msg release send_error]. rewrite F2. cbn -[str la_trigger_timeout_msg release send_error]. by rewrite F4, Ar, Z.eqb_refl.
Qed.

Lemma inv_v2 p c : cap_inv c -> cap_inv (poll_v2 p c).
Proof.
  intros I. unfold poll_v2. cbn zeta. destruct (v2_active (s_v2 c)) eqn:F1; cbn [negb]; [|done]. destruct (p_adc p) as [r buf].
  destruct (only_v2 c I F1) as (G2 & G3 & G4 & G5 & Gc & Gb). destruct (r =? 0); [by eapply inv_core; [|exact I]|].
  set (c0 := {| s_v2 := s_v2 c |}). destruct (trigger_done_core (p_fired' p) c0) as (T1 & T2 & T3 & T4 & T5 & T6 & T7 & T8 & _).
  set (c1 := if_ _ _ _). assert (core c1 = core (v2_off (capture_trigger_done (p_fired' p) c0))) as (E1 & E2 & E3 & E4 & E5 & E6 & E7 & E8)%core_eqs by apply if_dac.
  cbn in E1, E2, E3, E4, E5, E6, E7, E8. rewrite T2 in E1. rewrite T3 in E2. rewrite T4 in E3. rewrite T5 in E4. rewrite T6 in E5. rewrite T7 in E7. rewrite T8 in E8. cbn in E1, E2, E3, E4, E5, E7, E8.
  destruct (0 <? r).
  - eapply inv_bulk; cbn; rewrite ?E1, ?E2, ?E3, ?E4, ?E6, ?E7, ?E8; try done.
  - apply idle_inv. eapply idle_core; [|apply (idle_off c1)]; rewrite ?E1, ?E2, ?E3, ?E4, ?E5, ?E6, ?E8; done.
Qed.

(** The state in which a finished capture is dealt with. *)
Ltac done_state E T := cbn in E; rewrite ?T in E; cbn in E.

Lemma inv_scan_begin c conn n k pre la_hz region adc_n adc_hz w64 :
  v2_active (s_v2 c) = false -> lc_active (s_lac c) = false -> dc_active (s_dual c) = false -> active (s_bulk c) = false -> tw_active (s_wait c) = false ->
  heavy_owner c = conn -> bus c = 1 -> cap_inv (scan_begin conn n k pre la_hz region adc_n adc_hz w64 c).
Proof.
  intros F1 F2 F4 F5 Hw Ho Hb. split; unfold ops, holds, arming; cbn; rewrite ?F1, ?F2, ?F4, ?F5; try done; [by right; rewrite Ho|congruence].
Qed.

Lemma inv_la p c : cap_inv c -> cap_inv (poll_la p c).
Proof.
  intros I. unfold poll_la. cbn zeta. destruct (lc_active (s_lac c)) eqn:F2; cbn [negb]; [|done].
  destruct (only_la c I F2) as (G1 & G3 & G4 & G5 & Gc & Gb).
  destruct (Z.eqb_spec (p_la_wait p) 0) as [->|Hr]; [exact I|].
  set (c0 := if_ (0 <? p_la_wait p) _ c). assert (engines c0 = (s_v2 c, s_lac c, s_scan c, s_dual c, s_bulk c, tw_active (s_wait c), if 0 <? p_la_wait p then 1 else 0) /\ heavy_owner c0 = heavy_owner c) as [E0 O0].
  { unfold c0. destruct (0 <? p_la_wait p); unfold engines; cbn; rewrite Gb; done. }
  injection E0 as A1 A2 A3 A4 A5 A6 A7. clearbody c0.
  destruct (trigger_done_core (p_fired' p) c0) as (T1 & T2 & T3 & T4 & T5 & T6 & T7 & T8 & _).
  set (c1 := if_ _ _ _). assert (core c1 = core (la_off (capture_trigger_done (p_fired' p) c0))) as (E1 & E2 & E3 & E4 & E5 & E6 & E7 & E8)%core_eqs by apply if_dac.
  cbn in E1, E2, E3, E4, E5, E6, E7, E8. rewrite T2, A1 in E1. rewrite T3, A2 in E2. rewrite T4, A3 in E3. rewrite T5, A4 in E4. rewrite T6, A5 in E5. rewrite T7, O0 in E7. rewrite T8, A7 in E8. clearbody c1.
  destruct (0 <? p_la_wait p) eqn:Hp; cbn [andb].
  - destruct (negb _).
    + apply inv_scan_begin; rewrite ?E1, ?E2, ?E4, ?E5, ?E6, ?E7, ?E8; try done.
    + eapply inv_bulk; cbn; rewrite ?E1, ?E2, ?E3, ?E4, ?E6, ?E7, ?E8; try done.
  - apply idle_inv. eapply idle_core; [|apply (idle_off c1)]; rewrite ?E1, ?E2, ?E3, ?E4, ?E5, ?E6, ?E8; done.
Qed.

Lemma inv_dual p c : cap_inv c -> cap_inv (poll_dual p c).
Proof.
  intros I. unfold poll_dual. cbn zeta. destruct (dc_active (s_dual c)) eqn:F4; cbn [negb]; [|done].
  destruct (only_dual c I F4) as (G1 & G2 & G3 & G5 & Gc & Gb).
  destruct (Z.eqb_spec (p_dual_wait p) 0) as [->|Hr]; [exact I|].
  set (c0 := if_ (0 <? p_dual_wait p) _ c). assert (engines c0 = (s_v2 c, s_lac c, s_scan c, s_dual c, s_bulk c, tw_active (s_wait c), if 0 <? p_dual_wait p then 1 else 0) /\ heavy_owner c0 = heavy_owner c) as [E0 O0].
  { unfold c0. destruct (0 <? p_dual_wait p); unfold engines; cbn; rewrite Gb; done. }
  injection E0 as A1 A2 A3 A4 A5 A6 A7. clearbody c0.
  destruct (trigger_done_core (p_fired' p) c0) as (T1 & T2 & T3 & T4 & T5 & T6 & T7 & T8 & _).
  set (c1 := if_ _ _ _). assert (core c1 = core (dual_off (capture_trigger_done (p_fired' p) c0))) as (E1 & E2 & E3 & E4 & E5 & E6 & E7 & E8)%core_eqs by apply if_dac.
  cbn in E1, E2, E3, E4, E5, E6, E7, E8. rewrite T2, A1 in E1. rewrite T3, A2 in E2. rewrite T4, A3 in E3. rewrite T5, A4 in E4. rewrite T6, A5 in E5. rewrite T7, O0 in E7. rewrite T8, A7 in E8. clearbody c1.
  destruct (0 <? p_dual_wait p) eqn:Hp; cbn [andb].
  - destruct (_ && p_sentinel p); [|destruct (negb (dc_chg_k _ =? 0) && _)].
    + apply idle_inv. eapply (idle_core (fpga_capture_psram_release c1)); [done|]. apply idle_off; cbn; rewrite ?E1, ?E2, ?E3, ?E4, ?E5, ?E6, ?E8; done.
    + apply inv_scan_begin; rewrite ?E1, ?E2, ?E4, ?E5, ?E6, ?E7, ?E8; try done.
    + eapply inv_bulk; cbn; rewrite ?E1, ?E2, ?E3, ?E4, ?E6, ?E7, ?E8; try done.
  - apply idle_inv. eapply idle_core; [|apply (idle_off c1)]; rewrite ?E1, ?E2, ?E3, ?E4, ?E5, ?E6, ?E8; done.
Qed.

Lemma inv_poll p c : cap_inv c -> cap_inv (capture_poll p c).
Proof.
  intros I. unfold capture_poll. apply inv_pump, inv_dual. apply (inv_trigger p), (inv_v2 p), (inv_la p) in I.
  destruct (sc_active (s_scan _)) eqn:E; [by apply inv_chgscan|done].
Qed.

(** ** Closing and commands *)

(** What [command_handler_conn_closed] does here: the capture's part, then the gate. *)
Definition conn_closed (conn : Z) (c : cap_t) : cap_t := release conn (capture_conn_closed conn c).

Lemma idle_closed conn c : idle c -> idle (conn_closed conn c).
Proof.
  intros (H1 & H2 & H3). destruct (ops_flags c H1) as (F1 & F2 & F3 & F4 & F5).
  apply (idle_core c); [|by split_and!]. unfold conn_closed, capture_conn_closed, close_captures, close_scan, close_bulk, close_wait, waits_on.
  rewrite F1, F2, F4. cbn. rewrite F3. cbn. rewrite F5. cbn. by rewrite H3.
Qed.

Lemma waiting_conn c : cap_inv c -> tw_active (s_wait c) = true -> tw_conn (s_wait c) ∈ ops c.
Proof.
  intros I W. assert (tw_conn (s_wait c) ∈ arming c) as Hin by (rewrite (ci_wait _ I W); by left).
  unfold arming in Hin. unfold ops. rewrite !elem_of_app in Hin. rewrite !elem_of_app. naive_solver.
Qed.

(** A close of somebody else's connection touches nothing but the gate it does not have. *)
Lemma closed_other conn c : cap_inv c -> conn <> heavy_owner c -> core (conn_closed conn c) = core c.
Proof.
  intros I Hn.
  assert (forall x, x ∈ ops c -> (x =? conn) = false) as K by (intros x Hx; destruct (inv_conns c I x Hx); apply Z.eqb_neq; congruence).
  assert (forall (b : bool) (x : Z), (b = true -> x ∈ ops c) -> b && (x =? conn) = false) as N by (intros [] x Hx; [by apply K, Hx|done]).
  unfold conn_closed, capture_conn_closed, close_captures, close_scan, close_bulk, close_wait, waits_on. cbn zeta.
  assert (forall l, l ∈ ops c -> True) as _ by done.
  rewrite (N (v2_active _)), (N (lc_active _)), (N (dc_active _)) by (intros F; unfold ops; rewrite F; set_solver). cbn [if_ orb andb].
  rewrite (N (sc_active _)) by (intros F; unfold ops; rewrite F; set_solver).
  rewrite (N (active _)) by (intros F; unfold ops; rewrite F; set_solver).
  rewrite (N (tw_active _)) by (apply waiting_conn, I).
  unfold core. cbn. unfold heavy_release. destruct (Z.eqb_spec (heavy_owner c) conn); congruence.
Qed.

(** The owner's close ends its operation and frees the bus and the gate. *)
Lemma wait_gone conn c : (tw_active (s_wait c) = true -> tw_conn (s_wait c) = conn) -> engines (close_wait conn c) = (s_v2 c, s_lac c, s_scan c, s_dual c, s_bulk c, false, bus c).
Proof.
  intros H. unfold close_wait, waits_on. destruct (tw_active (s_wait c)) eqn:E; cbn [andb].
  - by rewrite H, Z.eqb_refl.
  - unfold engines. by rewrite E.
Qed.
Lemma fabric_engines conn b c : (tw_active (s_wait c) = true -> tw_conn (s_wait c) = conn) ->
  engines (close_fabric conn b c) = (s_v2 c, s_lac c, s_scan c, s_dual c, s_bulk c, false, bus c).
Proof.
  intros H. unfold close_fabric, waits_on. cbn zeta. cbn [fpga_capture_abort put s_wait].
  destruct (tw_active (s_wait c)) eqn:E; cbn [andb].
  - rewrite H, Z.eqb_refl by done. by destruct b.
  - unfold engines. destruct b; cbn; by rewrite E.
Qed.
Lemma idle_of v l s d b w n c :
  engines c = (v, l, s, d, b, w, n) -> v2_active v = false -> lc_active l = false -> sc_active s = false -> dc_active d = false -> active b = false -> w = false -> n = 0 -> idle c.
Proof. intros [= ? ? ? ? ? ? ?]. intros. subst. by apply idle_off. Qed.

Lemma closed_own c conn : cap_inv c -> ops c = [conn] -> idle (conn_closed conn c).
Proof.
  intros I Ho.
  assert (tw_active (s_wait c) = true -> tw_conn (s_wait c) = conn) as Hw.
  { intros W. pose proof (waiting_conn c I W) as Hin. rewrite Ho in Hin. by apply list_elem_of_singleton in Hin. }
  apply (idle_core (capture_conn_closed conn c)); [done|]. unfold capture_conn_closed, close_captures, close_scan. cbn zeta.
  assert (forall x, v2_active (s_v2 x) = false -> lc_active (s_lac x) = false -> sc_active (s_scan x) = false -> dc_active (s_dual x) = false -> active (s_bulk x) = false ->
    bus x = 0 -> s_wait x = s_wait c -> forall b, idle (close_wait conn (close_bulk conn (close_fabric conn b x)))) as Owned.
  { intros x F1 F2 F3 F4 F5 Fb Fw b. pose proof (fabric_engines conn b x) as E. rewrite Fw in E. specialize (E Hw).
    injection E as E1 E2 E3 E4 E5 E6 E7. unfold close_bulk. rewrite E5, F5. cbn [andb].
    eapply idle_of; [apply wait_gone; congruence|..]; congruence. }
  destruct (v2_active (s_v2 c)) eqn:F1; [|destruct (lc_active (s_lac c)) eqn:F2; [|destruct (dc_active (s_dual c)) eqn:F4; [|destruct (sc_active (s_scan c)) eqn:F3; [|destruct (active (s_bulk c)) eqn:F5]]]].
  - destruct (only_v2 c I F1) as (G2 & G3 & G4 & G5 & _ & Gb). unfold ops in Ho. rewrite F1, G2, G3, G4, G5 in Ho. injection Ho as Ho.
    rewrite Ho, Z.eqb_refl, G2, G4. cbn. rewrite G3. cbn. by apply Owned.
  - destruct (only_la c I F2) as (_ & G3 & G4 & G5 & _ & Gb). unfold ops in Ho. rewrite F1, F2, G3, G4, G5 in Ho. injection Ho as Ho.
    rewrite Ho, Z.eqb_refl, G4. cbn. rewrite G3. cbn. by apply Owned.
  - destruct (only_dual c I F4) as (_ & _ & G3 & G5 & _ & Gb). unfold ops in Ho. rewrite F1, F2, F4, G3, G5 in Ho. injection Ho as Ho.
    rewrite Ho, Z.eqb_refl. cbn. rewrite G3. cbn. by apply Owned.
  - destruct (scan_alone c I F3) as ((_ & _ & _ & G5) & _ & Gb & Gw). unfold ops in Ho. rewrite F1, F2, F3, F4, G5 in Ho. injection Ho as Ho.
    cbn. rewrite F3, Ho, Z.eqb_refl. cbn. unfold close_bulk. cbn. rewrite G5. cbn.
    eapply idle_of; [apply wait_gone|..]; try done; cbn; lia.
  - destruct (only_bulk c I F5) as (_ & _ & _ & _ & _ & Gb & Gw). unfold ops in Ho. rewrite F1, F2, F3, F4, F5 in Ho. injection Ho as Ho.
    cbn. rewrite F3. cbn. unfold close_bulk. rewrite F5, Ho, Z.eqb_refl. cbn [andb].
    eapply idle_of; [apply wait_gone; destruct (from_psram (s_bulk c)); done|..]; destruct (from_psram (s_bulk c)); cbn; try done; lia.
  - exfalso. unfold ops in Ho. by rewrite F1, F2, F3, F4, F5 in Ho.
Qed.

Lemma inv_closed conn c : cap_inv c -> cap_inv (conn_closed conn c).
Proof.
  intros I. destruct (decide (conn = heavy_owner c)) as [->|Hn].
  - destruct (ci_ops _ I) as [Ho|Ho]; apply idle_inv; [by apply idle_closed, inv_idle|by apply closed_own].
  - eapply inv_core; [by apply closed_other|done].
Qed.

Lemma inv_gw_reload c : cap_inv c -> cap_inv (capture_on_gateware_reconfigured c).
Proof. intros [H1 H2 H3 H4]. by split. Qed.

Lemma trigger_begin_core m conn json pre c c' t : capture_trigger_begin m conn json pre c = (c', t) -> core c' = core c.
Proof. unfold capture_trigger_begin. repeat case_match; by intros [= <- _]. Qed.
Lemma cancel_core t c : core (capture_trigger_cancel t c) = core c.
Proof. unfold capture_trigger_cancel. by case_match. Qed.
Lemma begin_heavy_cases m conn c c' b : begin_heavy m conn c = (c', b) -> cap_inv c ->
  if b then idle c' /\ heavy_owner c' = conn /\ engines c' = engines c else core c' = core c.
Proof.
  unfold begin_heavy, heavy_begin, heavy_try_claim. intros H I. destruct (capture_busy c || am_other m) eqn:E; [by injection H as <- <-|].
  apply orb_false_iff in E as [E _]. apply busy_ops in E. destruct (_ && _); injection H as <- <-; [done|].
  split_and!; [|done|done]. eapply idle_core; [|by apply inv_idle]. done.
Qed.
(** A failed start gives the gate back. *)
Lemma inv_failed conn x c : idle c -> core x = core (release conn c) -> cap_inv x.
Proof.
  intros Hi E. apply idle_inv. eapply idle_core; [|exact Hi]. apply core_eqs in E as (E1 & E2 & E3 & E4 & E5 & E6 & E7 & E8).
  unfold engines. by rewrite E1, E2, E3, E4, E5, E6, E8.
Qed.
Lemma armed_engines m conn t c : idle c -> 
  let x := capture_trigger_armed m conn t c in
  ops x = [] /\ bus x = 0 /\ heavy_owner x = heavy_owner c /\ (tw_active (s_wait x) = true -> tw_conn (s_wait x) = conn) /\ s_v2 x = s_v2 c /\ s_lac x = s_lac c /\ s_scan x = s_scan c /\ s_dual x = s_dual c /\
  s_bulk x = s_bulk c.
Proof. intros (H1 & H2 & H3). unfold capture_trigger_armed. destruct (negb _); cbn; split_and!; try done. by rewrite H3. Qed.

(** The three captures, armed. *)
Lemma inv_armed_v2 m conn t n b w c : idle c -> heavy_owner c = conn -> cap_inv {| (last_off (capture_trigger_armed m conn t c)) with s_v2 := V2cap true conn n b w |}.
Proof.
  intros Hi Ho. destruct (armed_engines m conn t c Hi) as (H1 & H2 & H3 & H4 & _). set (x := capture_trigger_armed m conn t c) in *.
  destruct (ops_flags x H1) as (F1 & F2 & F3 & F4 & F5).
  split; unfold ops, holds, arming; cbn; rewrite ?F2, ?F3, ?F4, ?F5; [right; cbn; congruence|done|done|]. intros W. cbn. by rewrite H4.
Qed.
Lemma inv_armed_la m conn t n b r k pre c : idle c -> heavy_owner c = conn -> cap_inv {| (last_off (capture_trigger_armed m conn t c)) with s_lac := Lacap true conn n b r k pre |}.
Proof.
  intros Hi Ho. destruct (armed_engines m conn t c Hi) as (H1 & H2 & H3 & H4 & _). set (x := capture_trigger_armed m conn t c) in *.
  destruct (ops_flags x H1) as (F1 & F2 & F3 & F4 & F5).
  split; unfold ops, holds, arming; cbn; rewrite ?F1, ?F3, ?F4, ?F5; [right; cbn; congruence|done|done|]. intros W. cbn. by rewrite H4.
Qed.
Lemma inv_armed_dual m conn t a l ra rl b w k c : idle c -> heavy_owner c = conn -> cap_inv {| (last_off (capture_trigger_armed m conn t c)) with s_dual := Dualcap true conn a l ra rl b w k |}.
Proof.
  intros Hi Ho. destruct (armed_engines m conn t c Hi) as (H1 & H2 & H3 & H4 & _). set (x := capture_trigger_armed m conn t c) in *.
  destruct (ops_flags x H1) as (F1 & F2 & F3 & F4 & F5).
  split; unfold ops, holds, arming; cbn; rewrite ?F1, ?F2, ?F3, ?F5; [right; cbn; congruence|done|done|]. intros W. cbn. by rewrite H4.
Qed.
Lemma armed_none m conn c : capture_trigger_armed m conn no_trigger c = c.
Proof. done. Qed.
Lemma inv_dense now conn n w c : idle c -> heavy_owner c = conn -> cap_inv (bulk_begin now conn n w c).
Proof.
  intros (H1 & H2 & H3) Ho. destruct (ops_flags c H1) as (F1 & F2 & F3 & F4 & F5).
  eapply inv_bulk; done.
Qed.

Ltac heavy I := match goal with |- context [begin_heavy ?m ?conn ?c] => let E := fresh "E" in destruct (begin_heavy m conn c) as [c' []] eqn:E; (apply begin_heavy_cases in E; [|exact I]) end.

Lemma inv_capture m conn json c : cap_inv c -> cap_inv (handle_capture m conn json c).
Proof.
  intros I. unfold handle_capture. cbn zeta. destruct (_ || _); [by apply (inv_core c)|].
  destruct (capture_trigger_begin m conn json false c) as [c1 [t|]] eqn:E1; apply trigger_begin_core in E1; [|by apply (inv_core c)].
  assert (cap_inv c1) as I1 by (by apply (inv_core c)). heavy I1.
  - destruct E as (Hi & Ho & _). destruct (negb _); [eapply (inv_failed conn); [exact Hi|]; exact (cancel_core t _)|].
    by apply (inv_armed_v2 m conn t _ _ _ (dirty_all (am_dirty m) c')).
  - eapply inv_core; [|exact I1]. etransitivity; [apply cancel_core|exact E].
Qed.
Lemma inv_stream m conn json c : cap_inv c -> cap_inv (handle_stream m conn json c).
Proof.
  intros I. unfold handle_stream. cbn zeta. destruct (_ || _); [by apply (inv_core c)|]. heavy I; [|by apply (inv_core c)].
  destruct E as (Hi & Ho & _). destruct (negb _); [by eapply inv_failed|]. by apply (inv_armed_v2 m conn no_trigger _ _ _ (dirty_all (am_dirty m) c')).
Qed.
Lemma inv_measure m conn json c : cap_inv c -> cap_inv (handle_measure m conn json c).
Proof.
  intros I. unfold handle_measure. cbn zeta. destruct (streq _ []); [by apply (inv_core c)|]. destruct (_ && _); [by apply (inv_core c)|]. destruct (_ || _); [by apply (inv_core c)|]. heavy I; [|by apply (inv_core c)].
  destruct E as (Hi & Ho & _). destruct (negb _); [by eapply inv_failed|]. by apply (inv_armed_v2 m conn no_trigger _ _ _ (dirty_all (am_dirty m) c')).
Qed.
Lemma inv_capture_dual m conn json c : cap_inv c -> cap_inv (handle_capture_dual m conn json c).
Proof.
  intros I. unfold handle_capture_dual. cbn zeta. destruct (_ && _); [by apply (inv_core c)|]. destruct (dual_layout _ _ _ _) as [adc_b|]; [|by apply (inv_core c)].
  destruct (capture_trigger_begin m conn json false c) as [c1 [t|]] eqn:E1; apply trigger_begin_core in E1; [|by apply (inv_core c)].
  assert (cap_inv c1) as I1 by (by apply (inv_core c)). heavy I1.
  - destruct E as (Hi & Ho & _). set (c2 := dirty_all _ _).
    assert (idle c2 /\ heavy_owner c2 = conn) as [Hi2 Ho2] by (unfold c2, fpga_set_capture_bases; destruct (_ && _); done). clearbody c2.
    destruct (negb _); [eapply (inv_failed conn); [exact Hi2|]; exact (cancel_core t _)|]. by apply inv_armed_dual.
  - eapply inv_core; [|exact I1]. etransitivity; [apply cancel_core|exact E].
Qed.
Lemma inv_la_capture m conn json c : cap_inv c -> cap_inv (handle_la_capture m conn json c).
Proof.
  intros I. unfold handle_la_capture. cbn zeta. destruct (negb (am_la_voltage m)); [by apply (inv_core c)|]. destruct (_ || _); [by apply (inv_core c)|].
  destruct (capture_trigger_begin m conn json true c) as [c1 [t|]] eqn:E1; apply trigger_begin_core in E1; [|by apply (inv_core c)].
  assert (cap_inv c1) as I1 by (by apply (inv_core c)). heavy I1.
  - destruct E as (Hi & Ho & _). set (c2 := dirty_all _ _). assert (idle c2 /\ heavy_owner c2 = conn) as [Hi2 Ho2] by done. clearbody c2.
    destruct (negb (am_start m =? 0)); [eapply (inv_failed conn); [exact Hi2|]; exact (cancel_core t _)|]. by apply inv_armed_la.
  - eapply inv_core; [|exact I1]. etransitivity; [apply cancel_core|exact E].
Qed.
Lemma inv_capture_read m conn json c : cap_inv c -> cap_inv (handle_capture_read m conn json c).
Proof.
  intros I. unfold handle_capture_read. cbn zeta. destruct (negb _); [by apply (inv_core c)|]. destruct (psram_regions_stale _); [by apply (inv_core c)|].
  destruct (_ <? _); [by apply (inv_core c)|]. heavy I; [|by apply (inv_core c)]. destruct E as (Hi & Ho & _). destruct (_ =? _).
  { by eapply (inv_failed conn). }
  destruct Hi as (H1 & H2 & H3). destruct (ops_flags c' H1) as (F1 & F2 & F3 & F4 & F5). eapply inv_bulk; try done. cbn. by rewrite H2.
Qed.
Lemma inv_test m conn json c : cap_inv c -> cap_inv (handle_test m conn json c).
Proof.
  intros I. unfold handle_test. cbn zeta. destruct (_ || _); [by apply (inv_core c)|]. heavy I; [|by apply (inv_core c)]. destruct E as (Hi & Ho & _).
  destruct (test_pattern _ _ _ _ 0); [|by eapply inv_failed]. eapply inv_on; [by apply set_bulk_on|by apply inv_dense].
Qed.
Lemma inv_sensor_bytes m conn n msg c : cap_inv c -> cap_inv (sensor_bytes m conn n msg c).
Proof.
  intros I. unfold sensor_bytes. heavy I; [|by apply (inv_core c)]. destruct E as (Hi & Ho & _). destruct (am_sensor m); [|by eapply inv_failed]. by apply inv_dense.
Qed.

(** ** Any run *)

(** [CGate]: another command of the hw worker takes the gate for itself and gives it back. *)
Inductive cap_op :=
| CCapture (m : arm_t) (conn : Z) (json : cstr) | CStream (m : arm_t) (conn : Z) (json : cstr) | CMeasure (m : arm_t) (conn : Z) (json : cstr)
| CDual (m : arm_t) (conn : Z) (json : cstr) | CLa (m : arm_t) (conn : Z) (json : cstr) | CRead (m : arm_t) (conn : Z) (json : cstr) | CTest (m : arm_t) (conn : Z) (json : cstr)
| CSensorRegs (m : arm_t) (on : bool) (conn : Z) (json : cstr) | CSensorLa (m : arm_t) (conn : Z) (json : cstr)
| CPoll (p : poll_t) | CClosed (conn : Z) | CReconfigured | CClaim (m : arm_t) (conn : Z) | CRelease (conn : Z).
Definition cap_do (o : cap_op) (c : cap_t) : cap_t :=
  match o with
  | CCapture m conn json => handle_capture m conn json c
  | CStream m conn json => handle_stream m conn json c
  | CMeasure m conn json => handle_measure m conn json c
  | CDual m conn json => handle_capture_dual m conn json c
  | CLa m conn json => handle_la_capture m conn json c
  | CRead m conn json => handle_capture_read m conn json c
  | CTest m conn json => handle_test m conn json c
  | CSensorRegs m on conn json => handle_sensor_regs m on conn json c
  | CSensorLa m conn json => handle_sensor_la m conn json c
  | CPoll p => capture_poll p c
  | CClosed conn => conn_closed conn c
  | CReconfigured => capture_on_gateware_reconfigured c
  | CClaim m conn => fst (begin_heavy m conn c)
  | CRelease conn => if capture_busy c then c else release conn c
  end.
Definition cap0 : cap_t :=
  Cap (V2cap false 0 0 false false) (Lacap false 0 0 false 0 0 0) (Chgscan false 0 0 0 0 0 0 0 0 false false 0 0 0 false) (Dualcap false 0 0 0 0 0 false false 0) (LastCap false 0 0 0 0)
    bulk0 (Trigwait false 0 no_trigger 0 0 false) (TrigReply false no_trigger false) (-1) 0 (replicate (Z.to_nat ADC_MONO_BUF_SAMPLES) 0) [] regions_init 0 FPGA_PSRAM_ADC_BASE [].
Definition cap_run (l : list cap_op) : cap_t := fold_left (fun c o => cap_do o c) l cap0.

Lemma inv_cap_do o c : cap_inv c -> cap_inv (cap_do o c).
Proof.
  intros I. destruct o; cbn [cap_do].
  - by apply inv_capture.
  - by apply inv_stream.
  - by apply inv_measure.
  - by apply inv_capture_dual.
  - by apply inv_la_capture.
  - by apply inv_capture_read.
  - by apply inv_test.
  - unfold handle_sensor_regs. cbn zeta. destruct (negb on); [by apply (inv_core c)|]. destruct (negb _); [by apply (inv_core c)|]. by apply inv_sensor_bytes.
  - unfold handle_sensor_la. cbn zeta. destruct (_ || _); [by apply (inv_core c)|]. by apply inv_sensor_bytes.
  - by apply inv_poll.
  - by apply inv_closed.
  - by apply inv_gw_reload.
  - destruct (begin_heavy m conn c) as [c' b] eqn:E. cbn [fst]. apply begin_heavy_cases in E; [|exact I].
    destruct b; [by apply idle_inv; destruct E|by apply (inv_core c)].
  - destruct (capture_busy c) eqn:E; [done|]. apply busy_ops in E. apply idle_inv. by apply (idle_core c); [|apply inv_idle].
Qed.
Lemma inv_cap_run l : cap_inv (cap_run l).
Proof.
  unfold cap_run. assert (cap_inv cap0) as H by (by apply idle_inv). revert H. generalize cap0.
  induction l as [|o l IH]; intros c I; cbn [fold_left]; [done|]. apply IH. by apply inv_cap_do.
Qed.


(** C40: a client that goes away takes its capture with it: when its connection closes nothing of
    it is left active, the bus is free and no trigger is pending, and the gate is not its own;
    a close of any other connection leaves the capture, its trigger, the bus and the gate
    as they are. *)
Theorem closed_conn_frees l conn :
  let c := cap_run l in
  let c' := cap_do (CClosed conn) c in
  (conn ∉ ops c') /\ (conn <> -1 -> heavy_owner c' <> conn) /\
  (heavy_owner c = conn -> ops c' = [] /\ bus c' = 0 /\ tw_active (s_wait c') = false) /\
  (heavy_owner c <> conn -> core c' = core c).
Proof.
  cbn zeta. pose proof (inv_cap_run l) as I. set (c := cap_run l) in *. clearbody c. cbn [cap_do].
  assert (heavy_owner c = conn -> idle (conn_closed conn c)) as Own.
  { intros <-. destruct (ci_ops _ I); [by apply idle_closed, inv_idle|by apply closed_own]. }
  assert (heavy_owner c <> conn -> core (conn_closed conn c) = core c) as Other by (intros; apply closed_other; [done|congruence]).
  split_and!; [|..|exact Own|exact Other].
  - intros Hin. destruct (decide (heavy_owner c = conn)) as [Ho|Ho].
    + destruct (Own Ho) as (E & _). rewrite E in Hin. by apply not_elem_of_nil in Hin.
    + destruct (inv_conns _ (inv_closed conn c I) _ Hin) as [E _]. pose proof Ho as Hn. apply Other, core_eqs in Ho as (_ & _ & _ & _ & _ & _ & E7 & _). congruence.
  - intros Hm. unfold conn_closed, release, heavy_release. cbn. case_match; lia.
Qed.
