(* ===== verification/CaptureRead.v ===== *)
(** * The read-back gives the client the captured samples

    The client side is [received]: dense frames append samples (decimal or base64), an edge
    frame says from which index on the LA word has a new value, and up to where it is known. *)

From S2P Require Import Prelude Json B64 CmdGate LaPins PsramRegions Capture.

(** ** What a client makes of the frames *)

Record client_t := Client { k_data : list Z; k_edges : list (Z * Z); k_upto : option Z }.
Definition client0 : client_t := Client [] [] None.
Definition take_frame (k : client_t) (f : frame) : client_t :=
  match f_body f with
  | BData l => {| k with k_data := k_data k ++ l |}
  | BB64 t => {| k with k_data := k_data k ++ words (default [] (decode_loop t)) |}
  | BEdges es upto => {| k with k_edges := k_edges k ++ es; k_upto := Some upto |}
  end.
Definition received (fs : list frame) : client_t := fold_left take_frame fs client0.
(** The word at an index: the last edge at or before it. *)
Definition val_from (v : Z) (es : list (Z * Z)) (i : Z) : Z := fold_left (fun v e => if fst e <=? i then snd e else v) es v.
Definition last_at (es : list (Z * Z)) (i : Z) : Z := val_from (-1) es i.

Lemma received_snoc fs f : received (fs ++ [f]) = take_frame (received fs) f.
Proof. unfold received. by rewrite fold_left_app. Qed.
Lemma val_app v es1 es2 i : val_from v (es1 ++ es2) i = val_from (val_from v es1 i) es2 i.
Proof. unfold val_from. by rewrite fold_left_app. Qed.
Lemma val_later v es i : Forall (fun e => i < fst e) es -> val_from v es i = v.
Proof. unfold val_from. induction 1 as [|e es He _ IH]; [done|]. cbn [fold_left]. rewrite (proj2 (Z.leb_gt _ _)) by lia. exact IH. Qed.
Lemma val_after v es i j : Forall (fun e => fst e <= i) es -> i <= j -> val_from v es j = val_from v es i.
Proof.
  intros H Hj. unfold val_from. revert v. induction H as [|e es He _ IH]; intros v; [done|]. cbn [fold_left].
  rewrite !(proj2 (Z.leb_le _ _)) by lia. apply IH.
Qed.

(** ** Words in memory *)

Definition word_at (mem : Z -> Z) (a : Z) : Z := mem a + 256 * mem (a + 1).
Definition words_at (mem : Z -> Z) (a : Z) (n : nat) : list Z := map (fun i => word_at mem (a + 2 * Z.of_nat i)) (seq 0 n).
Lemma words_at_length mem a n : length (words_at mem a n) = n.
Proof. unfold words_at. by rewrite length_map, length_seq. Qed.
Lemma words_at_lookup mem a n i : (i < n)%nat -> words_at mem a n !! i = Some (word_at mem (a + 2 * Z.of_nat i)).
Proof. intros H. unfold words_at. rewrite list_lookup_fmap, lookup_seq_lt by done. done. Qed.
Lemma words_at_app mem a n m : words_at mem a (n + m) = words_at mem a n ++ words_at mem (a + 2 * Z.of_nat n) m.
Proof.
  unfold words_at. rewrite seq_app, map_app. f_equal. rewrite Nat.add_0_l. replace (seq n m) with (seq (n + 0) m) by (f_equal; lia). rewrite <- fmap_add_seq. change (Nat.add n <$> seq 0 m) with (map (Nat.add n) (seq 0 m)). rewrite map_map.
  apply map_ext. intros i. f_equal. lia.
Qed.
Lemma words_at_cons mem a n : words_at mem a (S n) = word_at mem a :: words_at mem (a + 2) n.
Proof.
  change (S n) with (1 + n)%nat. rewrite words_at_app. change (words_at mem a 1) with [word_at mem (a + 2 * Z.of_nat 0)]. cbn [app]. apply (f_equal2 cons); f_equal; lia.
Qed.
Lemma bytes_at_cons f a n : bytes_at f a (S n) = f a :: bytes_at f (a + 1) n.
Proof. change (S n) with (1 + n)%nat. rewrite bytes_at_app. change (bytes_at f a 1) with [f (a + Z.of_nat 0)]. cbn [app]. apply (f_equal2 cons); f_equal; lia. Qed.
Lemma words_bytes mem a n : words (bytes_at mem a (2 * n)) = words_at mem a n.
Proof.
  revert a. induction n as [|n IH]; intros a; [done|]. replace (2 * S n)%nat with (S (S (2 * n))) by lia. rewrite !bytes_at_cons, words_at_cons.
  cbn [words]. rewrite <- IH. f_equal. do 2 f_equal. lia.
Qed.

Section Mem.
Context (mem : Z -> Z) (Hmem : forall a, byte_ok (mem a)).

Definition reads_ok (a : ans_t) : Prop := forall addr n l, a_read a addr n = Some l -> l = bytes_at mem addr n.

Lemma word_range a : 0 <= word_at mem a < 65536.
Proof. unfold word_at. pose proof (Hmem a) as H0. pose proof (Hmem (a + 1)) as H1. unfold byte_ok in *. lia. Qed.
Lemma words_at_range a n : Forall (fun w => 0 <= w < 65536) (words_at mem a n).
Proof. unfold words_at. apply Forall_map, Forall_forall. intros. apply word_range. Qed.

Lemma words_le l : Forall (fun w => 0 <= w < 65536) l -> words (flat_map (le 2) l) = l.
Proof.
  induction 1 as [|w l Hw _ IH]; [done|]. change (flat_map (le 2) (w :: l)) with (w mod 256 :: (w / 256) mod 256 :: flat_map (le 2) l). cbn [words]. rewrite IH. f_equal.
  rewrite (Z.mod_small (w / 256)) by (split; [apply Z.div_pos|apply Z.div_lt_upper_bound]; lia). pose proof (Z.div_mod w 256). lia.
Qed.
Lemma flat_le_bytes l : bytes_ok (flat_map (le 2) l).
Proof. induction l as [|w l IH]; [constructor|]. cbn [flat_map]. apply bytes_ok_app. split; [apply le_bytes|exact IH]. Qed.
Lemma b64_words l : Forall (fun w => 0 <= w < 65536) l -> words (default [] (decode_loop (encode_loop (flat_map (le 2) l)))) = l.
Proof. intros H. rewrite decode_encode_loop by apply flat_le_bytes. cbn [default]. by apply words_le. Qed.
Lemma dense_received b l k : Forall (fun w => 0 <= w < 65536) l ->
  forall m t more, take_frame k (Frame m (dense_body b l) t more) = {| k with k_data := k_data k ++ l |}.
Proof. intros H m t more. unfold take_frame, dense_body. cbn [f_body]. destruct (dense_b64 b); [|done]. by rewrite b64_words. Qed.

(** ** The transitions of a chunk *)

Lemma la_edges_spec limit pos first i last ws es last' n :
  la_edges_loop limit pos first i last ws = (es, last', n) -> Forall (fun w => 0 <= w) ws ->
  0 <= n <= Z.of_nat (length ws) /\ Forall (fun e => i <= fst e < i + n) es /\
  (forall j, (Z.of_nat j < n) -> ws !! j = Some (val_from last es (i + Z.of_nat j))) /\
  (last' = if n =? 0 then last else val_from last es (i + n - 1)).
Proof.
  revert pos first i last es last' n. induction ws as [|w ws IH]; intros pos first i last es last' n; cbn [la_edges_loop].
  { intros [= <- <- <-] _. cbn. split_and!; try lia. constructor. }
  intros H Hws. apply Forall_cons in Hws as [Hw Hws]. destruct (_ || _) eqn:En.
  - destruct (limit <? _); [injection H as <- <- <-; cbn; split_and!; try lia; constructor|].
    destruct (la_edges_loop _ _ false _ w ws) as [[es1 l1] n1] eqn:E. injection H as <- <- <-.
    destruct (IH _ _ _ _ _ _ _ E Hws) as (H1 & H2 & H3 & H4). cbn [length].
    assert (val_from last ((i, w) :: es1) i = w) as V0.
    { unfold val_from. cbn [fold_left fst snd]. rewrite Z.leb_refl. apply val_later. eapply Forall_impl; [exact H2|]. cbn. intros; lia. }
    assert (forall x, i <= x -> val_from last ((i, w) :: es1) x = val_from w es1 x) as V1.
    { intros x Hx. unfold val_from. cbn [fold_left fst snd]. by rewrite (proj2 (Z.leb_le _ _)) by lia. }
    split_and!; try lia.
    + constructor; [cbn; lia|]. eapply Forall_impl; [exact H2|]. cbn. intros; lia.
    + intros [|j] Hj; [by rewrite Z.add_0_r, V0|]. change ((w :: ws) !! S j) with (ws !! j). rewrite V1 by lia. rewrite (H3 j) by lia. do 2 f_equal. lia.
    + rewrite (proj2 (Z.eqb_neq _ _)) by lia. rewrite H4. destruct (Z.eqb_spec n1 0) as [->|].
      * rewrite <- V0 at 1. f_equal. lia.
      * rewrite V1 by lia. f_equal. lia.
  - destruct (la_edges_loop _ _ _ _ _ ws) as [[es1 l1] n1] eqn:E. injection H as <- <- <-.
    destruct (IH _ _ _ _ _ _ _ E Hws) as (H1 & H2 & H3 & H4). cbn [length]. assert (last = w) as -> by lia.
    assert (val_from w es1 i = w) as V0 by (apply val_later; eapply Forall_impl; [exact H2|]; cbn; intros; lia).
    split_and!; try lia.
    + eapply Forall_impl; [exact H2|]. cbn. intros; lia.
    + intros [|j] Hj; [by rewrite Z.add_0_r, V0|]. change ((w :: ws) !! S j) with (ws !! j). rewrite (H3 j) by lia. do 2 f_equal. lia.
    + rewrite (proj2 (Z.eqb_neq _ _)) by lia. rewrite H4. destruct (Z.eqb_spec n1 0) as [->|].
      * rewrite <- V0 at 1. f_equal. lia.
      * f_equal. lia.
Qed.
End Mem.

Lemma dense_room_pos b avail room : dense_room b avail = Some room -> 0 < room.
Proof.
  unfold dense_room. destruct (dense_b64 b).
  - destruct (Z.leb_spec avail (bulk_footer_reserve b + 96 + 8)); cbn; [done|]. destruct (_ =? 0) eqn:E; [done|]. intros [= <-].
    assert (0 <= (avail - bulk_footer_reserve b - 96) * 3 / 8) by (apply Z.div_pos; lia). lia.
  - destruct (Z.leb_spec avail (bulk_footer_reserve b + 7)); cbn; [done|]. destruct (_ =? 0) eqn:E; [done|]. intros [= <-].
    assert (0 <= (avail - bulk_footer_reserve b) / 7) by (apply Z.div_pos; lia). lia.
Qed.

(** ** A raw read-back: the ADC words, then the LA words as transitions *)

Definition closed_frames (fs : list frame) : Prop := exists fs1 f, fs = fs1 ++ [f] /\ Forall (fun f => f_more f = true) fs1 /\ f_more f = false.

(** What only a change read-back uses. *)
Definition chg_fields (b : bulk_t) :=
  (chg b, chg_hdr b, chg_first b, chg_done b, chg_k b, chg_off b, chg_end b, chg_buf b, chg_t b, chg_base b, chg_pre b, chg_trunc b, chg_pend_i b, chg_pend_w b).

(** [b0]: the bulk sender as the read-back started it. *)
Section Raw.
Context (b0 : bulk_t).
Context (mem : Z -> Z) (Hmem : forall a, byte_ok (mem a)).
Context (la_base adc_base adc_n la_n o conn : Z) (tx0 : list effect).
Context (Hadc : 0 <= adc_n) (Hla : 0 <= la_n) (Ho : 0 <= o < adc_n + la_n).
Context (Hlab : 0 <= la_base) (Hadb : 0 <= adc_base) (Hlae : la_base + 2 * la_n <= 4294967296) (Hade : adc_base + 2 * adc_n <= 4294967296).

(** After the frames [fs] the client has the samples from [o] up to [sent]. *)
Record raw_inv (fs : list frame) (c : cap_t) : Prop := {
  ri_tx : s_tx c = tx0 ++ map (EFrame conn) fs;
  ri_base : s_la_cap_base c = la_base /\ s_adc_cap_base c = adc_base;
  ri_conn : conn_id (s_bulk c) = conn; ri_total : total (s_bulk c) = adc_n + la_n; ri_16 : is16 (s_bulk c) = true; ri_ps : from_psram (s_bulk c) = true;
  ri_adc : adc_samples (s_bulk c) = adc_n; ri_chg : chg_fields (s_bulk c) = chg_fields b0; ri_active : active (s_bulk c) = true;
  ri_sent : o <= sent (s_bulk c) <= adc_n + la_n;
  ri_data : k_data (received fs) = words_at mem (adc_base + 2 * o) (Z.to_nat (Z.min (sent (s_bulk c)) adc_n - o));
  ri_edges : forall j, Z.max 0 (o - adc_n) <= j < sent (s_bulk c) - adc_n -> last_at (k_edges (received fs)) j = word_at mem (la_base + 2 * j);
  ri_high : Forall (fun e => 0 <= fst e < sent (s_bulk c) - adc_n) (k_edges (received fs));
  ri_last : la_last (s_bulk c) = last_at (k_edges (received fs)) (sent (s_bulk c) - adc_n - 1);
  ri_upto : (k_upto (received fs) = None /\ sent (s_bulk c) <= Z.max adc_n o) \/ (k_upto (received fs) = Some (sent (s_bulk c) - adc_n) /\ adc_n <= sent (s_bulk c));
  ri_more : if sent (s_bulk c) <? adc_n + la_n then Forall (fun f => f_more f = true) fs else closed_frames fs }.

(** An invariant that only looks at what a frame or a waiting round leaves alone. *)
Lemma raw_same fs c c' :
  s_tx c' = s_tx c -> s_la_cap_base c' = s_la_cap_base c -> s_adc_cap_base c' = s_adc_cap_base c ->
  (exists now, s_bulk c' = (let b := s_bulk c in {| b with progress_ms := now |})) -> raw_inv fs c -> raw_inv fs c'.
Proof.
  intros E1 E2 E3 [now E4] [? [? ?] ? ? ? ? ? ? ? ? ? ? ? ? ? ?]. split; rewrite ?E1, ?E2, ?E3, ?E4; try done.
Qed.

(** How a round can end the read-back: the client is told or the connection is dropped. *)
Definition raw_abort (c c' : cap_t) : Prop :=
  active (s_bulk c') = false /\ (s_tx c' = s_tx c ++ [EClose conn] \/ exists msg, s_tx c' = s_tx c ++ [EError conn msg]).
Lemma raw_drop fs c c1 : raw_inv fs c -> s_tx c1 = s_tx c -> conn_id (s_bulk c1) = conn -> raw_abort c (bulk_drop c1).
Proof.
  intros I E Ec. unfold raw_abort, bulk_drop, bulk_done. rewrite Ec. destruct (from_psram (s_bulk c1)); cbn; split; try done; left; by rewrite E.
Qed.
Lemma raw_failed fs c c1 msg : raw_inv fs c -> s_tx c1 = s_tx c -> conn_id (s_bulk c1) = conn -> raw_abort c (bulk_read_failed msg c1).
Proof. intros I E Ec. split; [done|]. right. exists msg. cbn. by rewrite E, Ec. Qed.

Definition raw_step (fs : list frame) (c : cap_t) (r : cap_t * bool) : Prop :=
  if snd r then exists f, raw_inv (fs ++ [f]) (fst r) /\ sent (s_bulk c) <= sent (s_bulk (fst r)) else raw_inv fs (fst r) \/ raw_abort c (fst r).

(** The [more] flag of a frame that moves [sent] on. *)
Lemma more_next fs f s' n : Forall (fun f => f_more f = true) fs -> f_more f = negb (n <=? s') ->
  if s' <? n then Forall (fun f => f_more f = true) (fs ++ [f]) else closed_frames (fs ++ [f]).
Proof.
  intros H Hf. destruct (Z.ltb_spec s' n).
  - apply Forall_app. split; [done|]. constructor; [|constructor]. rewrite Hf. apply negb_true_iff. lia.
  - exists fs, f. split_and!; try done. rewrite Hf. apply negb_false_iff. lia.
Qed.

Lemma raw_read16 a c n l :
  reads_ok mem a -> s_la_cap_base c = la_base -> s_adc_cap_base c = adc_base ->
  fpga_capture_psram_read16 (a_read a) c (sent (s_bulk c)) (Z.to_nat n) adc_n = Some l -> 0 <= sent (s_bulk c) -> 0 < n ->
  (sent (s_bulk c) < adc_n -> sent (s_bulk c) + n <= adc_n) -> sent (s_bulk c) + n <= adc_n + la_n ->
  l = if sent (s_bulk c) <? adc_n then words_at mem (adc_base + 2 * sent (s_bulk c)) (Z.to_nat n) else words_at mem (la_base + 2 * (sent (s_bulk c) - adc_n)) (Z.to_nat n).
Proof.
  intros Hr E1 E2 H H0 Hn Hs Ht. unfold fpga_capture_psram_read16 in H. rewrite E1, E2 in H.
  destruct (sent (s_bulk c) <? adc_n) eqn:Es; (destruct (a_read a _ _) as [bs|] eqn:Er; [|done]); cbn [option_map] in H; injection H as <-; apply Hr in Er; subst bs; rewrite words_bytes; f_equal; rewrite u32_id by lia; lia.
Qed.

Lemma no_edges fs c : raw_inv fs c -> sent (s_bulk c) <= adc_n -> k_edges (received fs) = [].
Proof.
  intros I Hs. pose proof (ri_high _ _ I) as H. destruct (k_edges (received fs)) as [|e es]; [done|]. apply Forall_cons in H as [H _]. lia.
Qed.
Lemma raw_dense fs a c : raw_inv fs c -> reads_ok mem a -> sent (s_bulk c) < adc_n -> raw_step fs c (bulk_pump_dense a c).
Proof.
  intros I Hr Hs. pose proof I as [Htx [Hb1 Hb2] Hc Ht H16 Hps Had Hch Hact Hsent Hdata Hedges Hhigh Hlast Hupto Hmore]. unfold bulk_pump_dense. cbn zeta.
  destruct (dense_room (s_bulk c) (a_avail a)) as [room|] eqn:Er; [|by left].
  apply dense_room_pos in Er as Hroom.
  set (n := this_chunk (s_bulk c) room).
  assert (0 < n /\ sent (s_bulk c) + n <= adc_n) as [Hn Hna].
  { unfold n, this_chunk. rewrite Hps, H16, Had, Ht. rewrite (proj2 (Z.ltb_lt (sent (s_bulk c)) adc_n)) by lia. cbn [andb]. clear Hmore. match goal with |- context [?x <? ?y] => destruct (Z.ltb_spec x y) end; lia. }
  clearbody n. unfold dense_read. rewrite Hps, H16, Had. destruct (fpga_capture_psram_read16 _ _ _ _ _) as [l|] eqn:Erd; [|right; by eapply raw_failed].
  apply raw_read16 in Erd; try done; try lia. rewrite (proj2 (Z.ltb_lt (sent (s_bulk c)) adc_n)) in Erd by lia.
  destruct (queue_frame _ _ _) as [c'|] eqn:Q; [|right; by eapply raw_drop].
  unfold queue_frame in Q. destruct (_ <=? a_room a); [|done]. injection Q as <-. set (f := Frame _ _ _ _). exists f. cbn [fst].
  assert (take_frame (received fs) f = let k := received fs in {| k with k_data := k_data k ++ l |}) as Ek.
  { unfold f. rewrite (dense_received (s_bulk c) l (received fs)) by (rewrite Erd; apply words_at_range, Hmem). done. }
  split; [|cbn; lia]. split; rewrite ?received_snoc, ?Ek; cbn -[words_at last_at Z.min Z.max]; try done.
  - rewrite Htx, map_app, Hc. by rewrite app_assoc.
  - lia.
  - rewrite Hdata, Erd. replace (Z.to_nat (Z.min (sent (s_bulk c) + n) adc_n - o)) with (Z.to_nat (Z.min (sent (s_bulk c)) adc_n - o) + Z.to_nat n)%nat by lia.
    rewrite words_at_app. do 2 f_equal. lia.
  - intros j Hj. lia.
  - eapply Forall_impl; [exact Hhigh|]. cbn. intros; lia.
  - rewrite Hlast, (no_edges fs c I) by lia. done.
  - left. destruct Hupto as [[H1 H2]|[H1 H2]]; [split; [done|]|]; lia.
  - rewrite (proj2 (Z.ltb_lt _ _)) in Hmore by lia. apply more_next; [done|]. cbn. by rewrite Ht.
Qed.

Lemma raw_la fs a c : raw_inv fs c -> reads_ok mem a -> adc_n <= sent (s_bulk c) < adc_n + la_n -> raw_step fs c (bulk_pump_la a c).
Proof.
  intros I Hr Hs. pose proof I as [Htx [Hb1 Hb2] Hc Ht H16 Hps Had Hch Hact Hsent Hdata Hedges Hhigh Hlast Hupto Hmore]. unfold bulk_pump_la. cbn zeta.
  rewrite Had, Ht. set (n := Z.min (adc_n + la_n - sent (s_bulk c)) 256). assert (0 < n /\ sent (s_bulk c) + n <= adc_n + la_n) as [Hn Hna] by lia. clearbody n.
  destruct (fpga_capture_psram_read16 _ _ _ _ _) as [ws|] eqn:Erd; [|right; by eapply raw_failed].
  apply raw_read16 in Erd; try done; try lia. rewrite (proj2 (Z.ltb_ge (sent (s_bulk c)) adc_n)) in Erd by lia.
  destruct (la_edges_loop _ _ _ _ _ ws) as [[es lw] cov] eqn:El. apply la_edges_spec in El as (L1 & L2 & L3 & L4); cycle 1.
  { rewrite Erd. eapply Forall_impl; [apply words_at_range, Hmem|]. cbn. intros; lia. }
  assert (Z.of_nat (length ws) = n) as Hlen by (rewrite Erd, words_at_length; lia). rewrite Hlen in L1.
  destruct (queue_frame _ _ _) as [c'|] eqn:Q; [|right; by eapply raw_drop].
  unfold queue_frame in Q. destruct (_ <=? a_room a); [|done]. injection Q as <-. set (f := Frame _ _ _ _). exists f. cbn [fst].
  assert (take_frame (received fs) f = let k := received fs in {| k with k_edges := k_edges k ++ es; k_upto := Some (sent (s_bulk c) - adc_n + cov) |}) as Ek by done.
  set (i := sent (s_bulk c) - adc_n) in *.
  assert (forall j, i <= j < i + cov -> val_from (la_last (s_bulk c)) es j = word_at mem (la_base + 2 * j)) as Lv.
  { intros j Hj. pose proof (L3 (Z.to_nat (j - i)) ltac:(lia)) as H. rewrite Erd, words_at_lookup in H by lia. injection H as H. replace (i + Z.of_nat (Z.to_nat (j - i))) with j in H by lia.
    rewrite <- H. f_equal. lia. }
  assert (forall j, i - 1 <= j -> last_at (k_edges (received fs)) j = la_last (s_bulk c)) as Hkeep.
  { intros j Hj. rewrite Hlast. unfold last_at. apply val_after; [|done]. eapply Forall_impl; [exact Hhigh|]. cbn. intros; lia. }
  split; [|cbn; lia]. split; rewrite ?received_snoc, ?Ek; cbn -[words_at last_at Z.min Z.max]; try done.
  - rewrite Htx, map_app, Hc. by rewrite app_assoc.
  - lia.
  - rewrite Hdata. f_equal. lia.
  - intros j Hj. unfold last_at. rewrite val_app. fold (last_at (k_edges (received fs)) j). destruct (Z.ltb_spec j i).
    + rewrite val_later; [apply Hedges; lia|]. eapply Forall_impl; [exact L2|]. cbn. intros; lia.
    + rewrite Hkeep by lia. apply Lv. lia.
  - apply Forall_app. split; [eapply Forall_impl; [exact Hhigh|]|eapply Forall_impl; [exact L2|]]; cbn; intros; lia.
  - unfold last_at. rewrite val_app. fold (last_at (k_edges (received fs)) (sent (s_bulk c) + cov - adc_n - 1)). rewrite Hkeep by lia. rewrite L4.
    destruct (Z.eqb_spec cov 0) as [->|]; [|f_equal; lia]. symmetry. apply val_later. eapply Forall_impl; [exact L2|]. cbn. intros; lia.
  - right. split; [f_equal; lia|lia].
  - rewrite (proj2 (Z.ltb_lt _ _)) in Hmore by lia. apply more_next; [done|]. done.
Qed.

Context (Hraw : chg b0 = false).

Lemma raw_bulk_step fs a c : raw_inv fs c -> reads_ok mem a -> sent (s_bulk c) < adc_n + la_n -> raw_step fs c (bulk_step a c).
Proof.
  intros I Hr Hs. unfold bulk_step. destruct (a_avail a <? 96).
  { case_match; [right; by eapply (raw_drop fs c c), ri_conn|by left]. }
  set (c1 := set_progress (a_tick a) c). assert (raw_inv fs c1) as I1 by (apply (raw_same fs c); [done..|by exists (a_tick a)|done]).
  assert (chg (s_bulk c) = false) as -> by (pose proof (ri_chg _ _ I) as E; unfold chg_fields in E; congruence).
  rewrite (ri_16 _ _ I), (ri_ps _ _ I), (ri_adc _ _ I). cbn [andb].
  destruct (adc_n <=? sent (s_bulk c)) eqn:E.
  - destruct (a_avail a <? 200); [by left|]. change (raw_step fs c (bulk_pump_la a c1)). apply (raw_la fs a c1); [done|done|]. change (s_bulk c1) with (let b := s_bulk c in {| b with progress_ms := a_tick a |}). cbn. lia.
  - apply (raw_dense fs a c1); [done|done|]. cbn. lia.
Qed.

(** Where a pass can leave the read-back. *)
Definition raw_outcome (c : cap_t) : Prop :=
  exists fs, raw_inv fs c \/
    (active (s_bulk c) = false /\ s_tx c = tx0 ++ map (EFrame conn) fs /\ closed_frames fs /\ k_data (received fs) = words_at mem (adc_base + 2 * o) (Z.to_nat (adc_n - o)) /\
     (forall j, Z.max 0 (o - adc_n) <= j < la_n -> last_at (k_edges (received fs)) j = word_at mem (la_base + 2 * j)) /\
     (la_n = 0 \/ k_upto (received fs) = Some la_n)) \/
    (active (s_bulk c) = false /\ (s_tx c = tx0 ++ map (EFrame conn) fs ++ [EClose conn] \/ exists msg, s_tx c = tx0 ++ map (EFrame conn) fs ++ [EError conn msg]) /\
     Forall (fun f => f_more f = true) fs).

Lemma raw_done fs c : raw_inv fs c -> adc_n + la_n <= sent (s_bulk c) -> raw_outcome (bulk_done c).
Proof.
  intros I Hs. pose proof (ri_sent _ _ I) as Hsent. exists fs. right; left.
  assert (s_tx (bulk_done c) = s_tx c /\ active (s_bulk (bulk_done c)) = false) as [E1 E2] by (unfold bulk_done; by destruct (from_psram (s_bulk c))).
  rewrite E1. split_and!; [done|apply I|..].
  - pose proof (ri_more _ _ I) as H. by rewrite (proj2 (Z.ltb_ge _ _)) in H by lia.
  - rewrite (ri_data _ _ I). do 2 f_equal. lia.
  - intros j Hj. apply (ri_edges _ _ I). lia.
  - destruct (ri_upto _ _ I) as [[_ H]|[H _]]; [left; lia|right]. rewrite H. f_equal. lia.
Qed.
Lemma raw_loop l c fs : raw_inv fs c -> Forall (reads_ok mem) l -> raw_outcome (bulk_pump_loop l c).
Proof.
  revert c fs. induction l as [|a l IH]; intros c fs I Hl; cbn [bulk_pump_loop]; rewrite (ri_total _ _ I); (destruct (Z.leb_spec (adc_n + la_n) (sent (s_bulk c))); [by eapply raw_done|]).
  { exists fs. by left. }
  apply Forall_cons in Hl as [Ha Hl]. pose proof (raw_bulk_step fs a c I Ha ltac:(done)) as S. destruct (bulk_step a c) as [c' []]; unfold raw_step in S; cbn in S.
  - destruct S as (f & I' & _). by eapply IH.
  - destruct S as [I'|[Hoff Htx]]; [exists fs; by left|]. exists fs. right; right. rewrite (ri_tx _ _ I) in Htx. rewrite <- !app_assoc in Htx. split_and!; [done| |].
    + destruct Htx as [->|[msg ->]]; [left|right; exists msg]; by rewrite <- ?app_assoc.
    + pose proof (ri_more _ _ I) as Hm. by rewrite (proj2 (Z.ltb_lt _ _)) in Hm by lia.
Qed.
Lemma raw_passes ls c fs : raw_inv fs c -> Forall (Forall (reads_ok mem)) ls -> raw_outcome (fold_left (fun c l => bulk_pump l c) ls c).
Proof.
  intros I H. assert (raw_outcome c) as O by (exists fs; by left). clear I fs. revert c O. induction H as [|l ls Hl _ IH]; intros c O; cbn [fold_left]; [done|].
  apply IH. destruct O as (fs & [I|[(Hoff & Hx)|(Hoff & Hx)]]); unfold bulk_pump.
  - rewrite (ri_active _ _ I). by eapply raw_loop.
  - rewrite Hoff. exists fs. auto.
  - rewrite Hoff. exists fs. auto.
Qed.
End Raw.

(** ** The theorem for a fresh read-back and for a resumed one *)

(** A read-back as [capture_poll] starts it: [bulk_begin_capture16], then the reply's options. *)
Definition start_read (now conn adc_n la_n adc_hz la_hz : Z) (w64 : bool) (c : cap_t) : cap_t :=
  let c := bulk_begin_capture16 now conn adc_n la_n c in
  let b := s_bulk c in set_bulk {| b with b64 := w64; adc_rate_hz := adc_hz; la_rate_hz := la_hz |} c.
(** As [handle_capture_read] resumes one. *)
Definition resume_read (now conn offset : Z) (w64 : bool) (c : cap_t) : cap_t :=
  let c := bulk_begin_capture16_resume now conn offset (psram_bus_acquire c) in
  let b := s_bulk c in set_bulk {| b with b64 := w64 |} c.
Definition passes (ls : list (list ans_t)) (c : cap_t) : cap_t := fold_left (fun c l => bulk_pump l c) ls c.

(** The regions lie inside the address space. *)
Definition regions_fit (c : cap_t) (adc_n la_n : Z) : Prop :=
  0 <= s_la_cap_base c /\ s_la_cap_base c + 2 * la_n <= 4294967296 /\ 0 <= s_adc_cap_base c /\ s_adc_cap_base c + 2 * adc_n <= 4294967296.

Lemma raw_inv_start mem now conn adc_n la_n adc_hz la_hz w64 c : 0 <= adc_n -> 0 <= la_n -> 0 < adc_n + la_n ->
  let x := start_read now conn adc_n la_n adc_hz la_hz w64 c in
  raw_inv (s_bulk x) mem (s_la_cap_base c) (s_adc_cap_base c) adc_n la_n 0 conn (s_tx c) [] x.
Proof.
  intros H1 H2 H3. split; cbn -[words_at Z.min Z.max]; try done; try lia.
  - by rewrite app_nil_r.
  - by replace (Z.to_nat (Z.min 0 adc_n - 0)) with 0%nat by lia.
  - left. split; [done|lia].
  - rewrite (proj2 (Z.ltb_lt _ _)) by lia. constructor.
Qed.
Lemma raw_inv_resume mem now conn offset w64 c :
  0 <= lp_adc_samples (s_last c) -> 0 <= lp_la_samples (s_last c) -> 0 <= offset < lp_adc_samples (s_last c) + lp_la_samples (s_last c) ->
  let x := resume_read now conn offset w64 c in
  raw_inv (s_bulk x) mem (s_la_cap_base c) (s_adc_cap_base c) (lp_adc_samples (s_last c)) (lp_la_samples (s_last c)) offset conn (s_tx c) [] x.
Proof.
  intros H1 H2 H3. split; cbn -[words_at Z.min Z.max]; try done; try lia.
  - by rewrite app_nil_r.
  - by replace (Z.to_nat (Z.min offset (lp_adc_samples (s_last c)) - offset)) with 0%nat by lia.
  - left. split; [done|lia].
  - rewrite (proj2 (Z.ltb_lt _ _)) by lia. constructor.
Qed.

(** What a read-back of the samples from [o] on has given the client when it stops. *)
Definition whole_from (mem : Z -> Z) (c : cap_t) (adc_n la_n o : Z) (fs : list frame) : Prop :=
  closed_frames fs /\ k_data (received fs) = words_at mem (s_adc_cap_base c + 2 * o) (Z.to_nat (adc_n - o)) /\
  (forall j, Z.max 0 (o - adc_n) <= j < la_n -> last_at (k_edges (received fs)) j = word_at mem (s_la_cap_base c + 2 * j)) /\
  (la_n = 0 \/ k_upto (received fs) = Some la_n).
Definition cut_short (c c' : cap_t) (conn : Z) (fs : list frame) : Prop :=
  (s_tx c' = s_tx c ++ map (EFrame conn) fs ++ [EClose conn] \/ exists msg, s_tx c' = s_tx c ++ map (EFrame conn) fs ++ [EError conn msg]) /\
  Forall (fun f => f_more f = true) fs.

(** C37: the client of a capture gets exactly the samples that are in the PSRAM: however the
    connection takes the frames (any free space at any pass, any refusals, decimal or base64),
    a read-back that ends has either delivered the ADC samples one for one and, for each LA
    index, the captured word as the last transition at or before it, with [more] false in the
    last frame only; or it told the client (an error, a closed connection) and no frame
    claimed to be the last. *)
Theorem readback_exact mem now conn adc_n la_n adc_hz la_hz w64 c ls :
  (forall a, byte_ok (mem a)) -> 0 <= adc_n -> 0 <= la_n -> 0 < adc_n + la_n -> regions_fit c adc_n la_n -> Forall (Forall (reads_ok mem)) ls ->
  let c' := passes ls (start_read now conn adc_n la_n adc_hz la_hz w64 c) in
  exists fs,
    if active (s_bulk c') then s_tx c' = s_tx c ++ map (EFrame conn) fs
    else (s_tx c' = s_tx c ++ map (EFrame conn) fs /\ whole_from mem c adc_n la_n 0 fs) \/ cut_short c c' conn fs.
Proof.
  intros Hm H1 H2 H3 (R1 & R2 & R3 & R4) Hr. cbn zeta.
  destruct (raw_passes (s_bulk (start_read now conn adc_n la_n adc_hz la_hz w64 c)) mem Hm (s_la_cap_base c) (s_adc_cap_base c) adc_n la_n 0 conn (s_tx c) H1 H2 ltac:(lia) R1 R3 R2 R4 eq_refl ls _ []
    (raw_inv_start mem now conn adc_n la_n adc_hz la_hz w64 c H1 H2 H3) Hr) as (fs & [I|[(Hoff & Hx)|(Hoff & Hx)]]); fold (passes ls (start_read now conn adc_n la_n adc_hz la_hz w64 c)) in *; exists fs.
  - rewrite (ri_active _ _ _ _ _ _ _ _ _ _ _ I). apply I.
  - rewrite Hoff. left. destruct Hx as (Htx & Hx). split; [done|]. exact Hx.
  - rewrite Hoff. right. exact Hx.
Qed.

(** A stalled capture resumes where it stopped: after `capture_read` from sample [offset] the
    client that kept the first [offset] samples has the whole capture, under the same
    conditions. *)
Theorem resume_exact mem now conn offset w64 c ls :
  let adc_n := lp_adc_samples (s_last c) in let la_n := lp_la_samples (s_last c) in
  (forall a, byte_ok (mem a)) -> 0 <= adc_n -> 0 <= la_n -> 0 <= offset < adc_n + la_n -> regions_fit c adc_n la_n -> Forall (Forall (reads_ok mem)) ls ->
  let c' := passes ls (resume_read now conn offset w64 c) in
  exists fs,
    if active (s_bulk c') then s_tx c' = s_tx c ++ map (EFrame conn) fs
    else (s_tx c' = s_tx c ++ map (EFrame conn) fs /\ whole_from mem c adc_n la_n offset fs) \/ cut_short c c' conn fs.
Proof.
  cbn zeta. intros Hm H1 H2 H3 (R1 & R2 & R3 & R4) Hr.
  destruct (raw_passes (s_bulk (resume_read now conn offset w64 c)) mem Hm (s_la_cap_base c) (s_adc_cap_base c) _ _ offset conn (s_tx c) H1 H2 H3 R1 R3 R2 R4 eq_refl ls _ []
    (raw_inv_resume mem now conn offset w64 c H1 H2 H3) Hr) as (fs & [I|[(Hoff & Hx)|(Hoff & Hx)]]); fold (passes ls (resume_read now conn offset w64 c)) in *; exists fs.
  - rewrite (ri_active _ _ _ _ _ _ _ _ _ _ _ I). apply I.
  - rewrite Hoff. left. destruct Hx as (Htx & Hx). split; [done|]. exact Hx.
  - rewrite Hoff. right. exact Hx.
Qed.

(** ** Witnesses: six ADC samples and five LA words over a memory of residues *)

Definition mem_ex (a : Z) : Z := a mod 7.
Lemma mem_ex_bytes a : byte_ok (mem_ex a).
Proof. unfold byte_ok, mem_ex. pose proof (Z.mod_pos_bound a 7). lia. Qed.
Definition ans_ex (avail : Z) : ans_t := Ans 5 avail avail (fun a n => Some (bytes_at mem_ex a n)).
Lemma ans_ex_ok ls : Forall (Forall (reads_ok mem_ex)) (map (map ans_ex) ls).
Proof. apply Forall_map, Forall_forall. intros l _. apply Forall_map, Forall_forall. intros x _ addr n bs [= <-]. done. Qed.
Definition cap_ex : cap_t :=
  Cap (V2cap false 0 0 false false) (Lacap false 0 0 false 0 0 0) (Chgscan false 0 0 0 0 0 0 0 0 false false 0 0 0 false) (Dualcap false 0 0 0 0 0 false false 0)
    (LastCap true 6 5 1000 2000) bulk0 (Trigwait false 0 no_trigger 0 0 false) (TrigReply false no_trigger false) 4 1 [] [] regions_init 4096 64 [].

Theorem readback_exact_witness :
  let c' := passes (map (map ans_ex) [[64]; [200]; [1000; 1000; 1000]]) (start_read 0 4 6 5 1000 2000 false cap_ex) in
  active (s_bulk c') = false /\ length (s_tx c') = 2%nat /\
  exists fs,
    if active (s_bulk c') then s_tx c' = s_tx cap_ex ++ map (EFrame 4) fs
    else (s_tx c' = s_tx cap_ex ++ map (EFrame 4) fs /\ whole_from mem_ex cap_ex 6 5 0 fs) \/ cut_short cap_ex c' 4 fs.
Proof.
  split; [vm_compute; reflexivity|]. split; [vm_compute; reflexivity|].
  exact (readback_exact mem_ex 0 4 6 5 1000 2000 false cap_ex (map (map ans_ex) [[64]; [200]; [1000; 1000; 1000]]) mem_ex_bytes ltac:(lia) ltac:(lia) ltac:(lia) ltac:(unfold regions_fit; cbn; lia)
    (ans_ex_ok _)).
Defined.
Theorem resume_exact_witness :
  let c' := passes (map (map ans_ex) [[1000; 1000; 1000]]) (resume_read 0 4 4 true cap_ex) in
  active (s_bulk c') = false /\ length (s_tx c') = 2%nat /\
  exists fs,
    if active (s_bulk c') then s_tx c' = s_tx cap_ex ++ map (EFrame 4) fs
    else (s_tx c' = s_tx cap_ex ++ map (EFrame 4) fs /\ whole_from mem_ex cap_ex 6 5 4 fs) \/ cut_short cap_ex c' 4 fs.
Proof.
  split; [vm_compute; reflexivity|]. split; [vm_compute; reflexivity|].
  exact (resume_exact mem_ex 0 4 4 true cap_ex (map (map ans_ex) [[1000; 1000; 1000]]) mem_ex_bytes ltac:(cbn; lia) ltac:(cbn; lia) ltac:(cbn; lia) ltac:(unfold regions_fit; cbn; lia)
    (ans_ex_ok _)).
Defined.
