(* ===== verification/CaptureChange.v ===== *)
(** * The read-back of a change capture gives the captured signal

    The LA region holds 3-byte events: ten bits of ticks since the one before, fourteen of
    state; a zero delta ends the stream. [stream] is what they say, a list of (tick, word);
    sample [i] of the reply is the state at tick [base + i * k]. *)

From S2P Require Import Prelude Json B64 CmdGate LaPins PsramRegions Capture CaptureRun CaptureTheorems CaptureRead.

Fixpoint stream (first : bool) (t : Z) (bs : list Z) : list (Z * Z) :=
  match bs with
  | x :: y :: z :: bs =>
      let e := le24 [x; y; z] in
      let d := Z.shiftr e 14 in
      let w := Z.land e 0x3FFF in
      if first then (t, w) :: stream false t bs else if d =? 0 then [] else (t + d, w) :: stream false (t + d) bs
  | _ => []
  end.

Lemma bytes_at_3 f a : bytes_at f a 3 = [f a; f (a + 1); f (a + 2)].
Proof. rewrite !bytes_at_cons. change (bytes_at f (a + 1 + 1 + 1) 0) with (@nil Z). by replace (a + 1 + 1) with (a + 2) by lia. Qed.
Lemma val_none v es i : Forall (fun e => i < fst e) es -> val_from v es i = v.
Proof. apply val_later. Qed.
Lemma last_at_snoc K p w i : last_at (K ++ [(p, w)]) i = if p <=? i then w else last_at K i.
Proof. unfold last_at. rewrite val_app. done. Qed.
Lemma le24_range mem a : (forall a, byte_ok (mem a)) -> 0 <= le24 (bytes_at mem a 3) < 16777216.
Proof.
  intros H. rewrite bytes_at_3. unfold le24. cbn [nth]. pose proof (H a) as H0. pose proof (H (a + 1)) as H1. pose proof (H (a + 2)) as H2. unfold byte_ok in *. lia.
Qed.
Lemma read_len_le left : Z.min left 255 - Z.min left 255 mod 3 <= 255.
Proof. pose proof (Z.mod_pos_bound (Z.min left 255) 3). lia. Qed.

(** ** The fuel of the model is never what ends the loop *)

Lemma chg_flush_buf b es pos b' es' pos' : chg_flush b es pos = (b', es', pos') -> chg_buf b' = chg_buf b.
Proof. unfold chg_flush, chg_emit. case_match; intros [= <- <- <-]; done. Qed.
Lemma chg_flush_done b es pos b' es' pos' : chg_flush b es pos = (b', es', pos') -> chg_done b' = chg_done b.
Proof. unfold chg_flush, chg_emit. case_match; intros [= <- <- <-]; done. Qed.
Lemma chg_event_buf lt b es pos b' es' pos' stop : chg_event lt b es pos = (b', es', pos', stop) -> chg_buf b' = drop 3 (chg_buf b).
Proof.
  unfold chg_event. cbn zeta. destruct (_ && _); [intros [= <- _ _ _]; done|]. destruct (lt <=? _); [intros [= <- _ _ _]; done|].
  destruct (_ && _); [|intros [= <- _ _ _]; done]. destruct (chg_flush _ _ _) as [[b1 es1] pos1] eqn:E. apply chg_flush_buf in E. intros [= <- _ _ _]. exact E.
Qed.
Lemma chg_loop_fuel extra rd limit lt : (forall off n bs, rd off n = Some bs -> (length bs <= n)%nat) -> forall fuel b es pos reads,
  (258 * reads + length (chg_buf b) <= 3 * fuel)%nat ->
  chg_loop (fuel + extra) rd limit lt b es pos reads = chg_loop fuel rd limit lt b es pos reads.
Proof.
  intros Hrd. induction fuel as [|fuel IH]; intros b es pos reads Hf.
  - destruct reads; [|lia]. destruct extra; [done|]. cbn [chg_loop Nat.add]. case_match; [done|]. destruct (chg_buf b); [done|cbn in Hf; lia].
  - cbn [chg_loop Nat.add]. destruct (chg_done b || _); [done|]. destruct (chg_buf b) as [|x xs] eqn:Eb.
    + destruct reads as [|reads]; [done|]. destruct (_ <? 3); [done|]. destruct (rd _ _) as [bs|] eqn:Er; [|done]. apply Hrd in Er. pose proof (read_len_le (chg_end b - chg_off b)).
      destruct (chg_event _ _ _ _) as [[[b' es'] pos'] stop] eqn:E. apply chg_event_buf in E. destruct stop; [done|]. apply IH. rewrite E, length_drop. cbn in *. lia.
    + destruct (chg_event _ _ _ _) as [[[b' es'] pos'] stop] eqn:E. apply chg_event_buf in E. destruct stop; [done|]. apply IH. rewrite E, length_drop, Eb. cbn in *. lia.
Qed.
Lemma chg_fuel_enough extra rd limit lt b es pos : (forall off n bs, rd off n = Some bs -> (length bs <= n)%nat) -> (length (chg_buf b) <= 255)%nat ->
  chg_loop (CHG_FUEL + extra) rd limit lt b es pos 8 = chg_loop CHG_FUEL rd limit lt b es pos 8.
Proof. intros H1 H2. apply chg_loop_fuel; [done|lia]. Qed.

(** ** The state of the decoder *)

Section Changes.
Context (mem : Z -> Z) (Hmem : forall a, byte_ok (mem a)).
Context (la_base region k base : Z) (Hk : 0 < k) (Hbase : 0 <= base) (Hlab : 0 <= la_base) (Hreg : 0 <= region) (Hfit : la_base + region <= 4294967296).

Definition ix (t : Z) : Z := if t <=? base then 0 else (t - base + k - 1) / k.
Definition events : list (Z * Z) := stream true 0 (bytes_at mem la_base (Z.to_nat region)).
Definition idxs (l : list (Z * Z)) : list (Z * Z) := map (fun e => (ix (fst e), snd e)) l.

Lemma ix_le t i : 0 <= i -> (ix t <=? i) = (t <=? base + i * k).
Proof.
  intros Hi. unfold ix. destruct (Z.leb_spec t base).
  - transitivity true; [|symmetry]; apply Z.leb_le; nia.
  - pose proof (Z.div_mod (t - base + k - 1) k ltac:(lia)). pose proof (Z.mod_pos_bound (t - base + k - 1) k ltac:(lia)).
    destruct (Z.leb_spec ((t - base + k - 1) / k) i), (Z.leb_spec t (base + i * k)); try done; nia.
Qed.
Lemma ix_nonneg t : 0 <= ix t.
Proof. unfold ix. destruct (Z.leb_spec t base); [lia|]. apply Z.div_pos; lia. Qed.
Lemma ix_mono t u : t <= u -> ix t <= ix u.
Proof. intros H. pose proof (ix_nonneg u) as H0. apply Z.leb_le. rewrite ix_le by done. pose proof (ix_le u (ix u) H0) as E. rewrite Z.leb_refl in E. symmetry in E. lia. Qed.

(** Sample [i] of the decoded events is the state at its tick. *)
Lemma last_idxs l i : 0 <= i -> last_at (idxs l) i = last_at l (base + i * k).
Proof.
  intros Hi. unfold last_at, val_from, idxs. generalize (-1). induction l as [|e l IH]; intros v; [done|]. cbn [map fold_left fst snd]. rewrite ix_le by done. apply IH.
Qed.
Lemma idxs_app l l' : idxs (l ++ l') = idxs l ++ idxs l'.
Proof. apply map_app. Qed.

(** Later events come at later ticks. *)
Lemma stream_after bs : (forall x, x ∈ bs -> byte_ok x) -> forall t, Forall (fun e => t < fst e) (stream false t bs).
Proof.
  assert (forall n bs, (length bs <= n)%nat -> (forall x, x ∈ bs -> byte_ok x) -> forall t, Forall (fun e => t < fst e) (stream false t bs)) as H; [|intros; by eapply H].
  induction n as [|n IH]; intros [|x [|y [|z l]]] Hn Hb t; cbn in Hn; try constructor; try lia. cbn [stream]. cbn zeta. destruct (_ =? 0) eqn:E; [constructor|].
  assert (0 <= Z.shiftr (le24 [x; y; z]) 14) as Hd.
  { apply Z.shiftr_nonneg. unfold le24. cbn [nth]. pose proof (Hb x ltac:(set_solver)) as H0. pose proof (Hb y ltac:(set_solver)) as H1. pose proof (Hb z ltac:(set_solver)) as H2. unfold byte_ok in *. lia. }
  constructor; [cbn; lia|]. eapply Forall_impl; [apply IH; [lia|]|].
  - intros; apply Hb; set_solver.
  - cbn. intros; lia.
Qed.

Definition rest (b : bulk_t) : list Z := bytes_at mem (la_base + chg_off b) (Z.to_nat (region - chg_off b)).
Definition pend (b : bulk_t) : list (Z * Z) := if chg_first b then [] else [(chg_pend_i b, chg_pend_w b)].

(** [K]: the edges sent so far; the events before [chg_off] are [P]. *)
Record ci (K P : list (Z * Z)) (b : bulk_t) : Prop := {
  ci_fields : chg_end b = region /\ chg_k b = k /\ chg_base b = base;
  ci_off : 0 <= chg_off b <= region;
  ci_buf : exists m, chg_buf b = bytes_at mem (la_base + chg_off b) (3 * m) /\ chg_off b + 3 * Z.of_nat m <= region;
  ci_events : events = P ++ stream (chg_first b) (chg_t b) (rest b);
  ci_view : forall i, last_at (K ++ pend b) i = last_at (idxs P) i;
  ci_pend : if chg_first b then K = [] /\ P = [] /\ chg_t b = 0 /\ chg_pend_i b = -1 /\ la_last b = -1
            else chg_pend_i b = ix (chg_t b) /\ 0 <= chg_pend_w b /\ Forall (fun e => fst e < chg_pend_i b) K /\ la_last b = last_at K (chg_pend_i b) }.

(** The head of the buffer is the event at [chg_off]. *)
Lemma ci_head K P b : ci K P b -> chg_buf b <> [] ->
  let a := la_base + chg_off b in
  chg_off b + 3 <= region /\ le24 (chg_buf b) = le24 (bytes_at mem a 3) /\ (exists m, drop 3 (chg_buf b) = bytes_at mem (a + 3) (3 * m) /\ chg_off b + 3 + 3 * Z.of_nat m <= region) /\
  rest b = bytes_at mem a 3 ++ bytes_at mem (a + 3) (Z.to_nat (region - (chg_off b + 3))).
Proof.
  intros I Hne. cbn zeta. destruct (ci_buf _ _ _ I) as (m & E & Hm). destruct m as [|m]; [by rewrite E in Hne|].
  replace (3 * S m)%nat with (3 + 3 * m)%nat in E by lia. rewrite bytes_at_app in E. change (Z.of_nat 3) with 3 in E. split_and!.
  - lia.
  - rewrite E. rewrite !bytes_at_3. done.
  - exists m. split; [|lia]. rewrite E. by rewrite bytes_at_3.
  - unfold rest. pose proof (ci_off _ _ _ I). replace (Z.to_nat (region - chg_off b)) with (3 + Z.to_nat (region - (chg_off b + 3)))%nat by lia. by rewrite bytes_at_app.
Qed.

(** What a flush writes: the client's view with the pending edge in it. *)
Lemma chg_flush_spec E es b pos b' es' pos' : chg_flush b es pos = (b', es', pos') ->
  0 <= chg_pend_w b -> Forall (fun e => fst e < chg_pend_i b) (E ++ es) -> la_last b = last_at (E ++ es) (chg_pend_i b) ->
  (forall i, last_at (E ++ es') i = last_at ((E ++ es) ++ [(chg_pend_i b, chg_pend_w b)]) i) /\ Forall (fun e => fst e <= chg_pend_i b) (E ++ es') /\
  la_last b' = chg_pend_w b /\ b' = {| b with la_last := chg_pend_w b |}.
Proof.
  intros H Hw HK Hl. unfold chg_flush in H. destruct (_ || _) eqn:En.
  - unfold chg_emit in H. injection H as <- <- _. rewrite app_assoc. split_and!; try done. apply Forall_app. split; [eapply Forall_impl; [exact HK|]; cbn; lia|].
    constructor; [cbn; lia|constructor].
  - injection H as <- <- _. apply orb_false_iff in En as [En En2]. apply negb_false_iff, Z.eqb_eq in En. split_and!.
    + intros i. rewrite last_at_snoc. destruct (Z.leb_spec (chg_pend_i b) i); [|done]. rewrite <- En, Hl. unfold last_at. apply val_after; [|done].
      eapply Forall_impl; [exact HK|]. cbn. intros; lia.
    + eapply Forall_impl; [exact HK|]. cbn. intros; lia.
    + done.
    + destruct b. cbn in En. by subst.
Qed.

(** What an event leaves: the loop goes on, or the stream is over and every sample below
    [la_n] is in the client's view once the pending edge is. *)
Definition ready (la_n : Z) (K : list (Z * Z)) (b : bulk_t) : Prop :=
  (forall i, 0 <= i < la_n -> last_at (K ++ pend b) i = last_at (idxs events) i) /\
  (if chg_first b then K = [] /\ chg_pend_i b = -1
   else 0 <= chg_pend_i b < la_n /\ 0 <= chg_pend_w b /\ Forall (fun e => fst e < chg_pend_i b) K /\ la_last b = last_at K (chg_pend_i b)).
(** The samples final for the client: those below the pending edge. *)
Definition final_upto (b : bulk_t) : Z := Z.max 0 (chg_pend_i b).

Lemma ci_ready K P b la_n : ci K P b -> chg_pend_i b < la_n ->
  Forall (fun e => la_n <= ix (fst e)) (stream (chg_first b) (chg_t b) (rest b)) -> ready la_n K b.
Proof.
  intros I Hp Hlate. split.
  - intros i Hi. rewrite (ci_view _ _ _ I). rewrite (ci_events _ _ _ I), idxs_app. unfold last_at at 2. rewrite val_app. symmetry. apply val_later.
    unfold idxs. apply Forall_map. eapply Forall_impl; [exact Hlate|]. cbn. intros; lia.
  - pose proof (ci_pend _ _ _ I) as H. destruct (chg_first b); [by destruct H as (H1 & H2 & H3 & H4 & H5)|]. destruct H as (H1 & H2 & H3 & H4). split_and!; try done.
    rewrite H1. apply ix_nonneg.
Qed.

(** Samples below the pending edge are final. *)
Lemma ci_final K P b j : ci K P b -> 0 <= j < chg_pend_i b -> last_at K j = last_at (idxs events) j.
Proof.
  intros I Hj. pose proof (ci_pend _ _ _ I) as Hp. pose proof (ci_view _ _ _ I j) as V. rewrite (ci_events _ _ _ I), idxs_app. unfold pend in V.
  destruct (chg_first b) eqn:F; [lia|]. destruct Hp as (H1 & _). rewrite last_at_snoc, (proj2 (Z.leb_gt _ _)) in V by lia. rewrite V. unfold last_at at 2. rewrite val_app. symmetry. apply val_later.
  unfold idxs. apply Forall_map. eapply Forall_impl; [apply stream_after; intros x Hx|].
  - unfold rest, bytes_at in Hx. apply list_elem_of_fmap in Hx as (y & -> & _). apply Hmem.
  - cbn. intros e He. pose proof (ix_mono (chg_t b) (fst e) ltac:(lia)). lia.
Qed.

Lemma stream_first a bs t : stream true t (bytes_at mem a 3 ++ bs) = (t, Z.land (le24 (bytes_at mem a 3)) 0x3FFF) :: stream false t bs.
Proof. by rewrite bytes_at_3. Qed.
Lemma stream_next a bs t : let e := le24 (bytes_at mem a 3) in
  stream false t (bytes_at mem a 3 ++ bs) = if Z.shiftr e 14 =? 0 then [] else (t + Z.shiftr e 14, Z.land e 0x3FFF) :: stream false (t + Z.shiftr e 14) bs.
Proof. cbn zeta. by rewrite bytes_at_3. Qed.

Lemma bytes_at_ok a n x : x ∈ bytes_at mem a n -> byte_ok x.
Proof. intros Hx. unfold bytes_at in Hx. apply list_elem_of_fmap in Hx as (y & -> & _). apply Hmem. Qed.

(** An event on its own: the tick and the word it stands for, [None] at the end of the stream. *)
Definition event_at (b : bulk_t) : option (Z * Z) :=
  let e := le24 (chg_buf b) in
  if chg_first b then Some (chg_t b, Z.land e 0x3FFF) else if Z.shiftr e 14 =? 0 then None else Some (chg_t b + Z.shiftr e 14, Z.land e 0x3FFF).
Lemma ci_event K P b : ci K P b -> chg_buf b <> [] ->
  events = P ++ match event_at b with None => [] | Some (t, w) => (t, w) :: stream false t (bytes_at mem (la_base + (chg_off b + 3)) (Z.to_nat (region - (chg_off b + 3)))) end.
Proof.
  intros I Hne. pose proof (ci_head _ _ _ I Hne) as (_ & E & _ & R). rewrite (ci_events _ _ _ I), R. f_equal. unfold event_at. rewrite E.
  replace (la_base + (chg_off b + 3)) with (la_base + chg_off b + 3) by lia. destruct (chg_first b); [by rewrite stream_first|]. rewrite stream_next. by case_match.
Qed.
Lemma event_at_tick K P b t w : ci K P b -> chg_buf b <> [] -> event_at b = Some (t, w) -> chg_t b <= t /\ 0 <= w.
Proof.
  intros I Hne. pose proof (ci_head _ _ _ I Hne) as (_ & E & _ & _). pose proof (le24_range mem (la_base + chg_off b) Hmem) as R. rewrite <- E in R. unfold event_at.
  assert (0 <= Z.land (le24 (chg_buf b)) 0x3FFF) by (apply Z.land_nonneg; lia). assert (0 <= Z.shiftr (le24 (chg_buf b)) 14) by (apply Z.shiftr_nonneg; lia).
  repeat case_match; intros; simplify_eq; lia.
Qed.

(** [chg_event], by what the event says. *)
Lemma chg_event_alt la_n b es pos :
  let b1 := {| b with chg_buf := drop 3 (chg_buf b); chg_off := chg_off b + 3 |} in
  chg_event la_n b es pos =
  match event_at b with
  | None => ({| b1 with chg_done := true |}, es, pos, true)
  | Some (t, w) =>
      let b2 := {| b1 with chg_first := false; chg_t := t |} in
      let idx := if t <=? chg_base b then 0 else (t - chg_base b + chg_k b - 1) / chg_k b in
      if la_n <=? idx then ({| b2 with chg_done := true |}, es, pos, true)
      else
        let '(b3, es, pos) := if (0 <=? chg_pend_i b) && negb (chg_pend_i b =? idx) then let '(b3, es, pos) := chg_flush b2 es pos in ({| b3 with sent := adc_samples b3 + idx |}, es, pos) else (b2, es, pos) in
        ({| b3 with chg_pend_i := idx; chg_pend_w := w |}, es, pos, false)
  end.
Proof. cbn zeta. unfold chg_event, event_at. cbn zeta. destruct (chg_first b) eqn:F; cbn [negb andb]; [done|]. by destruct (_ =? 0). Qed.

Section Event.
Context (la_n : Z) (Hn : 0 < la_n) (E P : list (Z * Z)) (es : list (Z * Z)) (b : bulk_t) (pos : Z).
Context (I : ci (E ++ es) P b) (Hp : chg_pend_i b < la_n) (Hne : chg_buf b <> []).
Let b1 : bulk_t := {| b with chg_buf := drop 3 (chg_buf b); chg_off := chg_off b + 3 |}.

(** The stream ends, or its next event is past the last sample. *)
Lemma event_stop b' : chg_first b' = chg_first b -> chg_pend_i b' = chg_pend_i b -> chg_pend_w b' = chg_pend_w b -> la_last b' = la_last b ->
  (match event_at b with None => True | Some (t, _) => la_n <= ix t /\ chg_first b = false end) -> ready la_n (E ++ es) b'.
Proof.
  intros E1 E2 E3 E4 Hs. assert (ready la_n (E ++ es) b) as [R1 R2].
  { apply (ci_ready _ P); try done. pose proof (ci_event _ _ _ I Hne) as Ev. rewrite (ci_events _ _ _ I) in Ev. apply app_inv_head in Ev. rewrite Ev.
    destruct (event_at b) as [[t w]|]; [|constructor]. destruct Hs as [Hs _]. constructor; [done|]. eapply Forall_impl; [apply stream_after; intros x; apply bytes_at_ok|].
    cbn. intros e He. pose proof (ix_mono t (fst e) ltac:(lia)). lia. }
  unfold ready, pend in *. by rewrite E1, E2, E3, E4.
Qed.

(** The event joins the ones seen. *)
Lemma event_go t w b3 es3 :
  event_at b = Some (t, w) ->
  (chg_end b3, chg_k b3, chg_base b3, chg_off b3, chg_buf b3) = (chg_end b, chg_k b, chg_base b, chg_off b + 3, drop 3 (chg_buf b)) -> chg_first b3 = false -> chg_t b3 = t ->
  chg_pend_i b3 = ix t -> chg_pend_w b3 = w -> la_last b3 = last_at (E ++ es3) (ix t) -> Forall (fun e => fst e < ix t) (E ++ es3) ->
  (forall i, i < ix t -> last_at (E ++ es3) i = last_at (idxs P) i) -> ci (E ++ es3) (P ++ [(t, w)]) b3.
Proof.
  intros Et [= F1 F2 F3 F4 F5] F6 F7 F8 F9 Hl HK HV. destruct (ci_head _ _ _ I Hne) as (H1 & _ & (m & H2 & H3) & _). destruct (ci_fields _ _ _ I) as (G1 & G2 & G3).
  destruct (event_at_tick _ _ _ _ _ I Hne Et) as [Ht Hw]. pose proof (ci_off _ _ _ I) as Ho. split.
  - by rewrite F1, F2, F3.
  - rewrite F4. lia.
  - exists m. rewrite F4, F5. split; [|lia]. rewrite H2. f_equal. lia.
  - pose proof (ci_event _ _ _ I Hne) as Ev. rewrite Et in Ev. rewrite Ev, <- app_assoc. cbn [app]. rewrite F6, F7. unfold rest. by rewrite F4.
  - intros i. unfold pend. rewrite F6, F8, F9, last_at_snoc, idxs_app. cbn [idxs map fst snd]. rewrite last_at_snoc. destruct (Z.leb_spec (ix t) i); [done|]. by apply HV.
  - rewrite F6, F7, F8, F9. by split_and!.
Qed.

Lemma chg_event_spec b' es' pos' stop : sent b = adc_samples b + final_upto b -> chg_done b = false -> chg_event la_n b es pos = (b', es', pos', stop) ->
  if stop then chg_done b' = true /\ ready la_n (E ++ es') b'
  else chg_done b' = false /\ sent b' = adc_samples b' + final_upto b' /\ chg_pend_i b' < la_n /\ exists P', ci (E ++ es') P' b'.
Proof.
  intros Hs Hd. rewrite chg_event_alt. cbn zeta. destruct (event_at b) as [[t w]|] eqn:Et; cycle 1.
  { intros [= <- <- <- <-]. split; [done|]. apply event_stop; try done. by rewrite Et. }
  destruct (ci_fields _ _ _ I) as (G1 & G2 & G3). rewrite G2, G3. fold (ix t). destruct (Z.leb_spec la_n (ix t)) as [Hl|Hl].
  { intros [= <- <- <- <-]. assert (chg_first b = false) as F.
    { destruct (chg_first b) eqn:F; [|done]. pose proof (ci_pend _ _ _ I) as H. rewrite F in H. destruct H as (_ & _ & H & _). unfold event_at in Et. rewrite F in Et. injection Et as <- <-.
      rewrite H in Hl. unfold ix in Hl. rewrite (proj2 (Z.leb_le 0 base)) in Hl by lia. lia. }
    split; [done|]. apply event_stop; rewrite ?Et; try done; by rewrite F. }
  destruct (event_at_tick _ _ _ _ _ I Hne Et) as [Ht Hw]. pose proof (ci_pend _ _ _ I) as Hpend. pose proof (ci_view _ _ _ I) as V. unfold pend in V. pose proof (ix_nonneg t) as Hix.
  destruct (chg_first b) eqn:F.
  - destruct Hpend as (K0 & P0 & T0 & Pi & L0). rewrite Pi. cbn [Z.leb Z.compare andb]. intros [= <- <- <- <-]. split; [done|]. split; [|split; [exact Hl|]].
    + unfold final_upto in *. cbn. rewrite Pi in Hs. unfold event_at in Et. rewrite F in Et. injection Et as <- <-. rewrite T0 in *. unfold ix in *. rewrite (proj2 (Z.leb_le 0 base)) in * by lia. lia.
    + exists (P ++ [(t, w)]). apply event_go; rewrite ?G1, ?G2, ?G3, ?K0, ?P0; try done; try (by constructor); cbn; rewrite ?L0; try done.
  - destruct Hpend as (Pi & Pw & HK & HL). pose proof (ix_mono _ _ Ht) as Hmono. rewrite <- Pi in Hmono. pose proof (ix_nonneg (chg_t b)) as Hpi. rewrite <- Pi in Hpi.
    rewrite (proj2 (Z.leb_le 0 (chg_pend_i b))) by lia. cbn [andb]. destruct (Z.eqb_spec (chg_pend_i b) (ix t)) as [Eq|Neq]; cbn [negb].
    + intros [= <- <- <- <-]. split; [done|]. split; [|split; [exact Hl|]].
      { unfold final_upto in *. cbn. by rewrite <- Eq. }
      exists (P ++ [(t, w)]). apply event_go; rewrite ?G1, ?G2, ?G3; try done; try (rewrite <- Eq; done).
      intros i Hi. rewrite <- (V i), last_at_snoc, (proj2 (Z.leb_gt _ _)) by lia. done.
    + destruct (chg_flush _ es pos) as [[b3 es3] pos3] eqn:Fl. pose proof (chg_flush_spec E _ _ _ _ _ _ Fl Pw HK HL) as (S1 & S2 & S3 & S4).
      intros [= <- <- <- <-]. split; [rewrite S4; done|]. split; [|split; [exact Hl|]].
      { unfold final_upto. cbn. lia. }
      cbn [chg_pend_i chg_pend_w] in S1, S2, S3, S4. clear S3. subst b3. exists (P ++ [(t, w)]).
      apply event_go; [exact Et|cbn; by rewrite G1, G2, G3|reflexivity|reflexivity|reflexivity|reflexivity|cbn [la_last]|..].
      * rewrite S1, last_at_snoc. by rewrite (proj2 (Z.leb_le _ _)) by lia.
      * eapply Forall_impl; [exact S2|]. cbn. intros; lia.
      * intros i Hi. rewrite S1. apply V.
Qed.
End Event.

(** ** The loop of a frame *)

Definition going (la_n : Z) (K : list (Z * Z)) (b : bulk_t) : Prop :=
  sent b = adc_samples b + final_upto b /\ chg_pend_i b < la_n /\ exists P, ci K P b.

Lemma stream_short first t l : (length l < 3)%nat -> stream first t l = [].
Proof. destruct l as [|x [|y [|z l]]]; cbn [length]; intros; try done; lia. Qed.
Lemma ci_exhausted K P b la_n : ci K P b -> chg_pend_i b < la_n -> chg_end b - chg_off b < 3 -> ready la_n K b.
Proof.
  intros I Hp Hl. eapply ci_ready; [exact I|exact Hp|]. destruct (ci_fields _ _ _ I) as (E & _). rewrite stream_short; [constructor|].
  unfold rest. rewrite bytes_at_length. pose proof (ci_off _ _ _ I). lia.
Qed.
Lemma ci_refill K P b m : ci K P b -> chg_off b + 3 * Z.of_nat m <= region -> ci K P {| b with chg_buf := bytes_at mem (la_base + chg_off b) (3 * m) |}.
Proof. intros I Hm. destruct I. split; try done. by exists m. Qed.

Definition reads_region (rd : Z -> nat -> option (list Z)) : Prop :=
  forall off n bs, 0 <= off -> (0 < n)%nat -> off + Z.of_nat n <= region -> rd off n = Some bs -> bs = bytes_at mem (la_base + off) n.

Lemma chg_loop_spec rd limit la_n E : reads_region rd -> 0 < la_n -> forall fuel b es pos reads b' es' pos',
  going la_n (E ++ es) b -> chg_done b = false -> chg_loop fuel rd limit la_n b es pos reads = Some (b', es', pos') ->
  if chg_done b' then ready la_n (E ++ es') b' else going la_n (E ++ es') b'.
Proof.
  intros Hrd Hn. induction fuel as [|fuel IH]; intros b es pos reads b' es' pos' G Hd; cbn [chg_loop].
  { intros [= <- <- _]. by rewrite Hd. }
  match goal with |- context [chg_done b || ?x] => replace (chg_done b || x) with x by (by rewrite Hd); destruct x end; [intros [= <- <- _]; by rewrite Hd|].
  assert (forall b0 reads0, going la_n (E ++ es) b0 -> chg_done b0 = false -> chg_buf b0 <> [] ->
    (let '(b1, es1, pos1, stop) := chg_event la_n b0 es pos in if stop then Some (b1, es1, pos1) else chg_loop fuel rd limit la_n b1 es1 pos1 reads0) = Some (b', es', pos') ->
    if chg_done b' then ready la_n (E ++ es') b' else going la_n (E ++ es') b') as Go.
  { intros b0 reads0 (Hs & Hp & P & I) Hd0 Hne. destruct (chg_event la_n b0 es pos) as [[[b1 es1] pos1] stop] eqn:Ev.
    pose proof (chg_event_spec la_n Hn E P es b0 pos I Hp Hne _ _ _ _ Hs Hd0 Ev) as S. destruct stop.
    - destruct S as [S1 S2]. intros [= <- <- _]. by rewrite S1.
    - destruct S as (S1 & S2 & S3 & S4). apply IH; [by split_and!|exact S1]. }
  destruct (chg_buf b) as [|x xs] eqn:Eb; [|apply Go; [exact G|exact Hd|by rewrite Eb]].
  destruct reads as [|reads]; [intros [= <- <- _]; by rewrite Hd|]. destruct G as (Hs & Hp & P & I). pose proof (ci_off _ _ _ I) as Ho. destruct (ci_fields _ _ _ I) as (F1 & _).
  destruct (Z.ltb_spec (chg_end b - chg_off b) 3) as [Hl|Hl]; [intros [= <- <- _]; cbn [chg_done]; exact (ci_exhausted _ _ _ _ I Hp Hl)|].
  set (left := Z.min (chg_end b - chg_off b) 255). pose proof (Z.div_mod left 3 ltac:(lia)) as Dm. pose proof (Z.mod_pos_bound left 3 ltac:(lia)) as Db.
  replace (left - left mod 3) with (3 * (left / 3)) by lia. assert (3 <= left <= chg_end b - chg_off b) as Hleft by lia. clearbody left.
  destruct (rd _ _) as [bs|] eqn:Er; [|done]. apply Hrd in Er; [|lia..]. replace (Z.to_nat (3 * (left / 3))) with (3 * Z.to_nat (left / 3))%nat in Er by lia.
  apply Go; [|exact Hd|].
  - split; [exact Hs|]. split; [exact Hp|]. exists P. rewrite Er. apply ci_refill; [exact I|lia].
  - cbn. rewrite Er. intros H. apply (f_equal length) in H. rewrite bytes_at_length in H. cbn in H. lia.
Qed.

(** The last flush gives the whole view. *)
Lemma final_flush la_n E es b pos b' es' pos' : ready la_n (E ++ es) b -> (if 0 <=? chg_pend_i b then chg_flush b es pos else (b, es, pos)) = (b', es', pos') ->
  (forall i, 0 <= i < la_n -> last_at (E ++ es') i = last_at (idxs events) i) /\ chg_keeps b b' /\ chg_done b' = chg_done b.
Proof.
  intros [R1 R2] H. unfold pend in R1. destruct (chg_first b).
  - destruct R2 as [R2 R3]. rewrite R3 in H. injection H as <- <- _. split; [|split; [apply chg_keeps_refl|done]]. intros i Hi. rewrite <- R1 by done. by rewrite app_nil_r.
  - destruct R2 as (R2 & R3 & R4 & R5). rewrite (proj2 (Z.leb_le _ _)) in H by lia. pose proof (chg_flush_keeps _ _ _ _ _ _ H) as K. split; [|split; [exact K|by apply (chg_flush_done _ _ _ _ _ _ H)]].
    destruct (chg_flush_spec E _ _ _ _ _ _ H R3 R4 R5) as (S & _). intros i Hi. by rewrite S, R1.
Qed.

(** ** The pump *)

Section Pump.
Context (adc_base adc_n la_n conn : Z) (tx0 : list effect).
Context (Hadc : 0 <= adc_n) (Hn : 0 < la_n) (Hadb : 0 <= adc_base) (Hlae : la_base + 2 * la_n <= 4294967296) (Hade : adc_base + 2 * adc_n <= 4294967296).

Record chg_inv (fs : list frame) (c : cap_t) : Prop := {
  gi_tx : s_tx c = tx0 ++ map (EFrame conn) fs;
  gi_base : s_la_cap_base c = la_base;
  gi_conn : conn_id (s_bulk c) = conn; gi_total : total (s_bulk c) = adc_n + la_n; gi_ps : from_psram (s_bulk c) = true; gi_adc : adc_samples (s_bulk c) = adc_n;
  gi_chg : chg (s_bulk c) = true; gi_active : active (s_bulk c) = true;
  gi_sent : adc_n <= sent (s_bulk c) <= adc_n + la_n;
  gi_data : k_data (received fs) = words_at mem adc_base (Z.to_nat adc_n);
  gi_final : forall j, 0 <= j < sent (s_bulk c) - adc_n -> last_at (k_edges (received fs)) j = last_at (idxs events) j;
  gi_upto : (k_upto (received fs) = None /\ sent (s_bulk c) = adc_n) \/ k_upto (received fs) = Some (sent (s_bulk c) - adc_n);
  gi_state : if sent (s_bulk c) <? adc_n + la_n then chg_done (s_bulk c) = false /\ going la_n (k_edges (received fs)) (s_bulk c) /\ Forall (fun f => f_more f = true) fs
             else closed_frames fs }.

Lemma going_keep K b f1 f2 : going la_n K b -> going la_n K {| b with progress_ms := f1; chg_hdr := f2 |}.
Proof. intros (H1 & H2 & P & I). split; [exact H1|]. split; [exact H2|]. exists P. by destruct I. Qed.

Definition drop_like (c c' : cap_t) : Prop := active (s_bulk c') = false /\ (s_tx c' = s_tx c ++ [EClose conn] \/ exists msg, s_tx c' = s_tx c ++ [EError conn msg]).
Lemma drop_like_drop c c1 : s_tx c1 = s_tx c -> conn_id (s_bulk c1) = conn -> drop_like c (bulk_drop c1).
Proof. intros E Ec. unfold drop_like, bulk_drop, bulk_done. rewrite Ec. destruct (from_psram (s_bulk c1)); cbn; split; try done; left; by rewrite E. Qed.
Lemma drop_like_failed c c1 msg : s_tx c1 = s_tx c -> conn_id (s_bulk c1) = conn -> drop_like c (bulk_read_failed msg c1).
Proof. intros E Ec. split; [done|]. right. exists msg. cbn. by rewrite E, Ec. Qed.

Lemma reads_ok_region a c : reads_ok mem a -> s_la_cap_base c = la_base -> reads_region (fpga_la_psram_read (a_read a) c).
Proof. intros Hr E off n bs H1 H0 H2 H. unfold fpga_la_psram_read in H. rewrite E, u32_id in H by lia. by apply Hr. Qed.

Lemma take_edges k0 m es upto t more : take_frame k0 (Frame m (BEdges es upto) t more) = {| k0 with k_edges := k_edges k0 ++ es; k_upto := Some upto |}.
Proof. done. Qed.

(** A frame of the change pump that the connection takes. *)
Lemma chg_frame fs a c f c' b' es (done : bool) : chg_inv fs c -> chg_keeps (s_bulk c) b' ->
  queue_frame a f (set_bulk b' c) = Some c' -> f_body f = BEdges es (sent b' - adc_n) -> f_more f = negb done -> Forall (fun f => f_more f = true) fs ->
  (if done then sent b' = adc_n + la_n /\ (forall i, 0 <= i < la_n -> last_at (k_edges (received fs) ++ es) i = last_at (idxs events) i)
   else chg_done b' = false /\ going la_n (k_edges (received fs) ++ es) b') ->
  chg_inv (fs ++ [f]) (set_bulk {| b' with chg_hdr := true |} c').
Proof.
  intros I Kp Q Hb Hm Hmore H. destruct I. unfold chg_keeps in Kp. destruct Kp as (K1 & K2 & K3 & K4 & K5 & K6 & _).
  unfold queue_frame in Q. destruct (_ <=? a_room a); [|done]. injection Q as <-.
  assert (take_frame (received fs) f = let k := received fs in {| k with k_edges := k_edges k ++ es; k_upto := Some (sent b' - adc_n) |}) as Ek.
  { destruct f as [fm fb ft fmo]. cbn in Hb. subst fb. apply take_edges. }
  assert (adc_n <= sent b' <= adc_n + la_n /\ (if done then sent b' = adc_n + la_n else sent b' < adc_n + la_n)) as [Hs Hd].
  { destruct done; cbv iota; [destruct H as [-> _]; split; lia|]. destruct H as (_ & Hs & Hp & _). unfold final_upto in Hs. rewrite K6, gi_adc0 in Hs. split; lia. }
  split; rewrite ?received_snoc, ?Ek; cbn -[words_at last_at Z.max]; try congruence.
  - rewrite gi_tx0, map_app, K2, gi_conn0. by rewrite app_assoc.
  - intros j Hj. destruct done; [apply H; lia|]. destruct H as (_ & Hsent & Hp & P & I). unfold final_upto in Hsent. rewrite K6, gi_adc0 in Hsent. apply (ci_final _ P b'); [exact I|lia].
  - by right.
  - destruct done.
    + rewrite (proj2 (Z.ltb_ge _ _)) by lia. by exists fs, f.
    + rewrite (proj2 (Z.ltb_lt _ _)) by lia. destruct H as (H1 & H2). split; [exact H1|]. split; [exact (going_keep _ _ (progress_ms b') true H2)|].
      apply Forall_app. split; [done|]. by constructor.
Qed.

Definition chg_step_res (fs : list frame) (c : cap_t) (r : cap_t * bool) : Prop :=
  if snd r then exists f, chg_inv (fs ++ [f]) (fst r) else chg_inv fs (fst r) \/ drop_like c (fst r).
Lemma chg_pump_step fs a c : chg_inv fs c -> reads_ok mem a -> sent (s_bulk c) < adc_n + la_n -> chg_step_res fs c (bulk_pump_changes a c).
Proof.
  intros I Hr Hs. pose proof (gi_state _ _ I) as St. rewrite (proj2 (Z.ltb_lt _ _)) in St by lia. destruct St as (Hd & G & Hmore).
  unfold bulk_pump_changes. cbn zeta. rewrite (gi_total _ _ I), (gi_adc _ _ I). replace (adc_n + la_n - adc_n) with la_n by lia.
  destruct (chg_loop _ _ _ _ _ _ _ _) as [[[b' es] pos]|] eqn:E; [|right; by apply drop_like_failed, I].
  pose proof (chg_loop_keeps _ _ _ _ _ _ _ _ _ _ _ E) as Kp. pose proof Kp as Kp'. unfold chg_keeps in Kp'. destruct Kp' as (_ & K2 & _ & _ & K5 & K6 & _).
  apply (chg_loop_spec _ _ la_n (k_edges (received fs)) (reads_ok_region a c Hr (gi_base _ _ I)) Hn) in E; [|by rewrite app_nil_r|exact Hd].
  destruct (chg_done b') eqn:Db.
  - destruct (if 0 <=? chg_pend_i b' then chg_flush b' es pos else (b', es, pos)) as [[b2 es2] pos2] eqn:F.
    destruct (final_flush la_n _ _ _ _ _ _ _ E F) as (Hv & Kf & Df). pose proof (chg_keeps_trans _ _ _ Kp Kf) as K0.
    set (b3 := {| b2 with chg_pend_i := -1; sent := total b2 |}). assert (chg_keeps (s_bulk c) b3) as K3 by exact K0. assert (sent b3 = adc_n + la_n) as S3.
    { unfold chg_keeps in K0. destruct K0 as (_ & _ & _ & _ & K0 & _). unfold b3. cbn. by rewrite K0, (gi_total _ _ I). }
    assert (adc_samples b3 = adc_n) as A3 by (unfold chg_keeps in K3; destruct K3 as (_ & _ & _ & _ & _ & K3 & _); by rewrite K3, (gi_adc _ _ I)).
    assert (conn_id b3 = conn) as C3 by (unfold chg_keeps in K3; destruct K3 as (_ & K3 & _); by rewrite K3, (gi_conn _ _ I)). assert (chg_done b3 = true) as D3 by (unfold b3; cbn; by rewrite Df). clearbody b3.
    destruct (queue_frame _ _ _) as [c'|] eqn:Q; [|right; by apply drop_like_drop]. eexists. cbn [fst].
    apply (chg_frame fs a c _ c' b3 es2 true I K3 Q); [cbn; by rewrite A3|cbn; by rewrite D3|exact Hmore|by split].
  - assert (adc_samples b' = adc_n) as A3 by (by rewrite K6, (gi_adc _ _ I)). assert (conn_id b' = conn) as C3 by (by rewrite K2, (gi_conn _ _ I)).
    destruct (queue_frame _ _ _) as [c'|] eqn:Q; [|right; by apply drop_like_drop]. eexists. cbn [fst].
    apply (chg_frame fs a c _ c' b' es false I Kp Q); [cbn; by rewrite A3|cbn; by rewrite Db|exact Hmore|by split].
Qed.

(** *** The ADC samples first *)

Context (b0 : bulk_t).
Context (B1 : chg b0 = true) (B2 : chg_first b0 = true) (B3 : chg_done b0 = false) (B4 : chg_k b0 = k) (B5 : chg_off b0 = 0) (B6 : chg_end b0 = region)
        (B7 : chg_buf b0 = []) (B8 : chg_t b0 = 0) (B9 : chg_base b0 = base) (B10 : chg_pend_i b0 = -1).
Local Abbreviation adc_inv := (raw_inv b0 mem la_base adc_base adc_n la_n 0 conn tx0).

Lemma ci_start b : chg_fields b = chg_fields b0 -> la_last b = -1 -> ci [] [] b.
Proof.
  unfold chg_fields. intros F L. injection F as F1 F2 F3 F4 F5 F6 F7 F8 F9 F10 F11 F12 F13 F14. split; rewrite ?F3, ?F5, ?F6, ?F7, ?F8, ?F9, ?F10, ?F13, ?B2, ?B4, ?B5, ?B6, ?B7, ?B8, ?B9, ?B10.
  - done.
  - lia.
  - exists 0%nat. split; [done|lia].
  - unfold events, rest. rewrite F6, B5. by rewrite Z.add_0_r, Z.sub_0_r.
  - intros i. unfold pend. by rewrite F3, B2.
  - by split_and!.
Qed.
Lemma adc_done fs c : adc_inv fs c -> sent (s_bulk c) = adc_n -> chg_inv fs c.
Proof.
  intros I Hs. pose proof (no_edges _ _ _ _ _ _ _ _ _ _ _ I ltac:(lia)) as Ke. destruct I. pose proof ri_chg as F. unfold chg_fields in F. injection F as F1 F2 F3 F4 F5 F6 F7 F8 F9 F10 F11 F12 F13 F14.
  split; try done; try lia; try congruence.
  - rewrite ri_data, Hs. f_equal; [lia|]. f_equal. lia.
  - destruct ri_upto as [[H _]|[H _]]; [by left|by right].
  - rewrite (proj2 (Z.ltb_lt _ _)) by lia. rewrite (proj2 (Z.ltb_lt _ _)) in ri_more by lia. split; [congruence|]. split; [|done]. rewrite Ke. split.
    + unfold final_upto. rewrite F13, B10. lia.
    + split; [lia|]. exists []. apply ci_start; [done|]. by rewrite ri_last, Ke.
Qed.

Lemma drop_sent c : sent (s_bulk (bulk_drop c)) = sent (s_bulk c).
Proof. unfold bulk_drop, bulk_done. by destruct (from_psram (s_bulk c)). Qed.
Lemma dense_stays fs a c : adc_inv fs c -> sent (s_bulk c) < adc_n -> sent (s_bulk (fst (bulk_pump_dense a c))) <= adc_n.
Proof.
  intros I Hs. destruct I. unfold bulk_pump_dense. cbn zeta. destruct (dense_room _ _) as [room|] eqn:R; [|cbn; lia]. apply dense_room_pos in R.
  destruct (dense_read _ _ _); [|cbn; lia]. unfold queue_frame. destruct (_ <=? a_room a); [|cbn [fst]; rewrite drop_sent; lia]. cbn. unfold this_chunk.
  rewrite ri_ps, ri_16, ri_adc, ri_total. rewrite (proj2 (Z.ltb_lt (sent (s_bulk c)) adc_n)) by lia. cbn [andb]. clear ri_more.
  match goal with |- context [?x <? ?y] => destruct (Z.ltb_spec x y) end; lia.
Qed.

(** The read-back is in its ADC samples or in its changes. *)
Definition chg_running (fs : list frame) (c : cap_t) : Prop := (adc_inv fs c /\ sent (s_bulk c) < adc_n) \/ chg_inv fs c.
Lemma running_of_adc fs c : adc_inv fs c -> sent (s_bulk c) <= adc_n -> chg_running fs c.
Proof. intros I H. destruct (decide (sent (s_bulk c) = adc_n)); [right; by apply adc_done|left; split; [done|lia]]. Qed.
Lemma chg_progress fs c t : chg_inv fs c -> chg_inv fs (set_progress t c).
Proof.
  intros I. destruct I. split; try done. cbn. clear gi_upto0 gi_final0. destruct (_ <? _); [|done]. destruct gi_state0 as (H1 & H2 & H3). split_and!; try done.
  exact (going_keep _ _ t (chg_hdr (s_bulk c)) H2).
Qed.

Definition run_res (fs : list frame) (c : cap_t) (r : cap_t * bool) : Prop :=
  if snd r then exists f, chg_running (fs ++ [f]) (fst r) else chg_running fs (fst r) \/ drop_like c (fst r).
Lemma run_res_same fs c c1 r : s_tx c1 = s_tx c -> run_res fs c1 r -> run_res fs c r.
Proof. intros E. unfold run_res, drop_like. by rewrite E. Qed.
Lemma raw_dense_here fs a c : adc_inv fs c -> reads_ok mem a -> sent (s_bulk c) < adc_n -> raw_step b0 mem la_base adc_base adc_n la_n 0 conn tx0 fs c (bulk_pump_dense a c).
Proof. apply raw_dense; try assumption; lia. Qed.
Lemma run_go fs c f c' : adc_inv (fs ++ [f]) c' -> sent (s_bulk c') <= adc_n -> run_res fs c (c', true).
Proof. intros I H. exists f. exact (running_of_adc _ _ I H). Qed.
Lemma run_wait fs c c' : adc_inv fs c' -> sent (s_bulk c') <= adc_n -> run_res fs c (c', false).
Proof. intros I H. left. exact (running_of_adc _ _ I H). Qed.
Lemma run_drop fs c c' : raw_abort conn c c' -> run_res fs c (c', false).
Proof. intros I. right. exact I. Qed.
Lemma run_of_raw fs c r : raw_step b0 mem la_base adc_base adc_n la_n 0 conn tx0 fs c r -> sent (s_bulk (fst r)) <= adc_n -> run_res fs c r.
Proof.
  destruct r as [c' []].
  - intros (f & I & _) H. exact (run_go fs c f c' I H).
  - intros [I|I] H; [exact (run_wait fs c c' I H)|exact (run_drop fs c c' I)].
Qed.
Lemma running_dense fs a c : adc_inv fs c -> sent (s_bulk c) < adc_n -> reads_ok mem a -> run_res fs c (bulk_pump_dense a c).
Proof.
  intros I Hlt Hr. apply run_of_raw; [by apply raw_dense_here|by apply (dense_stays fs)].
Qed.
Lemma run_of_chg fs c r : chg_step_res fs c r -> run_res fs c r.
Proof.
  destruct r as [c' []].
  - intros [f I]. exists f. right. exact I.
  - intros [I|I]; [left; right; exact I|right; exact I].
Qed.
Lemma running_changes fs a c : chg_inv fs c -> sent (s_bulk c) < adc_n + la_n -> reads_ok mem a -> run_res fs c (bulk_pump_changes a c).
Proof.
  intros I Hs Hr. apply run_of_chg. by apply chg_pump_step.
Qed.
Lemma adc_progress fs c t : adc_inv fs c -> adc_inv fs (set_progress t c).
Proof. apply raw_same; [reflexivity..|by exists t]. Qed.
Lemma running_fields fs c : chg_running fs c -> conn_id (s_bulk c) = conn /\ chg (s_bulk c) = true /\ adc_samples (s_bulk c) = adc_n /\ total (s_bulk c) = adc_n + la_n /\
  active (s_bulk c) = true /\ s_tx c = tx0 ++ map (EFrame conn) fs.
Proof. intros [[I _]|I]; destruct I; split_and!; try done. unfold chg_fields in ri_chg. congruence. Qed.
Lemma running_step fs a c : chg_running fs c -> reads_ok mem a -> sent (s_bulk c) < adc_n + la_n -> run_res fs c (bulk_step a c).
Proof.
  intros W Hr Hs. destruct (running_fields fs c W) as (Hc & Hch & Had & _). unfold bulk_step.
  destruct (a_avail a <? 96).
  { destruct (BULK_STALL_MS <? _); [right; by apply drop_like_drop|by left]. }
  rewrite Hch, Had. cbn [andb]. apply (run_res_same fs c (set_progress (a_tick a) c)); [reflexivity|]. destruct W as [[I Hlt]|I].
  - rewrite (proj2 (Z.leb_gt _ _)) by lia. rewrite andb_false_r. by apply running_dense; [apply adc_progress|..].
  - rewrite (proj2 (Z.leb_le _ _)) by apply I. destruct (a_avail a <? 200); [left; right; by apply chg_progress|]. by apply running_changes; [apply chg_progress|..].
Qed.

(** Where a pass can leave it. *)
Definition chg_whole (fs : list frame) : Prop :=
  closed_frames fs /\ k_data (received fs) = words_at mem adc_base (Z.to_nat adc_n) /\
  (forall j, 0 <= j < la_n -> last_at (k_edges (received fs)) j = last_at events (base + j * k)) /\ k_upto (received fs) = Some la_n.
Definition chg_outcome (c : cap_t) : Prop :=
  exists fs, chg_running fs c \/
    (active (s_bulk c) = false /\ s_tx c = tx0 ++ map (EFrame conn) fs /\ chg_whole fs) \/
    (active (s_bulk c) = false /\ (s_tx c = tx0 ++ map (EFrame conn) fs ++ [EClose conn] \/ exists msg, s_tx c = tx0 ++ map (EFrame conn) fs ++ [EError conn msg]) /\
     Forall (fun f => f_more f = true) fs).

Lemma running_more fs c : chg_running fs c -> sent (s_bulk c) < adc_n + la_n -> Forall (fun f => f_more f = true) fs.
Proof.
  intros [[I Hlt]|I] Hs.
  - pose proof (ri_more _ _ _ _ _ _ _ _ _ _ _ I) as H. by rewrite (proj2 (Z.ltb_lt _ _)) in H by lia.
  - pose proof (gi_state _ _ I) as H. rewrite (proj2 (Z.ltb_lt _ _)) in H by lia. apply H.
Qed.
Lemma chg_over fs c : chg_running fs c -> adc_n + la_n <= sent (s_bulk c) -> chg_outcome (bulk_done c).
Proof.
  intros W Hs. destruct W as [[_ Hlt]|I]; [lia|]. pose proof (gi_sent _ _ I) as Hsent. exists fs. right; left.
  assert (s_tx (bulk_done c) = s_tx c /\ active (s_bulk (bulk_done c)) = false) as [E1 E2] by (unfold bulk_done; by destruct (from_psram (s_bulk c))).
  rewrite E1. unfold chg_whole. split_and!; [done|apply I|..].
  - pose proof (gi_state _ _ I) as H. by rewrite (proj2 (Z.ltb_ge _ _)) in H by lia.
  - apply I.
  - intros j Hj. rewrite (gi_final _ _ I) by lia. apply last_idxs. lia.
  - destruct (gi_upto _ _ I) as [[_ H]|H]; [lia|]. rewrite H. f_equal. lia.
Qed.
Lemma chg_pump_loop l c fs : chg_running fs c -> Forall (reads_ok mem) l -> chg_outcome (bulk_pump_loop l c).
Proof.
  revert c fs. induction l as [|a l IH]; intros c fs W Hl; destruct (running_fields fs c W) as (_ & _ & _ & Ht & _ & Htx); cbn [bulk_pump_loop]; rewrite Ht;
    (destruct (Z.leb_spec (adc_n + la_n) (sent (s_bulk c))); [by eapply chg_over|]).
  { exists fs. by left. }
  apply Forall_cons in Hl as [Ha Hl]. pose proof (running_step fs a c W Ha ltac:(done)) as S. destruct (bulk_step a c) as [c' []].
  - destruct S as [f S]. by eapply IH.
  - destruct S as [S|[Hoff S]]; [exists fs; by left|]. exists fs. right; right. rewrite Htx in S. split_and!; [exact Hoff| |by eapply running_more].
    destruct S as [S|[msg S]]; rewrite <- app_assoc in S; [by left|right; by exists msg].
Qed.
Lemma chg_passes ls c fs : chg_running fs c -> Forall (Forall (reads_ok mem)) ls -> chg_outcome (passes ls c).
Proof.
  intros W H. assert (chg_outcome c) as O by (exists fs; by left). clear W fs. unfold passes. revert c O. induction H as [|l ls Hl _ IH]; intros c O; cbn [fold_left]; [done|].
  apply IH. destruct O as (fs & [W|[(Hoff & Hx)|(Hoff & Hx)]]); unfold bulk_pump.
  - destruct (running_fields fs c W) as (_ & _ & _ & _ & -> & _). by eapply chg_pump_loop.
  - rewrite Hoff. exists fs. auto.
  - rewrite Hoff. exists fs. auto.
Qed.
(** What the client was told is final is. *)
Lemma running_honest fs c u j : chg_running fs c -> k_upto (received fs) = Some u -> 0 <= j < u -> last_at (k_edges (received fs)) j = last_at events (base + j * k).
Proof.
  intros [[I Hlt]|I] Hu Hj.
  - destruct (ri_upto _ _ _ _ _ _ _ _ _ _ _ I) as [[H _]|[_ H]]; [congruence|lia].
  - destruct (gi_upto _ _ I) as [[H _]|H]; [congruence|]. rewrite Hu in H. injection H as ->. rewrite (gi_final _ _ I) by lia. apply last_idxs. lia.
Qed.
End Pump.
End Changes.

(** ** The theorem *)

(** What the scanned stream says. *)
Definition captured (mem : Z -> Z) (s : chgscan_t) (c : cap_t) : list (Z * Z) := stream true 0 (bytes_at mem (s_la_cap_base c) (Z.to_nat (sc_off s))).

(** C38: a change capture reads back as the signal that was captured. The read-back that
    [chgscan_step] starts, however the connection takes its frames, delivers the ADC samples one
    for one and, for each LA sample, the state of the 14 pins at that sample's tick as the events in the PSRAM give
    it; while it runs, every sample below the frames' [la_upto] is already the right one; and
    if it is cut short no frame claimed to be the last. *)
Theorem change_readback_exact mem p s base pre trunc n c ls :
  (forall a, byte_ok (mem a)) -> 0 <= sc_adc_n s -> 0 < n -> 0 < sc_k s -> 0 <= base -> 0 <= sc_off s -> s_la_cap_base c + sc_off s <= 4294967296 ->
  regions_fit c (sc_adc_n s) n -> Forall (Forall (reads_ok mem)) ls ->
  let c' := passes ls (scan_start p s base pre trunc n c) in
  exists fs,
    let k := received fs in
    let right_upto u := forall j, 0 <= j < u -> last_at (k_edges k) j = last_at (captured mem s c) (base + j * sc_k s) in
    if active (s_bulk c') then s_tx c' = s_tx c ++ map (EFrame (sc_conn s)) fs /\ (forall u, k_upto k = Some u -> right_upto u)
    else (s_tx c' = s_tx c ++ map (EFrame (sc_conn s)) fs /\ closed_frames fs /\ k_data k = words_at mem (s_adc_cap_base c) (Z.to_nat (sc_adc_n s)) /\ right_upto n /\ k_upto k = Some n)
         \/ cut_short c c' (sc_conn s) fs.
Proof.
  intros Hm H1 H2 H3 H4 H5 H6 (R1 & R2 & R3 & R4) Hr. cbn zeta. set (x := scan_start p s base pre trunc n c).
  assert (raw_inv (s_bulk x) mem (s_la_cap_base c) (s_adc_cap_base c) (sc_adc_n s) n 0 (sc_conn s) (s_tx c) [] x) as I.
  { split; cbn -[words_at Z.min Z.max]; try done; try lia.
    - by rewrite app_nil_r.
    - by replace (Z.to_nat (Z.min 0 (sc_adc_n s) - 0)) with 0%nat by lia.
    - left. split; [done|lia].
    - rewrite (proj2 (Z.ltb_lt _ _)) by lia. constructor. }
  assert (chg_running mem (s_la_cap_base c) (sc_off s) (sc_k s) base (s_adc_cap_base c) (sc_adc_n s) n (sc_conn s) (s_tx c) (s_bulk x) [] x) as W.
  { apply running_of_adc; try done; try lia. }
  pose proof (chg_passes mem Hm (s_la_cap_base c) (sc_off s) (sc_k s) base H3 H4 R1 H5 H6 (s_adc_cap_base c) (sc_adc_n s) n (sc_conn s) (s_tx c) H1 H2 R3 R2 R4 (s_bulk x)
    eq_refl eq_refl eq_refl eq_refl eq_refl eq_refl eq_refl eq_refl eq_refl eq_refl ls x [] W Hr) as (fs & [O|[(Hoff & Hx)|(Hoff & Hx)]]); exists fs.
  - pose proof O as F. eapply running_fields in F as (_ & _ & _ & _ & -> & Htx); [|done..]. split; [exact Htx|]. intros u Hu j Hj. by eapply running_honest.
  - rewrite Hoff. left. destruct Hx as (Htx & Hx). split; [exact Htx|exact Hx].
  - rewrite Hoff. right. exact Hx.
Qed.

(** ** A witness: two ADC samples and ten LA samples of a five-event stream

    Ticks 0, 3, 4, 9 and the end; a sample every second tick from tick 1. *)
Definition event_bytes (d w : Z) : list Z := le 3 (Z.lor (Z.shiftl d 14) w).
Definition chg_bytes : list Z := event_bytes 0 5 ++ event_bytes 3 7 ++ event_bytes 1 8 ++ event_bytes 5 7 ++ event_bytes 0 0.
(** The LA region is at 4096. *)
Definition chg_mem (a : Z) : Z := if (4096 <=? a) && (a <? 4111) then nth (Z.to_nat (a - 4096)) chg_bytes 0 mod 256 else a mod 7.
Lemma chg_mem_bytes a : byte_ok (chg_mem a).
Proof. unfold byte_ok, chg_mem. case_match; [apply Z.mod_pos_bound; lia|]. pose proof (Z.mod_pos_bound a 7). lia. Qed.
Definition chg_ans (avail : Z) : ans_t := Ans 5 avail avail (fun a n => Some (bytes_at chg_mem a n)).
Lemma chg_ans_ok ls : Forall (Forall (reads_ok chg_mem)) (map (map chg_ans) ls).
Proof. apply Forall_map, Forall_forall. intros l _. apply Forall_map, Forall_forall. intros x _ addr n bs [= <-]. done. Qed.
Definition poll_ex : poll_t := Poll 0 5 false false (0, []) 0 0 false false 0 0 (fun a n => Some (bytes_at chg_mem a n)) [].
Definition scan_ex : chgscan_t := Chgscan true 4 10 2 0 24000000 15 15 17 false true 0 2 1000 false.

Theorem change_readback_exact_witness :
  let c' := passes (map (map chg_ans) [[64; 300]; [300]; [1000; 1000; 1000]]) (scan_start poll_ex scan_ex 1 0 0 10 cap_ex) in
  captured chg_mem scan_ex cap_ex = [(0, 5); (3, 7); (4, 8); (9, 7)] /\ active (s_bulk c') = false /\ length (s_tx c') = 2%nat /\
  exists fs,
    let k := received fs in
    let right_upto u := forall j, 0 <= j < u -> last_at (k_edges k) j = last_at (captured chg_mem scan_ex cap_ex) (1 + j * 2) in
    if active (s_bulk c') then s_tx c' = s_tx cap_ex ++ map (EFrame 4) fs /\ (forall u, k_upto k = Some u -> right_upto u)
    else (s_tx c' = s_tx cap_ex ++ map (EFrame 4) fs /\ closed_frames fs /\ k_data k = words_at chg_mem (s_adc_cap_base cap_ex) 2 /\ right_upto 10 /\ k_upto k = Some 10)
         \/ cut_short cap_ex c' 4 fs.
Proof.
  split; [vm_compute; reflexivity|]. split; [vm_compute; reflexivity|]. split; [vm_compute; reflexivity|].
  exact (change_readback_exact chg_mem poll_ex scan_ex 1 0 0 10 cap_ex (map (map chg_ans) [[64; 300]; [300]; [1000; 1000; 1000]]) chg_mem_bytes
    ltac:(cbn; lia) ltac:(lia) ltac:(cbn; lia) ltac:(lia) ltac:(cbn; lia) ltac:(cbn; lia) ltac:(unfold regions_fit; cbn; lia) (chg_ans_ok _)).
Defined.
